(* ===== verification/_CoqProject ===== *)
-Q . S2P
Prelude.v
GoStrings.v
GoEncoding.v
GoStrconv.v
GoNet.v
GoStruct.v
GoUnicode.v
Policy.v
RateLimit.v
References.v
Schema.v
Database.v
Crypto.v
Jobs.v
Authority.v
AuditLog.v
VaultStore.v
Vault.v
VaultCollections.v
VaultPromotion.v
PromotionRepo.v
PromotionService.v
VaultLifecycle.v
EnvFile.v
ApiKeys.v
Grants.v
McpAuth.v
McpAuthSpec.v
Automation.v
Runner.v
Broker.v
Runs.v
RunGrants.v
RunOps.v
RunRecovery.v
RunManage.v
RunSpec.v
RunRefine.v
RunExample.v
RunTheorems.v
Passwords.v
Identity.v
Sessions.v
IdentityTeam.v
IdentityDelivery.v
IdentitySpec.v
IdentityTeamSpec.v
IdentityTrace.v
IdentityTheorems.v
OffboardTheorems.v
SessionTheorems.v
SignIn.v
SocialAuth.v
SignInTheorems.v
