(* ===== verification/Prelude.v ===== *)
(** * KeepSave: a verification library for the server of a secrets manager

    KeepSave ([backend/], Go) stores the secrets of projects, per environment
    ([alpha], [uat], [prod]), and hands them to people, API keys, agents and OAuth
    clients; it also runs reviewed tool operations for agents, with credentials
    the agents never see.  This library models the parts that decide who may do
    what, keep the history of every value, move values between environments, run
    tool operations, and record what happened, and proves what makes them correct.

    ** The parts and how they interact

    A request carries a principal.  The authority store loads the authority the
    principal holds now, after an admission barrier has taken the row locks that
    serialise the request against revocation; the policy evaluator compares
    authority, resource and action.  The vault does its work in one transaction:
    barrier, permission, audit entry, outbox event, journal write.  Workers take
    the events from the outbox.  The promotion service drives the vault's
    promotion steps, or, where no vault is configured, copies the live table.
    The tool platform uses the same barriers, evaluator and audit trail, the OAuth
    service for the families its clients act under, and the broker for the calls
    to the provider; archiving a project in the vault ends its runs.  People sign
    in to sessions, with a password or through Google or GitHub; the identity
    platform admits members, removes them, recovers accounts and mails the proofs
    this takes, and its departures end the runs and keys of who leaves.

    Paths below are under [backend/internal/].

    - [Prelude]: identifiers, time, errors, the state-and-error monad, [b2p].
    - [GoStrings], [GoEncoding]: what the code uses of Go's [strings], [utf8],
      [hex], [uuid] and [encoding/json]; [GoStrconv]: [strconv.Quote] and
      [Unquote]; [GoNet]: base64, [strings.Fields] and the parts of [net/url].
    - [Policy]: [policy/policy.go], [capabilities.go], [denial.go].
    - [RateLimit]: [api/ratelimit.go].
    - [References]: reference detection and resolution of
      [service/dependency_service.go].
    - [Schema]: the tables of [migrations/postgres] the modelled code touches, as
      maps from primary keys, and [World]: database, clock, random source,
      pending driver faults, locks taken.
    - [Database]: statements and transactions, and the preservation calculus
      ([keeps], [ok_keeps]) every component's invariants are proved with.
    - [Crypto]: [crypto/crypto.go].
    - [Jobs]: [jobs/queue.go], the outbox.
    - [Authority]: [authority/guard.go] and [repository/authority_store.go].
    - [AuditLog]: [repository/audit_repo.go], the hash-chained audit log.
    - [VaultStore]: the SQL of the vault as statements, the journal invariant
      [journal_ok], and the order [history_grows].
    - [Vault]: [vault/service.go], [rotation.go], [project.go], [ephemeral.go].
    - [VaultCollections]: [vault/collections.go].
    - [VaultPromotion]: [vault/promotion.go].
    - [VaultLifecycle]: [vault/lifecycle.go].
    - [PromotionRepo]: [repository/promotion_repo.go],
      [promotion_transactions.go] and the operations of [secret_repo.go],
      [environment_repo.go] and [project_repo.go] that promotions use.
    - [PromotionService]: [service/promotion_service.go], [promotion_vault.go]
      and [emitAudit] of [audit_helper.go].
    - [EnvFile]: [service/envfile_strict.go] and the parser of
      [envfile_service.go].
    - [ApiKeys]: [service/apikey_service.go] and [apikey_transactions.go] over
      [repository/apikey_repo.go] and [apikey_transactions.go]; [auth/apikey.go].
    - [Grants]: [service/lease_service.go], [lease_transactions.go],
      [agent_token_service.go], [agent_token_transactions.go] and
      [identity_event.go], the denylist of [repository/token_denylist_repo.go]
      and the claims of [auth/auth.go], with [grant_step] as their specification.
    - [McpAuth]: [mcpauth/types.go], [service.go], [delegations.go], [http.go],
      OAuth for MCP clients; [McpAuthSpec]: its specification [oauth_step], the
      refinement, its theorems and their examples.
    - [GoStruct]: how [encoding/json] decodes into structs.
    - [Automation]: [automation/artifacts.go], [mcpgateway/catalog/catalog.go].
    - [Runner]: the requests and tickets of [runner/types.go].
    - [Broker]: [broker/github.go], credential custody and the provider's reads.
    - [Runs]: [runs/service.go], [scope.go] and what the other files share;
      [RunGrants]: [runs/grants.go], [lifecycle.go]; [RunOps]:
      [runs/operations.go]; [RunRecovery]: [runs/recovery.go]; [RunManage]:
      [runs/management.go], [inspection.go], [diagnostics.go].
    - [RunSpec]: the step relation [tool_step] of the platform's tables, the order
      [tool_grows] and the invariant [tool_wf]; [RunRefine]: every operation is a
      path of such steps; [RunExample]: a platform with a provider and a run of
      it; [RunTheorems]: what holds of every run, and the wiring of
      [cmd/server/platform.go].
    - [GoUnicode]: [unicode] classes, [strings.ToLower] and mail addresses.
    - [Passwords]: [auth/password_policy.go], [auth/password.go].
    - [Identity]: [identity/service.go]; [IdentityTeam]: [identity/team.go] and
      [offboarding_preview.go]; [IdentityDelivery]: [identity/delivery.go] and
      [worker.go].
    - [Sessions]: [service/session_service.go], [repository/session_repo.go],
      [session_delegations.go] and token validation of [auth/auth.go].
    - [IdentitySpec], [IdentityTeamSpec]: what the operations do to the tables,
      as equations; [IdentityTrace]: the step relation [identity_step], in which
      the operations interleave, and what every run keeps; [IdentityTheorems],
      [OffboardTheorems], [SessionTheorems]: the properties, their examples and
      the wiring [configureIdentity] of [cmd/server/platform.go].
    - [SignIn]: [service/auth_service.go] over [repository/user_repo.go] and
      [auth_attempts_repo.go]; [SocialAuth]: [service/social_auth_service.go],
      [social_auth_providers.go] and [repository/social_auth_repo.go];
      [SignInTheorems]: what signing in guarantees, with examples.

    An operation of the code is a definition of the same name, a function of the
    world that returns a result (a value or an error) and the world it leaves; a
    loop is [for_each] or [for_fold] over the list it ranges over; a Go error is
    an [error] with its wrapping, so that [errors.Is] is a function; 64-bit
    integers that can overflow wrap ([incr64], [wrap64]).  Interfaces the code
    passes around (authorizer, auditor, archive hook) are functions with their
    contracts as classes ([AuthorizerOk], [AuditorOk], [ArchiveOk]), against which
    the vault is verified and which the server's implementations discharge; the
    tool platform is verified against [PlatformOk] (its barriers, evaluator,
    auditor and OAuth checks) and [ElsewhereOk] (what the rest of the server may do
    to the tables while a request waits), the first discharged for the server's
    wiring by [configurePlatform_ok]; the identity platform is verified against
    [IdentityOk] (barrier, session and role checks, auditor, custody, cascade,
    recovery), discharged for the server's wiring by [configureIdentity_ok].

    ** What the theorems show

    - Policy: the evaluator allows exactly what the stated conditions allow, for
      every principal kind; adding deny patterns or narrowing scopes never widens;
      key patterns are globs; projected denials hide what exists.
    - Admission: locks are taken in one global order; an admitted request held
      live sessions, projects and memberships at that point; agent tokens only
      narrow the authority of who issued them.
    - Envelope encryption: wrapping and unwrapping keys and values are inverse,
      and the legacy fallback reads both formats.
    - Audit: verification accepts exactly the chained logs; appends and prunes
      keep a log verifiable; the head determines the log up to a collision.
    - Outbox: status moves follow one state machine; an external effect is
      dispatched at most once; a worker that lost its lease is fenced; claims take
      one free job and find one when there is one.
    - Vault: put, restore, rotate, read, archive, bulk writes and listings do
      exactly what they say, under the journal invariant and without losing
      history; a stale expectation fails and changes nothing.
    - Promotions: an approval covers exactly the bound revisions; applying copies
      every selected value; rollback restores; over any run requests only move
      forward, with four eyes on production; without a vault rollback is the
      inverse of approval.
    - Limits: a client gets at most the burst plus the rate in any window.
    - References: resolution gives the closed values of acyclic templates.
    - [.env] files: what an export writes the strict parser reads back.
    - Grants: every operation on API keys, leases and agent tokens is one step of
      an abstract specification; along any run grants only narrow and a
      revocation is final; a minted token reads exactly what was leased.
    - Delegated OAuth: the six tables make one step of a specification per
      operation; an approval leads to one code, one family and one usable token; a
      code is redeemed once; an issued token validates to what was approved; a
      replayed refresh token and a revoked delegation end the family for good.
    - Tool platform: every run of operations is a path of the specification; an
      operation is dispatched at most once, only under the authority current at
      that moment, within the limits that two people approved; what a client
      reads is what the provider answered, sealed in between; the broker hands out
      nothing of its credentials; a request key names one operation; waiting for
      an operation ends; an archived project and an ended run stay ended.
    - Sessions: a token validates as long as the session it was issued for is
      live, and not after its revocation.
    - Sign-in: a password signs in to its own account, and to nothing while the
      account is locked; the lockout bounds how many passwords a guesser can try,
      over any sequence of attempts; an external identity signs in to the account
      it is bound to, once per state, never by the email it names.
    - Identity: a proof is used once and guessed at most five times, in any
      interleaving; recovery stores the new password and ends every session, key,
      lease and token of the account; an invitation admits whom it names, with the
      role it names; a departure leaves no membership, key, tool or approval
      behind and carries out what its preview showed; a mail is sent at most once;
      no sign-in method is removed that is the last one.

    ** Assumptions, bounds and fuel

    [url.Parse] and the writing of a URL ([NetURL]) and [uuid.Parse]
    ([UUIDParse]) are parameters, without laws; so are the YAML decoder ([YAML]),
    the JSON-schema library ([JSONSchema]), the HTTP transport, RSA keys and their
    signatures and SHA-1 ([Remote]), what else happens in the database while a
    request waits ([Elsewhere]), and the exporter of native packages; the Unicode
    tables beyond ASCII ([Unicode]), mail addresses ([MailAddress]), bcrypt
    ([Bcrypt]), [LOWER] of the database ([SQLText]), the text of [jsonb]
    ([JsonbText]), the JWT parser ([JWTParser]), the verifier of Google's identity
    tokens ([OIDC]) and whoever sends a mail ([Sender]).
    AES-GCM, HMAC-SHA-256, SHA-256, random bytes and UUIDs are parameters
    ([Primitives]) with their documented laws ([PrimitivesOk]); a theorem that
    needs collision freedom says so by an explicit collision disjunct.  [Toy]
    instantiates them, so that every witness evaluates.  The database has
    PostgreSQL's behaviour: constraints are guards of the writes, a failed
    transaction leaves no trace, and transactions are serialised, as the row
    locks the barriers take make them for the modelled paths.  The clock is
    constant during one operation and free between operations, but for the
    providers' requests and the pauses of [Status], which advance it and let the
    database change.  Recursion that is not structural is on the length of its
    input ([runes_fuel], [unquote_loop], with proofs that it is enough), for
    references on the code's own depth bound of 16, and for the polling of
    [Status] on 22 rounds, which its pauses and its wait of at most two seconds
    never use up ([Status_terminates]).

    ** Not modelled

    HTTP handlers and wiring; the organisation service; the SMTP client; backup and recovery of the vault; the exporter of native
    packages; the gateway's transport; container supervision and
    instrumentation.  The reasons are either that they are glue or I/O, or that
    this library does not reach them. *)
From stdpp Require Export base tactics option list gmap strings sorting pretty fin_maps fin_sets.
From Stdlib Require Export ZArith Lia.
From Stdlib Require Strings.Ascii.
Export (notations) Stdlib.Strings.Ascii.

Abbreviation ascii := Stdlib.Strings.Ascii.ascii.

#[export] Set Warnings "-clear-no-such-hyp,-register-all".

(** ** Identifiers and time

    A [uuid.UUID] is its 128-bit value; its canonical text is fixed-width
    lower-case hexadecimal, so the order of the texts is the order of the
    values.  A [time.Time] is a number of nanoseconds since 1 January of year 1
    (UTC), the instant Go calls the zero time; a [time.Duration] is a number of
    nanoseconds. *)
Abbreviation uuid := N (only parsing).
Definition uuid_Nil : uuid := 0%N.

Abbreviation time := Z (only parsing).
Definition IsZero (t : time) : bool := (t =? 0)%Z.
Definition After (t u : time) : bool := (u <? t)%Z.
Definition Before (t u : time) : bool := (t <? u)%Z.

Definition Millisecond : Z := 1000000.
Definition Second : Z := 1000 * Millisecond.
Definition Minute : Z := 60 * Second.
Definition Hour : Z := 60 * Minute.

(** ** Errors: Go's sentinel errors, [errors.New]/[fmt.Errorf] values and
    [%w] wrapping. *)
Inductive error :=
  | Sentinel (name : string)
  | Errorf (msg : string)
  | Wrapf (msg : string) (wrapped : error).

(** [errors.Is]: the target anywhere in the chain of wrapped errors. *)
Fixpoint errors_Is (e : error) (name : string) : bool :=
  match e with
  | Sentinel n => bool_decide (n = name)
  | Errorf _ => false
  | Wrapf _ e' => errors_Is e' name
  end.

Inductive result (A : Type) :=
  | Ok (a : A)
  | Err (e : error).
Arguments Ok {A} a.
Arguments Err {A} e.

(** ** The state-and-error monad every effectful operation runs in: a value or
    an error, and the state as it was left, also when an error is returned. *)
Definition M (S A : Type) : Type := S -> result A * S.

#[export] Instance M_ret (S : Type) : MRet (M S) := fun A a s => (Ok a, s).
#[export] Instance M_bind (S : Type) : MBind (M S) := fun A B f m s =>
  match m s with
  | (Ok a, s') => f a s'
  | (Err e, s') => (Err e, s')
  end.

Section Monad.
Context {S : Type}.

Definition fail {A} (e : error) : M S A := fun s => (Err e, s).

Definition get {A} (f : S -> A) : M S A := fun s => (Ok (f s), s).

Definition modify (f : S -> S) : M S unit := fun s => (Ok tt, f s).

(** [attempt m]: run [m] and hand its error to the continuation, as Go code
    does when it inspects [err] instead of returning it. *)
Definition attempt {A} (m : M S A) : M S (result A) := fun s =>
  let '(r, s') := m s in (Ok r, s').

(** [on_err e m]: [if err != nil { return e }]. *)
Definition on_err {A} (e : error) (m : M S A) : M S A := fun s =>
  match m s with
  | (Err _, s') => (Err e, s')
  | r => r
  end.

(** [check b e]: [if !b { return e }]. *)
Definition check (b : bool) (e : error) : M S unit :=
  if b then mret () else fail e.

(** [for _, x := range l { body }]. *)
Fixpoint for_each {A} (l : list A) (body : A -> M S unit) : M S unit :=
  match l with
  | [] => mret ()
  | x :: l' => _ ← body x; for_each l' body
  end.

(** The same loop threading a local accumulator. *)
Fixpoint for_fold {A B} (l : list A) (acc : B) (body : B -> A -> M S B) : M S B :=
  match l with
  | [] => mret acc
  | x :: l' => acc' ← body acc x; for_fold l' acc' body
  end.
End Monad.

(** ** Boolean conditions to propositions *)

Create Rewrite HintDb b2p.
#[export] Hint Rewrite negb_true_iff negb_false_iff andb_true_iff andb_false_iff
  orb_true_iff orb_false_iff bool_decide_eq_true bool_decide_eq_false
  existsb_exists forallb_forall Z.ltb_lt Z.ltb_ge Z.leb_le Z.leb_gt Z.eqb_eq Z.eqb_neq
  Nat.leb_le Nat.leb_gt Nat.ltb_lt Nat.ltb_ge Nat.eqb_eq Nat.eqb_neq : b2p.

Lemma existsb_bool_decide {A} (P : A → Prop) `{∀ x, Decision (P x)} l :
  existsb (λ x, bool_decide (P x)) l = true ↔ ∃ x, x ∈ l ∧ P x.
Proof.
  rewrite existsb_exists. split; intros (x & Hin & Hx); exists x; [|by rewrite bool_decide_eq_true, <-list_elem_of_In].
  by rewrite list_elem_of_In, <-(bool_decide_eq_true (P x)).
Qed.
Ltac b2p := autorewrite with b2p in *.
