(* ===== verification/GoStrings.v ===== *)
(** * The part of Go's [strings] package the source uses, on byte strings

    A Go [string] is a sequence of bytes, modelled by [string] (an [ascii] is a
    byte).  Every function here is the executable meaning of a standard-library
    function the repository calls; the lemmas characterise each one by the
    concatenations it inverts. *)
From S2P Require Import Prelude.

(** ** Definitions *)

(** [strings.HasPrefix] followed by [s[len(p):]]. *)
Fixpoint strip_prefix (p s : string) : option string :=
  match p, s with
  | EmptyString, _ => Some s
  | String a p', String b s' =>
      if decide (a = b) then strip_prefix p' s' else None
  | String _ _, EmptyString => None
  end.

(** [strings.HasSuffix] followed by [s[:len(s)-len(suf)]]. *)
Fixpoint strip_suffix (suf s : string) : option string :=
  if decide (s = suf) then Some "" else
  match s with
  | EmptyString => None
  | String c s' => String c <$> strip_suffix suf s'
  end.

Definition HasPrefix (s p : string) : bool :=
  match strip_prefix p s with Some _ => true | None => false end.
Definition HasSuffix (s suf : string) : bool :=
  match strip_suffix suf s with Some _ => true | None => false end.

(** [strings.Index] with the two slices around the match: the text before and
    after the first occurrence of [sep]. *)
Fixpoint find_first (sep s : string) : option (string * string) :=
  match strip_prefix sep s with
  | Some after => Some ("", after)
  | None =>
      match s with
      | EmptyString => None
      | String c s' =>
          '(before, after) ← find_first sep s'; Some (String c before, after)
      end
  end.

(** [strings.Cut]: all of [s] and an empty second part when [sep] is absent. *)
Definition Cut (s sep : string) : string * string * bool :=
  match find_first sep s with
  | Some (before, after) => (before, after, true)
  | None => (s, "", false)
  end.

Definition Contains (s sub : string) : bool :=
  match find_first sub s with Some _ => true | None => false end.

(** [strings.Split] on a one-byte separator. *)
Fixpoint split_byte (sep : ascii) (s : string) : list string :=
  match s with
  | EmptyString => [""]
  | String c s' =>
      if decide (c = sep) then "" :: split_byte sep s' else
      match split_byte sep s' with
      | [] => [String c ""]
      | w :: ws => String c w :: ws
      end
  end.

(** [strings.Join]. *)
Fixpoint Join (l : list string) (sep : string) : string :=
  match l with
  | [] => ""
  | [w] => w
  | w :: l' => w +:+ sep +:+ Join l' sep
  end.

(** [strings.ContainsAny] for ASCII charsets. *)
Fixpoint ContainsAny (s : string) (chars : list ascii) : bool :=
  match s with
  | EmptyString => false
  | String c s' => bool_decide (c ∈ chars) || ContainsAny s' chars
  end.

Definition contains_byte (c : ascii) (s : string) : bool := ContainsAny s [c].

(** ** Lemmas *)

Lemma app_nil_l' s : "" +:+ s = s.
Proof. reflexivity. Qed.
Lemma app_cons c s t : String c s +:+ t = String c (s +:+ t).
Proof. reflexivity. Qed.
Lemma app_nil_r' s : s +:+ "" = s.
Proof. induction s as [|c s IH]; [done|]. by rewrite app_cons, IH. Qed.
Lemma app_assoc' s t u : s +:+ (t +:+ u) = (s +:+ t) +:+ u.
Proof. induction s as [|c s IH]; [done|]. by rewrite !app_cons, IH. Qed.
Lemma length_app' s t : String.length (s +:+ t) = String.length s + String.length t.
Proof. induction s as [|c s IH]; [done|]. rewrite app_cons. simpl. lia. Qed.
Lemma app_inj_l s t u : s +:+ t = s +:+ u → t = u.
Proof. induction s as [|c s IH]; [done|]. rewrite !app_cons. intros [=]. auto. Qed.
Lemma app_eq_nil' s t : s +:+ t = "" → s = "" ∧ t = "".
Proof. by destruct s. Qed.
Lemma length_zero s : String.length s = 0 → s = "".
Proof. by destruct s. Qed.
Lemma app_inj_len s s' t t' :
  s +:+ t = s' +:+ t' → String.length s = String.length s' → s = s' ∧ t = t'.
Proof.
  revert s'. induction s as [|c s IH]; intros [|c' s']; rewrite ?app_cons; try done.
  intros [= -> H] [= Hl]. by destruct (IH _ H Hl) as [-> ->].
Qed.
Lemma app_inj_r s t u : s +:+ u = t +:+ u → s = t.
Proof.
  intros H. apply (app_inj_len s t u u) in H as [-> _]; [done|].
  apply (f_equal String.length) in H. rewrite !length_app' in H. lia.
Qed.
Lemma app_prefix_cases a b c d :
  a +:+ b = c +:+ d → String.length a ≤ String.length c →
  ∃ e, c = a +:+ e ∧ b = e +:+ d.
Proof.
  revert c. induction a as [|x a IH]; intros c H Hle; [by exists c|].
  destruct c as [|y c]; simpl in Hle; [lia|].
  rewrite !app_cons in H. injection H as -> H.
  destruct (IH c H) as (e & -> & ->); [lia|]. by exists e.
Qed.

Create Rewrite HintDb gostr.
#[export] Hint Rewrite app_nil_l' app_cons app_nil_r' length_app' : gostr.

Lemma strip_prefix_Some p s r : strip_prefix p s = Some r ↔ s = p +:+ r.
Proof.
  revert s. induction p as [|a p IH]; intros s; simpl.
  - split; [by intros [= ->]|by intros ->].
  - destruct s as [|b s]; [done|]. case_decide as Hd.
    + subst b. rewrite IH, app_cons. split; [by intros ->|by intros [= ->]].
    + rewrite app_cons. split; [done|]. intros [= -> _]. done.
Qed.

Lemma strip_suffix_Some p s r : strip_suffix p s = Some r ↔ s = r +:+ p.
Proof.
  revert r. induction s as [|c s IH]; intros r; simpl; case_decide as Hd.
  - subst p. split; [by intros [= <-]|]. intros H.
    symmetry in H. by apply app_eq_nil' in H as [-> _].
  - split; [done|]. intros H. symmetry in H. by apply app_eq_nil' in H as [_ ->].
  - subst p. split; [by intros [= <-]|].
    intros H. destruct r as [|x r]; [done|]. exfalso.
    apply (f_equal String.length) in H. rewrite length_app' in H. simpl in H. lia.
  - rewrite fmap_Some. split.
    + intros (r' & Hr & ->). apply IH in Hr. by rewrite app_cons, <-Hr.
    + destruct r as [|x r]; [intros H; by destruct Hd|].
      rewrite app_cons. intros [= -> Hs]. exists r. by rewrite IH.
Qed.

Lemma HasPrefix_spec s p : HasPrefix s p = true ↔ ∃ r, s = p +:+ r.
Proof.
  unfold HasPrefix. destruct (strip_prefix p s) as [r|] eqn:E.
  - apply strip_prefix_Some in E. naive_solver.
  - split; [done|]. intros [r Hr]. apply strip_prefix_Some in Hr. congruence.
Qed.

Lemma HasSuffix_spec s p : HasSuffix s p = true ↔ ∃ r, s = r +:+ p.
Proof.
  unfold HasSuffix. destruct (strip_suffix p s) as [r|] eqn:E.
  - apply strip_suffix_Some in E. naive_solver.
  - split; [done|]. intros [r Hr]. apply strip_suffix_Some in Hr. congruence.
Qed.

Lemma find_first_Some sep s b a : find_first sep s = Some (b, a) → s = b +:+ sep +:+ a.
Proof.
  revert b. induction s as [|c s IH]; intros b; simpl.
  - destruct (strip_prefix sep "") as [r|] eqn:E; [|done].
    intros [= <- <-]. by apply strip_prefix_Some in E.
  - destruct (strip_prefix sep (String c s)) as [r|] eqn:E.
    + intros [= <- <-]. by apply strip_prefix_Some in E.
    + destruct (find_first sep s) as [[b' a']|] eqn:F; simpl; [|done].
      intros [= <- <-]. by rewrite app_cons, <-(IH b').
Qed.

(** The first occurrence: any other occurrence starts no earlier. *)
Lemma find_first_least sep b' a' :
  ∃ b a, find_first sep (b' +:+ sep +:+ a') = Some (b, a)
         ∧ String.length b ≤ String.length b'.
Proof.
  induction b' as [|c b' IH].
  - exists "", a'. split; [|done]. rewrite app_nil_l'.
    assert (strip_prefix sep (sep +:+ a') = Some a') as E by by apply strip_prefix_Some.
    destruct (sep +:+ a') as [|x t]; simpl; by rewrite E.
  - rewrite app_cons. simpl.
    destruct (strip_prefix sep (String c _)) as [r|] eqn:E.
    + eexists "", _. split; [done|]. simpl. lia.
    + destruct IH as (b & a & -> & Hle). simpl.
      eexists _, _. split; [done|]. simpl. lia.
Qed.

Lemma find_first_None sep s : find_first sep s = None ↔ ¬ ∃ b a, s = b +:+ sep +:+ a.
Proof.
  split.
  - intros HN (b & a & ->). destruct (find_first_least sep b a) as (?&?&?&_). congruence.
  - intros HN. destruct (find_first sep s) as [[b a]|] eqn:E; [|done].
    apply find_first_Some in E. naive_solver.
Qed.

Lemma Contains_spec s sub : Contains s sub = true ↔ ∃ b a, s = b +:+ sub +:+ a.
Proof.
  unfold Contains. destruct (find_first sub s) as [[b a]|] eqn:E.
  - apply find_first_Some in E. naive_solver.
  - apply find_first_None in E. naive_solver.
Qed.

Lemma ContainsAny_app s t cs : ContainsAny (s +:+ t) cs = ContainsAny s cs || ContainsAny t cs.
Proof. induction s as [|c s IH]; [done|]. rewrite app_cons. simpl. by rewrite IH, orb_assoc. Qed.

Lemma ContainsAny_cons c s l : ContainsAny (String c s) l = false ↔ (c ∉ l) ∧ ContainsAny s l = false.
Proof. cbn. by rewrite orb_false_iff, bool_decide_eq_false. Qed.
Lemma ContainsAny_weaken s l l' : l' ⊆ l → ContainsAny s l = false → ContainsAny s l' = false.
Proof.
  intros Hl. induction s as [|c s IH]; [done|]. rewrite !ContainsAny_cons. intros [? ?]. split; [set_solver|auto].
Qed.
Lemma contains_byte_cons c x s : contains_byte c (String x s) = bool_decide (x = c) || contains_byte c s.
Proof.
  unfold contains_byte. simpl. f_equal. apply bool_decide_ext. set_solver.
Qed.
Lemma contains_byte_app c s t : contains_byte c (s +:+ t) = contains_byte c s || contains_byte c t.
Proof. apply ContainsAny_app. Qed.

Lemma Contains_byte c s : Contains s (String c "") = contains_byte c s.
Proof.
  apply eq_true_iff_eq. rewrite Contains_spec. induction s as [|x s IH].
  - split; [intros (b & a & H); by destruct b|done].
  - rewrite contains_byte_cons, orb_true_iff, bool_decide_eq_true. split.
    + intros ([|y b] & a & H); rewrite ?app_cons in H; injection H as -> H; [by left|].
      right. apply IH. by exists b, a.
    + intros [->|H]; [by exists "", s|].
      apply IH in H as (b & a & ->). by exists (String x b), a.
Qed.

(** Cutting at a byte that the prefix does not contain. *)
Lemma find_first_byte c b a :
  contains_byte c b = false → find_first (String c "") (b +:+ String c a) = Some (b, a).
Proof.
  induction b as [|x b IH]; rewrite ?app_nil_l', ?app_cons; simpl.
  - intros _. by rewrite decide_True by done.
  - rewrite contains_byte_cons, orb_false_iff, bool_decide_eq_false. intros [Hx Hb].
    rewrite decide_False by done. by rewrite IH.
Qed.
Lemma find_first_skip c b s :
  contains_byte c b = false →
  find_first (String c "") (b +:+ s) = (λ xy, (b +:+ xy.1, xy.2)) <$> find_first (String c "") s.
Proof.
  induction b as [|x b IH]; [rewrite app_nil_l'; by destruct (find_first _ s) as [[??]|]|].
  rewrite contains_byte_cons, orb_false_iff, bool_decide_eq_false. intros [Hx Hb]. rewrite app_cons.
  cbn [find_first strip_prefix]. rewrite decide_False by done. rewrite IH by done. by destruct (find_first _ s) as [[??]|].
Qed.
Lemma find_first_byte_None c s :
  contains_byte c s = false → find_first (String c "") s = None.
Proof.
  intros H. rewrite <-Contains_byte in H. unfold Contains in H.
  by destruct (find_first (String c "") s).
Qed.

Lemma split_byte_nonempty c s : split_byte c s ≠ [].
Proof. destruct s as [|x s]; simpl; [done|]. case_decide; [done|]. by destruct (split_byte c s). Qed.

Lemma Join_split_byte c s : Join (split_byte c s) (String c "") = s.
Proof.
  induction s as [|x s IH]; simpl; [done|].
  pose proof (split_byte_nonempty c s). case_decide as Hx.
  - subst x. destruct (split_byte c s) as [|w ws]; [done|].
    change (String c (Join (w :: ws) (String c "")) = String c s). by rewrite IH.
  - destruct (split_byte c s) as [|w ws]; [done|]. destruct ws as [|w' ws].
    + simpl in *. by rewrite IH.
    + change (String x (Join (w :: w' :: ws) (String c "")) = String x s). by rewrite IH.
Qed.

Lemma split_byte_parts c s : Forall (λ w, contains_byte c w = false) (split_byte c s).
Proof.
  induction s as [|x s IH]; simpl; [by repeat constructor|]. case_decide as Hx.
  - by constructor.
  - inversion IH as [|w ws Hw Hws E]; [by destruct (split_byte_nonempty c s)|].
    constructor; [|done]. rewrite contains_byte_cons, Hw, bool_decide_eq_false_2; done.
Qed.

(** ** UTF-8 and [unicode] *)

(** The value of a byte. *)
Definition byte_val (c : ascii) : Z := Z.of_N (Stdlib.Strings.Ascii.N_of_ascii c).

Definition RuneError : Z := 65533.

Definition in_range (lo hi : Z) (c : ascii) : bool :=
  (lo <=? byte_val c)%Z && (byte_val c <=? hi)%Z.

(** The second byte of a sequence that starts with [b0], as [unicode/utf8]
    restricts it (no overlong forms, surrogates or values above U+10FFFF). *)
Definition second_ok (b0 b1 : ascii) : bool :=
  if (byte_val b0 =? 224)%Z then in_range 160 191 b1 else
  if (byte_val b0 =? 237)%Z then in_range 128 159 b1 else
  if (byte_val b0 =? 240)%Z then in_range 144 191 b1 else
  if (byte_val b0 =? 244)%Z then in_range 128 143 b1 else
  in_range 128 191 b1.

Definition cont (c : ascii) : Z := byte_val c mod 64.

(** [utf8.DecodeRuneInString]: the first rune of a string, its bytes and the
    rest; an invalid byte is a [RuneError] of width one. *)
Definition DecodeRune (s : string) : option (Z * string * string) :=
  match s with
  | EmptyString => None
  | String b0 s1 =>
      let bad := Some (RuneError, String b0 "", s1) in
      if in_range 0 127 b0 then Some (byte_val b0, String b0 "", s1) else
      match s1 with
      | EmptyString => bad
      | String b1 s2 =>
          if in_range 194 223 b0 then
            if second_ok b0 b1
            then Some (byte_val b0 mod 32 * 64 + cont b1, String b0 (String b1 ""), s2)%Z
            else bad
          else
          match s2 with
          | EmptyString => bad
          | String b2 s3 =>
              if in_range 224 239 b0 then
                if second_ok b0 b1 && in_range 128 191 b2
                then Some (byte_val b0 mod 16 * 4096 + cont b1 * 64 + cont b2,
                           String b0 (String b1 (String b2 "")), s3)%Z
                else bad
              else
              match s3 with
              | EmptyString => bad
              | String b3 s4 =>
                  if in_range 240 244 b0 && second_ok b0 b1 && in_range 128 191 b2 && in_range 128 191 b3
                  then Some (byte_val b0 mod 8 * 262144 + cont b1 * 4096 + cont b2 * 64 + cont b3,
                             String b0 (String b1 (String b2 (String b3 ""))), s4)%Z
                  else bad
              end
          end
      end
  end.

(** [for _, r := range s]: the runes of a string with the bytes of each. *)
Fixpoint runes_fuel (fuel : nat) (s : string) : list (Z * string) :=
  match fuel, DecodeRune s with
  | S fuel, Some (r, b, t) => (r, b) :: runes_fuel fuel t
  | _, _ => []
  end.
Definition runes (s : string) : list (Z * string) := runes_fuel (String.length s) s.

(** [unicode.IsSpace] and [unicode.IsControl]. *)
Definition IsSpace (r : Z) : bool :=
  bool_decide (r ∈ [9; 10; 11; 12; 13; 32; 133; 160; 5760; 8232; 8233; 8239; 8287; 12288]%Z)
  || ((8192 <=? r)%Z && (r <=? 8202)%Z).
Definition IsControl (r : Z) : bool :=
  ((0 <=? r)%Z && (r <=? 31)%Z) || ((127 <=? r)%Z && (r <=? 159)%Z).

Fixpoint drop_spaces (l : list (Z * string)) : list (Z * string) :=
  match l with
  | [] => []
  | (r, b) :: l' => if IsSpace r then drop_spaces l' else l
  end.

Fixpoint concat_bytes (l : list (Z * string)) : string :=
  match l with
  | [] => ""
  | (_, b) :: l' => b +:+ concat_bytes l'
  end.

(** [strings.TrimSpace]. *)
Definition TrimSpace (s : string) : string :=
  concat_bytes (rev (drop_spaces (rev (drop_spaces (runes s))))).

Lemma DecodeRune_spec s r b t :
  DecodeRune s = Some (r, b, t) → s = b +:+ t ∧ String.length t < String.length s.
Proof.
  unfold DecodeRune. intros H.
  repeat (case_match; subst); simplify_eq/=; split; try done; lia.
Qed.

Lemma DecodeRune_None s : DecodeRune s = None → s = "".
Proof. unfold DecodeRune. intros H. by repeat case_match. Qed.

(** The bytes of the runes are the string: the fuel is enough. *)
Lemma concat_bytes_runes s : concat_bytes (runes s) = s.
Proof.
  unfold runes. assert (String.length s ≤ String.length s) as Hn by lia. revert Hn.
  generalize (String.length s) at 2 3. intros n. revert s.
  induction n as [|n IH]; intros s Hn; simpl.
  - by rewrite (length_zero s) by lia.
  - destruct (DecodeRune s) as [[[r b] t]|] eqn:E; simpl.
    + apply DecodeRune_spec in E as [-> ?]. rewrite IH by lia. done.
    + by rewrite (DecodeRune_None s E).
Qed.
