(* ===== verification/GoEncoding.v ===== *)
(** * Textual encodings of Go's standard library

    [encoding/hex], the canonical text of a UUID, the big-endian 64-bit integers
    of [encoding/binary], and [encoding/json]: values, [json.Marshal] with its
    HTML-safe escaping, and [json.Unmarshal]/[json.Valid] as a parser of bytes.
    The main fact is that parsing what [Marshal] prints gives the value back, up
    to the replacement of invalid UTF-8 ([Unmarshal_Marshal]). *)
From S2P Require Import Prelude GoStrings.

(** ** Definitions *)

(** The byte of value [n mod 256]. *)
Definition byte (n : Z) : ascii := Stdlib.Strings.Ascii.ascii_of_N (Z.to_N (n mod 256)).

Definition hexdigit (n : Z) : ascii := byte (if (n <? 10)%Z then 48 + n else 87 + n).

(** [hex.EncodeToString]. *)
Fixpoint hex_EncodeToString (s : string) : string :=
  match s with
  | EmptyString => ""
  | String c s' =>
      String (hexdigit (byte_val c / 16)) (String (hexdigit (byte_val c mod 16)) (hex_EncodeToString s'))
  end.

(** The low [n] bytes of [v], most significant first ([binary.BigEndian]). *)
Fixpoint be_bytes (n : nat) (v : Z) : string :=
  match n with
  | O => ""
  | S n' => String (byte (v / 256 ^ Z.of_nat n')) (be_bytes n' v)
  end.

(** [binary.BigEndian.PutUint64]. *)
Definition be64 (v : Z) : string := be_bytes 8 (v mod 2 ^ 64).

Fixpoint hex_digits (n : nat) (v : Z) : string :=
  match n with
  | O => ""
  | S n' => String (hexdigit (v / 16 ^ Z.of_nat n' mod 16)) (hex_digits n' v)
  end.

(** [uuid.UUID.String]: 8-4-4-4-12 lower-case hexadecimal digits. *)
Definition uuid_String (u : uuid) : string :=
  let v := Z.of_N u in
  hex_digits 8 (v / 2 ^ 96) +:+ "-" +:+ hex_digits 4 (v / 2 ^ 80) +:+ "-" +:+
  hex_digits 4 (v / 2 ^ 64) +:+ "-" +:+ hex_digits 4 (v / 2 ^ 48) +:+ "-" +:+ hex_digits 12 v.

(** *** JSON values

    A number is kept as its literal; an object as its members in the order
    they are printed. *)
Inductive json :=
  | JNull
  | JBool (b : bool)
  | JNum (lit : string)
  | JStr (s : string)
  | JList (l : list json)
  | JObj (l : list (string * json)).

Definition JInt (z : Z) : json := JNum (pretty z).

(** Members sorted by key, a later duplicate replacing an earlier one: what
    decoding into a Go [map] and printing it keeps. *)
Fixpoint member_insert {A} (k : string) (v : A) (l : list (string * A)) : list (string * A) :=
  match l with
  | [] => [(k, v)]
  | (k', v') :: l' =>
      match String.compare k k' with
      | Lt => (k, v) :: l
      | Eq => (k, v) :: l'
      | Gt => (k', v') :: member_insert k v l'
      end
  end.

Fixpoint members_of {A} (acc : list (string * A)) (l : list (string * A)) : list (string * A) :=
  match l with
  | [] => acc
  | (k, v) :: l' => members_of (member_insert k v acc) l'
  end.

(** A Go [map] literal printed by [json.Marshal]. *)
Definition mk_obj (l : list (string * json)) : json := JObj (members_of [] l).

(** *** Strings *)

(** A byte that is not the start of a well-formed rune. *)
Definition bad_rune (r : Z) (b : string) : bool :=
  (r =? RuneError)%Z && bool_decide (String.length b = 1).

Definition hex4 (r : Z) : string := hex_digits 4 r.

(** One rune inside a JSON string ([encodeState.string] with [escapeHTML]). *)
Definition escape_rune (r : Z) (b : string) : string :=
  if bad_rune r b then "\ufffd" else
  if (r =? 34)%Z then String "\" (String "034" "") else
  if (r =? 92)%Z then "\\" else
  if (r =? 8)%Z then "\b" else
  if (r =? 12)%Z then "\f" else
  if (r =? 10)%Z then "\n" else
  if (r =? 13)%Z then "\r" else
  if (r =? 9)%Z then "\t" else
  if (r <? 32)%Z || bool_decide (r ∈ [60; 62; 38; 8232; 8233]%Z) then "\u" +:+ hex4 r else b.

Fixpoint escape_runes (l : list (Z * string)) : string :=
  match l with
  | [] => ""
  | (r, b) :: l' => escape_rune r b +:+ escape_runes l'
  end.

Definition quote_string (s : string) : string :=
  String "034" (escape_runes (runes s) +:+ String "034" "").

(** U+FFFD in UTF-8. *)
Definition replacement : string := String (byte 239) (String (byte 191) (String (byte 189) "")).

Fixpoint sanitize_runes (l : list (Z * string)) : string :=
  match l with
  | [] => ""
  | (r, b) :: l' => (if bad_rune r b then replacement else b) +:+ sanitize_runes l'
  end.

(** Invalid bytes replaced, as encoding and decoding does. *)
Definition sanitize (s : string) : string := sanitize_runes (runes s).

(** *** [json.Marshal] *)
Fixpoint Marshal (j : json) : string :=
  match j with
  | JNull => "null"
  | JBool true => "true"
  | JBool false => "false"
  | JNum lit => lit
  | JStr s => quote_string s
  | JList l =>
      String "[" (Join (map Marshal l) "," +:+ String "]" "")
  | JObj l =>
      String "{" (Join (map (λ '(k, v), quote_string k +:+ String ":" (Marshal v)) l) ","
                  +:+ String "}" "")
  end.

(** What a value becomes when it is printed and read back: strings with
    invalid bytes replaced, objects with sorted, unique members. *)
Fixpoint normalize (j : json) : json :=
  match j with
  | JStr s => JStr (sanitize s)
  | JList l => JList (map normalize l)
  | JObj l => mk_obj (map (λ '(k, v), (sanitize k, normalize v)) l)
  | _ => j
  end.

(** *** The parser *)

Fixpoint skip_ws (s : string) : string :=
  match s with
  | String c s' => if bool_decide (c ∈ [" "; "009"; "010"; "013"]%char) then skip_ws s' else s
  | EmptyString => ""
  end.

Definition is_digit (c : ascii) : bool := in_range 48 57 c.

Fixpoint span_digits (s : string) : string * string :=
  match s with
  | String c s' =>
      if is_digit c then let '(d, r) := span_digits s' in (String c d, r) else ("", s)
  | EmptyString => ("", "")
  end.

(** One or more digits. *)
Definition digits1 (s : string) : option (string * string) :=
  let '(d, r) := span_digits s in if bool_decide (d = "") then None else Some (d, r).

Definition int_part (s : string) : option (string * string) :=
  match s with
  | String "0" s' => Some ("0", s')
  | _ => digits1 s
  end.

Definition frac_part (s : string) : option (string * string) :=
  match s with
  | String "." s' => '(d, r) ← digits1 s'; Some (String "." d, r)
  | _ => Some ("", s)
  end.

Definition exp_sign (s : string) : string * string :=
  match s with
  | String "+" s' => ("+", s')
  | String "-" s' => ("-", s')
  | _ => ("", s)
  end.

Definition exp_part (s : string) : option (string * string) :=
  match s with
  | String ("e" as c) s' | String ("E" as c) s' =>
      let '(sg, s'') := exp_sign s' in
      '(d, r) ← digits1 s''; Some (String c (sg +:+ d), r)
  | _ => Some ("", s)
  end.

Definition minus_part (s : string) : string * string :=
  match s with
  | String "-" s' => ("-", s')
  | _ => ("", s)
  end.

(** The longest number at the start of the input. *)
Definition scan_number (s : string) : option (string * string) :=
  let '(m, s0) := minus_part s in
  '(i, s1) ← int_part s0;
  '(f, s2) ← frac_part s1;
  '(e, s3) ← exp_part s2;
  Some (m +:+ i +:+ f +:+ e, s3).

Definition hexval (c : ascii) : option Z :=
  if in_range 48 57 c then Some (byte_val c - 48)%Z else
  if in_range 97 102 c then Some (byte_val c - 87)%Z else
  if in_range 65 70 c then Some (byte_val c - 55)%Z else None.

Definition scan_hex4 (s : string) : option (Z * string) :=
  match s with
  | String a (String b (String c (String d s'))) =>
      a ← hexval a; b ← hexval b; c ← hexval c; d ← hexval d;
      Some ((a * 4096 + b * 256 + c * 16 + d)%Z, s')
  | _ => None
  end.

(** [utf8.AppendRune]. *)
Definition utf8_encode (r : Z) : string :=
  if (r <? 128)%Z then String (byte r) "" else
  if (r <? 2048)%Z then String (byte (192 + r / 64)) (String (byte (128 + r mod 64)) "") else
  if (55296 <=? r)%Z && (r <=? 57343)%Z then replacement else
  if (r <? 65536)%Z then
    String (byte (224 + r / 4096)) (String (byte (128 + r / 64 mod 64)) (String (byte (128 + r mod 64)) ""))
  else
    String (byte (240 + r / 262144)) (String (byte (128 + r / 4096 mod 64))
      (String (byte (128 + r / 64 mod 64)) (String (byte (128 + r mod 64)) ""))).

(** The text after ["\u"]: one code unit, or a surrogate pair. *)
Definition scan_unicode (s : string) : option (string * string) :=
  '(u, s1) ← scan_hex4 s;
  if (55296 <=? u)%Z && (u <? 56320)%Z then
    match strip_prefix "\u" s1 with
    | Some s2 =>
        match scan_hex4 s2 with
        | Some (v, s3) =>
            if (56320 <=? v)%Z && (v <? 57344)%Z
            then Some (utf8_encode (65536 + (u - 55296) * 1024 + (v - 56320))%Z, s3)
            else Some (replacement, s1)
        | None => Some (replacement, s1)
        end
    | None => Some (replacement, s1)
    end
  else Some (utf8_encode u, s1).

(** The text after a backslash. *)
Definition scan_escape (s : string) : option (string * string) :=
  match s with
  | String "034" s' => Some (String "034" "", s')
  | String "\" s' => Some ("\", s')
  | String "/" s' => Some ("/", s')
  | String "b" s' => Some (String "008" "", s')
  | String "f" s' => Some (String "012" "", s')
  | String "n" s' => Some (String "010" "", s')
  | String "r" s' => Some (String "013" "", s')
  | String "t" s' => Some (String "009" "", s')
  | String "u" s' => scan_unicode s'
  | _ => None
  end.

(** The text after an opening quote: the decoded string and the rest after the
    closing quote. *)
Fixpoint scan_string (fuel : nat) (s : string) : option (string * string) :=
  match fuel with
  | O => None
  | S fuel =>
      '(r, b, t) ← DecodeRune s;
      if (r =? 34)%Z then Some ("", t) else
      if (r <? 32)%Z then None else
      if (r =? 92)%Z then
        '(x, t') ← scan_escape t;
        '(y, t'') ← scan_string fuel t';
        Some (x +:+ y, t'')
      else
        '(y, t') ← scan_string fuel t;
        Some ((if bad_rune r b then replacement else b) +:+ y, t')
  end.

Definition scan_str (s : string) : option (string * string) := scan_string (String.length s) s.

(** [maxNestingDepth] of [encoding/json]. *)
Definition maxNestingDepth : N := 10000.

Fixpoint scan_value (fuel : nat) (depth : N) (s : string) : option (json * string) :=
  match fuel with
  | O => None
  | S fuel =>
      match skip_ws s with
      | EmptyString => None
      | String c s' as s =>
          if decide (c = "034"%char) then '(x, r) ← scan_str s'; Some (JStr x, r)
          else if decide (c = "["%char) then
            if (depth =? 0)%N then None else
            match skip_ws s' with
            | String "]" r => Some (JList [], r)
            | _ => '(l, r) ← scan_items fuel (depth - 1) s'; Some (JList l, r)
            end
          else if decide (c = "{"%char) then
            if (depth =? 0)%N then None else
            match skip_ws s' with
            | String "}" r => Some (mk_obj [], r)
            | _ => '(l, r) ← scan_members fuel (depth - 1) s'; Some (mk_obj l, r)
            end
          else if decide (c = "n"%char) then r ← strip_prefix "null" s; Some (JNull, r)
          else if decide (c = "t"%char) then r ← strip_prefix "true" s; Some (JBool true, r)
          else if decide (c = "f"%char) then r ← strip_prefix "false" s; Some (JBool false, r)
          else '(lit, r) ← scan_number s; Some (JNum lit, r)
      end
  end
with scan_items (fuel : nat) (depth : N) (s : string) : option (list json * string) :=
  match fuel with
  | O => None
  | S fuel =>
      '(v, r) ← scan_value fuel depth s;
      match skip_ws r with
      | String "," r' => '(l, r'') ← scan_items fuel depth r'; Some (v :: l, r'')
      | String "]" r' => Some ([v], r')
      | _ => None
      end
  end
with scan_members (fuel : nat) (depth : N) (s : string) : option (list (string * json) * string) :=
  match fuel with
  | O => None
  | S fuel =>
      match skip_ws s with
      | String "034" s' =>
          '(k, r) ← scan_str s';
          match skip_ws r with
          | String ":" r' =>
              '(v, r'') ← scan_value fuel depth r';
              match skip_ws r'' with
              | String "," t => '(l, t') ← scan_members fuel depth t; Some ((k, v) :: l, t')
              | String "}" t => Some ([(k, v)], t)
              | _ => None
              end
          | _ => None
          end
      | _ => None
      end
  end.

(** [json.Unmarshal] into an [interface{}]. *)
Definition Unmarshal (s : string) : option json :=
  '(v, r) ← scan_value (2 * String.length s + 2) maxNestingDepth s;
  if bool_decide (skip_ws r = "") then Some v else None.

(** [json.Valid]. *)
Definition json_Valid (s : string) : bool :=
  match Unmarshal s with Some _ => true | None => false end.

Arguments Unmarshal : simpl never.
Arguments json_Valid : simpl never.

(** The nesting a value needs, and the well-formedness of its numbers. *)
Fixpoint json_depth (j : json) : N :=
  match j with
  | JList l => 1 + foldr (λ v m, N.max (json_depth v) m) 0 l
  | JObj l => 1 + foldr (λ '(_, v) m, N.max (json_depth v) m) 0 l
  | _ => 0
  end%N.

Definition is_number (lit : string) : bool :=
  bool_decide (scan_number lit = Some (lit, "")).

Fixpoint numbers_ok (j : json) : bool :=
  match j with
  | JNum lit => is_number lit
  | JList l => forallb numbers_ok l
  | JObj l => forallb (λ '(_, v), numbers_ok v) l
  | _ => true
  end.

(** *** [time.Time.MarshalJSON]

    A time in UTC as RFC 3339 with nanoseconds; the date is the civil date of
    the number of days since 1 January of year 1. *)

(** Year, month and day, counting years from 1 March. *)
Definition civil (days : Z) : Z * Z * Z :=
  let z := (days + 306)%Z in
  let era := (z / 146097)%Z in
  let doe := (z mod 146097)%Z in
  let yoe := ((doe - doe / 1460 + doe / 36524 - doe / 146096) / 365)%Z in
  let doy := (doe - (365 * yoe + yoe / 4 - yoe / 100))%Z in
  let mp := ((5 * doy + 2) / 153)%Z in
  let day := (doy - (153 * mp + 2) / 5 + 1)%Z in
  let month := (if mp <? 10 then mp + 3 else mp - 9)%Z in
  let year := (yoe + era * 400 + (if month <=? 2 then 1 else 0))%Z in
  (year, month, day).

Fixpoint dec_digits (n : nat) (v : Z) : string :=
  match n with
  | O => ""
  | S n' => String (byte (48 + v / 10 ^ Z.of_nat n' mod 10)) (dec_digits n' v)
  end.

(** The fraction without trailing zeros. *)
Fixpoint trim_zeros (s : string) : string :=
  match s with
  | EmptyString => ""
  | String c s' =>
      match trim_zeros s' with
      | EmptyString => if decide (c = "0"%char) then "" else String c ""
      | t => String c t
      end
  end.

Definition time_RFC3339Nano (t : time) : string :=
  let secs := (t / Second)%Z in
  let '(y, m, d) := civil (secs / 86400) in
  let s := (secs mod 86400)%Z in
  let frac := trim_zeros (dec_digits 9 (t mod Second)) in
  dec_digits 4 y +:+ "-" +:+ dec_digits 2 m +:+ "-" +:+ dec_digits 2 d +:+ "T" +:+
  dec_digits 2 (s / 3600) +:+ ":" +:+ dec_digits 2 (s / 60 mod 60) +:+ ":" +:+ dec_digits 2 (s mod 60) +:+
  (if bool_decide (frac = "") then "" else "." +:+ frac) +:+ "Z".

(** ** Lemmas *)

Section json_ind.
Context (P : json → Prop).
Hypothesis (Hnull : P JNull) (Hbool : ∀ b, P (JBool b)) (Hnum : ∀ lit, P (JNum lit))
  (Hstr : ∀ s, P (JStr s)) (Hlist : ∀ l, Forall P l → P (JList l))
  (Hobj : ∀ l, Forall (λ kv, P kv.2) l → P (JObj l)).

Fixpoint json_ind' (j : json) : P j :=
  match j with
  | JNull => Hnull
  | JBool b => Hbool b
  | JNum lit => Hnum lit
  | JStr s => Hstr s
  | JList l =>
      Hlist l ((fix go l := match l return Forall P l with
                            | [] => Forall_nil_2 _
                            | v :: l' => Forall_cons_2 _ _ _ (json_ind' v) (go l')
                            end) l)
  | JObj l =>
      Hobj l ((fix go l := match l return Forall (λ kv, P kv.2) l with
                           | [] => Forall_nil_2 _
                           | kv :: l' => Forall_cons_2 _ _ _ (json_ind' kv.2) (go l')
                           end) l)
  end.
End json_ind.

Lemma byte_val_range c : (0 <= byte_val c < 256)%Z.
Proof. destruct c as [[] [] [] [] [] [] [] []]; vm_compute; by split. Qed.

Lemma byte_byte_val c : byte (byte_val c) = c.
Proof. by destruct c as [[] [] [] [] [] [] [] []]. Qed.

Lemma byte_val_byte n : byte_val (byte n) = (n mod 256)%Z.
Proof.
  unfold byte, byte_val. pose proof (Z.mod_pos_bound n 256 eq_refl).
  rewrite Stdlib.Strings.Ascii.N_ascii_embedding by lia. lia.
Qed.

Lemma byte_val_inj c d : byte_val c = byte_val d → c = d.
Proof. intros H. by rewrite <-(byte_byte_val c), H, byte_byte_val. Qed.

(** A property of all bytes by computation. *)
Lemma ascii_forall (f : ascii → bool) :
  forallb (λ n, f (byte (Z.of_nat n))) (seq 0 256) = true → ∀ c, f c = true.
Proof.
  intros H c. rewrite forallb_forall in H.
  pose proof (byte_val_range c). specialize (H (Z.to_nat (byte_val c))).
  rewrite Z2Nat.id, byte_byte_val in H by lia. apply H, in_seq. lia.
Qed.

Lemma in_range_spec lo hi c : in_range lo hi c = true ↔ (lo <= byte_val c <= hi)%Z.
Proof. unfold in_range. rewrite andb_true_iff. lia. Qed.

(** *** Runes and strings *)

(** The shapes a decoded rune can have. *)
Inductive rune_shape : Z → string → Prop :=
  | rune1 b0 : in_range 0 127 b0 = true → rune_shape (byte_val b0) (String b0 "")
  | rune2 b0 b1 :
      in_range 0 127 b0 = false → in_range 194 223 b0 = true → second_ok b0 b1 = true →
      rune_shape (byte_val b0 mod 32 * 64 + cont b1) (String b0 (String b1 ""))
  | rune3 b0 b1 b2 :
      in_range 0 127 b0 = false → in_range 194 223 b0 = false → in_range 224 239 b0 = true →
      second_ok b0 b1 && in_range 128 191 b2 = true →
      rune_shape (byte_val b0 mod 16 * 4096 + cont b1 * 64 + cont b2) (String b0 (String b1 (String b2 "")))
  | rune4 b0 b1 b2 b3 :
      in_range 0 127 b0 = false → in_range 194 223 b0 = false → in_range 224 239 b0 = false →
      in_range 240 244 b0 && second_ok b0 b1 && in_range 128 191 b2 && in_range 128 191 b3 = true →
      rune_shape (byte_val b0 mod 8 * 262144 + cont b1 * 4096 + cont b2 * 64 + cont b3)
        (String b0 (String b1 (String b2 (String b3 "")))).

Lemma DecodeRune_shape s r b t :
  DecodeRune s = Some (r, b, t) → bad_rune r b = false → rune_shape r b.
Proof.
  unfold DecodeRune. destruct s as [|b0 s1]; [done|].
  destruct (in_range 0 127 b0) eqn:E0; [intros [= <- <- <-] _; by constructor|].
  assert (∀ x y : string, Some (RuneError, String b0 "", x) = Some (r, b, y) →
            bad_rune r b = false → rune_shape r b) as Hbad
    by (intros x y Hx H; injection Hx as <- <- _; discriminate H).
  destruct s1 as [|b1 s2]; [apply Hbad|].
  destruct (in_range 194 223 b0) eqn:E1.
  { destruct (second_ok b0 b1) eqn:E2; [|apply Hbad].
    intros [= <- <- <-] _; by constructor. }
  destruct s2 as [|b2 s3]; [apply Hbad|].
  destruct (in_range 224 239 b0) eqn:E2.
  { destruct (second_ok b0 b1 && _) eqn:E3; [|apply Hbad].
    intros [= <- <- <-] _; by constructor. }
  destruct s3 as [|b3 s4]; [apply Hbad|].
  destruct (in_range 240 244 b0 && _ && _ && _) eqn:E3; [|apply Hbad].
  intros [= <- <- <-] _; by constructor.
Qed.

Lemma rune_shape_decode r b u : rune_shape r b → DecodeRune (b +:+ u) = Some (r, b, u).
Proof.
  intros [b0 H0|b0 b1 H0 H1 H2|b0 b1 b2 H0 H1 H2 H3|b0 b1 b2 b3 H0 H1 H2 H3];
    unfold DecodeRune; rewrite ?app_cons, ?app_nil_l', H0, ?H1, ?H2, ?H3; done.
Qed.

Lemma rune_shape_range r b : rune_shape r b → (0 <= r)%Z ∧ bad_rune r b = false.
Proof.
  unfold bad_rune, RuneError.
  intros [b0 H0|b0 b1 _ _ _|b0 b1 b2 _ _ _ _|b0 b1 b2 b3 _ _ _ _]; split;
    try (by rewrite andb_comm); unfold cont;
    repeat match goal with |- context [(byte_val ?x mod ?n)%Z] =>
      pose proof (Z.mod_pos_bound (byte_val x) n eq_refl);
      generalize dependent (byte_val x mod n)%Z; intros end; try lia.
  - apply in_range_spec in H0. lia.
  - apply in_range_spec in H0. rewrite andb_false_iff, Z.eqb_neq. lia.
Qed.

(** ASCII runes are single bytes, and the two multi-byte runes [Marshal]
    escapes have one encoding each. *)
Ltac rune_bounds :=
  unfold cont, second_ok in *;
  repeat match goal with Hc : _ && _ = true |- _ => apply andb_true_iff in Hc as [? ?] end;
  repeat (case_match; b2p);
  repeat match goal with Hc : in_range _ _ _ = true |- _ => apply in_range_spec in Hc end;
  repeat match goal with
    x : ascii |- _ => pose proof (byte_val_range x); generalize dependent (byte_val x); clear x; intros
  end;
  Z.to_euclidean_division_equations; lia.

Lemma rune_shape_bounds r b :
  rune_shape r b →
  (∃ b0, r = byte_val b0 ∧ b = String b0 "" ∧ in_range 0 127 b0 = true) ∨ (128 <= r)%Z.
Proof.
  intros [b0 H0|b0 b1 H0 H1 H2|b0 b1 b2 H0 H1 H2 H3|b0 b1 b2 b3 H0 H1 H2 H3];
    [left; by exists b0|right; rune_bounds..].
Qed.

Lemma rune_shape_line_sep r b : rune_shape r b → (r = 8232 ∨ r = 8233)%Z → b = utf8_encode r.
Proof.
  intros [b0 H0|b0 b1 H0 H1 H2|b0 b1 b2 H0 H1 H2 H3|b0 b1 b2 b3 H0 H1 H2 H3] Hr; try (exfalso; rune_bounds).
  set (v := (_ + cont b2)%Z) in *.
  assert (byte_val b0 = 226 ∧ byte_val b1 = 128 ∧ byte_val b2 = v - 8064)%Z as (E0 & E1 & E2)
    by (unfold v in *; rune_bounds).
  rewrite (byte_val_inj b0 (byte 226)), (byte_val_inj b1 (byte 128)), (byte_val_inj b2 (byte (v - 8064)))
    by (rewrite ?byte_val_byte; done || (rewrite Z.mod_small; lia)).
  by destruct Hr as [-> | ->].
Qed.

(** *** Scanning what [Marshal] prints *)

(** The runes of a string are well shaped or bad. *)
Lemma runes_shape s : Forall (λ rb, bad_rune rb.1 rb.2 = true ∨ rune_shape rb.1 rb.2) (runes s).
Proof.
  unfold runes. generalize (String.length s). intros n. revert s.
  induction n as [|n IH]; intros s; simpl; [constructor|].
  destruct (DecodeRune s) as [[[r b] t]|] eqn:E; constructor; [|apply IH].
  simpl. destruct (bad_rune r b) eqn:Eb; [by left|right; by eapply DecodeRune_shape].
Qed.

(** One escaped rune is scanned back to its bytes. *)
Lemma scan_string_escape n r b rest :
  bad_rune r b = true ∨ rune_shape r b →
  scan_string (S n) (escape_rune r b +:+ rest) =
  ('(y, t) ← scan_string n rest; Some ((if bad_rune r b then replacement else b) +:+ y, t)).
Proof.
  intros [Hb|Hs]; unfold escape_rune; [rewrite Hb; reflexivity|].
  destruct (rune_shape_range r b Hs) as [Hr Hb]. rewrite Hb.
  destruct (rune_shape_bounds r b Hs) as [(c & -> & -> & Hc)|Hbig].
  - clear Hs Hb Hr. destruct c as [[] [] [] [] [] [] [] []]; try discriminate Hc; clear Hc;
      cbn -[scan_string DecodeRune]; reflexivity.
  - rewrite !(proj2 (Z.eqb_neq r _)), (proj2 (Z.ltb_ge r 32)) by lia. simpl.
    case_bool_decide as Hin.
    + assert (r = 8232 ∨ r = 8233)%Z as Hr' by (rewrite !elem_of_cons, elem_of_nil in Hin; lia).
      rewrite (rune_shape_line_sep r b Hs Hr'). destruct Hr' as [-> | ->]; reflexivity.
    + cbn [scan_string]. rewrite (rune_shape_decode r b rest Hs). simpl.
      rewrite !(proj2 (Z.eqb_neq r _)), (proj2 (Z.ltb_ge r 32)), Hb by lia. done.
Qed.

Lemma scan_string_runes l n rest :
  Forall (λ rb, bad_rune rb.1 rb.2 = true ∨ rune_shape rb.1 rb.2) l → length l < n →
  scan_string n (escape_runes l +:+ String "034" rest) = Some (sanitize_runes l, rest).
Proof.
  intros Hl. revert n. induction Hl as [|[r b] l Hb Hl IH]; intros n Hn; simpl in *.
  - destruct n as [|n]; [lia|]. reflexivity.
  - destruct n as [|n]; [lia|]. rewrite <-app_assoc', scan_string_escape, IH by (done || lia). done.
Qed.

Lemma escape_rune_nonempty r b : b ≠ "" → escape_rune r b ≠ "".
Proof. intros Hb. unfold escape_rune. by repeat case_match. Qed.

Lemma runes_nonempty s : Forall (λ rb, rb.2 ≠ "") (runes s).
Proof.
  eapply Forall_impl; [apply runes_shape|]. intros [r b] [H|H]; simpl in *; intros ->.
  - unfold bad_rune in H. b2p. by destruct H.
  - inversion H.
Qed.

Lemma escape_runes_length l :
  Forall (λ rb, rb.2 ≠ "") l → length l ≤ String.length (escape_runes l).
Proof.
  induction 1 as [|[r b] l Hb _ IH]; simpl in *; [done|]. rewrite length_app'.
  pose proof (escape_rune_nonempty r b Hb). destruct (escape_rune r b); simpl; [done|lia].
Qed.

(** A quoted string is scanned back, invalid bytes replaced. *)
Lemma scan_str_quote s rest :
  scan_str (escape_runes (runes s) +:+ String "034" rest) = Some (sanitize s, rest).
Proof.
  apply scan_string_runes; [apply runes_shape|].
  rewrite length_app'. simpl. pose proof (escape_runes_length _ (runes_nonempty s)). lia.
Qed.

(** The characters that can follow a value inside the output of [Marshal]. *)
Definition follow_ok (rest : string) : Prop :=
  match rest with "" => True | String c _ => c ∈ [","; "]"; "}"]%char end.

Lemma span_digits_app s d r rest :
  span_digits s = (d, r) → follow_ok rest → span_digits (s +:+ rest) = (d, r +:+ rest).
Proof.
  revert d. induction s as [|c s IH]; intros d; simpl.
  - intros [= <- <-] Hr. rewrite !app_nil_l'. destruct rest as [|c rest]; [done|]. simpl in *.
    rewrite !elem_of_cons, elem_of_nil in Hr. by destruct Hr as [->|[->|[->|[]]]].
  - destruct (is_digit c); [|by intros [= <- <-]].
    destruct (span_digits s) as [d' r'] eqn:E. intros [= <- ->] Hr. by rewrite (IH d').
Qed.

Lemma digits1_app s d r rest :
  digits1 s = Some (d, r) → follow_ok rest → digits1 (s +:+ rest) = Some (d, r +:+ rest).
Proof.
  unfold digits1. destruct (span_digits s) as [d' r'] eqn:E. intros H Hr.
  rewrite (span_digits_app s d' r' rest E Hr). by case_bool_decide; simplify_eq.
Qed.

(** Each part of a number is scanned the same when what follows the number is
    not part of one. *)
Lemma int_part_app s x r rest :
  int_part s = Some (x, r) → follow_ok rest → int_part (s +:+ rest) = Some (x, r +:+ rest).
Proof.
  intros H Hr. destruct s as [|c s]; [done|]. destruct (decide (c = "0"%char)) as [->|Hc].
  - simpl in *. by injection H as <- <-.
  - assert (∀ t, int_part (String c t) = digits1 (String c t)) as Hd.
    { intros t. by destruct c as [[] [] [] [] [] [] [] []]; try done; destruct Hc. }
    rewrite app_cons, Hd. rewrite Hd in H. by apply (digits1_app (String c s)).
Qed.

Lemma frac_part_app s x r rest :
  frac_part s = Some (x, r) → follow_ok rest → frac_part (s +:+ rest) = Some (x, r +:+ rest).
Proof.
  intros H Hr. destruct s as [|c s].
  - simpl in *. injection H as <- <-. rewrite app_nil_l'. destruct rest as [|c rest]; [done|].
    simpl in Hr. rewrite !elem_of_cons, elem_of_nil in Hr. by destruct Hr as [->|[->|[->|[]]]].
  - destruct (decide (c = "."%char)) as [->|Hc].
    + rewrite app_cons. simpl in *. destruct (digits1 s) as [[d r']|] eqn:E; [|done].
      simpl in H. injection H as <- <-. by rewrite (digits1_app _ _ _ _ E Hr).
    + assert (∀ t, frac_part (String c t) = Some ("", String c t)) as Hd.
      { intros t. by destruct c as [[] [] [] [] [] [] [] []]; try done; destruct Hc. }
      rewrite app_cons, Hd. rewrite Hd in H. by injection H as <- <-.
Qed.

Lemma exp_sign_app s d : exp_sign s = d → s ≠ "" → ∀ rest, exp_sign (s +:+ rest) = (d.1, d.2 +:+ rest).
Proof.
  intros <- Hs rest. destruct s as [|c s]; [done|]. rewrite app_cons.
  by destruct c as [[] [] [] [] [] [] [] []].
Qed.

Lemma exp_part_app s x r rest :
  exp_part s = Some (x, r) → follow_ok rest → exp_part (s +:+ rest) = Some (x, r +:+ rest).
Proof.
  intros H Hr. destruct s as [|c s].
  - simpl in *. injection H as <- <-. rewrite app_nil_l'. destruct rest as [|c rest]; [done|].
    simpl in Hr. rewrite !elem_of_cons, elem_of_nil in Hr. by destruct Hr as [->|[->|[->|[]]]].
  - destruct (decide (c = "e"%char ∨ c = "E"%char)) as [Hc|Hc].
    + assert (∀ t, exp_part (String c t) =
        let '(sg, t') := exp_sign t in '(d, r) ← digits1 t'; Some (String c (sg +:+ d), r)) as Hd
        by (intros t; by destruct Hc as [-> | ->]).
      rewrite app_cons, Hd. rewrite Hd in H.
      destruct (decide (s = "")) as [->|Hs]; [done|].
      destruct (exp_sign s) as [sg s'] eqn:E. rewrite (exp_sign_app s _ E Hs rest). simpl.
      destruct (digits1 s') as [[d r']|] eqn:F; [|done]. simpl in H. injection H as <- <-.
      by rewrite (digits1_app _ _ _ _ F Hr).
    + assert (∀ t, exp_part (String c t) = Some ("", String c t)) as Hd.
      { intros t. destruct c as [[] [] [] [] [] [] [] []]; try done; destruct Hc; by (left + right). }
      rewrite app_cons, Hd. rewrite Hd in H. by injection H as <- <-.
Qed.

Lemma scan_number_app s x r rest :
  scan_number s = Some (x, r) → follow_ok rest → scan_number (s +:+ rest) = Some (x, r +:+ rest).
Proof.
  intros H Hr. destruct (decide (s = "")) as [->|Hs]; [done|].
  assert (minus_part (s +:+ rest) = ((minus_part s).1, (minus_part s).2 +:+ rest)) as Hm.
  { destruct s as [|c s]; [done|]. rewrite app_cons. by destruct c as [[] [] [] [] [] [] [] []]. }
  unfold scan_number in *. rewrite Hm. destruct (minus_part s) as [m s0]. simpl in *.
  destruct (int_part s0) as [[i s1]|] eqn:E1; [|done]. rewrite (int_part_app _ _ _ _ E1 Hr). simpl in *.
  destruct (frac_part s1) as [[f s2]|] eqn:E2; [|done]. rewrite (frac_part_app _ _ _ _ E2 Hr). simpl in *.
  destruct (exp_part s2) as [[e s3]|] eqn:E3; [|done]. rewrite (exp_part_app _ _ _ _ E3 Hr). simpl in *.
  by injection H as <- <-.
Qed.

(** *** Parsing what [Marshal] prints *)

(** The characters a printed value can start with. *)
Definition value_heads : list ascii :=
  ["034"; "["; "{"; "n"; "t"; "f"; "-"; "0"; "1"; "2"; "3"; "4"; "5"; "6"; "7"; "8"; "9"]%char.

(** Membership of a known byte in a known list. *)
Ltac concrete_elem :=
  match goal with |- ?P => refine (bool_decide_eq_true_1 P _); vm_compute; reflexivity end.

Lemma is_digit_heads c : is_digit c = true → c ∈ value_heads.
Proof.
  intros H. apply (bool_decide_eq_true (c ∈ value_heads)).
  revert H. by destruct c as [[] [] [] [] [] [] [] []].
Qed.

Lemma number_head lit : is_number lit = true → ∃ c t, lit = String c t ∧ (c = "-"%char ∨ is_digit c = true).
Proof.
  unfold is_number. rewrite bool_decide_eq_true. destruct lit as [|c t]; [done|]. intros H.
  exists c, t. split; [done|].
  destruct (decide (c = "-"%char)) as [->|Hc]; [by left|right].
  unfold scan_number in H.
  assert (minus_part (String c t) = ("", String c t)) as Hm
    by (destruct c as [[] [] [] [] [] [] [] []]; try done; by destruct Hc).
  rewrite Hm in H. destruct (is_digit c) eqn:Hd; [done|].
  assert (int_part (String c t) = digits1 (String c t)) as Hi
    by (by destruct c as [[] [] [] [] [] [] [] []]).
  rewrite Hi in H. unfold digits1 in H. cbn [span_digits] in H. by rewrite Hd in H.
Qed.

Lemma Marshal_head j : numbers_ok j = true → ∃ c t, Marshal j = String c t ∧ c ∈ value_heads.
Proof.
  destruct j as [|[]|lit|s|l|l]; simpl; intros H; try (eexists _, _; split; [done|]; concrete_elem).
  destruct (number_head lit H) as (c & t & -> & Hc). exists c, t. split; [done|].
  destruct Hc as [->|Hc]; [concrete_elem|by apply is_digit_heads].
Qed.

Lemma skip_ws_head c t : c ∈ value_heads → skip_ws (String c t) = String c t.
Proof.
  unfold value_heads. rewrite !elem_of_cons, elem_of_nil.
  intros H. by repeat destruct H as [->|H].
Qed.

Lemma follow_skip_ws rest : follow_ok rest → skip_ws rest = rest.
Proof.
  destruct rest as [|c rest]; [done|]. simpl. rewrite !elem_of_cons, elem_of_nil.
  by intros [->|[->|[->|[]]]].
Qed.

Definition scans (v : json) : Prop :=
  ∀ fuel d rest,
    numbers_ok v = true → follow_ok rest → 2 * String.length (Marshal v) ≤ fuel →
    (json_depth v <= d)%N → scan_value fuel d (Marshal v +:+ rest) = Some (normalize v, rest).

Lemma Marshal_length v : numbers_ok v = true → 0 < String.length (Marshal v).
Proof. intros H. destruct (Marshal_head v H) as (c & t & -> & _). simpl. lia. Qed.

Lemma scan_items_ok l fuel d rest :
  Forall scans l → l ≠ [] → forallb numbers_ok l = true →
  2 * String.length (Join (map Marshal l) ",") < fuel →
  (foldr (λ v m, N.max (json_depth v) m) 0 l <= d)%N →
  scan_items fuel d (Join (map Marshal l) "," +:+ String "]" rest) = Some (map normalize l, rest).
Proof.
  intros Hl. revert fuel. induction Hl as [|v l Hv Hl IH]; intros fuel; [done|]. intros _ Hn Hf Hd.
  simpl in Hn, Hd. apply andb_true_iff in Hn as [Hnv Hn].
  destruct fuel as [|fuel]; [lia|]. cbn [scan_items].
  destruct l as [|w l].
  - simpl in *. rewrite Hv; [done|done|concrete_elem|lia|lia].
  - cbn [map Join] in *. rewrite !length_app' in Hf. simpl in Hf.
    rewrite <-!app_assoc', Hv; [|done|concrete_elem|lia|lia]. simpl.
    rewrite app_nil_l' in *. pose proof (Marshal_length v Hnv).
    rewrite IH; [done|done|done|lia|simpl in *; lia].
Qed.

Lemma scan_members_ok l fuel d rest :
  Forall (λ kv, scans kv.2) l → l ≠ [] → forallb (λ '(_, v), numbers_ok v) l = true →
  2 * String.length (Join (map (λ '(k, v), quote_string k +:+ String ":" (Marshal v)) l) ",") < fuel →
  (foldr (λ '(_, v) m, N.max (json_depth v) m) 0 l <= d)%N →
  scan_members fuel d (Join (map (λ '(k, v), quote_string k +:+ String ":" (Marshal v)) l) "," +:+ String "}" rest)
  = Some (map (λ '(k, v), (sanitize k, normalize v)) l, rest).
Proof.
  intros Hl. revert fuel. induction Hl as [|[k v] l Hv Hl IH]; intros fuel; [done|]. intros _ Hn Hf Hd.
  simpl in Hn, Hd, Hv. apply andb_true_iff in Hn as [Hnv Hn].
  destruct fuel as [|fuel]; [lia|]. cbn [scan_members].
  destruct l as [|w l].
  - cbn [map Join] in *. rewrite length_app' in Hf. simpl in Hf.
    unfold quote_string. rewrite !app_cons, <-!app_assoc', !app_cons, app_nil_l'. simpl.
    rewrite scan_str_quote. simpl. rewrite Hv; [done|done|concrete_elem|lia|lia].
  - cbn [map Join] in *. rewrite !length_app' in Hf. simpl in Hf.
    unfold quote_string at 1. rewrite !app_cons, <-!app_assoc', !app_cons, app_nil_l'. simpl.
    rewrite scan_str_quote. simpl. rewrite <-!app_assoc', Hv; [|done|concrete_elem|lia|lia]. simpl.
    rewrite IH; [done|done|done|lia|simpl in *; lia].
Qed.

Lemma scans_all v : scans v.
Proof.
  induction v as [|b|lit|s|l IH|l IH] using json_ind'; intros fuel d rest Hn Hr Hf Hd.
  - destruct fuel; [simpl in Hf; lia|]. reflexivity.
  - destruct b; (destruct fuel; [simpl in Hf; lia|]; reflexivity).
  - destruct fuel as [|fuel].
    { pose proof (Marshal_length _ Hn). lia. }
    destruct (number_head lit Hn) as (c & t & E & Hc). cbn [Marshal] in *.
    assert (c ∈ value_heads) as Hh
      by (destruct Hc as [->|Hc]; [concrete_elem|by apply is_digit_heads]).
    cbn [scan_value]. rewrite E at 1. rewrite app_cons, (skip_ws_head c) by done.
    rewrite <-app_cons, <-E.
    rewrite !decide_False by (intros ->; by destruct Hc).
    simpl in Hn. unfold is_number in Hn. b2p.
    rewrite (scan_number_app _ _ _ rest Hn Hr). done.
  - destruct fuel; [simpl in Hf; lia|]. cbn [Marshal]. unfold quote_string.
    rewrite app_cons, <-app_assoc', app_cons, app_nil_l'. cbn [scan_value].
    rewrite skip_ws_head, decide_True by (done || concrete_elem).
    rewrite scan_str_quote. done.
  - destruct fuel as [|fuel]; [simpl in Hf; lia|]. cbn [Marshal numbers_ok json_depth normalize] in *.
    simpl in Hf. rewrite length_app' in Hf. simpl in Hf.
    rewrite app_cons, <-app_assoc', app_cons, app_nil_l'. cbn [scan_value].
    rewrite skip_ws_head, decide_False, decide_True by (done || concrete_elem).
    rewrite (proj2 (N.eqb_neq d 0)) by lia.
    destruct l as [|v l]; [done|].
    assert (∃ c t, Join (map Marshal (v :: l)) "," = String c t ∧ c ∈ value_heads) as (c & t & E & Hc).
    { simpl in Hn. apply andb_true_iff in Hn as [Hnv _].
      destruct (Marshal_head v Hnv) as (c & t & E & Hc). cbn [map]. rewrite E. destruct l; by eauto. }
    rewrite E, app_cons, skip_ws_head by done.
    assert (∀ x, match String c x with
                 | String "]" r => Some (JList [], r)
                 | _ => '(l, r) ← scan_items fuel (d - 1) (String c x); Some (JList l, r)
                 end = '(l, r) ← scan_items fuel (d - 1) (String c x); Some (JList l, r)) as Hsk.
    { intros x. unfold value_heads in Hc. rewrite !elem_of_cons, elem_of_nil in Hc.
      by repeat destruct Hc as [->|Hc]. }
    rewrite Hsk, <-app_cons, <-E, scan_items_ok; [done|done|done|done|lia|simpl in *; lia].
  - destruct fuel as [|fuel]; [simpl in Hf; lia|]. cbn [Marshal numbers_ok json_depth normalize] in *.
    simpl in Hf. rewrite length_app' in Hf. simpl in Hf.
    rewrite app_cons, <-app_assoc', app_cons, app_nil_l'. cbn [scan_value].
    rewrite skip_ws_head, !decide_False, decide_True by (done || concrete_elem).
    rewrite (proj2 (N.eqb_neq d 0)) by lia.
    destruct l as [|[k v] l]; [done|].
    assert (∃ t, Join (map (λ '(k, v), quote_string k +:+ String ":" (Marshal v)) ((k, v) :: l)) ","
                 = String "034" t) as (t & E).
    { unfold quote_string. destruct l; cbn [map Join]; rewrite ?app_cons; eauto. }
    rewrite E, app_cons, skip_ws_head by (concrete_elem).
    rewrite <-app_cons, <-E, scan_members_ok; [done|done|done|done|lia|simpl in *; lia].
Qed.

(** Parsing what [Marshal] prints gives the normalized value. *)
Lemma Unmarshal_Marshal_normalize v :
  numbers_ok v = true → (json_depth v <= maxNestingDepth)%N → Unmarshal (Marshal v) = Some (normalize v).
Proof.
  intros Hn Hd. unfold Unmarshal.
  pose proof (scans_all v (2 * String.length (Marshal v) + 2) maxNestingDepth "" Hn I) as H.
  rewrite app_nil_r' in H. rewrite H by (lia || done). done.
Qed.

Lemma json_Valid_Marshal v :
  numbers_ok v = true → (json_depth v <= maxNestingDepth)%N → json_Valid (Marshal v) = true.
Proof. intros Hn Hd. unfold json_Valid. by rewrite Unmarshal_Marshal_normalize. Qed.

(** Printed integers are number literals. *)
Lemma span_digits_all_app t u :
  span_digits t = (t, "") → span_digits (t +:+ u) = (t +:+ (span_digits u).1, (span_digits u).2).
Proof.
  induction t as [|c t IH]; intros H; [apply surjective_pairing|].
  rewrite app_cons. simpl in *. destruct (is_digit c); [|done].
  destruct (span_digits t) as [d r]. injection H as -> ->. by rewrite IH.
Qed.

Lemma pretty_N_char_digit x : (x < 10)%N → is_digit (pretty_N_char x) = true ∧ (x ≠ 0%N → pretty_N_char x ≠ "0"%char).
Proof.
  intros H. assert (x ∈ [0;1;2;3;4;5;6;7;8;9]%N) as Hx by (rewrite !elem_of_cons; lia).
  rewrite !elem_of_cons, elem_of_nil in Hx. by repeat destruct Hx as [->|Hx].
Qed.

Lemma pretty_N_go_digits x :
  (0 < x)%N → ∃ c t, (∀ s, pretty_N_go x s = String c (t +:+ s)) ∧
    is_digit c = true ∧ c ≠ "0"%char ∧ span_digits t = (t, "").
Proof.
  induction (N.lt_wf_0 x) as [x _ IH]. intros Hx.
  destruct (decide (x < 10)%N) as [Hs|Hs].
  - destruct (pretty_N_char_digit x Hs) as [Hd H0].
    exists (pretty_N_char x), "". repeat split; [|done|apply H0; lia].
    intros s. rewrite pretty_N_go_step by done.
    rewrite N.div_small, N.mod_small by done. by rewrite pretty_N_go_0.
  - assert (0 < x / 10)%N by (apply N.div_str_pos; lia).
    destruct (IH (x / 10)%N) as (c & t & Hgo & Hc & Hc0 & Ht); [by apply N.div_lt|done|].
    exists c, (t +:+ String (pretty_N_char (x mod 10)) ""). repeat split; [|done..|].
    + intros s. rewrite pretty_N_go_step by done. by rewrite Hgo, <-app_assoc'.
    + rewrite (span_digits_all_app _ _ Ht). simpl.
      destruct (pretty_N_char_digit (x mod 10)) as [-> _]; [by apply N.mod_lt|]. done.
Qed.

Lemma is_number_pretty_N (x : N) : is_number (pretty x) = true ∧ scan_number (pretty x) = Some (pretty x, "") ∧
  minus_part (pretty x) = ("", pretty x).
Proof.
  destruct (decide (x = 0%N)) as [->|Hx]; [done|].
  assert (∃ c t, pretty x = String c t ∧ is_digit c = true ∧ c ≠ "0"%char ∧ span_digits t = (t, ""))
    as (c & t & E & Hc & Hc0 & Ht).
  { destruct (pretty_N_go_digits x) as (c & t & Hgo & ?); [lia|]. exists c, t.
    split; [|done]. unfold pretty, pretty_N. rewrite decide_False, Hgo by done. apply f_equal, app_nil_r'. }
  assert (minus_part (pretty x) = ("", pretty x)) as Hm
    by (rewrite E; by destruct c as [[] [] [] [] [] [] [] []]).
  assert (int_part (pretty x) = Some (pretty x, "")) as Hi.
  { rewrite E. assert (int_part (String c t) = digits1 (String c t)) as ->
      by (destruct c as [[] [] [] [] [] [] [] []]; try done; by destruct Hc0).
    unfold digits1. cbn [span_digits]. by rewrite Hc, Ht. }
  assert (scan_number (pretty x) = Some (pretty x, "")) as Hs.
  { unfold scan_number. rewrite Hm, Hi. simpl. by rewrite !app_nil_r'. }
  split; [|done]. unfold is_number. by rewrite bool_decide_eq_true.
Qed.

Lemma is_number_pretty (z : Z) : is_number (pretty z) = true.
Proof.
  destruct z as [|p|p]; [done|apply (is_number_pretty_N (Npos p))|].
  destruct (is_number_pretty_N (Npos p)) as (_ & Hs & Hm).
  unfold is_number. rewrite bool_decide_eq_true.
  change (pretty (Z.neg p)) with (String "-" (pretty (Npos p))).
  unfold scan_number in *. rewrite Hm in Hs. cbn [minus_part].
  destruct (int_part _) as [[i s1]|]; [|done]. simpl in *.
  destruct (frac_part s1) as [[f s2]|]; [|done]. simpl in *.
  destruct (exp_part s2) as [[e s3]|]; [|done]. simpl in *.
  injection Hs as Hs ->. by rewrite app_nil_l' in *; rewrite Hs.
Qed.

(** *** Hexadecimal and big-endian integers *)

Lemma hex_EncodeToString_length s : String.length (hex_EncodeToString s) = 2 * String.length s.
Proof. induction s as [|c s IH]; simpl; lia. Qed.

Lemma hexdigit_inj a b : (0 <= a < 16)%Z → (0 <= b < 16)%Z → hexdigit a = hexdigit b → a = b.
Proof.
  intros Ha Hb H. unfold hexdigit in H. apply (f_equal byte_val) in H. rewrite !byte_val_byte in H.
  assert (∀ x, (0 <= x < 16) → (if x <? 10 then 48 + x else 87 + x) mod 256 = if x <? 10 then 48 + x else 87 + x)%Z as E
    by (intros x Hx; destruct (Z.ltb_spec x 10); apply Z.mod_small; lia).
  rewrite !E in H by done.
  destruct (Z.ltb_spec a 10), (Z.ltb_spec b 10); lia.
Qed.

Lemma hex_EncodeToString_inj s t : hex_EncodeToString s = hex_EncodeToString t → s = t.
Proof.
  revert t. induction s as [|c s IH]; intros [|d t]; simpl; [done..|].
  intros [= H1 H2 H3]. apply IH in H3 as ->. f_equal. apply byte_val_inj.
  pose proof (byte_val_range c). pose proof (byte_val_range d).
  apply hexdigit_inj in H1; [|split; [apply Z.div_pos|apply Z.div_lt_upper_bound]; lia..].
  apply hexdigit_inj in H2; [|apply Z.mod_pos_bound; lia..].
  rewrite (Z.div_mod (byte_val c) 16), (Z.div_mod (byte_val d) 16) by done. by rewrite H1, H2.
Qed.

Lemma be_bytes_length n v : String.length (be_bytes n v) = n.
Proof. revert v. induction n as [|n IH]; intros v; simpl; auto. Qed.

Lemma digits_of_inj (f : nat → Z → string) (b : Z) (d : Z → ascii) :
  (0 < b)%Z → (∀ x y, d x = d y → x mod b = y mod b)%Z →
  (∀ v, f 0 v = "") → (∀ n v, f (S n) v = String (d (v / b ^ Z.of_nat n)%Z) (f n v)) →
  ∀ n v w, f n v = f n w → (v mod b ^ Z.of_nat n = w mod b ^ Z.of_nat n)%Z.
Proof.
  intros Hb Hd H0 HS n. induction n as [|n IH]; intros v w; [by rewrite !Z.mod_1_r|].
  rewrite !HS. intros [= H1 H2]. apply Hd in H1. apply IH in H2.
  rewrite Nat2Z.inj_succ, Z.pow_succ_r, (Z.mul_comm b) by lia.
  rewrite !Z.rem_mul_r by lia. by rewrite H1, H2.
Qed.

Lemma byte_inj x y : byte x = byte y → (x mod 256 = y mod 256)%Z.
Proof. intros H%(f_equal byte_val). by rewrite !byte_val_byte in H. Qed.

Lemma be64_inj v w : (0 <= v < 2 ^ 64)%Z → (0 <= w < 2 ^ 64)%Z → be64 v = be64 w → v = w.
Proof.
  intros Hv Hw H. unfold be64 in H.
  apply (digits_of_inj be_bytes 256 byte) in H; [|done|apply byte_inj|done..].
  change (256 ^ Z.of_nat 8)%Z with (2 ^ 64)%Z in H. rewrite !Zmod_mod in H.
  by rewrite (Z.mod_small v), (Z.mod_small w) in H.
Qed.

Lemma be64_length v : String.length (be64 v) = 8.
Proof. apply be_bytes_length. Qed.

Lemma hex_digits_length n v : String.length (hex_digits n v) = n.
Proof. revert v. induction n as [|n IH]; intros v; simpl; auto. Qed.

Lemma hex_digits_inj n v w :
  hex_digits n v = hex_digits n w → (v mod 16 ^ Z.of_nat n = w mod 16 ^ Z.of_nat n)%Z.
Proof.
  apply (digits_of_inj hex_digits 16 (λ x, hexdigit (x mod 16))%Z); [done| |done..].
  intros x y H. by apply hexdigit_inj in H; [|apply Z.mod_pos_bound; lia..].
Qed.

Lemma uuid_String_length u : String.length (uuid_String u) = 36.
Proof. unfold uuid_String. rewrite !length_app', !hex_digits_length. done. Qed.

(** The text of a UUID determines it. *)
Lemma uuid_String_inj (u v : uuid) : (u < 2 ^ 128)%N → (v < 2 ^ 128)%N → uuid_String u = uuid_String v → u = v.
Proof.
  unfold uuid_String. intros Hu Hv H.
  repeat (apply app_inj_len in H as [? H]; [|by rewrite ?hex_digits_length]).
  repeat match goal with Hd : hex_digits _ _ = hex_digits _ _ |- _ => apply hex_digits_inj in Hd; vm_compute Z.pow in Hd end.
  assert (Z.of_N u = Z.of_N v) as E; [|lia].
  assert (0 <= Z.of_N u < 2 ^ 128)%Z by lia. assert (0 <= Z.of_N v < 2 ^ 128)%Z by lia.
  vm_compute Z.pow in *. generalize dependent (Z.of_N u). generalize dependent (Z.of_N v). clear.
  intros. Z.to_euclidean_division_equations. lia.
Qed.

(** *** Normalizing is idempotent *)

Lemma runes_concat_shaped l :
  Forall (λ rb, rune_shape rb.1 rb.2) l → runes (concat_bytes l) = l.
Proof.
  intros Hl. unfold runes.
  assert (∀ n, String.length (concat_bytes l) ≤ n → runes_fuel n (concat_bytes l) = l) as H; [|by apply H].
  induction Hl as [|[r b] l Hr Hl IH]; intros n Hn; simpl in *; [by destruct n|].
  pose proof (rune_shape_decode r b (concat_bytes l) Hr) as Hd.
  apply DecodeRune_spec in Hd as Hsp. destruct Hsp as [_ Hlen].
  destruct n as [|n]; [rewrite length_app' in *; lia|]. simpl. rewrite Hd.
  rewrite IH; [done|]. rewrite length_app' in *. lia.
Qed.

Lemma replacement_shape : rune_shape RuneError replacement.
Proof. apply (rune3 (byte 239) (byte 191) (byte 189)); reflexivity. Qed.

Lemma sanitize_idem s : sanitize (sanitize s) = sanitize s.
Proof.
  unfold sanitize at 2 3. pose proof (runes_shape s) as Hs. revert Hs. generalize (runes s). intros l Hs.
  assert (∃ l', sanitize_runes l = concat_bytes l' ∧ sanitize_runes l' = concat_bytes l' ∧
    Forall (λ rb, rune_shape rb.1 rb.2) l') as (l' & E & E' & Hl').
  { induction Hs as [|[r b] l Hr Hs (l' & E & E' & Hl')]; simpl in *; [by exists []|].
    destruct (bad_rune r b) eqn:Hb.
    - exists ((RuneError, replacement) :: l'). simpl. rewrite E, E'. split_and!; [done|done|].
      constructor; [apply replacement_shape|done].
    - destruct Hr as [?|Hr]; [done|]. exists ((r, b) :: l'). simpl. rewrite E, E', Hb. split_and!; [done|done|].
      by constructor. }
  rewrite E. unfold sanitize. by rewrite runes_concat_shaped.
Qed.

Definition str_lt (a b : string) : Prop := String.compare a b = Lt.

Lemma str_lt_trans a b c : str_lt a b → str_lt b c → str_lt a c.
Proof.
  unfold str_lt. revert b c. induction a as [|x a IH]; intros [|y b] [|z c]; simpl; try done.
  unfold Stdlib.Strings.Ascii.compare.
  destruct (N.compare_spec (Stdlib.Strings.Ascii.N_of_ascii x) (Stdlib.Strings.Ascii.N_of_ascii y)) as [Hxy|Hxy|Hxy];
    destruct (N.compare_spec (Stdlib.Strings.Ascii.N_of_ascii y) (Stdlib.Strings.Ascii.N_of_ascii z)) as [Hyz|Hyz|Hyz]; try done.
  - rewrite Hxy, Hyz, N.compare_refl. apply IH.
  - rewrite Hxy, (proj2 (N.compare_lt_iff _ _) Hyz). done.
  - rewrite <-Hyz, (proj2 (N.compare_lt_iff _ _) Hxy). done.
  - rewrite (proj2 (N.compare_lt_iff _ _)) by lia. done.
Qed.

Definition sorted_members {A} (l : list (string * A)) : Prop := StronglySorted (λ a b, str_lt a.1 b.1) l.

Lemma elem_of_member_insert {A} k (v : A) l x : x ∈ member_insert k v l → x = (k, v) ∨ x ∈ l.
Proof.
  induction l as [|[k' v'] l IH]; simpl.
  - rewrite list_elem_of_singleton. auto.
  - destruct (String.compare k k'); rewrite !elem_of_cons; naive_solver.
Qed.

Lemma member_insert_sorted {A} k (v : A) l : sorted_members l → sorted_members (member_insert k v l).
Proof.
  unfold sorted_members. induction 1 as [|[k' v'] l Hs IH Hx]; simpl; [by repeat constructor|].
  rewrite Forall_forall in Hx.
  destruct (String.compare k k') eqn:E.
  - apply String.compare_eq_iff in E as ->. constructor; [done|]. by rewrite Forall_forall.
  - constructor; [by constructor; [|rewrite Forall_forall]|]. rewrite Forall_forall.
    intros x [->|Hin]%elem_of_cons; [done|]. by eapply str_lt_trans, (Hx x Hin).
  - constructor; [done|]. rewrite Forall_forall. intros x [->|Hin]%elem_of_member_insert; [|by apply Hx].
    unfold str_lt. cbn [fst]. rewrite String.compare_antisym, E. done.
Qed.

Lemma members_of_sorted {A} (acc l : list (string * A)) : sorted_members acc → sorted_members (members_of acc l).
Proof.
  revert acc. induction l as [|[k v] l IH]; intros acc Ha; [done|]. simpl. by apply IH, member_insert_sorted.
Qed.

Lemma elem_of_members_of {A} (acc l : list (string * A)) x : x ∈ members_of acc l → x ∈ acc ∨ x ∈ l.
Proof.
  revert acc. induction l as [|[k v] l IH]; intros acc; simpl; [by left|].
  intros [[->|H]%elem_of_member_insert|H]%IH; rewrite ?elem_of_cons; auto.
Qed.

Lemma member_insert_last {A} k (v : A) l :
  (∀ x, x ∈ l → str_lt x.1 k) → member_insert k v l = l ++ [(k, v)].
Proof.
  induction l as [|[k' v'] l IH]; intros Hl; [done|]. simpl.
  assert (String.compare k k' = Gt) as ->.
  { rewrite String.compare_antisym. specialize (Hl (k', v') ltac:(by left)). unfold str_lt in Hl. simpl in Hl. by rewrite Hl. }
  rewrite IH; [done|]. intros x Hx. apply Hl. by right.
Qed.

Lemma members_of_sorted_id {A} (acc l : list (string * A)) :
  sorted_members (acc ++ l) → members_of acc l = acc ++ l.
Proof.
  revert acc. induction l as [|[k v] l IH]; intros acc Hs; [by rewrite app_nil_r|]. simpl.
  rewrite member_insert_last.
  - rewrite IH, <-app_assoc; [done|]. by rewrite <-app_assoc.
  - intros x Hx. unfold sorted_members in Hs. clear IH. induction acc as [|y acc IHa]; [by apply elem_of_nil in Hx|].
    simpl in Hs. inversion Hs as [|? ? Hs' Hy]. subst. apply elem_of_cons in Hx as [->|Hx]; [|by apply IHa].
    rewrite Forall_forall in Hy. apply (Hy (k, v)). apply elem_of_app. right. by left.
Qed.

Lemma normalize_idem j : normalize (normalize j) = normalize j.
Proof.
  induction j as [|b|lit|s|l IH|l IH] using json_ind'; simpl; try done.
  - by rewrite sanitize_idem.
  - f_equal. rewrite map_map. induction IH as [|v l Hv _ IHl]; [done|]. simpl. by rewrite Hv, IHl.
  - unfold mk_obj. cbn [normalize]. unfold mk_obj.
    set (m := map (λ '(k, v), (sanitize k, normalize v)) l).
    assert (∀ kv, kv ∈ members_of [] m → (let '(k, v) := kv in (sanitize k, normalize v)) = kv) as Hid.
    { intros kv [Hn|Hin]%elem_of_members_of; [by apply elem_of_nil in Hn|].
      apply list_elem_of_In, in_map_iff in Hin as ([k v] & <- & Hin). rewrite sanitize_idem.
      rewrite Forall_forall in IH. specialize (IH (k, v) ltac:(by apply list_elem_of_In)). simpl in IH. by rewrite IH. }
    assert (map (λ '(k, v), (sanitize k, normalize v)) (members_of [] m) = members_of [] m) as ->.
    { rewrite <-(map_id (members_of [] m)) at 2. apply map_ext_in. intros [k v] Hin.
      apply (Hid (k, v)). by apply list_elem_of_In. }
    f_equal. apply (members_of_sorted_id []), members_of_sorted. constructor.
Qed.

Lemma numbers_ok_normalize j : numbers_ok j = true → numbers_ok (normalize j) = true.
Proof.
  induction j as [|b|lit|s|l IH|l IH] using json_ind'; simpl; try done; rewrite !forallb_forall; intros H.
  - intros v (x & <- & Hx)%in_map_iff. rewrite Forall_forall in IH. apply IH; [by apply list_elem_of_In|auto].
  - intros [k v] Hin. apply list_elem_of_In, elem_of_members_of in Hin as [Hin|Hin]; [by apply elem_of_nil in Hin|].
    apply list_elem_of_In, in_map_iff in Hin as ([k' v'] & [= <- <-] & Hin).
    rewrite Forall_forall in IH. apply (IH (k', v')); [by apply list_elem_of_In|]. apply (H (k', v') Hin).
Qed.

Lemma foldr_max_le {A} (f : A → N) l n :
  (foldr (λ v m, N.max (f v) m) 0 l <= n)%N ↔ ∀ v, v ∈ l → (f v <= n)%N.
Proof.
  induction l as [|v l IH]; simpl.
  - split; [|lia]. intros _ v Hv. by apply elem_of_nil in Hv.
  - rewrite N.max_lub_iff, IH. setoid_rewrite elem_of_cons. naive_solver.
Qed.

Lemma json_depth_normalize j : (json_depth (normalize j) <= json_depth j)%N.
Proof.
  induction j as [|b|lit|s|l IH|l IH] using json_ind'; simpl; try lia; rewrite Forall_forall in IH.
  - apply N.add_le_mono_l, foldr_max_le. intros v Hv. apply list_elem_of_In, in_map_iff in Hv as (x & <- & Hx%list_elem_of_In).
    etrans; [by apply IH|]. by apply (foldr_max_le json_depth l _).
  - apply N.add_le_mono_l.
    assert (∀ m, foldr (λ '(_, v) m, N.max (json_depth v) m) 0%N m = foldr (λ (kv : string * json) m, N.max (json_depth kv.2) m) 0%N m) as E
      by (intros m; induction m as [|[k v] m IHm]; simpl; congruence).
    rewrite !E. apply (foldr_max_le (λ kv : string * json, json_depth kv.2)). intros kv Hkv.
    apply elem_of_members_of in Hkv as [Hkv|Hkv]; [by apply elem_of_nil in Hkv|].
    apply list_elem_of_In, in_map_iff in Hkv as ([k v] & <- & Hx%list_elem_of_In). simpl.
    etrans; [by apply (IH (k, v))|]. apply (proj1 (foldr_max_le (λ kv : string * json, json_depth kv.2) l _) (N.le_refl _) (k, v) Hx).
Qed.

(** A value as [json.Marshal] receives it from Go: printable numbers and a
    nesting the parser accepts. *)
Definition json_ok (j : json) : Prop := numbers_ok j = true ∧ (json_depth j <= maxNestingDepth)%N.

Lemma json_ok_normalize j : json_ok j → json_ok (normalize j).
Proof.
  intros [Hn Hd]. split; [by apply numbers_ok_normalize|]. etrans; [apply json_depth_normalize|done].
Qed.

(** *** ASCII text *)

Fixpoint ascii_only (s : string) : bool :=
  match s with
  | EmptyString => true
  | String c s' => (byte_val c <? 128)%Z && ascii_only s'
  end.

Lemma sanitize_ascii s : ascii_only s = true → sanitize s = s.
Proof.
  unfold sanitize. induction s as [|c s IH]; [done|]. cbn [ascii_only]. intros [Hc Hs]%andb_true_iff.
  apply Z.ltb_lt in Hc. pose proof (byte_val_range c) as Hr.
  unfold runes. cbn [String.length runes_fuel DecodeRune].
  assert (in_range 0 127 c = true) as -> by (unfold in_range; b2p; lia).
  cbn [sanitize_runes]. unfold bad_rune. change (runes_fuel (String.length s) s) with (runes s). rewrite IH by done.
  destruct (byte_val c =? RuneError)%Z eqn:E; [apply Z.eqb_eq in E; unfold RuneError in E; lia|]. done.
Qed.

Lemma ascii_only_app s t : ascii_only (s +:+ t) = ascii_only s && ascii_only t.
Proof. induction s as [|c s IH]; [done|]. cbn. by rewrite <-andb_assoc, <-IH. Qed.

Lemma ascii_only_hex_digits n v : ascii_only (hex_digits n v) = true.
Proof.
  revert v. induction n as [|n IH]; intros v; [done|]. cbn [hex_digits ascii_only]. rewrite IH, andb_true_r.
  apply Z.ltb_lt. unfold hexdigit. rewrite byte_val_byte.
  pose proof (Z.mod_pos_bound (v / 16 ^ Z.of_nat n) 16). case_match; rewrite Z.mod_small; b2p; lia.
Qed.

Lemma ascii_only_uuid_String u : ascii_only (uuid_String u) = true.
Proof. unfold uuid_String. rewrite !ascii_only_app, !ascii_only_hex_digits. done. Qed.
Lemma sanitize_uuid u : sanitize (uuid_String u) = uuid_String u.
Proof. apply sanitize_ascii, ascii_only_uuid_String. Qed.

(** Printing is injective up to normalization. *)
Lemma Marshal_inj a b : json_ok a → json_ok b → Marshal a = Marshal b → normalize a = normalize b.
Proof.
  intros [Na Da] [Nb Db] E. pose proof (Unmarshal_Marshal_normalize a Na Da) as Ha.
  rewrite E, (Unmarshal_Marshal_normalize b Nb Db) in Ha. congruence.
Qed.
