(* ===== verification/GoStrconv.v ===== *)
(** * [strconv.Quote] and [strconv.Unquote]

    Go's quoted strings, on bytes: an invalid byte is escaped by its value, a
    rune that is not printable by its code point.  Which runes above ASCII are
    printable is Unicode's table, a parameter; reading back does not depend on
    it ([Unquote_Quote]). *)
From S2P Require Import Prelude GoStrings GoEncoding.

(** ** Definitions *)

Definition dquote : ascii := "034".

Section Quote.
Context (printable : Z → bool).

(** [strconv.IsPrint]. *)
Definition IsPrint (r : Z) : bool := if (r <? 128)%Z then (32 <=? r)%Z && (r <=? 126)%Z else printable r.

Definition backslash (s : string) : string := String "\" s.
(** [appendEscapedRune], between double quotes. *)
Definition quote_rune (r : Z) (b : string) : string :=
  if bad_rune r b then backslash ("x" +:+ hex_EncodeToString b) else
  if (r =? 34)%Z || (r =? 92)%Z then backslash b else
  if IsPrint r then b else
  if (r =? 7)%Z then backslash "a" else
  if (r =? 8)%Z then backslash "b" else
  if (r =? 12)%Z then backslash "f" else
  if (r =? 10)%Z then backslash "n" else
  if (r =? 13)%Z then backslash "r" else
  if (r =? 9)%Z then backslash "t" else
  if (r =? 11)%Z then backslash "v" else
  if (r <? 32)%Z || (r =? 127)%Z then backslash ("x" +:+ hex_digits 2 r) else
  if (r <? 65536)%Z then backslash ("u" +:+ hex_digits 4 r) else backslash ("U" +:+ hex_digits 8 r).
Fixpoint quote_runes (l : list (Z * string)) : string :=
  match l with
  | [] => ""
  | (r, b) :: l' => quote_rune r b +:+ quote_runes l'
  end.
Definition Quote (s : string) : string := String dquote (quote_runes (runes s) +:+ String dquote "").
End Quote.

(** [n] hexadecimal digits. *)
Fixpoint scan_hex (n : nat) (acc : Z) (s : string) : option (Z * string) :=
  match n with
  | O => Some (acc, s)
  | S n' => match s with
            | String c s' => x ← hexval c; scan_hex n' (acc * 16 + x)%Z s'
            | "" => None
            end
  end.
Definition octval (c : ascii) : option Z := if in_range 48 55 c then Some (byte_val c - 48)%Z else None.
Definition ValidRune (r : Z) : bool := ((0 <=? r)%Z && (r <? 55296)%Z) || ((57343 <? r)%Z && (r <=? 1114111)%Z).

(** [strconv.UnquoteChar] between double quotes, as the bytes [Unquote] appends. *)
Definition UnquoteChar (s : string) : option (string * string) :=
  match s with
  | "" => None
  | String c s' =>
      if decide (c = dquote) then None else
      if negb (in_range 0 127 c) then
        match DecodeRune s with Some (r, _, t) => Some (utf8_encode r, t) | None => None end
      else if decide (c ≠ "\"%char) then Some (String c "", s') else
      match s' with
      | "" => None
      | String e t =>
          if decide (e = "a"%char) then Some (String (byte 7) "", t) else
          if decide (e = "b"%char) then Some (String (byte 8) "", t) else
          if decide (e = "f"%char) then Some (String (byte 12) "", t) else
          if decide (e = "n"%char) then Some (String (byte 10) "", t) else
          if decide (e = "r"%char) then Some (String (byte 13) "", t) else
          if decide (e = "t"%char) then Some (String (byte 9) "", t) else
          if decide (e = "v"%char) then Some (String (byte 11) "", t) else
          if decide (e = "x"%char) then '(v, t') ← scan_hex 2 0 t; Some (String (byte v) "", t') else
          if decide (e = "u"%char) then
            '(v, t') ← scan_hex 4 0 t; if ValidRune v then Some (utf8_encode v, t') else None else
          if decide (e = "U"%char) then
            '(v, t') ← scan_hex 8 0 t; if ValidRune v then Some (utf8_encode v, t') else None else
          match octval e with
          | Some d0 =>
              match t with
              | String c1 (String c2 t') =>
                  d1 ← octval c1; d2 ← octval c2;
                  let v := (d0 * 64 + d1 * 8 + d2)%Z in
                  if (255 <? v)%Z then None else Some (String (byte v) "", t')
              | _ => None
              end
          | None =>
              if decide (e = "\"%char ∨ e = dquote) then Some (String e "", t) else None
          end
      end
  end.

(** The loop of [unquote] after the opening quote: an unescaped newline is
    refused; the text and what follows the closing quote. *)
Fixpoint unquote_loop (fuel : nat) (s : string) : option (string * string) :=
  match fuel, s with
  | O, _ | _, "" => None
  | S fuel', String c s' =>
      if decide (c = dquote) then Some ("", s') else
      if decide (c = byte 10) then None else
      '(b, t) ← UnquoteChar s;
      '(out, rest) ← unquote_loop fuel' t;
      Some (b +:+ out, rest)
  end.

Definition ValidString (s : string) : bool := forallb (λ rb, negb (bad_rune rb.1 rb.2)) (runes s).

(** [strconv.Unquote] of a string in double quotes: without escapes and newlines
    a valid text is taken as it is. *)
Definition Unquote (s : string) : option string :=
  match strip_prefix (String dquote "") s with
  | None => None
  | Some body =>
      match find_first (String dquote "") body with
      | None => None
      | Some (text, after) =>
          '(out, rest) ← (if negb (ContainsAny text ["\"%char; byte 10]) && ValidString text then Some (text, after)
                          else unquote_loop (S (String.length body)) body);
          if bool_decide (rest = "") then Some out else None
      end
  end.

(** ** Lemmas *)

(** *** Runes *)

Lemma cont_spec c : in_range 128 191 c = true → byte_val c = (128 + cont c)%Z ∧ (0 <= cont c < 64)%Z.
Proof. intros H%in_range_spec. unfold cont. Z.to_euclidean_division_equations. lia. Qed.
Lemma second_cont b0 b1 :
  second_ok b0 b1 = true → in_range 128 191 b1 = true ∧
  (byte_val b0 = 224 → 32 <= cont b1)%Z ∧ (byte_val b0 = 237 → cont b1 <= 31)%Z ∧
  (byte_val b0 = 240 → 16 <= cont b1)%Z ∧ (byte_val b0 = 244 → cont b1 <= 15)%Z.
Proof.
  intros H. assert (in_range 128 191 b1 = true) as H1.
  { apply in_range_spec. unfold second_ok in H. repeat case_match; apply in_range_spec in H; lia. }
  split; [done|]. apply cont_spec in H1 as [E _]. unfold second_ok in H.
  repeat (case_match; b2p); apply in_range_spec in H; lia.
Qed.
Lemma div64 a c : (0 <= c < 64)%Z → ((a * 64 + c) / 64 = a ∧ (a * 64 + c) mod 64 = c)%Z.
Proof. intros H. Z.to_euclidean_division_equations. lia. Qed.
Lemma byte_is n c : byte_val c = n → byte n = c.
Proof. intros <-. apply byte_byte_val. Qed.

Lemma rune_shape_encode r b : rune_shape r b → utf8_encode r = b ∧ ValidRune r = true.
Proof.
  unfold utf8_encode, ValidRune.
  intros [b0 H0|b0 b1 _ H1 H2|b0 b1 b2 _ _ H1 H2|b0 b1 b2 b3 _ _ _ H1].
  - apply in_range_spec in H0. rewrite (proj2 (Z.ltb_lt _ 128)) by lia. rewrite byte_byte_val. split; [done|].
    apply orb_true_iff. left. b2p. lia.
  - apply in_range_spec in H1. apply second_cont in H2 as [[E1 C1]%cont_spec _].
    set (x := (byte_val b0 mod 32)%Z). assert (byte_val b0 = 192 + x)%Z as E0 by (unfold x; Z.to_euclidean_division_equations; lia).
    destruct (div64 x (cont b1) C1) as [-> ->]. rewrite (proj2 (Z.ltb_ge _ 128)), (proj2 (Z.ltb_lt _ 2048)) by lia.
    rewrite (byte_is _ b0), (byte_is _ b1) by lia. split; [done|]. apply orb_true_iff. left. b2p. lia.
  - apply in_range_spec in H1. apply andb_true_iff in H2 as [([E1 C1]%cont_spec & R1 & R2 & _)%second_cont [E2 C2]%cont_spec].
    set (x := (byte_val b0 mod 16)%Z). assert (byte_val b0 = 224 + x)%Z as E0 by (unfold x; Z.to_euclidean_division_equations; lia).
    replace (x * 4096 + cont b1 * 64 + cont b2)%Z with ((x * 64 + cont b1) * 64 + cont b2)%Z by lia.
    set (v := ((x * 64 + cont b1) * 64 + cont b2)%Z).
    replace (v / 4096)%Z with (v / 64 / 64)%Z by (by rewrite Z.div_div by lia).
    destruct (div64 (x * 64 + cont b1) (cont b2) C2) as [D2 M2]. fold v in D2, M2. rewrite D2, M2.
    destruct (div64 x (cont b1) C1) as [-> ->].
    rewrite (proj2 (Z.ltb_ge v 128)), (proj2 (Z.ltb_ge v 2048)), (proj2 (Z.ltb_lt v 65536)) by lia.
    assert (((55296 <=? v) && (v <=? 57343))%Z = false) as -> by (b2p; lia).
    rewrite (byte_is _ b0), (byte_is _ b1), (byte_is _ b2) by lia. split; [done|]. apply orb_true_iff. b2p. lia.
  - apply andb_true_iff in H1 as [[[H1 H2]%andb_true_iff [E2 C2]%cont_spec]%andb_true_iff [E3 C3]%cont_spec].
    apply in_range_spec in H1. apply second_cont in H2 as ([E1 C1]%cont_spec & _ & _ & R1 & R2).
    set (x := (byte_val b0 mod 8)%Z). assert (byte_val b0 = 240 + x)%Z as E0 by (unfold x; Z.to_euclidean_division_equations; lia).
    replace (x * 262144 + cont b1 * 4096 + cont b2 * 64 + cont b3)%Z
      with (((x * 64 + cont b1) * 64 + cont b2) * 64 + cont b3)%Z by lia.
    set (v := (((x * 64 + cont b1) * 64 + cont b2) * 64 + cont b3)%Z).
    replace (v / 262144)%Z with (v / 64 / 64 / 64)%Z by (by rewrite !Z.div_div by lia).
    replace (v / 4096)%Z with (v / 64 / 64)%Z by (by rewrite Z.div_div by lia).
    destruct (div64 ((x * 64 + cont b1) * 64 + cont b2) (cont b3) C3) as [D3 M3]. fold v in D3, M3. rewrite D3, M3.
    destruct (div64 (x * 64 + cont b1) (cont b2) C2) as [-> ->]. destruct (div64 x (cont b1) C1) as [-> ->].
    rewrite (proj2 (Z.ltb_ge v 128)), (proj2 (Z.ltb_ge v 2048)), (proj2 (Z.ltb_ge v 65536)) by lia.
    assert (((55296 <=? v) && (v <=? 57343))%Z = false) as -> by (b2p; lia).
    rewrite (byte_is _ b0), (byte_is _ b1), (byte_is _ b2), (byte_is _ b3) by lia. split; [done|]. apply orb_true_iff. b2p. lia.
Qed.

Lemma scan_hex_digits n : ∀ acc v r,
  (0 <= v)%Z → scan_hex n acc (hex_digits n v +:+ r) = Some (acc * 16 ^ Z.of_nat n + v mod 16 ^ Z.of_nat n, r)%Z.
Proof.
  induction n as [|n IH]; intros acc v r Hv; [cbn; by rewrite Z.mod_1_r, Z.add_0_r, Z.mul_1_r|].
  cbn [hex_digits scan_hex]. rewrite app_cons.
  assert (∀ d, (0 <= d < 16)%Z → hexval (hexdigit d) = Some d) as Hd.
  { intros d Hd. assert (d ∈ map Z.of_nat (seq 0 16)) as Hin.
    { apply list_elem_of_fmap. exists (Z.to_nat d). split; [lia|]. apply elem_of_seq. lia. }
    clear Hd. revert d Hin. apply Forall_forall. repeat constructor. }
  pose proof (Z.mod_pos_bound (v / 16 ^ Z.of_nat n) 16 eq_refl) as Hm.
  cbn [scan_hex]. rewrite Hd by done. cbn [mbind option_bind]. rewrite IH by done. f_equal. f_equal.
  rewrite Nat2Z.inj_succ, Z.pow_succ_r by lia.
  pose proof (Z.pow_pos_nonneg 16 (Z.of_nat n) eq_refl (Nat2Z.is_nonneg n)).
  rewrite (Z.mul_comm 16), Z.rem_mul_r by lia. ring.
Qed.

(** The bytes of a rune beyond ASCII are beyond ASCII. *)
Lemma multibyte_none r b l :
  rune_shape r b → (128 <= r)%Z → Forall (λ c, byte_val c < 128)%Z l → ContainsAny b l = false.
Proof.
  intros Hs Hr Hl. assert (∀ c, (128 <= byte_val c)%Z → c ∉ l) as Hno.
  { intros c Hc Hin. rewrite Forall_forall in Hl. specialize (Hl c Hin). cbn in Hl. lia. }
  destruct Hs as [b0 H0|b0 b1 H0 H1 H2|b0 b1 b2 H0 H1 H2 H3|b0 b1 b2 b3 H0 H1 H2 H3].
  - apply in_range_spec in H0. lia.
  - apply in_range_spec in H1. apply second_cont in H2 as [H2%in_range_spec _].
    rewrite !ContainsAny_cons. split_and!; [apply Hno; lia..|done].
  - apply in_range_spec in H2. apply andb_true_iff in H3 as [[H3%in_range_spec _]%second_cont H4%in_range_spec].
    rewrite !ContainsAny_cons. split_and!; [apply Hno; lia..|done].
  - apply andb_true_iff in H3 as [[[H3%in_range_spec [H4%in_range_spec _]%second_cont]%andb_true_iff H5%in_range_spec]%andb_true_iff
      H6%in_range_spec].
    rewrite !ContainsAny_cons. split_and!; [apply Hno; lia..|done].
Qed.

(** *** Quoting and unquoting *)

Section Roundtrip.
Context (printable : Z → bool).
Implicit Types (l : list (Z * string)).
Abbreviation decoded := (λ rb : Z * string, bad_rune rb.1 rb.2 = true ∨ rune_shape rb.1 rb.2).

(** A piece of a quoted text is an escape sequence, or itself and harmless. *)
Lemma quote_rune_shape r b :
  decoded (r, b) →
  (∃ e, quote_rune printable r b = String "\" e) ∨
  (quote_rune printable r b = b ∧ rune_shape r b ∧ ContainsAny b ["\"%char; dquote; byte 10; byte 13] = false).
Proof.
  intros [Hb|Hs]; cbn in *; unfold quote_rune, backslash; [rewrite Hb; left; by eexists|].
  destruct (rune_shape_range r b Hs) as [_ ->].
  destruct (rune_shape_bounds r b Hs) as [(c & -> & -> & Hc)|Hbig].
  - clear Hs. destruct c as [[] [] [] [] [] [] [] []]; try discriminate Hc; cbn; (by left; eexists) || (right; split; [done|]; split; [by constructor|done]).
  - rewrite !(proj2 (Z.eqb_neq r _)), (proj2 (Z.ltb_ge r 32)) by lia. cbn. unfold IsPrint. rewrite (proj2 (Z.ltb_ge r 128)) by lia.
    destruct (printable r); [|left; destruct (r <? 65536)%Z; by eexists]. right. split; [done|]. split; [done|].
    apply (multibyte_none r); [done..|]. repeat constructor.
Qed.

Lemma UnquoteChar_u t :
  UnquoteChar (String "\" (String "u" t)) = ('(v, t') ← scan_hex 4 0 t; if ValidRune v then Some (utf8_encode v, t') else None).
Proof. reflexivity. Qed.
Lemma UnquoteChar_U t :
  UnquoteChar (String "\" (String "U" t)) = ('(v, t') ← scan_hex 8 0 t; if ValidRune v then Some (utf8_encode v, t') else None).
Proof. reflexivity. Qed.

(** Reading one piece back. *)
Lemma UnquoteChar_piece r b rest :
  decoded (r, b) → UnquoteChar (quote_rune printable r b +:+ rest) = Some (b, rest).
Proof.
  intros [Hb|Hs]; cbn in *; unfold quote_rune, backslash in *.
  - rewrite Hb. unfold bad_rune in Hb. apply andb_true_iff in Hb as [_ Hb%bool_decide_eq_true].
    destruct b as [|c [|c' b]]; [done| |done]. clear Hb. by destruct c as [[] [] [] [] [] [] [] []].
  - destruct (rune_shape_range r b Hs) as [_ Hb]. rewrite Hb in *. destruct (rune_shape_encode r b Hs) as [Henc Hv].
    destruct (rune_shape_bounds r b Hs) as [(c & -> & -> & Hc)|Hbig].
    + clear Hs Hb Henc Hv. destruct c as [[] [] [] [] [] [] [] []]; try discriminate Hc; reflexivity.
    + rewrite !(proj2 (Z.eqb_neq r _)), (proj2 (Z.ltb_ge r 32)) in * by lia. cbn.
      unfold IsPrint in *. rewrite (proj2 (Z.ltb_ge r 128)) in * by lia.
      assert (0 <= r < 16 ^ 8)%Z by (unfold ValidRune in Hv; apply orb_true_iff in Hv; b2p; lia).
      destruct (printable r); [|destruct (r <? 65536)%Z eqn:Hr; b2p].
      * pose proof (multibyte_none r b [dquote] Hs Hbig ltac:(repeat constructor)) as Hno.
        pose proof (rune_shape_decode r b rest Hs) as Hd. destruct b as [|c b]; [by inversion Hs|].
        rewrite app_cons in *. cbn [UnquoteChar]. apply ContainsAny_cons in Hno as [Hno _].
        rewrite decide_False by set_solver.
        assert (in_range 0 127 c = false) as ->.
        { inversion Hs; subst; try done. rewrite in_range_spec in *. lia. }
        cbn [negb]. by rewrite Hd, Henc.
      * change (UnquoteChar (String "\" (String "u" (hex_digits 4 r +:+ rest))) = Some (b, rest)).
        rewrite UnquoteChar_u, scan_hex_digits by lia. cbn [mbind option_bind].
        rewrite Z.mul_0_l, Z.add_0_l, Z.mod_small by (change (16 ^ Z.of_nat 4)%Z with 65536%Z; lia). by rewrite Hv, Henc.
      * change (UnquoteChar (String "\" (String "U" (hex_digits 8 r +:+ rest))) = Some (b, rest)).
        rewrite UnquoteChar_U, scan_hex_digits by lia. cbn [mbind option_bind].
        rewrite Z.mul_0_l, Z.add_0_l, Z.mod_small by (change (Z.of_nat 8) with 8%Z; lia). by rewrite Hv, Henc.
Qed.

Lemma quote_rune_head r b rest :
  decoded (r, b) → ∃ c t, quote_rune printable r b +:+ rest = String c t ∧ c ≠ dquote ∧ c ≠ byte 10.
Proof.
  intros Hd. destruct (quote_rune_shape r b Hd) as [[e ->]|(-> & Hs & Hno)]; [by eexists _, _|].
  destruct b as [|c b]; [by inversion Hs|]. exists c, (b +:+ rest). split; [done|].
  apply ContainsAny_cons in Hno as [Hno _]. set_solver.
Qed.

Lemma unquote_runes l : ∀ n rest,
  Forall decoded l → length l < n →
  unquote_loop n (quote_runes printable l +:+ String dquote rest) = Some (concat_bytes l, rest).
Proof.
  induction l as [|[r b] l IH]; intros n rest Hl Hn; (destruct n as [|n]; [cbn in Hn; lia|]); [reflexivity|].
  apply Forall_cons in Hl as [Hd Hl]. cbn [quote_runes concat_bytes]. rewrite <-app_assoc'.
  destruct (quote_rune_head r b (quote_runes printable l +:+ String dquote rest) Hd) as (c & t & E & Hc & Hc').
  pose proof (UnquoteChar_piece r b (quote_runes printable l +:+ String dquote rest) Hd) as Hu.
  rewrite E in *. cbn [unquote_loop]. rewrite !decide_False by done. rewrite Hu. cbn [mbind option_bind].
  rewrite IH by (done || (cbn in Hn; lia)). done.
Qed.

(** The fast path: a text without escapes is the bytes it quotes. *)
Lemma unquote_plain l text after :
  Forall decoded l → find_first (String dquote "") (quote_runes printable l +:+ String dquote "") = Some (text, after) →
  ContainsAny text ["\"%char; byte 10] = false → text = concat_bytes l ∧ after = "".
Proof.
  revert text. induction l as [|[r b] l IH]; intros text Hl H Hno; [by injection H as <- <-|].
  apply Forall_cons in Hl as [Hd Hl]. cbn [quote_runes concat_bytes] in *. rewrite <-app_assoc' in H.
  destruct (quote_rune_shape r b Hd) as [[e Ee]|(Eb & Hs & Hq)].
  - rewrite Ee, app_cons in H. cbn [find_first strip_prefix] in H. rewrite decide_False in H by done.
    destruct (find_first _ (e +:+ _)) as [[x y]|]; cbn in H; [|discriminate]. injection H as <- <-. apply ContainsAny_cons in Hno as [Hno _]. set_solver.
  - rewrite Eb in H. assert (contains_byte dquote b = false) as Hb by (eapply ContainsAny_weaken; [|exact Hq]; set_solver).
    rewrite find_first_skip in H by done.
    destruct (find_first _ (quote_runes printable l +:+ _)) as [[x y]|] eqn:E; [|done]. injection H as <- <-.
    rewrite ContainsAny_app in Hno. apply orb_false_iff in Hno as [_ Hno].
    destruct (IH x Hl eq_refl Hno) as [-> ->]. done.
Qed.

Lemma quote_runes_length l : Forall decoded l → length l ≤ String.length (quote_runes printable l).
Proof.
  induction 1 as [|[r b] l Hd Hl IH]; [done|]. cbn [length quote_runes]. rewrite length_app'.
  destruct (quote_rune_head r b "" Hd) as (c & t & E & _). rewrite app_nil_r' in E. rewrite E. cbn. lia.
Qed.

Lemma Unquote_Quote v : Unquote (Quote printable v) = Some v.
Proof.
  pose proof (runes_shape v) as Hl. unfold Unquote, Quote.
  change (strip_prefix (String dquote "") (String dquote (quote_runes printable (runes v) +:+ String dquote "")))
    with (Some (quote_runes printable (runes v) +:+ String dquote "")). cbn [mbind option_bind].
  destruct (find_first _ _) as [[text after]|] eqn:E.
  2:{ exfalso. apply find_first_None in E. apply E. by exists (quote_runes printable (runes v)), "". }
  destruct (negb _ && ValidString text) eqn:Hf.
  - apply andb_true_iff in Hf as [Hno%negb_true_iff _]. cbn [mbind option_bind].
    destruct (unquote_plain _ _ _ Hl E Hno) as [-> ->]. by rewrite concat_bytes_runes.
  - rewrite (unquote_runes _ _ "" Hl).
    + cbn [mbind option_bind]. by rewrite concat_bytes_runes.
    + pose proof (quote_runes_length _ Hl). rewrite length_app'. lia.
Qed.

(** A quoted text stays on its line. *)
Lemma hexdigit_line d : (0 <= d < 16)%Z → hexdigit d ∉ [byte 10; byte 13].
Proof.
  intros Hd H. assert (byte_val (hexdigit d) = 10 ∨ byte_val (hexdigit d) = 13)%Z as Hv by
    (rewrite !elem_of_cons, elem_of_nil in H; destruct H as [-> |[-> |[]]]; [left|right]; reflexivity).
  unfold hexdigit in Hv. rewrite byte_val_byte in Hv. rewrite Z.mod_small in Hv by (case_match; lia). case_match; b2p; lia.
Qed.
Lemma hex_digits_line n v : ContainsAny (hex_digits n v) [byte 10; byte 13] = false.
Proof.
  induction n as [|n IH]; [done|]. cbn [hex_digits]. apply ContainsAny_cons. split; [|done].
  apply hexdigit_line. by apply Z.mod_pos_bound.
Qed.
Lemma quote_rune_line r b : decoded (r, b) → ContainsAny (quote_rune printable r b) [byte 10; byte 13] = false.
Proof.
  intros [Hb|Hs]; cbn in *; unfold quote_rune, backslash.
  - rewrite Hb. unfold bad_rune in Hb. apply andb_true_iff in Hb as [_ Hb%bool_decide_eq_true].
    destruct b as [|c [|c' b]]; [done| |done]. clear Hb. by destruct c as [[] [] [] [] [] [] [] []].
  - destruct (rune_shape_range r b Hs) as [_ ->]. destruct (rune_shape_bounds r b Hs) as [(c & -> & -> & Hc)|Hbig].
    + clear Hs. destruct c as [[] [] [] [] [] [] [] []]; try discriminate Hc; reflexivity.
    + rewrite !(proj2 (Z.eqb_neq r _)), (proj2 (Z.ltb_ge r 32)) by lia. cbn -[hex_digits ContainsAny].
      unfold IsPrint. rewrite (proj2 (Z.ltb_ge r 128)) by lia.
      destruct (printable r); [apply (multibyte_none r); [done..|repeat constructor]|].
      destruct (r <? 65536)%Z; (apply ContainsAny_cons; split; [set_solver|]);
        (apply ContainsAny_cons; split; [set_solver|apply hex_digits_line]).
Qed.
Lemma Quote_line v : ContainsAny (Quote printable v) [byte 10; byte 13] = false.
Proof.
  unfold Quote. apply ContainsAny_cons. split; [set_solver|]. rewrite ContainsAny_app, orb_false_r.
  pose proof (runes_shape v) as Hl. induction Hl as [|[r b] l Hd Hl IH]; [done|]. cbn [quote_runes].
  by rewrite ContainsAny_app, IH, quote_rune_line.
Qed.
End Roundtrip.
