(* ===== verification/GoNet.v ===== *)
(** * Base64, URLs and UUIDs

    What the OAuth code uses of Go's [encoding/base64] ([RawURLEncoding]), of
    [strings.Fields], and of [net/url].  [url.Parse] is a parameter: the code
    looks at some parts of a parsed URL and adds query parameters to one. *)
From S2P Require Import Prelude GoStrings GoEncoding.

(** ** Definitions *)

(** *** [base64.RawURLEncoding] *)

(** The alphabet, by the value of six bits. *)
Definition b64_char (v : Z) : ascii :=
  byte (if (v <? 26)%Z then 65 + v else if (v <? 52)%Z then 71 + v else if (v <? 62)%Z then v - 4
        else if (v =? 62)%Z then 45 else 95).
Definition b64_val (c : ascii) : option Z :=
  let b := byte_val c in
  if (65 <=? b)%Z && (b <=? 90)%Z then Some (b - 65)%Z
  else if (97 <=? b)%Z && (b <=? 122)%Z then Some (b - 71)%Z
  else if (48 <=? b)%Z && (b <=? 57)%Z then Some (b + 4)%Z
  else if (b =? 45)%Z then Some 62%Z
  else if (b =? 95)%Z then Some 63%Z
  else None.

(** Three bytes are four characters; two are three, one is two. *)
Fixpoint b64_Encode (s : string) : string :=
  match s with
  | String a (String b (String c s')) =>
      let v := (byte_val a * 65536 + byte_val b * 256 + byte_val c)%Z in
      String (b64_char (v / 262144)) (String (b64_char (v / 4096 mod 64))
        (String (b64_char (v / 64 mod 64)) (String (b64_char (v mod 64)) (b64_Encode s'))))
  | String a (String b EmptyString) =>
      let v := (byte_val a * 1024 + byte_val b * 4)%Z in
      String (b64_char (v / 4096)) (String (b64_char (v / 64 mod 64)) (String (b64_char (v mod 64)) ""))
  | String a EmptyString =>
      let v := (byte_val a * 16)%Z in
      String (b64_char (v / 64)) (String (b64_char (v mod 64)) "")
  | EmptyString => ""
  end.

(** The decoder skips line breaks and does not look at the unused low bits of
    the last character. *)
Fixpoint b64_vals (s : string) : option (list Z) :=
  match s with
  | EmptyString => Some []
  | String c s' =>
      if bool_decide (c ∈ ["010"; "013"]%char) then b64_vals s'
      else v ← b64_val c; vs ← b64_vals s'; Some (v :: vs)
  end.
Fixpoint b64_bytes (vs : list Z) : option string :=
  match vs with
  | a :: b :: c :: d :: vs' =>
      let v := (a * 262144 + b * 4096 + c * 64 + d)%Z in
      s ← b64_bytes vs'; Some (String (byte (v / 65536)) (String (byte (v / 256 mod 256)) (String (byte (v mod 256)) s)))
  | [a; b; c] =>
      let v := (a * 4096 + b * 64 + c)%Z in
      Some (String (byte (v / 1024)) (String (byte (v / 4 mod 256)) ""))
  | [a; b] => Some (String (byte ((a * 64 + b) / 16)) "")
  | [_] => None
  | [] => Some ""
  end.
Definition b64_DecodeString (s : string) : option string := vs ← b64_vals s; b64_bytes vs.

(** *** [strings.Fields] *)

Fixpoint fields_from (l : list (Z * string)) (cur : string) : list string :=
  match l with
  | [] => if bool_decide (cur = "") then [] else [cur]
  | (r, b) :: l' =>
      if IsSpace r then
        if bool_decide (cur = "") then fields_from l' "" else cur :: fields_from l' ""
      else fields_from l' (cur +:+ b)
  end.
Definition Fields (s : string) : list string := fields_from (runes s) "".

(** *** [net/url] *)

(** The parts of a [url.URL] the code looks at. *)
Record URL := mkURL {
  u_Scheme : string;
  u_Host : string;
  u_User : option string;
  u_Path : string;
  u_RawQuery : string;
  u_Fragment : string;
}.
Class NetURL := {
  url_Parse : string → option URL;
  (** [u, _ := url.Parse(raw)], [q := u.Query()], [q.Set] in turn,
      [u.RawQuery = q.Encode()], [u.String()] *)
  url_with_query : string → list (string * string) → string;
}.

(** [uuid.Parse]. *)
Class UUIDParse := uuid_Parse : string → option uuid.

(** [url.Values]. *)
Abbreviation Values := (gmap string (list string)).
Definition values_Get (v : Values) (key : string) : string := default "" (head (default [] (v !! key))).

(** ** Lemmas *)

Lemma b64_Encode_length s :
  String.length (b64_Encode s) = (String.length s / 3 * 4 + match String.length s mod 3 with 0 => 0 | 1 => 2 | _ => 3 end).
Proof.
  enough (∀ n s, String.length s < n →
    String.length (b64_Encode s) = (String.length s / 3 * 4 + match String.length s mod 3 with 0 => 0 | 1 => 2 | _ => 3 end)) as H.
  { apply (H (S (String.length s))). lia. }
  clear s. induction n as [|n IH]; intros s Hn; [lia|].
  destruct s as [|a [|b [|c s]]]; [done..|]. cbn [b64_Encode String.length] in *. rewrite IH by lia.
  replace (S (S (S (String.length s)))) with (String.length s + 1 * 3) by lia.
  rewrite Nat.div_add, Nat.Div0.mod_add by lia. lia.
Qed.
