(* ===== verification/GoStruct.v ===== *)
(** * Decoding JSON into Go structs

    What [json.Unmarshal] does when its target is a struct instead of an
    interface: a member goes to the field of its exact name, else to the field
    whose name it matches up to case; unknown members are skipped; [null] leaves
    a field alone (a slice or a map becomes nil); a value of the wrong type is
    remembered as an error, and decoding goes on.  A decoder maps the value and
    the target before to the target after and whether no error was saved.
    Members come in the order of the parsed value, which is that of their
    names; the program's own rows hold no two names that differ only in case. *)
From S2P Require Import Prelude GoStrings GoEncoding GoNet.

(** ** Definitions *)

Abbreviation decoder A := (json → A → A * bool).

(** [foldName], on what can match an ASCII name: besides the case of letters,
    the Kelvin sign is a [k] and the long s an [s]. *)
Definition fold_rune (r : Z) : Z :=
  if (97 <=? r)%Z && (r <=? 122)%Z then (r - 32)%Z
  else if (r =? 8490)%Z then 75%Z else if (r =? 383)%Z then 83%Z else r.
Definition fold_name (s : string) : list Z := map (λ rb, fold_rune rb.1) (runes s).

Definition dec_string : decoder string := λ j s,
  match j with JStr x => (x, true) | JNull => (s, true) | _ => (s, false) end.

(** [strconv.ParseInt(lit, 10, 64)] of a JSON number: the digits of an integer
    literal. *)
Fixpoint parse_digits (acc : Z) (s : string) : option Z :=
  match s with
  | EmptyString => Some acc
  | String c s' => if is_digit c then parse_digits (acc * 10 + (byte_val c - 48)) s' else None
  end.
Definition parse_int (lit : string) : option Z :=
  match lit with
  | String "-" s => n ← parse_digits 0 s; Some (- n)%Z
  | _ => parse_digits 0 lit
  end.
Definition int64_fits (n : Z) : bool := (- 2 ^ 63 <=? n)%Z && (n <? 2 ^ 63)%Z.
Definition dec_int : decoder Z := λ j n,
  match j with
  | JNum lit =>
      match parse_int lit with Some v => if int64_fits v then (v, true) else (n, false) | None => (n, false) end
  | JNull => (n, true)
  | _ => (n, false)
  end.
Definition dec_bool : decoder bool := λ j b,
  match j with JBool x => (x, true) | JNull => (b, true) | _ => (b, false) end.

(** The elements of a slice, over those the slice had. *)
Fixpoint dec_items {A} (zero : A) (d : decoder A) (l : list json) (old : list A) : list A * bool :=
  match l with
  | [] => ([], true)
  | j :: l' =>
      let '(x, ok) := d j (default zero (head old)) in
      let '(xs, ok') := dec_items zero d l' (tail old) in
      (x :: xs, ok && ok')
  end.
(** A slice; [None] is nil. *)
Definition dec_slice {A} (zero : A) (d : decoder A) : decoder (option (list A)) := λ j old,
  match j with
  | JList l => let '(xs, ok) := dec_items zero d l (default [] old) in (Some xs, ok)
  | JNull => (None, true)
  | _ => (old, false)
  end.

(** A [map[string]string]; [None] is nil. *)
Fixpoint dec_entries (l : list (string * json)) (m : gmap string string) : gmap string string * bool :=
  match l with
  | [] => (m, true)
  | (k, v) :: l' =>
      let '(x, ok) := dec_string v "" in
      let '(m', ok') := dec_entries l' (<[k := x]> m) in
      (m', ok && ok')
  end.
Definition dec_map : decoder (option (gmap string string)) := λ j m,
  match j with
  | JObj l => let '(m', ok) := dec_entries l (default ∅ m) in (Some m', ok)
  | JNull => (None, true)
  | _ => (m, false)
  end.

(** A struct, by its fields. *)
Definition field_of {S} (fs : list (string * decoder S)) (name : string) : option (decoder S) :=
  match list_find (λ f, f.1 = name) fs with
  | Some (_, f) => Some f.2
  | None => (λ '(_, f), f.2) <$> list_find (λ f, fold_name f.1 = fold_name name) fs
  end.
Fixpoint dec_members {S} (fs : list (string * decoder S)) (l : list (string * json)) (s : S) : S * bool :=
  match l with
  | [] => (s, true)
  | (k, v) :: l' =>
      let '(s1, ok) := match field_of fs k with Some d => d v s | None => (s, true) end in
      let '(s2, ok') := dec_members fs l' s1 in
      (s2, ok && ok')
  end.
Definition dec_struct {S} (fs : list (string * decoder S)) : decoder S := λ j s,
  match j with JObj l => dec_members fs l s | JNull => (s, true) | _ => (s, false) end.

(** A field, from its getter and setter. *)
Definition field {S A} (name : string) (d : decoder A) (get : S → A) (set : A → S → S) : string * decoder S :=
  (name, λ j s, let '(a, ok) := d j (get s) in (set a s, ok)).

(** [if json.Unmarshal(b, &v) != nil { fail }], for a fresh [v]. *)
Definition decode {S} (d : decoder S) (zero : S) (j : json) : option S :=
  let '(s, ok) := d j zero in if ok then Some s else None.

(** *** Printing *)

Definition enc_strings (l : option (list string)) : json :=
  match l with Some l => JList (map JStr l) | None => JNull end.
Definition enc_map (m : option (gmap string string)) : json :=
  match m with Some m => mk_obj (map (λ '(k, v), (k, JStr v)) (map_to_list m)) | None => JNull end.

(** *** Patterns: the bytes of an ASCII string *)

Fixpoint all_bytes (p : ascii → bool) (s : string) : bool :=
  match s with EmptyString => true | String c s' => p c && all_bytes p s' end.
Definition is_lower (c : ascii) : bool := in_range 97 122 c.
Definition is_alpha (c : ascii) : bool := in_range 97 122 c || in_range 65 90 c.
Definition is_alnum (c : ascii) : bool := is_alpha c || is_digit c.
(** [[a-f0-9]{n}]. *)
Definition is_hex (c : ascii) : bool := is_digit c || in_range 97 102 c.
Definition hex_string (n : nat) (s : string) : bool := (String.length s =? n) && all_bytes is_hex s.
(** One of the bytes of a literal. *)
Definition one_of (chars : string) (c : ascii) : bool := contains_byte c chars.

(** *** [time.Time.UnmarshalJSON] *)

(** The number of days from 1 January of year 1 to a civil date. *)
Definition days_of_civil (y m d : Z) : Z :=
  let y' := (if (m <=? 2)%Z then y - 1 else y)%Z in
  let era := (y' / 400)%Z in
  let yoe := (y' - era * 400)%Z in
  let doy := ((153 * (m + (if (2 <? m)%Z then -3 else 9)) + 2) / 5 + d - 1)%Z in
  let doe := (yoe * 365 + yoe / 4 - yoe / 100 + doy)%Z in
  (era * 146097 + doe - 306)%Z.
Definition leap_year (y : Z) : bool :=
  (y mod 4 =? 0)%Z && (negb (y mod 100 =? 0)%Z || (y mod 400 =? 0)%Z).
Definition days_in (y m : Z) : Z :=
  if (m =? 2)%Z then (if leap_year y then 29 else 28)%Z
  else if bool_decide (m ∈ [4; 6; 9; 11]%Z) then 30%Z else 31%Z.

(** A field of [n] digits in a range. *)
Definition digit_field (n : nat) (lo hi : Z) (s : string) : option (Z * string) :=
  if (n <=? String.length s) && all_bytes is_digit (String.substring 0 n s) then
    v ← parse_digits 0 (String.substring 0 n s);
    if (lo <=? v)%Z && (v <=? hi)%Z then Some (v, String.substring n (String.length s - n) s) else None
  else None.
(** A fraction of a second: the first nine digits count. *)
Definition fraction (s : string) : option (Z * string) :=
  match s with
  | String "." s' =>
      let '(d, r) := span_digits s' in
      if bool_decide (d = "") then None else
      n ← parse_digits 0 (String.substring 0 9 (d +:+ "000000000"));
      Some (n, r)
  | _ => Some (0%Z, s)
  end.
Definition zone_offset (s : string) : option Z :=
  match s with
  | "Z" => Some 0%Z
  | String sign s' =>
      '(h, r) ← digit_field 2 0 23 s';
      r ← strip_prefix ":" r;
      '(m, r) ← digit_field 2 0 59 r;
      let offset := (h * 3600 + m * 60)%Z in
      if bool_decide (r = "") then
        if decide (sign = "+"%char) then Some offset else if decide (sign = "-"%char) then Some (- offset)%Z else None
      else None
  | _ => None
  end.
(** RFC 3339, strictly. *)
Definition time_Parse (s : string) : option time :=
  '(y, r) ← digit_field 4 0 9999 s;
  r ← strip_prefix "-" r;
  '(mo, r) ← digit_field 2 1 12 r;
  r ← strip_prefix "-" r;
  '(d, r) ← digit_field 2 1 (days_in y mo) r;
  r ← strip_prefix "T" r;
  '(h, r) ← digit_field 2 0 23 r;
  r ← strip_prefix ":" r;
  '(mi, r) ← digit_field 2 0 59 r;
  r ← strip_prefix ":" r;
  '(sec, r) ← digit_field 2 0 59 r;
  '(ns, r) ← fraction r;
  off ← zone_offset r;
  Some ((days_of_civil y mo d * 86400 + h * 3600 + mi * 60 + sec - off) * Second + ns)%Z.
Definition dec_time : decoder time := λ j t,
  match j with
  | JStr s => match time_Parse s with Some v => (v, true) | None => (t, false) end
  | JNull => (t, true)
  | _ => (t, false)
  end.

(** *** [base64.StdEncoding] *)

Definition std_val (c : ascii) : option Z :=
  let b := byte_val c in
  if (65 <=? b)%Z && (b <=? 90)%Z then Some (b - 65)%Z
  else if (97 <=? b)%Z && (b <=? 122)%Z then Some (b - 71)%Z
  else if (48 <=? b)%Z && (b <=? 57)%Z then Some (b + 4)%Z
  else if (b =? 43)%Z then Some 62%Z
  else if (b =? 47)%Z then Some 63%Z
  else None.
Fixpoint std_vals (s : string) : option (list Z) :=
  match s with
  | EmptyString => Some []
  | String c s' => v ← std_val c; vs ← std_vals s'; Some (v :: vs)
  end.
(** Without the bytes a condition names. *)
Fixpoint drop_bytes (p : ascii → bool) (s : string) : string :=
  match s with
  | EmptyString => ""
  | String c s' => if p c then drop_bytes p s' else String c (drop_bytes p s')
  end.
(** Line breaks are skipped; the padding is required. *)
Definition std_DecodeString (s : string) : option string :=
  let t := drop_bytes (λ c, bool_decide (c ∈ ["010"; "013"]%char)) s in
  if String.length t mod 4 =? 0 then
    vs ← std_vals (match strip_suffix "==" t with
                   | Some b => b
                   | None => default t (strip_suffix "=" t)
                   end);
    b64_bytes vs
  else None.

(** *** [url.PathEscape] *)

Definition upper_hex (n : Z) : ascii := byte (if (n <? 10)%Z then 48 + n else 55 + n).
Fixpoint url_PathEscape (s : string) : string :=
  match s with
  | EmptyString => ""
  | String c s' =>
      if is_alnum c || one_of "-_.~$&+:=@" c then String c (url_PathEscape s')
      else String "%" (String (upper_hex (byte_val c / 16)) (String (upper_hex (byte_val c mod 16)) (url_PathEscape s')))
  end.
