(* ===== verification/GoUnicode.v ===== *)
(** * Text of people: case, classes of characters, addresses, query strings

    What the code uses of Go's [unicode], [strings.ToLower], [strings.TrimRight],
    [net/mail] and [url.ParseQuery].  The tables of [unicode] beyond ASCII and the
    address parser are parameters. *)
From S2P Require Import Prelude GoStrings GoEncoding GoNet GoStruct.

(** ** Definitions *)

(** The properties of a code point that is not ASCII. *)
Class Unicode := {
  rune_ToLower : Z → Z;
  rune_IsUpper : Z → bool;
  rune_IsLower : Z → bool;
  rune_IsDigit : Z → bool;
  rune_IsPunct : Z → bool;
  rune_IsSymbol : Z → bool;
}.

(** [mail.ParseAddress]: the [Address] of the result. *)
Class MailAddress := mail_ParseAddress : string → option string.

Definition between (lo hi r : Z) : bool := (lo <=? r)%Z && (r <=? hi)%Z.

Section Unicode.
Context `{UC : Unicode}.

Definition unicode_ToLower (r : Z) : Z :=
  if (r <? 128)%Z then (if between 65 90 r then r + 32 else r)%Z else rune_ToLower r.
Definition IsUpper (r : Z) : bool := if (r <? 128)%Z then between 65 90 r else rune_IsUpper r.
Definition IsLower (r : Z) : bool := if (r <? 128)%Z then between 97 122 r else rune_IsLower r.
Definition IsDigit (r : Z) : bool := if (r <? 128)%Z then between 48 57 r else rune_IsDigit r.
(** ASCII symbols are [$+<=>^`|~]. *)
Definition ascii_symbol (r : Z) : bool := bool_decide (r ∈ [36; 43; 60; 61; 62; 94; 96; 124; 126]%Z).
Definition ascii_printable (r : Z) : bool :=
  between 33 47 r || between 58 64 r || between 91 96 r || between 123 126 r.
Definition IsPunct (r : Z) : bool := if (r <? 128)%Z then ascii_printable r && negb (ascii_symbol r) else rune_IsPunct r.
Definition IsSymbol (r : Z) : bool := if (r <? 128)%Z then ascii_symbol r else rune_IsSymbol r.

(** [strings.ToLower]; bytes that start no rune become U+FFFD, as in [strings.Map]. *)
Definition ToLower (s : string) : string := Join (map (λ rb, utf8_encode (unicode_ToLower rb.1)) (runes s)) "".
End Unicode.

(** [strings.TrimRight] with a cutset of one byte. *)
Fixpoint TrimRight (s : string) (c : ascii) : string :=
  match s with
  | EmptyString => ""
  | String d s' =>
      match TrimRight s' c with
      | EmptyString => if decide (d = c) then "" else String d ""
      | t => String d t
      end
  end.

(** [url.QueryUnescape]. *)
Fixpoint QueryUnescape (s : string) : option string :=
  match s with
  | EmptyString => Some ""
  | String "%" (String a (String b s')) =>
      match hexval a, hexval b with
      | Some x, Some y => String (byte (x * 16 + y)) <$> QueryUnescape s'
      | _, _ => None
      end
  | String "%" _ => None
  | String "+" s' => String " " <$> QueryUnescape s'
  | String c s' => String c <$> QueryUnescape s'
  end.

(** [url.ParseQuery]: [None] where it reports an error. *)
Fixpoint query_parts (l : list string) (m : Values) : option Values :=
  match l with
  | [] => Some m
  | part :: l' =>
      if contains_byte ";" part then None
      else if bool_decide (part = "") then query_parts l' m
      else
        let '(k, v, _) := Cut part "=" in
        match QueryUnescape k, QueryUnescape v with
        | Some key, Some value => query_parts l' (<[key := default [] (m !! key) ++ [value]]> m)
        | _, _ => None
        end
  end.
Definition url_ParseQuery (query : string) : option Values := query_parts (split_byte "&" query) ∅.
