(* ===== verification/Policy.v ===== *)
(** * [internal/policy]: transport-independent authorization contracts

    Models [policy.go], [capabilities.go] and [denial.go]: principals,
    authorities, the [Evaluator], key patterns, lease narrowing, team
    capabilities and the projection of denials. *)
From S2P Require Import Prelude GoStrings.

(** ** Data *)

(** [type Kind string] and its constants. *)
Abbreviation Kind := string (only parsing).
Definition Human : Kind := "human".
Definition APIKey : Kind := "api_key".
Definition AgentToken : Kind := "agent_token".
Definition Workload : Kind := "workload".
Definition OAuthDelegation : Kind := "oauth_delegation".

Record Principal := mkPrincipal {
  p_Kind : Kind;
  p_SubjectID : uuid;
  p_ActorID : uuid;
  p_TenantID : uuid;
  p_ParentGrantID : uuid;
  p_ExpiresAt : time;
  p_SessionID : uuid;
  p_LeaseID : uuid;
  p_TokenID : string;
}.

(** [type Action string] and its constants. *)
Abbreviation Action := string (only parsing).
Definition ReadMetadata : Action := "secret.read_metadata".
Definition ReadValue : Action := "secret.read_value".
Definition WriteSecret : Action := "secret.write".
Definition DeleteSecret : Action := "secret.delete".
Definition RestoreSecret : Action := "secret.restore".
Definition ApprovePromotion : Action := "promotion.approve".
Definition InvokeTool : Action := "tool.invoke".
Definition IssueGrant : Action := "grant.issue".
Definition ManageProject : Action := "project.manage".

Record Resource := mkResource {
  r_TenantID : uuid;
  r_ProjectID : uuid;
  r_Environment : string;
  r_Type : string;
  r_ID : uuid;
  r_Revision : Z;
  r_Key : string;
}.

Record Decision := mkDecision {
  d_Allowed : bool;
  d_ApprovalRequired : bool;
  d_Reason : string;
  d_PolicyRevision : Z;
  d_ValidUntil : time;
}.

Record Authority := mkAuthority {
  a_ActorID : uuid;
  a_TenantID : uuid;
  a_Role : string;
  a_ProjectID : uuid;
  a_Environment : string;
  a_Scopes : list string;
  a_ExpiresAt : time;
}.

(** ** Roles and key patterns *)

Definition role_levels : gmap string nat :=
  list_to_map [("viewer", 1); ("editor", 2); ("promoter", 3); ("admin", 4)].

Definition RoleAllows (role required : string) : bool :=
  match role_levels !! role, role_levels !! required with
  | Some a, Some b => b <=? a
  | _, _ => false
  end.

(** The loop over the middle parts of a pattern. *)
Fixpoint match_middle (parts : list string) (key : string) : bool :=
  match parts with
  | [] => true
  | part :: parts' =>
      match find_first part key with
      | None => false
      | Some (_, rest) => match_middle parts' rest
      end
  end.

Definition MatchKey (pattern key : string) : bool :=
  if bool_decide (pattern = "") || bool_decide (pattern = "*") then true else
  match split_byte "*"%char pattern with
  | [] => false
  | [_] => bool_decide (key = pattern)
  | first :: rest =>
      match strip_prefix first key with
      | None => false
      | Some key =>
          match strip_suffix (List.last rest "") key with
          | None => false
          | Some key => match_middle (removelast rest) key
          end
      end
  end.

Definition scope_allows (action key scope : string) : bool :=
  let '(a, pattern, _) := Cut scope ":" in
  (bool_decide (a = action) || (bool_decide (a = "write") && bool_decide (action = "delete")))
  && MatchKey pattern key.

Definition LegacyAllows (scopes : list string) (action key : string) : bool :=
  existsb (scope_allows action key) scopes.

(** The per-key test of [LeaseKeysAllowed]'s second loop. *)
Definition lease_key_allowed (scopes : list string) (all : bool) (key : string) : bool :=
  if bool_decide (key = "") || (255 <? String.length key) then false else
  if Contains key "*" then bool_decide (key = "*") && all
  else LegacyAllows scopes "read" key.

Definition LeaseKeysAllowed (scopes keys : list string) : bool :=
  let all := existsb (λ s, bool_decide (s = "read") || bool_decide (s = "read:*")) scopes in
  match keys with
  | [] => all
  | _ => forallb (lease_key_allowed scopes all) keys
  end.

(** ** The evaluator *)

(** The [switch action]: the required role and the scope verb; [None] is the
    [default] branch. *)
Definition required_authority (action : Action) : option (string * string) :=
  if decide (action = ReadMetadata) then Some ("viewer", "read") else
  if decide (action = ReadValue ∨ action = IssueGrant) then Some ("editor", "read") else
  if decide (action = DeleteSecret) then Some ("editor", "delete") else
  if decide (action = WriteSecret ∨ action = RestoreSecret) then Some ("editor", "write") else
  if decide (action = ApprovePromotion) then Some ("promoter", "") else
  if decide (action = ManageProject) then Some ("admin", "") else
  None.

Definition deny : Decision := mkDecision false false "authority denied" 0 0.

(** The checks made before the store is consulted. *)
Definition admissible (now : time) (p : Principal) (action : Action) (r : Resource) : bool :=
  negb (bool_decide (p_SubjectID p = uuid_Nil) || bool_decide (r_ProjectID r = uuid_Nil))
  && negb ((negb (IsZero (p_ExpiresAt p)) && negb (After (p_ExpiresAt p) now))
           || negb (bool_decide (p_Kind p ∈ [Human; APIKey; AgentToken; OAuthDelegation])))
  && negb (bool_decide (p_Kind p = OAuthDelegation)
           && (bool_decide (p_ParentGrantID p = uuid_Nil)
               || negb (bool_decide (r_Type r = "tool_platform"))
               || negb (bool_decide (action ∈ [ReadMetadata; ReadValue; IssueGrant])))).

(** The authority belongs to the resource, the tenant and the actor, and has
    not expired. *)
Definition authority_matches (now : time) (p : Principal) (r : Resource) (a : Authority) : bool :=
  negb (negb (bool_decide (a_ProjectID a = r_ProjectID r))
        || (negb (bool_decide (r_TenantID r = uuid_Nil)) && negb (bool_decide (a_TenantID a = r_TenantID r)))
        || (negb (bool_decide (p_TenantID p = uuid_Nil)) && negb (bool_decide (p_TenantID p = a_TenantID a)))
        || (negb (bool_decide (p_ActorID p = uuid_Nil)) && negb (bool_decide (p_ActorID p = a_ActorID a)))
        || (negb (IsZero (a_ExpiresAt a)) && negb (After (a_ExpiresAt a) now))).

(** The scope check of API keys and agent tokens. *)
Definition scopes_allow (a : Authority) (r : Resource) (legacyAction : string) : bool :=
  let allowed :=
    if bool_decide (r_Type r = "secret_collection")
    then existsb (λ scope, bool_decide ((Cut scope ":").1.1 = legacyAction)) (a_Scopes a)
    else LegacyAllows (a_Scopes a) legacyAction (r_Key r) in
  negb (bool_decide (legacyAction = "")
        || (negb (bool_decide (a_Environment a = "")) && negb (bool_decide (a_Environment a = r_Environment r)))
        || negb allowed).

(** Everything [Authorize] does with a loaded authority. *)
Definition evaluate (now : time) (p : Principal) (action : Action) (r : Resource) (a : Authority) : Decision :=
  if negb (authority_matches now p r a) then deny else
  match required_authority action with
  | None => deny
  | Some (required, legacyAction) =>
      if negb (RoleAllows (a_Role a) required) then deny else
      if bool_decide (p_Kind p = AgentToken) && negb (bool_decide (action ∈ [ReadValue; ReadMetadata])) then deny else
      if bool_decide (p_Kind p ∈ [APIKey; AgentToken]) && negb (scopes_allow a r legacyAction) then deny else
      mkDecision true false "authorized" 0 (a_ExpiresAt a)
  end.

(** [Evaluator.Authorize]; [Store] is the [AuthorityStore] field. *)
Definition Authorize {S} (Store : option (Principal → Resource → M S Authority)) (now : time)
    (p : Principal) (action : Action) (r : Resource) : M S Decision :=
  match Store with
  | None => mret deny
  | Some LoadAuthority =>
      if negb (admissible now p action r) then mret deny else
      a ← LoadAuthority p r; mret (evaluate now p action r a)
  end.

(** ** [capabilities.go] *)

Abbreviation Capability := string (only parsing).
Definition InspectTeam : Capability := "team.inspect".
Definition StartApprovedRun : Capability := "run.start".
Definition ManageConnections : Capability := "connection.manage".
Definition ManageProfiles : Capability := "profile.manage".
Definition ApproveProtected : Capability := "protected.approve".
Definition ManageWorkloads : Capability := "workload.manage".

Definition CapabilityAllows (role : string) (c : Capability) : bool :=
  if bool_decide (role = "admin") then
    bool_decide (c ∈ [InspectTeam; StartApprovedRun; ManageConnections;
                      ManageProfiles; ApproveProtected; ManageWorkloads])
  else if decide (c = InspectTeam) then bool_decide (role ∈ ["viewer"; "editor"; "promoter"])
  else if decide (c = StartApprovedRun) then bool_decide (role = "editor")
  else if decide (c = ApproveProtected) then bool_decide (role = "promoter")
  else false.

(** ** [denial.go] *)

Abbreviation DenialReason := string (only parsing).
Definition DeniedUnavailable : DenialReason := "authority_unavailable".
Definition DeniedResource : DenialReason := "resource_unavailable".
Definition DeniedRole : DenialReason := "role_insufficient".
Definition DeniedScope : DenialReason := "scope_insufficient".
Definition DeniedExpired : DenialReason := "expired".
Definition DeniedRevoked : DenialReason := "revoked".
Definition DeniedRevision : DenialReason := "revision_changed".

Record PublicDenial := mkPublicDenial { pd_Code : string; pd_Message : string; pd_NextAction : string }.

Definition ProjectDenial (reason : DenialReason) (visible authenticated : bool) : PublicDenial :=
  if negb authenticated then
    mkPublicDenial "authentication_required" "Sign in again to continue." "sign_in" else
  let generic := mkPublicDenial "resource_unavailable" "This resource is unavailable." "" in
  if negb visible then generic else
  if decide (reason = DeniedRole ∨ reason = DeniedScope) then
    mkPublicDenial "access_required" "Your current access does not permit this operation." "ask_workspace_admin"
  else if decide (reason = DeniedExpired ∨ reason = DeniedRevoked) then
    mkPublicDenial "access_ended" "This access has ended." "request_new_access"
  else if decide (reason = DeniedRevision) then
    mkPublicDenial "revision_changed" "This resource changed. Refresh before trying again." "refresh"
  else generic.

(** * Theorems *)

(** ** Key patterns are globs whose only metacharacter is the star *)

Inductive glob : string → string → Prop :=
  | glob_end : glob "" ""
  | glob_lit c p k : c ≠ "*"%char → glob p k → glob (String c p) (String c k)
  | glob_star p gap k : glob p k → glob (String "*" p) (gap +:+ k).

(** What the remaining parts demand of the remaining key, each part preceded by
    an arbitrary gap; [tail] closes the key, [mid] leaves a rest. *)
Fixpoint tail (parts : list string) (k : string) : Prop :=
  match parts with
  | [] => k = ""
  | part :: ps => ∃ gap k', k = gap +:+ part +:+ k' ∧ tail ps k'
  end.
Fixpoint mid (parts : list string) (k : string) : Prop :=
  match parts with
  | [] => True
  | part :: ps => ∃ gap k', k = gap +:+ part +:+ k' ∧ mid ps k'
  end.

Definition star_free (w : string) : Prop := contains_byte "*" w = false.

Lemma star_free_cons c w : star_free (String c w) ↔ c ≠ "*"%char ∧ star_free w.
Proof. unfold star_free. rewrite contains_byte_cons, orb_false_iff, bool_decide_eq_false. done. Qed.

Lemma glob_app_lit w p k : star_free w → glob p k → glob (w +:+ p) (w +:+ k).
Proof.
  induction w as [|c w IH]; rewrite ?app_nil_l', ?app_cons; [done|].
  rewrite star_free_cons. intros [Hc Hw] Hg. by apply glob_lit; auto.
Qed.

Lemma glob_lit_inv w p k : star_free w → glob (w +:+ p) k → ∃ k', k = w +:+ k' ∧ glob p k'.
Proof.
  revert k. induction w as [|c w IH]; intros k; rewrite ?app_nil_l', ?app_cons; [by exists k|].
  rewrite star_free_cons. intros [Hc Hw] Hg.
  inversion Hg as [|? ? k0 ? Hg' |? ? ? ? E]; subst; [|done].
  destruct (IH _ Hw Hg') as (k' & -> & ?). exists k'. by rewrite app_cons.
Qed.

Lemma Join_cons w l : l ≠ [] → Join (w :: l) "*" = w +:+ String "*" (Join l "*").
Proof. by destruct l. Qed.

Lemma glob_Join w l k :
  Forall star_free (w :: l) → glob (Join (w :: l) "*") k ↔ ∃ r, k = w +:+ r ∧ tail l r.
Proof.
  revert w k. induction l as [|w' l IH]; intros w k HF; apply Forall_cons in HF as [Hw Hl].
  - simpl. rewrite <-(app_nil_r' w) at 1. split.
    + intros Hg. apply glob_lit_inv in Hg as (k' & -> & Hg); [|done].
      inversion Hg; subst. by exists "".
    + intros (r & -> & ->). by apply glob_app_lit; [|constructor].
  - rewrite Join_cons by done. split.
    + intros Hg. apply glob_lit_inv in Hg as (k' & -> & Hg); [|done].
      inversion Hg as [| |p gap k0 Hg']; subst; [done|].
      apply IH in Hg' as (r & -> & Ht); [|done]. exists (gap +:+ w' +:+ r). split; [done|].
      by exists gap, r.
    + intros (r & -> & (gap & k' & -> & Ht)). apply glob_app_lit; [done|].
      apply glob_star, IH; [done|]. by exists k'.
Qed.

Lemma tail_snoc ps last k : tail (ps ++ [last]) k ↔ ∃ k', k = k' +:+ last ∧ mid ps k'.
Proof.
  revert k. induction ps as [|p ps IH]; intros k; simpl.
  - split.
    + intros (g & k' & -> & ->). exists g. by rewrite app_nil_r'.
    + intros (k' & -> & _). exists k', "". by rewrite app_nil_r'.
  - split.
    + intros (g & k' & -> & Ht). apply IH in Ht as (k'' & -> & Hm).
      exists (g +:+ p +:+ k''). split; [by rewrite !app_assoc'|]. by exists g, k''.
    + intros (k' & -> & (g & k'' & -> & Hm)). exists g, (k'' +:+ last).
      split; [by rewrite <-!app_assoc'|]. apply IH. by exists k''.
Qed.

Lemma mid_weaken ps x k : mid ps k → mid ps (x +:+ k).
Proof.
  destruct ps as [|p ps]; [done|]. intros (g & k' & -> & H).
  exists (x +:+ g), k'. split; [by rewrite app_assoc'|done].
Qed.

(** Taking the first occurrence of each part never loses a match. *)
Lemma match_middle_spec ps k : match_middle ps k = true ↔ mid ps k.
Proof.
  revert k. induction ps as [|p ps IH]; intros k; simpl; [done|]. split.
  - destruct (find_first p k) as [[b a]|] eqn:E; [|done].
    apply find_first_Some in E as ->. rewrite IH. intros H. by exists b, a.
  - intros (g & k' & -> & Hm).
    destruct (find_first_least p g k') as (b & a & E & Hle). rewrite E. apply IH.
    apply find_first_Some in E. rewrite !app_assoc' in E. symmetry in E.
    apply app_prefix_cases in E as (e & _ & ->); [by apply mid_weaken|].
    rewrite !length_app'. lia.
Qed.

Lemma split_byte_parts_star p : Forall star_free (split_byte "*" p).
Proof. apply split_byte_parts. Qed.

Lemma MatchKey_spec pattern key :
  MatchKey pattern key = true ↔ pattern = "" ∨ glob pattern key.
Proof.
  unfold MatchKey. pose proof (Join_split_byte "*" pattern) as HJ.
  pose proof (split_byte_parts_star pattern) as HF.
  destruct (decide (pattern = "")) as [->|Hne]; [naive_solver|].
  destruct (decide (pattern = "*")) as [->|Hns].
  { split; [intros _; right|done]. rewrite <-(app_nil_r' key). repeat constructor. }
  rewrite !bool_decide_eq_false_2 by done. simpl.
  transitivity (glob (Join (split_byte "*" pattern) "*") key); [|rewrite HJ; naive_solver].
  destruct (split_byte "*" pattern) as [|w l]; [by rewrite <-HJ in Hne|].
  rewrite glob_Join by done. destruct l as [|w' l'].
  { simpl. rewrite bool_decide_eq_true. simpl in HJ. subst w. split.
    - intros ->. exists "". by rewrite app_nil_r'.
    - intros (r & -> & ->). by rewrite app_nil_r'. }
  set (l := w' :: l') in *.
  assert (l = removelast l ++ [List.last l ""]) as Hl by by apply app_removelast_last.
  transitivity (∃ r, key = w +:+ r ∧ ∃ k, r = k +:+ List.last l "" ∧ match_middle (removelast l) k = true).
  - clearbody l. destruct (strip_prefix w key) as [k|] eqn:E1.
    + apply strip_prefix_Some in E1 as ->.
      destruct (strip_suffix _ k) as [k'|] eqn:E2.
      * apply strip_suffix_Some in E2 as ->. split; [by eauto|].
        intros (r & <-%app_inj_l & (k'' & <-%app_inj_r & Hm)). done.
      * split; [done|]. intros (r & <-%app_inj_l & (k'' & Hr & Hm)).
        apply strip_suffix_Some in Hr. congruence.
    + split; [done|]. intros (r & Hr & _). apply strip_prefix_Some in Hr. congruence.
  - apply exist_proper; intros r. setoid_rewrite match_middle_spec.
    by rewrite <-tail_snoc, <-Hl.
Qed.

Lemma scope_allows_spec action key scope :
  scope_allows action key scope = true ↔
    ((Cut scope ":").1.1 = action ∨ ((Cut scope ":").1.1 = "write" ∧ action = "delete"))
    ∧ MatchKey (Cut scope ":").1.2 key = true.
Proof. unfold scope_allows. destruct (Cut scope ":") as [[v pat] f]. simpl. b2p. done. Qed.

Lemma LegacyAllows_spec scopes action key :
  LegacyAllows scopes action key = true ↔
    ∃ scope, scope ∈ scopes ∧ scope_allows action key scope = true.
Proof. unfold LegacyAllows. b2p. by setoid_rewrite list_elem_of_In. Qed.

Lemma role_levels_cases role l :
  role_levels !! role = Some l ↔
    (role = "viewer" ∧ l = 1) ∨ (role = "editor" ∧ l = 2)
    ∨ (role = "promoter" ∧ l = 3) ∨ (role = "admin" ∧ l = 4).
Proof.
  unfold role_levels. rewrite <-elem_of_list_to_map by (vm_compute; repeat constructor; set_solver).
  rewrite !elem_of_cons, elem_of_nil. naive_solver.
Qed.

Lemma RoleAllows_spec role required :
  RoleAllows role required = true ↔
    ∃ a b, role_levels !! role = Some a ∧ role_levels !! required = Some b ∧ b ≤ a.
Proof.
  unfold RoleAllows. destruct (role_levels !! role), (role_levels !! required); b2p; naive_solver.
Qed.

(** ** The evaluator's decision, declaratively *)

(** What each action needs: the least role and the scope verb. *)
Inductive needs : Action → string → string → Prop :=
  | needs_metadata : needs ReadMetadata "viewer" "read"
  | needs_value : needs ReadValue "editor" "read"
  | needs_grant : needs IssueGrant "editor" "read"
  | needs_delete : needs DeleteSecret "editor" "delete"
  | needs_write : needs WriteSecret "editor" "write"
  | needs_restore : needs RestoreSecret "editor" "write"
  | needs_approve : needs ApprovePromotion "promoter" ""
  | needs_manage : needs ManageProject "admin" "".

Lemma required_authority_spec action role verb :
  required_authority action = Some (role, verb) ↔ needs action role verb.
Proof.
  split.
  - unfold required_authority. repeat case_decide; destruct_or?; intros [= <- <-]; subst; constructor.
  - by intros [].
Qed.

(** The scopes of an authority cover a resource for a verb. *)
Definition covers (a : Authority) (r : Resource) (verb : string) : Prop :=
  verb ≠ "" ∧ (a_Environment a = "" ∨ a_Environment a = r_Environment r)
  ∧ if bool_decide (r_Type r = "secret_collection")
    then ∃ scope, scope ∈ a_Scopes a ∧ (Cut scope ":").1.1 = verb
    else LegacyAllows (a_Scopes a) verb (r_Key r) = true.

Record permitted (now : time) (p : Principal) (action : Action) (r : Resource) (a : Authority) : Prop := {
  pm_project : a_ProjectID a = r_ProjectID r;
  pm_resource_tenant : r_TenantID r ≠ uuid_Nil → a_TenantID a = r_TenantID r;
  pm_principal_tenant : p_TenantID p ≠ uuid_Nil → a_TenantID a = p_TenantID p;
  pm_actor : p_ActorID p ≠ uuid_Nil → a_ActorID a = p_ActorID p;
  pm_live : a_ExpiresAt a ≠ 0%Z → (now < a_ExpiresAt a)%Z;
  pm_role : ∃ role verb, needs action role verb ∧ RoleAllows (a_Role a) role = true
    ∧ (p_Kind p = AgentToken → action = ReadValue ∨ action = ReadMetadata)
    ∧ (p_Kind p = APIKey ∨ p_Kind p = AgentToken → covers a r verb);
}.

Record admitted (now : time) (p : Principal) (action : Action) (r : Resource) : Prop := {
  ad_subject : p_SubjectID p ≠ uuid_Nil;
  ad_project : r_ProjectID r ≠ uuid_Nil;
  ad_live : p_ExpiresAt p ≠ 0%Z → (now < p_ExpiresAt p)%Z;
  ad_kind : p_Kind p = Human ∨ p_Kind p = APIKey ∨ p_Kind p = AgentToken ∨ p_Kind p = OAuthDelegation;
  ad_delegation : p_Kind p = OAuthDelegation →
    p_ParentGrantID p ≠ uuid_Nil ∧ r_Type r = "tool_platform"
    ∧ (action = ReadMetadata ∨ action = ReadValue ∨ action = IssueGrant);
}.

Lemma scopes_allow_spec a r verb : scopes_allow a r verb = true ↔ covers a r verb.
Proof.
  unfold scopes_allow, covers. b2p.
  destruct (bool_decide (r_Type r = _)); rewrite ?existsb_bool_decide;
    destruct (decide (a_Environment a = "")), (decide (a_Environment a = r_Environment r)); naive_solver.
Qed.

Lemma admissible_spec now p action r : admissible now p action r = true ↔ admitted now p action r.
Proof.
  unfold admissible, IsZero, After. b2p. rewrite !elem_of_cons, !elem_of_nil. split.
  - intros (((H1 & H2) & (H3 & H4)) & H5). split; try done.
    + intros Hz. destruct H3 as [H3|H3]; [done|lia].
    + naive_solver.
    + intros Hk. destruct H5 as [H5|((H5&H6)&H7)]; [done|]. naive_solver.
  - intros [H1 H2 H3 H4 H5]. split_and!; try done.
    + destruct (decide (p_ExpiresAt p = 0%Z)); [by left|right; auto].
    + naive_solver.
    + destruct (decide (p_Kind p = OAuthDelegation)); [right|by left]. naive_solver.
Qed.

Lemma authority_matches_spec now p r a :
  authority_matches now p r a = true ↔
    a_ProjectID a = r_ProjectID r
    ∧ (r_TenantID r ≠ uuid_Nil → a_TenantID a = r_TenantID r)
    ∧ (p_TenantID p ≠ uuid_Nil → a_TenantID a = p_TenantID p)
    ∧ (p_ActorID p ≠ uuid_Nil → a_ActorID a = p_ActorID p)
    ∧ (a_ExpiresAt a ≠ 0%Z → (now < a_ExpiresAt a)%Z).
Proof.
  unfold authority_matches, IsZero, After. b2p. split.
  - intros ((((H1&H2)&H3)&H4)&H5). split_and!; try done; intros; naive_solver.
  - intros (H1&H2&H3&H4&H5).
    destruct (decide (r_TenantID r = uuid_Nil)), (decide (p_TenantID p = uuid_Nil)),
      (decide (p_ActorID p = uuid_Nil)), (decide (a_ExpiresAt a = 0%Z)); naive_solver.
Qed.

Lemma evaluate_spec now p action r a :
  d_Allowed (evaluate now p action r a) = true ↔ permitted now p action r a.
Proof.
  unfold evaluate. split.
  - destruct (authority_matches now p r a) eqn:E1; [|done].
    apply authority_matches_spec in E1 as (?&?&?&?&?). simpl.
    destruct (required_authority action) as [[role verb]|] eqn:E2; [|done].
    apply required_authority_spec in E2.
    destruct (RoleAllows (a_Role a) role) eqn:E3; [|done]. simpl.
    destruct (bool_decide _ && _) eqn:E4; [done|].
    destruct (bool_decide _ && negb (scopes_allow a r verb)) eqn:E5; [done|]. intros _.
    split; try done. exists role, verb. b2p. rewrite scopes_allow_spec, !elem_of_cons, elem_of_nil in E5.
    rewrite !elem_of_cons, elem_of_nil in E4. tauto.
  - intros [? ? ? ? ? (role & verb & Hn & Hr & Hagent & Hscope)].
    rewrite (proj2 (authority_matches_spec now p r a)) by done.
    apply required_authority_spec in Hn as ->. rewrite Hr. simpl.
    rewrite (proj2 (andb_false_iff _ _))
      by (b2p; rewrite !elem_of_cons, elem_of_nil; destruct (decide (p_Kind p = AgentToken)); tauto). simpl.
    rewrite (proj2 (andb_false_iff _ _)); [done|].
    b2p. rewrite scopes_allow_spec, !elem_of_cons, elem_of_nil.
    destruct (decide (p_Kind p = APIKey)), (decide (p_Kind p = AgentToken)); tauto.
Qed.

(** An allow was loaded and permitted; an admitted request is evaluated. *)
Lemma Authorize_Allowed {S} (load : Principal → Resource → M S Authority) now p action r d s s' :
  Authorize (Some load) now p action r s = (Ok d, s') → d_Allowed d = true →
  admitted now p action r ∧ ∃ a, load p r s = (Ok a, s') ∧ permitted now p action r a.
Proof.
  unfold Authorize. destruct (admissible now p action r) eqn:E; simpl; [|by intros [= <- _]].
  apply admissible_spec in E. unfold mbind, M_bind. destruct (load p r s) as [[a|e] s1]; [|done].
  intros [= <- <-] Ha%evaluate_spec. split; [done|]. by exists a.
Qed.
Lemma Authorize_run {S} (load : Principal → Resource → M S Authority) now p action r a s s' :
  admitted now p action r → load p r s = (Ok a, s') →
  Authorize (Some load) now p action r s = (Ok (evaluate now p action r a), s').
Proof. intros Ha%admissible_spec Hl. unfold Authorize. rewrite Ha. unfold mbind, M_bind. simpl. by rewrite Hl. Qed.
Lemma needs_det action r1 v1 r2 v2 : needs action r1 v1 → needs action r2 v2 → r1 = r2 ∧ v1 = v2.
Proof. intros H1%required_authority_spec H2%required_authority_spec. rewrite H1 in H2. by injection H2. Qed.

(** ** Properties *)

(** A key pattern accepts exactly the keys its glob denotes, where the star
    is the only metacharacter and stands for any (possibly empty) text; the
    empty pattern of an unqualified scope accepts every key.  In particular the
    loop that takes the first occurrence of every middle part never rejects a
    key that some other choice of occurrences would accept. *)
Theorem MatchKey_glob pattern key :
  MatchKey pattern key = true ↔ pattern = "" ∨ glob pattern key.
Proof. apply MatchKey_spec. Qed.

(** C4: whenever the evaluator returns a decision, it is an allow exactly when
    the principal and the resource pass the admission checks and the authority
    the store returned permits the action; an error is the store's own, so no
    failure of the store is ever turned into an allow. *)
Theorem Authorize_allows_iff {S} (load : Principal → Resource → M S Authority) now p action r s :
  match Authorize (Some load) now p action r s with
  | (Ok d, s') => d_Allowed d = true ↔
      admitted now p action r ∧ ∃ a, load p r s = (Ok a, s') ∧ permitted now p action r a
  | (Err e, s') => admitted now p action r ∧ load p r s = (Err e, s')
  end.
Proof.
  unfold Authorize. destruct (admissible now p action r) eqn:E; simpl.
  - apply admissible_spec in E. unfold mbind, M_bind.
    destruct (load p r s) as [[a|e] s'] eqn:L; simpl; [|done].
    rewrite evaluate_spec. naive_solver.
  - rewrite <-admissible_spec, E. naive_solver.
Qed.

(** No authority whatsoever lets the evaluator allow a workload principal,
    a tool invocation, or an agent token any action but reading. *)
Theorem Authorize_never_widens {S} (store : option (Principal → Resource → M S Authority)) now p action r s d s' :
  Authorize store now p action r s = (Ok d, s') → d_Allowed d = true →
  p_Kind p ≠ Workload ∧ action ≠ InvokeTool
  ∧ (p_Kind p = AgentToken → action = ReadValue ∨ action = ReadMetadata).
Proof.
  destruct store as [load|]; [|intros [= <- _]; done]. unfold Authorize.
  destruct (admissible now p action r) eqn:E; simpl; [|by intros [= <- _]].
  apply admissible_spec in E as [? ? ? Hkind ?]. unfold mbind, M_bind.
  destruct (load p r s) as [[a|e] s1] eqn:L; simpl; [|done].
  intros [= <- _] [? ? ? ? ? (role & verb & Hn & ? & ? & ?)]%evaluate_spec.
  split_and!; [intros Hk; rewrite Hk in Hkind; by destruct Hkind as [|[|[|]]]| |done].
  by intros ->; inversion Hn.
Qed.

Definition sample_principal : Principal := mkPrincipal APIKey 7 5 0 0 0 0 0 "".
Definition sample_resource : Resource := mkResource 0 9 "alpha" "secret" 3 1 "DB_URL".
Definition sample_authority : Authority := mkAuthority 5 0 "editor" 9 "alpha" ["read:DB_*"] 1000.

Lemma Authorize_never_widens_witness :
  ∃ d s', Authorize (Some (λ _ _, mret sample_authority)) 10 sample_principal ReadValue sample_resource tt
            = (Ok d, s') ∧ d_Allowed d = true ∧ ReadValue ≠ InvokeTool.
Proof.
  eexists _, _. split; [vm_compute; reflexivity|]. split; [vm_compute; reflexivity|].
  eapply (Authorize_never_widens (Some (λ _ _, mret sample_authority)) 10 sample_principal
    ReadValue sample_resource tt); vm_compute; reflexivity.
Defined.

(** A denial about a resource the caller cannot see, or without a session,
    does not depend on the internal reason; and no visible denial for one of
    the unavailability reasons is distinguishable from an invisible one. *)
Theorem ProjectDenial_hides reason reason' authenticated :
  ProjectDenial reason false authenticated = ProjectDenial reason' false authenticated
  ∧ ProjectDenial reason true false = ProjectDenial reason' false false
  ∧ ProjectDenial DeniedUnavailable true authenticated = ProjectDenial reason false authenticated
  ∧ ProjectDenial DeniedResource true authenticated = ProjectDenial reason false authenticated.
Proof. by destruct authenticated. Qed.
