(* ===== verification/RateLimit.v ===== *)
(** * The token-bucket limiter ([internal/api/ratelimit.go])

    One bucket per client address, refilled by whole intervals when a request
    arrives, and forgotten after five minutes without requests.  A run is any
    sequence of requests and cleanup ticks; the theorem bounds what any client
    gets in any window, cleanups included. *)
From S2P Require Import Prelude.

(** ** Definitions *)

Definition MaxInt64 : Z := 2 ^ 63 - 1.
(** Two's-complement wrap-around of a 64-bit [int] or [time.Duration]. *)
Definition wrap64 (x : Z) : Z := ((x + 2 ^ 63) mod 2 ^ 64 - 2 ^ 63)%Z.
(** [t.Sub(u)] saturates. *)
Definition Sub (t u : time) : Z := Z.max (- 2 ^ 63) (Z.min MaxInt64 (t - u)).

Record bucket := mkBucket { tokens : Z; lastFill : time; lastAccess : time }.
Record RateLimiter := mkRateLimiter {
  clients : gmap string bucket;
  rate : Z;
  interval : Z;
  burst : Z;
  cleanup : Z;
}.
Definition set_clients (c : gmap string bucket) (rl : RateLimiter) : RateLimiter :=
  mkRateLimiter c (rate rl) (interval rl) (burst rl) (cleanup rl).

(** [interval] is positive wherever a limiter is made: Go's division panics on 0. *)
Definition NewRateLimiter (r i b : Z) : RateLimiter := mkRateLimiter ∅ r i b (5 * Minute).

(** One tick of [cleanupLoop]. *)
Definition cleanup_tick (now : time) (rl : RateLimiter) : RateLimiter :=
  set_clients (filter (λ kb, (Sub now (lastAccess kb.2) <= cleanup rl)%Z) (clients rl)) rl.

Definition refill_of (rl : RateLimiter) (b : bucket) (now : time) : Z :=
  wrap64 (wrap64 (Z.quot (Sub now (lastFill b)) (interval rl)) * rate rl).
Definition refilled (rl : RateLimiter) (b : bucket) (now : time) : bucket :=
  let b := mkBucket (tokens b) (lastFill b) now in
  let refill := refill_of rl b now in
  if (0 <? refill)%Z then
    let t := wrap64 (tokens b + refill) in
    mkBucket (if (burst rl <? t)%Z then burst rl else t) now now
  else b.

Definition allow (key : string) (now : time) (rl : RateLimiter) : bool * RateLimiter :=
  match clients rl !! key with
  | None => (true, set_clients (<[key := mkBucket (wrap64 (burst rl - 1)) now now]> (clients rl)) rl)
  | Some b =>
      let b := refilled rl b now in
      if (0 <? tokens b)%Z
      then (true, set_clients (<[key := mkBucket (tokens b - 1) (lastFill b) (lastAccess b)]> (clients rl)) rl)
      else (false, set_clients (<[key := b]> (clients rl)) rl)
  end.

(** What the middleware answers: the next handler runs, or status, [Retry-After]
    and the body's message. *)
Inductive verdict := Next | Abort (status : Z) (retryAfter message : string).
Definition RateLimitMiddleware (clientIP : string) (now : time) (rl : RateLimiter) : verdict * RateLimiter :=
  let '(ok, rl') := allow clientIP now rl in
  (if ok then Next else Abort 429 "1" "rate limit exceeded, please retry later", rl').

(** *** Runs *)

Inductive limiter_event := Request (clientIP : string) | Tick.

(** How many requests of [key] go through. *)
Fixpoint passed (key : string) (l : list (time * limiter_event)) (rl : RateLimiter) : nat :=
  match l with
  | [] => 0
  | (t, Tick) :: l' => passed key l' (cleanup_tick t rl)
  | (t, Request ip) :: l' =>
      let '(v, rl') := RateLimitMiddleware ip t rl in
      (match v with Next => if bool_decide (ip = key) then 1 else 0 | Abort _ _ _ => 0 end + passed key l' rl')%nat
  end.

(** Times that never go back, within a window. *)
Fixpoint within (t t1 : time) (l : list (time * limiter_event)) : Prop :=
  match l with
  | [] => (t <= t1)%Z
  | (t', _) :: l' => (t <= t')%Z ∧ within t' t1 l'
  end.

(** A limiter whose arithmetic cannot overflow, and which does not forget an
    empty bucket before it would be full again. *)
Record configured (rl : RateLimiter) : Prop := {
  cf_rate : (0 < rate rl)%Z;
  cf_interval : (0 < interval rl)%Z;
  cf_burst : (0 < burst rl)%Z;
  cf_fits : (burst rl + rate rl * (MaxInt64 / interval rl) <= MaxInt64)%Z;
  cf_cleanup : (0 <= cleanup rl <= MaxInt64)%Z;
  cf_forget : (burst rl <= rate rl * (cleanup rl / interval rl))%Z;
}.
Record bucket_ok (rl : RateLimiter) (t : time) (b : bucket) : Prop := {
  bk_tokens : (0 <= tokens b <= burst rl)%Z;
  bk_fill : (lastFill b <= lastAccess b)%Z;
  bk_access : (lastAccess b <= t)%Z;
}.
Definition limiter_ok (t : time) (rl : RateLimiter) : Prop :=
  configured rl ∧ map_Forall (λ _ b, bucket_ok rl t b) (clients rl).

(** ** Lemmas *)

Lemma wrap64_id x : (- 2 ^ 63 <= x <= MaxInt64)%Z → wrap64 x = x.
Proof. unfold wrap64, MaxInt64. intros H. rewrite Z.mod_small by lia. lia. Qed.

Lemma floor_add a b i : (0 < i)%Z → (a / i + b / i <= (a + b) / i)%Z.
Proof.
  intros Hi. pose proof (Z.mul_div_le a i Hi). pose proof (Z.mul_div_le b i Hi).
  apply Z.div_le_lower_bound; lia.
Qed.

(** The tokens a refill adds: a whole number of intervals, saturated. *)
Lemma refill_of_spec rl b now :
  configured rl → (lastFill b <= now)%Z →
  refill_of rl b now = (rate rl * (Z.min MaxInt64 (now - lastFill b) / interval rl))%Z ∧
  (0 <= Z.min MaxInt64 (now - lastFill b) / interval rl <= MaxInt64 / interval rl)%Z.
Proof.
  intros [Hr Hi Hb Hf _ _] Hle. unfold refill_of, Sub. rewrite Z.max_r by (unfold MaxInt64; lia).
  set (d := Z.min MaxInt64 (now - lastFill b)). assert (0 <= d <= MaxInt64)%Z as Hd by (unfold MaxInt64 in *; lia).
  rewrite Z.quot_div_nonneg by lia.
  assert (0 <= d / interval rl <= MaxInt64 / interval rl)%Z as Hq.
  { split; [apply Z.div_pos; lia|]. apply Z.div_le_mono; lia. }
  split; [|done]. rewrite (wrap64_id (d / interval rl)).
  - rewrite wrap64_id; [lia|]. split; [unfold MaxInt64 in *; nia|nia].
  - split; [unfold MaxInt64 in *; lia|]. nia.
Qed.

Lemma interval_le rl : configured rl → (interval rl <= cleanup rl)%Z.
Proof.
  intros [Hr Hi Hb _ _ Hf]. destruct (Z_lt_le_dec (cleanup rl) (interval rl)); [|done].
  destruct (Z_lt_le_dec (cleanup rl) 0).
  - assert (cleanup rl / interval rl < 0)%Z by (by apply Z.div_lt_upper_bound; lia). nia.
  - rewrite Z.div_small in Hf by lia. lia.
Qed.

Section Budget.
Context (t1 : time).

(** How many requests a bucket can still serve until [t1], seen at time [t]. *)
Definition full (rl : RateLimiter) (t : time) : Z := burst rl + rate rl * ((t1 - t) / interval rl).
Definition saved (rl : RateLimiter) (b : bucket) : Z := tokens b + rate rl * ((t1 - lastFill b) / interval rl).
Definition budget (rl : RateLimiter) (t : time) (b : option bucket) : Z :=
  match b with
  | None => full rl t
  | Some b => if (lastFill b + interval rl <=? t)%Z then Z.min (full rl t) (saved rl b) else saved rl b
  end.

Lemma full_mono rl t t' : configured rl → (t <= t')%Z → (full rl t' <= full rl t)%Z.
Proof.
  intros [Hr Hi _ _ _ _] Hle. unfold full.
  assert ((t1 - t') / interval rl <= (t1 - t) / interval rl)%Z by (apply Z.div_le_mono; lia). nia.
Qed.
Lemma budget_mono rl t t' b : configured rl → (t <= t')%Z → (budget rl t' b <= budget rl t b)%Z.
Proof.
  intros Hc Hle. pose proof (full_mono rl t t' Hc Hle) as Hf. destruct b as [b|]; cbn; [|done].
  destruct (_ <=? t')%Z eqn:E', (_ <=? t)%Z eqn:E; b2p; lia.
Qed.

(** Waiting [t - lastFill] earns [rate] tokens per whole interval. *)
Lemma saved_later rl b t k :
  configured rl → (k <= (t - lastFill b) / interval rl)%Z →
  (tokens b + rate rl * k + rate rl * ((t1 - t) / interval rl) <= saved rl b)%Z.
Proof.
  intros [Hr Hi _ _ _ _] Hk. unfold saved.
  pose proof (floor_add (t - lastFill b) (t1 - t) (interval rl) Hi) as H.
  replace (t - lastFill b + (t1 - t))%Z with (t1 - lastFill b)%Z in H by lia. nia.
Qed.

Lemma refilled_budget rl b t :
  configured rl → bucket_ok rl t b → (t <= t1)%Z →
  bucket_ok rl t (refilled rl b t) ∧ (saved rl (refilled rl b t) <= budget rl t (Some b))%Z ∧
  (t < lastFill (refilled rl b t) + interval rl)%Z.
Proof.
  intros Hc [Ht Hf Ha] Hle. pose proof Hc as [Hr Hi Hb Hfit _ _]. unfold refilled.
  destruct (refill_of_spec rl (mkBucket (tokens b) (lastFill b) t) t) as [E Hq]; [done|cbn; lia|]. cbn [lastFill tokens] in *.
  set (q := (Z.min MaxInt64 (t - lastFill b) / interval rl)%Z) in *. rewrite E. clear E.
  assert (q <= (t - lastFill b) / interval rl)%Z as Hle' by (apply Z.div_le_mono; lia).
  destruct (0 <? rate rl * q)%Z eqn:Eq; b2p.
  - assert (0 < q)%Z as Hq1 by nia.
    assert (interval rl <= t - lastFill b)%Z.
    { destruct (Z_lt_le_dec (t - lastFill b) (interval rl)); [|done].
      rewrite (Z.div_small (t - lastFill b)) in Hle' by lia. lia. }
    rewrite (wrap64_id (tokens b + _)); [|unfold MaxInt64 in *; nia]. cbn [budget lastFill tokens].
    rewrite (proj2 (Z.leb_le (lastFill b + interval rl) t)) by lia.
    pose proof (saved_later rl b t q Hc Hle') as Hs. split; [|split; [|cbn; lia]].
    + split; cbn; try lia. destruct (_ <? _)%Z eqn:El; b2p; nia.
    + unfold saved at 1, full. cbn. destruct (_ <? _)%Z eqn:El; b2p; lia.
  - assert (q = 0)%Z as Hq0 by nia. pose proof (interval_le rl Hc). pose proof (cf_cleanup rl Hc).
    assert (t - lastFill b < interval rl)%Z.
    { destruct (Z_lt_le_dec (t - lastFill b) (interval rl)); [done|].
      assert (0 < q)%Z; [|lia]. apply Z.div_str_pos. lia. }
    split; [split; cbn; lia|]. cbn [budget]. rewrite (proj2 (Z.leb_gt (lastFill b + interval rl) t)) by lia.
    split; [done|cbn; lia].
Qed.

Lemma bucket_ok_mono rl t t' b : (t <= t')%Z → bucket_ok rl t b → bucket_ok rl t' b.
Proof. intros Hle []. split; lia || done. Qed.
Lemma limiter_ok_set rl t t' c :
  limiter_ok t rl → map_Forall (λ _ b, bucket_ok rl t' b) c → limiter_ok t' (set_clients c rl).
Proof. intros [[] _] Hb. split; [by split|]. intros k b Hk. destruct (Hb k b Hk). by split. Qed.
Lemma limiter_ok_later rl t t' : limiter_ok t rl → (t <= t')%Z → limiter_ok t' rl.
Proof. intros [Hc Hb] Hle. split; [done|]. intros k b Hk. eapply bucket_ok_mono; [done|by apply (Hb k)]. Qed.

Lemma tick_budget rl t key :
  limiter_ok t rl → limiter_ok t (cleanup_tick t rl) ∧
  (budget rl t (clients (cleanup_tick t rl) !! key) <= budget rl t (clients rl !! key))%Z.
Proof.
  intros H. pose proof H as [Hc Hb]. split.
  { eapply limiter_ok_set; [done|]. intros k b [Hk _]%map_lookup_filter_Some. by apply (Hb k). }
  unfold cleanup_tick. cbn. destruct (clients rl !! key) as [b|] eqn:E.
  - destruct (decide (Sub t (lastAccess b) <= cleanup rl)%Z) as [Hk|Hk].
    + by rewrite (map_lookup_filter_Some_2 _ _ _ _ E Hk).
    + rewrite map_lookup_filter_None_2 by (right; intros b' Hb'; rewrite E in Hb'; by injection Hb' as <-).
      destruct (Hb _ _ E) as [Ht Hf Ha]. pose proof (interval_le rl Hc). pose proof (cf_cleanup rl Hc).
      pose proof (cf_interval rl Hc). pose proof (cf_forget rl Hc). unfold Sub in Hk.
      cbn [budget]. rewrite (proj2 (Z.leb_le (lastFill b + interval rl) t)) by lia. apply Z.min_glb; [done|].
      pose proof (saved_later rl b t (cleanup rl / interval rl) Hc) as Hs. unfold full.
      rewrite <-Hs; [lia|]. apply Z.div_le_mono; lia.
  - rewrite map_lookup_filter_None_2; [done|by left].
Qed.

Lemma allow_budget rl t ip key :
  limiter_ok t rl → (t <= t1)%Z →
  limiter_ok t (allow ip t rl).2 ∧
  ((if (allow ip t rl).1 && bool_decide (ip = key) then 1 else 0) + budget rl t (clients (allow ip t rl).2 !! key)
     <= budget rl t (clients rl !! key))%Z.
Proof.
  intros H Hle. pose proof H as [Hc Hb]. pose proof Hc as [Hr Hi Hbu Hfit _ _]. unfold allow.
  destruct (clients rl !! ip) as [b|] eqn:E.
  - destruct (refilled_budget rl b t Hc (Hb _ _ E) Hle) as ([Ht Hf Ha] & Hs & Hn). set (b' := refilled rl b t) in *.
    assert (∀ b'', bucket_ok rl t b'' → lastFill b'' = lastFill b' →
      limiter_ok t (set_clients (<[ip := b'']> (clients rl)) rl) ∧
      (budget rl t (<[ip := b'']> (clients rl) !! key) + (if bool_decide (ip = key) then tokens b' - tokens b'' else 0)
         <= budget rl t (clients rl !! key))%Z) as Hset.
    { intros b'' Hok Ef. split; [eapply limiter_ok_set; [done|]; by apply map_Forall_insert_2|].
      case_bool_decide as Hk; [subst key|rewrite lookup_insert_ne by done; lia]. rewrite lookup_insert_eq, E.
      cbn [budget] in Hs |- *. rewrite (proj2 (Z.leb_gt (lastFill b'' + interval rl) t)) by lia.
      unfold saved in *. rewrite Ef. lia. }
    clearbody b'. destruct (0 <? tokens b')%Z eqn:Et; b2p; cbn.
    + destruct (Hset (mkBucket (tokens b' - 1) (lastFill b') (lastAccess b'))) as [? Hbd]; [split; cbn; lia|done|].
      split; [done|]. cbn in Hbd. case_bool_decide; lia.
    + destruct (Hset b') as [? Hbd]; [done..|]. split; [done|]. case_bool_decide; lia.
  - cbn. assert (0 <= MaxInt64 / interval rl)%Z by (apply Z.div_pos; unfold MaxInt64; lia).
    rewrite wrap64_id by (unfold MaxInt64 in *; nia). split.
    { eapply limiter_ok_set; [done|]. apply map_Forall_insert_2; [split; cbn; lia|done]. }
    case_bool_decide as Hk; subst; rewrite ?lookup_insert_eq, ?lookup_insert_ne by done; [|lia]. rewrite E.
    cbn [budget lastFill]. rewrite (proj2 (Z.leb_gt (t + interval rl) t)) by lia. unfold saved, full. cbn. lia.
Qed.

Lemma budget_nonneg rl t key : limiter_ok t rl → (t <= t1)%Z → (0 <= budget rl t (clients rl !! key))%Z.
Proof.
  intros [Hc Hb] Hle. pose proof Hc as [Hr Hi Hbu _ _ _].
  assert (0 <= full rl t)%Z. { unfold full. assert (0 <= (t1 - t) / interval rl)%Z by (apply Z.div_pos; lia). nia. }
  destruct (clients rl !! key) as [b|] eqn:E; [|done]. destruct (Hb _ _ E) as [Ht Hf Ha].
  assert (0 <= saved rl b)%Z.
  { unfold saved. assert (0 <= (t1 - lastFill b) / interval rl)%Z by (apply Z.div_pos; lia). nia. }
  cbn. destruct (_ <=? _)%Z; lia.
Qed.

Lemma within_le l : ∀ t, within t t1 l → (t <= t1)%Z.
Proof. induction l as [|[t' e] l IH]; intros t; cbn; [done|]. intros [? ?%IH]. lia. Qed.

Lemma passed_budget key l : ∀ rl t,
  limiter_ok t rl → within t t1 l → (Z.of_nat (passed key l rl) <= budget rl t (clients rl !! key))%Z.
Proof.
  induction l as [|[t' e] l IH]; intros rl t H Hw; cbn [passed within] in *.
  { pose proof (budget_nonneg rl t key H Hw). lia. }
  destruct Hw as [Ht Hw]. pose proof (within_le _ _ Hw) as Hle. pose proof (limiter_ok_later _ _ _ H Ht) as H'.
  pose proof (budget_mono rl t t' (clients rl !! key) (proj1 H) Ht) as Hm. destruct e as [ip|].
  - destruct (allow_budget rl t' ip key H' Hle) as [Hok Hb]. unfold RateLimitMiddleware.
    destruct (allow ip t' rl) as [ok rl'] eqn:E. cbn in *. specialize (IH rl' t' Hok Hw).
    assert (budget rl' t' (clients rl' !! key) = budget rl t' (clients rl' !! key)) as Eb.
    { unfold allow in E. repeat case_match; simplify_eq; done. }
    rewrite Eb in IH. destruct ok; cbn in *; [|lia]. case_bool_decide; lia.
  - destruct (tick_budget rl t' key H') as [Hok Hb]. specialize (IH _ _ Hok Hw).
    change (budget (cleanup_tick t' rl)) with (budget rl) in IH. lia.
Qed.
End Budget.

(** ** Properties *)

(** C39: the limiter bounds every window.  From any state, over any sequence of
    requests and cleanups within a window, the requests of one client that go
    through are at most the burst plus the rate for every interval begun; from a
    client the limiter does not know, for every whole interval.  The other
    clients' traffic and the forgetting of idle buckets do not matter. *)
Theorem rate_limit_window rl t t1 l key :
  limiter_ok t rl → within t t1 l →
  (Z.of_nat (passed key l rl) <= burst rl + rate rl * ((t1 - t) / interval rl + 1))%Z ∧
  (clients rl !! key = None → (Z.of_nat (passed key l rl) <= burst rl + rate rl * ((t1 - t) / interval rl))%Z).
Proof.
  intros H Hw. pose proof (passed_budget t1 key l rl t H Hw) as Hp. pose proof H as [Hc Hb].
  pose proof Hc as [Hr Hi Hbu _ _ _]. split; [|by intros E; rewrite E in Hp].
  destruct (clients rl !! key) as [b|] eqn:E; cbn [budget] in Hp; unfold full in Hp; [|lia].
  destruct (Hb _ _ E) as [Ht _ _]. destruct (_ <=? t)%Z eqn:Es; b2p; [lia|].
  assert ((t1 - lastFill b) / interval rl <= (t1 - t) / interval rl + 1)%Z; [|unfold saved in Hp; nia].
  rewrite <-(Z.div_add _ 1) by lia. apply Z.div_le_mono; lia.
Qed.

(** The limiter of the OAuth token endpoint: twenty a minute. *)
Definition demo_limiter : RateLimiter := NewRateLimiter 20 Minute 20.
Definition demo_traffic : list (time * limiter_event) :=
  (λ n, (Z.of_nat n * Second, Request "203.0.113.7"))%Z <$> seq 0 90.
Lemma rate_limit_window_witness :
  passed "203.0.113.7" demo_traffic demo_limiter = 40 ∧
  (Z.of_nat (passed "203.0.113.7" demo_traffic demo_limiter) <= 20 + 20 * (90 * Second / Minute))%Z.
Proof.
  split; [vm_compute; reflexivity|].
  refine (proj2 (rate_limit_window demo_limiter 0 (90 * Second) demo_traffic "203.0.113.7" _ _) eq_refl).
  - split; [|intros k b Hk; unfold demo_limiter, NewRateLimiter in Hk; cbn in Hk; by rewrite lookup_empty in Hk].
    split; vm_compute; intuition discriminate.
  - vm_compute. intuition discriminate.
Defined.
