(* ===== verification/References.v ===== *)
(** * Secret references ([internal/service/dependency_service.go])

    A value may refer to other keys of its environment as [${VAR}], [$VAR],
    [{{VAR}}] or [%VAR%].  The file models the four patterns as the regular
    expressions match (leftmost, longest name, not overlapping), detection, and
    resolution with its depth bound and its stack of keys being resolved. *)
From S2P Require Import Prelude GoStrings.

(** ** Definitions *)

(** A pattern: what stands before and after a name [[A-Z_][A-Z0-9_]*]. *)
Record pattern := mkPattern { p_open : string; p_close : string }.
Definition referencePatterns : list pattern :=
  [mkPattern "${" "}"; mkPattern "$" ""; mkPattern "{{" "}}"; mkPattern "%" "%"].

Definition name_start (c : ascii) : bool := in_range 65 90 c || in_range 95 95 c.
Definition name_char (c : ascii) : bool := name_start c || in_range 48 57 c.
(** The longest run of name characters. *)
Fixpoint name_run (s : string) : string * string :=
  match s with
  | String c s' => if name_char c then let '(n, r) := name_run s' in (String c n, r) else ("", s)
  | "" => ("", "")
  end.
Definition take_name (s : string) : option (string * string) :=
  match s with
  | String c s' => if name_start c then let '(n, r) := name_run s' in Some (String c n, r) else None
  | "" => None
  end.

(** A match of the pattern at the front of [s]: the name, and what follows.  No
    name character begins a closing delimiter, so a shorter name never matches. *)
Definition match_at (p : pattern) (s : string) : option (string * string) :=
  s1 ← strip_prefix (p_open p) s;
  '(n, s2) ← take_name s1;
  s3 ← strip_prefix (p_close p) s2;
  Some (n, s3).
Definition token (p : pattern) (n : string) : string := p_open p +:+ n +:+ p_close p.

(** [re.ReplaceAllStringFunc]: [skip] counts the bytes still covered by the last
    match. *)
Fixpoint replace_from (p : pattern) (f : string → string) (skip : nat) (s : string) : string :=
  match s with
  | "" => ""
  | String c s' =>
      match skip with
      | S k => replace_from p f k s'
      | O => match match_at p s with
             | Some (n, _) => f n +:+ replace_from p f (String.length (token p n) - 1) s'
             | None => String c (replace_from p f 0 s')
             end
      end
  end.
Definition ReplaceAll (p : pattern) (f : string → string) : string → string := replace_from p f 0.

(** [re.FindAllStringSubmatch]: the names matched, in order. *)
Fixpoint names_from (p : pattern) (skip : nat) (s : string) : list string :=
  match s with
  | "" => []
  | String c s' =>
      match skip with
      | S k => names_from p k s'
      | O => match match_at p s with
             | Some (n, _) => n :: names_from p (String.length (token p n) - 1) s'
             | None => names_from p 0 s'
             end
      end
  end.

(** A name nobody can resolve keeps its token. *)
Definition substituteRefs (value : string) (lookup : string → option string) : string :=
  foldl (λ v p, ReplaceAll p (λ n, match lookup n with Some r => r | None => token p n end) v) value referencePatterns.

Definition maxResolveDepth : nat := 16.

(** [resolveOne] with [fuel = maxResolveDepth - depth]; [stack] holds the keys
    being resolved. *)
Fixpoint resolve (raw : gmap string string) (fuel : nat) (value : string) (stack : gset string) : string :=
  match fuel with
  | O => value
  | S fuel' =>
      substituteRefs value (λ refKey,
        match raw !! refKey with
        | Some refVal => if bool_decide (refKey ∈ stack) then None
                         else Some (resolve raw fuel' refVal ({[refKey]} ∪ stack))
        | None => None
        end)
  end.
Definition resolveOne (value : string) (raw : gmap string string) (stack : gset string) (depth : nat) : string :=
  resolve raw (maxResolveDepth - depth) value stack.
Definition ResolveEnvReferences (raw : gmap string string) : gmap string string :=
  map_imap (λ key val, Some (resolveOne val raw {[key]} 0)) raw.

Record reference := mkReference { rf_key : string; rf_pattern : string }.
Definition findReferences (value : string) : list reference :=
  (foldl (λ acc p,
     foldl (λ acc n,
        let '(seen, refs) := acc in
        let key := TrimSpace n in
        if bool_decide (key = "") || bool_decide (key ∈ seen) then acc
        else (({[key]} ∪ seen : gset string), refs ++ [mkReference key (token p n)]))
       acc (names_from p 0 value)) (∅, []) referencePatterns).2.

(** ** Templates: text with references, and what it should mean *)

Inductive piece := Lit (s : string) | Ref (k : string).

Definition key_token (k : string) : string := "${" +:+ k +:+ "}".
Definition render (t : list piece) : string :=
  foldr (λ p s, (match p with Lit l => l | Ref k => key_token k end) +:+ s) "" t.
(** The text with every reference replaced by the value [out] has for it. *)
Definition fill (out : gmap string string) (t : list piece) : string :=
  foldr (λ p s, (match p with
                 | Lit l => l
                 | Ref k => match out !! k with Some v => v | None => key_token k end
                 end) +:+ s) "" t.
Definition refers (k : string) (t : list piece) : Prop := Ref k ∈ t.

(** Text that cannot be taken for a reference; a name. *)
Definition plain (s : string) : bool := negb (ContainsAny s ["$"; "%"; "{"]%char).
Definition is_name (k : string) : bool := bool_decide (take_name k = Some (k, "")).
Definition piece_ok (p : piece) : bool := match p with Lit l => plain l | Ref k => is_name k end.
Definition template (t : list piece) : Prop := forallb piece_ok t = true.

(** No cycles, and no chain of references longer than the depth bound: keys can
    be ranked so that references go down. *)
Definition ranked (rank : string → nat) (env : gmap string (list piece)) : Prop :=
  map_Forall (λ k t, rank k ≤ maxResolveDepth ∧ template t ∧
                     ∀ k', refers k' t → is_Some (env !! k') → rank k' < rank k) env.

(** ** Lemmas *)

(** *** Names *)

Lemma name_char_not c : name_char c = true → c ∉ ["$"; "%"; "{"; "}"]%char.
Proof.
  intros Hc. rewrite !not_elem_of_cons. split_and!; try (intros ->; revert Hc; vm_compute; intros [=]). by intros ?%elem_of_nil.
Qed.
Lemma name_run_chars s : name_run s = (s, "") → ContainsAny s ["$"; "%"; "{"; "}"]%char = false.
Proof.
  induction s as [|c s IH]; [done|]. cbn [name_run]. destruct (name_char c) eqn:Hc; [|done].
  destruct (name_run s) as [n r]. intros [= -> ->]. apply ContainsAny_cons. split; [by apply name_char_not|by apply IH].
Qed.
Lemma name_run_app s c r : name_run s = (s, "") → name_char c = false → name_run (s +:+ String c r) = (s, String c r).
Proof.
  intros Hs Hc. induction s as [|c' s IH]; [change ("" +:+ String c r) with (String c r); cbn [name_run]; by rewrite Hc|].
  rewrite app_cons. cbn [name_run] in *.
  destruct (name_char c'); [|done]. destruct (name_run s) as [n r']. injection Hs as -> ->. by rewrite IH.
Qed.
Lemma is_name_spec k :
  is_name k = true → ∃ c k', k = String c k' ∧ name_start c = true ∧ name_run k' = (k', "").
Proof.
  unfold is_name. intros H%bool_decide_eq_true. destruct k as [|c k]; [done|]. exists c, k. split; [done|]. cbn in H.
  destruct (name_start c); [|done]. destruct (name_run k) as [n r]. by injection H as -> ->.
Qed.
Lemma name_chars k : is_name k = true → ContainsAny k ["$"; "%"; "{"; "}"]%char = false.
Proof.
  intros (c & k' & -> & Hc & Hk)%is_name_spec. apply ContainsAny_cons. split; [|by apply name_run_chars].
  apply name_char_not. unfold name_char. by rewrite Hc.
Qed.
Lemma take_name_app k c r : is_name k = true → name_char c = false → take_name (k +:+ String c r) = Some (k, String c r).
Proof.
  intros (c0 & k' & -> & Hc0 & Hk)%is_name_spec Hc. rewrite app_cons. cbn [take_name]. rewrite Hc0.
  by rewrite (name_run_app k' c r Hk Hc).
Qed.

(** *** Replacing *)

Lemma replace_skip p f s r : replace_from p f (String.length s) (s +:+ r) = replace_from p f 0 r.
Proof. induction s as [|c s IH]; [done|]. rewrite app_cons. exact IH. Qed.

Lemma match_at_head p h o c s : p_open p = String h o → c ≠ h → match_at p (String c s) = None.
Proof. intros Hp Hc. unfold match_at. rewrite Hp. cbn. by rewrite decide_False. Qed.

(** Text without the first character of the pattern is copied. *)
Lemma replace_copy p f h o s r :
  p_open p = String h o → ContainsAny s [h] = false →
  replace_from p f 0 (s +:+ r) = s +:+ replace_from p f 0 r.
Proof.
  intros Hp. induction s as [|c s IH]; [done|]. intros [Hc Hs]%ContainsAny_cons. rewrite !app_cons. cbn [replace_from].
  rewrite (match_at_head p h o) by (done || set_solver). by rewrite IH.
Qed.
Lemma replace_miss p f c s :
  match_at p (String c s) = None → replace_from p f 0 (String c s) = String c (replace_from p f 0 s).
Proof. intros E. cbn [replace_from]. by rewrite E. Qed.

Definition curly : pattern := mkPattern "${" "}".
Lemma token_curly k : token curly k = key_token k.
Proof. done. Qed.

Lemma key_token_app k r : key_token k +:+ r = String "$" (String "{" (k +:+ String "}" r)).
Proof. unfold key_token. by rewrite <-!app_assoc'. Qed.

Lemma replace_curly f k r :
  is_name k = true → replace_from curly f 0 (key_token k +:+ r) = f k +:+ replace_from curly f 0 r.
Proof.
  intros Hk. rewrite key_token_app. cbn [replace_from].
  assert (match_at curly (String "$" (String "{" (k +:+ String "}" r))) = Some (k, r)) as ->.
  { unfold match_at. cbn [strip_prefix p_open curly]. rewrite !decide_True by done. cbn [mbind option_bind].
    by rewrite take_name_app. }
  f_equal. pose proof (replace_skip curly f ("{" +:+ k +:+ "}") r) as H. rewrite <-!app_assoc' in H.
  rewrite !length_app' in H. rewrite token_curly. unfold key_token. rewrite !length_app'. exact H.
Qed.

Lemma plain_no c s : plain s = true → c ∈ ["$"; "%"; "{"]%char → ContainsAny s [c] = false.
Proof. intros Hs%negb_true_iff Hc. eapply ContainsAny_weaken; [|exact Hs]. set_solver. Qed.

(** A text that puts [f] in the place of each piece. *)
Definition assemble (f : piece → string) (t : list piece) : string := foldr (λ p s, f p +:+ s) "" t.
Lemma assemble_cons f p t : assemble f (p :: t) = f p +:+ assemble f t.
Proof. done. Qed.
Lemma render_cons p t : render (p :: t) = (match p with Lit l => l | Ref k => key_token k end) +:+ render t.
Proof. done. Qed.
Lemma template_cons p t : template (p :: t) ↔ piece_ok p = true ∧ template t.
Proof. unfold template. cbn. by rewrite andb_true_iff. Qed.

Lemma render_curly f t :
  template t → ReplaceAll curly f (render t) = assemble (λ p, match p with Lit l => l | Ref k => f k end) t.
Proof.
  unfold ReplaceAll. induction t as [|[l|k] t IH]; [done|..]; rewrite template_cons, render_cons, assemble_cons; intros [Hp Ht].
  - rewrite (replace_copy curly f "$" "{") by (done || (apply plain_no; [done|set_solver])). by rewrite IH.
  - rewrite replace_curly by done. by rewrite IH.
Qed.

(** The other three patterns match nothing in a template. *)
Lemma token_other p f k r :
  p ∈ [mkPattern "$" ""; mkPattern "{{" "}}"; mkPattern "%" "%"] → is_name k = true →
  replace_from p f 0 (key_token k +:+ r) = key_token k +:+ replace_from p f 0 r.
Proof.
  intros Hp Hk. pose proof (name_chars k Hk) as Hc. destruct (is_name_spec k Hk) as (c & k' & Ek & Hc0 & _).
  assert (∀ h, h ∈ ["$"; "%"; "{"]%char → ContainsAny (k +:+ "}") [h] = false) as Hno.
  { intros h Hh. clear Hp Hk Ek Hc0. induction k as [|c' s IH].
    - apply ContainsAny_cons. split; [|done]. set_solver.
    - rewrite app_cons. apply ContainsAny_cons in Hc as [? ?]. apply ContainsAny_cons. split; [set_solver|auto]. }
  assert (∀ f' h o, p_open p = String h o → h ∈ ["$"; "%"; "{"]%char →
    replace_from p f' 0 (k +:+ String "}" r) = (k +:+ "}") +:+ replace_from p f' 0 r) as Hrest.
  { intros f' h o Ho Hh. rewrite <-(replace_copy p f' h o) by auto. by rewrite <-app_assoc'. }
  rewrite key_token_app. unfold key_token. rewrite <-app_assoc'.
  assert (∀ s, replace_from p f 0 (String "$" (String "{" s)) = String "$" (replace_from p f 0 (String "{" s))) as E1.
  { intros s. apply replace_miss. set_unfold. destruct Hp as [-> |[-> |[-> |[]]]]; reflexivity. }
  assert (replace_from p f 0 (String "{" (k +:+ String "}" r)) = String "{" (replace_from p f 0 (k +:+ String "}" r))) as E2.
  { apply replace_miss. rewrite Ek, app_cons. assert (c ≠ "{"%char) by (intros ->; by vm_compute in Hc0).
    clear Hno Hrest. set_unfold. destruct Hp as [-> |[-> |[-> |[]]]].
    - by apply (match_at_head _ "$" "").
    - unfold match_at. cbn [strip_prefix p_open]. rewrite decide_True by done. rewrite decide_False; [done|congruence].
    - by apply (match_at_head _ "%" ""). }
  rewrite E1, E2. rewrite !app_cons. cbn [String.append]. do 2 f_equal.
  set_unfold. destruct Hp as [-> |[-> |[-> |[]]]]; eapply Hrest; try reflexivity; set_solver.
Qed.
Lemma render_other p f t :
  p ∈ [mkPattern "$" ""; mkPattern "{{" "}}"; mkPattern "%" "%"] → template t → ReplaceAll p f (render t) = render t.
Proof.
  intros Hp. unfold ReplaceAll. induction t as [|[l|k] t IH]; [done|..]; rewrite template_cons, render_cons; intros [Hl Ht].
  - assert (∃ h o, p_open p = String h o ∧ h ∈ ["$"; "%"; "{"]%char) as (h & o & Ho & Hh).
    { set_unfold. destruct Hp as [-> |[-> |[-> |[]]]]; eexists _, _; (split; [reflexivity|]); set_solver. }
    rewrite (replace_copy p f h o) by (done || by apply plain_no). by rewrite IH.
  - rewrite token_other by done. by rewrite IH.
Qed.

(** *** Expansion *)

Lemma bind_ext_in {A B} (f g : A → list B) l : (∀ x, x ∈ l → f x = g x) → l ≫= f = l ≫= g.
Proof.
  induction l as [|x l IH]; intros H; [done|]. rewrite !bind_cons, H by (by left). f_equal. apply IH. intros y Hy. apply H. by right.
Qed.

Lemma render_app a b : render (a ++ b) = render a +:+ render b.
Proof. induction a as [|p a IH]; [done|]. cbn [app]. by rewrite !render_cons, IH, app_assoc'. Qed.
Lemma template_app a b : template (a ++ b) ↔ template a ∧ template b.
Proof. unfold template. by rewrite forallb_app, andb_true_iff. Qed.

(** Four passes over a template are one: each known name gets a template, and
    what the names bring in is not taken for a reference again. *)
Lemma substitute_template t lookup (g : string → list piece) :
  template t →
  (∀ k, refers k t → template (g k) ∧ match lookup k with Some v => v | None => key_token k end = render (g k)) →
  substituteRefs (render t) lookup = render (t ≫= λ p, match p with Lit l => [p] | Ref k => g k end) ∧
  template (t ≫= λ p, match p with Lit l => [p] | Ref k => g k end).
Proof.
  intros Ht Hg. set (h p := match p with Lit _ => [p] | Ref k => g k end).
  assert (assemble (λ p, match p with Lit l => l | Ref k => match lookup k with Some v => v | None => key_token k end end) t
    = render (t ≫= h) ∧ template (t ≫= h)) as [E Hok].
  { clear -Ht Hg. induction t as [|p t IH]; [done|]. apply template_cons in Ht as [Hp Ht].
    destruct IH as [E Hok]; [done|intros k Hk; apply Hg; by right|]. rewrite bind_cons, render_app, assemble_cons, template_app, E.
    destruct p as [l|k]; cbn [h].
    - rewrite template_cons, render_cons. cbn [render foldr]. by rewrite app_nil_r'.
    - destruct (Hg k) as [Hgk Eg]; [by left|]. by rewrite <-Eg. }
  split; [|done]. unfold substituteRefs, referencePatterns. cbn [foldl]. fold curly.
  assert (ReplaceAll curly (λ n, match lookup n with Some r => r | None => token curly n end) (render t) = render (t ≫= h)) as ->
    by (rewrite render_curly by done; exact E).
  rewrite !render_other by (done || set_solver). done.
Qed.

Section Resolution.
Context (rank : string → nat) (env : gmap string (list piece)) (Hranked : ranked rank env).

(** References replaced [n] levels deep. *)
Fixpoint expand (n : nat) (t : list piece) : list piece :=
  t ≫= λ p, match p with
            | Lit _ => [p]
            | Ref k => match n, env !! k with S n', Some t' => expand n' t' | _, _ => [p] end
            end.
Definition below (n : nat) (t : list piece) : Prop := ∀ k, refers k t → is_Some (env !! k) → rank k < n.

Lemma below_ranked k t : env !! k = Some t → below (rank k) t ∧ template t ∧ rank k ≤ maxResolveDepth.
Proof. intros H. destruct (Hranked k t H) as (? & ? & ?). done. Qed.

Lemma expand_0 t : expand 0 t = t.
Proof. cbn. induction t as [|[l|k] t IH]; [done|..]; cbn in *; by rewrite IH. Qed.
(** Enough levels are enough. *)
Lemma expand_stable n : ∀ m t, below n t → n ≤ m → expand m t = expand n t.
Proof.
  induction (lt_wf n) as [n _ IH]. intros m t Hb Hle.
  assert (∀ p, p ∈ t → match p with Lit _ => [p] | Ref k => match m, env !! k with S n', Some t' => expand n' t' | _, _ => [p] end end
                     = match p with Lit _ => [p] | Ref k => match n, env !! k with S n', Some t' => expand n' t' | _, _ => [p] end end) as E.
  { intros [l|k] Hk; [done|]. destruct (env !! k) as [t'|] eqn:Ek; [|by destruct m, n].
    assert (rank k < n) as Hr by (apply Hb; [done|by eexists]). destruct n as [|n], m as [|m]; try lia.
    destruct (below_ranked k t' Ek) as [Hb' _].
    rewrite (IH (rank k) ltac:(lia) m t' Hb') by lia. by rewrite (IH (rank k) ltac:(lia) n t' Hb') by lia. }
  destruct m, n; by apply bind_ext_in.
Qed.

Lemma resolve_expand n : ∀ fuel t S,
  template t → below n t → n ≤ fuel → (∀ k, k ∈ S → n ≤ rank k) →
  resolve (render <$> env) fuel (render t) S = render (expand n t) ∧ template (expand n t).
Proof.
  induction (lt_wf n) as [n _ IH]. intros fuel t S Ht Hb Hle HS.
  destruct fuel as [|fuel]; [replace n with 0 by lia; by rewrite expand_0|]. cbn [resolve].
  set (lookup := λ k, _).
  pose (g k := match n, env !! k with Datatypes.S n', Some t' => expand n' t' | _, _ => [Ref k] end).
  destruct (substitute_template t lookup g) as [E Hok]; [done| |].
  - intros k Hk. unfold lookup, g. rewrite lookup_fmap. destruct (env !! k) as [t'|] eqn:Ek; cbn.
    + assert (rank k < n) as Hr by (apply Hb; [done|by eexists]). destruct n as [|n]; [lia|].
      rewrite bool_decide_eq_false_2 by (intros Hin; apply HS in Hin; lia).
      destruct (below_ranked k t' Ek) as (Hb' & Ht' & _).
      rewrite (expand_stable (rank k) n t' Hb') by lia.
      destruct (IH (rank k) Hr fuel t' ({[k]} ∪ S) Ht' Hb') as [E' Hok']; [lia| |by rewrite E'].
      intros k0 [->%elem_of_singleton|?%HS]%elem_of_union; lia.
    + assert (match n with 0 | _ => [Ref k] end = [Ref k]) as -> by by destruct n.
      split; [|cbn; by rewrite app_nil_r']. apply forallb_forall. intros p [<-|[]].
      unfold template in Ht. rewrite forallb_forall in Ht. apply Ht. by apply list_elem_of_In.
  - assert (expand n t = t ≫= λ p, match p with Lit l => [p] | Ref k => g k end) as -> by (destruct n; by apply bind_ext_in; intros [l|k]).
    by rewrite E.
Qed.

Lemma resolved_key k t :
  env !! k = Some t → ResolveEnvReferences (render <$> env) !! k = Some (render (expand (rank k) t)).
Proof.
  intros Ek. unfold ResolveEnvReferences. rewrite map_lookup_imap, lookup_fmap, Ek.
  cbn [fmap option_fmap option_map mbind option_bind]. f_equal.
  destruct (below_ranked k t Ek) as (Hb & Ht & Hr). unfold resolveOne.
  refine (proj1 (resolve_expand (rank k) (maxResolveDepth - 0) t {[k]} Ht Hb _ _)).
  - rewrite Nat.sub_0_r. exact Hr.
  - intros k0 ->%elem_of_singleton. apply Nat.le_refl.
Qed.
Lemma resolved_unknown k : env !! k = None → ResolveEnvReferences (render <$> env) !! k = None.
Proof. intros Ek. unfold ResolveEnvReferences. by rewrite map_lookup_imap, lookup_fmap, Ek. Qed.

Lemma fill_expand n t :
  below n t → render (expand n t) = fill (ResolveEnvReferences (render <$> env)) t.
Proof.
  intros Hb. assert (expand n t = t ≫= λ p, match p with Lit _ => [p]
    | Ref k => match env !! k with Some t' => expand (rank k) t' | None => [p] end end) as ->.
  { assert (∀ p, p ∈ t → match p with Lit _ => [p] | Ref k => match n, env !! k with S n', Some t' => expand n' t' | _, _ => [p] end end
      = match p with Lit _ => [p] | Ref k => match env !! k with Some t' => expand (rank k) t' | None => [p] end end) as E.
    { intros [l|k] Hk; [done|]. destruct (env !! k) as [t'|] eqn:Ek; [|by destruct n].
      assert (rank k < n) as Hr by (apply Hb; [done|by eexists]). destruct n as [|n]; [lia|].
      apply expand_stable; [by apply below_ranked|lia]. }
    destruct n; by apply bind_ext_in. }
  clear Hb. induction t as [|p t IH]; [done|]. rewrite bind_cons, render_app, IH. cbn [fill foldr].
  f_equal. destruct p as [l|k]; [by rewrite render_cons, app_nil_r'|].
  destruct (env !! k) as [t'|] eqn:Ek; [by rewrite (resolved_key k t' Ek)|].
  rewrite (resolved_unknown k Ek), render_cons. by rewrite app_nil_r'.
Qed.
End Resolution.

(** ** Properties *)

(** Resolution computes the closed values.  In an environment of [${VAR}]
    templates without cycles and without chains longer than the depth bound,
    resolving keeps exactly the keys, and each resolved value is the key's
    template with every known name replaced by that name's own resolved value
    and every other token left as it was. *)
Theorem ResolveEnvReferences_closed rank env :
  ranked rank env →
  let out := ResolveEnvReferences (render <$> env) in
  (∀ k t, env !! k = Some t → out !! k = Some (fill out t)) ∧ (∀ k, env !! k = None → out !! k = None).
Proof.
  intros H out. split; [|apply resolved_unknown]. intros k t Ek. unfold out.
  rewrite (resolved_key rank env H k t Ek). f_equal. apply (fill_expand rank env H). by apply (below_ranked rank env H).
Qed.

Definition demo_env : gmap string (list piece) :=
  list_to_map [("DATABASE_URL", [Lit "postgres://"; Ref "DB_LOGIN"; Lit "@db/"; Ref "REGION"]);
               ("DB_LOGIN", [Ref "DB_USER"; Lit ":"; Ref "DB_PASS"]); ("DB_USER", [Lit "app"]); ("DB_PASS", [Lit "s3cret"])].
Definition demo_rank (k : string) : nat :=
  if bool_decide (k = "DATABASE_URL") then 2 else if bool_decide (k = "DB_LOGIN") then 1 else 0.

Lemma demo_ranked : ranked demo_rank demo_env.
Proof.
  intros k t Hk. unfold demo_env in Hk. apply elem_of_list_to_map_2 in Hk.
  assert (∀ t k', refers k' t → existsb (λ p, match p with Ref r => bool_decide (r = k') | Lit _ => false end) t = true) as Hex.
  { intros u k' Hu. apply existsb_exists. exists (Ref k'). split; [by apply list_elem_of_In|by apply bool_decide_eq_true]. }
  assert (∀ k', is_Some (demo_env !! k') → k' ∈ ["DATABASE_URL"; "DB_LOGIN"; "DB_USER"; "DB_PASS"]) as Hdom.
  { intros k' [t' Ht']. unfold demo_env in Ht'. apply elem_of_list_to_map_2 in Ht'. set_unfold. naive_solver. }
  set_unfold in Hk. destruct Hk as [[= -> ->]|[[= -> ->]|[[= -> ->]|[[= -> ->]|[]]]]];
    (split; [vm_compute; lia|]); (split; [vm_compute; reflexivity|]); intros k' Hr%Hex Hs%Hdom; revert Hr;
    set_unfold in Hs; destruct Hs as [-> |[-> |[-> |[-> |[]]]]]; vm_compute; intros ?; (lia || discriminate).
Qed.

Lemma ResolveEnvReferences_closed_witness :
  ResolveEnvReferences (render <$> demo_env) !! "DATABASE_URL" = Some "postgres://app:s3cret@db/${REGION}" ∧
  ResolveEnvReferences (render <$> demo_env) !! "DATABASE_URL" =
    Some (fill (ResolveEnvReferences (render <$> demo_env))
            [Lit "postgres://"; Ref "DB_LOGIN"; Lit "@db/"; Ref "REGION"]).
Proof.
  split; [vm_compute; reflexivity|].
  apply (proj1 (ResolveEnvReferences_closed demo_rank demo_env demo_ranked)). vm_compute. reflexivity.
Defined.

(** ** Where the comments and the decision record say more than the code does *)

(** A cycle is not left as its token when its keys use different forms: the token
    that one pattern leaves is matched again by a later pattern, so [A] is not
    what [B] resolves to. *)
Definition mixed_cycle : gmap string string := list_to_map [("A", "${B}"); ("B", "{{C}}x"); ("C", "%B%")].
Lemma cycle_expanded_again :
  ResolveEnvReferences mixed_cycle !! "B" = Some "%B%x" ∧ ResolveEnvReferences mixed_cycle !! "A" = Some "%B%xx".
Proof. split; vm_compute; reflexivity. Qed.

(** Resolution is not linear in the references: each of ten keys that mentions
    the next one twice doubles the work and the value. *)
Definition doubling : gmap string string :=
  list_to_map [("A", "$B$B"); ("B", "$C$C"); ("C", "$D$D"); ("D", "$E$E"); ("E", "$F$F"); ("F", "$G$G"); ("G", "$H$H");
               ("H", "$I$I"); ("I", "$J$J"); ("J", "$K$K"); ("K", "x")].
Lemma resolution_doubles : (String.length <$> ResolveEnvReferences doubling !! "A") = Some 1024.
Proof. vm_compute. reflexivity. Qed.
