(* ===== verification/Schema.v ===== *)
(** * The database of the server and the state a request runs in

    One record per table of [backend/migrations/postgres] with the columns the
    modelled code reads or writes, tables as finite maps from their primary key,
    and [World]: the database, the clock, the random source, the driver failures
    still to come and the row locks taken.  A setter [upd_x g] applies [g] to the
    field [x]. *)
From S2P Require Import Prelude GoStrings GoEncoding.

(** A row of [session_tokens]. *)
Record session_row := mkSession {
  se_user_id : uuid;
  se_revoked : bool;
  se_created_at : time;
  se_expires_at : time;
}.

(** A row of [projects]. *)
Record project_row := mkProject {
  pr_name : string;
  pr_owner_id : uuid;
  pr_organization_id : option uuid;
  pr_encrypted_dek : string;
  pr_dek_nonce : string;
  pr_deleted_at : option time;
}.

(** A row of [environments]. *)
Record environment_row := mkEnvironment {
  en_project_id : uuid;
  en_name : string;
}.

(** A row of [api_keys]. *)
Record api_key_row := mkAPIKey {
  ak_user_id : uuid;
  ak_project_id : uuid;
  ak_scopes : list string;
  ak_environment : option string;
  ak_expires_at : option time;
  ak_name : string;
  ak_hashed_key : string;
  ak_created_at : time;
}.

(** A row of [secret_leases]. *)
Record lease_row := mkLease {
  le_api_key_id : uuid;
  le_project_id : uuid;
  le_environment : string;
  le_secret_keys : list string;
  le_granted_at : time;
  le_expires_at : time;
  le_revoked : bool;
  le_revoked_at : option time;
}.

(** A row of [agent_token_issuance]. *)
Record issuance_row := mkIssuance {
  is_lease_id : uuid;
  is_project_id : uuid;
  is_user_id : uuid;
  is_expires_at : time;
}.

(** A row of [token_denylist]. *)
Record denied_row := mkDenied {
  de_lease_id : option uuid;
  de_expires_at : time;
  de_reason : string;
}.

(** A row of [mcp_oauth_clients]. *)
Record oauth_client_row := mkClient {
  cl_harness : string;
  cl_redirect_uri : string;
  cl_enabled : bool;
}.

(** A row of [mcp_oauth_requests]. *)
Record oauth_request_row := mkRequest {
  or_client_id : string;
  or_resource : string;
  or_redirect_uri : string;
  or_scope : string;
  or_state : string;
  or_challenge : string;
  or_expires_at : time;
  or_consumed_at : option time;
}.

(** A row of [mcp_oauth_consents]. *)
Record oauth_consent_row := mkConsent {
  oc_user_id : uuid;
  oc_session_id : uuid;
  oc_client_id : string;
  oc_resource : string;
  oc_scope : string;
  oc_expires_at : time;
  oc_revoked_at : option time;
}.

(** A row of [mcp_oauth_codes]. *)
Record oauth_code_row := mkCode {
  od_consent_id : uuid;
  od_redirect_uri : string;
  od_challenge : string;
  od_expires_at : time;
  od_consumed_at : option time;
}.

(** A row of [mcp_oauth_families]. *)
Record oauth_family_row := mkFamily {
  of_consent_id : uuid;
  of_expires_at : time;
  of_revoked_at : option time;
  of_created_at : time;
}.

(** A row of [mcp_oauth_tokens]. *)
Record oauth_token_row := mkToken {
  ot_family_id : uuid;
  ot_access_hash : string;
  ot_refresh_hash : string;
  ot_expires_at : time;
  ot_rotated_at : option time;
  ot_created_at : time;
}.

(** A row of [secrets]. *)
Record secret_row := mkSecret {
  sr_project_id : uuid;
  sr_environment_id : uuid;
  sr_key : string;
  sr_encrypted_value : string;
  sr_value_nonce : string;
  sr_created_at : time;
  sr_updated_at : time;
}.

(** A row of [secret_snapshots]. *)
Record snapshot_row := mkSnapshot {
  ss_promotion_id : uuid;
  ss_environment_id : uuid;
  ss_key : string;
  ss_encrypted_value : string;
  ss_value_nonce : string;
  ss_prior_existed : bool;
}.

(** A row of [promotion_requests]. *)
Record promotion_row := mkPromotion {
  pq_project_id : uuid;
  pq_source_environment : string;
  pq_target_environment : string;
  pq_status : string;
  pq_requested_by : uuid;
  pq_approved_by : option uuid;
  pq_keys_filter : list string;
  pq_override_policy : string;
  pq_notes : string;
  pq_created_at : time;
  pq_completed_at : option time;
}.

(** A row of [vault_keys]. *)
Record vault_key_row := mkVaultKey {
  vk_project_id : uuid;
  vk_encrypted_key : string;
  vk_nonce : string;
}.

(** A row of [vault_entries]. *)
Record entry_row := mkEntry {
  ve_project_id : uuid;
  ve_environment_id : uuid;
  ve_secret_key : string;
  ve_revision : Z;
  ve_key_id : uuid;
  ve_deleted : bool;
}.

(** A row of [vault_revisions]. *)
Record revision_row := mkRevision {
  vr_project_id : uuid;
  vr_key_id : uuid;
  vr_encrypted_value : string;
  vr_nonce : string;
  vr_operation : string;
  vr_actor_id : option uuid;
  vr_created_at : time;
}.

(** A row of [vault_promotion_bindings]. *)
Record binding_row := mkBinding {
  vb_project_id : uuid;
  vb_request_digest : string;
  vb_source_digest : string;
  vb_target_digest : string;
  vb_expires_at : time;
}.

(** A row of [vault_lifecycle]. *)
Record lifecycle_row := mkLifecycleRow {
  vl_project_id : uuid;
  vl_responsible_user_id : option uuid;
  vl_declared_expires_at : option time;
  vl_renewal_at : option time;
  vl_provenance : string;
  vl_revision : Z;
  vl_updated_at : time;
}.

(** A row of [vault_notifications]. *)
Record notification_row := mkNotificationRow {
  vn_user_id : uuid;
  vn_project_id : uuid;
  vn_secret_id : uuid;
  vn_lifecycle_revision : Z;
  vn_threshold_days : Z;
  vn_created_at : time;
  vn_read_at : option time;
}.

(** A row of [outbox_jobs]. *)
Record job_row := mkJob {
  jb_kind : string;
  jb_payload : json;
  jb_effect : string;
  jb_status : string;
  jb_available_at : time;
  jb_lease_until : option time;
  jb_worker_id : option uuid;
  jb_attempt : Z;
  jb_max_attempts : Z;
  jb_fence : Z;
  jb_outcome : string;
}.

(** A row of [audit_log]. *)
Record audit_row := mkAudit {
  au_user_id : option uuid;
  au_project_id : option uuid;
  au_action : string;
  au_environment : string;
  au_details : json;
  au_ip_address : string;
  au_prev_hash : option string;
  au_entry_hash : option string;
  au_created_at : time;
}.

(** The four approval columns of a profile or a package, which are set together. *)
Record approval_row := mkApproval {
  ap_approved_by : uuid;
  ap_approver_epoch : Z;
  ap_approved_at : time;
  ap_approved_until : time;
}.

(** A row of [tool_artifacts]. *)
Record artifact_row := mkArtifactRow {
  ta_project_id : uuid;
  ta_name : string;
  ta_digest : string;
  ta_source : string;
  ta_created_by : uuid;
  ta_created_at : time;
  ta_revoked_at : option time;
}.

(** A row of [tool_profiles]. *)
Record profile_row := mkProfileRow {
  tp_project_id : uuid;
  tp_artifact_id : uuid;
  tp_digest : string;
  tp_manifest : json;
  tp_created_by : uuid;
  tp_approval : option approval_row;
  tp_revoked_at : option time;
  tp_created_at : time;
}.

(** A row of [tool_profile_packages]. *)
Record package_row := mkPackageRow {
  tk_profile_id : uuid;
  tk_harness : string;
  tk_version : string;
  tk_format : string;
  tk_digest : string;
  tk_content : json;
  tk_compatibility : json;
  tk_created_by : uuid;
  tk_approval : option approval_row;
  tk_revoked_at : option time;
}.

(** A row of [tool_connections]. *)
Record connection_row := mkConnectionRow {
  tc_project_id : uuid;
  tc_app_id : Z;
  tc_installation_id : Z;
  tc_ciphertext : string;
  tc_nonce : string;
  tc_created_by : uuid;
  tc_created_at : time;
  tc_revoked_at : option time;
}.

(** A row of [tool_bindings]. *)
Record tool_binding_row := mkToolBinding {
  tb_project_id : uuid;
  tb_connection_id : uuid;
  tb_environment_id : uuid;
  tb_repository_id : Z;
  tb_owner_name : string;
  tb_repository_name : string;
  tb_reference : string;
  tb_created_at : time;
  tb_revoked_at : option time;
}.

(** A row of [tool_workloads]. *)
Record workload_row := mkWorkloadRow {
  tw_project_id : uuid;
  tw_certificate_sha256 : string;
  tw_image_digest : string;
  tw_created_by : uuid;
  tw_created_at : time;
  tw_revoked_at : option time;
}.

(** A row of [tool_grants]. *)
Record tool_grant_row := mkToolGrant {
  tg_project_id : uuid;
  tg_profile_id : uuid;
  tg_package_id : uuid;
  tg_profile_digest : string;
  tg_package_digest : string;
  tg_binding_id : uuid;
  tg_workload_id : uuid;
  tg_actor_id : uuid;
  tg_client_id : string;
  tg_issued_by : uuid;
  tg_membership_epoch : Z;
  tg_issuer_epoch : Z;
  tg_expires_at : time;
  tg_revoked_at : option time;
  tg_created_at : time;
}.

(** A row of [tool_runs]. *)
Record run_row := mkRunRow {
  rn_project_id : uuid;
  rn_grant_id : uuid;
  rn_actor_id : uuid;
  rn_session_id : uuid;
  rn_client_id : string;
  rn_parent_kind : string;
  rn_parent_family : option uuid;
  rn_parent_token : option uuid;
  rn_authority_expires_at : time;
  rn_state : string;
  rn_commit_sha : option string;
  rn_tree_sha : option string;
  rn_reference : string;
  rn_expires_at : time;
  rn_created_at : time;
  rn_provider_operations : Z;
  rn_result_bytes : Z;
  rn_request_key : string;
  rn_request_digest : string;
  rn_scope : option json;
}.

(** A row of [tool_resolution_attempts]. *)
Record resolution_row := mkResolution {
  ra_run_id : uuid;
  ra_state : string;
  ra_deadline : time;
  ra_outcome : string;
  ra_finished_at : option time;
}.

(** A row of [tool_operations]. *)
Record operation_row := mkOperationRow {
  xo_run_id : uuid;
  xo_kind : string;
  xo_arguments : json;
  xo_request_key : string;
  xo_request_digest : string;
  xo_parent_kind : string;
  xo_parent_family : option uuid;
  xo_parent_token : option uuid;
  xo_authority_expires_at : time;
  xo_status : string;
  xo_outcome : string;
  xo_cancel_requested : bool;
  xo_fence : Z;
  xo_workload_id : option uuid;
  xo_lease_until : option time;
  xo_deadline : option time;
  xo_expires_at : time;
  xo_created_at : time;
  xo_updated_at : time;
}.

(** A row of [tool_tickets]. *)
Record ticket_row := mkTicketRow {
  tt_operation_id : uuid;
  tt_workload_id : uuid;
  tt_token_hash : string;
  tt_fence : Z;
  tt_request_digest : string;
  tt_image_digest : string;
  tt_nonce : string;
  tt_expires_at : time;
  tt_consumed_at : option time;
}.

(** A row of [tool_attempts]. *)
Record attempt_row := mkAttemptRow {
  at_ticket_id : uuid;
  at_workload_id : uuid;
  at_state : string;
  at_deadline : time;
  at_outcome : string;
  at_finished_at : option time;
}.

(** A row of [tool_receipts]. *)
Record receipt_row := mkReceiptRow {
  re_run_id : uuid;
  re_operation_id : option uuid;
  re_action : string;
  re_outcome : string;
  re_details : json;
  re_created_at : time;
}.

(** A row of [tool_result_spool]. *)
Record spool_row := mkSpool {
  sp_ciphertext : string;
  sp_nonce : string;
  sp_expires_at : time;
}.

(** A row of [tool_connection_checks]. *)
Record check_row := mkCheckRow {
  ck_project_id : uuid;
  ck_connection_id : uuid;
  ck_binding_id : uuid;
  ck_actor_id : uuid;
  ck_session_id : uuid;
  ck_deadline : time;
  ck_state : string;
  ck_provider_operations : Z;
  ck_finished_at : option time;
}.

(** The columns of [session_tokens] that only sign-in and the identity platform
    read. *)
Record session_detail_row := mkSessionDetail {
  sd_token_hash : string;
  sd_auth_method : string;
  sd_ip_address : string;
  sd_user_agent : string;
}.

(** A row of [social_identities], whose key is provider and subject. *)
Record social_row := mkSocialRow {
  si_user_id : uuid;
  si_email : string;
}.

(** A row of [social_auth_flows], whose key is the hash of the state; the expiry
    is in seconds since 1970. *)
Record flow_row := mkFlowRow {
  sf_provider : string;
  sf_challenge : string;
  sf_link_user_id : option uuid;
  sf_link_session_id : option uuid;
  sf_expires_at : Z;
}.

(** A row of [auth_login_attempts], whose key is an email. *)
Record login_row := mkLoginRow {
  la_failed_count : Z;
  la_last_failed_at : option time;
  la_locked_until : option time;
}.

(** A row of [identity_verified_contacts], whose key is user and contact. *)
Record contact_row := mkContactRow {
  vc_verified_at : time;
  vc_revoked_at : option time;
}.

(** A row of [identity_proofs]. *)
Record proof_row := mkProofRow {
  ip_user_id : uuid;
  ip_session_id : option uuid;
  ip_purpose : string;
  ip_contact : string;
  ip_proof_hash : string;
  ip_expires_at : time;
  ip_consumed : bool;
  ip_consumed_at : option time;
  ip_revoked : bool;
  ip_attempts : Z;
  ip_created_at : time;
}.

(** A row of [identity_proof_deliveries]. *)
Record delivery_row := mkDeliveryRow {
  pd_proof_id : uuid;
  pd_ciphertext : string;
  pd_nonce : string;
  pd_state : string;
  pd_reason_code : string;
  pd_dispatched_at : option time;
  pd_completed_at : option time;
  pd_created_at : time;
}.

(** A row of [identity_invitations]; its key is that of its proof. *)
Record invitation_row := mkInvitationRow {
  iv_organization_id : uuid;
  iv_inviter_id : uuid;
  iv_target_user_id : option uuid;
  iv_intended_role : string;
  iv_accepted_by : option uuid;
  iv_accepted_at : option time;
  iv_revoked : bool;
}.

(** A row of [identity_offboarding_receipts]. *)
Record offboarding_row := mkOffboardingRow {
  or_organization_id : uuid;
  or_actor_id : uuid;
  or_target_user_id : uuid;
  or_request_key : string;
  or_request_digest : string;
  or_authority_epoch : Z;
  or_summary : json;
}.

(** A row of [identity_offboarding_previews]. *)
Record preview_row := mkPreviewRow {
  pv_organization_id : uuid;
  pv_actor_id : uuid;
  pv_target_user_id : uuid;
  pv_authority_epoch : Z;
  pv_impact_digest : string;
  pv_expires_at : time;
  pv_consumed_at : option time;
}.

(** Delegated OAuth: codes by their hash. *)
Record OAuthDB := mkOAuthDB {
  t_mcp_oauth_clients : gmap string oauth_client_row;
  t_mcp_oauth_requests : gmap uuid oauth_request_row;
  t_mcp_oauth_consents : gmap uuid oauth_consent_row;
  t_mcp_oauth_codes : gmap string oauth_code_row;
  t_mcp_oauth_families : gmap uuid oauth_family_row;
  t_mcp_oauth_tokens : gmap uuid oauth_token_row;
}.

(** Users, sessions, organizations (membership and authority epoch keyed by
    organization and user) and delegated OAuth. *)
Record IdentityDB := mkIdentityDB {
  t_users : gset uuid;
  t_session_tokens : gmap uuid session_row;
  t_organizations : gset uuid;
  t_organization_members : gmap (uuid * uuid) string;
  t_member_authority_state : gmap (uuid * uuid) (bool * Z);
  t_oauth : OAuthDB;
}.

(** Projects, environments and delegated credentials. *)
Record ProjectDB := mkProjectDB {
  t_projects : gmap uuid project_row;
  t_environments : gmap uuid environment_row;
  t_api_keys : gmap uuid api_key_row;
  t_secret_leases : gmap uuid lease_row;
  t_agent_token_issuance : gmap string issuance_row;
  t_token_denylist : gmap string denied_row;
}.

(** Live secrets and promotions. *)
Record SecretDB := mkSecretDB {
  t_secrets : gmap uuid secret_row;
  t_secret_snapshots : gmap uuid snapshot_row;
  t_promotion_requests : gmap uuid promotion_row;
}.

(** The versioned vault: revisions keyed by secret and revision, effects by
    promotion and secret. *)
Record VaultDB := mkVaultDB {
  t_vault_keys : gmap uuid vault_key_row;
  t_vault_projects : gmap uuid uuid;
  t_vault_entries : gmap uuid entry_row;
  t_vault_revisions : gmap (uuid * Z) revision_row;
  t_vault_snapshot_keys : gmap uuid (uuid * uuid);
  t_vault_promotion_bindings : gmap uuid binding_row;
  t_vault_promotion_effects : gmap (uuid * uuid) (uuid * Z);
  t_vault_lifecycle : gmap uuid lifecycle_row;
  t_vault_notifications : gmap uuid notification_row;
}.

(** The agent tool platform: attempts keyed by operation and fence, results by
    operation. *)
Record ToolDB := mkToolDB {
  t_tool_artifacts : gmap uuid artifact_row;
  t_tool_profiles : gmap uuid profile_row;
  t_tool_packages : gmap uuid package_row;
  t_tool_connections : gmap uuid connection_row;
  t_tool_bindings : gmap uuid tool_binding_row;
  t_tool_workloads : gmap uuid workload_row;
  t_tool_grants : gmap uuid tool_grant_row;
  t_tool_runs : gmap uuid run_row;
  t_tool_resolutions : gmap uuid resolution_row;
  t_tool_operations : gmap uuid operation_row;
  t_tool_tickets : gmap uuid ticket_row;
  t_tool_attempts : gmap (uuid * Z) attempt_row;
  t_tool_receipts : gmap uuid receipt_row;
  t_tool_spool : gmap uuid spool_row;
  t_tool_checks : gmap uuid check_row;
}.

(** Accounts: the columns of users, organizations and sessions only this platform
    reads ([email], [password_hash], [owner_id]); external identities by provider
    and subject; sign-in flows by the hash of their state; failed sign-ins by
    email; and the identity platform. *)
Record AccountDB := mkAccountDB {
  t_password_hashes : gmap uuid string;
  t_organization_owners : gmap uuid uuid;
  t_session_details : gmap uuid session_detail_row;
  t_social_identities : gmap (string * string) social_row;
  t_social_auth_flows : gmap string flow_row;
  t_identity_verified_contacts : gmap (uuid * string) contact_row;
  t_identity_proofs : gmap uuid proof_row;
  t_identity_proof_deliveries : gmap uuid delivery_row;
  t_identity_invitations : gmap uuid invitation_row;
  t_identity_offboarding_receipts : gmap uuid offboarding_row;
  t_identity_offboarding_previews : gmap uuid preview_row;
  t_user_emails : gmap uuid string;
  t_auth_login_attempts : gmap string login_row;
}.

(** The whole database. *)
Record DB := mkDB {
  db_identity : IdentityDB;
  db_projects : ProjectDB;
  db_secrets : SecretDB;
  db_vault : VaultDB;
  db_jobs : gmap uuid job_row;
  db_audit_log : gmap uuid audit_row;
  db_audit_chain_head : string * Z;
  db_tools : ToolDB;
  db_accounts : AccountDB;
}.

(** A row lock taken inside a transaction, in the order of the locking
    discipline: subjects, organizations, the project, memberships of an
    organization, sessions, then API keys, leases and tokens, or authorization
    requests, consents, clients, families, codes and OAuth tokens; then runs,
    operations and the other rows of the tool platform. *)
Inductive lock :=
  | LockSubject (u : uuid)
  | LockOrganization (o : uuid)
  | LockProjectRow (p : uuid)
  | LockMemberState (o u : uuid)
  | LockMembership (o u : uuid)
  | LockSession (s : uuid)
  | LockAPIKey (k : uuid)
  | LockLease (l : uuid)
  | LockToken (jti : string)
  | LockRequest (r : uuid)
  | LockConsent (c : uuid)
  | LockClient (id : string)
  | LockFamily (f : uuid)
  | LockCode (hash : string)
  | LockOAuthToken (t : uuid)
  | LockRun (r : uuid)
  | LockOperation (o : uuid)
  | LockToolRow (table : string) (id : uuid).

(** The state a request runs in: the database, the clock, the position in the
    random source, the driver failures still to come (one Boolean is consumed
    by every statement; a list that has run out means no further failure) and
    the row locks the current transaction has taken, oldest first. *)
Record World := mkWorld {
  w_db : DB;
  w_now : time;
  w_rng : N;
  w_faults : list bool;
  w_locks : list lock;
}.

Definition upd_t_mcp_oauth_clients (g : gmap string oauth_client_row → gmap string oauth_client_row) (r : OAuthDB) : OAuthDB :=
  mkOAuthDB (g (t_mcp_oauth_clients r)) (t_mcp_oauth_requests r) (t_mcp_oauth_consents r) (t_mcp_oauth_codes r) (t_mcp_oauth_families r) (t_mcp_oauth_tokens r).
Definition upd_t_mcp_oauth_requests (g : gmap uuid oauth_request_row → gmap uuid oauth_request_row) (r : OAuthDB) : OAuthDB :=
  mkOAuthDB (t_mcp_oauth_clients r) (g (t_mcp_oauth_requests r)) (t_mcp_oauth_consents r) (t_mcp_oauth_codes r) (t_mcp_oauth_families r) (t_mcp_oauth_tokens r).
Definition upd_t_mcp_oauth_consents (g : gmap uuid oauth_consent_row → gmap uuid oauth_consent_row) (r : OAuthDB) : OAuthDB :=
  mkOAuthDB (t_mcp_oauth_clients r) (t_mcp_oauth_requests r) (g (t_mcp_oauth_consents r)) (t_mcp_oauth_codes r) (t_mcp_oauth_families r) (t_mcp_oauth_tokens r).
Definition upd_t_mcp_oauth_codes (g : gmap string oauth_code_row → gmap string oauth_code_row) (r : OAuthDB) : OAuthDB :=
  mkOAuthDB (t_mcp_oauth_clients r) (t_mcp_oauth_requests r) (t_mcp_oauth_consents r) (g (t_mcp_oauth_codes r)) (t_mcp_oauth_families r) (t_mcp_oauth_tokens r).
Definition upd_t_mcp_oauth_families (g : gmap uuid oauth_family_row → gmap uuid oauth_family_row) (r : OAuthDB) : OAuthDB :=
  mkOAuthDB (t_mcp_oauth_clients r) (t_mcp_oauth_requests r) (t_mcp_oauth_consents r) (t_mcp_oauth_codes r) (g (t_mcp_oauth_families r)) (t_mcp_oauth_tokens r).
Definition upd_t_mcp_oauth_tokens (g : gmap uuid oauth_token_row → gmap uuid oauth_token_row) (r : OAuthDB) : OAuthDB :=
  mkOAuthDB (t_mcp_oauth_clients r) (t_mcp_oauth_requests r) (t_mcp_oauth_consents r) (t_mcp_oauth_codes r) (t_mcp_oauth_families r) (g (t_mcp_oauth_tokens r)).

Definition upd_t_users (g : gset uuid → gset uuid) (r : IdentityDB) : IdentityDB :=
  mkIdentityDB (g (t_users r)) (t_session_tokens r) (t_organizations r) (t_organization_members r) (t_member_authority_state r) (t_oauth r).
Definition upd_t_session_tokens (g : gmap uuid session_row → gmap uuid session_row) (r : IdentityDB) : IdentityDB :=
  mkIdentityDB (t_users r) (g (t_session_tokens r)) (t_organizations r) (t_organization_members r) (t_member_authority_state r) (t_oauth r).
Definition upd_t_organizations (g : gset uuid → gset uuid) (r : IdentityDB) : IdentityDB :=
  mkIdentityDB (t_users r) (t_session_tokens r) (g (t_organizations r)) (t_organization_members r) (t_member_authority_state r) (t_oauth r).
Definition upd_t_organization_members (g : gmap (uuid * uuid) string → gmap (uuid * uuid) string) (r : IdentityDB) : IdentityDB :=
  mkIdentityDB (t_users r) (t_session_tokens r) (t_organizations r) (g (t_organization_members r)) (t_member_authority_state r) (t_oauth r).
Definition upd_t_member_authority_state (g : gmap (uuid * uuid) (bool * Z) → gmap (uuid * uuid) (bool * Z)) (r : IdentityDB) : IdentityDB :=
  mkIdentityDB (t_users r) (t_session_tokens r) (t_organizations r) (t_organization_members r) (g (t_member_authority_state r)) (t_oauth r).
Definition upd_t_oauth (g : OAuthDB → OAuthDB) (r : IdentityDB) : IdentityDB :=
  mkIdentityDB (t_users r) (t_session_tokens r) (t_organizations r) (t_organization_members r) (t_member_authority_state r) (g (t_oauth r)).

Definition upd_t_projects (g : gmap uuid project_row → gmap uuid project_row) (r : ProjectDB) : ProjectDB :=
  mkProjectDB (g (t_projects r)) (t_environments r) (t_api_keys r) (t_secret_leases r) (t_agent_token_issuance r) (t_token_denylist r).
Definition upd_t_environments (g : gmap uuid environment_row → gmap uuid environment_row) (r : ProjectDB) : ProjectDB :=
  mkProjectDB (t_projects r) (g (t_environments r)) (t_api_keys r) (t_secret_leases r) (t_agent_token_issuance r) (t_token_denylist r).
Definition upd_t_api_keys (g : gmap uuid api_key_row → gmap uuid api_key_row) (r : ProjectDB) : ProjectDB :=
  mkProjectDB (t_projects r) (t_environments r) (g (t_api_keys r)) (t_secret_leases r) (t_agent_token_issuance r) (t_token_denylist r).
Definition upd_t_secret_leases (g : gmap uuid lease_row → gmap uuid lease_row) (r : ProjectDB) : ProjectDB :=
  mkProjectDB (t_projects r) (t_environments r) (t_api_keys r) (g (t_secret_leases r)) (t_agent_token_issuance r) (t_token_denylist r).
Definition upd_t_agent_token_issuance (g : gmap string issuance_row → gmap string issuance_row) (r : ProjectDB) : ProjectDB :=
  mkProjectDB (t_projects r) (t_environments r) (t_api_keys r) (t_secret_leases r) (g (t_agent_token_issuance r)) (t_token_denylist r).
Definition upd_t_token_denylist (g : gmap string denied_row → gmap string denied_row) (r : ProjectDB) : ProjectDB :=
  mkProjectDB (t_projects r) (t_environments r) (t_api_keys r) (t_secret_leases r) (t_agent_token_issuance r) (g (t_token_denylist r)).

Definition upd_t_secrets (g : gmap uuid secret_row → gmap uuid secret_row) (r : SecretDB) : SecretDB :=
  mkSecretDB (g (t_secrets r)) (t_secret_snapshots r) (t_promotion_requests r).
Definition upd_t_secret_snapshots (g : gmap uuid snapshot_row → gmap uuid snapshot_row) (r : SecretDB) : SecretDB :=
  mkSecretDB (t_secrets r) (g (t_secret_snapshots r)) (t_promotion_requests r).
Definition upd_t_promotion_requests (g : gmap uuid promotion_row → gmap uuid promotion_row) (r : SecretDB) : SecretDB :=
  mkSecretDB (t_secrets r) (t_secret_snapshots r) (g (t_promotion_requests r)).

Definition upd_t_vault_keys (g : gmap uuid vault_key_row → gmap uuid vault_key_row) (r : VaultDB) : VaultDB :=
  mkVaultDB (g (t_vault_keys r)) (t_vault_projects r) (t_vault_entries r) (t_vault_revisions r) (t_vault_snapshot_keys r) (t_vault_promotion_bindings r) (t_vault_promotion_effects r) (t_vault_lifecycle r) (t_vault_notifications r).
Definition upd_t_vault_projects (g : gmap uuid uuid → gmap uuid uuid) (r : VaultDB) : VaultDB :=
  mkVaultDB (t_vault_keys r) (g (t_vault_projects r)) (t_vault_entries r) (t_vault_revisions r) (t_vault_snapshot_keys r) (t_vault_promotion_bindings r) (t_vault_promotion_effects r) (t_vault_lifecycle r) (t_vault_notifications r).
Definition upd_t_vault_entries (g : gmap uuid entry_row → gmap uuid entry_row) (r : VaultDB) : VaultDB :=
  mkVaultDB (t_vault_keys r) (t_vault_projects r) (g (t_vault_entries r)) (t_vault_revisions r) (t_vault_snapshot_keys r) (t_vault_promotion_bindings r) (t_vault_promotion_effects r) (t_vault_lifecycle r) (t_vault_notifications r).
Definition upd_t_vault_revisions (g : gmap (uuid * Z) revision_row → gmap (uuid * Z) revision_row) (r : VaultDB) : VaultDB :=
  mkVaultDB (t_vault_keys r) (t_vault_projects r) (t_vault_entries r) (g (t_vault_revisions r)) (t_vault_snapshot_keys r) (t_vault_promotion_bindings r) (t_vault_promotion_effects r) (t_vault_lifecycle r) (t_vault_notifications r).
Definition upd_t_vault_snapshot_keys (g : gmap uuid (uuid * uuid) → gmap uuid (uuid * uuid)) (r : VaultDB) : VaultDB :=
  mkVaultDB (t_vault_keys r) (t_vault_projects r) (t_vault_entries r) (t_vault_revisions r) (g (t_vault_snapshot_keys r)) (t_vault_promotion_bindings r) (t_vault_promotion_effects r) (t_vault_lifecycle r) (t_vault_notifications r).
Definition upd_t_vault_promotion_bindings (g : gmap uuid binding_row → gmap uuid binding_row) (r : VaultDB) : VaultDB :=
  mkVaultDB (t_vault_keys r) (t_vault_projects r) (t_vault_entries r) (t_vault_revisions r) (t_vault_snapshot_keys r) (g (t_vault_promotion_bindings r)) (t_vault_promotion_effects r) (t_vault_lifecycle r) (t_vault_notifications r).
Definition upd_t_vault_promotion_effects (g : gmap (uuid * uuid) (uuid * Z) → gmap (uuid * uuid) (uuid * Z)) (r : VaultDB) : VaultDB :=
  mkVaultDB (t_vault_keys r) (t_vault_projects r) (t_vault_entries r) (t_vault_revisions r) (t_vault_snapshot_keys r) (t_vault_promotion_bindings r) (g (t_vault_promotion_effects r)) (t_vault_lifecycle r) (t_vault_notifications r).
Definition upd_t_vault_lifecycle (g : gmap uuid lifecycle_row → gmap uuid lifecycle_row) (r : VaultDB) : VaultDB :=
  mkVaultDB (t_vault_keys r) (t_vault_projects r) (t_vault_entries r) (t_vault_revisions r) (t_vault_snapshot_keys r) (t_vault_promotion_bindings r) (t_vault_promotion_effects r) (g (t_vault_lifecycle r)) (t_vault_notifications r).
Definition upd_t_vault_notifications (g : gmap uuid notification_row → gmap uuid notification_row) (r : VaultDB) : VaultDB :=
  mkVaultDB (t_vault_keys r) (t_vault_projects r) (t_vault_entries r) (t_vault_revisions r) (t_vault_snapshot_keys r) (t_vault_promotion_bindings r) (t_vault_promotion_effects r) (t_vault_lifecycle r) (g (t_vault_notifications r)).

Definition upd_db_identity (g : IdentityDB → IdentityDB) (r : DB) : DB :=
  mkDB (g (db_identity r)) (db_projects r) (db_secrets r) (db_vault r) (db_jobs r) (db_audit_log r) (db_audit_chain_head r) (db_tools r) (db_accounts r).
Definition upd_db_projects (g : ProjectDB → ProjectDB) (r : DB) : DB :=
  mkDB (db_identity r) (g (db_projects r)) (db_secrets r) (db_vault r) (db_jobs r) (db_audit_log r) (db_audit_chain_head r) (db_tools r) (db_accounts r).
Definition upd_db_secrets (g : SecretDB → SecretDB) (r : DB) : DB :=
  mkDB (db_identity r) (db_projects r) (g (db_secrets r)) (db_vault r) (db_jobs r) (db_audit_log r) (db_audit_chain_head r) (db_tools r) (db_accounts r).
Definition upd_db_vault (g : VaultDB → VaultDB) (r : DB) : DB :=
  mkDB (db_identity r) (db_projects r) (db_secrets r) (g (db_vault r)) (db_jobs r) (db_audit_log r) (db_audit_chain_head r) (db_tools r) (db_accounts r).
Definition upd_db_jobs (g : gmap uuid job_row → gmap uuid job_row) (r : DB) : DB :=
  mkDB (db_identity r) (db_projects r) (db_secrets r) (db_vault r) (g (db_jobs r)) (db_audit_log r) (db_audit_chain_head r) (db_tools r) (db_accounts r).
Definition upd_db_audit_log (g : gmap uuid audit_row → gmap uuid audit_row) (r : DB) : DB :=
  mkDB (db_identity r) (db_projects r) (db_secrets r) (db_vault r) (db_jobs r) (g (db_audit_log r)) (db_audit_chain_head r) (db_tools r) (db_accounts r).
Definition upd_db_audit_chain_head (g : string * Z → string * Z) (r : DB) : DB :=
  mkDB (db_identity r) (db_projects r) (db_secrets r) (db_vault r) (db_jobs r) (db_audit_log r) (g (db_audit_chain_head r)) (db_tools r) (db_accounts r).

Definition upd_db_tools (g : ToolDB → ToolDB) (r : DB) : DB :=
  mkDB (db_identity r) (db_projects r) (db_secrets r) (db_vault r) (db_jobs r) (db_audit_log r) (db_audit_chain_head r) (g (db_tools r)) (db_accounts r).

Definition upd_t_tool_artifacts (g : gmap uuid artifact_row → gmap uuid artifact_row) (r : ToolDB) : ToolDB :=
  mkToolDB (g (t_tool_artifacts r)) (t_tool_profiles r) (t_tool_packages r) (t_tool_connections r) (t_tool_bindings r) (t_tool_workloads r) (t_tool_grants r) (t_tool_runs r) (t_tool_resolutions r) (t_tool_operations r) (t_tool_tickets r) (t_tool_attempts r) (t_tool_receipts r) (t_tool_spool r) (t_tool_checks r).
Definition upd_t_tool_profiles (g : gmap uuid profile_row → gmap uuid profile_row) (r : ToolDB) : ToolDB :=
  mkToolDB (t_tool_artifacts r) (g (t_tool_profiles r)) (t_tool_packages r) (t_tool_connections r) (t_tool_bindings r) (t_tool_workloads r) (t_tool_grants r) (t_tool_runs r) (t_tool_resolutions r) (t_tool_operations r) (t_tool_tickets r) (t_tool_attempts r) (t_tool_receipts r) (t_tool_spool r) (t_tool_checks r).
Definition upd_t_tool_packages (g : gmap uuid package_row → gmap uuid package_row) (r : ToolDB) : ToolDB :=
  mkToolDB (t_tool_artifacts r) (t_tool_profiles r) (g (t_tool_packages r)) (t_tool_connections r) (t_tool_bindings r) (t_tool_workloads r) (t_tool_grants r) (t_tool_runs r) (t_tool_resolutions r) (t_tool_operations r) (t_tool_tickets r) (t_tool_attempts r) (t_tool_receipts r) (t_tool_spool r) (t_tool_checks r).
Definition upd_t_tool_connections (g : gmap uuid connection_row → gmap uuid connection_row) (r : ToolDB) : ToolDB :=
  mkToolDB (t_tool_artifacts r) (t_tool_profiles r) (t_tool_packages r) (g (t_tool_connections r)) (t_tool_bindings r) (t_tool_workloads r) (t_tool_grants r) (t_tool_runs r) (t_tool_resolutions r) (t_tool_operations r) (t_tool_tickets r) (t_tool_attempts r) (t_tool_receipts r) (t_tool_spool r) (t_tool_checks r).
Definition upd_t_tool_bindings (g : gmap uuid tool_binding_row → gmap uuid tool_binding_row) (r : ToolDB) : ToolDB :=
  mkToolDB (t_tool_artifacts r) (t_tool_profiles r) (t_tool_packages r) (t_tool_connections r) (g (t_tool_bindings r)) (t_tool_workloads r) (t_tool_grants r) (t_tool_runs r) (t_tool_resolutions r) (t_tool_operations r) (t_tool_tickets r) (t_tool_attempts r) (t_tool_receipts r) (t_tool_spool r) (t_tool_checks r).
Definition upd_t_tool_workloads (g : gmap uuid workload_row → gmap uuid workload_row) (r : ToolDB) : ToolDB :=
  mkToolDB (t_tool_artifacts r) (t_tool_profiles r) (t_tool_packages r) (t_tool_connections r) (t_tool_bindings r) (g (t_tool_workloads r)) (t_tool_grants r) (t_tool_runs r) (t_tool_resolutions r) (t_tool_operations r) (t_tool_tickets r) (t_tool_attempts r) (t_tool_receipts r) (t_tool_spool r) (t_tool_checks r).
Definition upd_t_tool_grants (g : gmap uuid tool_grant_row → gmap uuid tool_grant_row) (r : ToolDB) : ToolDB :=
  mkToolDB (t_tool_artifacts r) (t_tool_profiles r) (t_tool_packages r) (t_tool_connections r) (t_tool_bindings r) (t_tool_workloads r) (g (t_tool_grants r)) (t_tool_runs r) (t_tool_resolutions r) (t_tool_operations r) (t_tool_tickets r) (t_tool_attempts r) (t_tool_receipts r) (t_tool_spool r) (t_tool_checks r).
Definition upd_t_tool_runs (g : gmap uuid run_row → gmap uuid run_row) (r : ToolDB) : ToolDB :=
  mkToolDB (t_tool_artifacts r) (t_tool_profiles r) (t_tool_packages r) (t_tool_connections r) (t_tool_bindings r) (t_tool_workloads r) (t_tool_grants r) (g (t_tool_runs r)) (t_tool_resolutions r) (t_tool_operations r) (t_tool_tickets r) (t_tool_attempts r) (t_tool_receipts r) (t_tool_spool r) (t_tool_checks r).
Definition upd_t_tool_resolutions (g : gmap uuid resolution_row → gmap uuid resolution_row) (r : ToolDB) : ToolDB :=
  mkToolDB (t_tool_artifacts r) (t_tool_profiles r) (t_tool_packages r) (t_tool_connections r) (t_tool_bindings r) (t_tool_workloads r) (t_tool_grants r) (t_tool_runs r) (g (t_tool_resolutions r)) (t_tool_operations r) (t_tool_tickets r) (t_tool_attempts r) (t_tool_receipts r) (t_tool_spool r) (t_tool_checks r).
Definition upd_t_tool_operations (g : gmap uuid operation_row → gmap uuid operation_row) (r : ToolDB) : ToolDB :=
  mkToolDB (t_tool_artifacts r) (t_tool_profiles r) (t_tool_packages r) (t_tool_connections r) (t_tool_bindings r) (t_tool_workloads r) (t_tool_grants r) (t_tool_runs r) (t_tool_resolutions r) (g (t_tool_operations r)) (t_tool_tickets r) (t_tool_attempts r) (t_tool_receipts r) (t_tool_spool r) (t_tool_checks r).
Definition upd_t_tool_tickets (g : gmap uuid ticket_row → gmap uuid ticket_row) (r : ToolDB) : ToolDB :=
  mkToolDB (t_tool_artifacts r) (t_tool_profiles r) (t_tool_packages r) (t_tool_connections r) (t_tool_bindings r) (t_tool_workloads r) (t_tool_grants r) (t_tool_runs r) (t_tool_resolutions r) (t_tool_operations r) (g (t_tool_tickets r)) (t_tool_attempts r) (t_tool_receipts r) (t_tool_spool r) (t_tool_checks r).
Definition upd_t_tool_attempts (g : gmap (uuid * Z) attempt_row → gmap (uuid * Z) attempt_row) (r : ToolDB) : ToolDB :=
  mkToolDB (t_tool_artifacts r) (t_tool_profiles r) (t_tool_packages r) (t_tool_connections r) (t_tool_bindings r) (t_tool_workloads r) (t_tool_grants r) (t_tool_runs r) (t_tool_resolutions r) (t_tool_operations r) (t_tool_tickets r) (g (t_tool_attempts r)) (t_tool_receipts r) (t_tool_spool r) (t_tool_checks r).
Definition upd_t_tool_receipts (g : gmap uuid receipt_row → gmap uuid receipt_row) (r : ToolDB) : ToolDB :=
  mkToolDB (t_tool_artifacts r) (t_tool_profiles r) (t_tool_packages r) (t_tool_connections r) (t_tool_bindings r) (t_tool_workloads r) (t_tool_grants r) (t_tool_runs r) (t_tool_resolutions r) (t_tool_operations r) (t_tool_tickets r) (t_tool_attempts r) (g (t_tool_receipts r)) (t_tool_spool r) (t_tool_checks r).
Definition upd_t_tool_spool (g : gmap uuid spool_row → gmap uuid spool_row) (r : ToolDB) : ToolDB :=
  mkToolDB (t_tool_artifacts r) (t_tool_profiles r) (t_tool_packages r) (t_tool_connections r) (t_tool_bindings r) (t_tool_workloads r) (t_tool_grants r) (t_tool_runs r) (t_tool_resolutions r) (t_tool_operations r) (t_tool_tickets r) (t_tool_attempts r) (t_tool_receipts r) (g (t_tool_spool r)) (t_tool_checks r).
Definition upd_t_tool_checks (g : gmap uuid check_row → gmap uuid check_row) (r : ToolDB) : ToolDB :=
  mkToolDB (t_tool_artifacts r) (t_tool_profiles r) (t_tool_packages r) (t_tool_connections r) (t_tool_bindings r) (t_tool_workloads r) (t_tool_grants r) (t_tool_runs r) (t_tool_resolutions r) (t_tool_operations r) (t_tool_tickets r) (t_tool_attempts r) (t_tool_receipts r) (t_tool_spool r) (g (t_tool_checks r)).

Definition upd_db_accounts (g : AccountDB → AccountDB) (r : DB) : DB :=
  mkDB (db_identity r) (db_projects r) (db_secrets r) (db_vault r) (db_jobs r) (db_audit_log r) (db_audit_chain_head r) (db_tools r) (g (db_accounts r)).

Definition upd_t_password_hashes (g : gmap uuid string → gmap uuid string) (r : AccountDB) : AccountDB :=
  mkAccountDB (g (t_password_hashes r)) (t_organization_owners r) (t_session_details r) (t_social_identities r) (t_social_auth_flows r) (t_identity_verified_contacts r) (t_identity_proofs r) (t_identity_proof_deliveries r) (t_identity_invitations r) (t_identity_offboarding_receipts r) (t_identity_offboarding_previews r) (t_user_emails r) (t_auth_login_attempts r).
Definition upd_t_organization_owners (g : gmap uuid uuid → gmap uuid uuid) (r : AccountDB) : AccountDB :=
  mkAccountDB (t_password_hashes r) (g (t_organization_owners r)) (t_session_details r) (t_social_identities r) (t_social_auth_flows r) (t_identity_verified_contacts r) (t_identity_proofs r) (t_identity_proof_deliveries r) (t_identity_invitations r) (t_identity_offboarding_receipts r) (t_identity_offboarding_previews r) (t_user_emails r) (t_auth_login_attempts r).
Definition upd_t_session_details (g : gmap uuid session_detail_row → gmap uuid session_detail_row) (r : AccountDB) : AccountDB :=
  mkAccountDB (t_password_hashes r) (t_organization_owners r) (g (t_session_details r)) (t_social_identities r) (t_social_auth_flows r) (t_identity_verified_contacts r) (t_identity_proofs r) (t_identity_proof_deliveries r) (t_identity_invitations r) (t_identity_offboarding_receipts r) (t_identity_offboarding_previews r) (t_user_emails r) (t_auth_login_attempts r).
Definition upd_t_social_identities (g : gmap (string * string) social_row → gmap (string * string) social_row) (r : AccountDB) : AccountDB :=
  mkAccountDB (t_password_hashes r) (t_organization_owners r) (t_session_details r) (g (t_social_identities r)) (t_social_auth_flows r) (t_identity_verified_contacts r) (t_identity_proofs r) (t_identity_proof_deliveries r) (t_identity_invitations r) (t_identity_offboarding_receipts r) (t_identity_offboarding_previews r) (t_user_emails r) (t_auth_login_attempts r).
Definition upd_t_social_auth_flows (g : gmap string flow_row → gmap string flow_row) (r : AccountDB) : AccountDB :=
  mkAccountDB (t_password_hashes r) (t_organization_owners r) (t_session_details r) (t_social_identities r) (g (t_social_auth_flows r)) (t_identity_verified_contacts r) (t_identity_proofs r) (t_identity_proof_deliveries r) (t_identity_invitations r) (t_identity_offboarding_receipts r) (t_identity_offboarding_previews r) (t_user_emails r) (t_auth_login_attempts r).
Definition upd_t_identity_verified_contacts (g : gmap (uuid * string) contact_row → gmap (uuid * string) contact_row) (r : AccountDB) : AccountDB :=
  mkAccountDB (t_password_hashes r) (t_organization_owners r) (t_session_details r) (t_social_identities r) (t_social_auth_flows r) (g (t_identity_verified_contacts r)) (t_identity_proofs r) (t_identity_proof_deliveries r) (t_identity_invitations r) (t_identity_offboarding_receipts r) (t_identity_offboarding_previews r) (t_user_emails r) (t_auth_login_attempts r).
Definition upd_t_identity_proofs (g : gmap uuid proof_row → gmap uuid proof_row) (r : AccountDB) : AccountDB :=
  mkAccountDB (t_password_hashes r) (t_organization_owners r) (t_session_details r) (t_social_identities r) (t_social_auth_flows r) (t_identity_verified_contacts r) (g (t_identity_proofs r)) (t_identity_proof_deliveries r) (t_identity_invitations r) (t_identity_offboarding_receipts r) (t_identity_offboarding_previews r) (t_user_emails r) (t_auth_login_attempts r).
Definition upd_t_identity_proof_deliveries (g : gmap uuid delivery_row → gmap uuid delivery_row) (r : AccountDB) : AccountDB :=
  mkAccountDB (t_password_hashes r) (t_organization_owners r) (t_session_details r) (t_social_identities r) (t_social_auth_flows r) (t_identity_verified_contacts r) (t_identity_proofs r) (g (t_identity_proof_deliveries r)) (t_identity_invitations r) (t_identity_offboarding_receipts r) (t_identity_offboarding_previews r) (t_user_emails r) (t_auth_login_attempts r).
Definition upd_t_identity_invitations (g : gmap uuid invitation_row → gmap uuid invitation_row) (r : AccountDB) : AccountDB :=
  mkAccountDB (t_password_hashes r) (t_organization_owners r) (t_session_details r) (t_social_identities r) (t_social_auth_flows r) (t_identity_verified_contacts r) (t_identity_proofs r) (t_identity_proof_deliveries r) (g (t_identity_invitations r)) (t_identity_offboarding_receipts r) (t_identity_offboarding_previews r) (t_user_emails r) (t_auth_login_attempts r).
Definition upd_t_identity_offboarding_receipts (g : gmap uuid offboarding_row → gmap uuid offboarding_row) (r : AccountDB) : AccountDB :=
  mkAccountDB (t_password_hashes r) (t_organization_owners r) (t_session_details r) (t_social_identities r) (t_social_auth_flows r) (t_identity_verified_contacts r) (t_identity_proofs r) (t_identity_proof_deliveries r) (t_identity_invitations r) (g (t_identity_offboarding_receipts r)) (t_identity_offboarding_previews r) (t_user_emails r) (t_auth_login_attempts r).
Definition upd_t_identity_offboarding_previews (g : gmap uuid preview_row → gmap uuid preview_row) (r : AccountDB) : AccountDB :=
  mkAccountDB (t_password_hashes r) (t_organization_owners r) (t_session_details r) (t_social_identities r) (t_social_auth_flows r) (t_identity_verified_contacts r) (t_identity_proofs r) (t_identity_proof_deliveries r) (t_identity_invitations r) (t_identity_offboarding_receipts r) (g (t_identity_offboarding_previews r)) (t_user_emails r) (t_auth_login_attempts r).
Definition upd_t_user_emails (g : gmap uuid string → gmap uuid string) (r : AccountDB) : AccountDB :=
  mkAccountDB (t_password_hashes r) (t_organization_owners r) (t_session_details r) (t_social_identities r) (t_social_auth_flows r) (t_identity_verified_contacts r) (t_identity_proofs r) (t_identity_proof_deliveries r) (t_identity_invitations r) (t_identity_offboarding_receipts r) (t_identity_offboarding_previews r) (g (t_user_emails r)) (t_auth_login_attempts r).
Definition upd_t_auth_login_attempts (g : gmap string login_row → gmap string login_row) (r : AccountDB) : AccountDB :=
  mkAccountDB (t_password_hashes r) (t_organization_owners r) (t_session_details r) (t_social_identities r) (t_social_auth_flows r) (t_identity_verified_contacts r) (t_identity_proofs r) (t_identity_proof_deliveries r) (t_identity_invitations r) (t_identity_offboarding_receipts r) (t_identity_offboarding_previews r) (t_user_emails r) (g (t_auth_login_attempts r)).

Definition upd_w_db (g : DB → DB) (r : World) : World :=
  mkWorld (g (w_db r)) (w_now r) (w_rng r) (w_faults r) (w_locks r).
Definition upd_w_now (g : time → time) (r : World) : World :=
  mkWorld (w_db r) (g (w_now r)) (w_rng r) (w_faults r) (w_locks r).
Definition upd_w_rng (g : N → N) (r : World) : World :=
  mkWorld (w_db r) (w_now r) (g (w_rng r)) (w_faults r) (w_locks r).
Definition upd_w_faults (g : list bool → list bool) (r : World) : World :=
  mkWorld (w_db r) (w_now r) (w_rng r) (g (w_faults r)) (w_locks r).
Definition upd_w_locks (g : list lock → list lock) (r : World) : World :=
  mkWorld (w_db r) (w_now r) (w_rng r) (w_faults r) (g (w_locks r)).

(** No OAuth state. *)
Definition empty_oauth : OAuthDB := mkOAuthDB ∅ ∅ ∅ ∅ ∅ ∅.

(** No tools. *)
Definition empty_tools : ToolDB := mkToolDB ∅ ∅ ∅ ∅ ∅ ∅ ∅ ∅ ∅ ∅ ∅ ∅ ∅ ∅ ∅.

(** No accounts. *)
Definition empty_accounts : AccountDB := mkAccountDB ∅ ∅ ∅ ∅ ∅ ∅ ∅ ∅ ∅ ∅ ∅ ∅ ∅.

(** The empty database, and a world that holds a database, for evaluation. *)
Definition empty_db : DB :=
  mkDB (mkIdentityDB ∅ ∅ ∅ ∅ ∅ empty_oauth) (mkProjectDB ∅ ∅ ∅ ∅ ∅ ∅) (mkSecretDB ∅ ∅ ∅)
       (mkVaultDB ∅ ∅ ∅ ∅ ∅ ∅ ∅ ∅ ∅) ∅ ∅ ("", 0%Z) empty_tools empty_accounts.
Definition world_of (db : DB) (t : time) : World := mkWorld db t 1 [] [].
