(* ===== verification/Database.v ===== *)
(** * Statements and transactions

    The operations of [database/sql] the repository uses, over [World]: a
    statement may fail at the driver (the fault list decides), reads see the
    current database, writes may be refused by a constraint, and a transaction
    restores the database unless it commits.  The lemmas are the inversion
    principles and the preservation calculus ([keeps]) every component's
    proofs go through. *)
From S2P Require Import Prelude GoStrings GoEncoding Schema.

(** ** Definitions *)

Abbreviation Tx := (M World).

Definition ErrNoRows : string := "sql.ErrNoRows".
Definition driver_error : error := Sentinel "driver error".
Definition constraint_error : error := Sentinel "constraint violation".

(** The world after one statement has been sent. *)
Definition ticked (w : World) : World := upd_w_faults (@tail bool) w.

Definition tick : Tx unit := λ w,
  (if head (w_faults w) is Some true then Err driver_error else Ok tt, ticked w).

Arguments tick : simpl never.

(** [SELECT] of any number of rows. *)
Definition query {A} (f : DB → A) : Tx A :=
  _ ← tick; get (f ∘ w_db).

(** [QueryRow(...).Scan(...)]: no row is [sql.ErrNoRows]. *)
Definition query_row {A} (f : DB → option A) : Tx A :=
  r ← query f;
  match r with Some a => mret a | None => fail (Sentinel ErrNoRows) end.

(** [INSERT]/[UPDATE]/[DELETE]: [None] is a constraint violation; the result is
    the number of rows affected. *)
Definition exec_n (f : DB → option (DB * Z)) : Tx Z :=
  _ ← tick;
  db ← get w_db;
  match f db with
  | Some (db', n) => _ ← modify (upd_w_db (const db')); mret n
  | None => fail constraint_error
  end.
Definition exec (f : DB → option DB) : Tx unit :=
  _ ← exec_n (λ db, db' ← f db; Some (db', 0%Z)); mret ().

(** [exec] of a statement no constraint can refuse. *)
Definition exec_ (f : DB → DB) : Tx unit := exec (Some ∘ f).

(** A row lock ([FOR UPDATE], or the no-op [UPDATE] that takes it). *)
Definition note_lock (l : lock) : Tx unit := modify (upd_w_locks (λ ls, ls ++ [l])).

Definition now : Tx time := get w_now.

(** [if errors.Is(err, sql.ErrNoRows) { return e }]. *)
Definition no_rows_is {A} (e : error) (m : Tx A) : Tx A := λ w,
  match m w with
  | (Err e', w') => (Err (if errors_Is e' ErrNoRows then e else e'), w')
  | r => r
  end.

(** [if err != nil { return fmt.Errorf("msg: %w", err) }]. *)
Definition wrap_err {A} (msg : string) (m : Tx A) : Tx A := λ w,
  match m w with
  | (Err e, w') => (Err (Wrapf msg e), w')
  | r => r
  end.

(** [Begin], the body, and [Commit] when the body says so; every other exit
    rolls back ([defer tx.Rollback()]). *)
Definition with_tx_opt {A} (body : Tx (A * bool)) : Tx A := λ w,
  match tick w with
  | (Err e, w1) => (Err e, w1)
  | (Ok _, w1) =>
      match body (upd_w_locks (const []) w1) with
      | (Ok (a, true), w2) =>
          match tick w2 with
          | (Ok _, w3) => (Ok a, w3)
          | (Err e, w3) => (Err e, upd_w_db (const (w_db w)) w3)
          end
      | (Ok (a, false), w2) => (Ok a, upd_w_db (const (w_db w)) w2)
      | (Err e, w2) => (Err e, upd_w_db (const (w_db w)) w2)
      end
  end.
Definition with_tx {A} (body : Tx A) : Tx A := with_tx_opt (a ← body; mret (a, true)).
(** The same, where a failed [Begin] is reported as [e]. *)
Definition with_tx_or {A} (e : error) (body : Tx (A * bool)) : Tx A := λ w,
  match tick w with
  | (Err _, w1) => (Err e, w1)
  | _ => with_tx_opt body w
  end.
(** A transaction that is always rolled back. *)
Definition rollback_tx {A} (body : Tx A) : Tx A := with_tx_opt (a ← body; mret (a, false)).

(** Rows of a table that satisfy a condition, in primary-key order. *)
Definition by_id {V} (a b : uuid * V) : Prop := (a.1 <= b.1)%N.
#[export] Instance by_id_dec {V} : RelDecision (@by_id V).
Proof. intros a b. unfold by_id. apply _. Defined.
#[export] Instance by_id_total {V} : Total (@by_id V).
Proof. intros a b. unfold by_id. lia. Qed.
Definition select {V} (p : uuid → V → bool) (t : gmap uuid V) : list (uuid * V) :=
  merge_sort by_id (filter (λ kv, p kv.1 kv.2 = true) (map_to_list t)).

(** [UPDATE t SET ... WHERE p], and the number of rows it affects. *)
Definition update_where {K V} `{Countable K} (p : K → V → bool) (g : V → V) (t : gmap K V) : gmap K V :=
  map_imap (λ k v, Some (if p k v then g v else v)) t.
Definition count_where {K V} `{Countable K} (p : K → V → bool) (t : gmap K V) : Z :=
  Z.of_nat (size (filter (λ kv, p kv.1 kv.2 = true) t)).
(** [DELETE FROM t WHERE p]. *)
Definition delete_where {K V} `{Countable K} (p : K → V → bool) (t : gmap K V) : gmap K V :=
  filter (λ kv, p kv.1 kv.2 = false) t.

Arguments update_where : simpl never.
Arguments count_where : simpl never.
Arguments delete_where : simpl never.
Arguments select : simpl never.

(** ** Inversion *)

Lemma bind_Ok {S A B} (m : M S A) (f : A → M S B) s b s' :
  (m ≫= f) s = (Ok b, s') ↔ ∃ a s1, m s = (Ok a, s1) ∧ f a s1 = (Ok b, s').
Proof.
  unfold mbind, M_bind. destruct (m s) as [[a|e] s1]; split; [by eauto| | |].
  - by intros (a' & s1' & [= <- <-] & H).
  - done.
  - by intros (a' & s1' & [=] & _).
Qed.

Lemma bind_Err {S A B} (m : M S A) (f : A → M S B) s e s' :
  (m ≫= f) s = (Err e, s') ↔
  m s = (Err e, s') ∨ ∃ a s1, m s = (Ok a, s1) ∧ f a s1 = (Err e, s').
Proof.
  unfold mbind, M_bind. destruct (m s) as [[a|e'] s1]; split; try naive_solver.
Qed.

(** Either way a sequence runs its first part. *)
Lemma bind_run {S A B} (m : M S A) (f : A → M S B) s r s' :
  (m ≫= f) s = (r, s') →
  (∃ a s1, m s = (Ok a, s1) ∧ f a s1 = (r, s')) ∨ (∃ e, m s = (Err e, s') ∧ r = Err e).
Proof. unfold mbind, M_bind. destruct (m s) as [[a|e] s1]; [eauto|]. intros [= <- <-]. eauto. Qed.

Lemma bind_then {S A B} (m : M S A) (f : A → M S B) s a s1 : m s = (Ok a, s1) → (m ≫= f) s = f a s1.
Proof. unfold mbind, M_bind. by intros ->. Qed.

Lemma ret_Ok {S A} (a b : A) (s s' : S) : (mret a : M S A) s = (Ok b, s') ↔ a = b ∧ s = s'.
Proof. unfold mret, M_ret. naive_solver. Qed.

Lemma check_Ok {S} b e u (s s' : S) : check b e s = (Ok u, s') ↔ b = true ∧ s = s'.
Proof. destruct b; simpl; unfold mret, M_ret, fail; destruct u; naive_solver. Qed.

Lemma on_err_Ok {S A} e (m : M S A) s a s' : on_err e m s = (Ok a, s') ↔ m s = (Ok a, s').
Proof. unfold on_err. destruct (m s) as [[]]; naive_solver. Qed.

Lemma on_err_Err {S A} e e' (m : M S A) s s' :
  on_err e m s = (Err e', s') ↔ e' = e ∧ ∃ e0, m s = (Err e0, s').
Proof. unfold on_err. destruct (m s) as [[]]; naive_solver. Qed.

Lemma wrap_err_Ok {A} msg (m : Tx A) s a s' : wrap_err msg m s = (Ok a, s') ↔ m s = (Ok a, s').
Proof. unfold wrap_err. destruct (m s) as [[]]; naive_solver. Qed.

Lemma no_rows_is_Ok {A} e (m : Tx A) s a s' : no_rows_is e m s = (Ok a, s') ↔ m s = (Ok a, s').
Proof. unfold no_rows_is. destruct (m s) as [[]]; naive_solver. Qed.

Lemma attempt_Ok {S A} (m : M S A) s r s' : attempt m s = (Ok r, s') ↔ m s = (r, s').
Proof. unfold attempt. destruct (m s). naive_solver. Qed.

Lemma get_Ok {S A} (f : S → A) s a s' : get f s = (Ok a, s') ↔ a = f s ∧ s' = s.
Proof. unfold get. naive_solver. Qed.

Lemma tick_Ok u w w' : tick w = (Ok u, w') → w' = ticked w.
Proof. unfold tick. repeat case_match; naive_solver. Qed.

Lemma query_Ok {A} (f : DB → A) a w w' :
  query f w = (Ok a, w') → a = f (w_db w) ∧ w' = ticked w.
Proof.
  unfold query. rewrite bind_Ok. intros ([] & w1 & ->%tick_Ok & H).
  by apply get_Ok in H as [-> ->].
Qed.

Lemma query_row_Ok {A} (f : DB → option A) a w w' :
  query_row f w = (Ok a, w') → f (w_db w) = Some a ∧ w' = ticked w.
Proof.
  unfold query_row. rewrite bind_Ok. intros (r & w1 & [-> ->]%query_Ok & H).
  destruct (f (w_db w)) as [x|]; [|done]. by apply ret_Ok in H as [-> <-].
Qed.

(** Without driver failures a read of an existing row succeeds. *)
Lemma query_row_run {A} (f : DB → option A) a w :
  w_faults w = [] → f (w_db w) = Some a → query_row f w = (Ok a, ticked w).
Proof.
  intros Hw Hf. unfold query_row, query, tick, mbind, M_bind, get. rewrite Hw. cbn. by rewrite Hf.
Qed.

(** Without driver failures a write no constraint refuses succeeds. *)
Lemma exec_run f w db : w_faults w = [] → f (w_db w) = Some db → exec f w = (Ok (), upd_w_db (const db) (ticked w)).
Proof. intros Hw Hf. unfold exec, exec_n, tick, mbind, M_bind, get. rewrite Hw. cbn. by rewrite Hf. Qed.
Lemma exec__run f w : w_faults w = [] → exec_ f w = (Ok (), upd_w_db (const (f (w_db w))) (ticked w)).
Proof. intros Hw. by apply exec_run. Qed.

Lemma exec_n_Ok f n w w' :
  exec_n f w = (Ok n, w') →
  ∃ db', f (w_db w) = Some (db', n) ∧ w' = upd_w_db (const db') (ticked w).
Proof.
  unfold exec_n. rewrite bind_Ok. intros ([] & w1 & ->%tick_Ok & H).
  apply bind_Ok in H as (db & w1 & [-> ->]%get_Ok & H).
  change (w_db (ticked w)) with (w_db w) in H.
  destruct (f (w_db w)) as [[db' n']|]; [|done].
  apply bind_Ok in H as (u & w1 & H1 & H). apply ret_Ok in H as [-> <-].
  injection H1 as _ <-. by eauto.
Qed.

Lemma exec_Ok f u w w' :
  exec f w = (Ok u, w') →
  ∃ db', f (w_db w) = Some db' ∧ w' = upd_w_db (const db') (ticked w).
Proof.
  unfold exec. rewrite bind_Ok. intros (n & w1 & (db' & Hf & ->)%exec_n_Ok & H).
  apply ret_Ok in H as [_ <-]. destruct (f (w_db w)) as [db''|]; simpl in Hf; simplify_eq. by eauto.
Qed.

(** A write that fails changes nothing. *)
Lemma exec_Err f e w w' : exec f w = (Err e, w') → w_db w' = w_db w.
Proof.
  unfold exec. intros [H|(n & w1 & _ & H)]%bind_Err; [|done]. unfold exec_n in H. apply bind_Err in H as [H|(u & w1 & Hw & H)].
  - by injection H as _ <-.
  - apply tick_Ok in Hw as ->. apply bind_Err in H as [H|(db & w1 & [-> ->]%get_Ok & H)]; [done|].
    destruct (_ ≫= _) as [[]|]; [by apply bind_Err in H as [[=]|(? & ? & _ & [=])]|by injection H as _ <-].
Qed.

Lemma exec__Ok f u w w' :
  exec_ f w = (Ok u, w') → w' = upd_w_db (const (f (w_db w))) (ticked w).
Proof. unfold exec_. intros (db' & [= <-] & ->)%exec_Ok. done. Qed.

Lemma note_lock_Ok l u w w' :
  note_lock l w = (Ok u, w') → w' = upd_w_locks (λ ls, ls ++ [l]) w.
Proof. unfold note_lock, modify. by intros [=]. Qed.

Lemma now_Ok t w w' : now w = (Ok t, w') → t = w_now w ∧ w' = w.
Proof. unfold now. by rewrite get_Ok. Qed.

Lemma run_pair {A} (m : Tx A) w x : (m w).1 = x → m w = (x, (m w).2).
Proof. intros <-. by destruct (m w). Qed.
(** The branch a run took. *)
Tactic Notation "branch" ident(H) "as" ident(B) :=
  cbv beta zeta in H;
  match type of H with
  | (if ?b then _ else _) _ = _ => destruct b eqn:B; cbn [negb] in H; try discriminate H
  end.
(** The same, of a read that found its row. *)
Tactic Notation "passed" ident(H) "as" ident(B) :=
  match type of H with
  | (if ?b then _ else _) = _ => destruct b eqn:B; try discriminate H; try (injection H as H)
  end.

(** Splits a successful run into the successful runs of its steps; later files
    add the steps of their own operations to [step_hook]. *)
Ltac step_hook := fail.
Ltac step_Ok :=
  match goal with
  | H : (_ ≫= _) _ = (Ok _, _) |- _ =>
      let a := fresh "a" in let w := fresh "w" in let H1 := fresh H in
      apply bind_Ok in H as (a & w & H1 & H)
  | H : mret _ _ = (Ok _, _) |- _ => apply ret_Ok in H as [? ?]
  | H : fail _ _ = (Ok _, _) |- _ => discriminate H
  | H : check _ _ _ = (Ok _, _) |- _ => apply check_Ok in H as [? ?]
  | H : on_err _ _ _ = (Ok _, _) |- _ => apply on_err_Ok in H
  | H : wrap_err _ _ _ = (Ok _, _) |- _ => apply wrap_err_Ok in H
  | H : no_rows_is _ _ _ = (Ok _, _) |- _ => apply no_rows_is_Ok in H
  | H : query_row _ _ = (Ok _, _) |- _ => apply query_row_Ok in H as [? ?]
  | H : query _ _ = (Ok _, _) |- _ => apply query_Ok in H as [? ?]
  | H : exec_n _ _ = (Ok _, _) |- _ =>
      let db := fresh "db" in apply exec_n_Ok in H as (db & ? & ?)
  | H : exec _ _ = (Ok _, _) |- _ =>
      let db := fresh "db" in apply exec_Ok in H as (db & ? & ?)
  | H : exec_ _ _ = (Ok _, _) |- _ => apply exec__Ok in H
  | H : note_lock _ _ = (Ok _, _) |- _ => apply note_lock_Ok in H
  | H : now _ = (Ok _, _) |- _ => apply now_Ok in H as [? ?]
  | H : get _ _ = (Ok _, _) |- _ => apply get_Ok in H as [? ?]
  | _ => step_hook
  end.
Ltac steps := repeat (step_Ok; simplify_eq).

(** ** Preservation

    [keeps R m]: whatever [m] does and whether or not it succeeds, the database
    it leaves is related by [R] to the one it started from. *)
Definition keeps {A} (R : DB → DB → Prop) (m : Tx A) : Prop :=
  ∀ w r w', m w = (r, w') → R (w_db w) (w_db w').

Create HintDb keeps.

Section Keeps.
Context (R : DB → DB → Prop) `{!PreOrder R}.

Lemma keeps_ret {A} (a : A) : keeps R (mret a).
Proof. intros w r w' [= _ <-]. reflexivity. Qed.
Lemma keeps_fail {A} e : keeps R (fail e : Tx A).
Proof. intros w r w' [= _ <-]. reflexivity. Qed.
Lemma keeps_get {A} (f : World → A) : keeps R (get f).
Proof. intros w r w' [= _ <-]. reflexivity. Qed.
Lemma keeps_bind {A B} (m : Tx A) (f : A → Tx B) :
  keeps R m → (∀ a, keeps R (f a)) → keeps R (m ≫= f).
Proof.
  intros Hm Hf w r w' H. unfold mbind, M_bind in H.
  destruct (m w) as [[a|e] w1] eqn:E; [|simplify_eq; by eapply Hm].
  etrans; [by eapply Hm|by eapply Hf].
Qed.
Lemma keeps_check b e : keeps R (check b e : Tx unit).
Proof. destruct b; [apply keeps_ret|apply keeps_fail]. Qed.
Lemma keeps_on_err {A} e (m : Tx A) : keeps R m → keeps R (on_err e m).
Proof. intros Hm w r w' H. unfold on_err in H. destruct (m w) as [[] w1] eqn:E; simplify_eq; by eapply Hm. Qed.
Lemma keeps_wrap_err {A} e (m : Tx A) : keeps R m → keeps R (wrap_err e m).
Proof. intros Hm w r w' H. unfold wrap_err in H. destruct (m w) as [[] w1] eqn:E; simplify_eq; by eapply Hm. Qed.
Lemma keeps_no_rows_is {A} e (m : Tx A) : keeps R m → keeps R (no_rows_is e m).
Proof. intros Hm w r w' H. unfold no_rows_is in H. destruct (m w) as [[] w1] eqn:E; simplify_eq; by eapply Hm. Qed.
Lemma keeps_attempt {A} (m : Tx A) : keeps R m → keeps R (attempt m).
Proof. intros Hm w r w' H. unfold attempt in H. destruct (m w) as [x w1] eqn:E; simplify_eq; by eapply Hm. Qed.
Lemma keeps_for_each {A} (l : list A) (body : A → Tx unit) :
  (∀ x, keeps R (body x)) → keeps R (for_each l body).
Proof. intros Hb. induction l; simpl; [apply keeps_ret|by apply keeps_bind]. Qed.
Lemma keeps_for_fold {A B} (l : list A) (acc : B) (body : B → A → Tx B) :
  (∀ b x, keeps R (body b x)) → keeps R (for_fold l acc body).
Proof. intros Hb. revert acc. induction l; intros acc; simpl; [apply keeps_ret|by apply keeps_bind]. Qed.
Lemma keeps_tick : keeps R tick.
Proof. intros w r w' [= _ <-]. reflexivity. Qed.
Lemma keeps_query {A} (f : DB → A) : keeps R (query f).
Proof. apply keeps_bind; [apply keeps_tick|intros; apply keeps_get]. Qed.
Lemma keeps_query_row {A} (f : DB → option A) : keeps R (query_row f).
Proof. apply keeps_bind; [apply keeps_query|]. intros [a|]; [apply keeps_ret|apply keeps_fail]. Qed.
Lemma keeps_exec_n f : (∀ db db' n, f db = Some (db', n) → R db db') → keeps R (exec_n f).
Proof.
  intros Hf w r w' H. unfold exec_n, mbind, M_bind in H.
  destruct (tick w) as [[u|e] w1] eqn:Et; [|simplify_eq; by eapply keeps_tick].
  apply tick_Ok in Et as ->. cbn in H.
  destruct (f (w_db w)) as [[db' n]|] eqn:E; injection H as _ <-; [by eapply Hf|reflexivity].
Qed.
Lemma keeps_exec f : (∀ db db', f db = Some db' → R db db') → keeps R (exec f).
Proof.
  intros Hf. apply keeps_bind; [|intros; apply keeps_ret]. apply keeps_exec_n.
  intros db db' n H. destruct (f db) eqn:E; simpl in H; simplify_eq. auto.
Qed.
Lemma keeps_exec_ f : (∀ db, R db (f db)) → keeps R (exec_ f).
Proof. intros Hf. apply keeps_exec. intros db db' [= <-]. auto. Qed.
Lemma keeps_note_lock l : keeps R (note_lock l).
Proof. intros w r w' [= _ <-]. reflexivity. Qed.
Lemma keeps_with_tx_opt {A} (body : Tx (A * bool)) : keeps R body → keeps R (with_tx_opt body).
Proof.
  intros Hb w r w' H. unfold with_tx_opt in H.
  destruct (tick w) as [[u|e] w1] eqn:E1; [|simplify_eq; by eapply keeps_tick].
  destruct (body _) as [[[a []]|e] w2] eqn:E2; try (simplify_eq; reflexivity).
  apply Hb in E2. cbn in E2. assert (w_db w1 = w_db w) as Ew by (injection E1 as _ <-; done).
  rewrite Ew in E2. unfold tick in H. case_match; simplify_eq; [done|reflexivity].
Qed.
Lemma keeps_with_tx {A} (body : Tx A) : keeps R body → keeps R (with_tx body).
Proof. intros Hb. apply keeps_with_tx_opt, keeps_bind; [done|]. intros a. apply keeps_ret. Qed.
End Keeps.

#[export] Hint Resolve keeps_ret keeps_fail keeps_get keeps_bind keeps_check keeps_on_err keeps_wrap_err
  keeps_no_rows_is keeps_attempt keeps_for_each keeps_for_fold keeps_query keeps_query_row keeps_note_lock : keeps.

(** Follows the structure of a computation. *)
Ltac keeps_tac :=
  repeat first
    [ solve [auto with keeps nocore typeclass_instances]
    | apply keeps_bind; [apply _| |intros ?]
    | apply keeps_on_err | apply keeps_wrap_err | apply keeps_no_rows_is | apply keeps_attempt
    | apply keeps_for_each; [apply _|intros ?]
    | match goal with
      | |- keeps _ (if ?b then _ else _) => destruct b
      | |- keeps _ (match ?x with _ => _ end) => destruct x
      | |- keeps _ (let _ := _ in _) => cbv zeta
      | |- keeps _ now => apply keeps_get
      end ].

(** *** The clock and the random source

    [forward m]: the clock stands still during [m], and the random source only
    moves on. *)
Definition forward {A} (m : Tx A) : Prop :=
  ∀ w r w', m w = (r, w') → (w_rng w <= w_rng w')%N ∧ w_now w' = w_now w.

Create HintDb forward.

Lemma forward_same {A} (m : Tx A) :
  (∀ w r w', m w = (r, w') → w_rng w' = w_rng w ∧ w_now w' = w_now w) → forward m.
Proof. intros Hm w r w' H. destruct (Hm _ _ _ H) as [-> ->]. split; [lia|done]. Qed.
Lemma forward_ret {A} (a : A) : forward (mret a).
Proof. apply forward_same. by intros w r w' [= _ <-]. Qed.
Lemma forward_fail {A} e : forward (fail e : Tx A).
Proof. apply forward_same. by intros w r w' [= _ <-]. Qed.
Lemma forward_get {A} (f : World → A) : forward (get f).
Proof. apply forward_same. by intros w r w' [= _ <-]. Qed.
Lemma forward_bind {A B} (m : Tx A) (f : A → Tx B) : forward m → (∀ a, forward (f a)) → forward (m ≫= f).
Proof.
  intros Hm Hf w r w' H. unfold mbind, M_bind in H. destruct (m w) as [[a|e] w1] eqn:E.
  - destruct (Hm _ _ _ E) as [? E1]. destruct (Hf _ _ _ _ H) as [? E2]. split; [lia|congruence].
  - injection H as _ <-. by eapply Hm.
Qed.
Lemma forward_check b e : forward (check b e : Tx unit).
Proof. destruct b; [apply forward_ret|apply forward_fail]. Qed.
Lemma forward_on_err {A} e (m : Tx A) : forward m → forward (on_err e m).
Proof. intros Hm w r w' H. unfold on_err in H. destruct (m w) as [[] w1] eqn:E; simplify_eq; by eapply Hm. Qed.
Lemma forward_wrap_err {A} e (m : Tx A) : forward m → forward (wrap_err e m).
Proof. intros Hm w r w' H. unfold wrap_err in H. destruct (m w) as [[] w1] eqn:E; simplify_eq; by eapply Hm. Qed.
Lemma forward_no_rows_is {A} e (m : Tx A) : forward m → forward (no_rows_is e m).
Proof. intros Hm w r w' H. unfold no_rows_is in H. destruct (m w) as [[] w1] eqn:E; simplify_eq; by eapply Hm. Qed.
Lemma forward_attempt {A} (m : Tx A) : forward m → forward (attempt m).
Proof. intros Hm w r w' H. unfold attempt in H. destruct (m w) as [x w1] eqn:E; simplify_eq; by eapply Hm. Qed.
Lemma forward_for_each {A} (l : list A) (body : A → Tx unit) : (∀ x, forward (body x)) → forward (for_each l body).
Proof. intros Hb. induction l; simpl; [apply forward_ret|by apply forward_bind]. Qed.
Lemma forward_tick : forward tick.
Proof. apply forward_same. by intros w r w' [= _ <-]. Qed.
Lemma forward_query {A} (f : DB → A) : forward (query f).
Proof. apply forward_bind; [apply forward_tick|intros; apply forward_get]. Qed.
Lemma forward_query_row {A} (f : DB → option A) : forward (query_row f).
Proof. apply forward_bind; [apply forward_query|]. intros [a|]; [apply forward_ret|apply forward_fail]. Qed.
Lemma forward_exec_n f : forward (exec_n f).
Proof.
  apply forward_bind; [apply forward_tick|intros _]. apply forward_bind; [apply forward_get|intros db].
  destruct (f db) as [[db' n]|]; [|apply forward_fail]. apply forward_bind; [|intros; apply forward_ret].
  apply forward_same. by intros w r w' [= _ <-].
Qed.
Lemma forward_exec f : forward (exec f).
Proof. apply forward_bind; [apply forward_exec_n|intros; apply forward_ret]. Qed.
Lemma forward_exec_ f : forward (exec_ f).
Proof. apply forward_exec. Qed.
Lemma forward_note_lock l : forward (note_lock l).
Proof. apply forward_same. by intros w r w' [= _ <-]. Qed.
Lemma forward_with_tx_opt {A} (body : Tx (A * bool)) : forward body → forward (with_tx_opt body).
Proof.
  intros Hb w r w' H. unfold with_tx_opt in H.
  destruct (tick w) as [[u|e] w1] eqn:E1; [|simplify_eq; by eapply forward_tick].
  apply tick_Ok in E1 as ->.
  destruct (body _) as [[[a []]|e] w2] eqn:E2; apply Hb in E2 as [E2 E3]; cbn in E2, E3.
  - destruct (tick w2) as [[u'|e] w3] eqn:E4; apply (forward_tick w2) in E4 as [E4 E5]; simplify_eq; cbn in *;
      split; (lia || congruence).
  - by simplify_eq.
  - by simplify_eq.
Qed.
Lemma forward_with_tx {A} (body : Tx A) : forward body → forward (with_tx body).
Proof. intros Hb. apply forward_with_tx_opt, forward_bind; [done|intros; apply forward_ret]. Qed.
#[export] Hint Resolve forward_ret forward_fail forward_get forward_check forward_query forward_query_row
  forward_exec_n forward_exec forward_exec_ forward_note_lock : forward.
#[export] Hint Extern 1 (forward now) => apply forward_get : forward.

(** Follows the structure of a computation. *)
Ltac forward_tac :=
  repeat first
    [ solve [auto with forward nocore]
    | apply forward_bind; [|intros ?]
    | apply forward_on_err | apply forward_wrap_err | apply forward_no_rows_is | apply forward_attempt
    | apply forward_for_each; intros ?
    | apply forward_with_tx | apply forward_with_tx_opt
    | match goal with
      | |- forward (if ?b then _ else _) => destruct b
      | |- forward (match ?x with _ => _ end) => destruct x
      | |- forward (let _ := _ in _) => cbv zeta
      end ].

(** Read-only operations leave the database as it is. *)
Definition unchanged (db db' : DB) : Prop := db' = db.
#[export] Instance unchanged_preorder : PreOrder unchanged.
Proof. split; [done|]. by intros ??? -> ->. Qed.

(** A step that only reads fails without a trace, or hands its value on. *)
Lemma bind_unchanged {A B} (m : Tx A) (f : A → Tx B) w r w' :
  keeps unchanged m → (m ≫= f) w = (r, w') →
  (∃ e, r = Err e ∧ w_db w' = w_db w) ∨ ∃ a w1, m w = (Ok a, w1) ∧ w_db w1 = w_db w ∧ f a w1 = (r, w').
Proof.
  intros Hm H. unfold mbind, M_bind in H. destruct (m w) as [[a|e] w1] eqn:E.
  - right. exists a, w1. split_and!; [done|by eapply Hm|done].
  - left. exists e. injection H as <- <-. split; [done|by eapply Hm].
Qed.

(** *** Reads

    [reads m]: [m] changes neither the database nor the clock; it may draw from
    the random source. *)
Definition reads {A} (m : Tx A) : Prop := keeps unchanged m ∧ forward m.
Definition at_same (w w' : World) : Prop :=
  w_db w' = w_db w ∧ w_now w' = w_now w ∧ (w_rng w <= w_rng w')%N.
#[export] Instance at_same_preorder : PreOrder at_same.
Proof.
  split; [intros w; split_and!; (done || lia)|]. intros a b c (E1 & T1 & R1) (E2 & T2 & R2).
  split_and!; [congruence..|lia].
Qed.
Lemma reads_run {A} (m : Tx A) w r w' : reads m → m w = (r, w') → at_same w w'.
Proof. intros [Hk Hf] H. split; [by eapply Hk|]. destruct (Hf _ _ _ H). by split. Qed.
Lemma reads_on_err {A} e (m : Tx A) : reads m → reads (on_err e m).
Proof. intros [Hk Hf]. split; [by apply keeps_on_err|by apply forward_on_err]. Qed.
Lemma reads_no_rows_is {A} e (m : Tx A) : reads m → reads (no_rows_is e m).
Proof. intros [Hk Hf]. split; [by apply keeps_no_rows_is|by apply forward_no_rows_is]. Qed.
Lemma reads_attempt {A} (m : Tx A) : reads m → reads (attempt m).
Proof. intros [Hk Hf]. split; [by apply keeps_attempt|by apply forward_attempt]. Qed.
Lemma reads_check b e : reads (check b e : Tx unit).
Proof. split; [by apply keeps_check, _|apply forward_check]. Qed.
Lemma reads_query {A} (f : DB → A) : reads (query f).
Proof. split; [by apply keeps_query, _|apply forward_query]. Qed.
Lemma reads_query_row {A} (f : DB → option A) : reads (query_row f).
Proof. split; [by apply keeps_query_row, _|apply forward_query_row]. Qed.
Lemma reads_get {A} (f : World → A) : reads (get f).
Proof. split; [by apply keeps_get, _|apply forward_get]. Qed.
Lemma reads_note_lock l : reads (note_lock l).
Proof. split; [by apply keeps_note_lock, _|apply forward_note_lock]. Qed.
Lemma reads_bind {A B} (m : Tx A) (f : A → Tx B) : reads m → (∀ a, reads (f a)) → reads (m ≫= f).
Proof. intros [Km Fm] Hf. split; [apply keeps_bind; [apply _|done|apply Hf]|apply forward_bind; [done|apply Hf]]. Qed.
Lemma reads_ret {A} (a : A) : reads (mret a).
Proof. split; [apply keeps_ret, _|apply forward_ret]. Qed.
Lemma reads_fail {A} e : reads (fail e : Tx A).
Proof. split; [apply keeps_fail, _|apply forward_fail]. Qed.
Create HintDb reads.
#[export] Hint Resolve reads_on_err reads_no_rows_is reads_check reads_query reads_query_row reads_get reads_note_lock
  reads_ret reads_fail : reads.
#[export] Hint Extern 3 (reads (match ?x with _ => _ end)) => destruct x : reads.
#[export] Hint Extern 1 (reads now) => apply reads_get : reads.

Lemma reads_for_each {A} (l : list A) (body : A → Tx unit) : (∀ x, reads (body x)) → reads (for_each l body).
Proof. intros Hb. induction l; [apply reads_ret|by apply reads_bind]. Qed.
(** Follows the structure of a computation. *)
Ltac reads_tac :=
  repeat first
    [ solve [auto with reads nocore]
    | apply reads_bind; [|intros ?] | apply reads_on_err | apply reads_no_rows_is | apply reads_for_each; intros ?
    | match goal with
      | |- reads (if ?b then _ else _) => destruct b
      | |- reads (match ?x with _ => _ end) => destruct x
      | |- reads (let _ := _ in _) => cbv zeta
      end ].

Lemma reads_forward {A} (m : Tx A) : reads m → forward m.
Proof. by intros [_ ?]. Qed.
#[export] Hint Extern 5 (forward _) => solve [apply reads_forward; auto with reads nocore] : forward.

(** A successful sequence that begins with a read. *)
Lemma bind_reads_Ok {A B} (m : Tx A) (f : A → Tx B) w b w' :
  reads m → (m ≫= f) w = (Ok b, w') → ∃ a w1, m w = (Ok a, w1) ∧ at_same w w1 ∧ f a w1 = (Ok b, w').
Proof. intros Hm (a & w1 & H1 & H)%bind_Ok. exists a, w1. split; [done|]. split; [by eapply reads_run|done]. Qed.

(** An outcome relation that errors satisfy trivially may skip a read. *)
Lemma reads_then {A B} (Q : result B → DB → DB → Prop) (m : Tx A) (f : A → Tx B) :
  keeps unchanged m → (∀ e db, Q (Err e) db db) →
  (∀ a w r w', f a w = (r, w') → Q r (w_db w) (w_db w')) →
  ∀ w r w', (m ≫= f) w = (r, w') → Q r (w_db w) (w_db w').
Proof.
  intros Hm He Hf w r w' [(e & -> & ->)|(a & w1 & _ & <- & H)]%bind_unchanged; [apply He|by apply Hf in H|done].
Qed.
(** [attempt] always hands its outcome on. *)
Lemma bind_attempt {A B} (m : Tx A) (f : result A → Tx B) w r w' :
  (attempt m ≫= f) w = (r, w') ↔ ∃ x w1, m w = (x, w1) ∧ f x w1 = (r, w').
Proof.
  unfold mbind, M_bind, attempt. destruct (m w) as [x w1]. split; [by eauto|]. by intros (? & ? & [= <- <-] & ?).
Qed.

(** ** Transactions are atomic *)

(** A transaction that reports an error leaves the database as it was. *)
Lemma with_tx_opt_Err {A} (body : Tx (A * bool)) w e w' :
  with_tx_opt body w = (Err e, w') → w_db w' = w_db w.
Proof.
  unfold with_tx_opt. destruct (tick w) as [[u|e'] w1] eqn:E1.
  - destruct (body _) as [[[a []]|e1] w2]; [|done|by intros [= _ <-]].
    destruct (tick w2) as [[]]; [done|by intros [= _ <-]].
  - injection E1 as _ <-. by intros [= _ <-].
Qed.

Lemma with_tx_Err {A} (body : Tx A) w e w' :
  with_tx body w = (Err e, w') → w_db w' = w_db w.
Proof. apply with_tx_opt_Err. Qed.

(** Whatever a transaction does, it is nothing, or its body's work. *)
Lemma with_tx_opt_run {A} (body : Tx (A * bool)) w r w' :
  with_tx_opt body w = (r, w') →
  w_db w' = w_db w ∨ ∃ a w1, body (upd_w_locks (const []) (ticked w)) = (Ok (a, true), w1) ∧ r = Ok a ∧ w' = ticked w1.
Proof.
  unfold with_tx_opt. destruct (tick w) as [[u|e'] w1] eqn:E1; [|injection E1 as _ <-; intros [= _ <-]; by left].
  apply tick_Ok in E1 as ->. destruct (body _) as [[[a []]|e] w2]; [|by intros [= _ <-]; left..].
  destruct (tick w2) as [[u'|e] w3] eqn:E3; [|by intros [= _ <-]; left]. intros [= <- <-].
  apply tick_Ok in E3 as ->. right. by exists a, w2.
Qed.

(** A transaction that reports success has run its body, and has committed its
    result if the body said so. *)
Lemma with_tx_opt_Ok {A} (body : Tx (A * bool)) w a w' :
  with_tx_opt body w = (Ok a, w') →
  ∃ c w1, body (upd_w_locks (const []) (ticked w)) = (Ok (a, c), w1) ∧
    w' = if c : bool then ticked w1 else upd_w_db (const (w_db w)) w1.
Proof.
  unfold with_tx_opt. destruct (tick w) as [[u|e'] w1] eqn:E1; [|done].
  apply tick_Ok in E1 as ->. destruct (body _) as [[[b []]|e] w2] eqn:E2; [|intros [= -> <-]; by exists false, w2|done].
  destruct (tick w2) as [[u'|e] w3] eqn:E3; [|done]. intros [= -> <-].
  apply tick_Ok in E3 as ->. by exists true, w2.
Qed.

Lemma with_tx_or_run {A} e (body : Tx (A * bool)) w r w' :
  with_tx_or e body w = (r, w') → (r = Err e ∧ w' = ticked w) ∨ with_tx_opt body w = (r, w').
Proof. unfold with_tx_or. destruct (tick w) as [[u|e'] w1] eqn:E; [by right|]. injection E as _ <-. intros [= <- <-]. by left. Qed.
Lemma with_tx_or_Ok {A} e (body : Tx (A * bool)) w a w' :
  with_tx_or e body w = (Ok a, w') → with_tx_opt body w = (Ok a, w').
Proof. by intros [[[=] _]|H]%with_tx_or_run. Qed.
Lemma with_tx_or_Err {A} e (body : Tx (A * bool)) w e' w' : with_tx_or e body w = (Err e', w') → w_db w' = w_db w.
Proof. intros [[_ ->]|H]%with_tx_or_run; [done|by apply with_tx_opt_Err in H]. Qed.
Lemma keeps_with_tx_or {A} R `{!PreOrder R} e (body : Tx (A * bool)) : keeps R body → keeps R (with_tx_or e body).
Proof. intros Hb w r w' [[_ ->]|H]%with_tx_or_run; [reflexivity|]. by eapply keeps_with_tx_opt in H. Qed.
(** It fails without a trace, or hands on what its body returned and, when the
    body says so, left. *)
Lemma with_tx_or_cases {A} e (body : Tx (A * bool)) w r w' :
  with_tx_or e body w = (r, w') →
  (∃ e', r = Err e' ∧ w_db w' = w_db w) ∨
  ∃ w0 a c w1, at_same w w0 ∧ body w0 = (Ok (a, c), w1) ∧ r = Ok a ∧ w_db w' = if c : bool then w_db w1 else w_db w.
Proof.
  destruct r as [a|e']; intros H; [|left; exists e'; split; [done|by eapply with_tx_or_Err]]. right.
  apply with_tx_or_Ok, with_tx_opt_Ok in H as (c & w1 & H & ->).
  exists (upd_w_locks (const []) (ticked w)), a, c, w1. split_and!; try done. by destruct c.
Qed.
Lemma forward_with_tx_or {A} e (body : Tx (A * bool)) : forward body → forward (with_tx_or e body).
Proof.
  intros Hb w r w' [[_ ->]|H]%with_tx_or_run; [|by apply forward_with_tx_opt in H].
  apply (forward_tick w (tick w).1). by destruct (tick w) as [? ?] eqn:E; injection E as <- <-.
Qed.
Lemma rollback_tx_Ok {A} (body : Tx A) w a w' :
  rollback_tx body w = (Ok a, w') →
  w_db w' = w_db w ∧ ∃ w1, body (upd_w_locks (const []) (ticked w)) = (Ok a, w1).
Proof.
  intros (c & w1 & H & ->)%with_tx_opt_Ok. apply bind_Ok in H as (b & w2 & H & [[= -> <-] <-]%ret_Ok).
  split; [done|]. by exists w2.
Qed.

(** A transaction that succeeds has run its body and committed its result. *)
Lemma with_tx_Ok {A} (body : Tx A) w a w' :
  with_tx body w = (Ok a, w') →
  ∃ w1, body (upd_w_locks (const []) (ticked w)) = (Ok a, w1) ∧ w' = ticked w1.
Proof.
  unfold with_tx, with_tx_opt, mbind, M_bind. destruct (tick w) as [[u|e'] w1] eqn:E1; [|done].
  apply tick_Ok in E1 as ->. destruct (body _) as [[b|e] w2] eqn:E2; [|done]. cbn.
  destruct (tick w2) as [[u'|e] w3] eqn:E3; [|done]. intros [= -> <-].
  apply tick_Ok in E3 as ->. by exists w2.
Qed.

(** *** Preservation by successful runs

    [ok_keeps R m]: a run of [m] that succeeds relates the databases by [R];
    inside a transaction that is enough, since a failed one changes nothing. *)
Definition ok_keeps {A} (R : DB → DB → Prop) (m : Tx A) : Prop :=
  ∀ w a w', m w = (Ok a, w') → R (w_db w) (w_db w').

Create HintDb ok_keeps.

Section OkKeeps.
Context (R : DB → DB → Prop) `{!PreOrder R}.

Lemma ok_keeps_keeps {A} (m : Tx A) : keeps R m → ok_keeps R m.
Proof. intros Hm w a w' H. by eapply Hm. Qed.
Lemma ok_keeps_fail {A} e : ok_keeps R (fail e : Tx A).
Proof. by intros w a w' [=]. Qed.
Lemma ok_keeps_bind {A B} (m : Tx A) (f : A → Tx B) :
  ok_keeps R m → (∀ a, ok_keeps R (f a)) → ok_keeps R (m ≫= f).
Proof. intros Hm Hf w r w' (a & w1 & H1 & H2)%bind_Ok. etrans; [by eapply Hm|by eapply Hf]. Qed.
Lemma ok_keeps_on_err {A} e (m : Tx A) : ok_keeps R m → ok_keeps R (on_err e m).
Proof. intros Hm w r w' H%on_err_Ok. eauto. Qed.
Lemma ok_keeps_for_each {A} (l : list A) (body : A → Tx unit) :
  (∀ x, ok_keeps R (body x)) → ok_keeps R (for_each l body).
Proof. intros Hb. induction l; simpl; [by apply ok_keeps_keeps, keeps_ret|by apply ok_keeps_bind]. Qed.
Lemma ok_keeps_for_fold {A B} (l : list A) (acc : B) (body : B → A → Tx B) :
  (∀ b x, ok_keeps R (body b x)) → ok_keeps R (for_fold l acc body).
Proof.
  intros Hb. revert acc. induction l; intros acc; simpl; [by apply ok_keeps_keeps, keeps_ret|by apply ok_keeps_bind].
Qed.
Lemma keeps_with_tx_ok {A} (body : Tx A) : ok_keeps R body → keeps R (with_tx body).
Proof.
  intros Hb w [a|e] w' H.
  - apply with_tx_Ok in H as (w1 & H & ->). by apply Hb in H.
  - apply with_tx_Err in H as ->. reflexivity.
Qed.
End OkKeeps.
#[export] Hint Resolve ok_keeps_fail ok_keeps_bind ok_keeps_on_err ok_keeps_for_each ok_keeps_for_fold : ok_keeps.

(** ** Tables *)

Section Tables.
Context {K V : Type} `{Countable K}.
Implicit Types (t : gmap K V) (p : K → V → bool).

Lemma lookup_update_where p g t k :
  update_where p g t !! k = (λ v, if p k v then g v else v) <$> t !! k.
Proof. unfold update_where. rewrite map_lookup_imap. by destruct (t !! k). Qed.

Lemma update_where_none p g t :
  (∀ k x, t !! k = Some x → p k x = false) → update_where p g t = t.
Proof.
  intros Hp. apply map_eq. intros k. rewrite lookup_update_where.
  destruct (t !! k) as [x|] eqn:E; [cbn; by rewrite (Hp _ _ E)|done].
Qed.

(** [UPDATE ... WHERE id = $1] of a row that exists. *)
Lemma alter_Some (f : V → V) t k v : t !! k = Some v → alter f k t = <[k := f v]> t.
Proof.
  intros Hk. apply map_eq. intros i. destruct (decide (i = k)) as [->|].
  - by rewrite lookup_alter_eq, lookup_insert_eq, Hk.
  - by rewrite lookup_alter_ne, lookup_insert_ne.
Qed.

Lemma lookup_delete_where p t k v :
  delete_where p t !! k = Some v ↔ t !! k = Some v ∧ p k v = false.
Proof. apply map_lookup_filter_Some. Qed.

Lemma count_where_pos p t :
  (0 < count_where p t)%Z ↔ ∃ k v, t !! k = Some v ∧ p k v = true.
Proof.
  unfold count_where. split.
  - intros Hn. destruct (map_choose (filter (λ kv, p kv.1 kv.2 = true) t)) as (k & v & Hk).
    { intros E. rewrite E in Hn. rewrite map_size_empty in Hn. lia. }
    apply map_lookup_filter_Some in Hk. eauto.
  - intros (k & v & Hk & Hp).
    assert (size (filter (λ kv, p kv.1 kv.2 = true) t) ≠ 0) as Hne; [|lia].
    rewrite map_size_empty_iff.
    intros E. eapply (map_lookup_filter_Some_2 (λ kv, p kv.1 kv.2 = true)) in Hk; [|done].
    by rewrite E in Hk.
Qed.
End Tables.

Lemma elem_of_select {V} (p : uuid → V → bool) t k v :
  (k, v) ∈ select p t ↔ t !! k = Some v ∧ p k v = true.
Proof.
  unfold select. rewrite (merge_sort_Permutation by_id), list_elem_of_filter, elem_of_map_to_list. naive_solver.
Qed.

Lemma NoDup_fst_select {V} (p : uuid → V → bool) t : NoDup (map fst (select p t)).
Proof.
  unfold select. rewrite (merge_sort_Permutation by_id). apply NoDup_fmap_fst.
  - intros k v v' [_ H1]%list_elem_of_filter [_ H2]%list_elem_of_filter.
    apply elem_of_map_to_list in H1, H2. congruence.
  - apply NoDup_filter, NoDup_map_to_list.
Qed.

(** ** Reads that succeed

    [yields w m a]: without driver failures, in [w] and after any reads, [m] has
    the result [a] and only reads. *)
Definition yields {A} (w : World) (m : Tx A) (a : A) : Prop :=
  ∀ w0, at_same w w0 → w_faults w0 = [] → ∃ w1, m w0 = (Ok a, w1) ∧ at_same w w1 ∧ w_faults w1 = [].

Lemma at_same_ticked w w0 : at_same w w0 → w_faults w0 = [] → at_same w (ticked w0) ∧ w_faults (ticked w0) = [].
Proof. intros S F. split; [exact S|]. unfold ticked, upd_w_faults. cbn. by rewrite F. Qed.

Lemma yields_ret {A} w (a : A) : yields w (mret a) a.
Proof. intros w0 S F. by exists w0. Qed.
Lemma yields_bind {A B} w (m : Tx A) (f : A → Tx B) a b :
  yields w m a → yields w (f a) b → yields w (m ≫= f) b.
Proof.
  intros Hm Hf w0 S F. destruct (Hm w0 S F) as (w1 & E & S1 & F1). destruct (Hf w1 S1 F1) as (w2 & E2 & S2 & F2).
  exists w2. split_and!; [|done..]. unfold mbind, M_bind. by rewrite E.
Qed.
Lemma yields_on_err {A} w e (m : Tx A) a : yields w m a → yields w (on_err e m) a.
Proof.
  intros Hm w0 S F. destruct (Hm w0 S F) as (w1 & E & S1 & F1). exists w1. split_and!; [|done..]. by rewrite on_err_Ok.
Qed.
Lemma yields_query_row {A} w (f : DB → option A) a : f (w_db w) = Some a → yields w (query_row f) a.
Proof.
  intros Hf w0 S F. exists (ticked w0). destruct S as (E & S). split; [apply query_row_run; [done|by rewrite E]|].
  by apply at_same_ticked.
Qed.
Lemma yields_query {A} w (f : DB → A) a : f (w_db w) = a → yields w (query f) a.
Proof.
  intros Hf w0 S F. exists (ticked w0). split; [|by apply at_same_ticked].
  unfold query, tick, mbind, M_bind, get. rewrite F. cbn. destruct S as (E & _). by rewrite E, Hf.
Qed.
Lemma yields_note_lock w l : yields w (note_lock l) ().
Proof. intros w0 S F. by exists (upd_w_locks (λ ls, ls ++ [l]) w0). Qed.
Lemma yields_now w : yields w now (w_now w).
Proof. intros w0 S F. exists w0. split; [|done]. unfold now, get. by destruct S as (_ & -> & _). Qed.
Lemma yields_check w b e : b = true → yields w (check b e) ().
Proof. intros ->. apply yields_ret. Qed.
Lemma yields_for_each {A} w (l : list A) body : (∀ x, x ∈ l → yields w (body x) ()) → yields w (for_each l body) ().
Proof.
  induction l as [|x l IH]; intros Hb; [apply yields_ret|]. eapply yields_bind; [apply Hb; by left|].
  apply IH. intros y Hy. apply Hb. by right.
Qed.
(** A read transaction. *)
Lemma yields_with_tx_opt {A} w (body : Tx (A * bool)) a c : yields w body (a, c) → yields w (with_tx_opt body) a.
Proof.
  intros Hb w0 S F. unfold with_tx_opt, tick. rewrite F. cbn [head].
  destruct (at_same_ticked _ _ S F) as [S1 F1].
  destruct (Hb (upd_w_locks (const []) (ticked w0)) S1 F1) as (w2 & E & S2 & F2). rewrite E.
  destruct c; [rewrite F2; cbn [head]|]; eexists; (split; [reflexivity|]); [by apply at_same_ticked|].
  destruct S as (Ew & _), S2 as (_ & T & R). split; [by split_and!|done].
Qed.
(** Run such a read, and go on. *)
Lemma yields_then {A B} w (m : Tx A) a (f : A → Tx B) w0 :
  yields w m a → at_same w w0 → w_faults w0 = [] → ∃ w1, (m ≫= f) w0 = f a w1 ∧ at_same w w1 ∧ w_faults w1 = [].
Proof.
  intros Hm S F. destruct (Hm w0 S F) as (w1 & E & S1 & F1). exists w1. split; [|done]. unfold mbind, M_bind. by rewrite E.
Qed.
Create HintDb yields.
#[export] Hint Resolve yields_ret yields_note_lock yields_now yields_query_row yields_query yields_check yields_on_err : yields.
Ltac yield_step := eapply yields_bind; [solve [eauto with yields]|cbv beta].
(** Replaces the first step of the goal's run, a read that succeeds by [tac]. *)
Ltac run_read tac :=
  lazymatch goal with
  | S : at_same ?w ?w0, F : w_faults ?w0 = [] |- context [mbind ?f ?m ?w0] =>
      let Hm := fresh in let E := fresh in let w1 := fresh "w" in
      eassert (yields w m _) as Hm; [tac|];
      destruct (yields_then w m _ f w0 Hm S F) as (w1 & E & S1 & F1); rewrite E; clear E Hm S F; rename S1 into S, F1 into F; cbv beta
  end.
