(* ===== verification/Crypto.v ===== *)
(** * Envelope encryption ([internal/crypto/crypto.go])

    AES-GCM, HMAC-SHA-256, SHA-256, the system's random source and UUID
    generation are parameters ([Primitives]) with the laws the code relies on
    ([PrimitivesOk]); key sizes, nonce handling, sub-key derivation and the
    legacy fallback are the code's. *)
From S2P Require Import Prelude GoStrings GoEncoding Schema Database.

(** ** The primitives *)

Class Primitives := {
  aes_gcm_seal : string → string → string → string;
  aes_gcm_open : string → string → string → option string;
  hmac_sha256 : string → string → string;
  sha256 : string → string;
  (** [io.ReadFull(rand.Reader, buf)] at a position of the random stream *)
  rand_read : N → nat → option string;
  (** [uuid.New] at a position of the random stream *)
  uuid_new : N → uuid;
}.

(** [aead.NonceSize()] of [cipher.NewGCM]. *)
Definition NonceSize : nat := 12.

(** [aes.NewCipher] accepts AES-128, AES-192 and AES-256 keys. *)
Definition aes_key_ok (key : string) : bool :=
  bool_decide (String.length key ∈ [16; 24; 32]).

Class PrimitivesOk (P : Primitives) : Prop := {
  gcm_open_seal key nonce p :
    aes_key_ok key = true → String.length nonce = NonceSize →
    aes_gcm_open key nonce (aes_gcm_seal key nonce p) = Some p;
  hmac_length key msg : String.length (hmac_sha256 key msg) = 32;
  sha256_length msg : String.length (sha256 msg) = 32;
  rand_length pos n b : rand_read pos n = Some b → String.length b = n;
  uuid_new_range pos : (0 < uuid_new pos < 2 ^ 128)%N;
}.

(** ** Definitions *)

Definition lift {A} (r : result A) : Tx A := λ w, (r, w).

Section Crypto.
Context `{P : Primitives}.

(** Advances the random stream. *)
Definition rand_bytes (n : nat) : Tx string := λ w,
  (match rand_read (w_rng w) n with
   | Some b => Ok b
   | None => Err (Sentinel "rand.Reader")
   end, upd_w_rng N.succ w).

Definition uuid_New : Tx uuid := λ w, (Ok (uuid_new (w_rng w)), upd_w_rng N.succ w).

(** [aes.NewCipher] and [cipher.NewGCM]. *)
Definition new_gcm (key : string) : result unit :=
  if aes_key_ok key then Ok () else Err (Wrapf "creating cipher" (Sentinel "aes.KeySizeError")).

Definition encrypt (key plaintext : string) : Tx (string * string) :=
  _ ← lift (new_gcm key);
  nonce ← wrap_err "generating nonce" (rand_bytes NonceSize);
  mret (aes_gcm_seal key nonce plaintext, nonce).

Definition decrypt (key ciphertext nonce : string) : result string :=
  match new_gcm key with
  | Err e => Err e
  | Ok _ =>
      if negb (String.length nonce =? NonceSize) then Err (Errorf "invalid nonce length")
      else match aes_gcm_open key nonce ciphertext with
           | Some p => Ok p
           | None => Err (Wrapf "decrypting" (Sentinel "cipher: message authentication failed"))
           end
  end.

Definition Encrypt (key plaintext : string) : Tx (string * string) := encrypt key plaintext.
Definition Decrypt (key ciphertext nonce : string) : result string := decrypt key ciphertext nonce.

(** [crypto.Service]: the master key. *)
Record Service := mkService { masterKey : string }.

Definition NewService (key : string) : result Service :=
  if negb (String.length key =? 32) then Err (Errorf "master key must be 32 bytes")
  else Ok (mkService key).

Definition GenerateDEK : Tx string := wrap_err "generating DEK" (rand_bytes 32).

Definition EncryptDEK (s : Service) (dek : string) : Tx (string * string) := encrypt (masterKey s) dek.
Definition DecryptDEK (s : Service) (ciphertext nonce : string) : result string :=
  decrypt (masterKey s) ciphertext nonce.

Definition serviceSecretLabel : string := "keepsave/service-secret/v1".
Definition auditChainLabel : string := "keepsave/audit-chain/v1".

Definition deriveSubKey (s : Service) (label : string) : string := hmac_sha256 (masterKey s) label.
Definition DeriveAuditChainKey (s : Service) : string := deriveSubKey s auditChainLabel.

Definition EncryptServiceSecret (s : Service) (plaintext : string) : Tx (string * string) :=
  encrypt (deriveSubKey s serviceSecretLabel) plaintext.

Definition DecryptServiceSecret (s : Service) (ciphertext nonce : string) : result string :=
  match decrypt (deriveSubKey s serviceSecretLabel) ciphertext nonce with
  | Ok pt => Ok pt
  | Err _ => decrypt (masterKey s) ciphertext nonce
  end.

(** [SecureZero]: the buffer afterwards. *)
Fixpoint SecureZero (b : string) : string :=
  match b with
  | EmptyString => ""
  | String _ b' => String "000" (SecureZero b')
  end.
End Crypto.


(** ** Lemmas *)

Lemma keeps_lift {A} R `{!PreOrder R} (r : result A) : keeps R (lift r).
Proof. intros w x w' [= _ <-]. reflexivity. Qed.
#[export] Hint Resolve keeps_lift : keeps.

Lemma forward_lift {A} (r : result A) : forward (lift r).
Proof. apply forward_same. by intros w x w' [= _ <-]. Qed.

Lemma lift_Ok {A} (r : result A) a w w' : lift r w = (Ok a, w') → r = Ok a ∧ w' = w.
Proof. by intros [= -> ->]. Qed.

Ltac step_hook ::=
  match goal with
  | H : lift _ _ = (Ok _, _) |- _ => apply lift_Ok in H as [? ?]
  end.

Section Facts.
Context `{P : Primitives}.

Lemma keeps_rand_bytes R `{!PreOrder R} n : keeps R (rand_bytes n).
Proof. intros w x w' [= _ <-]. reflexivity. Qed.
Lemma keeps_uuid_New R `{!PreOrder R} : keeps R uuid_New.
Proof. intros w x w' [= _ <-]. reflexivity. Qed.
Lemma keeps_encrypt R `{!PreOrder R} key p : keeps R (encrypt key p).
Proof.
  apply keeps_bind; [done|by apply keeps_lift|intros _].
  apply keeps_bind; [done|by apply keeps_wrap_err, keeps_rand_bytes|intros; by apply keeps_ret].
Qed.

Lemma forward_rand_bytes n : forward (rand_bytes n).
Proof. intros w r w' [= _ <-]. cbn. split; [lia|done]. Qed.
Lemma forward_uuid_New : forward uuid_New.
Proof. intros w r w' [= _ <-]. cbn. split; [lia|done]. Qed.

Lemma rand_bytes_Ok n b w w' :
  rand_bytes n w = (Ok b, w') → rand_read (w_rng w) n = Some b ∧ w' = upd_w_rng N.succ w.
Proof. unfold rand_bytes. case_match; naive_solver. Qed.

Lemma uuid_New_Ok u w w' :
  uuid_New w = (Ok u, w') → u = uuid_new (w_rng w) ∧ w' = upd_w_rng N.succ w.
Proof. by intros [= <- <-]. Qed.

Lemma encrypt_Ok key p c n w w' :
  encrypt key p w = (Ok (c, n), w') →
  aes_key_ok key = true ∧ rand_read (w_rng w) NonceSize = Some n ∧
  c = aes_gcm_seal key n p ∧ w' = upd_w_rng N.succ w.
Proof.
  unfold encrypt, new_gcm. intros H. steps. destruct (aes_key_ok key); [|done].
  match goal with H : rand_bytes _ _ = _ |- _ => apply rand_bytes_Ok in H as [? ->] end. done.
Qed.

Context `{!PrimitivesOk P}.

(** What [encrypt] returns, [decrypt] opens. *)
Lemma decrypt_encrypt key p c n w w' :
  encrypt key p w = (Ok (c, n), w') → decrypt key c n = Ok p.
Proof.
  intros (Hk & Hn & -> & _)%encrypt_Ok. apply rand_length in Hn.
  unfold decrypt, new_gcm. by rewrite Hk, Hn, gcm_open_seal.
Qed.

Lemma hmac_key_ok key msg : aes_key_ok (hmac_sha256 key msg) = true.
Proof. unfold aes_key_ok. by rewrite hmac_length. Qed.
Lemma reads_uuid_New : reads uuid_New.
Proof. split; [apply keeps_uuid_New, _|apply forward_uuid_New]. Qed.
Lemma reads_encrypt key p : reads (encrypt key p).
Proof. split; [apply keeps_encrypt, _|unfold encrypt; apply forward_bind; [apply forward_lift|intros _]]. 
  apply forward_bind; [apply forward_wrap_err, forward_rand_bytes|intros; apply forward_ret].
Qed.
End Facts.
Lemma reads_lift {A} (r : result A) : reads (lift r).
Proof. split; [apply keeps_lift, _|apply forward_lift]. Qed.
#[export] Hint Resolve keeps_rand_bytes keeps_uuid_New keeps_encrypt : keeps.
#[export] Hint Resolve forward_lift forward_rand_bytes forward_uuid_New : forward.

(** ** A concrete instance, for evaluation

    A sealed message carries its key and nonce; hashes are a polynomial of the
    bytes; randomness is a counter. *)
Module Toy.
Fixpoint poly (acc : Z) (s : string) : Z :=
  match s with
  | EmptyString => acc
  | String c s' => poly (Z.land (acc * 257 + byte_val c + 1) (2 ^ 64 - 1)) s'
  end.
#[export] Instance prims : Primitives := {|
  aes_gcm_seal k n p := k +:+ n +:+ p;
  aes_gcm_open k n c := strip_prefix (k +:+ n) c;
  hmac_sha256 k m := be_bytes 32 (poly (poly 7 k) m);
  sha256 m := be_bytes 32 (poly 5 m);
  rand_read pos n := Some (be_bytes n (Z.of_N pos));
  uuid_new pos := N.succ (N.min pos 65535);
|}.
#[export] Instance prims_ok : PrimitivesOk prims.
Proof.
  split.
  - intros key nonce p _ _. apply strip_prefix_Some, app_assoc'.
  - intros key msg. exact (be_bytes_length 32 _).
  - intros msg. exact (be_bytes_length 32 _).
  - intros pos n b [= <-]. apply be_bytes_length.
  - intros pos. change (0 < N.succ (N.min pos 65535) < 2 ^ 128)%N. split; [lia|].
    apply N.le_lt_trans with 65536%N; [lia|reflexivity].
Qed.
End Toy.
Import Toy.

(** ** Properties *)

(** The envelope opens.  A data key generated by the service and wrapped
    under its master key unwraps to itself, and a value encrypted under the
    unwrapped key decrypts to itself, whatever the random source returned. *)
Theorem envelope_roundtrip `{P : Primitives, !PrimitivesOk P}
    key svc dek wrapped wn p c n w w1 w2 w3 :
  NewService key = Ok svc →
  GenerateDEK w = (Ok dek, w1) →
  EncryptDEK svc dek w1 = (Ok (wrapped, wn), w2) →
  Encrypt dek p w2 = (Ok (c, n), w3) →
  String.length dek = 32 ∧ DecryptDEK svc wrapped wn = Ok dek ∧ Decrypt dek c n = Ok p.
Proof.
  intros _ Hg Hw He. unfold GenerateDEK in Hg. steps.
  apply rand_bytes_Ok in Hg as [Hr _]. apply rand_length in Hr.
  by split_and!; [|eapply decrypt_encrypt..].
Qed.

Lemma envelope_roundtrip_witness :
  ∃ svc dek wrapped wn c n w w1 w2 w3,
    NewService (be_bytes 32 5) = Ok svc ∧
    GenerateDEK w = (Ok dek, w1) ∧
    EncryptDEK svc dek w1 = (Ok (wrapped, wn), w2) ∧
    Encrypt dek "hunter2" w2 = (Ok (c, n), w3) ∧
    (String.length dek = 32 ∧ DecryptDEK svc wrapped wn = Ok dek ∧ Decrypt dek c n = Ok "hunter2").
Proof.
  pose (w := world_of empty_db 0).
  eexists _, _, _, _, _, _, w, _, _, _. split_and!; [reflexivity..|].
  eapply (envelope_roundtrip (be_bytes 32 5) _ _ _ _ _ _ _ w); reflexivity.
Defined.

(** Service secrets survive the move to a derived key.  A blob written by
    [EncryptServiceSecret] is read back; a blob written before ADR-0018, under
    the master key itself, is still read as long as it does not also
    authenticate under the derived key. *)
Theorem service_secret_compat `{P : Primitives, !PrimitivesOk P} svc p c n w w' :
  (EncryptServiceSecret svc p w = (Ok (c, n), w') → DecryptServiceSecret svc c n = Ok p) ∧
  (encrypt (masterKey svc) p w = (Ok (c, n), w') →
   aes_gcm_open (deriveSubKey svc serviceSecretLabel) n c = None →
   DecryptServiceSecret svc c n = Ok p).
Proof.
  unfold DecryptServiceSecret, EncryptServiceSecret. split; intros H.
  - by rewrite (decrypt_encrypt _ _ _ _ _ _ H).
  - intros Hno. rewrite (decrypt_encrypt _ _ _ _ _ _ H).
    assert (aes_key_ok (deriveSubKey svc serviceSecretLabel) = true) as Hk by apply hmac_key_ok.
    unfold decrypt, new_gcm in *. rewrite Hk, Hno. by destruct (negb _).
Qed.

Lemma service_secret_compat_witness :
  ∃ svc c n w w', encrypt (masterKey svc) "client-secret" w = (Ok (c, n), w') ∧
    DecryptServiceSecret svc c n = Ok "client-secret".
Proof.
  pose (w := world_of empty_db 0).
  eexists (mkService (be_bytes 32 5)), _, _, w, _. split; [reflexivity|].
  eapply (proj2 (service_secret_compat (mkService (be_bytes 32 5)) "client-secret" _ _ w _)); [reflexivity|].
  vm_compute. reflexivity.
Defined.
