(* ===== verification/Jobs.v ===== *)
(** * The durable outbox ([internal/jobs/queue.go])

    Jobs are rows of [outbox_jobs]; workers claim them under a lease and a
    fencing token.  The file models every statement that writes the table (the
    queue's own and the one project archiving uses), composes them into runs of
    arbitrary operations by arbitrary workers at arbitrary times, and proves
    what makes the outbox safe: an external effect is dispatched at most once, a
    worker that lost its lease cannot move a job, and attempts are bounded. *)
From S2P Require Import Prelude GoStrings GoEncoding Schema Database.

(** ** Definitions *)

Definition ErrFenced : error := Sentinel "job lease no longer belongs to worker".
Definition ErrNoJob : error := Sentinel "no job ready".

(** [jobs.Job]: what a worker holds. *)
Record Job := mkJobHandle {
  ID : uuid;
  Kind : string;
  Payload : json;
  Effect : string;
  Attempt : Z;
  Fence : Z;
  LeaseUntil : time;
  WorkerID : uuid;
}.

(** The table, and the setters the statements use. *)
Definition jobs_of (db : DB) : gmap uuid job_row := db_jobs db.

Definition job_set (st : string) (outcome : string) (available : time) (r : job_row) : job_row :=
  mkJob (jb_kind r) (jb_payload r) (jb_effect r) st available (jb_lease_until r) (jb_worker_id r)
        (jb_attempt r) (jb_max_attempts r) (jb_fence r) outcome.

Definition lease_expired (t : time) (r : job_row) : bool :=
  match jb_lease_until r with Some u => (u <=? t)%Z | None => false end.
Definition lease_live (t : time) (r : job_row) : bool :=
  match jb_lease_until r with Some u => (t <? u)%Z | None => false end.
Definition status_in (r : job_row) (l : list string) : bool := bool_decide (jb_status r ∈ l).

(** [EnqueueTx]; [payload] is the raw text, stored as JSONB. *)
Definition EnqueueTx (id : uuid) (kind payload effect : string) (maxAttempts : Z) : Tx unit :=
  if bool_decide (id = uuid_Nil) || bool_decide (kind = "") || (100 <? String.length kind)
     || (65536 <? N.of_nat (String.length payload))%N || negb (json_Valid payload)
     || (negb (bool_decide (effect = "local")) && negb (bool_decide (effect = "external")))
     || (maxAttempts <? 1)%Z || (20 <? maxAttempts)%Z
  then fail (Errorf "invalid job")
  else
    t ← now;
    exec (λ db,
      p ← Unmarshal payload;
      if decide (is_Some (jobs_of db !! id)) then None else
      Some (upd_db_jobs <[id := mkJob kind p effect "pending" t None None 0 maxAttempts 0 ""]> db)).

(** The two sweeps at the start of a claim. *)
Definition sweep_uncertain (t : time) : gmap uuid job_row → gmap uuid job_row :=
  update_where
    (λ _ r, status_in r ["dispatched"] && bool_decide (jb_effect r = "external") && lease_expired t r)
    (λ r, job_set "uncertain" "dispatch_outcome_unknown" (jb_available_at r) r).
Definition sweep_exhausted (t : time) : gmap uuid job_row → gmap uuid job_row :=
  update_where
    (λ _ r, status_in r ["leased"; "dispatched"] && lease_expired t r && (jb_max_attempts r <=? jb_attempt r)%Z)
    (λ r, job_set "failed" "attempts_exhausted" (jb_available_at r) r).

(** The [WHERE] clause of the candidate. *)
Definition claimable (t : time) (kinds : list string) (r : job_row) : bool :=
  (jb_attempt r <? jb_max_attempts r)%Z && (jb_available_at r <=? t)%Z
  && (bool_decide (kinds = []) || bool_decide (jb_kind r ∈ kinds))
  && (status_in r ["pending"]
      || (status_in r ["leased"; "dispatched"] && lease_expired t r
          && (status_in r ["leased"] || bool_decide (jb_effect r = "local")))).

(** [ORDER BY available_at,id]. *)
Definition claim_order (a b : uuid * job_row) : Prop :=
  (jb_available_at a.2 < jb_available_at b.2)%Z
  ∨ (jb_available_at a.2 = jb_available_at b.2 ∧ (a.1 <= b.1)%N).
#[export] Instance claim_order_dec : RelDecision claim_order.
Proof. intros a b. unfold claim_order. apply _. Defined.

Definition candidate (t : time) (kinds : list string) (jobs : gmap uuid job_row) : option (uuid * job_row) :=
  head (merge_sort claim_order (filter (λ kv, claimable t kinds kv.2 = true) (map_to_list jobs))).

Definition claim_row (worker : uuid) (until : time) (r : job_row) : job_row :=
  mkJob (jb_kind r) (jb_payload r) (jb_effect r) "leased" (jb_available_at r) (Some until) (Some worker)
        (jb_attempt r + 1) (jb_max_attempts r) (jb_fence r + 1) (jb_outcome r).

(** The statement that selects and leases one job. *)
Definition claim_statement (t : time) (worker : uuid) (until : time) (kinds : list string)
  : Tx (option (uuid * job_row)) :=
  picked ← query (λ db, candidate t kinds (jobs_of db));
  match picked with
  | None => mret None
  | Some (id, r) =>
      _ ← modify (upd_w_db (upd_db_jobs <[id := claim_row worker until r]>));
      mret (Some (id, claim_row worker until r))
  end.

(** [Queue.ClaimKinds]; the [nil] list of kinds is the empty one. *)
Definition ClaimKinds (worker : uuid) (lease : Z) (kinds : list string) : Tx Job :=
  if bool_decide (worker = uuid_Nil) || (lease <? Second)%Z || (5 * Minute <? lease)%Z
  then fail (Errorf "invalid job lease")
  else
    r ← with_tx (
      t ← now;
      _ ← exec_ (upd_db_jobs (sweep_uncertain t));
      _ ← exec_ (upd_db_jobs (sweep_exhausted t));
      claim_statement t worker (t + lease / Millisecond * Millisecond)%Z kinds);
    match r with
    | None => fail ErrNoJob
    | Some (id, r) =>
        mret (mkJobHandle id (jb_kind r) (jb_payload r) (jb_effect r) (jb_attempt r) (jb_fence r)
                (default 0%Z (jb_lease_until r)) worker)
    end.

(** [Queue.Claim]. *)
Definition Claim (worker : uuid) (lease : Z) : Tx Job := ClaimKinds worker lease [].

(** The [WHERE] clause of [Queue.transition]. *)
Definition owned (j : Job) (statuses : list string) (t : time) (id : uuid) (r : job_row) : bool :=
  bool_decide (id = ID j) && bool_decide (jb_worker_id r = Some (WorkerID j))
  && (jb_fence r =? Fence j)%Z && lease_live t r && status_in r statuses.

Definition transition (j : Job) (set : time → job_row → job_row) (statuses : list string) : Tx unit :=
  if bool_decide (ID j = uuid_Nil) || bool_decide (WorkerID j = uuid_Nil) then fail ErrFenced
  else
    t ← now;
    n ← wrap_err "updating job" (exec_n (λ db,
          Some (upd_db_jobs (update_where (owned j statuses t) (set t)) db,
                count_where (owned j statuses t) (jobs_of db))));
    if negb (n =? 1)%Z then fail ErrFenced else mret ().

Definition Dispatch (j : Job) : Tx unit :=
  transition j (λ _ r, job_set "dispatched" (jb_outcome r) (jb_available_at r) r) ["leased"].

Definition Ack (j : Job) : Tx unit :=
  transition j (λ _ r, job_set "done" "completed" (jb_available_at r) r) ["leased"; "dispatched"].

(** The two [CASE] expressions of [Queue.Fail]. *)
Definition fail_status (r : job_row) : string :=
  if status_in r ["dispatched"] && bool_decide (jb_effect r = "external") then "uncertain"
  else if (jb_max_attempts r <=? jb_attempt r)%Z then "failed" else "pending".
Definition fail_outcome (r : job_row) : string :=
  if status_in r ["dispatched"] && bool_decide (jb_effect r = "external") then "dispatch_outcome_unknown"
  else "failed".

Definition Fail (j : Job) (uncertain : bool) : Tx unit :=
  transition j (λ t r,
    job_set (if uncertain then "uncertain" else fail_status r)
            (if uncertain then "dispatch_outcome_unknown" else fail_outcome r)
            (t + Z.min (jb_attempt r * jb_attempt r) 300 * Second)%Z r) ["leased"; "dispatched"].

(** [payload->>'project_id'], and the statement [ArchiveProject] sends. *)
Definition json_field (k : string) (j : json) : option string :=
  match j with
  | JObj l =>
      match (list_to_map l : gmap string json) !! k with
      | Some (JStr s) => Some s
      | _ => None
      end
  | _ => None
  end.
Definition cancel_project_jobs (project : uuid) : gmap uuid job_row → gmap uuid job_row :=
  update_where
    (λ _ r, bool_decide (json_field "project_id" (jb_payload r) = Some (uuid_String project))
            && status_in r ["pending"; "leased"] && negb (HasSuffix (jb_kind r) ".event"))
    (λ r, job_set "failed" "project_deleted" (jb_available_at r) r).

(** *** Runs: any sequence of operations, each at its own time *)

Inductive job_op :=
  | OpEnqueue (id : uuid) (kind payload effect : string) (max : Z)
  | OpClaim (worker : uuid) (lease : Z) (kinds : list string)
  | OpDispatch (j : Job)
  | OpAck (j : Job)
  | OpFail (j : Job) (uncertain : bool)
  | OpCancelProject (project : uuid).

Definition run_op (o : job_op) : Tx unit :=
  match o with
  | OpEnqueue id kind payload effect max => EnqueueTx id kind payload effect max
  | OpClaim worker lease kinds => _ ← ClaimKinds worker lease kinds; mret ()
  | OpDispatch j => Dispatch j
  | OpAck j => Ack j
  | OpFail j uncertain => Fail j uncertain
  | OpCancelProject project => exec_ (upd_db_jobs (cancel_project_jobs project))
  end.

(** The operations with the time each runs at; the result lists whether each
    succeeded. *)
Fixpoint run_ops (l : list (time * job_op)) (w : World) : list bool * World :=
  match l with
  | [] => ([], w)
  | (t, o) :: l' =>
      let '(r, w1) := run_op o (upd_w_now (const t) w) in
      let '(rs, w2) := run_ops l' w1 in
      ((if r is Ok _ then true else false) :: rs, w2)
  end.

(** The positions at which a dispatch of job [id] succeeded. *)
Definition is_dispatch_of (id : uuid) (o : job_op) : bool :=
  match o with OpDispatch j => bool_decide (ID j = id) | _ => false end.
Definition dispatches (id : uuid) (l : list (time * job_op)) (rs : list bool) : nat :=
  length (filter (λ p, is_dispatch_of id p.1.2 && p.2 = true) (zip l rs)).

(** *** The state machine of one row *)

Definition job_statuses : list string := ["pending"; "leased"; "dispatched"; "done"; "failed"; "uncertain"].

(** The moves of a row's status; an external job that was dispatched can only
    be acknowledged or become uncertain. *)
Definition next_statuses (effect status : string) : list string :=
  if bool_decide (status = "pending") then ["leased"; "failed"]
  else if bool_decide (status = "leased") then ["leased"; "dispatched"; "done"; "failed"; "pending"; "uncertain"]
  else if bool_decide (status = "dispatched") then
    if bool_decide (effect = "external") then ["done"; "uncertain"]
    else ["done"; "failed"; "pending"; "uncertain"; "leased"]
  else [].
Definition edge (effect : string) (s s' : string) : Prop := s' ∈ next_statuses effect s.

Record job_le (r r' : job_row) : Prop := {
  le_kind : jb_kind r' = jb_kind r;
  le_payload : jb_payload r' = jb_payload r;
  le_effect : jb_effect r' = jb_effect r;
  le_max : jb_max_attempts r' = jb_max_attempts r;
  le_fence : (jb_fence r <= jb_fence r')%Z;
  le_status : rtc (edge (jb_effect r)) (jb_status r) (jb_status r');
}.

(** No row is lost, and every row moves along the state machine. *)
Definition jobs_le (db db' : DB) : Prop :=
  ∀ id r, jobs_of db !! id = Some r → ∃ r', jobs_of db' !! id = Some r' ∧ job_le r r'.

(** The invariant of the table. *)
Record job_wf (r : job_row) : Prop := {
  wf_status : jb_status r ∈ job_statuses;
  wf_effect : jb_effect r = "local" ∨ jb_effect r = "external";
  wf_attempt : (0 <= jb_attempt r <= jb_max_attempts r)%Z;
  wf_max : (1 <= jb_max_attempts r <= 20)%Z;
  wf_fence : jb_fence r = jb_attempt r;
  wf_held : jb_status r ∈ ["leased"; "dispatched"] →
            is_Some (jb_lease_until r) ∧ is_Some (jb_worker_id r) ∧ (1 <= jb_attempt r)%Z;
}.
Definition jobs_wf (db : DB) : Prop := map_Forall (λ _, job_wf) (jobs_of db).

(** ** Lemmas *)

#[export] Instance job_le_preorder : PreOrder job_le.
Proof.
  split; [by intros r; split|]. intros r1 r2 r3 [] []. split; try congruence; [lia|].
  etrans; [done|]. congruence.
Qed.
#[export] Instance jobs_le_preorder : PreOrder jobs_le.
Proof.
  split; [intros db id r Hr; by exists r|]. intros d1 d2 d3 H1 H2 id r (r2 & Hr2 & ?)%H1.
  apply H2 in Hr2 as (r3 & ? & ?). exists r3. split; [done|by etrans].
Qed.

(** A row update that is one move of the state machine, or changes nothing. *)
Lemma job_set_le st o a r :
  edge (jb_effect r) (jb_status r) st → job_le r (job_set st o a r).
Proof. intros He. split; try done. by apply rtc_once. Qed.

Lemma status_in_spec r l : status_in r l = true ↔ jb_status r ∈ l.
Proof. unfold status_in. apply bool_decide_eq_true. Qed.

Ltac status_cases :=
  repeat match goal with
  | H : _ && _ = true |- _ => apply andb_true_iff in H as [? ?]
  | H : _ || _ = true |- _ => apply orb_true_iff in H as [H|H]
  | H : status_in _ _ = true |- _ => apply status_in_spec in H
  | H : bool_decide _ = true |- _ => apply bool_decide_eq_true in H
  | H : _ ∈ [_] |- _ => apply list_elem_of_singleton in H
  | H : _ ∈ _ :: _ |- _ => apply elem_of_cons in H as [H|H]
  end.

(** An [UPDATE] whose rows each make a legal move. *)
Lemma update_jobs_le p g db :
  (∀ id r, p id r = true → job_le r (g r)) → jobs_le db (upd_db_jobs (update_where p g) db).
Proof.
  intros Hg id r Hr. unfold jobs_of in *. cbn. rewrite lookup_update_where, Hr. cbn.
  eexists. split; [done|]. destruct (p id r) eqn:Hp; [eauto|done].
Qed.

(** The two sweeps of a claim, together. *)
Definition swept (t : time) (jobs : gmap uuid job_row) : gmap uuid job_row :=
  sweep_exhausted t (sweep_uncertain t jobs).

(** Checks a move of the state machine by computing the successors. *)
Ltac edge_by_cases :=
  unfold edge, next_statuses;
  repeat match goal with
  | H : jb_status _ = _ |- _ => rewrite H
  | H : jb_effect _ = _ |- _ => rewrite H
  end; repeat case_bool_decide; try done; concrete_elem.

Lemma swept_row t jobs id r :
  jobs !! id = Some r → ∃ r', swept t jobs !! id = Some r' ∧ job_le r r' ∧
    (r' = r ∨ jb_status r' ∈ ["uncertain"; "failed"]).
Proof.
  intros Hr. unfold swept, sweep_exhausted, sweep_uncertain. rewrite !lookup_update_where, Hr. cbn.
  eexists. split; [done|].
  destruct (status_in r ["dispatched"] && _ && _) eqn:E1.
  - rewrite andb_false_l. split; [|right; simpl; concrete_elem].
    status_cases. apply job_set_le. edge_by_cases.
  - destruct (status_in r ["leased"; "dispatched"] && _ && _) eqn:E2; [|split; [reflexivity|by left]].
    split; [|right; simpl; concrete_elem]. apply job_set_le.
    apply andb_true_iff in E2 as [[E2 Hl]%andb_true_iff _]. apply status_in_spec in E2.
    apply elem_of_cons in E2 as [E2|E2%list_elem_of_singleton]; [edge_by_cases|].
    assert (jb_effect r ≠ "external") as He; [|edge_by_cases].
    intros He. by rewrite (proj2 (status_in_spec _ _)), He, Hl in E1 by (rewrite E2; by left).
Qed.

Lemma swept_le t db : jobs_le db (upd_db_jobs (swept t) db).
Proof. intros id r Hr. destruct (swept_row t _ _ _ Hr) as (r' & ? & ? & _). by exists r'. Qed.

Lemma candidate_Some t kinds jobs id r :
  candidate t kinds jobs = Some (id, r) → jobs !! id = Some r ∧ claimable t kinds r = true.
Proof.
  intros H. apply head_Some_elem_of in H.
  rewrite (merge_sort_Permutation claim_order), list_elem_of_filter, elem_of_map_to_list in H. naive_solver.
Qed.

Lemma claimable_edge t kinds r worker until :
  claimable t kinds r = true → job_le r (claim_row worker until r).
Proof.
  intros H. split; try done; [simpl; lia|]. unfold claimable in H. apply rtc_once. simpl.
  apply andb_true_iff in H as [_ H].
  status_cases; try edge_by_cases; congruence.
Qed.

Lemma claim_statement_Ok t worker until kinds res w w' :
  claim_statement t worker until kinds w = (Ok res, w') →
  match candidate t kinds (jobs_of (w_db w)) with
  | None => res = None ∧ w_db w' = w_db w
  | Some (id, r) => res = Some (id, claim_row worker until r) ∧
      w_db w' = upd_db_jobs <[id := claim_row worker until r]> (w_db w)
  end.
Proof.
  intros H. unfold claim_statement in H. steps. destruct (candidate _ _ _) as [[id r]|]; steps; [|done].
  match goal with H : modify _ _ = _ |- _ => injection H as _ <- end. done.
Qed.

(** A successful claim: the sweeps, and the first claimable row leased. *)
Lemma ClaimKinds_Ok worker lease kinds j w w' :
  ClaimKinds worker lease kinds w = (Ok j, w') →
  let t := w_now w in let until := (t + lease / Millisecond * Millisecond)%Z in
  worker ≠ uuid_Nil ∧ (Second <= lease <= 5 * Minute)%Z ∧
  ∃ r, candidate t kinds (swept t (jobs_of (w_db w))) = Some (ID j, r) ∧
    j = mkJobHandle (ID j) (jb_kind r) (jb_payload r) (jb_effect r) (jb_attempt r + 1) (jb_fence r + 1) until worker ∧
    w_db w' = upd_db_jobs (λ jobs, <[ID j := claim_row worker until r]> (swept t jobs)) (w_db w).
Proof.
  intros H t until. unfold ClaimKinds in H. destruct (_ || _) eqn:Hg; [done|].
  rewrite !orb_false_iff, bool_decide_eq_false, !Z.ltb_ge in Hg.
  split; [tauto|]. split; [lia|]. steps.
  match goal with H : with_tx _ _ = _ |- _ => apply with_tx_Ok in H as (w1 & H & ->) end. steps.
  match goal with H : claim_statement _ _ _ _ _ = _ |- _ => apply claim_statement_Ok in H end.
  cbn in *. unfold jobs_of in *. cbn in *. fold (swept t (db_jobs (w_db w))) in *.
  destruct (candidate _ _ _) as [[id r]|]; destruct H0 as [-> Hdb]; steps.
  exists r. split; [done|]. split; [done|]. cbn. by rewrite Hdb.
Qed.

(** A transition updates the rows its [WHERE] clause admits, or nothing. *)
Lemma transition_db j set sts w r w' :
  transition j set sts w = (r, w') →
  w_db w' = w_db w ∨
  w_db w' = upd_db_jobs (update_where (owned j sts (w_now w)) (set (w_now w))) (w_db w).
Proof.
  unfold transition. destruct (_ || _); [intros [= _ <-]; by left|].
  unfold now, get, wrap_err, exec_n, mbind, M_bind. destruct (tick w) as [[u|e] w1] eqn:Et.
  - apply tick_Ok in Et as ->. cbn. destruct (negb _); intros [= _ <-]; by right.
  - injection Et as _ <-. intros [= _ <-]. by left.
Qed.

Lemma keeps_transition R `{!PreOrder R} j set sts :
  (∀ t db, R db (upd_db_jobs (update_where (owned j sts t) (set t)) db)) →
  keeps R (transition j set sts).
Proof.
  intros HR w r w' [E|E]%transition_db; rewrite E; [reflexivity|apply HR].
Qed.

Lemma owned_spec j sts t id r :
  owned j sts t id r = true ↔
  id = ID j ∧ jb_worker_id r = Some (WorkerID j) ∧ jb_fence r = Fence j ∧ lease_live t r = true ∧ jb_status r ∈ sts.
Proof.
  unfold owned. rewrite !andb_true_iff, !bool_decide_eq_true, Z.eqb_eq, status_in_spec. tauto.
Qed.

(** A successful transition: the worker's own live row, changed. *)
Lemma transition_Ok j set sts u w w' :
  transition j set sts w = (Ok u, w') →
  ∃ r, jobs_of (w_db w) !! ID j = Some r ∧ owned j sts (w_now w) (ID j) r = true ∧
    jobs_of (w_db w') !! ID j = Some (set (w_now w) r).
Proof.
  intros H. unfold transition in H. destruct (_ || _); [done|]. steps.
  destruct (negb _) eqn:Hn in H; [done|]. steps.
  apply negb_false_iff, Z.eqb_eq in Hn.
  assert (0 < count_where (owned j sts (w_now w)) (jobs_of (w_db w)))%Z as Hpos by lia.
  apply count_where_pos in Hpos as (k & r & Hr & Hp).
  pose proof Hp as (-> & _)%owned_spec. exists r. split; [done|]. split; [done|].
  cbn. unfold jobs_of in *. cbn. by rewrite lookup_update_where, Hr; cbn; rewrite Hp.
Qed.

Lemma EnqueueTx_Ok id kind payload effect max u w w' :
  EnqueueTx id kind payload effect max w = (Ok u, w') →
  ∃ p, Unmarshal payload = Some p ∧ jobs_of (w_db w) !! id = None ∧ effect ∈ ["local"; "external"] ∧
    (1 <= max <= 20)%Z ∧
    w_db w' = upd_db_jobs <[id := mkJob kind p effect "pending" (w_now w) None None 0 max 0 ""]> (w_db w).
Proof.
  intros H. unfold EnqueueTx in H. destruct (_ || _) eqn:Hg; [done|].
  rewrite !orb_false_iff, andb_false_iff, !negb_false_iff, !bool_decide_eq_true, !Z.ltb_ge in Hg. steps.
  match goal with H : _ = Some db |- _ => rename H into Hi end.
  destruct (Unmarshal payload) as [p|] eqn:E; [|done]. cbn in Hi.
  case_decide as Hd; [done|]. apply eq_None_not_Some in Hd. simplify_eq.
  exists p. split_and!; try done; try lia. rewrite !elem_of_cons. tauto.
Qed.

Lemma keeps_EnqueueTx R `{!PreOrder R} id kind payload effect max :
  (∀ db p t, jobs_of db !! id = None → effect ∈ ["local"; "external"] → (1 <= max <= 20)%Z →
     R db (upd_db_jobs <[id := mkJob kind p effect "pending" t None None 0 max 0 ""]> db)) →
  keeps R (EnqueueTx id kind payload effect max).
Proof.
  intros HR. unfold EnqueueTx. destruct (_ || _) eqn:Hg; [by apply keeps_fail|].
  rewrite !orb_false_iff, andb_false_iff, !negb_false_iff, !bool_decide_eq_true, !Z.ltb_ge in Hg.
  apply keeps_bind; [done|by apply keeps_get|]. intros t. apply keeps_exec; [done|].
  intros db db' H. destruct (Unmarshal payload) as [p|]; [|done]. cbn in H.
  case_decide as Hd; [done|]. apply eq_None_not_Some in Hd. simplify_eq.
  apply HR; [done| |lia]. rewrite !elem_of_cons. tauto.
Qed.

Lemma forward_EnqueueTx id kind payload effect max : forward (EnqueueTx id kind payload effect max).
Proof. unfold EnqueueTx. forward_tac. Qed.
#[export] Hint Resolve forward_EnqueueTx : forward.

Lemma run_op_le o : keeps jobs_le (run_op o).
Proof.
  destruct o as [id kind payload effect max|worker lease kinds|j|j|j u|project]; simpl.
  - apply keeps_EnqueueTx; [apply _|]. intros db p t Hno _ _ k r Hk.
    unfold jobs_of in *. cbn. exists r. split; [|reflexivity]. by rewrite lookup_insert_ne by congruence.
  - apply keeps_bind; [apply _| |intros; apply keeps_ret; apply _].
    intros w [j|e] w' H.
    + apply ClaimKinds_Ok in H as (_ & _ & r & Hc & _ & ->).
      etrans; [apply (swept_le (w_now w))|]. apply candidate_Some in Hc as [Hr Hc].
      intros k r' Hk. unfold jobs_of in *. cbn in *.
      destruct (decide (k = ID j)) as [->|Hne].
      * simplify_eq. rewrite lookup_insert_eq. eexists. split; [done|by eapply claimable_edge].
      * rewrite lookup_insert_ne by done. by exists r'.
    + unfold ClaimKinds in H. destruct (_ || _); [by injection H as _ <-|].
      apply bind_Err in H as [H|(x & w1 & H & H')]; [by rewrite (with_tx_Err _ _ _ _ H)|].
      destruct x as [[? ?]|]; [done|]. injection H' as _ <-.
      apply with_tx_Ok in H as (w2 & H & ->). steps.
      match goal with H : claim_statement _ _ _ _ _ = _ |- _ => apply claim_statement_Ok in H; rename H into Hc end.
      cbn in *. destruct (candidate _ _ _) as [[? ?]|]; destruct Hc as [? Hdb]; [done|].
      rewrite Hdb. apply (swept_le (w_now w)).
  - apply keeps_transition; [apply _|]. intros t db. apply update_jobs_le.
    intros id r (_ & _ & _ & _ & Hs)%owned_spec. apply job_set_le. status_cases. edge_by_cases.
  - apply keeps_transition; [apply _|]. intros t db. apply update_jobs_le.
    intros id r (_ & _ & _ & _ & Hs)%owned_spec. apply job_set_le. status_cases; edge_by_cases.
  - apply keeps_transition; [apply _|]. intros t db. apply update_jobs_le.
    intros id r (_ & _ & _ & _ & Hs)%owned_spec. apply job_set_le.
    destruct u; [status_cases; edge_by_cases|]. unfold fail_status, status_in.
    apply elem_of_cons in Hs as [Hs|Hs%list_elem_of_singleton]; rewrite Hs.
    + change (bool_decide ("leased" ∈ ["dispatched"])) with false. simpl. destruct (_ <=? _)%Z; edge_by_cases.
    + change (bool_decide ("dispatched" ∈ ["dispatched"])) with true. simpl.
      case_bool_decide; [edge_by_cases|]. destruct (_ <=? _)%Z; edge_by_cases.
  - apply keeps_exec_; [apply _|]. intros db. apply update_jobs_le. intros id r H. apply job_set_le.
    status_cases; edge_by_cases.
Qed.

(** *** The invariant *)

Definition wf_step (db db' : DB) : Prop := jobs_wf db → jobs_wf db'.
#[export] Instance wf_step_preorder : PreOrder wf_step.
Proof. split; [by intros ? ?|]. intros ??? H1 H2 H. by apply H2, H1. Qed.

Lemma update_wf p g db :
  (∀ id r, p id r = true → job_wf r → job_wf (g r)) → wf_step db (upd_db_jobs (update_where p g) db).
Proof.
  intros Hg Hwf id r Hr. unfold jobs_of in Hr. cbn in Hr. rewrite lookup_update_where in Hr.
  destruct (db_jobs db !! id) as [r0|] eqn:E; [|done]. cbn in Hr. simplify_eq.
  specialize (Hwf id r0 E). destruct (p id r0) eqn:Hp; [by eapply Hg|done].
Qed.

(** Changing the status of a held row, or of any row to an idle status. *)
Lemma job_set_wf st o a r :
  job_wf r → st ∈ job_statuses → (st = "dispatched" → jb_status r ∈ ["leased"; "dispatched"]) → st ≠ "leased" →
  job_wf (job_set st o a r).
Proof.
  intros [] Hst Hd Hl. split; try done. simpl. intros Hs.
  apply elem_of_cons in Hs as [?|?%list_elem_of_singleton]; [done|auto].
Qed.

Lemma claim_row_wf worker until r :
  job_wf r → (jb_attempt r < jb_max_attempts r)%Z → job_wf (claim_row worker until r).
Proof.
  intros [] Ha. split; simpl; try done; try lia; [concrete_elem|].
  intros _. split_and!; [done|done|lia].
Qed.

Lemma swept_wf t db : wf_step db (upd_db_jobs (swept t) db).
Proof.
  unfold swept. etrans; [apply update_wf|]; [|eapply (update_wf _ _ (upd_db_jobs _ db))];
    intros _ r _ Hwf; (apply job_set_wf; [done|concrete_elem|done|done]).
Qed.

Lemma run_op_wf o : keeps wf_step (run_op o).
Proof.
  destruct o as [id kind payload effect max|worker lease kinds|j|j|j u|project]; simpl.
  - apply keeps_EnqueueTx; [apply _|]. intros db p t _ Heff Hmax Hwf.
    unfold jobs_wf, jobs_of in *. cbn. apply map_Forall_insert_2; [|done].
    status_cases; split; simpl; try lia; try tauto; try concrete_elem; intros Hs; status_cases; done.
  - apply keeps_bind; [apply _| |intros; apply keeps_ret; apply _].
    intros w [j|e] w' H.
    + apply ClaimKinds_Ok in H as (_ & _ & r & Hc & _ & ->).
      etrans; [apply (swept_wf (w_now w))|]. apply candidate_Some in Hc as [Hr Hc].
      intros Hwf. unfold jobs_wf, jobs_of in *. cbn in *. apply map_Forall_insert_2; [|done].
      apply claim_row_wf; [by eapply Hwf|]. unfold claimable in Hc.
      repeat (apply andb_true_iff in Hc as [Hc ?]). by apply Z.ltb_lt.
    + unfold ClaimKinds in H. destruct (_ || _); [by injection H as _ <-|].
      apply bind_Err in H as [H|(x & w1 & H & H')]; [by rewrite (with_tx_Err _ _ _ _ H)|].
      destruct x as [[? ?]|]; [done|]. injection H' as _ <-.
      apply with_tx_Ok in H as (w2 & H & ->). steps.
      match goal with H : claim_statement _ _ _ _ _ = _ |- _ => apply claim_statement_Ok in H; rename H into Hc end.
      cbn in *. destruct (candidate _ _ _) as [[? ?]|]; destruct Hc as [? Hdb]; [done|].
      rewrite Hdb. apply (swept_wf (w_now w)).
  - apply keeps_transition; [apply _|]. intros t db. apply update_wf.
    intros id r (_ & _ & _ & _ & Hs)%owned_spec Hwf.
    apply job_set_wf; [done|concrete_elem| |done]. intros _. status_cases. rewrite Hs. by left.
  - apply keeps_transition; [apply _|]. intros t db. apply update_wf.
    intros id r _ Hwf. by apply job_set_wf; [|concrete_elem|..].
  - apply keeps_transition; [apply _|]. intros t db. apply update_wf.
    intros id r _ Hwf. destruct u; [by apply job_set_wf; [|concrete_elem|..]|].
    unfold fail_status. destruct (status_in _ _ && _); [|destruct (_ <=? _)%Z];
      (by apply job_set_wf; [|concrete_elem|..]).
  - apply keeps_exec_; [apply _|]. intros db. apply update_wf. intros id r _ Hwf.
    by apply job_set_wf; [|concrete_elem|..].
Qed.

(** *** Runs *)

Ltac eval_list H :=
  match type of H with ?x ∈ ?l => let l' := eval vm_compute in l in change (x ∈ l') in H end;
  status_cases; try (by apply elem_of_nil in H).

Lemma run_ops_keeps R `{!PreOrder R} l w :
  (∀ o, keeps R (run_op o)) → R (w_db w) (w_db (run_ops l w).2).
Proof.
  intros HR. revert w. induction l as [|[t o] l IH]; intros w; [reflexivity|]. simpl.
  destruct (run_op o _) as [r w1] eqn:E. apply HR in E. cbn in E.
  specialize (IH w1). destruct (run_ops l w1) as [rs w2]. by etrans.
Qed.

Definition settled : list string := ["dispatched"; "done"; "failed"; "uncertain"].

Lemma settled_rtc s s' : rtc (edge "external") s s' → s ∈ settled → s' ∈ settled.
Proof.
  induction 1 as [|s s1 s2 He _ IH]; [done|]. intros Hs. apply IH. unfold settled in Hs.
  unfold edge in He. status_cases; subst; eval_list He; subst; concrete_elem.
Qed.

Lemma terminal_rtc eff s s' : rtc (edge eff) s s' → s ∈ ["done"; "failed"; "uncertain"] → s' = s.
Proof.
  intros [->|(s1 & He & _)]%rtc_inv Hs; [done|]. unfold edge in He.
  status_cases; subst; unfold next_statuses in He; simpl in He; by apply elem_of_nil in He.
Qed.

Lemma zip_filter_cons {A} (f : A → bool) a b l (rs : list bool) :
  length (filter (λ p, f p.1 && p.2 = true) (zip (a :: l) (b :: rs))) =
  (if f a && b then 1 else 0) + length (filter (λ p, f p.1 && p.2 = true) (zip l rs)).
Proof. simpl. rewrite filter_cons. simpl. destruct (f a && b); by case_decide. Qed.

(** An external job that is past dispatching is not dispatched again. *)
Lemma settled_no_dispatch id l w r :
  jobs_of (w_db w) !! id = Some r → jb_effect r = "external" → jb_status r ∈ settled →
  dispatches id l (run_ops l w).1 = 0.
Proof.
  revert w r. induction l as [|[t o] l IH]; intros w r Hr He Hs; [done|]. simpl.
  destruct (run_op o _) as [x w1] eqn:E.
  pose proof (run_op_le o _ _ _ E id r Hr) as (r1 & Hr1 & Hle).
  assert (jb_status r1 ∈ settled) as Hs1 by (destruct Hle as [_ _ _ _ _ Hst]; rewrite He in Hst; by eapply settled_rtc).
  specialize (IH w1 r1 Hr1 ltac:(rewrite (le_effect _ _ Hle); done) Hs1).
  destruct (run_ops l w1) as [rs w2]. simpl in *. unfold dispatches in *.
  rewrite (zip_filter_cons (λ p, is_dispatch_of id p.2)), IH. simpl.
  destruct (is_dispatch_of id o) eqn:Ho; [|done]. destruct x as [u|e]; [|done].
  destruct o; try done. apply bool_decide_eq_true in Ho. cbn [run_op] in E.
  apply transition_Ok in E as (r' & Hr' & Hown & _). cbn in Hr'. rewrite Ho in *. simplify_eq.
  apply owned_spec in Hown as (_ & _ & _ & _ & Hst). unfold settled in Hs. status_cases; congruence.
Qed.

Lemma upd_db_jobs_id g db : g (jobs_of db) = jobs_of db → upd_db_jobs g db = db.
Proof. unfold upd_db_jobs, jobs_of. intros ->. by destruct db. Qed.

(** A handle whose fence has been passed moves nothing. *)
Lemma stale_transition j set sts w r :
  jobs_of (w_db w) !! ID j = Some r → jb_fence r ≠ Fence j →
  ∃ e w', transition j set sts w = (Err e, w') ∧ w_db w' = w_db w.
Proof.
  intros Hr Hf. destruct (transition j set sts w) as [[u|e] w'] eqn:E.
  - apply transition_Ok in E as (r' & Hr' & Ho & _). apply owned_spec in Ho. naive_solver congruence.
  - exists e, w'. split; [done|]. apply transition_db in E as [E|E]; [done|]. rewrite E.
    apply upd_db_jobs_id, update_where_none. intros id r' Hid.
    destruct (owned _ _ _ id r') eqn:Ho; [|done]. apply owned_spec in Ho. naive_solver congruence.
Qed.

#[export] Instance claim_order_trans : Transitive claim_order.
Proof. intros a b c. unfold claim_order. lia. Qed.
#[export] Instance claim_order_total : Total claim_order.
Proof. intros a b. unfold claim_order. lia. Qed.

(** The candidate is the first claimable row in the claim order. *)
Lemma candidate_least t kinds jobs id r id' r' :
  candidate t kinds jobs = Some (id, r) → jobs !! id' = Some r' → claimable t kinds r' = true →
  claim_order (id, r) (id', r').
Proof.
  unfold candidate. set (l := filter _ _). intros Hh Hr' Hc.
  assert ((id', r') ∈ merge_sort claim_order l) as Hin.
  { rewrite (merge_sort_Permutation claim_order). apply list_elem_of_filter.
    split; [done|]. by apply elem_of_map_to_list. }
  pose proof (StronglySorted_merge_sort claim_order l) as Hs.
  destruct (merge_sort claim_order l) as [|x rest]; [done|]. simplify_eq/=.
  apply elem_of_cons in Hin as [[= -> ->]|Hin]; [unfold claim_order; simpl; lia|].
  inversion Hs as [|? ? _ Hall]. subst. by eapply Forall_forall in Hall.
Qed.

Lemma candidate_None t kinds jobs :
  candidate t kinds jobs = None ↔ ∀ id r, jobs !! id = Some r → claimable t kinds r = false.
Proof.
  unfold candidate. set (l := filter _ _). rewrite head_None.
  rewrite <-Permutation_nil_r, (merge_sort_Permutation claim_order), Permutation_nil_r. split.
  - intros Hl id r Hr. destruct (claimable t kinds r) eqn:Hc; [|done].
    assert ((id, r) ∈ l) as Hin by (apply list_elem_of_filter; split; [done|by apply elem_of_map_to_list]).
    rewrite Hl in Hin. by apply elem_of_nil in Hin.
  - intros Hn. destruct l as [|[id r] rest] eqn:El; [done|].
    assert ((id, r) ∈ l) as Hin by (rewrite El; by left). unfold l in Hin.
    apply list_elem_of_filter in Hin as [Hc Hin%elem_of_map_to_list]. simpl in Hc.
    by rewrite (Hn id r Hin) in Hc.
Qed.

(** The sweeps neither remove nor create claimable rows. *)
Lemma swept_claimable t kinds jobs id r :
  claimable t kinds r = true → swept t jobs !! id = Some r ↔ jobs !! id = Some r.
Proof.
  intros Hc. assert (∀ r0, jobs !! id = Some r0 → swept t jobs !! id = Some r → r0 = r) as Hback.
  { intros r0 E Hs. destruct (swept_row t _ _ _ E) as (r1 & Hr1 & _ & [->|Hst]); [congruence|].
    simplify_eq. exfalso. unfold claimable in Hc. status_cases; congruence. }
  split; intros H.
  - destruct (jobs !! id) as [r0|] eqn:E; [by rewrite (Hback r0 eq_refl H)|].
    unfold swept, sweep_exhausted, sweep_uncertain in H. by rewrite !lookup_update_where, E in H.
  - unfold swept, sweep_exhausted, sweep_uncertain. rewrite !lookup_update_where, H. cbn.
    unfold claimable in Hc. repeat (apply andb_true_iff in Hc as [Hc ?]).
    assert ((jb_max_attempts r <=? jb_attempt r)%Z = false) as Hm by (b2p; lia).
    assert (status_in r ["dispatched"] && bool_decide (jb_effect r = "external") && lease_expired t r = false) as E1.
    { destruct (status_in r ["dispatched"]) eqn:E; [|done]. status_cases; try congruence;
        (rewrite bool_decide_eq_false_2 by congruence; done). }
    by rewrite E1, Hm, andb_false_r.
Qed.

(** ** Properties *)

(** C3: an external effect is dispatched at most once.  Over any sequence of
    enqueues, claims, dispatches, acknowledgements, failures and project
    cancellations, by any workers, at any times and with any driver failures,
    at most one dispatch of a given external job succeeds: a worker that crashed
    after dispatching leaves the job uncertain, never claimable again. *)
Theorem external_dispatched_at_most_once l w id r :
  jobs_of (w_db (run_ops l w).2) !! id = Some r → jb_effect r = "external" →
  dispatches id l (run_ops l w).1 ≤ 1.
Proof.
  revert w. induction l as [|[t o] l IH]; intros w; simpl; [unfold dispatches; simpl; lia|].
  destruct (run_op o _) as [x w1] eqn:E. specialize (IH w1).
  pose proof (settled_no_dispatch id l w1) as H0.
  pose proof (run_ops_keeps jobs_le l w1 run_op_le) as Hle.
  destruct (run_ops l w1) as [rs w2]. simpl in *. intros Hr He. unfold dispatches in *.
  rewrite (zip_filter_cons (λ p, is_dispatch_of id p.2)). simpl.
  destruct (is_dispatch_of id o) eqn:Ho; [|by apply IH]. destruct x as [u|e]; [|by apply IH].
  destruct o; try done. apply bool_decide_eq_true in Ho. cbn [run_op] in E.
  apply transition_Ok in E as (r0 & _ & _ & Hr1). rewrite Ho in Hr1.
  destruct (Hle id _ Hr1) as (r2 & Hr2 & Hle2). simplify_eq.
  rewrite (H0 _ Hr1); [simpl; lia| |simpl; concrete_elem].
  rewrite <-(le_effect _ _ Hle2). done.
Qed.

(** A run for the examples: enqueue, claim, dispatch, an expired lease, a second
    claim attempt and a second dispatch. *)
Definition demo_handle : Job := mkJobHandle 7 "mail.send" (JObj []) "external" 1 1 (31 * Second) 9.
Definition demo_ops : list (time * job_op) :=
  [(1 * Second, OpEnqueue 7 "mail.send" "{}" "external" 3);
   (1 * Second, OpClaim 9 (30 * Second) []);
   (2 * Second, OpDispatch demo_handle);
   (60 * Second, OpClaim 10 (30 * Second) []);
   (61 * Second, OpDispatch demo_handle)]%Z.

Lemma external_dispatched_at_most_once_witness :
  (run_ops demo_ops (world_of empty_db 0)).1 = [true; true; true; false; false] ∧
  dispatches 7 demo_ops (run_ops demo_ops (world_of empty_db 0)).1 ≤ 1.
Proof.
  split; [vm_compute; reflexivity|].
  refine (external_dispatched_at_most_once demo_ops (world_of empty_db 0) 7
    (mkJob "mail.send" (JObj []) "external" "uncertain" (1 * Second) (Some (31 * Second)%Z) (Some 9%N) 1 3 1
       "dispatch_outcome_unknown") _ _); vm_compute; reflexivity.
Defined.

(** A lost lease is lost for good.  Once another claim has taken a job, the
    handle of the earlier claim can neither dispatch, acknowledge nor fail it,
    at any later time: each call reports an error and changes nothing. *)
Theorem stale_worker_is_fenced wa la ka j w w1 l1 wb lb kb j' w3 l2 o :
  ClaimKinds wa la ka w = (Ok j, w1) →
  ClaimKinds wb lb kb (run_ops l1 w1).2 = (Ok j', w3) → ID j' = ID j →
  o = OpDispatch j ∨ o = OpAck j ∨ (∃ u, o = OpFail j u) →
  let w4 := (run_ops l2 w3).2 in
  ∃ e w5, run_op o w4 = (Err e, w5) ∧ w_db w5 = w_db w4.
Proof.
  intros H1 H2 Hid Ho w4.
  apply ClaimKinds_Ok in H1 as (_ & _ & r & _ & Hj & Hw1).
  assert (jobs_of (w_db w1) !! ID j = Some (claim_row wa (w_now w + la / Millisecond * Millisecond)%Z r)) as Hr1
    by (unfold jobs_of; rewrite Hw1; apply lookup_insert_eq).
  destruct (run_ops_keeps jobs_le l1 w1 run_op_le _ _ Hr1) as (r2 & Hr2 & Hle2).
  apply ClaimKinds_Ok in H2 as (_ & _ & r2' & Hc & _ & Hw3).
  apply candidate_Some in Hc as [Hc _]. rewrite Hid in *.
  destruct (swept_row (w_now (run_ops l1 w1).2) _ _ _ Hr2) as (r2'' & Hs & Hle2' & _). simplify_eq.
  assert (jobs_of (w_db w3) !! ID j = Some (claim_row wb
    (w_now (run_ops l1 w1).2 + lb / Millisecond * Millisecond)%Z r2')) as Hr3
    by (unfold jobs_of; rewrite Hw3; apply lookup_insert_eq).
  destruct (run_ops_keeps jobs_le l2 w3 run_op_le _ _ Hr3) as (r4 & Hr4 & Hle4).
  assert (jb_fence r4 ≠ Fence j) as Hf.
  { rewrite Hj. destruct Hle2, Hle2', Hle4. simpl in *. lia. }
  destruct Ho as [->|[->|[u ->]]]; by eapply stale_transition.
Qed.

Definition demo_local : list (time * job_op) := [(1 * Second, OpEnqueue 7 "vault.event" "{}" "local" 3)]%Z.

Lemma stale_worker_is_fenced_witness :
  ∃ w w1 j j' w3,
    ClaimKinds 9 (30 * Second) [] w = (Ok j, w1) ∧
    ClaimKinds 10 (30 * Second) [] (run_ops [(60 * Second, OpCancelProject 1)]%Z w1).2 = (Ok j', w3) ∧
    ∃ e w5, run_op (OpAck j) (run_ops [] w3).2 = (Err e, w5) ∧ w_db w5 = w_db (run_ops [] w3).2.
Proof.
  pose (w := (run_ops demo_local (world_of empty_db 0)).2).
  exists w. eexists _, _, _, _. split; [vm_compute; reflexivity|]. split; [vm_compute; reflexivity|].
  refine (stale_worker_is_fenced 9 (30 * Second) [] _ w _ [(60 * Second, OpCancelProject 1)]%Z 10 (30 * Second) [] _ _ []
    (OpAck _) _ _ _ _); [vm_compute; reflexivity|vm_compute; reflexivity|reflexivity|right; left; reflexivity].
Defined.

(** The table stays well formed.  Every row keeps a status and an effect
    the schema admits, its fence counts its claims, a leased or dispatched row
    names its worker and lease, and the number of attempts never exceeds the
    declared maximum, over any run of the operations. *)
Theorem outbox_invariant l w :
  jobs_wf (w_db w) → jobs_wf (w_db (run_ops l w).2).
Proof. apply (run_ops_keeps wf_step l w run_op_wf). Qed.

Lemma outbox_invariant_witness :
  jobs_wf empty_db ∧ jobs_wf (w_db (run_ops demo_ops (world_of empty_db 0)).2).
Proof.
  split; [intros ? ?; discriminate|].
  apply (outbox_invariant demo_ops (world_of empty_db 0)). intros ? ?; discriminate.
Defined.

(** C37: finished jobs stay finished.  Over any run no row disappears or changes
    its kind, payload, effect or attempt limit; every status change follows the
    state machine [next_statuses]; and a row that is done, failed or uncertain
    keeps its status for good. *)
Theorem outbox_state_machine l w id r :
  jobs_of (w_db w) !! id = Some r →
  ∃ r', jobs_of (w_db (run_ops l w).2) !! id = Some r' ∧
    jb_kind r' = jb_kind r ∧ jb_payload r' = jb_payload r ∧ jb_effect r' = jb_effect r ∧
    jb_max_attempts r' = jb_max_attempts r ∧
    rtc (edge (jb_effect r)) (jb_status r) (jb_status r') ∧
    (jb_status r ∈ ["done"; "failed"; "uncertain"] → jb_status r' = jb_status r).
Proof.
  intros Hr. destruct (run_ops_keeps jobs_le l w run_op_le id r Hr) as (r' & Hr' & []).
  exists r'. split_and!; try done. by apply terminal_rtc with (eff := jb_effect r).
Qed.

Lemma outbox_state_machine_witness :
  ∃ r r', jobs_of (w_db (run_ops (take 4 demo_ops) (world_of empty_db 0)).2) !! 7%N = Some r ∧
    jb_status r = "uncertain" ∧
    jobs_of (w_db (run_ops demo_ops (run_ops (take 4 demo_ops) (world_of empty_db 0)).2).2) !! 7%N = Some r' ∧
    jb_status r' = "uncertain".
Proof.
  pose (w := (run_ops (take 4 demo_ops) (world_of empty_db 0)).2).
  assert (∃ r, jobs_of (w_db w) !! 7%N = Some r ∧ jb_status r = "uncertain") as (r & Hr & Hs)
    by (eexists; split; vm_compute; reflexivity).
  destruct (outbox_state_machine demo_ops w 7 r Hr) as (r' & Hr' & _ & _ & _ & _ & _ & Hfin).
  exists r, r'. split; [exact Hr|]. split; [exact Hs|]. split; [exact Hr'|].
  rewrite <-Hs. apply Hfin. rewrite Hs. right. right. left.
Defined.

(** A claim takes exactly one free job.  A successful claim returns a job
    that, before the call, was available, matched the requested kinds, had
    attempts left and was held by nobody (pending, or its lease had expired and
    it was not an external effect already dispatched); it comes first among the
    claimable rows; afterwards the row is leased to this worker, with the fence
    it returns, until at most five minutes later. *)
Theorem claim_takes_one_free_job worker lease kinds j w w' :
  ClaimKinds worker lease kinds w = (Ok j, w') →
  let t := w_now w in
  ∃ r, jobs_of (w_db w) !! ID j = Some r ∧ claimable t kinds r = true ∧
    (∀ id r', jobs_of (w_db w) !! id = Some r' → claimable t kinds r' = true → claim_order (ID j, r) (id, r')) ∧
    (jb_status r = "pending" ∨ lease_expired t r = true) ∧
    (jb_status r = "dispatched" → jb_effect r = "local") ∧
    jobs_of (w_db w') !! ID j = Some (claim_row worker (LeaseUntil j) r) ∧
    Fence j = (jb_fence r + 1)%Z ∧ WorkerID j = worker ∧ (t < LeaseUntil j <= t + 5 * Minute)%Z.
Proof.
  intros H t. apply ClaimKinds_Ok in H as (_ & Hl & r & Hc & Hj & Hw').
  pose proof Hc as [Hr Hcl]%candidate_Some. fold t in Hc, Hr, Hcl, Hj, Hw'. exists r. split_and!.
  - by apply (swept_claimable t kinds _ _ _ Hcl).
  - done.
  - intros id r' Hr' Hcl'. eapply candidate_least; [done| |done]. by apply (swept_claimable t kinds _ _ _ Hcl').
  - unfold claimable in Hcl. apply andb_true_iff in Hcl as [_ Hcl]. status_cases; auto.
  - unfold claimable in Hcl. apply andb_true_iff in Hcl as [_ Hcl]. intros Hd. status_cases; congruence.
  - unfold jobs_of. rewrite Hw', Hj. apply lookup_insert_eq.
  - by rewrite Hj.
  - by rewrite Hj.
  - rewrite Hj. simpl. unfold Second, Minute, Millisecond in *. Z.to_euclidean_division_equations. lia.
  - rewrite Hj. simpl. unfold Second, Minute, Millisecond in *. Z.to_euclidean_division_equations. lia.
Qed.

Lemma claim_takes_one_free_job_witness :
  ∃ w j w', ClaimKinds 9 (30 * Second) ["vault.event"] w = (Ok j, w') ∧ ID j = 7%N ∧ Fence j = 1%Z.
Proof.
  pose (w := (run_ops demo_local (world_of empty_db 0)).2).
  exists w. eexists _, _. split; [vm_compute; reflexivity|]. split; [reflexivity|].
  match goal with |- Fence ?j = _ =>
    destruct (claim_takes_one_free_job 9 (30 * Second) ["vault.event"] j w _ ltac:(vm_compute; reflexivity))
      as (r & Hr & _ & _ & _ & _ & _ & Hf & _) end.
  rewrite Hf. vm_compute in Hr. injection Hr as <-. reflexivity.
Defined.

(** C38: the queue makes progress.  When the database answers and some row is
    claimable, a claim with a valid worker and lease returns a job; it reports
    "no job ready" exactly when no row is claimable. *)
Theorem claim_progress worker lease kinds w :
  w_faults w = [] → worker ≠ uuid_Nil → (Second <= lease <= 5 * Minute)%Z →
  ((∃ j w', ClaimKinds worker lease kinds w = (Ok j, w')) ↔
   ∃ id r, jobs_of (w_db w) !! id = Some r ∧ claimable (w_now w) kinds r = true) ∧
  ((∃ w', ClaimKinds worker lease kinds w = (Err ErrNoJob, w')) ↔
   ∀ id r, jobs_of (w_db w) !! id = Some r → claimable (w_now w) kinds r = false).
Proof.
  intros Hf Hw Hl.
  assert (∀ jobs, candidate (w_now w) kinds (swept (w_now w) jobs) = None ↔
    ∀ id r, jobs !! id = Some r → claimable (w_now w) kinds r = false) as Hnone.
  { intros jobs. rewrite candidate_None. split; intros Hn id r Hr;
      (destruct (claimable _ kinds r) eqn:E; [|done]); rewrite <-(Hn id r), E; try done;
      by apply (swept_claimable _ kinds _ _ _ E). }
  specialize (Hnone (jobs_of (w_db w))).
  assert (∃ w', ClaimKinds worker lease kinds w =
    (match candidate (w_now w) kinds (swept (w_now w) (jobs_of (w_db w))) with
     | None => Err ErrNoJob
     | Some (id, r) => let r := claim_row worker (w_now w + lease / Millisecond * Millisecond)%Z r in
         Ok (mkJobHandle id (jb_kind r) (jb_payload r) (jb_effect r) (jb_attempt r) (jb_fence r)
                (default 0%Z (jb_lease_until r)) worker)
     end, w')) as [w' E].
  { unfold ClaimKinds. rewrite bool_decide_eq_false_2, !(proj2 (Z.ltb_ge _ _)) by (done || lia). simpl.
    destruct w as [db t rng faults locks]. simpl in *. subst faults.
    unfold with_tx, with_tx_opt, exec_, exec, exec_n, claim_statement, query, tick, now, get, modify, mbind, M_bind, mret, M_ret.
    cbn. fold (swept t (db_jobs db)). unfold jobs_of.
    destruct (candidate _ _ _) as [[id r]|]; cbn; eauto. }
  rewrite E. destruct (candidate _ _ _) as [[id r]|] eqn:Ec.
  - pose proof Ec as [Hr Hc]%candidate_Some. apply (proj1 (swept_claimable _ kinds _ _ _ Hc)) in Hr.
    split; split.
    + intros _. by exists id, r.
    + intros _. eexists _, _. reflexivity.
    + by intros [? ?].
    + intros Hn. by rewrite (Hn id r Hr) in Hc.
  - pose proof (proj1 Hnone eq_refl) as Hn. split; split.
    + by intros (? & ? & ?).
    + intros (id & r & Hr & Hc). by rewrite (Hn id r Hr) in Hc.
    + done.
    + intros _. eexists. reflexivity.
Qed.

Lemma claim_progress_witness :
  ∃ w, w_faults w = [] ∧ ∃ j w', ClaimKinds 9 (30 * Second) [] w = (Ok j, w').
Proof.
  pose (w := (run_ops demo_local (world_of empty_db 0)).2).
  exists w. split; [vm_compute; reflexivity|].
  refine (proj2 (proj1 (claim_progress 9 (30 * Second) [] w _ _ _)) _);
    [vm_compute; reflexivity|discriminate|vm_compute; split; discriminate|].
  eexists 7%N, _. split; [vm_compute; reflexivity|]. vm_compute. reflexivity.
Defined.
