(* ===== verification/Authority.v ===== *)
(** * Admission barriers and stored authority

    [internal/authority/guard.go] takes the row locks that serialize a request
    against revocation, in one global order, and
    [internal/repository/authority_store.go] loads the authority a principal
    holds.  Both only read; the theorems are the lock order, the facts an
    admission guarantees, and the attenuation of agent tokens. *)
From S2P Require Import Prelude GoStrings GoEncoding Policy Schema Database.

(** ** Definitions *)

Inductive DBType := DBTypePostgres | DBTypeMySQL | DBTypeSQLite.
#[export] Instance DBType_eq_dec : EqDecision DBType.
Proof. solve_decision. Defined.

Definition ErrDenied : error := Sentinel "resource unavailable".

(** The tables, by the sub-database that holds them. *)
Definition users (db : DB) := t_users (db_identity db).
Definition sessions (db : DB) := t_session_tokens (db_identity db).
Definition organizations (db : DB) := t_organizations (db_identity db).
Definition members (db : DB) := t_organization_members (db_identity db).
Definition member_states (db : DB) := t_member_authority_state (db_identity db).
Definition oauth_clients (db : DB) := t_mcp_oauth_clients (t_oauth (db_identity db)).
Definition oauth_requests (db : DB) := t_mcp_oauth_requests (t_oauth (db_identity db)).
Definition oauth_consents (db : DB) := t_mcp_oauth_consents (t_oauth (db_identity db)).
Definition oauth_codes (db : DB) := t_mcp_oauth_codes (t_oauth (db_identity db)).
Definition oauth_families (db : DB) := t_mcp_oauth_families (t_oauth (db_identity db)).
Definition oauth_tokens (db : DB) := t_mcp_oauth_tokens (t_oauth (db_identity db)).
Definition projects (db : DB) := t_projects (db_projects db).
Definition environments (db : DB) := t_environments (db_projects db).
Definition api_keys (db : DB) := t_api_keys (db_projects db).
Definition leases (db : DB) := t_secret_leases (db_projects db).
Definition issuance (db : DB) := t_agent_token_issuance (db_projects db).
Definition denylist (db : DB) := t_token_denylist (db_projects db).

(** [DELETE FROM api_keys WHERE ...]: [ON DELETE CASCADE] takes the keys' leases
    and the tokens issued under those along. *)
Definition delete_api_keys (p : uuid → api_key_row → bool) (db : DB) : DB :=
  let keys := delete_where p (api_keys db) in
  let ls := delete_where (λ _ l, bool_decide (keys !! le_api_key_id l = None)) (leases db) in
  let toks := delete_where (λ _ i, bool_decide (ls !! is_lease_id i = None)) (issuance db) in
  upd_db_projects (upd_t_agent_token_issuance (const toks) ∘ upd_t_secret_leases (const ls)
                   ∘ upd_t_api_keys (const keys)) db.

(** [ORDER BY] the text of the UUID, which is the order of its value. *)
Definition sort_uuids (l : list uuid) : list uuid := merge_sort N.le l.
(** The keys of a Go map used as a set, then sorted. *)
Definition sorted_set (l : list uuid) : list uuid := sort_uuids (remove_dups l).

Section Guard.
Context (Dialect : DBType).

(** [Guard.lock]: SQLite has no row locks. *)
Definition g_lock (l : lock) : Tx unit :=
  if bool_decide (Dialect = DBTypeSQLite) then mret () else note_lock l.

(** [SELECT ... FOR SHARE/UPDATE]: the row, locked; no row is a denial. *)
Definition select_locked {A} (l : lock) (f : DB → option A) : Tx A :=
  r ← on_err ErrDenied (query_row f);
  _ ← g_lock l;
  mret r.

Definition LockSubjects (ids : list uuid) : Tx unit :=
  if bool_decide (uuid_Nil ∈ ids) then fail ErrDenied
  else for_each (sorted_set ids) (λ id,
    _ ← select_locked (LockSubject id) (λ db, if decide (id ∈ users db) then Some id else None);
    mret ()).

(** The admission conditions on a session row. *)
Definition session_live (t : time) (p : Principal) (recent : bool) (s : session_row) : bool :=
  bool_decide (se_user_id s = p_SubjectID p) && negb (se_revoked s) && (t <? se_expires_at s)%Z
  && (negb recent || (t - 10 * Minute <? se_created_at s)%Z).

Definition RequireSession (p : Principal) (recent : bool) : Tx unit :=
  if (negb (bool_decide (p_Kind p = Human)) && negb (bool_decide (p_Kind p = OAuthDelegation)))
     || bool_decide (p_SubjectID p = uuid_Nil) || bool_decide (p_SessionID p = uuid_Nil)
     || (negb (bool_decide (p_ActorID p = uuid_Nil)) && negb (bool_decide (p_ActorID p = p_SubjectID p)))
  then fail ErrDenied
  else
    t ← now;
    _ ← select_locked (LockSession (p_SessionID p)) (λ db,
          s ← sessions db !! p_SessionID p;
          if session_live t p recent s then Some (p_SessionID p) else None);
    mret ().

Definition human (user sid : uuid) : Principal := mkPrincipal Human user user 0 0 0 sid 0 "".

Definition RequireRecentTx (user sid : uuid) : Tx unit :=
  _ ← LockSubjects [user]; RequireSession (human user sid) true.
Definition RequireActiveTx (user sid : uuid) : Tx unit :=
  _ ← LockSubjects [user]; RequireSession (human user sid) false.

Definition lock_organization (org : uuid) : Tx unit :=
  _ ← select_locked (LockOrganization org) (λ db, if decide (org ∈ organizations db) then Some org else None);
  mret ().

Definition member (org user : uuid) (role : string) : Tx unit :=
  _ ← (if bool_decide (Dialect = DBTypePostgres) then
         r ← select_locked (LockMemberState org user) (λ db, member_states db !! (org, user));
         check (r.1 && (1 <=? r.2)%Z) ErrDenied
       else mret ());
  actual ← select_locked (LockMembership org user) (λ db, members db !! (org, user));
  if negb (bool_decide (role = "")) && negb (RoleAllows actual role) then fail ErrDenied else mret ().

Definition RequireOrg (p : Principal) (org : uuid) (requiredRole : string) : Tx unit :=
  _ ← lock_organization org;
  _ ← member org (p_SubjectID p) requiredRole;
  RequireSession p false.

(** [SELECT owner_id,organization_id FROM projects WHERE id=$1 AND deleted_at IS NULL]. *)
Definition live_project (project : uuid) (db : DB) : option (uuid * option uuid) :=
  r ← projects db !! project;
  match pr_deleted_at r with
  | Some _ => None
  | None => Some (pr_owner_id r, pr_organization_id r)
  end.
Definition any_project (project : uuid) (db : DB) : option (uuid * option uuid) :=
  r ← projects db !! project; Some (pr_owner_id r, pr_organization_id r).

(** The user whose authority the request runs under. *)
Definition acting_user (p : Principal) : Tx uuid :=
  if bool_decide (p_Kind p = Human) || bool_decide (p_Kind p = OAuthDelegation) then mret (p_SubjectID p)
  else if bool_decide (p_Kind p = APIKey) then
    on_err ErrDenied (query_row (λ db, ak_user_id <$> api_keys db !! p_SubjectID p))
  else mret (p_ActorID p).

Definition lockProjectOrganizations (p : Principal) (project : uuid) (extra organizations : list uuid) : Tx unit :=
  actor ← acting_user p;
  before ← on_err ErrDenied (query_row (live_project project));
  let '(owner, org) := before in
  _ ← LockSubjects (actor :: owner :: extra);
  if bool_decide (uuid_Nil ∈ organizations) then fail ErrDenied else
  let orderedOrgs := sorted_set (organizations ++ option_list org) in
  _ ← for_each orderedOrgs lock_organization;
  current ← select_locked (LockProjectRow project) (live_project project);
  _ ← check (bool_decide (current = before)) ErrDenied;
  _ ← for_each orderedOrgs (λ oid,
        for_each (sort_uuids (actor :: if bool_decide (org = Some oid) then extra else []))
          (λ id, member oid id ""));
  if bool_decide (org = None) && existsb (λ id, negb (bool_decide (id = owner))) extra then fail ErrDenied
  else if (bool_decide (p_Kind p = Human) || bool_decide (p_Kind p = OAuthDelegation))
          && negb (bool_decide (p_SessionID p = uuid_Nil))
  then RequireSession p false
  else mret ().

Definition LockProjectSubjects (p : Principal) (project : uuid) (extra : list uuid) : Tx unit :=
  lockProjectOrganizations p project extra [].
Definition LockProject (p : Principal) (project : uuid) : Tx unit := LockProjectSubjects p project [].
Definition LockProjectOrganizations (p : Principal) (project : uuid) (organizations : list uuid) : Tx unit :=
  lockProjectOrganizations p project [] organizations.

Definition LockProjectMaintenance (project : uuid) (extra : list uuid) : Tx unit :=
  before ← on_err ErrDenied (query_row (any_project project));
  let '(owner, org) := before in
  let ids := owner :: extra in
  _ ← LockSubjects ids;
  _ ← (match org with Some o => lock_organization o | None => mret () end);
  actual ← select_locked (LockProjectRow project) (any_project project);
  _ ← check (bool_decide (actual = before)) ErrDenied;
  match org with
  | None => mret ()
  | Some o =>
      for_each (sorted_set ids) (λ id,
        r ← query (λ db, member_states db !! (o, id));
        match r with Some _ => note_lock (LockMemberState o id) | None => mret () end)
  end.
End Guard.

(** *** [AuthorityStore.LoadAuthority] *)

Section Store.
Context (Dialect : DBType) (RequireHumanSession : bool).

(** [LEAST(f.expires_at,c.expires_at)] of a live consent family. *)
Definition delegation_expiry (t : time) (p : Principal) (db : DB) : option time :=
  f ← oauth_families db !! p_ParentGrantID p;
  c ← oauth_consents db !! of_consent_id f;
  client ← oauth_clients db !! oc_client_id c;
  if bool_decide (oc_user_id c = p_SubjectID p) && bool_decide (oc_session_id c = p_SessionID p)
     && bool_decide (of_revoked_at f = None) && bool_decide (oc_revoked_at c = None)
     && cl_enabled client && (t <? of_expires_at f)%Z && (t <? oc_expires_at c)%Z
  then Some (Z.min (of_expires_at f) (oc_expires_at c)) else None.

(** The number of live sessions the principal names: zero or one. *)
Definition live_sessions (t : time) (p : Principal) (db : DB) : nat :=
  match sessions db !! p_SessionID p with
  | Some s => if session_live t p false s then 1 else 0
  | None => 0
  end.

(** The row the agent-token query joins: the parent key, the lease and the
    token's expiry. *)
Record agent_row := mkAgentRow {
  ag_key : api_key_row;
  ag_lease : lease_row;
  ag_token_expiry : time;
}.
Definition agent_lookup (t : time) (p : Principal) (db : DB) : option agent_row :=
  i ← issuance db !! p_TokenID p;
  l ← leases db !! is_lease_id i;
  k ← api_keys db !! le_api_key_id l;
  if bool_decide (le_project_id l = is_project_id i) && bool_decide (ak_project_id k = le_project_id l)
     && bool_decide (is_lease_id i = p_LeaseID p) && bool_decide (is_user_id i = p_ActorID p)
     && negb (le_revoked l)
     && negb (match denylist db !! p_TokenID p with Some e => (t <? de_expires_at e)%Z | None => false end)
  then Some (mkAgentRow k l (is_expires_at i)) else None.

(** The narrowing checks on that row. *)
Definition agent_denied (t : time) (r : agent_row) : bool :=
  negb (After (le_expires_at (ag_lease r)) t) || negb (After (ag_token_expiry r) t)
  || (match ak_expires_at (ag_key r) with
      | Some pe => negb (After pe t) || After (le_expires_at (ag_lease r)) pe
      | None => false
      end)
  || (match ak_environment (ag_key r) with
      | Some e => negb (bool_decide (e = le_environment (ag_lease r)))
      | None => false
      end)
  || negb (LeaseKeysAllowed (ak_scopes (ag_key r)) (le_secret_keys (ag_lease r))).

Definition agent_expiry (r : agent_row) : time :=
  let e := ag_token_expiry r in
  let e := if Before (le_expires_at (ag_lease r)) e then le_expires_at (ag_lease r) else e in
  match ak_expires_at (ag_key r) with
  | Some pe => if Before pe e then pe else e
  | None => e
  end.

Definition agent_scopes (keys : list string) : list string :=
  (if bool_decide (keys = []) then ["read"] else []) ++ map (λ key, "read:" +:+ key) keys.

(** The tenant and role the database records for a user on a project. *)
Definition project_role (actor project : uuid) (db : DB) : option (uuid * string) :=
  r ← projects db !! project;
  match pr_deleted_at r with
  | Some _ => None
  | None =>
      Some (default uuid_Nil (pr_organization_id r),
            match pr_organization_id r with
            | None => if bool_decide (pr_owner_id r = actor) then "admin" else ""
            | Some o => default "" (members db !! (o, actor))
            end)
  end.

Definition LoadAuthority (p : Principal) (r : Resource) : Tx Authority :=
  t ← now;
  let a := mkAuthority (p_SubjectID p) uuid_Nil "" (r_ProjectID r) "" [] 0 in
  a ← (if bool_decide (p_Kind p = APIKey) then
         k ← query_row (λ db, api_keys db !! p_SubjectID p);
         mret (mkAuthority (ak_user_id k) uuid_Nil "" (ak_project_id k) (default "" (ak_environment k))
                 (ak_scopes k) (default 0%Z (ak_expires_at k)))
       else mret a);
  a ← (if bool_decide (p_Kind p = OAuthDelegation) then
         if negb (bool_decide (Dialect = DBTypePostgres)) || bool_decide (p_ParentGrantID p = uuid_Nil)
            || bool_decide (p_SessionID p = uuid_Nil)
         then fail (Errorf "delegation missing")
         else
           e ← query_row (delegation_expiry t p);
           mret (mkAuthority (a_ActorID a) (a_TenantID a) (a_Role a) (a_ProjectID a) (a_Environment a) (a_Scopes a) e)
       else mret a);
  _ ← (if (bool_decide (p_Kind p = Human) && RequireHumanSession) || bool_decide (p_Kind p = OAuthDelegation) then
         if bool_decide (p_SessionID p = uuid_Nil) then fail (Errorf "human session missing")
         else n ← query (live_sessions t p); check (n =? 1) (Errorf "human session revoked")
       else mret ());
  a ← (if bool_decide (p_Kind p = AgentToken) then
         if bool_decide (p_LeaseID p = uuid_Nil) || bool_decide (p_TokenID p = "")
         then fail (Errorf "agent authority missing")
         else
           row ← query_row (agent_lookup t p);
           if agent_denied t row then fail (Errorf "agent authority denied")
           else mret (mkAuthority (ak_user_id (ag_key row)) (a_TenantID a) (a_Role a) (ak_project_id (ag_key row))
                        (le_environment (ag_lease row)) (agent_scopes (le_secret_keys (ag_lease row)))
                        (agent_expiry row))
       else mret a);
  tr ← query_row (project_role (a_ActorID a) (a_ProjectID a));
  mret (mkAuthority (a_ActorID a) tr.1 tr.2 (a_ProjectID a) (a_Environment a) (a_Scopes a) (a_ExpiresAt a)).
End Store.

(** ** The lock order *)

(** The phase of a lock: subjects, organizations, the project, memberships,
    sessions, API keys, leases, tokens, the rows of delegated OAuth and those of
    the tool platform. *)
Definition lock_phase (l : lock) : Z :=
  match l with
  | LockSubject _ => 0
  | LockOrganization _ => 1
  | LockProjectRow _ => 2
  | LockMemberState _ _ | LockMembership _ _ => 3
  | LockSession _ => 4
  | LockAPIKey _ => 5
  | LockLease _ => 6
  | LockToken _ => 7
  | LockRequest _ => 8
  | LockConsent _ => 9
  | LockClient _ => 10
  | LockFamily _ => 11
  | LockCode _ => 12
  | LockOAuthToken _ => 13
  | LockRun _ => 14
  | LockOperation _ => 15
  | LockToolRow _ _ => 16
  end.

(** Within a phase: by identifier, memberships by organization, then user. *)
Definition lock_key (l : lock) : N * N :=
  match l with
  | LockSubject u => (u, 0)
  | LockOrganization o => (o, 0)
  | LockProjectRow p => (p, 0)
  | LockMemberState o u | LockMembership o u => (o, u)
  | LockSession s => (s, 0)
  | LockAPIKey k => (k, 0)
  | LockLease l => (l, 0)
  | LockRequest r => (r, 0)
  | LockConsent c => (c, 0)
  | LockFamily f => (f, 0)
  | LockOAuthToken t => (t, 0)
  | LockRun r => (r, 0)
  | LockOperation o => (o, 0)
  | LockToolRow _ t => (t, 0)
  | LockToken _ | LockClient _ | LockCode _ => (0, 0)
  end%N.

(** The global acquisition order. *)
Definition lock_le (a b : lock) : Prop :=
  (lock_phase a < lock_phase b)%Z ∨
  (lock_phase a = lock_phase b ∧
   ((((lock_key a).1 < (lock_key b).1)%N) ∨ ((lock_key a).1 = (lock_key b).1 ∧ ((lock_key a).2 <= (lock_key b).2)%N))).

(** [acquires P m]: the locks [m] takes satisfy [P] and come in order, whether
    or not it succeeds. *)
Definition acquires {A} (P : lock → Prop) (m : Tx A) : Prop :=
  ∀ w r w', m w = (r, w') →
    ∃ ls, w_locks w' = w_locks w ++ ls ∧ Forall P ls ∧ StronglySorted lock_le ls.

Definition phases (lo hi : Z) (l : lock) : Prop := (lo <= lock_phase l <= hi)%Z.

(** ** Lemmas *)

Lemma StronglySorted_app_2 {A} (R : A → A → Prop) l1 l2 :
  StronglySorted R l1 → StronglySorted R l2 → (∀ x y, x ∈ l1 → y ∈ l2 → R x y) → StronglySorted R (l1 ++ l2).
Proof.
  induction 1 as [|x l1 Hs IH Hx]; intros H2 Hc; [done|]. simpl. constructor.
  - apply IH; [done|]. intros; apply Hc; [by right|done].
  - apply Forall_app. split; [done|]. apply Forall_forall. intros y Hy. apply Hc; [by left|done].
Qed.

Section Acquires.
Implicit Types P Q : lock → Prop.

Lemma acquires_none {A} P (m : Tx A) : (∀ w r w', m w = (r, w') → w_locks w' = w_locks w) → acquires P m.
Proof. intros Hm w r w' E. exists []. rewrite app_nil_r, (Hm _ _ _ E). by repeat constructor. Qed.

Lemma acquires_mono {A} P Q (m : Tx A) : (∀ l, P l → Q l) → acquires P m → acquires Q m.
Proof. intros HPQ Hm w r w' (ls & ? & ? & ?)%Hm. exists ls. split_and!; [done| |done]. by eapply Forall_impl. Qed.

Lemma acquires_ret {A} P (a : A) : acquires P (mret a).
Proof. apply acquires_none. by intros w r w' [= _ <-]. Qed.
Lemma acquires_fail {A} P e : acquires P (fail e : Tx A).
Proof. apply acquires_none. by intros w r w' [= _ <-]. Qed.
Lemma acquires_check P b e : acquires P (check b e : Tx unit).
Proof. destruct b; [apply acquires_ret|apply acquires_fail]. Qed.
Lemma acquires_now P : acquires P now.
Proof. apply acquires_none. by intros w r w' [= _ <-]. Qed.
Lemma acquires_query {A} P (f : DB → A) : acquires P (query f).
Proof.
  apply acquires_none. intros w r w'. unfold query, mbind, M_bind.
  destruct (tick w) as [[u|e] w1] eqn:E; injection E as _ <-; intros [= _ <-]; done.
Qed.
Lemma acquires_note_lock l : acquires (eq l) (note_lock l).
Proof. intros w r w' [= _ <-]. exists [l]. repeat constructor. Qed.

Lemma acquires_bind {A B} P Q (m : Tx A) (f : A → Tx B) :
  acquires P m → (∀ a, acquires Q (f a)) → (∀ x y, P x → Q y → lock_le x y) →
  acquires (λ l, P l ∨ Q l) (m ≫= f).
Proof.
  intros Hm Hf HPQ w r w'. unfold mbind, M_bind. destruct (m w) as [[a|e] w1] eqn:E; intros H.
  - apply Hm in E as (l1 & E1 & HP & S1). apply Hf in H as (l2 & E2 & HQ & S2).
    exists (l1 ++ l2). split_and!.
    + by rewrite E2, E1, <-app_assoc.
    + apply Forall_app. split; (eapply Forall_impl; [eassumption|]); simpl; tauto.
    + apply StronglySorted_app_2; [done..|]. intros x y Hx Hy. rewrite Forall_forall in HP, HQ. auto.
  - injection H as _ <-. apply Hm in E as (l1 & E1 & HP & S1). exists l1. split_and!; [done| |done].
    eapply Forall_impl; [eassumption|]. simpl. tauto.
Qed.

(** A step that takes no lock, before or after. *)
Lemma acquires_then {A B} P (m : Tx A) (f : A → Tx B) :
  acquires (λ _, False) m → (∀ a, acquires P (f a)) → acquires P (m ≫= f).
Proof. intros Hm Hf. eapply acquires_mono; [|apply (acquires_bind (λ _, False) P); [done..|]]; [by intros l [[]|?]|by intros x y []]. Qed.
Lemma acquires_last {A B} P (m : Tx A) (f : A → Tx B) :
  acquires P m → (∀ a, acquires (λ _, False) (f a)) → acquires P (m ≫= f).
Proof. intros Hm Hf. eapply acquires_mono; [|apply (acquires_bind P (λ _, False)); [done..|]]; [by intros l [?|[]]|by intros x y ? []]. Qed.

(** Consecutive phases. *)
Lemma acquires_phases {A B} lo mid mid' hi (m : Tx A) (f : A → Tx B) :
  acquires (phases lo mid) m → (∀ a, acquires (phases mid' hi) (f a)) →
  (lo <= mid < mid')%Z → (mid' <= hi)%Z → acquires (phases lo hi) (m ≫= f).
Proof.
  intros Hm Hf Hlt Hhi. eapply acquires_mono; [|apply (acquires_bind _ _ _ _ Hm Hf)]; unfold phases.
  - intros l [?|?]; lia.
  - intros x y Hx Hy. left. lia.
Qed.

Lemma acquires_for_each {K} (R : K → K → Prop) P (Pk : K → lock → Prop) (l : list K) (body : K → Tx unit) :
  StronglySorted R l → (∀ k, acquires (Pk k) (body k)) →
  (∀ j k x y, R j k → Pk j x → Pk k y → lock_le x y) → (∀ k x, Pk k x → P x) →
  acquires P (for_each l body).
Proof.
  intros Hs Hb Hord HP. cut (acquires (λ x, ∃ k, k ∈ l ∧ Pk k x) (for_each l body)).
  { apply acquires_mono. intros x (k & _ & Hk). exact (HP k x Hk). }
  induction Hs as [|k l Hs IH Hk]; simpl; [apply acquires_ret|].
  eapply acquires_mono; [|apply (acquires_bind (Pk k) (λ x, ∃ j, j ∈ l ∧ Pk j x)); [done|done|]].
  - intros x [Hx|(j & Hj & Hx)]; [exists k; split; [by left|done]|exists j; split; [by right|done]].
  - intros x y Hx (j & Hj & Hy). rewrite Forall_forall in Hk. eauto.
Qed.

Lemma acquires_on_err {A} P e (m : Tx A) : acquires P m → acquires P (on_err e m).
Proof. intros Hm w r w' H. unfold on_err in H. destruct (m w) as [[] w1] eqn:E; simplify_eq; by eapply Hm. Qed.
Lemma acquires_query_row {A} P (f : DB → option A) : acquires P (query_row f).
Proof.
  apply acquires_then; [apply acquires_query|]. intros [a|]; [apply acquires_ret|apply acquires_fail].
Qed.
End Acquires.

Lemma sort_uuids_sorted l : StronglySorted N.le (sort_uuids l).
Proof. apply (StronglySorted_merge_sort _). Qed.

Lemma elem_of_sort_uuids x l : x ∈ sort_uuids l ↔ x ∈ l.
Proof. unfold sort_uuids. by rewrite (merge_sort_Permutation N.le). Qed.

Lemma elem_of_sorted_set x l : x ∈ sorted_set l ↔ x ∈ l.
Proof. unfold sorted_set. rewrite elem_of_sort_uuids. apply elem_of_remove_dups. Qed.

Lemma sorted_set_strict l : StronglySorted N.lt (sorted_set l).
Proof.
  pose proof (sort_uuids_sorted (remove_dups l)) as Hs.
  assert (NoDup (sorted_set l)) as Hn.
  { unfold sorted_set, sort_uuids. rewrite (merge_sort_Permutation N.le). apply NoDup_remove_dups. }
  unfold sorted_set in *. induction Hs as [|x l' Hs IH Hx]; [constructor|].
  apply NoDup_cons in Hn as [Hnx Hn]. constructor; [auto|].
  rewrite Forall_forall in *. intros y Hy. specialize (Hx y Hy).
  assert (x ≠ y) by (intros ->; done). lia.
Qed.

Section GuardLocks.
Context (d : DBType).

Lemma acquires_g_lock l : acquires (eq l) (g_lock d l).
Proof. unfold g_lock. case_bool_decide; [apply acquires_ret|apply acquires_note_lock]. Qed.

Lemma acquires_select_locked {A} l (f : DB → option A) : acquires (eq l) (select_locked d l f).
Proof.
  apply acquires_then; [apply acquires_on_err, acquires_query_row|]. intros r.
  apply acquires_last; [apply acquires_g_lock|intros; apply acquires_ret].
Qed.

Lemma acquires_LockSubjects ids : acquires (phases 0 0) (LockSubjects d ids).
Proof.
  unfold LockSubjects. case_bool_decide; [apply acquires_fail|].
  eapply (acquires_for_each N.lt _ (λ k l, LockSubject k = l)); [apply sorted_set_strict|..].
  - intros k. apply acquires_last; [apply acquires_select_locked|intros; apply acquires_ret].
  - intros j k x y Hjk <- <-. right. split; [done|]. left. simpl. lia.
  - intros k x <-. unfold phases. simpl. lia.
Qed.

Lemma acquires_RequireSession p recent : acquires (phases 4 4) (RequireSession d p recent).
Proof.
  unfold RequireSession. destruct (_ || _); [apply acquires_fail|].
  apply acquires_then; [apply acquires_now|]. intros t.
  apply acquires_last; [|intros; apply acquires_ret].
  eapply acquires_mono; [|apply acquires_select_locked]. intros l <-. unfold phases. simpl. lia.
Qed.

Lemma acquires_lock_organization o : acquires (eq (LockOrganization o)) (lock_organization d o).
Proof. apply acquires_last; [apply acquires_select_locked|intros; apply acquires_ret]. Qed.

Definition member_lock (o u : uuid) (l : lock) : Prop := lock_phase l = 3%Z ∧ lock_key l = (o, u).

Lemma acquires_member o u role : acquires (member_lock o u) (member d o u role).
Proof.
  eapply acquires_mono; [|apply (acquires_bind (member_lock o u) (member_lock o u))].
  - by intros l [?|?].
  - case_bool_decide; [|apply acquires_ret].
    apply acquires_last; [|intros; apply acquires_check].
    eapply acquires_mono; [|apply acquires_select_locked]. by intros l <-.
  - intros _. apply acquires_last; [|intros; destruct (_ && _); [apply acquires_fail|apply acquires_ret]].
    eapply acquires_mono; [|apply acquires_select_locked]. by intros l <-.
  - intros x y [Hx Kx] [Hy Ky]. right. rewrite Hx, Hy, Kx, Ky. simpl. split; [done|]. right. split; [done|lia].
Qed.

Lemma acquires_organizations os : StronglySorted N.lt os → acquires (phases 1 1) (for_each os (lock_organization d)).
Proof.
  intros Hs. eapply (acquires_for_each N.lt _ (λ k l, LockOrganization k = l)); [done|..].
  - apply acquires_lock_organization.
  - intros j k x y Hjk <- <-. right. split; [done|]. left. simpl. lia.
  - intros k x <-. unfold phases. simpl. lia.
Qed.

Lemma acquires_members os (us : uuid → list uuid) :
  StronglySorted N.lt os →
  acquires (phases 3 3) (for_each os (λ o, for_each (sort_uuids (us o)) (λ u, member d o u ""))).
Proof.
  intros Hs.
  eapply (acquires_for_each N.lt _ (λ o l, lock_phase l = 3%Z ∧ (lock_key l).1 = o)); [done|..].
  - intros o. eapply (acquires_for_each N.le _ (member_lock o)); [apply sort_uuids_sorted|..].
    + intros u. apply acquires_member.
    + intros j k x y Hjk [Hx Kx] [Hy Ky]. right. rewrite Hx, Hy, Kx, Ky. split; [done|]. right. by split.
    + intros u x [Hx Kx]. by rewrite Kx.
  - intros j k x y Hjk [Hx Kx] [Hy Ky]. right. rewrite Hx, Hy, Kx, Ky. split; [done|]. by left.
  - intros k x [Hx _]. unfold phases. lia.
Qed.

Lemma acquires_acting_user P p : acquires P (acting_user p).
Proof.
  unfold acting_user. destruct (_ || _); [apply acquires_ret|].
  destruct (bool_decide _); [apply acquires_on_err, acquires_query_row|apply acquires_ret].
Qed.

Lemma acquires_lockProjectOrganizations p project extra orgs :
  acquires (phases 0 4) (lockProjectOrganizations d p project extra orgs).
Proof.
  unfold lockProjectOrganizations.
  apply acquires_then; [apply acquires_acting_user|]. intros actor.
  apply acquires_then; [apply acquires_on_err, acquires_query_row|]. intros [owner org].
  apply (acquires_phases 0 0 1 4); [apply acquires_LockSubjects| |lia..]. intros _.
  case_bool_decide; [apply acquires_fail|].
  apply (acquires_phases 1 1 2 4); [apply acquires_organizations, sorted_set_strict| |lia..]. intros _.
  apply (acquires_phases 2 2 3 4); [|intros current|lia..].
  { eapply acquires_mono; [|apply acquires_select_locked]. intros l <-. unfold phases. simpl. lia. }
  apply acquires_then; [apply acquires_check|]. intros _.
  apply (acquires_phases 3 3 4 4); [apply acquires_members, sorted_set_strict| |lia..]. intros _.
  destruct (_ && _); [apply acquires_fail|].
  destruct (_ && _); [apply acquires_RequireSession|apply acquires_ret].
Qed.

Lemma acquires_LockProjectMaintenance project extra :
  acquires (phases 0 4) (LockProjectMaintenance d project extra).
Proof.
  unfold LockProjectMaintenance.
  apply acquires_then; [apply acquires_on_err, acquires_query_row|]. intros [owner org].
  apply (acquires_phases 0 0 1 4); [apply acquires_LockSubjects| |lia..]. intros _.
  apply (acquires_phases 1 1 2 4); [destruct org as [o|]| |lia..].
  { eapply acquires_mono; [|apply acquires_lock_organization]. intros l <-. unfold phases. simpl. lia. }
  { apply acquires_ret. }
  intros _. apply (acquires_phases 2 2 3 4); [|intros current|lia..].
  { eapply acquires_mono; [|apply acquires_select_locked]. intros l <-. unfold phases. simpl. lia. }
  apply acquires_then; [apply acquires_check|]. intros _.
  destruct org as [o|]; [|apply acquires_ret].
  eapply (acquires_for_each N.lt _ (λ u l, LockMemberState o u = l)); [apply sorted_set_strict|..].
  - intros u. apply acquires_then; [apply acquires_query|].
    intros [r|]; [apply acquires_note_lock|apply acquires_ret].
  - intros j k x y Hjk <- <-. right. split; [done|]. right. simpl. split; [done|lia].
  - intros u x <-. unfold phases. simpl. lia.
Qed.

Lemma acquires_RequireOrg p o role : acquires (phases 0 4) (RequireOrg d p o role).
Proof.
  apply (acquires_phases 0 1 3 4); [|intros _|lia..].
  { eapply acquires_mono; [|apply acquires_lock_organization]. intros l <-. unfold phases. simpl. lia. }
  apply (acquires_phases 3 3 4 4); [|intros _; apply acquires_RequireSession|lia..].
  eapply acquires_mono; [|apply acquires_member]. intros l [Hl _]. unfold phases. lia.
Qed.

(** The barriers only read. *)
Lemma keeps_select_locked R `{!PreOrder R} {A} l (f : DB → option A) : keeps R (select_locked d l f).
Proof.
  apply keeps_bind; [done|by apply keeps_on_err, keeps_query_row|]. intros r.
  apply keeps_bind; [done| |intros; by apply keeps_ret].
  unfold g_lock. case_bool_decide; [by apply keeps_ret|by apply keeps_note_lock].
Qed.
Lemma keeps_LockSubjects R `{!PreOrder R} ids : keeps R (LockSubjects d ids).
Proof.
  unfold LockSubjects. case_bool_decide; [by apply keeps_fail|]. apply keeps_for_each; [done|]. intros u.
  apply keeps_bind; [done|by apply keeps_select_locked|intros; by apply keeps_ret].
Qed.
Lemma keeps_RequireSession R `{!PreOrder R} p recent : keeps R (RequireSession d p recent).
Proof.
  unfold RequireSession. destruct (_ || _); [by apply keeps_fail|].
  apply keeps_bind; [done|by apply keeps_get|]. intros t.
  apply keeps_bind; [done|by apply keeps_select_locked|intros; by apply keeps_ret].
Qed.
Lemma keeps_lock_organization R `{!PreOrder R} o : keeps R (lock_organization d o).
Proof. apply keeps_bind; [done|by apply keeps_select_locked|intros; by apply keeps_ret]. Qed.
Lemma keeps_member R `{!PreOrder R} o u role : keeps R (member d o u role).
Proof.
  apply keeps_bind; [done| |intros _].
  - case_bool_decide; [|by apply keeps_ret].
    apply keeps_bind; [done|by apply keeps_select_locked|intros; by apply keeps_check].
  - apply keeps_bind; [done|by apply keeps_select_locked|intros actual].
    destruct (_ && _); [by apply keeps_fail|by apply keeps_ret].
Qed.
Lemma keeps_lockProjectOrganizations R `{!PreOrder R} p project extra orgs :
  keeps R (lockProjectOrganizations d p project extra orgs).
Proof.
  unfold lockProjectOrganizations, acting_user.
  apply keeps_bind; [done|repeat case_match; auto with keeps|]. intros actor.
  apply keeps_bind; [done|by apply keeps_on_err, keeps_query_row|]. intros [owner org].
  apply keeps_bind; [done|by apply keeps_LockSubjects|]. intros _.
  case_bool_decide; [by apply keeps_fail|].
  apply keeps_bind; [done|apply keeps_for_each; [done|intros; by apply keeps_lock_organization]|]. intros _.
  apply keeps_bind; [done|by apply keeps_select_locked|]. intros current.
  apply keeps_bind; [done|by apply keeps_check|]. intros _.
  apply keeps_bind; [done| |intros _].
  { apply keeps_for_each; [done|]. intros o. apply keeps_for_each; [done|]. intros u. by apply keeps_member. }
  destruct (_ && _); [by apply keeps_fail|].
  destruct (_ && _); [by apply keeps_RequireSession|by apply keeps_ret].
Qed.
Lemma keeps_LockProject R `{!PreOrder R} p project : keeps R (LockProject d p project).
Proof. by apply keeps_lockProjectOrganizations. Qed.
End GuardLocks.
#[export] Hint Resolve keeps_select_locked keeps_LockSubjects keeps_RequireSession keeps_lock_organization
  keeps_member keeps_LockProject : keeps.

Lemma keeps_LoadAuthority R `{!PreOrder R} d req p r : keeps R (LoadAuthority d req p r).
Proof.
  unfold LoadAuthority. apply keeps_bind; [done|by apply keeps_get|intros t].
  apply keeps_bind; [done| |intros a1]; [destruct (bool_decide _); auto with keeps|].
  apply keeps_bind; [done| |intros a2].
  { destruct (bool_decide _); [|auto with keeps]. destruct (_ || _); auto with keeps. }
  apply keeps_bind; [done| |intros _].
  { destruct (_ || _); [|auto with keeps]. destruct (bool_decide _); auto with keeps. }
  apply keeps_bind; [done| |intros a3; auto with keeps].
  destruct (bool_decide _); [|auto with keeps]. destruct (_ || _); [auto with keeps|].
  apply keeps_bind; [done|by apply keeps_query_row|intros row]. destruct (agent_denied _ _); auto with keeps.
Qed.

Lemma forward_select_locked {A} d l (f : DB → option A) : forward (select_locked d l f).
Proof. unfold select_locked, g_lock. forward_tac. Qed.
#[export] Hint Resolve forward_select_locked : forward.
Lemma forward_RequireSession d p recent : forward (RequireSession d p recent).
Proof. unfold RequireSession. forward_tac. Qed.
#[export] Hint Resolve forward_RequireSession : forward.
Lemma forward_lockProjectOrganizations d p project extra orgs : forward (lockProjectOrganizations d p project extra orgs).
Proof. unfold lockProjectOrganizations, acting_user, LockSubjects, lock_organization, member. forward_tac. Qed.
Lemma forward_LockProject d p project : forward (LockProject d p project).
Proof. apply forward_lockProjectOrganizations. Qed.
Lemma forward_LoadAuthority d req p r : forward (LoadAuthority d req p r).
Proof. unfold LoadAuthority. forward_tac. Qed.
#[export] Hint Resolve forward_LockProject forward_LoadAuthority : forward.

(** *** What an admission guarantees *)

Section Admission.
Context (d : DBType).

(** Read-only steps leave everything but the faults and the locks. *)
Definition same_state (w w' : World) : Prop :=
  w_db w' = w_db w ∧ w_now w' = w_now w ∧ w_rng w' = w_rng w.

Lemma select_locked_Ok {A} l (f : DB → option A) a w w' :
  select_locked d l f w = (Ok a, w') → f (w_db w) = Some a ∧ same_state w w'.
Proof.
  unfold select_locked. intros H. steps. split; [done|].
  match goal with H : g_lock _ _ _ = _ |- _ => unfold g_lock in H end.
  case_bool_decide; steps; done.
Qed.

Lemma for_each_Ok_facts {K} (P : K → Prop) (I : World → World → Prop) `{!PreOrder I} l (body : K → Tx unit) u w w' :
  for_each l body w = (Ok u, w') →
  (∀ k w1 w2 u, I w w1 → body k w1 = (Ok u, w2) → P k ∧ I w1 w2) →
  (∀ k, k ∈ l → P k) ∧ I w w'.
Proof.
  revert w. induction l as [|k l IH]; intros w H Hb; simpl in H.
  - steps. split; [intros k Hk; by apply elem_of_nil in Hk|reflexivity].
  - steps. destruct (Hb _ _ _ _ (reflexivity w) H0) as [Hk HI].
    destruct (IH _ H) as [Hl HI']; [intros; eapply Hb; [by etrans|done]|].
    split; [|by etrans]. intros j [->|Hj]%elem_of_cons; auto.
Qed.

#[export] Instance same_state_preorder : PreOrder same_state.
Proof. split; [by intros w|]. intros ??? (?&?&?) (?&?&?). by split_and!; etrans. Qed.

Lemma LockSubjects_Ok ids u w w' :
  LockSubjects d ids w = (Ok u, w') → (∀ id, id ∈ ids → id ≠ uuid_Nil ∧ id ∈ users (w_db w)) ∧ same_state w w'.
Proof.
  unfold LockSubjects. case_bool_decide as Hnil; [done|]. intros H.
  apply (for_each_Ok_facts (λ id, id ∈ users (w_db w)) same_state) in H as [Hu Hs].
  - split; [|done]. intros id Hid. split; [by intros ->|]. by apply Hu, elem_of_sorted_set.
  - intros k w1 w2 u' (E & _) H'. steps. apply select_locked_Ok in H'0 as [Hk Hs'].
    split; [|done]. rewrite E in Hk. by case_decide.
Qed.

Lemma RequireSession_Ok p recent u w w' :
  RequireSession d p recent w = (Ok u, w') →
  (∃ s, sessions (w_db w) !! p_SessionID p = Some s ∧ session_live (w_now w) p recent s = true) ∧ same_state w w'.
Proof.
  unfold RequireSession. destruct (_ || _); [done|]. intros H. steps.
  apply select_locked_Ok in H1 as [Hs Hst]. split; [|done].
  destruct (sessions (w_db w) !! p_SessionID p) as [s|]; [|done]. cbn in Hs.
  exists s. split; [done|]. by destruct (session_live _ _ _ _).
Qed.

(** A member of an organization: an active authority state (on PostgreSQL)
    and a membership row. *)
Definition active_member (db : DB) (o u : uuid) : Prop :=
  is_Some (members db !! (o, u)) ∧
  (d = DBTypePostgres → ∃ epoch, member_states db !! (o, u) = Some (true, epoch) ∧ (1 <= epoch)%Z).

Lemma member_Ok o us role u w w' :
  member d o us role w = (Ok u, w') → active_member (w_db w) o us ∧ same_state w w'.
Proof.
  unfold member. intros H. steps.
  apply select_locked_Ok in H1 as [Hm Hs].
  assert (same_state w w0 ∧ (d = DBTypePostgres → ∃ epoch, member_states (w_db w) !! (o, us) = Some (true, epoch) ∧ (1 <= epoch)%Z))
    as [Hs0 He].
  { destruct (bool_decide (d = DBTypePostgres)) eqn:Hd in H0;
      [|apply bool_decide_eq_false in Hd; steps; split; [reflexivity|by intros ?]]. steps.
    match goal with H : select_locked _ _ _ _ = _ |- _ => apply select_locked_Ok in H as [Hst Hs0] end.
    split; [done|]. intros _.
    match goal with H : _ && _ = true |- _ => apply andb_true_iff in H as [Ha Hb] end.
    match goal with H : _ = Some ?x |- _ => destruct x as [act ep] end.
    simpl in *. subst. exists ep. split; [done|lia]. }
  assert (same_state w w') by (etrans; [exact Hs0|]; etrans; [exact Hs|]; destruct (_ && _) in H; steps; reflexivity).
  split; [|done]. split; [|done]. destruct Hs0 as (E & _). rewrite E in Hm. by eexists.
Qed.

(** Who acts: the subject of a session, the owner of a key, the actor otherwise. *)
Lemma acting_user_Ok p a w w' :
  acting_user p w = (Ok a, w') →
  same_state w w' ∧ (a = p_SubjectID p ∨ a = p_ActorID p ∨
    ∃ k, api_keys (w_db w) !! p_SubjectID p = Some k ∧ p_Kind p = APIKey ∧ a = ak_user_id k).
Proof.
  intros H. unfold acting_user in H. destruct (_ || _); steps; [by split; [|left]|].
  destruct (bool_decide (p_Kind p = APIKey)) eqn:Hk; steps; [|by split; [|right; left]].
  apply bool_decide_eq_true in Hk. split; [done|]. right. right.
  match goal with H : _ <$> _ = Some _ |- _ => apply fmap_Some in H as (k & ? & ->) end. eauto.
Qed.
Lemma lock_organizations_Ok l u w w' : for_each l (lock_organization d) w = (Ok u, w') → same_state w w'.
Proof.
  intros H. apply (for_each_Ok_facts (λ _, True) same_state) in H as [_ H]; [done|].
  intros k v1 v2 u' _ H'. split; [done|]. unfold lock_organization in H'. steps.
  match goal with H : select_locked _ _ _ _ = _ |- _ => by apply select_locked_Ok in H as [_ ?] end.
Qed.
(** The membership pass over every organization. *)
Lemma members_Ok orgs (ids : uuid → list uuid) u w w' :
  for_each orgs (λ o, for_each (sort_uuids (ids o)) (λ id, member d o id "")) w = (Ok u, w') →
  (∀ o id, o ∈ orgs → id ∈ ids o → active_member (w_db w) o id) ∧ same_state w w'.
Proof.
  intros H. apply (for_each_Ok_facts (λ o, ∀ id, id ∈ ids o → active_member (w_db w) o id) same_state) in H as [Hm S].
  { split; [|done]. intros o id Ho. by apply Hm. }
  intros o v1 v2 u' (E & _) H'. apply (for_each_Ok_facts (active_member (w_db w) o) same_state) in H' as [Hm S'].
  - split; [|done]. intros id Hid. by apply Hm, elem_of_sort_uuids.
  - intros id v3 v5 u2 (E' & _) H2. apply member_Ok in H2 as [? ?]. split; [|done]. by rewrite <-E, <-E'.
Qed.
End Admission.

(** *** Narrowing of leases *)

Lemma Cut_read k : Cut ("read:" +:+ k) ":" = ("read", k, true).
Proof. reflexivity. Qed.

Lemma MatchKey_literal pattern key :
  pattern ≠ "" → Contains pattern "*" = false → MatchKey pattern key = true → key = pattern.
Proof.
  intros Hne Hc. rewrite Contains_byte in Hc. unfold MatchKey. rewrite bool_decide_eq_false_2 by done. simpl.
  assert (split_byte "*" pattern = [pattern]) as ->.
  { clear Hne. induction pattern as [|c p IH]; [done|]. rewrite contains_byte_cons, orb_false_iff, bool_decide_eq_false in Hc.
    destruct Hc as [Hx Hc]. simpl. rewrite decide_False by done. by rewrite IH. }
  case_bool_decide as Hstar; [by subst|]. by rewrite bool_decide_eq_true.
Qed.

(** What the scopes synthesized for a lease allow, the parent's scopes allow. *)
Lemma agent_scopes_narrow scopes keys verb key :
  LeaseKeysAllowed scopes keys = true → LegacyAllows (agent_scopes keys) verb key = true →
  verb = "read" ∧ LegacyAllows scopes "read" key = true.
Proof.
  assert (existsb (λ s, bool_decide (s = "read") || bool_decide (s = "read:*")) scopes = true →
          LegacyAllows scopes "read" key = true) as Hall.
  { rewrite existsb_exists. intros (s & Hs & He). apply LegacyAllows_spec. exists s.
    split; [by apply list_elem_of_In|].
    apply orb_true_iff in He as [->%bool_decide_eq_true | ->%bool_decide_eq_true]; reflexivity. }
  unfold agent_scopes, LeaseKeysAllowed. intros Hk Hs.
  apply LegacyAllows_spec in Hs as (s & Hin & Hs).
  apply elem_of_app in Hin as [Hin|Hin].
  - destruct keys; [|by apply elem_of_nil in Hin]. apply list_elem_of_singleton in Hin as ->.
    split; [|auto]. unfold scope_allows in Hs. simpl in Hs. b2p. naive_solver.
  - apply list_elem_of_In, in_map_iff in Hin as (k & <- & Hin).
    unfold scope_allows in Hs. rewrite Cut_read in Hs.
    apply andb_true_iff in Hs as [Hv Hm].
    assert (verb = "read") as -> by (b2p; naive_solver). split; [done|].
    destruct keys as [|k0 keys]; [done|]. rewrite forallb_forall in Hk. specialize (Hk k Hin).
    unfold lease_key_allowed in Hk. destruct (_ || _) eqn:Hlen; [done|].
    apply orb_false_iff in Hlen as [Hne%bool_decide_eq_false _].
    destruct (Contains k "*") eqn:Hstar; [apply andb_true_iff in Hk as [_ Hk]; auto|].
    by rewrite (MatchKey_literal k key Hne Hstar Hm).
Qed.

(** The checks [LoadAuthority] makes on an agent token's row. *)
Lemma agent_denied_spec t row :
  agent_denied t row = false →
  let k := ag_key row in let l := ag_lease row in
  (t < agent_expiry row)%Z ∧ (agent_expiry row <= le_expires_at l)%Z ∧ (agent_expiry row <= ag_token_expiry row)%Z ∧
  (∀ pe, ak_expires_at k = Some pe → (agent_expiry row <= pe)%Z) ∧
  (∀ e, ak_environment k = Some e → le_environment l = e) ∧
  LeaseKeysAllowed (ak_scopes k) (le_secret_keys l) = true.
Proof.
  intros H. unfold agent_denied, agent_expiry, After, Before in *. revert H.
  set (k := ag_key row). set (l := ag_lease row). intros H. rewrite !orb_false_iff, !negb_false_iff in H. destruct H as ((((H1 & H2) & H3) & H4) & H5).
  apply Z.ltb_lt in H1, H2.
  assert (∀ pe, ak_expires_at k = Some pe → (t < pe ∧ le_expires_at l <= pe)%Z) as Hpe.
  { intros pe E. rewrite E, orb_false_iff, negb_false_iff, Z.ltb_lt, Z.ltb_ge in H3. done. }
  assert (∀ e, ak_environment k = Some e → le_environment l = e) as He.
  { intros e E. rewrite E, negb_false_iff, bool_decide_eq_true in H4. done. }
  clear H3 H4. destruct (ak_expires_at k) as [pe|] eqn:E.
  - specialize (Hpe pe eq_refl). destruct (Z.ltb_spec (le_expires_at l) (ag_token_expiry row));
      case_match; b2p; split_and!; try done; try lia; intros ? [= <-]; lia.
  - destruct (Z.ltb_spec (le_expires_at l) (ag_token_expiry row)); split_and!; try done; lia.
Qed.

(** What loading an agent token's authority takes and gives. *)
Definition agent_authority (row : agent_row) (tr : uuid * string) : Authority :=
  mkAuthority (ak_user_id (ag_key row)) tr.1 tr.2 (ak_project_id (ag_key row)) (le_environment (ag_lease row))
    (agent_scopes (le_secret_keys (ag_lease row))) (agent_expiry row).
Lemma LoadAuthority_agent d req p r a w w' :
  LoadAuthority d req p r w = (Ok a, w') → p_Kind p = AgentToken →
  ∃ row tr, agent_lookup (w_now w) p (w_db w) = Some row ∧ agent_denied (w_now w) row = false ∧
    project_role (ak_user_id (ag_key row)) (ak_project_id (ag_key row)) (w_db w) = Some tr ∧
    a = agent_authority row tr.
Proof.
  intros H Hk. unfold LoadAuthority in H. rewrite Hk in H. simpl in H. steps.
  match goal with H : (if _ || _ then _ else _) _ = _ |- _ => destruct (_ || _) in H; [done|] end.
  steps. destruct (agent_denied _ _) eqn:Hd; steps. by eexists _, _.
Qed.
Lemma LoadAuthority_key d req p r a w w' :
  LoadAuthority d req p r w = (Ok a, w') → p_Kind p = APIKey →
  ∃ k tr, api_keys (w_db w) !! p_SubjectID p = Some k ∧ project_role (ak_user_id k) (ak_project_id k) (w_db w) = Some tr ∧
    a_Role a = tr.2 ∧ a_ProjectID a = ak_project_id k.
Proof.
  intros H Hk. unfold LoadAuthority in H. rewrite Hk in H. simpl in H. steps. by eexists _, _.
Qed.
Lemma LoadAuthority_agent_run d req p r row tr w :
  w_faults w = [] → p_Kind p = AgentToken → p_LeaseID p ≠ uuid_Nil → p_TokenID p ≠ "" →
  agent_lookup (w_now w) p (w_db w) = Some row → agent_denied (w_now w) row = false →
  project_role (ak_user_id (ag_key row)) (ak_project_id (ag_key row)) (w_db w) = Some tr →
  ∃ w', LoadAuthority d req p r w = (Ok (agent_authority row tr), w').
Proof.
  intros Hf Hk Hl Ht Hrow Hden Htr. unfold LoadAuthority. rewrite Hk. simpl.
  rewrite !bool_decide_eq_false_2 by done. cbn [orb]. eexists.
  apply bind_Ok. eexists _, _. split; [reflexivity|]. do 3 (apply bind_Ok; eexists _, _; split; [reflexivity|]).
  apply bind_Ok. eexists _, _. split.
  { apply bind_Ok. eexists _, _. split; [by apply query_row_run|]. rewrite Hden. reflexivity. }
  apply bind_Ok. eexists _, _. split; [|reflexivity]. apply query_row_run; [cbn; by rewrite Hf|done].
Qed.

(** A concrete organization for the examples: user 1 owns project 20 of
    organization 10, user 2 is an editor there with session 30, and holds API
    key 40, lease 50 and the agent token "jti". *)
Definition demo_db : DB :=
  mkDB
    (mkIdentityDB {[1; 2]}%N {[30%N := mkSession 2 false 0 1000]} {[10%N]}
       (<[(10, 1)%N := "admin"]> {[(10, 2)%N := "editor"]})
       (<[(10, 1)%N := (true, 1%Z)]> {[(10, 2)%N := (true, 3%Z)]}) empty_oauth)
    (mkProjectDB {[20%N := mkProject "shop" 1 (Some 10%N) "" "" None]}
       {[60%N := mkEnvironment 20 "alpha"]}
       {[40%N := mkAPIKey 2 20 ["read:DB_*"; "write:DB_*"] (Some "alpha") (Some 900%Z) "ci" "" 0]}
       {[50%N := mkLease 40 20 "alpha" ["DB_URL"] 0 800 false None]}
       {["jti" := mkIssuance 50 20 2 950]} ∅)
    (mkSecretDB ∅ ∅ ∅) (mkVaultDB ∅ ∅ ∅ ∅ ∅ ∅ ∅ ∅ ∅) ∅ ∅ ("", 0%Z) empty_tools empty_accounts.
Definition demo_human : Principal := human 2 30.
Definition demo_agent : Principal := mkPrincipal AgentToken 40 2 0 0 0 0 50 "jti".
Definition demo_resource : Resource := mkResource 0 20 "alpha" "secret" 0 0 "DB_URL".

(** ** Properties *)



(** What passing the project barrier means.  The project exists and is not
    deleted; the acting user (the subject of a session, the owner of an API key,
    the actor of an agent token) and the project's owner are existing users; the
    acting user is an active member of the project's organization and of every
    extra one; every extra subject is a member too; a named session is live and
    belongs to the subject.  Nothing is written. *)
Theorem project_barrier_admits d p project extra orgs u w w' :
  lockProjectOrganizations d p project extra orgs w = (Ok u, w') →
  let db := w_db w in
  w_db w' = db ∧
  ∃ actor owner org,
    live_project project db = Some (owner, org) ∧
    (actor = p_SubjectID p ∨ actor = p_ActorID p ∨
     ∃ k, api_keys db !! p_SubjectID p = Some k ∧ p_Kind p = APIKey ∧ actor = ak_user_id k) ∧
    actor ∈ users db ∧ owner ∈ users db ∧ (∀ id, id ∈ extra → id ∈ users db) ∧
    (∀ o, org = Some o ∨ o ∈ orgs → active_member d db o actor) ∧
    (∀ o id, org = Some o → id ∈ extra → active_member d db o id) ∧
    (org = None → ∀ id, id ∈ extra → id = owner) ∧
    (p_Kind p = Human ∨ p_Kind p = OAuthDelegation → p_SessionID p ≠ uuid_Nil →
     ∃ s, sessions db !! p_SessionID p = Some s ∧ session_live (w_now w) p false s = true).
Proof.
  intros H db.
  split; [exact (keeps_lockProjectOrganizations d unchanged p project extra orgs _ _ _ H)|].
  unfold lockProjectOrganizations in H. step_Ok. apply acting_user_Ok in H0 as [S0 Hact]. fold db in Hact.
  step_Ok. steps. destruct a0 as [owner org].
  match goal with H : live_project _ _ = Some _ |- _ => rename H into Hlive end.
  step_Ok. match goal with H : LockSubjects _ _ _ = _ |- _ => apply LockSubjects_Ok in H as [Hsubj S1] end.
  destruct (bool_decide (uuid_Nil ∈ orgs)); [done|].
  step_Ok. match goal with H : for_each _ (lock_organization d) _ = _ |- _ => apply lock_organizations_Ok in H; rename H into S2 end.
  step_Ok. match goal with H : select_locked _ _ _ _ = _ |- _ => apply select_locked_Ok in H as [_ S3] end.
  assert (same_state w w3) as S by (etrans; [exact S0|]; etrans; [exact S1|]; etrans; [exact S2|exact S3]).
  clear S1 S2 S3. steps.
  match goal with H : for_each _ _ _ = _ |- _ =>
    apply (members_Ok d _ (λ o, a :: (if bool_decide (org = Some o) then extra else []))) in H as [Hm S4] end.
  destruct S0 as (E0 & _). destruct S as (E3 & En & _). destruct S4 as (E4 & En4 & _).
  change (w_db (ticked w0)) with (w_db w0) in Hsubj. rewrite E0 in *. rewrite E3 in Hm. fold db in Hsubj, Hm, Hlive.
  destruct (bool_decide (org = None) && _) eqn:Hex; [done|].
  exists a, owner, org. split_and!; try done.
  - apply Hsubj. by left.
  - apply Hsubj. right. by left.
  - intros id Hid. apply Hsubj. by do 2 right.
  - intros o Ho. apply Hm; [|by left]. apply elem_of_sorted_set, elem_of_app.
    destruct Ho as [->|?]; [right; by left|by left].
  - intros o id -> Hid. apply Hm; [apply elem_of_sorted_set, elem_of_app; right; by left|].
    rewrite bool_decide_eq_true_2 by done. by right.
  - intros -> id Hid. rewrite bool_decide_eq_true_2 in Hex by done. simpl in Hex.
    destruct (decide (id = owner)) as [|Hne]; [done|]. exfalso.
    assert (existsb (λ id, negb (bool_decide (id = owner))) extra = true); [|congruence].
    apply existsb_exists. exists id. split; [by apply list_elem_of_In|]. by rewrite bool_decide_eq_false_2.
  - intros Hk Hs. rewrite (bool_decide_eq_false_2 (p_SessionID p = uuid_Nil)) in H by done.
    assert (bool_decide (p_Kind p = Human) || bool_decide (p_Kind p = OAuthDelegation) = true) as Hk'
      by (rewrite orb_true_iff, !bool_decide_eq_true; done).
    rewrite Hk' in H. simpl in H. apply RequireSession_Ok in H as [(s & ? & ?) _].
    exists s. rewrite E4, E3 in *. rewrite En4, En in *. done.
Qed.

Lemma project_barrier_admits_witness :
  ∃ w', LockProjectSubjects DBTypePostgres demo_human 20 [1%N] (world_of demo_db 100) = (Ok (), w') ∧
    w_db w' = demo_db.
Proof.
  eexists. split; [vm_compute; reflexivity|].
  refine (proj1 (project_barrier_admits DBTypePostgres demo_human 20 [1%N] [] () (world_of demo_db 100) _ _)).
  vm_compute. reflexivity.
Defined.

(** An agent token only narrows the key it was leased from.  The authority
    loaded for a token acts as the parent key's user on the parent key's
    project, in the lease's environment (the parent's own, if it has one), until
    the earliest of the token's, the lease's and the parent's expiry, which is
    still to come; the only verb its scopes allow is "read", and only on keys
    the parent key's scopes allow reading. *)
Theorem agent_token_narrows d req p r a w w' :
  LoadAuthority d req p r w = (Ok a, w') → p_Kind p = AgentToken →
  ∃ row, agent_lookup (w_now w) p (w_db w) = Some row ∧
    let k := ag_key row in let l := ag_lease row in
    a_ActorID a = ak_user_id k ∧ a_ProjectID a = ak_project_id k ∧
    a_Environment a = le_environment l ∧ (∀ e, ak_environment k = Some e → a_Environment a = e) ∧
    (w_now w < a_ExpiresAt a)%Z ∧ (a_ExpiresAt a <= le_expires_at l)%Z ∧ (a_ExpiresAt a <= ag_token_expiry row)%Z ∧
    (∀ pe, ak_expires_at k = Some pe → (a_ExpiresAt a <= pe)%Z) ∧
    (∀ verb key, LegacyAllows (a_Scopes a) verb key = true →
       verb = "read" ∧ LegacyAllows (ak_scopes k) "read" key = true).
Proof.
  intros H Hk. apply LoadAuthority_agent in H as (row & tr & Hrow & Hd & _ & ->); [|done].
  apply agent_denied_spec in Hd as (? & ? & ? & ? & He & Hkeys).
  exists row. split; [done|]. simpl. split_and!; try done.
  intros verb key Hs. by eapply agent_scopes_narrow.
Qed.

Lemma agent_token_narrows_witness :
  ∃ a w', LoadAuthority DBTypePostgres true demo_agent demo_resource (world_of demo_db 100) = (Ok a, w') ∧
    a_Role a = "editor" ∧ a_Environment a = "alpha" ∧ a_Scopes a = ["read:DB_URL"] ∧ a_ExpiresAt a = 800%Z ∧
    ∃ row, agent_lookup 100 demo_agent demo_db = Some row ∧ a_ActorID a = ak_user_id (ag_key row).
Proof.
  eexists _, _. split; [vm_compute; reflexivity|]. do 4 (split; [reflexivity|]).
  destruct (agent_token_narrows DBTypePostgres true demo_agent demo_resource _ (world_of demo_db 100) _
    ltac:(vm_compute; reflexivity) ltac:(reflexivity)) as (row & Hrow & Ha & _).
  exists row. split; [exact Hrow|exact Ha].
Defined.
