(* ===== verification/AuditLog.v ===== *)
(** * The tamper-evident audit log ([internal/repository/audit_repo.go])

    Every entry carries the HMAC of its fields and of the previous entry's hash;
    one row holds the head of the chain.  The file models appending, verifying
    and pruning, and proves that appends and prunes keep the chain verifiable and
    that the head determines the whole log, up to an explicit collision of the
    HMAC between two entries of the log. *)
From S2P Require Import Prelude GoStrings GoEncoding Schema Database Crypto.

(** ** Definitions *)

Section Audit.
Context `{P : Primitives}.

(** [AuditRepository]: the chain key, empty when the chain is not configured. *)
Record AuditRepository := mkAuditRepository { chainKey : string }.

Definition SetChainKey (r : AuditRepository) (key : string) : AuditRepository := mkAuditRepository key.
Definition chainSecret (r : AuditRepository) : string := chainKey r.

(** [frame]: the length as eight bytes, then the bytes. *)
Definition frame (b : string) : string := be64 (Z.of_nat (String.length b)) +:+ b.

Definition uuidStr (u : option uuid) : string :=
  match u with None => "" | Some u => uuid_String u end.

Definition canonicalizeJSON (raw : string) : string :=
  if bool_decide (raw = "") then "null"
  else match Unmarshal raw with
       | None => raw
       | Some v => Marshal v
       end.

(** The bytes [computeEntryHash] feeds to the HMAC. *)
Definition entry_message (prevHash userID projectID action environment canonicalDetails ipAddress : string) : string :=
  frame prevHash +:+ frame userID +:+ frame projectID +:+ frame action +:+ frame environment
  +:+ frame canonicalDetails +:+ frame ipAddress.

Definition computeEntryHash (key prevHash userID projectID action environment canonicalDetails ipAddress : string)
  : string :=
  hex_EncodeToString
    (hmac_sha256 key (entry_message prevHash userID projectID action environment canonicalDetails ipAddress)).

(** [JSONMap.Value]: the bytes sent for a map ([nil] is the empty object). *)
Definition details_value (details : json) : string := Marshal details.

(** The text the driver returns for a stored JSONB value. *)
Definition details_raw (r : audit_row) : string := Marshal (au_details r).

Definition lockHead : Tx string :=
  _ ← exec_ (λ db, db);
  query (λ db, (db_audit_chain_head db).1).

(** [VARCHAR(n)]: at most [n] characters. *)
Definition varchar (n : nat) (s : string) : bool := length (runes s) <=? n.

Definition insert_audit (id : uuid) (row : audit_row) (db : DB) : option DB :=
  if bool_decide (is_Some (db_audit_log db !! id)) || negb (varchar 100 (au_action row))
     || negb (varchar 50 (au_environment row)) || negb (varchar 45 (au_ip_address row))
  then None else Some (upd_db_audit_log <[id := row]> db).

Definition CreateTx (r : AuditRepository) (userID projectID : option uuid) (action environment : string)
    (details : json) (ipAddress : string) : Tx unit :=
  let dv := details_value details in
  let key := chainSecret r in
  t ← now;
  if bool_decide (key = "") then
    id ← uuid_New;
    exec (λ db,
      stored ← Unmarshal dv;
      insert_audit id (mkAudit userID projectID action environment stored ipAddress None None t) db)
  else
    prev ← wrap_err "locking audit head" lockHead;
    let entry := computeEntryHash key prev (uuidStr userID) (uuidStr projectID) action environment
                   (canonicalizeJSON dv) ipAddress in
    id ← uuid_New;
    _ ← wrap_err "creating audit entry" (exec (λ db,
          stored ← Unmarshal dv;
          insert_audit id (mkAudit userID projectID action environment stored ipAddress (Some prev) (Some entry) t) db));
    exec_ (upd_db_audit_chain_head (λ h, (entry, h.2 + 1)%Z)).

Definition Create (r : AuditRepository) (userID projectID : option uuid) (action environment : string)
    (details : json) (ipAddress : string) : Tx unit :=
  with_tx (CreateTx r userID projectID action environment details ipAddress).

(** *** Walking the chain *)

(** [SELECT ... FROM audit_log WHERE entry_hash IS NOT NULL]. *)
Definition chained_rows (db : DB) : list (uuid * audit_row) :=
  select (λ _ r, match au_entry_hash r with Some _ => true | None => false end) (db_audit_log db).

(** [sql.NullString.String]. *)
Definition prev_of (r : audit_row) : string := default "" (au_prev_hash r).
Definition entry_of (r : audit_row) : string := default "" (au_entry_hash r).

(** The map [byPrev]; a second row with the same predecessor is a fork. *)
Fixpoint index_rows (rows : list (uuid * audit_row)) (m : gmap string (uuid * audit_row))
  : gmap string (uuid * audit_row) + uuid :=
  match rows with
  | [] => inl m
  | (id, r) :: rows =>
      if decide (is_Some (m !! prev_of r)) then inr id
      else index_rows rows (<[prev_of r := (id, r)]> m)
  end.

Definition row_hash (key prev : string) (r : audit_row) : string :=
  computeEntryHash key prev (uuidStr (au_user_id r)) (uuidStr (au_project_id r)) (au_action r) (au_environment r)
    (canonicalizeJSON (details_raw r)) (au_ip_address r).

(** The loop from genesis: the rows in link order, the last hash and what is
    left of the map, or the first row whose hash is wrong.  Every round deletes
    a row from the map, so its size is enough fuel. *)
Fixpoint walk (fuel : nat) (key cur : string) (m : gmap string (uuid * audit_row)) (acc : list (uuid * audit_row))
  : list (uuid * audit_row) * string * gmap string (uuid * audit_row) + uuid :=
  match fuel, m !! cur with
  | S fuel, Some (id, r) =>
      if bool_decide (row_hash key cur r = entry_of r)
      then walk fuel key (entry_of r) (delete cur m) (acc ++ [(id, r)])
      else inr id
  | _, _ => inl (acc, cur, m)
  end.

Definition VerifyChain (r : AuditRepository) : Tx (option uuid) :=
  let key := chainSecret r in
  if bool_decide (key = "") then fail (Errorf "audit chain key is not configured")
  else rollback_tx (
    head ← lockHead;
    rows ← wrap_err "reading audit chain" (query chained_rows);
    match index_rows rows ∅ with
    | inr id => mret (Some id)
    | inl byPrev =>
        match walk (size byPrev) key "" byPrev [] with
        | inr id => mret (Some id)
        | inl (_, cur, unreached) =>
            match map_to_list unreached with
            | (_, (id, _)) :: _ => mret (Some id)
            | [] =>
                if negb (bool_decide (head = cur)) then fail (Errorf "audit head does not match chain")
                else mret None
            end
        end
    end).

(** *** Retention *)

(** The leading run of rows older than the cutoff. *)
Fixpoint old_prefix (cutoff : time) (rows : list (uuid * audit_row)) : nat :=
  match rows with
  | (_, r) :: rows => if Before (au_created_at r) cutoff then S (old_prefix cutoff rows) else 0
  | [] => 0
  end.

Definition set_links (prev entry : string) (r : audit_row) : audit_row :=
  mkAudit (au_user_id r) (au_project_id r) (au_action r) (au_environment r) (au_details r) (au_ip_address r)
    (Some prev) (Some entry) (au_created_at r).

(** The re-anchoring loop: the last hash written. *)
Definition reanchor (key : string) (rows : list (uuid * audit_row)) : Tx string :=
  for_fold rows "" (λ prev '(id, r),
    let entry := row_hash key prev r in
    _ ← wrap_err "re-anchoring audit row" (exec_ (upd_db_audit_log (alter (set_links prev entry) id)));
    mret entry).

Definition pruneChained (r : AuditRepository) (cutoff : time) : Tx Z :=
  let key := chainSecret r in
  with_tx_opt (
    _ ← lockHead;
    rows ← wrap_err "reading audit chain for prune" (query chained_rows);
    match index_rows rows ∅ with
    | inr _ => fail (Errorf "audit chain fork")
    | inl byPrev =>
        match walk (size byPrev) key "" byPrev [] with
        | inr _ => fail (Errorf "audit chain integrity failure")
        | inl (ordered, _, unreached) =>
            if negb (size unreached =? 0) then fail (Errorf "audit chain is disconnected") else
            let deleteCount := old_prefix cutoff ordered in
            if deleteCount =? 0 then mret (0%Z, false) else
            _ ← for_each (take deleteCount ordered) (λ '(id, _),
                  wrap_err "deleting pruned audit row" (exec_ (upd_db_audit_log (delete id))));
            prev ← reanchor key (drop deleteCount ordered);
            _ ← exec_ (upd_db_audit_chain_head (λ h, (prev, h.2 + 1)%Z));
            mret (Z.of_nat deleteCount, true)
        end
    end).

Definition DeleteOlderThan (r : AuditRepository) (days : Z) : Tx Z :=
  if (days <=? 0)%Z then fail (Errorf "days must be a positive integer")
  else
    t ← now;
    let cutoff := (t - days * (24 * Hour))%Z in
    if negb (bool_decide (chainSecret r = "")) then pruneChained r cutoff
    else wrap_err "pruning audit entries" (exec_n (λ db,
           let old := λ (_ : uuid) row, (au_created_at row <? cutoff)%Z in
           Some (upd_db_audit_log (delete_where old) db, count_where old (db_audit_log db)))).

(** [ListByProjectID]: newest first. *)
Definition newer (a b : uuid * audit_row) : Prop := (au_created_at b.2 <= au_created_at a.2)%Z.
#[export] Instance newer_dec : RelDecision newer.
Proof. intros a b. unfold newer. apply _. Defined.
Definition ListByProjectID (project : uuid) (limit : Z) : Tx (list (uuid * audit_row)) :=
  let limit := if (limit <=? 0)%Z then 50%Z else limit in
  wrap_err "listing audit entries" (query (λ db,
    take (Z.to_nat limit)
      (merge_sort newer (select (λ _ r, bool_decide (au_project_id r = Some project)) (db_audit_log db))))).

(** ** The chain, declaratively *)

(** [links key prev rows last]: the rows follow each other from [prev] to
    [last], each with the hash of its own contents. *)
Fixpoint links (key prev : string) (rows : list (uuid * audit_row)) (last : string) : Prop :=
  match rows with
  | [] => prev = last
  | (_, r) :: rows => prev_of r = prev ∧ entry_of r = row_hash key prev r ∧ links key (entry_of r) rows last
  end.

(** The chained rows of the log form one chain from genesis to the head. *)
Definition chain_ok (key : string) (db : DB) : Prop :=
  ∃ order, order ≡ₚ chained_rows db ∧ links key "" order (db_audit_chain_head db).1 ∧
    NoDup (map (λ kr, prev_of kr.2) order).

(** The HMAC does not collide on the entries of a log. *)
Definition row_message (prev : string) (r : audit_row) : string :=
  entry_message prev (uuidStr (au_user_id r)) (uuidStr (au_project_id r)) (au_action r) (au_environment r)
    (canonicalizeJSON (details_raw r)) (au_ip_address r).
Definition collision_free (key : string) (rows : list (uuid * audit_row)) : Prop :=
  ∀ a b, a ∈ rows → b ∈ rows →
    hmac_sha256 key (row_message (prev_of a.2) a.2) = hmac_sha256 key (row_message (prev_of b.2) b.2) →
    row_message (prev_of a.2) a.2 = row_message (prev_of b.2) b.2.
End Audit.

(** ** Lemmas *)

(** *** Framing *)

Definition short (s : string) : Prop := (Z.of_nat (String.length s) < 2 ^ 64)%Z.

Lemma frame_inj a b x y :
  short a → short b → frame a +:+ x = frame b +:+ y → a = b ∧ x = y.
Proof.
  unfold frame, short. intros Ha Hb H. rewrite <-!app_assoc' in H.
  apply app_inj_len in H as [Hl H]; [|by rewrite !be64_length].
  apply be64_inj in Hl; [|lia..]. by apply app_inj_len in H; [|lia].
Qed.

(** The fields of an entry, in the order they are framed. *)
Definition row_fields (r : audit_row) : list string :=
  [uuidStr (au_user_id r); uuidStr (au_project_id r); au_action r; au_environment r;
   canonicalizeJSON (details_raw r); au_ip_address r].

Lemma entry_message_inj p u j a e c i p' u' j' a' e' c' i' :
  Forall short [p; u; j; a; e; c; i] → Forall short [p'; u'; j'; a'; e'; c'; i'] →
  entry_message p u j a e c i = entry_message p' u' j' a' e' c' i' →
  [p; u; j; a; e; c; i] = [p'; u'; j'; a'; e'; c'; i'].
Proof.
  intros H1 H2 H. repeat (apply Forall_cons in H1 as [? H1]). repeat (apply Forall_cons in H2 as [? H2]).
  unfold entry_message in H.
  do 6 (apply frame_inj in H as [-> H]; [|done..]).
  rewrite <-(app_nil_r' (frame i)), <-(app_nil_r' (frame i')) in H. by apply frame_inj in H as [-> _].
Qed.

(** *** Links *)

(** Membership in a concatenation. *)
Ltac in_app := rewrite ?elem_of_app, ?list_elem_of_singleton; tauto.

Section Links.
Context `{P : Primitives, !PrimitivesOk P} (key : string).
Implicit Types (l : list (uuid * audit_row)) (r : audit_row).

Definition prevs l : list string := map (λ kr, prev_of kr.2) l.
Definition entries l : list string := map (λ kr, entry_of kr.2) l.

Lemma row_hash_length prev r : String.length (row_hash key prev r) = 64.
Proof. unfold row_hash, computeEntryHash. by rewrite hex_EncodeToString_length, hmac_length. Qed.

Lemma row_hash_message prev r prev' r' :
  row_hash key prev r = row_hash key prev' r' →
  hmac_sha256 key (row_message prev r) = hmac_sha256 key (row_message prev' r').
Proof. apply hex_EncodeToString_inj. Qed.

Lemma links_snoc prev l id r last :
  links key prev (l ++ [(id, r)]) last ↔
  links key prev l (prev_of r) ∧ entry_of r = row_hash key (prev_of r) r ∧ entry_of r = last.
Proof.
  revert prev. induction l as [|[k x] l IH]; intros prev; simpl; [naive_solver|].
  rewrite IH. naive_solver.
Qed.

Lemma links_entries prev l last : links key prev l last → prevs l ++ [last] = prev :: entries l.
Proof.
  revert prev. induction l as [|[k r] l IH]; intros prev; simpl; [by intros ->|].
  intros (<- & _ & H). f_equal. by apply IH.
Qed.

Lemma links_hash prev l last id r :
  links key prev l last → (id, r) ∈ l → entry_of r = row_hash key (prev_of r) r.
Proof.
  revert prev. induction l as [|[k x] l IH]; intros prev; simpl; [by intros _ ?%elem_of_nil|].
  intros (<- & He & H) [[= -> ->]|Hin]%elem_of_cons; [done|by eapply IH].
Qed.

Lemma entry_length prev l last id r :
  links key prev l last → (id, r) ∈ l → String.length (entry_of r) = 64.
Proof. intros Hl Hin. rewrite (links_hash _ _ _ _ _ Hl Hin). apply row_hash_length. Qed.

(** The predecessor of an entry of a chain from genesis is short. *)
Lemma prev_length l last id r :
  links key "" l last → (id, r) ∈ l → String.length (prev_of r) ≤ 64.
Proof.
  intros Hl Hin. assert (prev_of r ∈ "" :: entries l) as Hp.
  { rewrite <-(links_entries _ _ _ Hl). apply elem_of_app. left. apply list_elem_of_fmap. by exists (id, r). }
  apply elem_of_cons in Hp as [->|Hp]; [simpl; lia|].
  apply list_elem_of_fmap in Hp as ([k x] & -> & Hx). simpl. by rewrite (entry_length _ _ _ _ _ Hl Hx).
Qed.

Lemma message_prev_inj p r p' r' :
  String.length p ≤ 64 → String.length p' ≤ 64 → row_message p r = row_message p' r' → p = p'.
Proof.
  unfold row_message, entry_message. intros H1 H2 H. apply frame_inj in H as [-> _]; [done|unfold short; lia..].
Qed.

(** Without a collision, no entry of a chain repeats an earlier hash. *)
Lemma links_NoDup l last :
  links key "" l last → collision_free key l → NoDup (prevs l ++ [last]).
Proof.
  revert last. induction l as [|[id r] l IH] using rev_ind; intros last Hl Hc; [repeat constructor; by intros ?%elem_of_nil|].
  pose proof Hl as (Hl' & He & <-)%links_snoc.
  assert (NoDup (prevs l ++ [prev_of r])) as Hnd.
  { apply IH; [done|]. intros a b Ha Hb. apply Hc; by apply elem_of_app; left. }
  unfold prevs in *. rewrite map_app. simpl. apply NoDup_app. split; [done|]. split; [|repeat constructor; by intros ?%elem_of_nil].
  intros p Hp ->%list_elem_of_singleton.
  assert (String.length (entry_of r) = 64) as Hlen by (rewrite He; apply row_hash_length).
  change (entry_of r ∈ prevs l ++ [prev_of r]) in Hp.
  rewrite (links_entries _ _ _ Hl') in Hp. apply elem_of_cons in Hp as [Hp|Hp]; [by rewrite Hp in Hlen|].
  apply list_elem_of_fmap in Hp as ([k x] & Hp & Hx). simpl in Hp.
  assert (prev_of r = prev_of x) as Hpx.
  { eapply message_prev_inj, (Hc (id, r) (k, x)).
    - eapply (prev_length _ _ id r Hl). apply elem_of_app. right. by left.
    - by eapply (prev_length _ _ k x Hl').
    - apply elem_of_app. right. by left.
    - apply elem_of_app. by left.
    - simpl. apply row_hash_message. rewrite <-He, <-(links_hash _ _ _ _ _ Hl' Hx). done. }
  apply NoDup_app in Hnd as (_ & Hnd & _). apply (Hnd (prev_of r)); [|by left].
  apply list_elem_of_fmap. by exists (k, x).
Qed.

(** Two chains with the same head have the same contents. *)
Lemma links_same_contents l l' last :
  links key "" l last → links key "" l' last → collision_free key (l ++ l') →
  Forall (λ kr, Forall short (row_fields kr.2)) (l ++ l') →
  map (λ kr, row_fields kr.2) l = map (λ kr, row_fields kr.2) l'.
Proof.
  revert l' last. induction l as [|[id r] l IH] using rev_ind; intros l' last Hl Hl' Hc Hs.
  - simpl in Hl. subst last. destruct l' as [|[id' r'] l'] using rev_ind; [done|].
    apply links_snoc in Hl' as (_ & He & E). rewrite E in He. symmetry in He.
    apply (f_equal String.length) in He. by rewrite row_hash_length in He.
  - destruct l' as [|[id' r'] l' _] using rev_ind.
    + simpl in Hl'. subst last. apply links_snoc in Hl as (_ & He & E). rewrite E in He. symmetry in He.
      apply (f_equal String.length) in He. by rewrite row_hash_length in He.
    + pose proof Hl as (Hl1 & He1 & <-)%links_snoc. pose proof Hl' as (Hl2 & He2 & E)%links_snoc.
      assert ((id, r) ∈ (l ++ [(id, r)]) ++ l' ++ [(id', r')]) as Hin by in_app.
      assert ((id', r') ∈ (l ++ [(id, r)]) ++ l' ++ [(id', r')]) as Hin' by in_app.
      assert (row_message (prev_of r) r = row_message (prev_of r') r') as Hm.
      { apply (Hc (id, r) (id', r')); [done..|]. simpl. apply row_hash_message. by rewrite <-He1, <-He2. }
      pose proof (prev_length _ _ id r Hl ltac:(in_app)) as Hp.
      pose proof (prev_length _ _ id' r' Hl' ltac:(in_app)) as Hp'.
      rewrite Forall_forall in Hs.
      assert (prev_of r :: row_fields r = prev_of r' :: row_fields r') as [= Hprev Hf].
      { apply entry_message_inj; [| |exact Hm]; (constructor; [unfold short; lia|]); [apply (Hs _ Hin)|apply (Hs _ Hin')]. }
      rewrite !map_app. simpl. f_equal; [|unfold row_fields; congruence].
      apply (IH l' (prev_of r)); [done|by rewrite Hprev| |].
      * intros a b Ha%elem_of_app Hb%elem_of_app. apply Hc; in_app.
      * apply Forall_forall. intros x Hx%elem_of_app. apply Hs. in_app.
Qed.
End Links.

(** *** The verification walk *)

Section Walk.
Context `{P : Primitives} (key : string).
Implicit Types (rows : list (uuid * audit_row)) (m : gmap string (uuid * audit_row)).

Definition keyed rows : list (string * (uuid * audit_row)) := map (λ kr, (prev_of kr.2, kr)) rows.

Lemma keyed_fst rows : (keyed rows).*1 = prevs rows.
Proof. induction rows as [|kr rows IH]; [done|]. by f_equal/=. Qed.

Lemma keyed_snd rows : (keyed rows).*2 = rows.
Proof. induction rows as [|kr rows IH]; [done|]. by f_equal/=. Qed.

Lemma index_rows_inl rows m m' :
  index_rows rows m = inl m' ↔
  NoDup (prevs rows) ∧ (∀ p, p ∈ prevs rows → m !! p = None) ∧ m' = list_to_map (keyed rows) ∪ m.
Proof.
  revert m. induction rows as [|[id r] rows IH]; intros m; simpl.
  - rewrite (left_id_L ∅ (∪)). split; [intros [= ->]|intros (_ & _ & ->)]; [|done].
    split_and!; [constructor| |done]. by intros p ?%elem_of_nil.
  - case_decide as Hd.
    + split; [done|]. intros (_ & Hn & _). rewrite Hn in Hd by (by left). by destruct Hd.
    + apply eq_None_not_Some in Hd. rewrite IH, NoDup_cons. split.
      * intros (Hnd & Hno & ->).
        assert (prev_of r ∉ prevs rows) as Hni by (intros Hin; specialize (Hno _ Hin); by rewrite lookup_insert_eq in Hno).
        split_and!; [done|done| |].
        -- intros p [->|Hp]%elem_of_cons; [done|].
           rewrite <-(lookup_insert_ne m (prev_of r) p (id, r)); [by apply Hno|by intros <-].
        -- rewrite <-insert_union_r, insert_union_l; [done|].
           apply not_elem_of_list_to_map_1. by rewrite keyed_fst.
      * intros ([Hni Hnd] & Hno & ->). split_and!; [done| |].
        -- intros p Hp. rewrite lookup_insert_ne by (by intros <-). apply Hno. by right.
        -- rewrite <-insert_union_r, insert_union_l; [done|].
           apply not_elem_of_list_to_map_1. by rewrite keyed_fst.
Qed.

Lemma walk_sound fuel cur m acc ordered last rest :
  walk fuel key cur m acc = inl (ordered, last, rest) →
  (∀ k x, m !! k = Some x → prev_of x.2 = k) →
  ∃ l, ordered = acc ++ l ∧ links key cur l last ∧
    (map_to_list m).*2 ≡ₚ l ++ (map_to_list rest).*2.
Proof.
  revert cur m acc. induction fuel as [|fuel IH]; intros cur m acc H Hm; simpl in H.
  - simplify_eq. exists []. by rewrite app_nil_r.
  - destruct (m !! cur) as [[id r]|] eqn:E; [|simplify_eq; exists []; by rewrite app_nil_r].
    destruct (bool_decide (row_hash key cur r = entry_of r)) eqn:Eh; [|done].
    apply bool_decide_eq_true in Eh.
    destruct (IH _ _ _ H) as (l & -> & Hl & Hp).
    { intros k x [_ Hk]%lookup_delete_Some. by apply Hm. }
    exists ((id, r) :: l). split_and!.
    + by rewrite <-app_assoc.
    + simpl. split_and!; [apply (Hm _ _ E)|done|done].
    + rewrite <-(map_to_list_delete m cur (id, r) E). simpl. by rewrite Hp.
Qed.

Lemma walk_complete l cur last acc fuel :
  links key cur l last → NoDup (prevs l) → length l ≤ fuel →
  walk fuel key cur (list_to_map (keyed l)) acc = inl (acc ++ l, last, ∅).
Proof.
  revert cur acc fuel. induction l as [|[id r] l IH]; intros cur acc fuel Hl Hnd Hf; simpl in *.
  - rewrite Hl, app_nil_r. by destruct fuel.
  - destruct Hl as (<- & He & Hl). apply NoDup_cons in Hnd as [Hni Hnd].
    destruct fuel as [|fuel]; [lia|]. simpl. rewrite lookup_insert_eq.
    rewrite bool_decide_eq_true_2 by done.
    rewrite delete_insert_id by (apply not_elem_of_list_to_map_1; by rewrite keyed_fst).
    rewrite IH by (done || lia). by rewrite <-app_assoc.
Qed.

(** Walking the rows of a chain visits them all, in link order. *)
Lemma walk_chain rows order last :
  order ≡ₚ rows → links key "" order last → NoDup (prevs order) →
  index_rows rows ∅ = inl (list_to_map (keyed order)) ∧
  walk (size (list_to_map (keyed order) : gmap string (uuid * audit_row))) key "" (list_to_map (keyed order)) [] =
    inl (order, last, ∅).
Proof.
  intros Hp Hl Hnd. split.
  - apply index_rows_inl. assert (prevs order ≡ₚ prevs rows) as Hpp by (by apply fmap_Permutation).
    split_and!; [by rewrite <-Hpp|by intros; apply lookup_empty|].
    rewrite (right_id_L ∅ (∪)). apply list_to_map_proper; [by rewrite keyed_fst|].
    by apply fmap_Permutation.
  - rewrite walk_complete with (last := last); [done..|].
    rewrite <-(length_map_to_list (list_to_map (keyed order))), map_to_list_to_map by (by rewrite keyed_fst).
    unfold keyed. by rewrite length_map.
Qed.

Lemma walk_all_sound rows m ordered last rest :
  index_rows rows ∅ = inl m → walk (size m) key "" m [] = inl (ordered, last, rest) → rest = ∅ →
  ordered ≡ₚ rows ∧ links key "" ordered last ∧ NoDup (prevs ordered).
Proof.
  intros (Hnd & _ & ->)%index_rows_inl Hw ->. rewrite (right_id_L ∅ (∪)) in Hw.
  apply walk_sound in Hw as (l & -> & Hl & Hp).
  - rewrite map_to_list_to_map in Hp by (by rewrite keyed_fst).
    rewrite keyed_snd, map_to_list_empty, app_nil_r in Hp. simpl.
    split_and!; [done|done|]. assert (prevs l ≡ₚ prevs rows) as -> by (by apply fmap_Permutation). done.
  - intros k x Hx. apply elem_of_list_to_map_2 in Hx. unfold keyed in Hx.
    apply list_elem_of_fmap in Hx as (? & [= -> ->] & _). done.
Qed.
End Walk.

(** *** The log *)

Section Log.
Context `{P : Primitives, !PrimitivesOk P}.

Lemma lockHead_Ok h w w' : lockHead w = (Ok h, w') → h = (db_audit_chain_head (w_db w)).1 ∧ w_db w' = w_db w.
Proof. unfold lockHead. intros H. steps. done. Qed.

Lemma select_insert {V} (p : uuid → V → bool) t k v :
  t !! k = None → p k v = true → select p (<[k := v]> t) ≡ₚ (k, v) :: select p t.
Proof.
  intros Hk Hp. unfold select. rewrite !(merge_sort_Permutation by_id), map_to_list_insert by done.
  rewrite filter_cons_True by done. done.
Qed.

Lemma NoDup_select {V} (p : uuid → V → bool) t : NoDup (select p t).
Proof.
  unfold select. rewrite (merge_sort_Permutation by_id). apply NoDup_filter, NoDup_map_to_list.
Qed.

(** What a chained append writes. *)
Lemma CreateTx_Ok r user project action env details ip u w w' :
  chainSecret r ≠ "" → CreateTx r user project action env details ip w = (Ok u, w') →
  let head := (db_audit_chain_head (w_db w)).1 in
  let entry := computeEntryHash (chainSecret r) head (uuidStr user) (uuidStr project) action env
                 (canonicalizeJSON (details_value details)) ip in
  ∃ id stored,
    Unmarshal (details_value details) = Some stored ∧ db_audit_log (w_db w) !! id = None ∧
    w_db w' = upd_db_audit_chain_head (λ h, (entry, h.2 + 1)%Z)
      (upd_db_audit_log <[id := mkAudit user project action env stored ip (Some head) (Some entry) (w_now w)]> (w_db w)).
Proof.
  intros Hk H. unfold CreateTx in H. rewrite bool_decide_eq_false_2 in H by done. cbv zeta in H.
  step_Ok. steps.
  match goal with H : lockHead _ = _ |- _ => apply lockHead_Ok in H as [-> Hdb] end.
  match goal with H : uuid_New _ = _ |- _ => apply uuid_New_Ok in H as [-> ->] end.
  match goal with H : _ = Some db |- _ => rename H into Hi end. cbn in Hi. rewrite Hdb in Hi.
  destruct (Unmarshal _) as [stored|]; [|done]. cbn in Hi. unfold insert_audit in Hi.
  destruct (_ || _) eqn:Hc in Hi; [done|]. rewrite !orb_false_iff, bool_decide_eq_false, <-eq_None_not_Some in Hc.
  destruct Hc as [[[Hno _] _] _]. eexists _, stored. split; [done|]. split; [exact Hno|].
  cbn. injection Hi as <-. done.
Qed.
End Log.

Lemma forward_CreateTx `{P : Primitives} r user project action env details ip : forward (CreateTx r user project action env details ip).
Proof. unfold CreateTx, lockHead. forward_tac. Qed.

(** Without driver failures an entry within the bounds of its columns is appended. *)
Lemma CreateTx_run `{P : Primitives} r user project action env details ip w :
  w_faults w = [] → json_ok details → varchar 100 action = true → varchar 50 env = true → varchar 45 ip = true →
  (∀ pos, (w_rng w <= pos)%N → db_audit_log (w_db w) !! uuid_new pos = None) →
  ∃ w', CreateTx r user project action env details ip w = (Ok (), w') ∧ w_faults w' = [].
Proof.
  intros F [Hn Hd] Ha He Hi Hfresh. destruct w as [db t rng faults locks]. cbn in F, Hfresh. subst faults.
  assert (∀ stored p h, insert_audit (uuid_new rng) (mkAudit user project action env stored ip p h t) db
    = Some (upd_db_audit_log <[uuid_new rng := mkAudit user project action env stored ip p h t]> db)) as Hins.
  { intros stored p h. unfold insert_audit. rewrite Hfresh by lia. cbn [au_action au_environment au_ip_address].
    by rewrite Ha, He, Hi, bool_decide_eq_false_2 by (by intros [? ?]). }
  unfold CreateTx, details_value. rewrite Unmarshal_Marshal_normalize by done.
  rewrite (bind_then now _ _ _ _ eq_refl). case_bool_decide; rewrite ?(bind_then uuid_New _ _ _ _ eq_refl).
  - erewrite exec_run; [by eexists|done|apply Hins].
  - erewrite bind_then; [|apply wrap_err_Ok; unfold lockHead; erewrite bind_then; [|by apply exec__run]; done].
    rewrite (bind_then uuid_New _ _ _ _ eq_refl). erewrite bind_then; [|by apply wrap_err_Ok, exec_run; [done|apply Hins]].
    rewrite exec__run by done. by eexists.
Qed.

Lemma canonicalize_Marshal d : json_ok d → canonicalizeJSON (Marshal d) = Marshal (normalize d).
Proof.
  intros [Hn Hd]. unfold canonicalizeJSON. rewrite Unmarshal_Marshal_normalize by done.
  rewrite bool_decide_eq_false_2; [done|]. intros E. pose proof (Marshal_length d Hn) as Hlen. rewrite E in Hlen. simpl in Hlen. lia.
Qed.

(** Canonical bytes survive storage: the bytes hashed when an entry is written
    are the bytes hashed when it is read back. *)
Lemma canonicalize_stored d stored :
  json_ok d → Unmarshal (details_value d) = Some stored →
  canonicalizeJSON (Marshal stored) = canonicalizeJSON (details_value d) ∧ json_ok stored.
Proof.
  unfold details_value. intros Hd H. pose proof Hd as [Hn Hdep].
  rewrite Unmarshal_Marshal_normalize in H by done. injection H as <-.
  pose proof (json_ok_normalize d Hd). rewrite !canonicalize_Marshal, normalize_idem by done. done.
Qed.

Section Chain.
Context `{P : Primitives, !PrimitivesOk P}.

Lemma VerifyChain_sound r w w' :
  VerifyChain r w = (Ok None, w') → chain_ok (chainSecret r) (w_db w).
Proof.
  unfold VerifyChain. case_bool_decide; [done|]. intros Hv. apply rollback_tx_Ok in Hv as (_ & w1 & Hv).
  step_Ok. match goal with H : lockHead _ = _ |- _ => apply lockHead_Ok in H as [-> Hdb] end. steps.
  match goal with H : _ = (Ok None, _) |- _ => rename H into Hm end. rewrite Hdb in Hm.
  destruct (index_rows _ _) as [byPrev|id] eqn:Ei; [|steps].
  destruct (walk _ _ _ _ _) as [[[ordered last] rest]|id] eqn:Ew; [|steps].
  destruct (map_to_list rest) as [|[k [id x]] l] eqn:Er; [|steps].
  apply map_to_list_empty_iff in Er.
  destruct (negb _) eqn:Eh in Hm; [steps|]. apply negb_false_iff, bool_decide_eq_true in Eh.
  destruct (walk_all_sound _ _ _ _ _ _ Ei Ew Er) as (Hp & Hl & Hnd).
  exists ordered. split_and!; [done| |done]. cbn in Eh. by rewrite Eh.
Qed.

Lemma VerifyChain_complete r w :
  chainSecret r ≠ "" → w_faults w = [] → chain_ok (chainSecret r) (w_db w) →
  ∃ w', VerifyChain r w = (Ok None, w').
Proof.
  intros Hk Hf (order & Hp & Hl & Hnd). unfold VerifyChain. rewrite bool_decide_eq_false_2 by done.
  destruct (walk_chain (chainSecret r) _ _ _ Hp Hl Hnd) as [Ei Ew].
  destruct w as [db t rng faults locks]. simpl in *. subst faults.
  unfold rollback_tx, with_tx_opt, lockHead, exec_, exec, exec_n, query, tick, get, modify, wrap_err, mbind, M_bind, mret, M_ret.
  cbn. unfold upd_w_db, upd_w_locks, ticked, upd_w_faults. cbn.
  rewrite Ei. cbn. rewrite Ew. cbn. rewrite map_to_list_empty, bool_decide_eq_true_2 by done. cbn. eauto.
Qed.

(** Appending to a chain gives a chain, unless the new entry collides. *)
Lemma CreateTx_chain r user project action env details ip u w w' :
  chainSecret r ≠ "" → json_ok details →
  CreateTx r user project action env details ip w = (Ok u, w') →
  chain_ok (chainSecret r) (w_db w) →
  collision_free (chainSecret r) (chained_rows (w_db w')) →
  chain_ok (chainSecret r) (w_db w').
Proof.
  intros Hk Hd H (order & Hp & Hl & Hnd) Hc.
  apply CreateTx_Ok in H as (id & stored & Hs & Hno & E); [|done].
  destruct (canonicalize_stored _ _ Hd Hs) as [Hcan _].
  set (head := (db_audit_chain_head (w_db w)).1) in *.
  set (row := mkAudit _ _ _ _ stored _ _ _ _) in E.
  assert (chained_rows (w_db w') ≡ₚ (id, row) :: chained_rows (w_db w)) as Hrows.
  { rewrite E. unfold chained_rows. cbn. by rewrite select_insert. }
  assert (entry_of row = row_hash (chainSecret r) head row) as He.
  { unfold row_hash, details_raw. simpl. by rewrite Hcan. }
  assert (links (chainSecret r) "" (order ++ [(id, row)]) (entry_of row)) as Hl' by (apply links_snoc; by split_and!).
  assert (order ++ [(id, row)] ≡ₚ chained_rows (w_db w')) as Hp' by (rewrite Hrows, Hp; symmetry; apply Permutation_cons_append).
  exists (order ++ [(id, row)]). split; [done|]. split; [by rewrite E|].
  apply links_NoDup in Hl'; [|by intros a b; rewrite Hp'; apply Hc].
  by apply NoDup_app in Hl' as [? _].
Qed.
End Chain.

(** *** Re-anchoring *)

Section Prune.
Context `{P : Primitives, !PrimitivesOk P} (key : string).
Implicit Types (rows : list (uuid * audit_row)) (log : gmap uuid audit_row).

(** The surviving rows with their new links, and the new head. *)
Fixpoint relink (prev : string) rows : list (uuid * audit_row) :=
  match rows with
  | [] => []
  | (id, r) :: rows => let e := row_hash key prev r in (id, set_links prev e r) :: relink e rows
  end.
Fixpoint relink_last (prev : string) rows : string :=
  match rows with
  | [] => prev
  | (_, r) :: rows => relink_last (row_hash key prev r) rows
  end.
Fixpoint relink_log (prev : string) rows log : gmap uuid audit_row :=
  match rows with
  | [] => log
  | (id, r) :: rows => let e := row_hash key prev r in relink_log e rows (alter (set_links prev e) id log)
  end.

Lemma links_relink prev rows : links key prev (relink prev rows) (relink_last prev rows).
Proof. revert prev. induction rows as [|[id r] rows IH]; intros prev; simpl; [done|]. by split_and!. Qed.

Lemma relink_ids prev rows : (relink prev rows).*1 = rows.*1.
Proof. revert prev. induction rows as [|[id r] rows IH]; intros prev; simpl; [done|]. by f_equal/=. Qed.

Lemma relink_fields prev rows : map (λ kr, row_fields kr.2) (relink prev rows) = map (λ kr, row_fields kr.2) rows.
Proof. revert prev. induction rows as [|[id r] rows IH]; intros prev; simpl; [done|]. by f_equal/=. Qed.

Lemma relink_entry prev rows id r : (id, r) ∈ relink prev rows → is_Some (au_entry_hash r).
Proof.
  revert prev. induction rows as [|[k x] rows IH]; intros prev; simpl; [by intros ?%elem_of_nil|].
  intros [[= -> ->]|H]%elem_of_cons; [by eexists|by eapply IH].
Qed.

Lemma relink_log_other prev rows log id : id ∉ rows.*1 → relink_log prev rows log !! id = log !! id.
Proof.
  revert prev log. induction rows as [|[k x] rows IH]; intros prev log; simpl; [done|].
  rewrite not_elem_of_cons. intros [Hk Hn]. rewrite IH by done. by rewrite lookup_alter_ne.
Qed.

Lemma relink_log_lookup prev rows log id r :
  NoDup rows.*1 → (∀ k x, (k, x) ∈ rows → log !! k = Some x) →
  (id, r) ∈ relink prev rows → relink_log prev rows log !! id = Some r.
Proof.
  revert prev log. induction rows as [|[k x] rows IH]; intros prev log; simpl; [by intros _ _ ?%elem_of_nil|].
  intros [Hk Hn]%NoDup_cons Hlog [[= -> ->]|H]%elem_of_cons.
  - rewrite relink_log_other, lookup_alter_eq, (Hlog k x) by (done || by left). done.
  - apply IH; [done| |done]. intros j y Hy. rewrite lookup_alter_ne; [by apply Hlog; right|].
    intros ->. apply Hk, list_elem_of_fmap. by exists (j, y).
Qed.

Lemma reanchor_Ok rows last w w' :
  reanchor key rows w = (Ok last, w') →
  last = relink_last "" rows ∧ w_db w' = upd_db_audit_log (relink_log "" rows) (w_db w).
Proof.
  unfold reanchor. set (body := λ prev '(id, r), _).
  assert (∀ prev w, for_fold rows prev body w = (Ok last, w') →
    last = relink_last prev rows ∧ w_db w' = upd_db_audit_log (relink_log prev rows) (w_db w)) as Hgen; [|apply Hgen].
  clear w. induction rows as [|[id r] rows IH]; intros prev w H; cbn [for_fold] in H; steps.
  - split; [done|]. unfold upd_db_audit_log. by destruct (w_db w').
  - apply IH in H as [-> ->]. match goal with H : body _ _ _ = _ |- _ => unfold body in H; steps end. done.
Qed.

Lemma delete_rows_Ok rows u w w' :
  for_each rows (λ '(id, _), wrap_err "deleting pruned audit row" (exec_ (upd_db_audit_log (delete id)))) w = (Ok u, w') →
  w_db w' = upd_db_audit_log (λ log, foldl (λ log kr, delete kr.1 log) log rows) (w_db w).
Proof.
  revert w. induction rows as [|[id r] rows IH]; intros w H; cbn [for_each] in H; steps.
  - unfold upd_db_audit_log. by destruct (w_db w').
  - apply IH in H as ->. done.
Qed.

Lemma lookup_foldl_delete rows log id :
  foldl (λ log (kr : uuid * audit_row), delete kr.1 log) log rows !! id =
  if decide (id ∈ rows.*1) then None else log !! id.
Proof.
  revert log. induction rows as [|[k x] rows IH]; intros log; simpl; [done|].
  rewrite IH. destruct (decide (id ∈ rows.*1)) as [Hin|Hn].
  - by rewrite decide_True by (by right).
  - destruct (decide (id = k)) as [->|Hne].
    + rewrite decide_True by (by left). apply lookup_delete_eq.
    + rewrite decide_False by (by rewrite not_elem_of_cons). by rewrite lookup_delete_ne.
Qed.

(** After a prune the chained rows are the survivors, re-linked. *)
Lemma pruned_rows db ordered n :
  ordered ≡ₚ chained_rows db →
  chained_rows (upd_db_audit_log (λ log, relink_log "" (drop n ordered)
    (foldl (λ log kr, delete kr.1 log) log (take n ordered))) db) ≡ₚ relink "" (drop n ordered).
Proof.
  intros Hp.
  assert (∀ k x, (k, x) ∈ ordered ↔ db_audit_log db !! k = Some x ∧ is_Some (au_entry_hash x)) as Hord.
  { intros k x. rewrite Hp. unfold chained_rows. rewrite elem_of_select. destruct (au_entry_hash x); naive_solver. }
  assert (NoDup ordered.*1) as Hnd.
  { apply NoDup_fmap_fst; [|rewrite Hp; apply NoDup_select].
    intros k x y Hx Hy. apply Hord in Hx, Hy. naive_solver. }
  rewrite <-(take_drop n ordered), fmap_app in Hnd. apply NoDup_app in Hnd as (_ & Hdisj & Hnd).
  set (log1 := foldl (λ log kr, delete kr.1 log) (db_audit_log db) (take n ordered)).
  assert (∀ k x, (k, x) ∈ drop n ordered → log1 !! k = Some x) as Hlog1.
  { intros k x Hin. unfold log1. rewrite (lookup_foldl_delete (take n ordered)), decide_False.
    - apply Hord. rewrite <-(take_drop n ordered). apply elem_of_app. by right.
    - intros Hk. apply (Hdisj k Hk), list_elem_of_fmap. by exists (k, x). }
  apply NoDup_Permutation.
  - apply NoDup_select.
  - apply (NoDup_fmap_1 fst). by rewrite relink_ids.
  - intros [k v]. unfold chained_rows. rewrite elem_of_select. cbn. fold log1. split.
    + intros [Hk He]. destruct (decide (k ∈ (drop n ordered).*1)) as [Hin|Hn].
      * rewrite <-(relink_ids "") in Hin. apply list_elem_of_fmap in Hin as ([k' v'] & Heq & Hin). simpl in Heq. subst k'.
        rewrite (relink_log_lookup _ _ _ _ _ Hnd Hlog1 Hin) in Hk. by simplify_eq.
      * exfalso. rewrite relink_log_other in Hk by done. unfold log1 in Hk.
        rewrite lookup_foldl_delete in Hk. case_decide as Hd; [done|].
        assert ((k, v) ∈ ordered) as Hin by (apply Hord; split; [done|]; destruct (au_entry_hash v); [by eexists|done]).
        rewrite <-(take_drop n ordered), elem_of_app in Hin.
        destruct Hin as [Hin|Hin]; [apply Hd|apply Hn]; apply list_elem_of_fmap; by exists (k, v).
    + intros Hin. split; [by apply relink_log_lookup|].
      by destruct (relink_entry _ _ _ _ Hin) as [? ->].
Qed.

(** What a prune does to a chain. *)
Lemma pruneChained_Ok r cutoff n w w' :
  chainSecret r = key → pruneChained r cutoff w = (Ok n, w') →
  ∃ ordered last, ordered ≡ₚ chained_rows (w_db w) ∧ links key "" ordered last ∧
    n = Z.of_nat (old_prefix cutoff ordered) ∧
    (w_db w' = w_db w ∧ n = 0%Z ∨
     chained_rows (w_db w') ≡ₚ relink "" (drop (old_prefix cutoff ordered) ordered) ∧
     (db_audit_chain_head (w_db w')).1 = relink_last "" (drop (old_prefix cutoff ordered) ordered)).
Proof.
  intros Hk H. unfold pruneChained in H. rewrite Hk in H.
  apply with_tx_opt_Ok in H as (c & w1 & H & Hw').
  step_Ok. match goal with H : lockHead _ = _ |- _ => apply lockHead_Ok in H as [_ Hdb] end. steps.
  match goal with H : _ = (Ok (n, c), _) |- _ => rename H into Hm end. rewrite Hdb in Hm. cbn in Hdb.
  destruct (index_rows _ _) as [byPrev|id] eqn:Ei; [|steps].
  destruct (walk _ _ _ _ _) as [[[ordered last] rest]|id] eqn:Ew; [|steps].
  destruct (negb (size rest =? 0)) eqn:Er; [steps|].
  apply negb_false_iff, Nat.eqb_eq, map_size_empty_iff in Er.
  destruct (walk_all_sound _ _ _ _ _ _ Ei Ew Er) as (Hp & Hl & _). cbn in Hp.
  exists ordered, last. split; [done|]. split; [done|].
  destruct (old_prefix cutoff ordered =? 0) eqn:E0; steps.
  - apply Nat.eqb_eq in E0. split; [by rewrite E0|]. left. done.
  - match goal with H : for_each _ _ _ = _ |- _ => apply delete_rows_Ok in H; rename H into Hdel end.
    match goal with H : reanchor _ _ _ = _ |- _ => apply reanchor_Ok in H as [-> Hre] end.
    split; [done|]. right. cbn. cbn in Hdel. rewrite Hdb in Hdel. rewrite Hre, Hdel.
    split; [|done]. etrans; [|apply pruned_rows, Hp]. unfold chained_rows. by cbn.
Qed.
End Prune.

Lemma reanchored_ok `{P : Primitives, !PrimitivesOk P} key db ordered k :
  chained_rows db ≡ₚ relink key "" (drop k ordered) →
  (db_audit_chain_head db).1 = relink_last key "" (drop k ordered) →
  collision_free key (chained_rows db) → chain_ok key db.
Proof.
  intros Hp Hh Hc. exists (relink key "" (drop k ordered)). split; [done|].
  pose proof (links_relink key "" (drop k ordered)) as Hl. split; [by rewrite Hh|].
  apply links_NoDup in Hl; [by apply NoDup_app in Hl as [? _]|].
  intros a b. rewrite <-Hp. apply Hc.
Qed.

(** Collision freedom of a concrete log, by computation. *)
Definition collision_freeb `{P : Primitives} (key : string) (rows : list (uuid * audit_row)) : bool :=
  let l := map (λ kr, let m := row_message (prev_of kr.2) kr.2 in (hmac_sha256 key m, m)) rows in
  forallb (λ a, forallb (λ b, negb (bool_decide (a.1 = b.1)) || bool_decide (a.2 = b.2)) l) l.
Lemma collision_freeb_ok `{P : Primitives} key rows : collision_freeb key rows = true → collision_free key rows.
Proof.
  unfold collision_freeb. intros H a b Ha Hb E. rewrite forallb_forall in H.
  specialize (H _ (in_map _ _ _ (proj1 (list_elem_of_In _ _) Ha))). rewrite forallb_forall in H.
  specialize (H _ (in_map _ _ _ (proj1 (list_elem_of_In _ _) Hb))). cbn [fst snd] in H.
  apply orb_true_iff in H as [H|H%bool_decide_eq_true]; [|done].
  by apply negb_true_iff, bool_decide_eq_false in H.
Qed.

(** A three-entry log for the examples; hashes are the toy ones. *)
Import Toy.
Definition demo_repo : AuditRepository := mkAuditRepository "chain-key".
Definition demo_details : json := mk_obj [("secret_id", JStr "s1"); ("revision", JInt 2)].
Definition log_entry (action : string) (t : time) (w : World) : World :=
  (Create demo_repo (Some 1%N) (Some 20%N) action "alpha" demo_details "" (upd_w_now (const t) w)).2.
Definition demo_log : World :=
  log_entry "secret.read" (60 * Hour) (log_entry "secret.updated" (50 * Hour) (log_entry "secret.created" 0 (world_of empty_db 0))).
(** The same log after someone removed its newest entry. *)
Definition truncated_log : World :=
  upd_w_db (upd_db_audit_log (filter (λ kr, (au_created_at kr.2 < 60 * Hour)%Z))) demo_log.

(** ** Properties *)

(** C36: verification decides integrity.  [VerifyChain] reports no problem
    exactly when the chained rows form one chain: starting from the empty hash,
    every row links to the previous row's hash and carries the HMAC of its own
    contents, no two rows have the same predecessor, no row is left over, and the
    last hash is the durable head; verifying changes nothing. *)
Theorem VerifyChain_iff `{P : Primitives, !PrimitivesOk P} r w :
  chainSecret r ≠ "" → w_faults w = [] →
  ((∃ w', VerifyChain r w = (Ok None, w')) ↔ chain_ok (chainSecret r) (w_db w)) ∧
  (∀ res w', VerifyChain r w = (Ok res, w') → w_db w' = w_db w).
Proof.
  intros Hk Hf. split; [split|].
  - intros [w' H]. by eapply VerifyChain_sound.
  - by apply VerifyChain_complete.
  - intros res w'. unfold VerifyChain. case_bool_decide; [done|]. by intros [? _]%rollback_tx_Ok.
Qed.

Lemma VerifyChain_iff_witness :
  (∃ w', VerifyChain demo_repo demo_log = (Ok None, w')) ∧ chain_ok "chain-key" (w_db demo_log).
Proof.
  assert (∃ w', VerifyChain demo_repo demo_log = (Ok None, w')) as H by (eexists; vm_compute; reflexivity).
  split; [exact H|].
  refine (proj1 (proj1 (VerifyChain_iff demo_repo demo_log _ _)) H); [discriminate|vm_compute; reflexivity].
Defined.

(** Appending keeps the log verifiable.  An entry written to a log whose
    chain is intact leaves the chain intact, ending in the new head, as long as
    the HMAC does not collide on the entries of the log; the details that were
    hashed are the ones read back from JSONB. *)
Theorem CreateTx_extends_chain `{P : Primitives, !PrimitivesOk P} r user project action env details ip u w w' :
  chainSecret r ≠ "" → json_ok details →
  CreateTx r user project action env details ip w = (Ok u, w') →
  chain_ok (chainSecret r) (w_db w) →
  collision_free (chainSecret r) (chained_rows (w_db w')) →
  chain_ok (chainSecret r) (w_db w').
Proof. apply CreateTx_chain. Qed.

Lemma CreateTx_extends_chain_witness :
  ∃ w', CreateTx demo_repo None None "project.created" "" (JObj []) "" (world_of empty_db 5) = (Ok (), w') ∧
    chain_ok "chain-key" (w_db w').
Proof.
  eexists. split; [vm_compute; reflexivity|].
  refine (CreateTx_extends_chain demo_repo None None "project.created" "" (JObj []) "" () (world_of empty_db 5) _ _ _ _ _ _).
  - discriminate.
  - split; [reflexivity|discriminate].
  - vm_compute. reflexivity.
  - exists []. split; [reflexivity|]. split; [reflexivity|constructor].
  - intros a b Ha Hb _. vm_compute in Ha, Hb.
    apply list_elem_of_singleton in Ha as ->. apply list_elem_of_singleton in Hb as ->. reflexivity.
Defined.



(** Retention keeps the log verifiable.  A successful prune deletes exactly
    the leading run of rows older than the cutoff, in chain order, reports how
    many, keeps the contents and order of every other chained row, and leaves an
    intact chain that starts afresh at the first survivor, unless the HMAC
    collides on the entries that remain. *)
Theorem prune_keeps_chain `{P : Primitives, !PrimitivesOk P} r cutoff n w w' :
  pruneChained r cutoff w = (Ok n, w') → chain_ok (chainSecret r) (w_db w) →
  collision_free (chainSecret r) (chained_rows (w_db w')) →
  chain_ok (chainSecret r) (w_db w') ∧
  ∃ order order' last last',
    order ≡ₚ chained_rows (w_db w) ∧ links (chainSecret r) "" order last ∧
    order' ≡ₚ chained_rows (w_db w') ∧ links (chainSecret r) "" order' last' ∧
    n = Z.of_nat (old_prefix cutoff order) ∧
    map (λ kr, row_fields kr.2) order' = drop (old_prefix cutoff order) (map (λ kr, row_fields kr.2) order).
Proof.
  intros H Hok Hc. apply (pruneChained_Ok (chainSecret r)) in H as (o & last & Hp & Hl & Hn & Hcases); [|done].
  destruct Hcases as [[E E0]|[Hr Hh]].
  - rewrite E in *. split; [done|]. exists o, o, last, last. split_and!; try done.
    replace (old_prefix cutoff o) with 0 by lia. done.
  - split; [by eapply reanchored_ok|].
    exists o, (relink (chainSecret r) "" (drop (old_prefix cutoff o) o)), last, (relink_last (chainSecret r) "" (drop (old_prefix cutoff o) o)).
    split_and!; [done|done|by rewrite Hr|apply links_relink|done|]. rewrite relink_fields. apply (fmap_drop (λ kr : uuid * audit_row, row_fields kr.2)).
Qed.

Lemma prune_keeps_chain_witness :
  ∃ w', pruneChained demo_repo (20 * Hour) demo_log = (Ok 1%Z, w') ∧ chain_ok "chain-key" (w_db w').
Proof.
  eexists. split; [vm_compute; reflexivity|].
  refine (proj1 (prune_keeps_chain demo_repo (20 * Hour) 1 demo_log _ _ _ _)).
  - vm_compute. reflexivity.
  - apply (VerifyChain_sound demo_repo demo_log (VerifyChain demo_repo demo_log).2). vm_compute. reflexivity.
  - apply collision_freeb_ok. vm_compute. reflexivity.
Defined.

(** Pruning does not compare the chain it re-anchors with the durable head: a
    log whose newest entry was removed fails verification, but after a retention
    run that deletes at least one row it verifies again. *)
Lemma prune_accepts_truncated_log :
  let pruned := DeleteOlderThan demo_repo 1 (upd_w_now (const (61 * Hour)%Z) truncated_log) in
  (VerifyChain demo_repo truncated_log).1 = Err (Errorf "audit head does not match chain") ∧
  pruned.1 = Ok 1%Z ∧ (VerifyChain demo_repo pruned.2).1 = Ok None.
Proof. split_and!; vm_compute; reflexivity. Qed.
