(* ===== verification/VaultStore.v ===== *)
(** * The tables of the versioned vault and the statements on them

    The SQL of [internal/vault] as functions of the database, with the
    constraints of migrations 001, 002, 018, 022, 024 and 030 deciding which
    writes are refused; the deferred journal triggers are not assumed but proved
    as the invariant [journal_ok], which this file states together with the
    append-only order [history_grows]. *)
From S2P Require Import Prelude GoStrings GoEncoding Schema Database Authority.

(** ** Definitions *)

Definition secrets (db : DB) := t_secrets (db_secrets db).
Definition snapshots (db : DB) := t_secret_snapshots (db_secrets db).
Definition promotions (db : DB) := t_promotion_requests (db_secrets db).
Definition vkeys (db : DB) := t_vault_keys (db_vault db).
Definition vprojects (db : DB) := t_vault_projects (db_vault db).
Definition ventries (db : DB) := t_vault_entries (db_vault db).
Definition vrevisions (db : DB) := t_vault_revisions (db_vault db).
Definition vsnapkeys (db : DB) := t_vault_snapshot_keys (db_vault db).
Definition vbindings (db : DB) := t_vault_promotion_bindings (db_vault db).
Definition veffects (db : DB) := t_vault_promotion_effects (db_vault db).
Definition vlifecycle (db : DB) := t_vault_lifecycle (db_vault db).
Definition vnotifications (db : DB) := t_vault_notifications (db_vault db).

(** *** Constraints *)

(** [FOREIGN KEY(key_id,project_id) REFERENCES vault_keys]. *)
Definition key_ok (key project : uuid) (db : DB) : bool :=
  match vkeys db !! key with Some k => bool_decide (vk_project_id k = project) | None => false end.
(** [FOREIGN KEY(environment_id,project_id) REFERENCES environments]. *)
Definition env_ok (env project : uuid) (db : DB) : bool :=
  match environments db !! env with Some e => bool_decide (en_project_id e = project) | None => false end.
(** [FOREIGN KEY(secret_id,project_id) REFERENCES vault_entries]. *)
Definition entry_ok (id project : uuid) (db : DB) : bool :=
  match ventries db !! id with Some e => bool_decide (ve_project_id e = project) | None => false end.
(** [UNIQUE(environment_id,secret_key) WHERE NOT deleted], for a row other than [id]. *)
Definition active_elsewhere (id env : uuid) (key : string) (db : DB) : bool :=
  bool_decide (map_Exists (λ id' e, id' ≠ id ∧ ve_environment_id e = env ∧ ve_secret_key e = key ∧ ve_deleted e = false)
    (ventries db)).
(** [UNIQUE(environment_id,key)] of [secrets]. *)
Definition live_elsewhere (env : uuid) (key : string) (db : DB) : bool :=
  bool_decide (map_Exists (λ _ s, sr_environment_id s = env ∧ sr_key s = key) (secrets db)).
(** [VARCHAR(n)]. *)
Definition varchar (n : nat) (s : string) : bool := length (runes s) <=? n.

(** [x++] on an [int64]. *)
Definition incr64 (x : Z) : Z := if (x =? 2 ^ 63 - 1)%Z then (- 2 ^ 63)%Z else (x + 1)%Z.

(** *** Inserts *)

Definition insert_key (id : uuid) (k : vault_key_row) (db : DB) : option DB :=
  if bool_decide (is_Some (vkeys db !! id)) || bool_decide (projects db !! vk_project_id k = None) then None
  else Some (upd_db_vault (upd_t_vault_keys <[id := k]>) db).

Definition insert_project (project key : uuid) (db : DB) : option DB :=
  if bool_decide (is_Some (vprojects db !! project)) || negb (key_ok key project db) then None
  else Some (upd_db_vault (upd_t_vault_projects <[project := key]>) db).

Definition insert_entry (id : uuid) (e : entry_row) (db : DB) : option DB :=
  if bool_decide (is_Some (ventries db !! id)) || bool_decide (vprojects db !! ve_project_id e = None)
     || negb (env_ok (ve_environment_id e) (ve_project_id e) db) || negb (varchar 255 (ve_secret_key e))
     || (ve_revision e <=? 0)%Z || negb (key_ok (ve_key_id e) (ve_project_id e) db)
     || (negb (ve_deleted e) && active_elsewhere id (ve_environment_id e) (ve_secret_key e) db)
  then None
  else Some (upd_db_vault (upd_t_vault_entries <[id := e]>) db).

Definition insert_revision (id : uuid) (rev : Z) (r : revision_row) (db : DB) : option DB :=
  if bool_decide (is_Some (vrevisions db !! (id, rev))) || (rev <=? 0)%Z
     || negb (entry_ok id (vr_project_id r) db) || negb (key_ok (vr_key_id r) (vr_project_id r) db)
     || negb (varchar 40 (vr_operation r))
  then None
  else Some (upd_db_vault (upd_t_vault_revisions <[(id, rev) := r]>) db).

Definition insert_secret (id : uuid) (s : secret_row) (db : DB) : option DB :=
  if bool_decide (is_Some (secrets db !! id)) || bool_decide (projects db !! sr_project_id s = None)
     || bool_decide (environments db !! sr_environment_id s = None) || negb (varchar 255 (sr_key s))
     || live_elsewhere (sr_environment_id s) (sr_key s) db
  then None
  else Some (upd_db_secrets (upd_t_secrets <[id := s]>) db).

(** The trigger [keepsave_vault_snapshot_binding] checks the owner. *)
Definition snapshot_owned (id project : uuid) (db : DB) : bool :=
  match snapshots db !! id with
  | Some ss => match promotions db !! ss_promotion_id ss with
               | Some pr => bool_decide (pq_project_id pr = project) && ss_prior_existed ss
               | None => false
               end
  | None => false
  end.
Definition insert_snapshot_key (id project key : uuid) (db : DB) : option DB :=
  if bool_decide (is_Some (vsnapkeys db !! id)) || negb (snapshot_owned id project db) || negb (key_ok key project db)
  then None
  else Some (upd_db_vault (upd_t_vault_snapshot_keys <[id := (project, key)]>) db).

(** *** Updates and deletes *)

Definition secret_is (id project : uuid) (k : uuid) (s : secret_row) : bool :=
  bool_decide (k = id) && bool_decide (sr_project_id s = project).
Definition set_value (cipher nonce : string) (t : time) (s : secret_row) : secret_row :=
  mkSecret (sr_project_id s) (sr_environment_id s) (sr_key s) cipher nonce (sr_created_at s) t.
(** [UPDATE secrets SET encrypted_value,value_nonce,updated_at WHERE id AND project_id]. *)
Definition update_secret (id project : uuid) (cipher nonce : string) (t : time) (db : DB) : DB :=
  upd_db_secrets (upd_t_secrets (update_where (secret_is id project) (set_value cipher nonce t))) db.
(** [DELETE FROM secrets WHERE id AND project_id]. *)
Definition delete_secret (id project : uuid) (db : DB) : DB :=
  upd_db_secrets (upd_t_secrets (delete_where (secret_is id project))) db.
(** [DELETE FROM secrets WHERE project_id]. *)
Definition delete_secrets (project : uuid) (db : DB) : DB :=
  upd_db_secrets (upd_t_secrets (delete_where (λ _ s, bool_decide (sr_project_id s = project)))) db.

Definition entry_is (id project : uuid) (k : uuid) (e : entry_row) : bool :=
  bool_decide (k = id) && bool_decide (ve_project_id e = project).
Definition set_entry (rev : Z) (key : uuid) (deleted : bool) (e : entry_row) : entry_row :=
  mkEntry (ve_project_id e) (ve_environment_id e) (ve_secret_key e) rev key deleted.
(** [UPDATE vault_entries SET revision,key_id,deleted WHERE secret_id AND project_id]. *)
Definition update_entry (id project : uuid) (rev : Z) (key : uuid) (deleted : bool) (db : DB) : option DB :=
  match ventries db !! id with
  | Some e =>
      if bool_decide (ve_project_id e = project) &&
         ((rev <=? 0)%Z || negb (key_ok key project db)
          || (negb deleted && active_elsewhere id (ve_environment_id e) (ve_secret_key e) db))
      then None
      else Some (upd_db_vault (upd_t_vault_entries (update_where (entry_is id project) (set_entry rev key deleted))) db)
  | None => Some db
  end.

(** [UPDATE vault_projects SET current_key_id WHERE project_id]. *)
Definition set_current_key (project key : uuid) (db : DB) : option DB :=
  match vprojects db !! project with
  | Some _ => if key_ok key project db then Some (upd_db_vault (upd_t_vault_projects <[project := key]>) db) else None
  | None => Some db
  end.

(** *** Reads *)

(** [SELECT id FROM environments WHERE project_id=$1 AND name=$2]. *)
Definition find_env (project : uuid) (name : string) (db : DB) : option uuid :=
  fst <$> head (select (λ _ e, bool_decide (en_project_id e = project) && bool_decide (en_name e = name))
                  (environments db)).

(** [... vault_entries v JOIN environments e ON e.id=v.environment_id AND
    e.project_id=v.project_id]. *)
Definition entry_env (e : entry_row) (db : DB) : option environment_row :=
  env ← environments db !! ve_environment_id e;
  if bool_decide (en_project_id env = ve_project_id e) then Some env else None.

(** The undeleted entries of an environment, in key order. *)
Definition by_key (a b : uuid * entry_row) : Prop := String.le (ve_secret_key a.2) (ve_secret_key b.2).
#[export] Instance by_key_dec : RelDecision by_key.
Proof. intros a b. unfold by_key. apply _. Defined.
Definition in_environment (project : uuid) (environment : string) (db : DB) (e : entry_row) : bool :=
  bool_decide (ve_project_id e = project) && negb (ve_deleted e)
  && match entry_env e db with Some env => bool_decide (en_name env = environment) | None => false end.
Definition active_ids (project : uuid) (environment : string) (db : DB) : list uuid :=
  map fst (merge_sort by_key (select (λ _ e, in_environment project environment db e) (ventries db))).
(** The active entry of a name, found through the environment's name or its id. *)
Definition active_named (project : uuid) (environment key : string) (db : DB) : option uuid :=
  fst <$> head (select (λ _ e, in_environment project environment db e && bool_decide (ve_secret_key e = key))
                  (ventries db)).
Definition active_in_env (project env : uuid) (key : string) (db : DB) : option uuid :=
  fst <$> head (select (λ _ e, bool_decide (ve_project_id e = project) && bool_decide (ve_environment_id e = env)
                               && bool_decide (ve_secret_key e = key) && negb (ve_deleted e)) (ventries db)).
(** [SELECT secret_id FROM vault_entries WHERE project_id=$1 AND NOT deleted ORDER BY secret_id]. *)
Definition active_entries (project : uuid) (db : DB) : list (uuid * entry_row) :=
  select (λ _ e, bool_decide (ve_project_id e = project) && negb (ve_deleted e)) (ventries db).

(** The snapshots of a project that hold a prior value. *)
Definition prior_snapshots (project : uuid) (db : DB) : list (uuid * snapshot_row) :=
  select (λ id _, snapshot_owned id project db) (snapshots db).

(** *** The append-only order

    History, key material and promotion evidence are never changed or removed;
    an entry keeps its identity, its revision only grows, and a deleted entry
    stays as it is. *)

Definition entry_le (e e' : entry_row) : Prop :=
  ve_project_id e' = ve_project_id e ∧ ve_environment_id e' = ve_environment_id e ∧
  ve_secret_key e' = ve_secret_key e ∧ (ve_revision e <= ve_revision e')%Z ∧
  (ve_deleted e = true → e' = e).

Record history_grows (db db' : DB) : Prop := {
  hg_keys : vkeys db ⊆ vkeys db';
  hg_revisions : vrevisions db ⊆ vrevisions db';
  hg_snapkeys : vsnapkeys db ⊆ vsnapkeys db';
  hg_bindings : vbindings db ⊆ vbindings db';
  hg_effects : veffects db ⊆ veffects db';
  hg_entries : ∀ id e, ventries db !! id = Some e → ∃ e', ventries db' !! id = Some e' ∧ entry_le e e';
}.

(** *** The journal invariant *)

(** The row [keepsave_vault_check_live] and [keepsave_vault_check_entry] demand
    for an undeleted entry. *)
Definition live_matches (id : uuid) (e : entry_row) (r : revision_row) (s : secret_row) : Prop :=
  sr_project_id s = ve_project_id e ∧ sr_environment_id s = ve_environment_id e ∧ sr_key s = ve_secret_key e ∧
  vr_encrypted_value r = sr_encrypted_value s ∧ vr_nonce r = sr_value_nonce s.

(** [journal_upto P db]: every entry points to its newest revision, written under
    the entry's key; an undeleted entry's live row holds exactly that revision's
    value; a deleted entry ends in a tombstone and has no live row, except while
    its identifier is in [P]; an enrolled project has no live row outside the
    journal. *)
Record journal_upto (P : uuid → Prop) (db : DB) : Prop := {
  jo_entry id e : ventries db !! id = Some e →
    (0 < ve_revision e)%Z ∧ is_Some (vprojects db !! ve_project_id e) ∧
    ∃ r, vrevisions db !! (id, ve_revision e) = Some r ∧ vr_project_id r = ve_project_id e ∧
      vr_key_id r = ve_key_id e ∧
      if ve_deleted e then vr_operation r = "delete" ∧ (secrets db !! id = None ∨ P id)
      else vr_operation r ≠ "delete" ∧ ∃ s, secrets db !! id = Some s ∧ live_matches id e r s;
  jo_secret id s : secrets db !! id = Some s → is_Some (vprojects db !! sr_project_id s) →
    ∃ e, ventries db !! id = Some e ∧ ve_project_id e = sr_project_id s ∧ (ve_deleted e = true → P id);
  jo_newest id rev r : vrevisions db !! (id, rev) = Some r →
    ∃ e, ventries db !! id = Some e ∧ ve_project_id e = vr_project_id r ∧ (1 <= rev <= ve_revision e)%Z ∧
      key_ok (vr_key_id r) (vr_project_id r) db = true;
  jo_current project key : vprojects db !! project = Some key → key_ok key project db = true;
}.
Definition journal_ok : DB → Prop := journal_upto (λ _, False).

(** The stores the audit trail and the outbox never touch. *)
Definition same_core (db db' : DB) : Prop :=
  db_identity db' = db_identity db ∧ db_projects db' = db_projects db ∧
  db_secrets db' = db_secrets db ∧ db_vault db' = db_vault db.

(** ** Lemmas *)

(** A guarded write that was accepted passed every check. *)
Ltac inv_write H :=
  match type of H with
  | (if ?b then None else _) = Some _ =>
      let E := fresh "E" in destruct b eqn:E; [discriminate H|];
      injection H as H;
      repeat match goal with
      | E : _ || _ = false |- _ => apply orb_false_iff in E as [E ?]
      | E : negb _ = false |- _ => apply negb_false_iff in E
      | E : bool_decide (is_Some _) = false |- _ => apply bool_decide_eq_false in E; apply eq_None_not_Some in E
      | E : bool_decide _ = false |- _ => apply bool_decide_eq_false in E
      | E : (_ <=? _)%Z = false |- _ => apply Z.leb_gt in E
      end
  end.

Lemma incr64_pos x : (0 < x)%Z → (0 < incr64 x)%Z → incr64 x = (x + 1)%Z.
Proof. unfold incr64. case_match; lia. Qed.

Lemma key_ok_Some key project db :
  key_ok key project db = true ↔ ∃ k, vkeys db !! key = Some k ∧ vk_project_id k = project.
Proof. unfold key_ok. destruct (vkeys db !! key); rewrite ?bool_decide_eq_true; naive_solver. Qed.
Lemma entry_ok_Some id project db :
  entry_ok id project db = true ↔ ∃ e, ventries db !! id = Some e ∧ ve_project_id e = project.
Proof. unfold entry_ok. destruct (ventries db !! id); rewrite ?bool_decide_eq_true; naive_solver. Qed.
Lemma key_ok_mono key project db db' :
  vkeys db ⊆ vkeys db' → key_ok key project db = true → key_ok key project db' = true.
Proof. rewrite !key_ok_Some. intros Hs (k & Hk & Hp). exists k. split; [by eapply lookup_weaken|done]. Qed.

(** An update of one row by primary key. *)
Lemma update_where_one {V} (p : uuid → V → bool) (g : V → V) (t : gmap uuid V) id v :
  t !! id = Some v → (∀ k x, p k x = true → k = id) → p id v = true →
  update_where p g t = <[id := g v]> t.
Proof.
  intros Hv Hp Hid. apply map_eq. intros k. rewrite lookup_update_where.
  destruct (decide (k = id)) as [->|Hne].
  - by rewrite Hv, lookup_insert_eq; cbn; rewrite Hid.
  - rewrite lookup_insert_ne by done. destruct (t !! k) as [x|]; [cbn|done].
    destruct (p k x) eqn:E; [by apply Hp in E|done].
Qed.
Lemma delete_where_one {V} (p : uuid → V → bool) (t : gmap uuid V) id :
  (∀ k x, t !! k = Some x → p k x = true ↔ k = id) → delete_where p t = delete id t.
Proof.
  intros Hp. apply map_eq. intros k. apply option_eq. intros x. rewrite lookup_delete_where.
  rewrite lookup_delete_Some. split.
  - intros [Hk Hx]. split; [|done]. intros <-. apply not_true_iff_false in Hx. by rewrite (Hp _ _ Hk) in Hx.
  - intros [Hne Hk]. split; [done|]. apply not_true_iff_false. by rewrite (Hp _ _ Hk).
Qed.

Lemma update_secret_one id project c n t s db :
  secrets db !! id = Some s → sr_project_id s = project →
  secrets (update_secret id project c n t db) = <[id := set_value c n t s]> (secrets db).
Proof.
  intros Hs Hp. unfold update_secret, secrets in *. cbn.
  apply update_where_one; [done| |]; unfold secret_is; intros; b2p; naive_solver.
Qed.

Lemma update_entry_one id project rev key deleted db db' e :
  ventries db !! id = Some e → ve_project_id e = project → update_entry id project rev key deleted db = Some db' →
  db' = upd_db_vault (upd_t_vault_entries <[id := set_entry rev key deleted e]>) db ∧
  (0 < rev)%Z ∧ key_ok key project db = true.
Proof.
  intros He Hp H. unfold update_entry in H. rewrite He, (bool_decide_eq_true_2 _ Hp), andb_true_l in H.
  inv_write H. split_and!; [|lia|done]. subst db'. unfold upd_db_vault, upd_t_vault_entries. cbn. f_equal. f_equal.
  apply update_where_one; [done| |]; unfold entry_is; intros; b2p; naive_solver.
Qed.

(** *** The append-only order is a preorder every statement respects *)

#[export] Instance history_grows_preorder : PreOrder history_grows.
Proof.
  split.
  - intros db. split; try done. intros id e He. exists e. by split_and!.
  - intros d1 d2 d3 H1 H2. split; try (etrans; [apply H1|apply H2]).
    intros id e (e2 & He2 & L1)%H1. apply H2 in He2 as (e3 & He3 & L2). exists e3. split; [done|].
    unfold entry_le in *. destruct L1 as (?&?&?&?&D1), L2 as (?&?&?&?&D2). split_and!; try congruence; [lia|].
    intros Hd. pose proof (D1 Hd) as ->. auto.
Qed.

#[export] Instance same_core_preorder : PreOrder same_core.
Proof. split; [done|]. unfold same_core. intros d1 d2 d3. intuition congruence. Qed.

Lemma same_core_vault db db' : db_vault db' = db_vault db → history_grows db db'.
Proof.
  intros Hv. split; unfold vkeys, vrevisions, vsnapkeys, vbindings, veffects, ventries; rewrite Hv; try done.
  intros id e He. exists e. by split_and!.
Qed.
Lemma same_core_history db db' : same_core db db' → history_grows db db'.
Proof. intros (_ & _ & _ & Hv). by apply same_core_vault. Qed.
Lemma unchanged_same_core db db' : unchanged db db' → same_core db db'.
Proof. by intros ->. Qed.

Lemma keeps_weaken {A} (R R' : DB → DB → Prop) (m : Tx A) : (∀ a b, R a b → R' a b) → keeps R m → keeps R' m.
Proof. intros HR Hm w r w' H. eauto. Qed.

Lemma grows_insert_key id k db db' : insert_key id k db = Some db' → history_grows db db'.
Proof.
  intros H. unfold insert_key in H. inv_write H. subst db'. split; try done; [by apply insert_subseteq|].
  intros i e He. exists e. by split_and!.
Qed.
Lemma grows_insert_project project key db db' : insert_project project key db = Some db' → history_grows db db'.
Proof.
  intros H. unfold insert_project in H. inv_write H. subst db'. split; try done. intros i e He. exists e. by split_and!.
Qed.
Lemma grows_insert_entry id e db db' : insert_entry id e db = Some db' → history_grows db db'.
Proof.
  intros H. unfold insert_entry in H. inv_write H. subst db'. split; try done.
  intros i x Hx. exists x. split; [|by split_and!]. apply lookup_insert_Some. right. split; [congruence|done].
Qed.
Lemma grows_insert_revision id rev r db db' : insert_revision id rev r db = Some db' → history_grows db db'.
Proof.
  intros H. unfold insert_revision in H. inv_write H. subst db'. split; try done; [by apply insert_subseteq|].
  intros i e He. exists e. by split_and!.
Qed.
Lemma grows_insert_secret id s db db' : insert_secret id s db = Some db' → history_grows db db'.
Proof. intros H. unfold insert_secret in H. inv_write H. subst db'. by apply same_core_vault. Qed.
Lemma grows_insert_snapshot_key id project key db db' :
  insert_snapshot_key id project key db = Some db' → history_grows db db'.
Proof.
  intros H. unfold insert_snapshot_key in H. inv_write H. subst db'. split; try done; [by apply insert_subseteq|].
  intros i e He. exists e. by split_and!.
Qed.
Lemma grows_set_current_key project key db db' : set_current_key project key db = Some db' → history_grows db db'.
Proof.
  intros H. unfold set_current_key in H. repeat case_match; simplify_eq; [|done].
  split; try done. intros i e He. exists e. by split_and!.
Qed.

(** *** The journal invariant under each kind of write *)

(** The invariant reads five tables. *)
Lemma journal_ext Pr db db' :
  secrets db' = secrets db → ventries db' = ventries db → vrevisions db' = vrevisions db →
  vkeys db ⊆ vkeys db' → vprojects db' = vprojects db → journal_upto Pr db → journal_upto Pr db'.
Proof.
  intros Es Ee Er Ek Ep [H1 H2 H3 H4]. split.
  - rewrite Ee, Er, Ep, Es. exact H1.
  - rewrite Es, Ep, Ee. exact H2.
  - rewrite Er, Ee. intros id rev r Hr. destruct (H3 _ _ _ Hr) as (e & ? & ? & ? & ?). exists e.
    split_and!; try done; try tauto. by eapply key_ok_mono.
  - rewrite Ep. intros project key Hk. eapply key_ok_mono; eauto.
Qed.

Lemma journal_same_core Pr db db' : same_core db db' → journal_upto Pr db → journal_upto Pr db'.
Proof.
  intros (_ & _ & Es & Ev). apply journal_ext; unfold secrets, ventries, vrevisions, vkeys, vprojects;
    by rewrite ?Es, ?Ev.
Qed.

Lemma journal_weaken (Pr Pr' : uuid → Prop) db :
  (∀ id, Pr id → Pr' id ∨ secrets db !! id = None) → journal_upto Pr db → journal_upto Pr' db.
Proof.
  intros HP [H1 H2 H3 H4]. split; try done.
  - intros id e He. destruct (H1 _ _ He) as (? & ? & r & Hr & Hp & Hk & Hd). split_and!; try done.
    exists r. split_and!; try done. destruct (ve_deleted e); [|done]. naive_solver.
  - intros id x Hx Hp. destruct (H2 _ _ Hx Hp) as (e & He & Hpe & Hd). exists e. split_and!; try done.
    intros Hdel. destruct (HP _ (Hd Hdel)); [done|congruence].
Qed.

(** One appended revision: the entry moves to it, and [ls] are the live rows
    afterwards. *)
Record appended (id : uuid) (e : entry_row) (r : revision_row) (deleted : bool) (ls : gmap uuid secret_row)
    (db db' : DB) : Prop := {
  ap_entries : ventries db' = <[id := set_entry (ve_revision e + 1) (vr_key_id r) deleted e]> (ventries db);
  ap_revisions : vrevisions db' = <[(id, (ve_revision e + 1)%Z) := r]> (vrevisions db);
  ap_fresh : vrevisions db !! (id, (ve_revision e + 1)%Z) = None;
  ap_secrets : secrets db' = ls;
  ap_keys : vkeys db' = vkeys db;
  ap_projects : vprojects db' = vprojects db;
  ap_snapkeys : vsnapkeys db' = vsnapkeys db;
  ap_bindings : vbindings db' = vbindings db;
  ap_effects : veffects db' = veffects db;
  ap_key : key_ok (vr_key_id r) (vr_project_id r) db = true;
}.

Lemma appended_grows id e r deleted ls db db' :
  ventries db !! id = Some e → ve_deleted e = false → appended id e r deleted ls db db' → history_grows db db'.
Proof.
  intros He Hd []. split; try congruence.
  - by rewrite ap_keys0.
  - rewrite ap_revisions0. by apply insert_subseteq.
  - by rewrite ap_snapkeys0.
  - by rewrite ap_bindings0.
  - by rewrite ap_effects0.
  - intros i x Hx. rewrite ap_entries0. destruct (decide (i = id)) as [->|Hne].
    + rewrite lookup_insert_eq. eexists. split; [done|]. rewrite He in Hx. injection Hx as <-.
      split_and!; try done; cbn; [lia|congruence].
    + rewrite lookup_insert_ne by done. exists x. by split_and!.
Qed.

(** The part of the invariant every appended revision keeps. *)
Lemma appended_newest Pr id e r d ls db db' i rev r1 :
  journal_upto Pr db → ventries db !! id = Some e → vr_project_id r = ve_project_id e →
  appended id e r d ls db db' → vrevisions db' !! (i, rev) = Some r1 →
  ∃ e1, ventries db' !! i = Some e1 ∧ ve_project_id e1 = vr_project_id r1 ∧ (1 <= rev <= ve_revision e1)%Z ∧
    key_ok (vr_key_id r1) (vr_project_id r1) db' = true.
Proof.
  intros [H1 _ H3 _] He Hp [].
  assert (∀ a b, key_ok a b db' = key_ok a b db) as Eo by (intros a b; unfold key_ok; by rewrite ap_keys0).
  destruct (H1 _ _ He) as (Hpos & _). rewrite ap_revisions0, ap_entries0, Eo.
  intros [[[= <- <-] <-]|[Hne Hi]]%lookup_insert_Some.
  - eexists. rewrite lookup_insert_eq. split; [done|]. cbn. split_and!; done || lia.
  - destruct (H3 _ _ _ Hi) as (e1 & He1 & Hp1 & Hr1 & Hk1). destruct (decide (i = id)) as [->|Hni].
    + rewrite He in He1. injection He1 as <-. eexists. rewrite lookup_insert_eq. split; [done|]. cbn.
      split_and!; done || lia.
    + exists e1. by rewrite lookup_insert_ne by done.
Qed.

Lemma appended_current Pr id e r d ls db db' project key :
  journal_upto Pr db → appended id e r d ls db db' → vprojects db' !! project = Some key → key_ok key project db' = true.
Proof.
  intros [_ _ _ H4] []. rewrite ap_projects0. intros Hk. eapply (key_ok_mono _ _ db); [by rewrite ap_keys0|eauto].
Qed.

(** An undeleted entry written together with its live row. *)
Lemma journal_updated Pr id e r x x' db db' :
  journal_upto Pr db → ventries db !! id = Some e → ve_deleted e = false → secrets db !! id = Some x →
  vr_project_id r = ve_project_id e → vr_operation r ≠ "delete" →
  x' = set_value (vr_encrypted_value r) (vr_nonce r) (sr_updated_at x') x →
  appended id e r false (<[id := x']> (secrets db)) db db' → journal_upto Pr db'.
Proof.
  intros HJ He Hd Hx Hp Hop Ex' A. pose proof HJ as [H1 H2 _ _]. pose proof A as [].
  destruct (H1 _ _ He) as (Hpos & Hproj & r0 & Hr0 & _ & _ & Hlive). rewrite Hd in Hlive.
  destruct Hlive as (_ & x0 & Hx0 & Hm). rewrite Hx in Hx0. injection Hx0 as <-.
  destruct Hm as (M1 & M2 & M3 & _). split.
  - intros i e1. rewrite ap_entries0, ap_revisions0, ap_projects0, ap_secrets0.
    intros [[<- <-]|[Hne Hi]]%lookup_insert_Some; cbn.
    + split_and!; [lia|done|]. exists r. rewrite !lookup_insert_eq. split_and!; try done.
      exists x'. split; [done|]. rewrite Ex'. by split_and!.
    + destruct (H1 _ _ Hi) as (? & ? & r1 & ? & ? & ? & Hl). split_and!; try done. exists r1.
      rewrite !lookup_insert_ne by (done || congruence). by split_and!.
  - intros i y. rewrite ap_secrets0, ap_projects0, ap_entries0.
    intros [[<- <-]|[Hne Hi]]%lookup_insert_Some Hpy.
    + eexists. rewrite lookup_insert_eq. split_and!; [done| |done]. rewrite Ex'. cbn. congruence.
    + rewrite lookup_insert_ne by done. by apply H2.
  - intros i rev r1. by eapply appended_newest.
  - intros project key. by eapply appended_current.
Qed.

(** A tombstone: the live row may stay until the end of the operation. *)
Lemma journal_tombstoned Pr id e r db db' :
  journal_upto Pr db → ventries db !! id = Some e →
  vr_project_id r = ve_project_id e → vr_operation r = "delete" →
  appended id e r true (secrets db) db db' → journal_upto (λ i, Pr i ∨ i = id) db'.
Proof.
  intros HJ He Hp Hop A. pose proof HJ as [H1 H2 _ _]. pose proof A as [].
  destruct (H1 _ _ He) as (Hpos & Hproj & _). split.
  - intros i e1. rewrite ap_entries0, ap_revisions0, ap_projects0, ap_secrets0.
    intros [[<- <-]|[Hne Hi]]%lookup_insert_Some; cbn.
    + split_and!; [lia|done|]. exists r. rewrite !lookup_insert_eq. split_and!; try done. by right; right.
    + destruct (H1 _ _ Hi) as (? & ? & r1 & ? & ? & ? & Hl). split_and!; try done. exists r1.
      rewrite !lookup_insert_ne by (done || congruence). split_and!; try done. destruct (ve_deleted e1); [|done]. naive_solver.
  - intros i y. rewrite ap_secrets0, ap_projects0, ap_entries0. intros Hi Hpy.
    destruct (H2 _ _ Hi Hpy) as (e1 & He1 & ? & ?). destruct (decide (i = id)) as [->|Hne].
    + rewrite He in He1. injection He1 as <-. eexists. rewrite lookup_insert_eq. split_and!; [done|done|]. by right.
    + exists e1. rewrite lookup_insert_ne by done. split_and!; try done. naive_solver.
  - intros i rev r1. by eapply appended_newest.
  - intros project key. by eapply appended_current.
Qed.

(** Removing live rows of tombstoned entries. *)
Lemma journal_purged Pr (gone : uuid → secret_row → bool) db db' :
  journal_upto Pr db →
  (∀ id x, gone id x = true → secrets db !! id = Some x →
     ∃ e, ventries db !! id = Some e ∧ ve_deleted e = true) →
  db_vault db' = db_vault db → secrets db' = delete_where gone (secrets db) → journal_upto Pr db'.
Proof.
  intros [H1 H2 H3 H4] Hg Ev Es.
  assert (ventries db' = ventries db ∧ vrevisions db' = vrevisions db ∧ vkeys db' = vkeys db ∧ vprojects db' = vprojects db)
    as (Ee & Er & Ek & Ep) by (unfold ventries, vrevisions, vkeys, vprojects; by rewrite Ev).
  assert (∀ a b, key_ok a b db' = key_ok a b db) as Eo by (intros a b; unfold key_ok; by rewrite Ek).
  split.
  - intros id e He. rewrite Ee in He. destruct (H1 _ _ He) as (? & ? & r & ? & ? & ? & Hl).
    rewrite Er, Ep. split_and!; try done. exists r. split_and!; try done. destruct (ve_deleted e) eqn:Hd.
    + destruct Hl as [Hop [Hn|HP]]; split; try done; [left|by right].
      apply eq_None_not_Some. rewrite Es. intros [y [Hy _]%lookup_delete_where]. congruence.
    + destruct Hl as (Hop & x & Hx & Hm). split; [done|]. exists x. split; [|done].
      rewrite Es. apply lookup_delete_where. split; [done|]. destruct (gone id x) eqn:Hgx; [|done].
      destruct (Hg _ _ Hgx Hx) as (e' & He' & ?). congruence.
  - intros id x. rewrite Es. intros [Hx _]%lookup_delete_where. rewrite Ep, Ee. by apply H2.
  - intros id rev r. rewrite Er, Ee, Eo. apply H3.
  - intros project key. rewrite Ep, Eo. apply H4.
Qed.

(** A new entry with its first revision and live row. *)
Record created (id : uuid) (e : entry_row) (r : revision_row) (x : secret_row) (db db' : DB) : Prop := {
  cr_no_entry : ventries db !! id = None;
  cr_entries : ventries db' = <[id := e]> (ventries db);
  cr_revisions : vrevisions db' = <[(id, 1%Z) := r]> (vrevisions db);
  cr_fresh : vrevisions db !! (id, 1%Z) = None;
  cr_secrets : secrets db' = <[id := x]> (secrets db);
  cr_no_secret : secrets db !! id = None;
  cr_keys : vkeys db' = vkeys db;
  cr_projects : vprojects db' = vprojects db;
  cr_snapkeys : vsnapkeys db' = vsnapkeys db;
  cr_bindings : vbindings db' = vbindings db;
  cr_effects : veffects db' = veffects db;
  cr_key : key_ok (vr_key_id r) (vr_project_id r) db = true;
  cr_enrolled : is_Some (vprojects db !! ve_project_id e);
}.

Lemma created_grows id e r x db db' : created id e r x db db' → history_grows db db'.
Proof.
  intros []. split.
  - by rewrite cr_keys0.
  - rewrite cr_revisions0. by apply insert_subseteq.
  - by rewrite cr_snapkeys0.
  - by rewrite cr_bindings0.
  - by rewrite cr_effects0.
  - intros i y Hy. rewrite cr_entries0. exists y. split; [|by split_and!].
    apply lookup_insert_Some. right. split; [congruence|done].
Qed.

Lemma journal_created Pr id e r x db db' :
  journal_upto Pr db → ve_revision e = 1%Z → ve_deleted e = false → vr_key_id r = ve_key_id e →
  vr_project_id r = ve_project_id e → vr_operation r ≠ "delete" → live_matches id e r x →
  created id e r x db db' → journal_upto Pr db'.
Proof.
  intros [H1 H2 H3 H4] Hrev Hd Hk Hp Hop Hm A. destruct A. split.
  - intros i e1. rewrite cr_entries0, cr_revisions0, cr_projects0, cr_secrets0.
    intros [[<- <-]|[Hne Hi]]%lookup_insert_Some.
    + rewrite Hrev, Hd. split_and!; [lia|done|]. exists r. rewrite !lookup_insert_eq. split_and!; try done. by exists x.
    + destruct (H1 _ _ Hi) as (? & ? & r1 & ? & ? & ? & Hl). split_and!; try done. exists r1.
      rewrite !lookup_insert_ne by (done || congruence). by split_and!.
  - intros i y. rewrite cr_secrets0, cr_projects0, cr_entries0.
    intros [[<- <-]|[Hne Hi]]%lookup_insert_Some Hpy.
    + exists e. rewrite lookup_insert_eq. destruct Hm as (? & _). split_and!; [done|congruence|congruence].
    + rewrite lookup_insert_ne by done. by apply H2.
  - intros i rev r1. rewrite cr_revisions0, cr_entries0.
    intros [[[= <- <-] <-]|[Hne Hi]]%lookup_insert_Some.
    + exists e. rewrite lookup_insert_eq, Hrev. split_and!; try done; try lia; try congruence.
      eapply (key_ok_mono _ _ db); [by rewrite cr_keys0|done].
    + destruct (H3 _ _ _ Hi) as (e1 & He1 & ? & ? & ?). exists e1.
      rewrite lookup_insert_ne by congruence. split; [done|]. split; [done|]. split; [done|].
      eapply (key_ok_mono _ _ db); [by rewrite cr_keys0|done].
  - intros project key. rewrite cr_projects0. intros Hkk. eapply (key_ok_mono _ _ db); [by rewrite cr_keys0|eauto].
Qed.

(** *** Journal writes up to the stores that are not the vault's *)

#[export] Instance same_core_equiv : Equivalence same_core.
Proof. split; [done| |apply same_core_preorder]. unfold same_core. intros a b (?&?&?&?). by repeat split. Qed.

Lemma key_ok_core key project db db' : same_core db db' → key_ok key project db' = key_ok key project db.
Proof. intros (_ & _ & _ & Hv). unfold key_ok, vkeys. by rewrite Hv. Qed.

#[export] Instance appended_proper id e r d ls : Proper (same_core ==> same_core ==> iff) (appended id e r d ls).
Proof.
  assert (∀ a a' b b', same_core a a' → same_core b b' → appended id e r d ls a b → appended id e r d ls a' b') as H.
  { intros a a' b b' Ha Hb []. pose proof (key_ok_core (vr_key_id r) (vr_project_id r) _ _ Ha) as Hk.
    destruct Ha as (_ & _ & Es & Ev), Hb as (_ & _ & Es' & Ev').
    split; unfold vkeys, vprojects, ventries, vrevisions, vsnapkeys, vbindings, veffects, secrets in *;
      rewrite ?Es, ?Ev, ?Es', ?Ev'; congruence. }
  intros a a' Ha b b' Hb. split; apply H; (done || by symmetry).
Qed.

#[export] Instance created_proper id e r x : Proper (same_core ==> same_core ==> iff) (created id e r x).
Proof.
  assert (∀ a a' b b', same_core a a' → same_core b b' → created id e r x a b → created id e r x a' b') as H.
  { intros a a' b b' Ha Hb []. pose proof (key_ok_core (vr_key_id r) (vr_project_id r) _ _ Ha) as Hk.
    destruct Ha as (_ & _ & Es & Ev), Hb as (_ & _ & Es' & Ev').
    split; unfold vkeys, vprojects, ventries, vrevisions, vsnapkeys, vbindings, veffects, secrets in *;
      rewrite ?Es, ?Ev, ?Es', ?Ev'; congruence. }
  intros a a' Ha b b' Hb. split; apply H; (done || by symmetry).
Qed.

#[export] Instance journal_proper Pr : Proper (same_core ==> iff) (journal_upto Pr).
Proof. intros a b H. split; apply journal_same_core; (done || by symmetry). Qed.

#[export] Instance history_grows_proper : Proper (same_core ==> same_core ==> iff) history_grows.
Proof.
  intros a a' Ha b b' Hb. split; intros H.
  - etrans; [apply same_core_history; symmetry; exact Ha|]. etrans; [exact H|by apply same_core_history].
  - etrans; [apply same_core_history; exact Ha|]. etrans; [exact H|by apply same_core_history; symmetry].
Qed.

(** What an operation on the vault may do to the database. *)
Definition journaled (db db' : DB) : Prop := journal_ok db → journal_ok db' ∧ history_grows db db'.
#[export] Instance journaled_preorder : PreOrder journaled.
Proof.
  split; [intros db Hj; by split|]. intros d1 d2 d3 H1 H2 Hj. destruct (H1 Hj) as [Hj2 G1].
  destruct (H2 Hj2) as [Hj3 G2]. split; [done|by etrans].
Qed.
Lemma same_core_journaled db db' : same_core db db' → journaled db db'.
Proof. intros H Hj. split; [by rewrite <-H|by apply same_core_history]. Qed.

(** Writes outside the five journal tables. *)
Lemma journaled_other db db' :
  secrets db' = secrets db → ventries db' = ventries db → vrevisions db' = vrevisions db →
  vkeys db ⊆ vkeys db' → vprojects db' = vprojects db → vsnapkeys db ⊆ vsnapkeys db' →
  vbindings db ⊆ vbindings db' → veffects db ⊆ veffects db' → journaled db db'.
Proof.
  intros Es Ee Er Ek Ep ? ? ? Hj. split; [by eapply journal_ext|]. split; try done; [by rewrite Er|].
  intros id e He. exists e. rewrite Ee. by split_and!.
Qed.

Lemma journaled_insert_key id k db db' : insert_key id k db = Some db' → journaled db db'.
Proof.
  intros H. unfold insert_key in H. inv_write H. subst db'. apply journaled_other; try done. by apply insert_subseteq.
Qed.

Lemma journaled_set_current_key project key db db' : set_current_key project key db = Some db' → journaled db db'.
Proof.
  intros H Hj. split; [|by eapply grows_set_current_key]. unfold set_current_key in H.
  destruct (vprojects db !! project) as [old|] eqn:Ho; [|by injection H as <-].
  destruct (key_ok key project db) eqn:Hk; [|done]. injection H as <-. destruct Hj as [H1 H2 H3 H4].
  assert (∀ p, is_Some (<[project := key]> (vprojects db) !! p) ↔ is_Some (vprojects db !! p)) as Hs.
  { intros p. destruct (decide (project = p)) as [<-|]; [by rewrite lookup_insert_eq, Ho|by rewrite lookup_insert_ne]. }
  split; try done.
  - intros id e He. destruct (H1 _ _ He) as (? & ? & ?). split_and!; try done. by apply Hs.
  - intros id x Hx Hp. apply H2; [done|]. by apply Hs in Hp.
  - intros p k. unfold vprojects. cbn. intros [[<- <-]|[_ Hp]]%lookup_insert_Some; [done|by apply H4].
Qed.
