(* ===== verification/Vault.v ===== *)
(** * The versioned vault: service, rotation and project archiving

    [internal/vault/service.go], [rotation.go], [project.go] and [ephemeral.go]:
    every operation with its transaction, locks, permission check, audit event
    and journal writes.  The vault talks to the authority store, the audit trail
    and the archive hook through interfaces; their laws are the classes
    [AuthorizerOk], [AuditorOk] and [ArchiveOk], discharged at the end of the
    file by the implementations the server wires in. *)
From S2P Require Import Prelude GoStrings GoEncoding Policy Schema Database Crypto Jobs Authority AuditLog VaultStore.

(** ** Definitions *)

Definition ErrDenied : error := Sentinel "vault access denied".
Definition ErrConflict : error := Sentinel "vault revision conflict".
Definition ErrNotFound : error := Sentinel "vault record not found".
Definition ErrNotEnrolled : error := Sentinel "project not enrolled in versioned vault".
Definition ErrInvalid : error := Sentinel "invalid vault request".

(** The function and interface types of the service. *)
Abbreviation AuthorizeTx := (Principal → Action → Resource → Tx Decision).
Abbreviation Auditor := (option uuid → option uuid → string → string → json → string → Tx unit).
Abbreviation ProjectArchive := (uuid → Tx unit).

(** [vault.Service]; a [nil] port is [None]. *)
Record Service := mkVault {
  crypto : Crypto.Service;
  authorize : option AuthorizeTx;
  audit : option Auditor;
  archive : option ProjectArchive;
}.

Definition New (c : Crypto.Service) (a : option AuthorizeTx) (au : option Auditor) : Service := mkVault c a au None.
Definition EnableProjectArchive (s : Service) (h : ProjectArchive) : Service :=
  mkVault (crypto s) (authorize s) (audit s) (Some h).

(** [vault.Record]. *)
Record VRecord := mkVRecord {
  v_ID : uuid;
  v_ProjectID : uuid;
  v_Environment : string;
  v_Key : string;
  v_Revision : Z;
  v_Value : string;
  v_Deleted : bool;
  v_EnvironmentID : uuid;
  v_CreatedAt : time;
  v_UpdatedAt : time;
}.

(** [Record{ProjectID: project, Environment: environment}]. *)
Definition project_record (project : uuid) (environment : string) : VRecord :=
  mkVRecord uuid_Nil project environment "" 0 "" false uuid_Nil 0 0.
Definition with_revision (rev : Z) (r : VRecord) : VRecord :=
  mkVRecord (v_ID r) (v_ProjectID r) (v_Environment r) (v_Key r) rev (v_Value r) (v_Deleted r)
    (v_EnvironmentID r) (v_CreatedAt r) (v_UpdatedAt r).
Definition with_value (v : string) (r : VRecord) : VRecord :=
  mkVRecord (v_ID r) (v_ProjectID r) (v_Environment r) (v_Key r) (v_Revision r) v (v_Deleted r)
    (v_EnvironmentID r) (v_CreatedAt r) (v_UpdatedAt r).
Definition with_deleted (d : bool) (r : VRecord) : VRecord :=
  mkVRecord (v_ID r) (v_ProjectID r) (v_Environment r) (v_Key r) (v_Revision r) (v_Value r) d
    (v_EnvironmentID r) (v_CreatedAt r) (v_UpdatedAt r).
Definition with_id (id : uuid) (r : VRecord) : VRecord :=
  mkVRecord id (v_ProjectID r) (v_Environment r) (v_Key r) (v_Revision r) (v_Value r) (v_Deleted r)
    (v_EnvironmentID r) (v_CreatedAt r) (v_UpdatedAt r).
(** [r.Revision++]. *)
Definition bump (r : VRecord) : VRecord := with_revision (incr64 (v_Revision r)) r.

(** [vault.Revision]. *)
Record VRevision := mkVRevision {
  rv_Revision : Z;
  rv_Operation : string;
  rv_CreatedAt : time;
  rv_ActorID : option uuid;
}.

(** [ValidKey]. *)
Definition ValidKey (key : string) : bool :=
  negb (bool_decide (key = "")) && (String.length key <=? 255) && negb (Contains key "=")
  && negb (existsb (λ rw, IsSpace rw.1 || IsControl rw.1) (runes key)).

(** [1 << 20] bytes of value. *)
Definition value_fits (v : string) : bool := (Z.of_nat (String.length v) <=? 2 ^ 20)%Z.

Section Vault.
Context `{P : Primitives} (s : Service).

(** [Service.begin], the body, and [Commit]; the body decides whether it gets
    there. *)
Definition vault_tx {A} (p : Principal) (project : uuid) (body : Tx A) : Tx A :=
  with_tx (
    _ ← exec_ (λ db, db);
    _ ← exec_ (λ db, db);
    _ ← on_err ErrDenied (LockProject DBTypePostgres p project);
    body).

Definition permit (p : Principal) (action : Action) (r : VRecord) : Tx unit :=
  match authorize s, audit s with
  | Some auth, Some _ =>
      d ← on_err ErrDenied (auth p action
            (mkResource uuid_Nil (v_ProjectID r) (v_Environment r) "secret" (v_ID r) (v_Revision r) (v_Key r)));
      check (d_Allowed d) ErrDenied
  | _, _ => fail ErrDenied
  end.

(** The actor of an event, and of a revision. *)
Definition event_actor (p : Principal) : uuid :=
  if bool_decide (p_ActorID p = uuid_Nil) && bool_decide (p_Kind p = Human) then p_SubjectID p else p_ActorID p.
Definition revision_actor (p : Principal) : option uuid :=
  if negb (bool_decide (p_ActorID p = uuid_Nil)) then Some (p_ActorID p)
  else if bool_decide (p_Kind p = Human) then Some (p_SubjectID p) else None.

(** The outbox message every event is announced with. *)
Definition announce (fields : list (string * json)) : Tx unit :=
  id ← uuid_New; EnqueueTx id "vault.event" (Marshal (mk_obj fields)) "local" 5.

Definition eventWithMetadataRevision (p : Principal) (r : VRecord) (action : string) (metadataRevision : Z) : Tx unit :=
  let actor := event_actor p in
  if bool_decide (actor = uuid_Nil) then fail ErrDenied else
  let details := mk_obj ([("secret_id", JStr (uuid_String (v_ID r))); ("revision", JInt (v_Revision r)); ("key", JStr (v_Key r))]
                         ++ (if (0 <? metadataRevision)%Z then [("metadata_revision", JInt metadataRevision)] else [])) in
  match audit s with
  | None => fail (Errorf "runtime error: nil pointer dereference")
  | Some CreateTx =>
      _ ← CreateTx (Some actor) (Some (v_ProjectID r)) action (v_Environment r) details "";
      announce [("project_id", JStr (uuid_String (v_ProjectID r))); ("secret_id", JStr (uuid_String (v_ID r)));
                ("revision", JInt (v_Revision r)); ("action", JStr action)]
  end.
Definition event (p : Principal) (r : VRecord) (action : string) : Tx unit :=
  eventWithMetadataRevision p r action 0.

(** *** Enrollment *)

(** [INSERT ... SELECT]: every row, or a constraint violation. *)
Definition insert_each {A} (f : A → DB → option DB) (l : list A) (db : DB) : option DB :=
  foldl (λ o x, o ≫= f x) (Some db) l.

Definition project_secrets (project : uuid) (db : DB) : list (uuid * secret_row) :=
  select (λ _ r, bool_decide (sr_project_id r = project)) (secrets db).

(** The ciphertexts enrollment must be able to open. *)
Definition sealed_values (project : uuid) (db : DB) : list (string * string) :=
  map (λ kr, (sr_encrypted_value kr.2, sr_value_nonce kr.2)) (project_secrets project db)
  ++ map (λ kr, (ss_encrypted_value kr.2, ss_value_nonce kr.2)) (prior_snapshots project db).

Definition baseline_entry (key : uuid) (kr : uuid * secret_row) : DB → option DB :=
  insert_entry kr.1 (mkEntry (sr_project_id kr.2) (sr_environment_id kr.2) (sr_key kr.2) 1 key false).
Definition baseline_revision (t : time) (key : uuid) (kr : uuid * secret_row) : DB → option DB :=
  insert_revision kr.1 1
    (mkRevision (sr_project_id kr.2) key (sr_encrypted_value kr.2) (sr_value_nonce kr.2) "baseline" None t).
Definition baseline_snapshot_key (project key : uuid) (kr : uuid * snapshot_row) : DB → option DB :=
  insert_snapshot_key kr.1 project key.

Definition EnrollTx (p : Principal) (project : uuid) : Tx unit :=
  let rec := project_record project "" in
  _ ← permit p ManageProject rec;
  enrolled ← query (λ db, bool_decide (is_Some (vprojects db !! project)));
  if enrolled : bool then mret () else
  en ← query_row (λ db, (λ r, (pr_encrypted_dek r, pr_dek_nonce r)) <$> projects db !! project);
  let '(encrypted, nonce) := en in
  _ ← event p rec "vault.baseline.created";
  dek ← lift (DecryptDEK (crypto s) encrypted nonce);
  sealed ← query (sealed_values project);
  _ ← for_each sealed (λ cn,
        on_err (Errorf "existing ciphertext requires unavailable key; enrollment refused") (
          _ ← lift (Decrypt dek cn.1 cn.2); mret ()));
  key ← uuid_New;
  t ← now;
  _ ← exec (insert_key key (mkVaultKey project encrypted nonce));
  _ ← exec (insert_project project key);
  _ ← exec (λ db, insert_each (baseline_entry key) (project_secrets project db) db);
  _ ← exec (λ db, insert_each (baseline_revision t key) (project_secrets project db) db);
  exec (λ db, insert_each (baseline_snapshot_key project key) (prior_snapshots project db) db).

Definition Enroll (p : Principal) (project : uuid) : Tx unit :=
  vault_tx p project (EnrollTx p project).

(** *** Reading the journal *)

Definition current_key_row (project : uuid) (db : DB) : option (uuid * vault_key_row) :=
  key ← vprojects db !! project;
  k ← vkeys db !! key;
  if bool_decide (vk_project_id k = project) then Some (key, k) else None.

(** The key's identifier and its plaintext. *)
Definition currentKey (project : uuid) : Tx (uuid * string) :=
  kr ← no_rows_is ErrNotEnrolled (query_row (current_key_row project));
  dek ← lift (DecryptDEK (crypto s) (vk_encrypted_key kr.2) (vk_nonce kr.2));
  mret (kr.1, dek).

Definition load_row (project id : uuid) (db : DB) : option VRecord :=
  e ← ventries db !! id;
  if bool_decide (ve_project_id e = project) then
    env ← entry_env e db;
    let live := match secrets db !! id with
                | Some s => if bool_decide (sr_project_id s = project) then Some s else None
                | None => None
                end in
    Some (mkVRecord id project (en_name env) (ve_secret_key e) (ve_revision e) "" (ve_deleted e) (ve_environment_id e)
            (from_option sr_created_at 0%Z live) (from_option sr_updated_at 0%Z live))
  else None.

(** The record; its environment's identifier is the record's field. *)
Definition load (project id : uuid) : Tx VRecord :=
  no_rows_is ErrNotFound (query_row (load_row project id)).

Definition version_row (project id : uuid) (version : Z) (db : DB) : option (revision_row * vault_key_row) :=
  r ← vrevisions db !! (id, version);
  k ← vkeys db !! vr_key_id r;
  if bool_decide (vr_project_id r = project) && bool_decide (vk_project_id k = vr_project_id r)
  then Some (r, k) else None.

Definition readVersion (r : VRecord) (version : Z) : Tx string :=
  rk ← no_rows_is ErrNotFound (query_row (version_row (v_ProjectID r) (v_ID r) version));
  dek ← lift (DecryptDEK (crypto s) (vk_encrypted_key rk.2) (vk_nonce rk.2));
  lift (Decrypt dek (vr_encrypted_value rk.1) (vr_nonce rk.1)).

(** *** Writing the journal *)

Definition append (p : Principal) (r : VRecord) (keyID : uuid) (cipher nonce operation : string) : Tx unit :=
  t ← now;
  _ ← exec (insert_revision (v_ID r) (v_Revision r)
             (mkRevision (v_ProjectID r) keyID cipher nonce operation (revision_actor p) t));
  exec (update_entry (v_ID r) (v_ProjectID r) (v_Revision r) keyID (v_Deleted r)).

(** The record a put writes: a new one, or the current one with its revision
    advanced. *)
Definition put_target (r : VRecord) (expected : Z) : Tx VRecord :=
  if bool_decide (v_ID r = uuid_Nil) then
    id ← uuid_New;
    _ ← check (expected =? 0)%Z ErrConflict;
    env ← on_err ErrNotFound (query_row (find_env (v_ProjectID r) (v_Environment r)));
    mret (mkVRecord id (v_ProjectID r) (v_Environment r) (v_Key r) 1 (v_Value r) false env (v_CreatedAt r) (v_UpdatedAt r))
  else
    cur ← on_err ErrNotFound (load (v_ProjectID r) (v_ID r));
    if v_Deleted cur || negb (v_Revision cur =? expected)%Z then fail ErrConflict
    else mret (bump (with_value (v_Value r) cur)).

Definition put_live (r : VRecord) (key : uuid) (cipher nonce : string) (expected : Z) : Tx unit :=
  t ← now;
  if (expected =? 0)%Z then
    _ ← exec (insert_entry (v_ID r) (mkEntry (v_ProjectID r) (v_EnvironmentID r) (v_Key r) 1 key false));
    exec (insert_secret (v_ID r) (mkSecret (v_ProjectID r) (v_EnvironmentID r) (v_Key r) cipher nonce t t))
  else exec_ (update_secret (v_ID r) (v_ProjectID r) cipher nonce t).

(** The operation a revision is labelled with. *)
Definition put_operation (operation : string) (expected : Z) : string :=
  let op := if bool_decide (operation = "") then "update" else operation in
  if (expected =? 0)%Z && bool_decide (op = "update") then "create" else op.

Definition PutTx (p : Principal) (r : VRecord) (expected : Z) (operation : string) : Tx VRecord :=
  if (bool_decide (v_ID r = uuid_Nil) && negb (ValidKey (v_Key r))) || negb (value_fits (v_Value r))
  then fail ErrInvalid else
  r ← put_target r expected;
  _ ← permit p WriteSecret r;
  _ ← event p r (if (expected =? 0)%Z then "secret.created" else "secret.updated");
  kd ← currentKey (v_ProjectID r);
  cn ← Encrypt kd.2 (v_Value r);
  _ ← put_live r kd.1 cn.1 cn.2 expected;
  _ ← append p r kd.1 cn.1 cn.2 (put_operation operation expected);
  load (v_ProjectID r) (v_ID r).

Definition Put (p : Principal) (r : VRecord) (expected : Z) : Tx VRecord :=
  vault_tx p (v_ProjectID r) (PutTx p r expected "").

Definition Read (p : Principal) (project id : uuid) (version : Z) : Tx VRecord :=
  vault_tx p project (
    r ← load project id;
    if v_Deleted r then fail ErrNotFound else
    let version := if (version =? 0)%Z then v_Revision r else version in
    _ ← permit p ReadValue r;
    _ ← event p (with_revision version r) "secret.read";
    plain ← readVersion r version;
    mret (with_revision version (with_value plain r))).

Definition Restore (p : Principal) (project id : uuid) (version expected : Z) : Tx VRecord :=
  vault_tx p project (
    r ← load project id;
    if v_Deleted r || negb (v_Revision r =? expected)%Z || (version <? 1)%Z then fail ErrConflict else
    _ ← permit p RestoreSecret r;
    let r := bump r in
    _ ← event p r "secret.restored";
    plain ← readVersion r version;
    kd ← currentKey project;
    cn ← Encrypt kd.2 plain;
    t ← now;
    _ ← exec_ (update_secret id project cn.1 cn.2 t);
    _ ← append p r kd.1 cn.1 cn.2 "restore";
    load project id).

(** The newest hundred revisions, newest first. *)
Definition newest_first (a b : Z * revision_row) : Prop := (b.1 <= a.1)%Z.
#[export] Instance newest_first_dec : RelDecision newest_first.
Proof. intros a b. unfold newest_first. apply _. Defined.
Definition history_rows (project id : uuid) (db : DB) : list VRevision :=
  map (λ zr, mkVRevision zr.1 (vr_operation zr.2) (vr_created_at zr.2) (vr_actor_id zr.2))
    (take 100 (merge_sort newest_first
      (omap (λ kr, if bool_decide (kr.1.1 = id) && bool_decide (vr_project_id kr.2 = project)
                   then Some (kr.1.2, kr.2) else None) (map_to_list (vrevisions db))))).
Definition History (p : Principal) (project id : uuid) : Tx (list VRevision) :=
  vault_tx p project (
    r ← load project id;
    _ ← permit p ReadMetadata r;
    query (history_rows project id)).

Definition DeleteTx (p : Principal) (project id : uuid) (expected : Z) : Tx unit :=
  r ← load project id;
  if v_Deleted r || negb (v_Revision r =? expected)%Z then fail ErrConflict else
  _ ← permit p DeleteSecret r;
  let r := with_deleted true (bump r) in
  _ ← event p r "secret.deleted";
  key ← query_row (λ db, e ← ventries db !! id;
                         if bool_decide (ve_project_id e = project) then Some (ve_key_id e) else None);
  _ ← append p r key "" "" "delete";
  exec_ (delete_secret id project).
Definition Delete (p : Principal) (project id : uuid) (expected : Z) : Tx unit :=
  vault_tx p project (DeleteTx p project id expected).

(** *** [rotation.go] *)

(** One secret moved to the new key. *)
Definition rotate_one (p : Principal) (project key : uuid) (dek : string) (id : uuid) : Tx unit :=
  r ← load project id;
  plain ← readVersion r (v_Revision r);
  cn ← Encrypt dek plain;
  _ ← append p (bump r) key cn.1 cn.2 "rotation";
  t ← now;
  exec_ (update_secret id project cn.1 cn.2 t).

Definition set_project_dek (encrypted nonce : string) (r : project_row) : project_row :=
  mkProject (pr_name r) (pr_owner_id r) (pr_organization_id r) encrypted nonce (pr_deleted_at r).

Definition Rotate (p : Principal) (project : uuid) : Tx nat :=
  vault_tx p project (
    let base := project_record project "" in
    _ ← permit p ManageProject base;
    _ ← event p base "key.dek_rotated";
    _ ← currentKey project;
    dek ← GenerateDEK;
    en ← EncryptDEK (crypto s) dek;
    key ← uuid_New;
    _ ← exec (insert_key key (mkVaultKey project en.1 en.2));
    ids ← query (λ db, map fst (active_entries project db));
    _ ← for_each ids (rotate_one p project key dek);
    _ ← exec_ (upd_db_projects (upd_t_projects (alter (set_project_dek en.1 en.2) project)));
    _ ← exec (set_current_key project key);
    mret (length ids)).

(** *** [project.go] *)

Definition delete_project_api_keys (project : uuid) : DB → DB :=
  delete_api_keys (λ _ k, bool_decide (ak_project_id k = project)).
Definition mark_deleted (t : time) (r : project_row) : project_row :=
  mkProject (pr_name r) (pr_owner_id r) (pr_organization_id r) (pr_encrypted_dek r) (pr_dek_nonce r)
    (match pr_deleted_at r with None => Some t | d => d end).

Definition archive_one (p : Principal) (project : uuid) (ie : uuid * entry_row) : Tx unit :=
  r ← load project ie.1;
  let r := with_deleted true (bump r) in
  _ ← append p r (ve_key_id ie.2) "" "" "delete";
  event p r "secret.deleted".

Definition ArchiveProject (p : Principal) (project : uuid) : Tx unit :=
  vault_tx p project (
    _ ← permit p ManageProject (project_record project "");
    _ ← EnrollTx p project;
    _ ← exec_ (delete_project_api_keys project);
    _ ← (match archive s with Some ArchiveProjectTx => ArchiveProjectTx project | None => mret () end);
    items ← query (active_entries project);
    _ ← for_each items (archive_one p project);
    _ ← exec_ (delete_secrets project);
    _ ← exec_ (upd_db_jobs (cancel_project_jobs project));
    t ← now;
    _ ← exec_ (upd_db_projects (upd_t_projects (alter (mark_deleted t) project)));
    event p (project_record project "") "project.deleted").

Definition LockProjectTx (project : uuid) : Tx unit :=
  _ ← on_err ErrNotFound (query_row (live_project project));
  note_lock (LockProjectRow project).
End Vault.

(** *** [ephemeral.go]: short-lived payloads under the service key *)
Section Ephemeral.
Context `{P : Primitives} (c : Crypto.Service).

Definition Seal (plain : string) : Tx (string * string) :=
  if (2 ^ 22 <? Z.of_nat (String.length plain))%Z then fail (Errorf "payload custody unavailable")
  else EncryptServiceSecret c plain.
(** [WithOpened]: the callback sees the plaintext, or is not called. *)
Definition WithOpened {A} (cipher nonce : string) (fn : string → Tx A) : Tx A :=
  if (2 ^ 22 + 32 <? Z.of_nat (String.length cipher))%Z then fail (Errorf "payload custody unavailable")
  else
    plain ← on_err (Errorf "payload authentication failed") (lift (DecryptServiceSecret c cipher nonce));
    fn plain.
End Ephemeral.

(** *** The service the server builds: stored authority and the audit log *)
Definition stored_authorizer (Dialect : DBType) (RequireHumanSession : bool) : AuthorizeTx := λ p action r,
  t ← now; Authorize (Some (LoadAuthority Dialect RequireHumanSession)) t p action r.

Definition server_vault `{P : Primitives} (c : Crypto.Service) (auditRepo : AuditRepository) : Service :=
  New c (Some (stored_authorizer DBTypePostgres true)) (Some (CreateTx auditRepo)).

(** ** The interfaces *)

(** An authorizer only reads. *)
Class AuthorizerOk (f : AuthorizeTx) : Prop :=
  authorize_reads p a r : keeps unchanged (f p a r).

(** The outbox and the audit log aside, nothing changes, and the log only grows. *)
Definition audit_only (db db' : DB) : Prop :=
  same_core db db' ∧ db_jobs db' = db_jobs db ∧ db_audit_log db ⊆ db_audit_log db'.
#[export] Instance audit_only_preorder : PreOrder audit_only.
Proof.
  split; [by intros db; repeat split|]. intros d1 d2 d3 (H1 & E1 & S1) (H2 & E2 & S2).
  split_and!; [by etrans|congruence|by etrans].
Qed.

(** The row an event leaves behind. *)
Definition recorded (user project : option uuid) (action environment : string) (details : json) (db db' : DB) : Prop :=
  ∃ id row, db_audit_log db !! id = None ∧ db_audit_log db' !! id = Some row ∧
    au_user_id row = user ∧ au_project_id row = project ∧ au_action row = action ∧
    au_environment row = environment ∧ Unmarshal (Marshal details) = Some (au_details row).

(** An auditor records the event or reports an error. *)
Class AuditorOk (f : Auditor) : Prop := {
  audit_keeps u pr a e d ip : keeps audit_only (f u pr a e d ip);
  audit_records u pr a e d ip w x w' : f u pr a e d ip w = (Ok x, w') → recorded u pr a e d (w_db w) (w_db w');
}.

(** The archive hook owns other tables. *)
Class ArchiveOk (f : ProjectArchive) : Prop := archive_keeps project : ok_keeps same_core (f project).

Class ServiceOk (s : Service) : Prop := {
  authorizer_ok f : authorize s = Some f → AuthorizerOk f;
  auditor_ok f : audit s = Some f → AuditorOk f;
  archive_ok f : archive s = Some f → ArchiveOk f;
}.

(** ** Lemmas *)

Lemma keeps_unchanged {A} R `{!PreOrder R} (m : Tx A) : keeps unchanged m → keeps R m.
Proof. intros Hm w r w' H. apply Hm in H as ->. reflexivity. Qed.

Section Facts.
Context `{P : Primitives} (s : Service) `{!ServiceOk s}.

Lemma keeps_permit R `{!PreOrder R} p a r : keeps R (permit s p a r).
Proof.
  apply keeps_unchanged; [done|]. unfold permit. destruct (authorize s) as [f|] eqn:E; [|by apply keeps_fail, _].
  destruct (audit s); [|by apply keeps_fail, _].
  apply keeps_bind; [apply _| |intros; apply keeps_check, _]. apply keeps_on_err, (authorizer_ok f E).
Qed.

Lemma keeps_announce l : keeps same_core (announce l).
Proof.
  apply keeps_bind; [apply _|apply keeps_uuid_New, _|intros id]. apply keeps_EnqueueTx; [apply _|].
  intros db x t _ _ _. by repeat split.
Qed.

Lemma keeps_eventM p r a m : keeps same_core (eventWithMetadataRevision s p r a m).
Proof.
  unfold eventWithMetadataRevision. destruct (bool_decide _); [apply keeps_fail, _|].
  destruct (audit s) as [f|] eqn:E; [|apply keeps_fail, _].
  apply keeps_bind; [apply _| |intros; apply keeps_announce].
  eapply keeps_weaken; [|apply (auditor_ok f E)]. by intros x y [? _].
Qed.
Lemma keeps_event p r a : keeps same_core (event s p r a).
Proof. apply keeps_eventM. Qed.

Lemma event_recorded p r a w u w' :
  event s p r a w = (Ok u, w') →
  event_actor p ≠ uuid_Nil ∧
  recorded (Some (event_actor p)) (Some (v_ProjectID r)) a (v_Environment r)
    (mk_obj [("secret_id", JStr (uuid_String (v_ID r))); ("revision", JInt (v_Revision r)); ("key", JStr (v_Key r))])
    (w_db w) (w_db w').
Proof.
  unfold event, eventWithMetadataRevision. destruct (bool_decide _) eqn:Hn; [done|].
  destruct (audit s) as [f|] eqn:E; [|done]. rewrite app_nil_r.
  intros (x & w1 & H1 & H2)%bind_Ok. split; [by b2p|].
  apply (audit_records (AuditorOk := auditor_ok f E)) in H1 as (id & row & Hno & Hr & Hrest).
  exists id, row. split; [done|]. split; [|done].
  unfold announce in H2. apply bind_Ok in H2 as (i & w2 & H2 & H3).
  apply uuid_New_Ok in H2 as [_ ->]. apply EnqueueTx_Ok in H3 as (pl & _ & _ & _ & _ & ->). done.
Qed.

Lemma keeps_load R `{!PreOrder R} project id : keeps R (load project id).
Proof. apply keeps_no_rows_is, keeps_query_row, _. Qed.
Lemma keeps_currentKey R `{!PreOrder R} project : keeps R (currentKey s project).
Proof. unfold currentKey. auto 8 with keeps. Qed.
Lemma keeps_readVersion R `{!PreOrder R} r v : keeps R (readVersion s r v).
Proof. unfold readVersion. auto 8 with keeps. Qed.
End Facts.
#[export] Hint Resolve keeps_permit keeps_load keeps_currentKey keeps_readVersion keeps_event keeps_eventM : keeps.

(** *** What a successful step tells *)

(** The row a loaded record stands for. *)
Definition loaded (project id : uuid) (r : VRecord) (e : entry_row) (db : DB) : Prop :=
  ventries db !! id = Some e ∧ ve_project_id e = project ∧ v_ID r = id ∧ v_ProjectID r = project ∧
  v_Key r = ve_secret_key e ∧ v_Revision r = ve_revision e ∧ v_Deleted r = ve_deleted e ∧
  v_EnvironmentID r = ve_environment_id e.

Lemma load_row_Some project id db r :
  load_row project id db = Some r → ∃ e, loaded project id r e db ∧ v_Value r = "".
Proof.
  unfold load_row. destruct (ventries db !! id) as [e|] eqn:He; [cbn|done].
  destruct (bool_decide _) eqn:Hp; [|done]. destruct (entry_env e db); [cbn|done].
  intros [= <-]. exists e. b2p. by split_and!.
Qed.

Lemma load_Ok project id r w w' :
  load project id w = (Ok r, w') → load_row project id (w_db w) = Some r ∧ w_db w' = w_db w.
Proof. intros H. unfold load in H. steps. done. Qed.

Lemma loaded_core project id r e db db' : same_core db db' → loaded project id r e db → loaded project id r e db'.
Proof. intros (_ & _ & _ & Hv). unfold loaded, ventries. by rewrite Hv. Qed.

Section Holds.
Context `{P : Primitives} (s : Service).

(** Revision [rev] of a secret is sealed under a retained key and opens to [v]. *)
Definition holds_value (project id : uuid) (rev : Z) (v : string) (db : DB) : Prop :=
  ∃ rk dek, version_row project id rev db = Some rk ∧
    DecryptDEK (crypto s) (vk_encrypted_key rk.2) (vk_nonce rk.2) = Ok dek ∧
    Decrypt dek (vr_encrypted_value rk.1) (vr_nonce rk.1) = Ok v.

Lemma readVersion_Ok r v plain w w' :
  readVersion s r v w = (Ok plain, w') →
  holds_value (v_ProjectID r) (v_ID r) v plain (w_db w) ∧ w_db w' = w_db w.
Proof.
  intros H. unfold readVersion in H. steps. split; [|done]. by eexists _, _.
Qed.

Lemma version_row_Some project id rev db rk :
  version_row project id rev db = Some rk ↔
  vrevisions db !! (id, rev) = Some rk.1 ∧ vkeys db !! vr_key_id rk.1 = Some rk.2 ∧
  vr_project_id rk.1 = project ∧ vk_project_id rk.2 = project.
Proof.
  unfold version_row. destruct rk as [r k]. cbn. destruct (vrevisions db !! (id, rev)) as [r'|]; [cbn|naive_solver].
  destruct (vkeys db !! vr_key_id r') as [k'|] eqn:Hk; cbn; [|naive_solver].
  destruct (_ && _) eqn:E; b2p.
  - destruct E as [<- E]. split; [by intros [= -> ->]|]. intros ([= ->] & ? & ? & ?). congruence.
  - split; [done|]. intros ([= ->] & Hk' & <- & ?). rewrite Hk in Hk'. injection Hk' as ->. naive_solver.
Qed.

(** History keeps every value readable. *)
Lemma holds_value_grows project id rev v db db' :
  history_grows db db' → holds_value project id rev v db → holds_value project id rev v db'.
Proof.
  intros [Hk Hr _ _ _ _] ([r k] & dek & Hrow & ?). exists (r, k), dek. split; [|done].
  apply version_row_Some in Hrow as (? & ? & ? & ?). apply version_row_Some.
  split_and!; try done; by eapply lookup_weaken.
Qed.

Lemma holds_value_inj project id rev v v' db :
  holds_value project id rev v db → holds_value project id rev v' db → v = v'.
Proof. intros (rk & dek & ? & ? & ?) (rk' & dek' & ? & ? & ?). congruence. Qed.

Lemma holds_value_core project id rev v db db' :
  same_core db db' → holds_value project id rev v db ↔ holds_value project id rev v db'.
Proof. intros H. split; apply holds_value_grows, same_core_history; [done|by symmetry]. Qed.

Lemma currentKey_Ok project kd w w' :
  currentKey s project w = (Ok kd, w') →
  ∃ k, vkeys (w_db w) !! kd.1 = Some k ∧ vk_project_id k = project ∧ vprojects (w_db w) !! project = Some kd.1 ∧
    DecryptDEK (crypto s) (vk_encrypted_key k) (vk_nonce k) = Ok kd.2 ∧ w_db w' = w_db w.
Proof.
  intros H. unfold currentKey in H. steps.
  match goal with H : current_key_row _ _ = Some ?kr |- _ => destruct kr as [key k]; rename H into Hr end.
  unfold current_key_row in Hr. destruct (vprojects (w_db w) !! project) as [key'|] eqn:Hp; [cbn in Hr|done].
  destruct (vkeys (w_db w) !! key') as [k'|] eqn:Hk; [cbn in Hr|done].
  destruct (bool_decide _) eqn:Hpr; [|done]. injection Hr as -> ->. b2p. exists k. by split_and!.
Qed.

Lemma append_Ok p r key c n op u w w' :
  append p r key c n op w = (Ok u, w') →
  ∃ db1, insert_revision (v_ID r) (v_Revision r)
           (mkRevision (v_ProjectID r) key c n op (revision_actor p) (w_now w)) (w_db w) = Some db1 ∧
    update_entry (v_ID r) (v_ProjectID r) (v_Revision r) key (v_Deleted r) db1 = Some (w_db w').
Proof. intros H. unfold append in H. steps. by eexists. Qed.

(** An append is one new revision of the entry it names. *)
Lemma append_appended p r key c n op u w w' e :
  append p r key c n op w = (Ok u, w') →
  ventries (w_db w) !! v_ID r = Some e → ve_project_id e = v_ProjectID r → (0 < ve_revision e)%Z →
  v_Revision r = incr64 (ve_revision e) →
  appended (v_ID r) e (mkRevision (v_ProjectID r) key c n op (revision_actor p) (w_now w)) (v_Deleted r)
    (secrets (w_db w)) (w_db w) (w_db w').
Proof.
  intros (db1 & Hi & Hu)%append_Ok He Hp Hpos Hrev. unfold insert_revision in Hi. inv_write Hi.
  assert (v_Revision r = (ve_revision e + 1)%Z) as Hr1 by (rewrite Hrev; apply incr64_pos; [done|by rewrite <-Hrev]).
  rewrite Hr1 in *. subst db1. eapply update_entry_one in Hu as (-> & _ & _); [|exact He|done].
  by split.
Qed.
End Holds.

(** A rewritten live row, before or after the append. *)
Lemma appended_live_before id e r d x c n t db db' :
  secrets db !! id = Some x → sr_project_id x = ve_project_id e →
  appended id e r d (secrets (update_secret id (ve_project_id e) c n t db)) (update_secret id (ve_project_id e) c n t db) db' →
  appended id e r d (<[id := set_value c n t x]> (secrets db)) db db'.
Proof.
  intros Hx Hp A. destruct A as [A1 A2 A3 A4 A5 A6 A7 A8 A9 A10]. split; try done.
  rewrite A4. by apply update_secret_one.
Qed.
Lemma appended_live_after id e r d x c n t db db1 db' :
  secrets db !! id = Some x → sr_project_id x = ve_project_id e →
  appended id e r d (secrets db) db db1 → same_core (update_secret id (ve_project_id e) c n t db1) db' →
  appended id e r d (<[id := set_value c n t x]> (secrets db)) db db'.
Proof.
  intros Hx Hp A Hc. rewrite <-Hc. destruct A as [A1 A2 A3 A4 A5 A6 A7 A8 A9 A10]. split; try done.
  rewrite (update_secret_one _ _ _ _ _ x); [by rewrite A4|by rewrite A4|done].
Qed.

(** The live row of an undeleted entry. *)
Lemma journal_live Pr db id e :
  journal_upto Pr db → ventries db !! id = Some e → ve_deleted e = false →
  (0 < ve_revision e)%Z ∧ ∃ r x, vrevisions db !! (id, ve_revision e) = Some r ∧ secrets db !! id = Some x ∧
    live_matches id e r x.
Proof.
  intros [H1 _ _ _] He Hd. destruct (H1 _ _ He) as (? & _ & r & Hr & _ & _ & Hl). rewrite Hd in Hl.
  destruct Hl as (_ & x & ? & ?). split; [done|]. by exists r, x.
Qed.

(** *** The server's own ports satisfy the interfaces *)

#[export] Instance stored_authorizer_ok d req : AuthorizerOk (stored_authorizer d req).
Proof.
  intros p a r. unfold stored_authorizer, Authorize. apply keeps_bind; [apply _|apply keeps_get, _|intros t].
  destruct (negb _); [apply keeps_ret, _|]. apply keeps_bind; [apply _|apply keeps_LoadAuthority, _|].
  intros x. apply keeps_ret, _.
Qed.

Section Wiring.
Context `{P : Primitives}.

Lemma CreateTx_recorded r u pr a e d ip w x w' :
  CreateTx r u pr a e d ip w = (Ok x, w') →
  audit_only (w_db w) (w_db w') ∧ recorded u pr a e d (w_db w) (w_db w').
Proof.
  intros H. destruct (decide (chainSecret r = "")) as [Hk|Hk].
  - unfold CreateTx in H. rewrite bool_decide_eq_true_2 in H by done.
    apply bind_Ok in H as (t & w1 & [-> ->]%now_Ok & H). apply bind_Ok in H as (id & w2 & [_ ->]%uuid_New_Ok & H).
    apply exec_Ok in H as (db & H & ->). cbn in *.
    destruct (Unmarshal _) as [stored|] eqn:Hs; [|done]. cbn in H. unfold insert_audit in H.
    destruct (_ || _) eqn:Hg; [done|]. injection H as <-.
    apply orb_false_iff in Hg as [[[Hno _]%orb_false_iff _]%orb_false_iff _].
    apply bool_decide_eq_false in Hno. apply eq_None_not_Some in Hno.
    split; [by repeat split; apply insert_subseteq|]. eexists id, _. cbn. rewrite lookup_insert_eq. by split_and!.
  - apply CreateTx_Ok in H as (id & stored & Hs & Hno & ->); [|done].
    split; [by repeat split; apply insert_subseteq|]. eexists id, _. cbn. rewrite lookup_insert_eq. by split_and!.
Qed.

(** What appending does to the database is what its two statements do. *)
Lemma keeps_CreateTx (R : DB → DB → Prop) `{!PreOrder R} r u pr a e d ip :
  (∀ db id row, db_audit_log db !! id = None → R db (upd_db_audit_log <[id := row]> db)) →
  (∀ db g, R db (upd_db_audit_chain_head g db)) →
  keeps R (CreateTx r u pr a e d ip).
Proof.
  intros Hi Hh. unfold CreateTx. apply keeps_bind; [done|apply keeps_get, _|intros t].
  assert (∀ id row, keeps R (exec (λ db, stored ← Unmarshal (details_value d); insert_audit id (row stored) db))) as Hx.
  { intros id row. apply keeps_exec; [done|]. intros db db' H. destruct (Unmarshal _); [|done]. cbn in H.
    unfold insert_audit in H. destruct (_ || _) eqn:Hg; [done|]. injection H as <-.
    apply orb_false_iff in Hg as [[[Hno _]%orb_false_iff _]%orb_false_iff _].
    apply bool_decide_eq_false in Hno. by apply Hi, eq_None_not_Some. }
  destruct (bool_decide _); [apply keeps_bind; [done|apply keeps_uuid_New, _|intros id; apply Hx]|].
  apply keeps_bind; [done| |intros prev].
  { apply keeps_wrap_err, keeps_bind; [done|apply keeps_exec_; [done|reflexivity]|intros _; apply keeps_query, _]. }
  apply keeps_bind; [done|apply keeps_uuid_New, _|intros id].
  apply keeps_bind; [done|apply keeps_wrap_err, Hx|intros _]. by apply keeps_exec_.
Qed.
#[export] Instance CreateTx_auditor r : AuditorOk (CreateTx r).
Proof.
  split.
  - intros u pr a e d ip. apply keeps_CreateTx; [apply _| |by repeat split].
    intros db id row Hno. by repeat split; apply insert_subseteq.
  - intros u pr a e d ip w x w' H. by apply CreateTx_recorded in H as [_ ?].
Qed.

#[export] Instance server_vault_ok c r : ServiceOk (server_vault c r).
Proof. split; [intros f [= <-]; apply _|intros f [= <-]; apply _|done]. Qed.
End Wiring.

(** ** Putting a value *)

Section PutFacts.
Context `{P : Primitives} `{!PrimitivesOk P} (s : Service) `{!ServiceOk s}.

Lemma put_target_Ok r expected r' w w' :
  put_target r expected w = (Ok r', w') →
  w_db w' = w_db w ∧
  ((v_ID r = uuid_Nil ∧ expected = 0%Z ∧ ∃ id env, find_env (v_ProjectID r) (v_Environment r) (w_db w) = Some env ∧
      r' = mkVRecord id (v_ProjectID r) (v_Environment r) (v_Key r) 1 (v_Value r) false env (v_CreatedAt r) (v_UpdatedAt r))
   ∨ (v_ID r ≠ uuid_Nil ∧ ∃ cur e, loaded (v_ProjectID r) (v_ID r) cur e (w_db w) ∧ ve_deleted e = false ∧
        ve_revision e = expected ∧ r' = bump (with_value (v_Value r) cur))).
Proof.
  intros H. unfold put_target in H. destruct (bool_decide _) eqn:Hn; b2p.
  - steps. match goal with H : uuid_New _ = _ |- _ => apply uuid_New_Ok in H as [-> ->] end.
    split; [done|]. left. b2p. split_and!; [done|done|]. eexists _, _. split; [|done]. assumption.
  - apply bind_Ok in H as (cur & w1 & H1 & H). apply on_err_Ok, load_Ok in H1 as [H1 Hw1].
    apply load_row_Some in H1 as (e & Hl & _). destruct (_ || _) eqn:Hg; [done|]. apply ret_Ok in H as [<- <-].
    split; [done|]. right. split; [done|]. exists cur, e. b2p. destruct Hg as [Hd Hr].
    pose proof Hl as (_ & _ & _ & _ & _ & Hrev & Hdel & _).
    split; [exact Hl|]. split_and!; congruence.
Qed.

(** A new record: entry, live row and first revision. *)
Lemma put_new p c n op keyid u1 u2 r w w1 w2 :
  put_live r keyid c n 0 w = (Ok u1, w1) → append p r keyid c n op w1 = (Ok u2, w2) →
  v_Revision r = 1%Z → v_Deleted r = false →
  ∃ x, let row := mkRevision (v_ProjectID r) keyid c n op (revision_actor p) (w_now w1) in
    let e := mkEntry (v_ProjectID r) (v_EnvironmentID r) (v_Key r) 1 keyid false in
    created (v_ID r) e row x (w_db w) (w_db w2) ∧ live_matches (v_ID r) e row x.
Proof.
  intros H1 H2 Hrev Hdel. unfold put_live in H1. cbn in H1. steps.
  match goal with H : insert_entry _ _ _ = Some _ |- _ => unfold insert_entry in H; inv_write H end.
  match goal with H : insert_secret _ _ _ = Some _ |- _ => unfold insert_secret in H; inv_write H end.
  apply append_Ok in H2 as (db3 & Hi & Hu). unfold insert_revision in Hi. inv_write Hi. cbn in *.
  rewrite Hrev, Hdel in *. subst.
  eapply update_entry_one in Hu as (Hu & _ & _);
    [|unfold ventries; cbn; by rewrite lookup_insert_eq|done].
  exists (mkSecret (v_ProjectID r) (v_EnvironmentID r) (v_Key r) c n (w_now w) (w_now w)).
  split; [|by split_and!]. rewrite Hu.
  split; try done; [by unfold ventries; cbn; rewrite insert_insert_eq|].
  by apply not_eq_None_Some.
Qed.

Record put_ok (r : VRecord) (expected : Z) (op : string) (r' : VRecord) (db db' : DB) : Prop := {
  po_project : v_ProjectID r' = v_ProjectID r;
  po_live : v_Deleted r' = false;
  po_value : v_Value r' = "";
  po_revision : v_Revision r' = (expected + 1)%Z;
  po_name : if bool_decide (v_ID r = uuid_Nil)
            then expected = 0%Z ∧ v_Key r' = v_Key r ∧ ventries db !! v_ID r' = None ∧
                 find_env (v_ProjectID r) (v_Environment r) db = Some (v_EnvironmentID r')
            else v_ID r' = v_ID r;
  po_entry : ∃ e, loaded (v_ProjectID r) (v_ID r') r' e db';
  po_others id : id ≠ v_ID r' → ventries db' !! id = ventries db !! id ∧ secrets db' !! id = secrets db !! id;
  po_holds : holds_value s (v_ProjectID r) (v_ID r') (v_Revision r') (v_Value r) db';
  po_journal : journal_ok db';
  po_grows : history_grows db db';
  po_operation : ∃ row, vrevisions db' !! (v_ID r', v_Revision r') = Some row ∧ vr_operation row = put_operation op expected;
}.
(** The world in which the writes of a put begin: nothing but the audit trail
    and the outbox has changed. *)
Lemma put_prelude p r action ev v w kd cn w1 u1 w2 u2 w3 w4 :
  permit s p action r w = (Ok u1, w1) → event s p r ev w1 = (Ok u2, w2) →
  currentKey s (v_ProjectID r) w2 = (Ok kd, w3) → Encrypt kd.2 v w3 = (Ok cn, w4) →
  same_core (w_db w) (w_db w4) ∧ Decrypt kd.2 cn.1 cn.2 = Ok v ∧
  ∃ k, vkeys (w_db w4) !! kd.1 = Some k ∧ vk_project_id k = v_ProjectID r ∧
    DecryptDEK (crypto s) (vk_encrypted_key k) (vk_nonce k) = Ok kd.2.
Proof.
  intros H1%(keeps_permit s same_core) H2%keeps_event H3 H4; [|done].
  apply currentKey_Ok in H3 as (k & Hk & Hp & _ & Hd & E3). destruct cn as [c n].
  assert (w_db w4 = w_db w3) as E4 by (by apply (keeps_encrypt unchanged) in H4).
  rewrite E4, E3. split; [by etrans|]. split; [by eapply decrypt_encrypt|]. by exists k.
Qed.

Lemma holds_value_intro project id rev v r k dek db :
  vrevisions db !! (id, rev) = Some r → vkeys db !! vr_key_id r = Some k → vr_project_id r = project →
  vk_project_id k = project → DecryptDEK (crypto s) (vk_encrypted_key k) (vk_nonce k) = Ok dek →
  Decrypt dek (vr_encrypted_value r) (vr_nonce r) = Ok v → holds_value s project id rev v db.
Proof. intros. exists (r, k), dek. split; [|done]. by apply version_row_Some. Qed.

(** The current value of an undeleted entry replaced by [v]. *)
Record rewrote (project id : uuid) (e : entry_row) (op : string) (key : uuid) (v : string) (db db' : DB) : Prop := {
  rw_entries : ventries db' = <[id := set_entry (ve_revision e + 1) key false e]> (ventries db);
  rw_live : ∃ x, secrets db' = <[id := x]> (secrets db);
  rw_projects : vprojects db' = vprojects db;
  rw_operation : ∃ r, vrevisions db' = <[(id, (ve_revision e + 1)%Z) := r]> (vrevisions db) ∧ vr_operation r = op;
  rw_keys : vkeys db' = vkeys db;
  rw_holds : holds_value s project id (ve_revision e + 1) v db';
  rw_journal : journal_ok db';
  rw_grows : history_grows db db';
}.

Lemma rewrote_intro project id e row x t k dek v db db' :
  journal_ok db → ventries db !! id = Some e → ve_project_id e = project → ve_deleted e = false →
  secrets db !! id = Some x → vr_project_id row = project → vr_operation row ≠ "delete" →
  vkeys db !! vr_key_id row = Some k → vk_project_id k = project →
  DecryptDEK (crypto s) (vk_encrypted_key k) (vk_nonce k) = Ok dek →
  Decrypt dek (vr_encrypted_value row) (vr_nonce row) = Ok v →
  appended id e row false (<[id := set_value (vr_encrypted_value row) (vr_nonce row) t x]> (secrets db)) db db' →
  rewrote project id e (vr_operation row) (vr_key_id row) v db db'.
Proof.
  intros Hj He Hp Hd Hx Hrp Hop Hk Hkp Hdk Hdec A. pose proof A as [_ A2 _ _ A5 _ _ _ _ _].
  split; [apply A|eexists; apply A|apply A|eexists; split; [apply A|done]|apply A| | |].
  - eapply holds_value_intro; [rewrite A2; apply lookup_insert_eq| |done..]. by rewrite A5.
  - eapply journal_updated; [exact Hj|exact He|exact Hd|exact Hx| |exact Hop| |exact A]; [congruence|done].
  - by eapply appended_grows.
Qed.

(** The live row, then the journal ([PutTx], [Restore]). *)
Lemma update_append project id e k key dek v c n t op p r u w w1 w2 db :
  journal_ok db → ventries db !! id = Some e → ve_project_id e = project → ve_deleted e = false →
  same_core db (w_db w) → w_db w1 = update_secret id project c n t (w_db w) →
  append p r key c n op w1 = (Ok u, w2) → op ≠ "delete" →
  v_ID r = id → v_ProjectID r = project → v_Revision r = incr64 (ve_revision e) → v_Deleted r = false →
  vkeys (w_db w) !! key = Some k → vk_project_id k = project →
  DecryptDEK (crypto s) (vk_encrypted_key k) (vk_nonce k) = Ok dek → Decrypt dek c n = Ok v →
  rewrote project id e op key v db (w_db w2).
Proof.
  intros Hj He Hp Hd Hc E1 H Hop Hid Hrp Hrev Hrd Hk Hkp Hdk Hdec.
  destruct (journal_live _ _ _ _ Hj He Hd) as (Hpos & r0 & x & _ & Hx & Hxp & _).
  assert (ventries (w_db w1) = ventries db ∧ secrets (w_db w) = secrets db ∧ vkeys (w_db w) = vkeys db) as (Ee & Es & Ek).
  { rewrite E1. destruct Hc as (_ & _ & Es & Ev). unfold ventries, secrets, vkeys. cbn. by rewrite Ev, Es. }
  eapply append_appended in H; [|by rewrite Hid, Ee|congruence|done|done].
  rewrite Hid, Hrp, Hrd, E1 in H. rewrite <-Hp in H at 2 3.
  eapply appended_live_before in H; [|by rewrite Es|done]. rewrite Es, <-Hc in H.
  eapply (rewrote_intro _ _ _ (mkRevision project key c n op (revision_actor p) (w_now w1)));
    try done. by rewrite <-Ek.
Qed.

(** The journal, then the live row ([Rotate]). *)
Lemma append_update project id e k key dek v c n t op p r u w w1 db db' :
  journal_ok db → ventries db !! id = Some e → ve_project_id e = project → ve_deleted e = false →
  w_db w = db → append p r key c n op w = (Ok u, w1) → op ≠ "delete" →
  db' = update_secret id project c n t (w_db w1) →
  v_ID r = id → v_ProjectID r = project → v_Revision r = incr64 (ve_revision e) → v_Deleted r = false →
  vkeys db !! key = Some k → vk_project_id k = project →
  DecryptDEK (crypto s) (vk_encrypted_key k) (vk_nonce k) = Ok dek → Decrypt dek c n = Ok v →
  rewrote project id e op key v db db'.
Proof.
  intros Hj He Hp Hd E H Hop -> Hid Hrp Hrev Hrd Hk Hkp Hdk Hdec. subst db.
  destruct (journal_live _ _ _ _ Hj He Hd) as (Hpos & r0 & x & _ & Hx & Hxp & _).
  eapply append_appended in H; [|by rewrite Hid|congruence|done|done]. rewrite Hid, Hrp, Hrd in H.
  eapply appended_live_after in H; [|exact Hx|done|reflexivity].
  eapply (rewrote_intro _ _ _ (mkRevision project key c n op (revision_actor p) (w_now w))); try done.
  cbn. rewrite Hp in H. exact H.
Qed.

Lemma PutTx_ok p r expected op r' w w' :
  journal_ok (w_db w) → op ≠ "delete" → PutTx s p r expected op w = (Ok r', w') →
  put_ok r expected op r' (w_db w) (w_db w').
Proof.
  intros Hj Hop H. unfold PutTx in H. destruct (_ || _); [done|].
  apply bind_Ok in H as (t & w1 & (E1 & Ht)%put_target_Ok & H).
  apply bind_Ok in H as (u2 & w2 & H2 & H). apply bind_Ok in H as (u3 & w3 & H3 & H).
  apply bind_Ok in H as (kd & w4 & H4 & H). apply bind_Ok in H as ([c n] & w5 & H5 & H).
  apply bind_Ok in H as (u6 & w6 & H6 & H). apply bind_Ok in H as (u7 & w7 & H7 & H).
  apply load_Ok in H as [Hl E]. apply load_row_Some in Hl as (e' & Hl & Hv).
  destruct (put_prelude _ _ _ _ _ _ _ _ _ _ _ _ _ _ H2 H3 H4 H5) as (Hc & Hdec & k & Hk & Hkp & Hdk).
  rewrite E1 in Hc. cbn in H6, H7, Hdec. rewrite E. clear E w'.
  assert (put_operation op expected ≠ "delete") as Hpo by (unfold put_operation; repeat case_match; done).
  destruct Ht as [(Hn & -> & id & env & Henv0 & ->)|(Hn & cur & e & Hcur & Hd & Hrev & ->)]; cbn in *.
  - destruct (put_new _ _ _ _ _ _ _ _ _ _ _ H6 H7 eq_refl eq_refl) as (x & C & Hm). cbn in C, Hm.
    assert (created id (mkEntry (v_ProjectID r) env (v_Key r) 1 kd.1 false)
              (mkRevision (v_ProjectID r) kd.1 c n (put_operation op 0) (revision_actor p) (w_now w6)) x (w_db w) (w_db w7))
      as C' by (by rewrite Hc).
    pose proof (cr_entries _ _ _ _ _ _ C') as Ee. pose proof (cr_secrets _ _ _ _ _ _ C') as Es.
    destruct Hl as (He' & Hp' & Hid & Hpr & Hkey & Hr' & Hdel & Henv).
    rewrite Ee, lookup_insert_eq in He'. injection He' as <-. cbn in *.
    split; rewrite ?Hid, ?Hpr, ?Hkey, ?Hr', ?Hdel; try done.
    + rewrite bool_decide_eq_true_2 by done. rewrite Henv. split; [done|]. split; [done|]. split; [|done]. apply (cr_no_entry _ _ _ _ _ _ C').
    + eexists. split_and!; [by rewrite Ee, lookup_insert_eq|try done..].
    + intros i Hi. by rewrite Ee, Es, !lookup_insert_ne by done.
    + eapply holds_value_intro; [rewrite (cr_revisions _ _ _ _ _ _ C'); apply lookup_insert_eq| |try done..].
      rewrite (cr_keys _ _ _ _ _ _ C). exact Hk.
    + eapply journal_created; [exact Hj|..|exact C']; done.
    + by eapply created_grows.
    + eexists. rewrite (cr_revisions _ _ _ _ _ _ C'). split; [apply lookup_insert_eq|done].
  - pose proof Hcur as (He & Hp & Hid & Hpr & _ & Hcr & Hcd & _). rewrite Hid, Hpr in *.
    destruct (journal_live _ _ _ _ Hj He Hd) as (Hpos & _).
    assert ((expected =? 0)%Z = false) as H0 by (apply Z.eqb_neq; lia).
    unfold put_live in H6. rewrite H0 in H6. steps. cbn in *. rewrite Hid, Hpr in *.
    eapply update_append in H7; try done; [|by cbn; rewrite Hcr|by cbn; rewrite Hcd].
    destruct H7 as [Ee [x Es] _ (row & Er & Ho) _ Hh Hj' Hg]. destruct Hl as (He' & Hp' & Hi & Hq & Hkey & Hr' & Hdel & Henv).
    rewrite Ee, lookup_insert_eq in He'. injection He' as <-. cbn in *.
    split; rewrite ?Hr', ?Hdel; try done.
    + by rewrite bool_decide_eq_false_2.
    + eexists. rewrite Hi. split_and!; [by rewrite Ee, lookup_insert_eq|try done..].
    + intros i Hne. rewrite Hi in Hne. by rewrite Ee, Es, !lookup_insert_ne by done.
    + by rewrite Hi.
    + exists row. rewrite Hi, Er. split; [apply lookup_insert_eq|done].
Qed.
(** *** Restore, delete, rotate *)

Lemma vault_tx_Ok {A} p project (body : Tx A) a w w' :
  vault_tx p project body w = (Ok a, w') →
  ∃ w1 w2, w_db w1 = w_db w ∧ body w1 = (Ok a, w2) ∧ w_db w' = w_db w2.
Proof.
  unfold vault_tx. intros (w1 & H & ->)%with_tx_Ok.
  apply bind_Ok in H as (u1 & w2 & H1%exec__Ok & H). apply bind_Ok in H as (u2 & w3 & H2%exec__Ok & H).
  apply bind_Ok in H as (u3 & w4 & H3 & H). apply on_err_Ok in H3.
  apply (keeps_LockProject _ unchanged) in H3.
  exists w4, w1. split; [|done]. by rewrite H3, H2, H1.
Qed.

Lemma Restore_ok p project id version expected r' w w' :
  journal_ok (w_db w) → Restore s p project id version expected w = (Ok r', w') →
  ∃ e key v, ventries (w_db w) !! id = Some e ∧ ve_project_id e = project ∧ ve_revision e = expected ∧
    ve_deleted e = false ∧ (1 <= version)%Z ∧ holds_value s project id version v (w_db w) ∧
    rewrote project id e "restore" key v (w_db w) (w_db w') ∧
    loaded project id r' (set_entry (expected + 1) key false e) (w_db w').
Proof.
  intros Hj (w0 & w'' & E0 & H & ->)%vault_tx_Ok. rewrite <-E0 in *. clear E0.
  apply bind_Ok in H as (r & w1 & [Hl E1]%load_Ok & H). apply load_row_Some in Hl as (e & Hl & _).
  destruct (_ || _) eqn:Hg; [done|]. b2p. destruct Hg as [[Hrd Hre] Hver].
  apply bind_Ok in H as (u2 & w2 & H2 & H). apply bind_Ok in H as (u3 & w3 & H3 & H).
  apply bind_Ok in H as (plain & w4 & H4 & H). apply bind_Ok in H as (kd & w5 & H5 & H).
  apply bind_Ok in H as ([c n] & w6 & H6 & H).
  pose proof Hl as (He & Hp & Hid & Hpr & _ & Hr & Hd & _).
  apply (keeps_permit s same_core) in H2. apply keeps_event in H3; [|done].
  assert (same_core (w_db w0) (w_db w3)) as Hc by (rewrite <-E1; by etrans). clear H2 H3.
  apply readVersion_Ok in H4 as [Hh E4]. cbn in Hh. rewrite Hid, Hpr in Hh. rewrite <-holds_value_core in Hh by exact Hc.
  apply currentKey_Ok in H5 as (k & Hk & Hkp & _ & Hdk & E5).
  pose proof (decrypt_encrypt _ _ _ _ _ _ H6) as Hdec. apply (keeps_encrypt unchanged) in H6.
  assert (w_db w6 = w_db w3) as E6 by (unfold unchanged in H6; congruence).
  apply bind_Ok in H as (t & w7 & [-> ->]%now_Ok & H). apply bind_Ok in H as (u8 & w8 & H8%exec__Ok & H).
  apply bind_Ok in H as (u9 & w9 & H9 & H). apply load_Ok in H as [Hl' E']. apply load_row_Some in Hl' as (e' & Hl' & _).
  rewrite E4 in Hk. rewrite E'.
  eapply (update_append project id e k kd.1 kd.2 plain c n) in H9; try done. 
  - destruct Hl' as (He' & Hrest). pose proof (rw_entries _ _ _ _ _ _ _ _ H9) as Ee.
    rewrite Ee, lookup_insert_eq in He'. injection He' as <-.
    exists e, kd.1, plain. split_and!; try done; [congruence|congruence|].
    replace expected with (ve_revision e) by congruence. split; [by rewrite Ee, lookup_insert_eq|done].
  - congruence.
  - rewrite H8. cbn. by rewrite E6.
  - cbn. by rewrite Hr.
Qed.

(** An entry closed by a tombstone. *)
Record buried (project id : uuid) (e : entry_row) (db db' : DB) : Prop := {
  bu_entries : ∃ key, ventries db' = <[id := set_entry (ve_revision e + 1) key true e]> (ventries db);
  bu_live : secrets db' = delete id (secrets db);
  bu_journal : journal_ok db';
  bu_grows : history_grows db db';
}.

Lemma DeleteTx_ok p project id expected u w w' :
  journal_ok (w_db w) → DeleteTx s p project id expected w = (Ok u, w') →
  ∃ e, ventries (w_db w) !! id = Some e ∧ ve_project_id e = project ∧ ve_revision e = expected ∧
    ve_deleted e = false ∧ buried project id e (w_db w) (w_db w').
Proof.
  intros Hj H. unfold DeleteTx in H.
  apply bind_Ok in H as (r & w1 & [Hl E1]%load_Ok & H). apply load_row_Some in Hl as (e & Hl & _).
  destruct (_ || _) eqn:Hg; [done|]. b2p. destruct Hg as [Hrd Hre].
  apply bind_Ok in H as (u2 & w2 & H2 & H). apply bind_Ok in H as (u3 & w3 & H3 & H).
  apply bind_Ok in H as (key & w4 & [Hk ->]%query_row_Ok & H).
  apply bind_Ok in H as (u5 & w5 & H5 & H). apply exec__Ok in H as ->.
  pose proof Hl as (He & Hp & Hid & Hpr & _ & Hr & Hd & _).
  apply (keeps_permit s same_core) in H2. apply keeps_event in H3; [|done].
  assert (same_core (w_db w) (w_db w3)) as Hc by (rewrite <-E1; by etrans). clear H2 H3.
  assert (ve_deleted e = false) as Hdel by congruence.
  destruct (journal_live _ _ _ _ Hj He Hdel) as (Hpos & _ & x & _ & Hx & Hxp & _).
  assert (ventries (w_db w3) = ventries (w_db w) ∧ secrets (w_db w3) = secrets (w_db w)) as [Ee Es]
    by (destruct Hc as (_ & _ & Es & Ev); unfold ventries, secrets; by rewrite Es, Ev).
  exists e. split_and!; try done; [congruence|].
  eapply append_appended in H5; [|cbn; rewrite Hid, Ee; exact He|cbn; congruence|done|cbn; by rewrite Hr].
  cbn in H5. rewrite Hid, Hpr, Es, <-Hc in H5. clear Hk.
  pose proof (appended_grows _ _ _ _ _ _ _ He Hdel H5) as Hg.
  pose proof H5 as [A1 _ _ A4 _ A6 _ _ _ _].
  assert (secrets (delete_secret id project (w_db w5)) = delete id (secrets (w_db w))) as Ed.
  { unfold delete_secret, secrets in *. cbn. rewrite A4. apply delete_where_one. intros k y Hy. unfold secret_is. b2p.
    split; [by intros [-> _]|]. intros ->. split; [done|]. rewrite Hx in Hy. injection Hy as <-. congruence. }
  eapply journal_tombstoned in H5; [|exact Hj|exact He|cbn; congruence|done].
  split; [by eexists|exact Ed| |by etrans; [exact Hg|apply same_core_vault]].
  eapply (journal_weaken (λ i, False ∨ i = id)); [|eapply (journal_purged _ (secret_is id project)); [exact H5| |done..]].
  - intros i [[]| ->]. right. change (secrets (delete_secret id project (w_db w5)) !! id = None).
    rewrite Ed. apply lookup_delete_eq.
  - intros i y Hi _. unfold secret_is in Hi. b2p. destruct Hi as [-> _].
    rewrite A1, lookup_insert_eq. by eexists.
Qed.

(** Revision and value of a secret before, and under the new key after. *)
Definition rotated (project key id : uuid) (e : entry_row) (db db' : DB) : Prop :=
  ventries db' !! id = Some (set_entry (ve_revision e + 1) key false e) ∧
  ∃ v, holds_value s project id (ve_revision e) v db ∧ holds_value s project id (ve_revision e + 1) v db'.

Lemma rotate_one_ok p project key dek k id e u w w' :
  journal_ok (w_db w) → ventries (w_db w) !! id = Some e → ve_project_id e = project → ve_deleted e = false →
  vkeys (w_db w) !! key = Some k → vk_project_id k = project →
  DecryptDEK (crypto s) (vk_encrypted_key k) (vk_nonce k) = Ok dek →
  rotate_one s p project key dek id w = (Ok u, w') →
  ∃ v, holds_value s project id (ve_revision e) v (w_db w) ∧
    rewrote project id e "rotation" key v (w_db w) (w_db w').
Proof.
  intros Hj He Hp Hd Hk Hkp Hdk H. unfold rotate_one in H.
  apply bind_Ok in H as (r & w1 & [Hl E1]%load_Ok & H). apply load_row_Some in Hl as (e1 & Hl & _).
  apply bind_Ok in H as (plain & w2 & [Hh E2]%readVersion_Ok & H). apply bind_Ok in H as ([c n] & w3 & H3 & H).
  apply bind_Ok in H as (u4 & w4 & H4 & H). apply bind_Ok in H as (t & w5 & [-> ->]%now_Ok & H).
  apply exec__Ok in H as ->. pose proof Hl as (He1 & _ & Hid & Hpr & _ & Hr & Hdel & _).
  rewrite He in He1. injection He1 as <-. rewrite Hid, Hpr, Hr, E1 in Hh.
  exists plain. split; [done|]. pose proof (decrypt_encrypt _ _ _ _ _ _ H3) as Hdec.
  apply (keeps_encrypt unchanged) in H3. assert (w_db w3 = w_db w) as E3 by (unfold unchanged in H3; congruence).
  eapply (append_update project id e k key dek plain c n) in H4; try done; [by cbn; rewrite Hr|by cbn; rewrite Hdel].
Qed.

Lemma rotate_loop p project key dek k ids : ∀ w u w',
  NoDup ids → journal_ok (w_db w) →
  (∀ id, id ∈ ids → ∃ e, ventries (w_db w) !! id = Some e ∧ ve_project_id e = project ∧ ve_deleted e = false) →
  vkeys (w_db w) !! key = Some k → vk_project_id k = project →
  DecryptDEK (crypto s) (vk_encrypted_key k) (vk_nonce k) = Ok dek →
  for_each ids (rotate_one s p project key dek) w = (Ok u, w') →
  journaled (w_db w) (w_db w') ∧ vprojects (w_db w') = vprojects (w_db w) ∧
  (∀ id e, id ∈ ids → ventries (w_db w) !! id = Some e → rotated project key id e (w_db w) (w_db w')) ∧
  (∀ id, id ∉ ids → ventries (w_db w') !! id = ventries (w_db w) !! id).
Proof.
  induction ids as [|id ids IH]; intros w u w' Hnd Hj Hact Hk Hkp Hdk H; simpl in H.
  { apply ret_Ok in H as [_ <-]. split_and!; [reflexivity|done|set_solver|done]. }
  apply bind_Ok in H as (u1 & w1 & H1 & H). apply NoDup_cons in Hnd as [Hni Hnd].
  destruct (Hact id) as (e & He & Hp & Hd); [by left|].
  eapply rotate_one_ok in H1 as (v & Hv & R); [|done..]. destruct R as [Ee _ Ep _ Ek Hh Hj1 Hg].
  apply IH in H as (HJ & Ep2 & Hrot & Hother); try done; [|..|by rewrite Ek].
  - assert (journaled (w_db w) (w_db w')) as HJ' by (etrans; [|exact HJ]; intros _; by split).
    destruct (HJ Hj1) as [_ Hg2]. split_and!; [done|congruence| |].
    + intros i ei Hi Hei. apply elem_of_cons in Hi as [->|Hi].
      * rewrite He in Hei. injection Hei as <-. split; [by rewrite Hother, Ee, lookup_insert_eq|].
        exists v. split; [done|]. by eapply holds_value_grows.
      * assert (i ≠ id) as Hne by (intros ->; done).
        destruct (Hrot i ei Hi) as (He' & v' & Hv' & Hv''); [by rewrite Ee, lookup_insert_ne|].
        split; [done|]. exists v'. split; [|done].
        destruct (Hact i) as (ei' & Hei' & Hpi & Hdi); [by right|]. rewrite Hei in Hei'. injection Hei' as <-.
        destruct (journal_live _ _ _ _ Hj Hei Hdi) as (_ & r0 & _ & Hr0 & _).
        destruct Hv' as (rk & dk & Hrow & Hopen). exists rk, dk. split; [|done].
        apply version_row_Some in Hrow as (R1 & R2 & R3 & R4). apply version_row_Some. split_and!; try done.
        -- rewrite (lookup_weaken _ _ _ _ Hr0 (hg_revisions _ _ Hg)) in R1. congruence.
        -- by rewrite <-Ek.
    + intros i [Hne Hi]%not_elem_of_cons. by rewrite Hother, Ee, lookup_insert_ne.
  - intros i Hi. destruct (Hact i) as (ei & Hei & ?); [by right|]. exists ei.
    rewrite Ee, lookup_insert_ne by (intros ->; done). done.
Qed.

Lemma elem_of_active id project db :
  id ∈ map fst (active_entries project db) ↔
  ∃ e, ventries db !! id = Some e ∧ ve_project_id e = project ∧ ve_deleted e = false.
Proof.
  unfold active_entries. rewrite list_elem_of_fmap. split.
  - intros ([i e] & -> & [He Hp]%elem_of_select). exists e. b2p. naive_solver.
  - intros (e & He & Hp & Hd). exists (id, e). split; [done|]. apply elem_of_select. b2p. done.
Qed.
Lemma NoDup_active project db : NoDup (map fst (active_entries project db)).
Proof. apply NoDup_fst_select. Qed.

(** A rotation that succeeds moves every undeleted secret to the fresh key. *)
Lemma Rotate_ok p project n w w' :
  journal_ok (w_db w) → Rotate s p project w = (Ok n, w') →
  journaled (w_db w) (w_db w') ∧ n = length (active_entries project (w_db w)) ∧
  ∃ key, vkeys (w_db w) !! key = None ∧ vprojects (w_db w') !! project = Some key ∧
  (∀ id e, ventries (w_db w) !! id = Some e → ve_project_id e = project → ve_deleted e = false →
     rotated project key id e (w_db w) (w_db w')) ∧
  (∀ id e, ventries (w_db w) !! id = Some e → ¬ (ve_project_id e = project ∧ ve_deleted e = false) →
     ventries (w_db w') !! id = Some e).
Proof.
  intros Hj (w0 & w'' & E0 & H & ->)%vault_tx_Ok. rewrite <-E0 in *. clear E0 w w'. rename w0 into w, w'' into w'.
  apply bind_Ok in H as (u1 & w1 & H1 & H). apply bind_Ok in H as (u2 & w2 & H2 & H).
  apply bind_Ok in H as (kd0 & w3 & [k0 (_ & _ & Hcur & _ & E3)]%currentKey_Ok & H).
  apply bind_Ok in H as (dek & w4 & H4 & H). apply bind_Ok in H as ([ek nk] & w5 & H5 & H).
  apply bind_Ok in H as (key & w6 & [_ ->]%uuid_New_Ok & H).
  apply bind_Ok in H as (u7 & w7 & (db7 & H7 & ->)%exec_Ok & H).
  apply bind_Ok in H as (ids & w8 & [-> ->]%query_Ok & H).
  apply bind_Ok in H as (u9 & w9 & H9 & H). apply bind_Ok in H as (u10 & w10 & ->%exec__Ok & H).
  apply bind_Ok in H as (u11 & w11 & (db11 & H11 & ->)%exec_Ok & H). apply ret_Ok in H as [<- <-].
  apply (keeps_permit s same_core) in H1. apply keeps_event in H2; [|done].
  assert (same_core (w_db w) (w_db w2)) as Hc by (by etrans). clear H1 H2.
  unfold GenerateDEK in H4. apply wrap_err_Ok, rand_bytes_Ok in H4 as [_ ->].
  pose proof (decrypt_encrypt _ _ _ _ _ _ H5) as Hdec. apply (keeps_encrypt unchanged) in H5.
  unfold unchanged in H5. cbn in H5, H7, H9, H11. rewrite H5, E3 in H7.
  pose proof (journaled_insert_key _ _ _ _ H7) as J7. unfold insert_key in H7. inv_write H7.
  cbn in *. rewrite length_map in *.
  assert (ventries db7 = ventries (w_db w)) as Ee
    by (rewrite <-H7; destruct Hc as (_ & _ & _ & Ev); unfold ventries; cbn; by rewrite Ev).
  assert (vkeys db7 = <[key := mkVaultKey project ek nk]> (vkeys (w_db w2))) as Ek by (by rewrite <-H7).
  apply rotate_loop with (k := mkVaultKey project ek nk) in H9 as (J9 & Ep & Hrot & Hother); cbn in *;
    [|apply NoDup_active|apply J7; by rewrite <-Hc|by intros id ?%elem_of_active|by rewrite Ek, lookup_insert_eq|done|done].
  set (db10 := upd_db_projects _ (w_db w9)) in *.
  assert (journaled (w_db w9) db10) as J10 by (by apply journaled_other).
  assert (journaled (w_db w) db7) as J by (etrans; [by apply same_core_journaled|done]).
  pose proof (journaled_set_current_key _ _ _ _ H11) as J11.
  assert (vprojects db10 = vprojects (w_db w2)) as Epj by (change (vprojects (w_db w9) = vprojects (w_db w2)); by rewrite Ep, <-H7).
  unfold set_current_key in H11. rewrite Epj, Hcur in H11.
  destruct (key_ok key project db10); [|done]. injection H11 as <-.
  split; [by etrans; [exact J|etrans; [exact J9|etrans]]|].
  split; [unfold active_entries; by rewrite Ee|]. exists key.
  split; [destruct Hc as (_ & _ & _ & Ev); unfold vkeys in *; by rewrite <-Ev|].
  split; [unfold vprojects; cbn; apply lookup_insert_eq|]. split.
  - intros id e He Hp Hd. rewrite Ee in Hrot. destruct (Hrot id e) as (He' & v & Hv & Hv'); [|done|].
    { apply elem_of_active. rewrite Ee. by exists e. }
    split; [done|]. exists v. split; [|done].
    destruct (journal_live _ _ _ _ Hj He Hd) as (_ & r0 & _ & Hr0 & _).
    destruct Hv as ([r k] & dk & Hrow & Hopen). exists (r, k), dk. split; [|done].
    apply version_row_Some in Hrow as (R1 & R2 & R3 & R4). apply version_row_Some. cbn in *.
    destruct Hc as (_ & _ & _ & Ev). split_and!; try done.
    + rewrite <-H7 in R1. unfold vrevisions in *. cbn in R1. by rewrite Ev in R1.
    + destruct Hj as [_ _ Hn _]. destruct (Hn id (ve_revision e) r) as (_ & _ & _ & _ & Hko).
      { rewrite <-H7 in R1. unfold vrevisions in *. cbn in R1. by rewrite Ev in R1. }
      apply key_ok_Some in Hko as (k1 & Hk1 & _). rewrite Ek, lookup_insert_ne in R2.
      * unfold vkeys in *. by rewrite Ev in R2.
      * intros ->. unfold vkeys in *. rewrite Ev in E. congruence.
  - intros id e He Hn. change (ventries (w_db w9) !! id = Some e). rewrite Hother, Ee; [done|].
    intros (e' & He' & ?)%elem_of_active. rewrite Ee, He in He'. injection He' as <-. done.
Qed.

(** *** Enrollment *)

Lemma insert_each_cons {A} (f : A → DB → option DB) x l db db' :
  insert_each f (x :: l) db = Some db' → ∃ db1, f x db = Some db1 ∧ insert_each f l db1 = Some db'.
Proof.
  unfold insert_each. cbn. destruct (f x db) as [db1|]; [intros H; by exists db1|].
  intros H. exfalso. revert H. clear. induction l as [|y l IH]; [done|exact IH].
Qed.
Lemma insert_each_keeps {A} R `{!PreOrder R} (f : A → DB → option DB) l : (∀ x a b, f x a = Some b → R a b) →
  ∀ db db', insert_each f l db = Some db' → R db db'.
Proof.
  intros Hf. induction l as [|x l IH]; intros db db' H; [by injection H as <-|].
  apply insert_each_cons in H as (db1 & H1 & H). etrans; eauto.
Qed.

(** The tables a baseline does not write at each of its steps. *)
Definition but_entries (a b : DB) : Prop :=
  secrets b = secrets a ∧ vrevisions b = vrevisions a ∧ vkeys b = vkeys a ∧ vprojects b = vprojects a.
Definition but_revisions (a b : DB) : Prop :=
  secrets b = secrets a ∧ ventries b = ventries a ∧ vkeys b = vkeys a ∧ vprojects b = vprojects a.
#[local] Instance but_entries_preorder : PreOrder but_entries.
Proof. split; [done|]. unfold but_entries. intros ???. intuition congruence. Qed.
#[local] Instance but_revisions_preorder : PreOrder but_revisions.
Proof. split; [done|]. unfold but_revisions. intros ???. intuition congruence. Qed.

Lemma baseline_entries key l : ∀ db db',
  insert_each (baseline_entry key) l db = Some db' →
  but_entries db db' ∧ history_grows db db' ∧ (∀ i x, (i, x) ∈ l → ventries db !! i = None) ∧
  (∀ i e, ventries db' !! i = Some e ↔ ventries db !! i = Some e ∨
     ∃ x, (i, x) ∈ l ∧ e = mkEntry (sr_project_id x) (sr_environment_id x) (sr_key x) 1 key false).
Proof.
  induction l as [|[i x] l IH]; intros db db' H.
  { injection H as <-. split; [done|]. split; [reflexivity|]. split; [by intros i x ?%elem_of_nil|].
    intros. split; [by left|]. intros [?|(x & ?%elem_of_nil & _)]; done. }
  apply insert_each_cons in H as (db1 & H1 & H). pose proof (grows_insert_entry _ _ _ _ H1) as G1.
  unfold baseline_entry, insert_entry in H1. inv_write H1. cbn in *. apply IH in H as (B & G & Hn & Ht).
  assert (ventries db1 = <[i := mkEntry (sr_project_id x) (sr_environment_id x) (sr_key x) 1 key false]> (ventries db))
    as Ee by (by rewrite <-H1).
  split; [etrans; [|exact B]; by rewrite <-H1|]. split; [by etrans|]. split.
  - intros j y [[= -> ->]|Hj]%elem_of_cons; [done|]. apply Hn in Hj. rewrite Ee in Hj.
    by apply lookup_insert_None in Hj as [? _].
  - intros j e. rewrite Ht, Ee, lookup_insert_Some. setoid_rewrite elem_of_cons. split.
    + intros [[[<- <-]|[? ?]]|(y & Hy & ->)]; [right; exists x; by split; [left|]|by left|right; exists y; by split; [right|]].
    + intros [Hj|(y & [[= -> ->]|Hy] & ->)]; [|by left; left|by right; exists y].
      left. right. split; [congruence|done].
Qed.

Lemma baseline_revisions t key l : ∀ db db',
  insert_each (baseline_revision t key) l db = Some db' →
  but_revisions db db' ∧ history_grows db db' ∧
  (∀ i x, (i, x) ∈ l → key_ok key (sr_project_id x) db = true) ∧
  (∀ i rev r, vrevisions db' !! (i, rev) = Some r ↔ vrevisions db !! (i, rev) = Some r ∨
     ∃ x, (i, x) ∈ l ∧ rev = 1%Z ∧
       r = mkRevision (sr_project_id x) key (sr_encrypted_value x) (sr_value_nonce x) "baseline" None t).
Proof.
  induction l as [|[i x] l IH]; intros db db' H.
  { injection H as <-. split; [done|]. split; [reflexivity|]. split; [by intros i x ?%elem_of_nil|].
    intros. split; [by left|]. intros [?|(x & ?%elem_of_nil & _)]; done. }
  apply insert_each_cons in H as (db1 & H1 & H). pose proof (grows_insert_revision _ _ _ _ _ H1) as G1.
  unfold baseline_revision, insert_revision in H1. inv_write H1. cbn in *. apply IH in H as (B & G & Hn & Ht).
  split; [etrans; [|exact B]; by rewrite <-H1|]. split; [by etrans|]. split.
  - intros j y [[= -> ->]|Hj]%elem_of_cons; [done|]. apply Hn in Hj. rewrite <-H1 in Hj. exact Hj.
  - intros j rev r. rewrite Ht. setoid_rewrite elem_of_cons.
    assert (vrevisions db1 = <[(i, 1%Z) := mkRevision (sr_project_id x) key (sr_encrypted_value x) (sr_value_nonce x) "baseline" None t]> (vrevisions db))
      as Er by (by rewrite <-H1).
    rewrite Er, lookup_insert_Some. split.
    + intros [[[[= <- <-] <-]|[? ?]]|(y & Hy & -> & ->)];
        [right; exists x; by split_and!; [left| |]|by left|right; exists y; by split_and!; [right| |]].
    + intros [Hj|(y & [[= -> ->]|Hy] & -> & ->)]; [|by left; left|by right; exists y].
      left. right. split; [congruence|done].
Qed.

(** The three inserts of a baseline, from a consistent journal. *)
Lemma baseline_journaled t project key db db1 db2 db3 :
  vprojects db !! project = None → insert_project project key db = Some db1 →
  insert_each (baseline_entry key) (project_secrets project db1) db1 = Some db2 →
  insert_each (baseline_revision t key) (project_secrets project db2) db2 = Some db3 →
  journaled db db3.
Proof.
  intros Hnone H1 H2 H3 Hj. pose proof (grows_insert_project _ _ _ _ H1) as G1.
  unfold insert_project in H1. inv_write H1.
  apply baseline_entries in H2 as ((S2 & R2 & K2 & P2) & G2 & Hn2 & Ht2).
  apply baseline_revisions in H3 as ((S3 & E3 & K3 & P3) & G3 & Hk3 & Ht3).
  assert (secrets db1 = secrets db ∧ ventries db1 = ventries db ∧ vrevisions db1 = vrevisions db ∧ vkeys db1 = vkeys db
          ∧ vprojects db1 = <[project := key]> (vprojects db)) as (S1 & E1 & R1 & K1 & P1) by (by rewrite <-H1).
  assert (∀ i x, (i, x) ∈ project_secrets project db2 ↔ secrets db !! i = Some x ∧ sr_project_id x = project) as Hin.
  { intros i x. unfold project_secrets. rewrite elem_of_select, S2, S1. by b2p. }
  assert (project_secrets project db1 = project_secrets project db2) as El by (unfold project_secrets; by rewrite S2).
  rewrite El in Hn2, Ht2. rewrite <-E3 in Ht2. rewrite E1 in Hn2, Ht2. rewrite R2, R1 in Ht3.
  assert (∀ a b, key_ok a b db3 = key_ok a b db) as Ek by (intros a b; unfold key_ok; by rewrite K3, K2, K1).
  assert (vprojects db3 = <[project := key]> (vprojects db)) as Ep by congruence.
  assert (secrets db3 = secrets db) as Ss by congruence.
  split; [|by etrans; [exact G1|etrans]]. destruct Hj as [J1 J2 J3 J4]. split.
  - intros i e [He|(x & [Hx Hp]%Hin & ->)]%Ht2.
    + destruct (J1 _ _ He) as (? & [kk Hkk] & r & Hr & ? & ? & Hl). rewrite Ss, Ep. split; [done|].
      assert (ve_project_id e ≠ project) as Hne by congruence. rewrite lookup_insert_ne by done.
      split; [by eexists|]. exists r. split; [apply Ht3; by left|done].
    + cbn. rewrite Ss, Ep, Hp, lookup_insert_eq. split; [lia|]. split; [by eexists|].
      eexists. split; [apply Ht3; right; exists x; split; [by apply Hin|done]|]. cbn. split_and!; try done.
      exists x. split; [done|]. by split_and!.
  - intros i x. rewrite Ss, Ep. intros Hx Hs. destruct (decide (sr_project_id x = project)) as [Hp|Hp].
    + eexists. split; [apply Ht2; right; exists x; split; [by apply Hin|done]|]. done.
    + rewrite lookup_insert_ne in Hs by done. destruct (J2 _ _ Hx Hs) as (e & He & ? & ?).
      exists e. split; [apply Ht2; by left|done].
  - intros i rev r [Hr|(x & Hx & -> & ->)]%Ht3.
    + destruct (J3 _ _ _ Hr) as (e & He & ? & ? & ?). exists e. rewrite Ek. split; [apply Ht2; by left|done].
    + pose proof Hx as [Hx' Hp]%Hin. eexists. split; [apply Ht2; right; exists x; done|]. cbn.
      split_and!; try done. apply Hk3 in Hx. unfold key_ok in *. by rewrite K3.
  - intros p k. rewrite Ep, Ek. intros [[<- <-]|[_ Hp]]%lookup_insert_Some; [done|by apply J4].
Qed.
Lemma journaled_insert_snapshot_key id project key db db' :
  insert_snapshot_key id project key db = Some db' → journaled db db'.
Proof.
  intros H. unfold insert_snapshot_key in H. inv_write H. subst db'. apply journaled_other; try done. by apply insert_subseteq.
Qed.

Lemma EnrollTx_Ok p project u w w' :
  EnrollTx s p project w = (Ok u, w') →
  journaled (w_db w) (w_db w') ∧ (is_Some (vprojects (w_db w) !! project) → w_db w' = w_db w) ∧
  (journal_ok (w_db w) → is_Some (vprojects (w_db w') !! project)).
Proof.
  intros H. unfold EnrollTx in H. apply bind_Ok in H as (u1 & w1 & H1 & H).
  apply (keeps_permit s unchanged) in H1. apply bind_Ok in H as (enr & w2 & [-> ->]%query_Ok & H).
  cbn in H. rewrite H1 in H. destruct (bool_decide _) eqn:Hen; b2p.
  { apply ret_Ok in H as [_ <-]. cbn. rewrite H1. done. }
  apply bind_Ok in H as ([enc nonce] & w3 & [_ ->]%query_row_Ok & H).
  apply bind_Ok in H as (u4 & w4 & H4 & H). apply bind_Ok in H as (dek & w5 & [_ ->]%lift_Ok & H).
  apply bind_Ok in H as (sealed & w6 & [_ ->]%query_Ok & H). apply bind_Ok in H as (u7 & w7 & H7 & H).
  apply bind_Ok in H as (key & w8 & [_ ->]%uuid_New_Ok & H). apply bind_Ok in H as (t & w9 & [-> ->]%now_Ok & H).
  apply bind_Ok in H as (u10 & w10 & (db10 & H10 & ->)%exec_Ok & H).
  apply bind_Ok in H as (u11 & w11 & (db11 & H11 & ->)%exec_Ok & H).
  apply bind_Ok in H as (u12 & w12 & (db12 & H12 & ->)%exec_Ok & H).
  apply bind_Ok in H as (u13 & w13 & (db13 & H13 & ->)%exec_Ok & H).
  apply exec_Ok in H as (db14 & H14 & ->). cbn in *.
  apply keeps_event in H4; [|done].
  assert (keeps unchanged (for_each sealed (λ cn, on_err (Errorf "existing ciphertext requires unavailable key; enrollment refused")
            (_ ← lift (Decrypt dek cn.1 cn.2); mret ())))) as K.
  { apply keeps_for_each; [apply _|]. intros cn. apply keeps_on_err, keeps_bind; [apply _|apply keeps_lift, _|].
    intros _. apply keeps_ret, _. }
  apply K in H7. unfold unchanged in H7. cbn in H7. rewrite H7 in H10.
  assert (same_core (w_db w) (w_db w4)) as Hc by (by rewrite <-H1).
  pose proof (journaled_insert_key _ _ _ _ H10) as J10.
  assert (vprojects db10 = vprojects (w_db w)) as Ep.
  { unfold insert_key in H10. inv_write H10. rewrite <-H10. destruct Hc as (_ & _ & _ & Ev). unfold vprojects. cbn. by rewrite Ev. }
  assert (vprojects db10 !! project = None) as Hno by (rewrite Ep; by apply eq_None_not_Some).
  assert (journaled (w_db w) db14) as J.
  { etrans; [by apply same_core_journaled|]. etrans; [exact J10|].
    etrans; [eapply baseline_journaled; done|].
    eapply (insert_each_keeps journaled); [|exact H14]. intros x a b. apply journaled_insert_snapshot_key. }
  split; [exact J|]. split; [by intros ?|]. intros _.
  assert (∀ x a b, baseline_snapshot_key project key x a = Some b → vprojects b = vprojects a) as Hs.
  { intros x a b Hx. unfold baseline_snapshot_key, insert_snapshot_key in Hx. inv_write Hx. by rewrite <-Hx. }
  assert (vprojects db14 = vprojects db13) as E14.
  { assert (PreOrder (λ a b : DB, vprojects b = vprojects a)) by (split; [done|intros ??? E1 E2; by rewrite E2]).
    by eapply (insert_each_keeps (λ a b, vprojects b = vprojects a)). }
  apply baseline_entries in H12 as ((_ & _ & _ & E12) & _). apply baseline_revisions in H13 as ((_ & _ & _ & E13) & _).
  rewrite E14, E13, E12. unfold insert_project in H11. inv_write H11. rewrite <-H11.
  unfold vprojects. cbn. rewrite lookup_insert_eq. by eexists.
Qed.

(** *** Archiving *)

Lemma archive_one_ok Pr p project id e u w w' :
  journal_upto Pr (w_db w) → ventries (w_db w) !! id = Some e → ve_project_id e = project → ve_deleted e = false →
  archive_one s p project (id, e) w = (Ok u, w') →
  journal_upto (λ i, Pr i ∨ i = id) (w_db w') ∧ history_grows (w_db w) (w_db w') ∧
  vprojects (w_db w') = vprojects (w_db w) ∧ secrets (w_db w') = secrets (w_db w) ∧
  ventries (w_db w') = <[id := set_entry (ve_revision e + 1) (ve_key_id e) true e]> (ventries (w_db w)).
Proof.
  intros Hj He Hp Hd H. unfold archive_one in H. cbn in H.
  apply bind_Ok in H as (r & w1 & [Hl E1]%load_Ok & H). apply load_row_Some in Hl as (e1 & Hl & _).
  apply bind_Ok in H as (u2 & w2 & H2 & H). apply keeps_event in H; [|done].
  pose proof Hl as (He1 & _ & Hid & Hpr & _ & Hr & _). rewrite He in He1. injection He1 as <-.
  destruct Hj as [J1 J2 J3 J4]. destruct (J1 _ _ He) as (Hpos & _). assert (journal_upto Pr (w_db w)) as Hj by done.
  eapply append_appended in H2; [|cbn; rewrite Hid, E1; exact He|cbn; congruence|done|cbn; by rewrite Hr].
  cbn in H2. rewrite Hid, Hpr, E1 in H2. rewrite H in H2. pose proof H2 as [A1 _ _ A4 _ A6 _ _ _ _].
  split; [by eapply journal_tombstoned; [exact Hj|exact He| | |exact H2]|].
  split; [by eapply appended_grows|done].
Qed.

Lemma archive_loop p project items : ∀ Pr w u w',
  NoDup (map fst items) → journal_upto Pr (w_db w) →
  (∀ id e, (id, e) ∈ items → ventries (w_db w) !! id = Some e ∧ ve_project_id e = project ∧ ve_deleted e = false) →
  for_each items (archive_one s p project) w = (Ok u, w') →
  journal_upto (λ i, Pr i ∨ i ∈ map fst items) (w_db w') ∧ history_grows (w_db w) (w_db w') ∧
  vprojects (w_db w') = vprojects (w_db w) ∧ secrets (w_db w') = secrets (w_db w) ∧
  (∀ i e, (i, e) ∈ items → ventries (w_db w') !! i = Some (set_entry (ve_revision e + 1) (ve_key_id e) true e)) ∧
  (∀ i, i ∉ map fst items → ventries (w_db w') !! i = ventries (w_db w) !! i).
Proof.
  induction items as [|[id e] items IH]; intros Pr w u w' Hnd Hj Hall H; simpl in H.
  { apply ret_Ok in H as [_ <-]. split; [|by split_and!; [reflexivity|..|intros ?? ?%elem_of_nil|]].
    eapply journal_weaken; [|exact Hj]. intros i Hi. by left; left. }
  apply bind_Ok in H as (u1 & w1 & H1 & H). apply NoDup_cons in Hnd as [Hni Hnd].
  destruct (Hall id e) as (He & Hp & Hd); [by left|].
  eapply archive_one_ok in H1 as (Hj1 & G1 & P1 & S1 & E1); [|done..].
  eapply IH in H as (Hj2 & G2 & P2 & S2 & E2 & O2); [|done|exact Hj1|].
  - split; [|split; [by etrans|]; split_and!; [congruence|congruence| |]].
    + eapply journal_weaken; [|exact Hj2]. intros i [[?| ->]|?]; left; [by left|right; by left|right; by right].
    + intros i ei [[= -> ->]|Hi]%elem_of_cons; [by rewrite O2, E1, lookup_insert_eq|by apply E2].
    + intros i [Hne Hi]%not_elem_of_cons. by rewrite O2, E1, lookup_insert_ne.
  - intros i ei Hi. destruct (Hall i ei) as (Hei & ? & ?); [by right|]. split; [|done]. rewrite E1, lookup_insert_ne; [done|].
    intros ->. apply Hni. apply list_elem_of_fmap. by exists (i, ei).
Qed.

Lemma ArchiveProject_Ok p project u w w' :
  journal_ok (w_db w) → ArchiveProject s p project w = (Ok u, w') →
  journal_ok (w_db w') ∧ history_grows (w_db w) (w_db w') ∧
  (∀ id e, ventries (w_db w') !! id = Some e → ve_project_id e = project → ve_deleted e = true) ∧
  (∀ id x, secrets (w_db w') !! id = Some x → sr_project_id x ≠ project).
Proof.
  intros Hj (w0 & w'' & E0 & H & ->)%vault_tx_Ok. rewrite <-E0 in *. clear E0 w w'. rename w0 into w, w'' into w'.
  apply bind_Ok in H as (u1 & w1 & H1 & H). apply bind_Ok in H as (u2 & w2 & H2 & H).
  apply bind_Ok in H as (u3 & w3 & ->%exec__Ok & H). apply bind_Ok in H as (u4 & w4 & H4 & H).
  apply bind_Ok in H as (items & w5 & [-> ->]%query_Ok & H). apply bind_Ok in H as (u6 & w6 & H6 & H).
  apply bind_Ok in H as (u7 & w7 & ->%exec__Ok & H). apply bind_Ok in H as (u8 & w8 & ->%exec__Ok & H).
  apply bind_Ok in H as (t & w9 & [-> ->]%now_Ok & H). apply bind_Ok in H as (u10 & w10 & ->%exec__Ok & H).
  apply keeps_event in H; [|done]. cbn in *.
  apply (keeps_permit s unchanged) in H1. unfold unchanged in H1.
  apply EnrollTx_Ok in H2 as (J2 & _ & En). rewrite H1 in J2, En. destruct (J2 Hj) as [Hj2 G2].
  assert (same_core (delete_project_api_keys project (w_db w2)) (w_db w4)) as Hc.
  { destruct (archive s) as [f|] eqn:Ea; [by eapply (archive_ok f Ea) in H4|by apply ret_Ok in H4 as [_ <-]]. }
  assert (secrets (w_db w4) = secrets (w_db w2) ∧ ventries (w_db w4) = ventries (w_db w2) ∧
          vprojects (w_db w4) = vprojects (w_db w2) ∧ db_vault (w_db w4) = db_vault (w_db w2)) as (S4 & E4 & P4 & V4).
  { destruct Hc as (_ & _ & Es & Ev). unfold secrets, ventries, vprojects. by rewrite Es, Ev. }
  assert (journaled (w_db w2) (w_db w4)) as J4
    by (etrans; [|by apply same_core_journaled]; by apply journaled_other).
  destruct (J4 Hj2) as [Hj4 G4].
  eapply archive_loop in H6 as (Hj6 & G6 & P6 & S6 & E6 & O6); [|apply NoDup_active|exact Hj4|].
  2:{ intros id e [He Hp]%elem_of_select. b2p. naive_solver. }
  change (w_db (ticked w4)) with (w_db w4) in *.
  assert (∀ id e, ventries (w_db w6) !! id = Some e → ve_project_id e = project → ve_deleted e = true) as Hdead.
  { intros id e He Hp. destruct (decide (id ∈ map fst (active_entries project (w_db w4)))) as [Hin|Hin].
    - apply list_elem_of_fmap in Hin as ([i e0] & -> & Hi). cbn in *. rewrite (E6 _ _ Hi) in He. by injection He as <-.
    - rewrite O6 in He by done. destruct (ve_deleted e) eqn:Hd; [done|]. destruct Hin. apply elem_of_active. by exists e. }
  set (db7 := delete_secrets project (w_db w6)) in *.
  assert (journal_ok db7) as Hj7.
  { assert (journal_upto (λ i, False ∨ i ∈ map fst (active_entries project (w_db w4))) db7) as Hj7.
    { eapply (journal_purged _ (λ _ x, bool_decide (sr_project_id x = project))); [exact Hj6| |done..].
      intros id x Hx Hsx. b2p. destruct (jo_secret _ _ Hj6 _ _ Hsx) as (e & He & Hp & _).
      { rewrite Hx, P6, P4. auto. }
      exists e. split; [done|]. eapply Hdead; [done|congruence]. }
    eapply journal_weaken; [|exact Hj7]. intros i [[]|Hi]. right. apply elem_of_active in Hi as (e & He & Hp & Hd).
    apply eq_None_not_Some. intros [x Hx]. unfold db7, delete_secrets, secrets in Hx. cbn in Hx.
    apply lookup_delete_where in Hx as [Hx Hpx]. b2p.
    change (secrets (w_db w6) !! i = Some x) in Hx. rewrite S6 in Hx.
    destruct (journal_live _ _ _ _ Hj4 He Hd) as (_ & r & y & _ & Hy & Hm & _). congruence. }
  set (db10 := upd_db_projects _ _) in H.
  assert (journaled db7 db10) as J10 by (by apply journaled_other). destruct (J10 Hj7) as [Hj10 _].
  split; [by rewrite <-H|].
  split; [do 2 (etrans; [eassumption|]); etrans; [exact G6|]; etrans; [|by apply same_core_history];
          by apply same_core_vault|].
  destruct H as (_ & _ & Es & Ev). split.
  - intros id e He. unfold ventries in He. rewrite Ev in He. exact (Hdead id e He).
  - intros id x Hx. unfold secrets in Hx. rewrite Es in Hx. change (secrets db7 !! id = Some x) in Hx.
    unfold db7, delete_secrets, secrets in Hx. cbn in Hx. apply lookup_delete_where in Hx as [_ Hx]. by b2p.
Qed.

End PutFacts.

(** *** Every operation of the service respects the journal *)

Section Operations.
Context `{P : Primitives} `{!PrimitivesOk P} (s : Service) `{!ServiceOk s}.

Lemma vault_tx_Err {A} p project (body : Tx A) e w w' : vault_tx p project body w = (Err e, w') → w_db w' = w_db w.
Proof. apply with_tx_Err. Qed.

Lemma keeps_vault_tx R `{!PreOrder R} {A} p project (body : Tx A) : ok_keeps R body → keeps R (vault_tx p project body).
Proof.
  intros Hb w [a|e] w' H; [|apply vault_tx_Err in H as ->; reflexivity].
  apply vault_tx_Ok in H as (w1 & w2 & E & H & ->). rewrite <-E. by eapply Hb.
Qed.

Lemma ok_keeps_core {A} (m : Tx A) : keeps same_core m → ok_keeps journaled m.
Proof. intros Hm w a w' H. by eapply same_core_journaled, Hm. Qed.

Lemma PutTx_journaled p r expected op : op ≠ "delete" → ok_keeps journaled (PutTx s p r expected op).
Proof. intros Hop w r' w' H Hj. pose proof (PutTx_ok s p r expected op r' w w' Hj Hop H) as R. split; apply R. Qed.
Lemma DeleteTx_journaled p project id expected : ok_keeps journaled (DeleteTx s p project id expected).
Proof. intros w r' w' H Hj. apply DeleteTx_ok in H as (e & _ & _ & _ & _ & R); [split; apply R|done..]. Qed.
Lemma EnrollTx_journaled p project : ok_keeps journaled (EnrollTx s p project).
Proof. intros w u w' H. by eapply EnrollTx_Ok in H as (? & _). Qed.

Lemma Put_journaled p r expected : keeps journaled (Put s p r expected).
Proof. apply keeps_vault_tx; [apply _|]. by apply PutTx_journaled. Qed.
Lemma Delete_journaled p project id expected : keeps journaled (Delete s p project id expected).
Proof. apply keeps_vault_tx; [apply _|]. by apply DeleteTx_journaled. Qed.
Lemma Enroll_journaled p project : keeps journaled (Enroll s p project).
Proof. apply keeps_vault_tx; [apply _|]. by apply EnrollTx_journaled. Qed.
Lemma Restore_journaled p project id version expected : keeps journaled (Restore s p project id version expected).
Proof.
  intros w [r|e] w' H; [|apply vault_tx_Err in H as ->; reflexivity]. intros Hj.
  apply Restore_ok in H as (e & key & v & _ & _ & _ & _ & _ & _ & R & _); [split; apply R|done..].
Qed.
Lemma Rotate_journaled p project : keeps journaled (Rotate s p project).
Proof.
  intros w [r|e] w' H; [|apply vault_tx_Err in H as ->; reflexivity]. intros Hj.
  eapply Rotate_ok in H as (J & _); auto.
Qed.
Lemma ArchiveProject_journaled p project : keeps journaled (ArchiveProject s p project).
Proof.
  intros w [r|e] w' H; [|apply vault_tx_Err in H as ->; reflexivity]. intros Hj.
  eapply ArchiveProject_Ok in H as (? & ? & _); done.
Qed.

Lemma Read_core p project id version : keeps same_core (Read s p project id version).
Proof.
  apply keeps_vault_tx; [apply _|]. apply ok_keeps_keeps, keeps_bind; [apply _|apply keeps_load, _|intros r].
  destruct (v_Deleted r); [apply keeps_fail, _|]. apply keeps_bind; [apply _|apply keeps_permit, _; apply _|intros _].
  apply keeps_bind; [apply _|by apply keeps_event|intros _].
  apply keeps_bind; [apply _|apply keeps_readVersion, _|intros plain]. apply keeps_ret, _.
Qed.
Lemma History_core p project id : keeps same_core (History s p project id).
Proof.
  apply keeps_vault_tx; [apply _|]. apply ok_keeps_keeps, keeps_bind; [apply _|apply keeps_load, _|intros r].
  apply keeps_bind; [apply _|apply keeps_permit, _; apply _|intros _]. apply keeps_query, _.
Qed.
End Operations.

(** *** The audit trail of an operation *)

(** Only the audit log and the outbox move, and the log only grows. *)
Definition trail (db db' : DB) : Prop := same_core db db' ∧ db_audit_log db ⊆ db_audit_log db'.
#[export] Instance trail_preorder : PreOrder trail.
Proof. split; [by intros db; split|]. intros d1 d2 d3 [H1 S1] [H2 S2]. split; by etrans. Qed.

Lemma recorded_trail u pr a e d db1 db2 db3 db4 :
  trail db1 db2 → recorded u pr a e d db2 db3 → trail db3 db4 → recorded u pr a e d db1 db4.
Proof.
  intros [_ H1] (id & row & Hno & Hr & Hrest) [_ H2]. exists id, row. split; [|split; [by eapply lookup_weaken|done]].
  by eapply lookup_weaken_None.
Qed.

Section Trail.
Context `{P : Primitives} (s : Service) `{!ServiceOk s}.

Lemma event_trail p r a : keeps trail (event s p r a).
Proof.
  unfold event, eventWithMetadataRevision. destruct (bool_decide _); [apply keeps_fail, _|].
  destruct (audit s) as [f|] eqn:E; [|apply keeps_fail, _].
  apply keeps_bind; [apply _| |intros _].
  - eapply keeps_weaken; [|apply (audit_keeps (AuditorOk := auditor_ok f E))]. by intros x y (? & _ & ?).
  - apply keeps_bind; [apply _|apply keeps_uuid_New, _|intros id]. apply keeps_EnqueueTx; [apply _|].
    intros db x t _ _ _. by repeat split.
Qed.

(** The audit row of a disclosure. *)
Definition disclosed (p : Principal) (r : VRecord) (version : Z) : DB → DB → Prop :=
  recorded (Some (event_actor p)) (Some (v_ProjectID r)) "secret.read" (v_Environment r)
    (mk_obj [("secret_id", JStr (uuid_String (v_ID r))); ("revision", JInt version); ("key", JStr (v_Key r))]).
End Trail.

(** *** Frames

    A relation that only looks at tables the journal operations never write
    holds across them. *)

Class Frame (R : DB → DB → Prop) : Prop := {
  frame_preorder :: PreOrder R;
  frame_core db db' : same_core db db' → R db db';
  frame_vault g db : R db (upd_db_vault g db);
  frame_live g db : R db (upd_db_secrets (upd_t_secrets g) db);
  frame_snapshots g db : R db (upd_db_secrets (upd_t_secret_snapshots g) db);
}.

Definition same_projects (db db' : DB) : Prop := db_projects db' = db_projects db.
#[export] Instance same_projects_frame : Frame same_projects.
Proof.
  split; try done; [|by intros db db' (_ & ? & _)]. split; [done|]. unfold same_projects. intros ???. congruence.
Qed.
Lemma same_core_projects db db' : same_core db db' → same_projects db db'.
Proof. apply frame_core. Qed.

Definition same_promotions (db db' : DB) : Prop := promotions db' = promotions db.
#[export] Instance same_promotions_frame : Frame same_promotions.
Proof.
  split; try done; [|intros db db' (_ & _ & H & _); unfold same_promotions, promotions; by rewrite H].
  split; [done|]. unfold same_promotions. intros ???. congruence.
Qed.

Section Frames.
Context `{P : Primitives} (s : Service) `{!ServiceOk s} (R : DB → DB → Prop) `{!Frame R}.

Lemma event_frame p r a : keeps R (event s p r a).
Proof. by eapply keeps_weaken; [apply frame_core|apply keeps_event]. Qed.

Lemma append_frame p r key c n op : keeps R (append p r key c n op).
Proof.
  unfold append. apply keeps_bind; [apply _|apply keeps_get, _|intros t].
  apply keeps_bind; [apply _| |intros _]; (apply keeps_exec; [apply _|]); intros db db' H.
  - unfold insert_revision in H. inv_write H. subst. apply frame_vault.
  - unfold update_entry in H. repeat case_match; simplify_eq; apply frame_vault || reflexivity.
Qed.

Lemma put_live_frame r key c n expected : keeps R (put_live r key c n expected).
Proof.
  unfold put_live. apply keeps_bind; [apply _|apply keeps_get, _|intros t].
  destruct (expected =? 0)%Z; [|apply keeps_exec_; [apply _|intros db; apply frame_live]].
  apply keeps_bind; [apply _| |intros _]; (apply keeps_exec; [apply _|]); intros db db' H;
    [unfold insert_entry in H|unfold insert_secret in H]; inv_write H; subst; apply frame_vault || apply frame_live.
Qed.

Lemma put_target_unchanged r expected : keeps unchanged (put_target r expected).
Proof.
  unfold put_target. destruct (bool_decide _).
  - apply keeps_bind; [apply _|apply keeps_uuid_New, _|intros id]. apply keeps_bind; [apply _|apply keeps_check, _|intros _].
    apply keeps_bind; [apply _|apply keeps_on_err, keeps_query_row, _|intros env]. apply keeps_ret, _.
  - apply keeps_bind; [apply _|apply keeps_on_err, keeps_load, _|intros cur].
    destruct (_ || _); [apply keeps_fail, _|apply keeps_ret, _].
Qed.

Lemma PutTx_frame p r expected op : keeps R (PutTx s p r expected op).
Proof.
  unfold PutTx. destruct (_ || _); [apply keeps_fail, _|].
  apply keeps_bind; [apply _|apply keeps_unchanged; [apply _|apply put_target_unchanged]|intros t].
  apply keeps_bind; [apply _|apply keeps_permit, _; apply _|intros _].
  apply keeps_bind; [apply _|apply event_frame|intros _].
  apply keeps_bind; [apply _|apply keeps_currentKey, _|intros kd].
  apply keeps_bind; [apply _|apply keeps_encrypt, _|intros cn].
  apply keeps_bind; [apply _|apply put_live_frame|intros _].
  apply keeps_bind; [apply _|apply append_frame|intros _]. apply keeps_load, _.
Qed.

Lemma DeleteTx_frame p project id expected : keeps R (DeleteTx s p project id expected).
Proof.
  unfold DeleteTx. apply keeps_bind; [apply _|apply keeps_load, _|intros r].
  destruct (_ || _); [apply keeps_fail, _|].
  apply keeps_bind; [apply _|apply keeps_permit, _; apply _|intros _].
  apply keeps_bind; [apply _|apply event_frame|intros _].
  apply keeps_bind; [apply _|apply keeps_query_row, _|intros key].
  apply keeps_bind; [apply _|apply append_frame|intros _].
  apply keeps_exec_; [apply _|intros db; apply frame_live].
Qed.
End Frames.

(** ** A concrete vault, for evaluation *)

Import Toy.
Definition demo_master : string := "0123456789abcdef0123456789abcdef".
Definition demo_dek : string := "fedcba98765432100123456789abcdef".
Definition demo_nonce : string := "nonce-000000".
Definition demo_crypto : Crypto.Service := Crypto.mkService demo_master.
Definition demo_vault : Service := server_vault demo_crypto (mkAuditRepository "chain-key").
(** A personal project of user 1 with one stored secret in each of two
    environments, not enrolled yet. *)
Definition demo_secret (env : uuid) (key v : string) : secret_row :=
  mkSecret 20 env key (aes_gcm_seal demo_dek demo_nonce v) demo_nonce 5 5.
Definition demo_project_db : DB :=
  mkDB
    (mkIdentityDB {[1%N]} {[30%N := mkSession 1 false 0 (Hour)]} ∅ ∅ ∅ empty_oauth)
    (mkProjectDB {[20%N := mkProject "shop" 1 None (aes_gcm_seal demo_master demo_nonce demo_dek) demo_nonce None]}
       (<[60%N := mkEnvironment 20 "alpha"]> {[61%N := mkEnvironment 20 "uat"]}) ∅ ∅ ∅ ∅)
    (mkSecretDB (<[70%N := demo_secret 60 "DB_URL" "v1"]> {[71%N := demo_secret 61 "DB_URL" "u1"]}) ∅ ∅)
    (mkVaultDB ∅ ∅ ∅ ∅ ∅ ∅ ∅ ∅ ∅) ∅ ∅ ("", 0%Z) empty_tools empty_accounts.
Definition demo_owner : Principal := human 1 30.
Definition demo_unenrolled : World := world_of demo_project_db (Minute).
Definition demo_enrolled : World := (Enroll demo_vault demo_owner 20 demo_unenrolled).2.
Definition demo_record (id : uuid) (env key value : string) : VRecord :=
  mkVRecord id 20 env key 0 value false 0 0 0.
Definition demo_updated : World := (Put demo_vault demo_owner (demo_record 70 "alpha" "" "v2") 1 demo_enrolled).2.

Lemma demo_unenrolled_journal : journal_ok (w_db demo_unenrolled).
Proof.
  split.
  - intros id e. unfold ventries. cbn. by rewrite lookup_empty.
  - intros id x Hx [k Hk]. unfold vprojects in Hk. cbn in Hk. by rewrite lookup_empty in Hk.
  - intros id rev r. unfold vrevisions. cbn. by rewrite lookup_empty.
  - intros p k. unfold vprojects. cbn. by rewrite lookup_empty.
Qed.
Lemma demo_enrolled_journal : journal_ok (w_db demo_enrolled).
Proof.
  unfold demo_enrolled. destruct (Enroll _ _ _ _) as [r w] eqn:E.
  apply (Enroll_journaled demo_vault) in E. exact (proj1 (E demo_unenrolled_journal)).
Qed.
Lemma demo_updated_journal : journal_ok (w_db demo_updated).
Proof.
  unfold demo_updated. destruct (Put _ _ _ _ _) as [r w] eqn:E.
  apply (Put_journaled demo_vault) in E. exact (proj1 (E demo_enrolled_journal)).
Qed.

(** Runs an operation on a concrete world. *)
Lemma runs {A} (m : Tx A) w a : (m w).1 = Ok a → m w = (Ok a, (m w).2).
Proof. destruct (m w). by intros [= ->]. Qed.
Definition result_map {A B} (f : A → B) (r : result A) : result B := match r with Ok a => Ok (f a) | Err e => Err e end.
Definition is_ok {A} (r : result A) : bool := if r is Ok _ then true else false.
Lemma runs_ok {A} (m : Tx A) w : is_ok (m w).1 = true → ∃ a, m w = (Ok a, (m w).2).
Proof. destruct (m w) as [[a|e] w']; [by exists a|done]. Qed.

(** ** Properties *)



(** C23: optimistic concurrency.  A put, restore or delete of an existing secret
    whose expected revision is not the current one, or whose secret is deleted,
    fails and changes nothing, whatever else happens. *)
Theorem stale_expectation_fails `{P : Primitives} s `{!ServiceOk s} p r project id version expected e w :
  v_ID r = id → v_ProjectID r = project → id ≠ uuid_Nil →
  ventries (w_db w) !! id = Some e → ve_deleted e = true ∨ ve_revision e ≠ expected →
  (∃ err w', Put s p r expected w = (Err err, w') ∧ w_db w' = w_db w) ∧
  (∃ err w', Restore s p project id version expected w = (Err err, w') ∧ w_db w' = w_db w) ∧
  (∃ err w', Delete s p project id expected w = (Err err, w') ∧ w_db w' = w_db w).
Proof.
  intros <- <- Hn He Hst.
  assert (∀ rec w1 w2, load (v_ProjectID r) (v_ID r) w1 = (Ok rec, w2) → w_db w1 = w_db w →
    v_Deleted rec || negb (v_Revision rec =? expected)%Z = true) as Hload.
  { intros rec w1 w2 [Hl _]%load_Ok E. apply load_row_Some in Hl as (e1 & (He1 & _ & _ & _ & _ & -> & -> & _) & _).
    rewrite E, He in He1. injection He1 as <-. b2p. destruct Hst; [by left|right]. b2p. done. }
  assert (∀ {A} (body : Tx A), (∀ w1 a w2, w_db w1 = w_db w → body w1 ≠ (Ok a, w2)) →
    ∃ err w', vault_tx p (v_ProjectID r) body w = (Err err, w') ∧ w_db w' = w_db w) as Htx.
  { intros A body Hb. destruct (vault_tx p (v_ProjectID r) body w) as [[a|err] w'] eqn:E.
    - apply vault_tx_Ok in E as (w1 & w2 & E1 & E2 & _). by destruct (Hb _ _ _ E1 E2).
    - exists err, w'. split; [done|]. by apply vault_tx_Err in E. }
  split; [|split]; apply Htx; intros w1 a w2 E H.
  - unfold PutTx in H. destruct (_ || _); [done|]. apply bind_Ok in H as (t & w3 & H & _).
    unfold put_target in H. rewrite bool_decide_eq_false_2 in H by done.
    apply bind_Ok in H as (cur & w4 & H1 & H). apply on_err_Ok, Hload in H1; [|done]. by rewrite H1 in H.
  - apply bind_Ok in H as (cur & w4 & H1 & H). apply Hload in H1; [|done]. by rewrite H1 in H.
  - unfold DeleteTx in H. apply bind_Ok in H as (cur & w4 & H1 & H). apply Hload in H1; [|done]. by rewrite H1 in H.
Qed.

Lemma stale_expectation_fails_witness :
  ∃ err w', Put demo_vault demo_owner (demo_record 70 "alpha" "" "v3") 1 demo_updated = (Err err, w') ∧
    w_db w' = w_db demo_updated.
Proof.
  assert (∃ e, ventries (w_db demo_updated) !! 70%N = Some e ∧ ve_revision e = 2%Z) as (e & He & Hr)
    by (eexists; split; [vm_compute; reflexivity|reflexivity]).
  refine (proj1 (stale_expectation_fails demo_vault demo_owner (demo_record 70 "alpha" "" "v3") 20 70 1 1 e demo_updated
            eq_refl eq_refl _ He _)); [done|right; by rewrite Hr].
Defined.

(** Restoring reinstates a value.  After a successful restore the secret's
    current revision is a new one, labelled [restore], that opens to exactly the
    plaintext of the requested earlier revision; the record returned describes
    it, and the older revisions are untouched. *)
Theorem Restore_reinstates `{P : Primitives, !PrimitivesOk P} s `{!ServiceOk s} p project id version expected r' w w' :
  journal_ok (w_db w) → Restore s p project id version expected w = (Ok r', w') →
  v_Revision r' = (expected + 1)%Z ∧ v_Deleted r' = false ∧
  (∃ v, holds_value s project id version v (w_db w) ∧ holds_value s project id (v_Revision r') v (w_db w')) ∧
  (∃ r, vrevisions (w_db w') = <[(id, v_Revision r') := r]> (vrevisions (w_db w)) ∧ vr_operation r = "restore") ∧
  journal_ok (w_db w').
Proof.
  intros Hj H. apply Restore_ok in H as (e & key & v & He & Hp & Hrev & Hd & Hver & Hh & R & Hl); [|done..].
  destruct R as [R1 R2 R3 R4 R5 R6 R7 R8]. destruct Hl as (_ & _ & _ & _ & _ & Hr' & Hd' & _). cbn in Hr', Hd'.
  rewrite Hr', Hd', <-Hrev. split_and!; try done. exists v. done.
Qed.

Lemma Restore_reinstates_witness : ∃ r' w',
  Restore demo_vault demo_owner 20 70 1 2 demo_updated = (Ok r', w') ∧
  ∃ v, holds_value demo_vault 20 70 1 v (w_db demo_updated) ∧ holds_value demo_vault 20 70 (v_Revision r') v (w_db w').
Proof.
  destruct (runs_ok (Restore demo_vault demo_owner 20 70 1 2) demo_updated) as [r' H]; [vm_compute; reflexivity|].
  eexists r', _. split; [exact H|].
  exact (proj1 (proj2 (proj2 (Restore_reinstates demo_vault _ _ _ _ _ _ _ _ demo_updated_journal H)))).
Defined.

(** C22: rotation loses nothing.  A successful rotation gives the project a data
    key that did not exist before and moves every undeleted secret to it: each
    gets one more revision, sealed under the new key, that opens to the same
    plaintext; entries of other projects and tombstones do not move, old keys and
    revisions stay, and the count returned is the number of secrets moved. *)
Theorem Rotate_preserves_values `{P : Primitives, !PrimitivesOk P} s `{!ServiceOk s} p project n w w' :
  journal_ok (w_db w) → Rotate s p project w = (Ok n, w') →
  n = length (active_entries project (w_db w)) ∧
  (∃ key, vkeys (w_db w) !! key = None ∧ vprojects (w_db w') !! project = Some key ∧
    (∀ id e, ventries (w_db w) !! id = Some e → ve_project_id e = project → ve_deleted e = false →
       rotated s project key id e (w_db w) (w_db w')) ∧
    (∀ id e, ventries (w_db w) !! id = Some e → ¬ (ve_project_id e = project ∧ ve_deleted e = false) →
       ventries (w_db w') !! id = Some e)) ∧
  journal_ok (w_db w') ∧ history_grows (w_db w) (w_db w').
Proof.
  intros Hj H. apply Rotate_ok in H as (J & Hn & Hk); [|done..]. destruct (J Hj). done.
Qed.

Lemma Rotate_preserves_values_witness : ∃ w',
  Rotate demo_vault demo_owner 20 demo_updated = (Ok 2, w') ∧ journal_ok (w_db w').
Proof.
  pose proof (runs (Rotate demo_vault demo_owner 20) demo_updated 2) as H.
  assert ((Rotate demo_vault demo_owner 20 demo_updated).1 = Ok 2) as E by (vm_compute; reflexivity).
  specialize (H E). eexists. split; [exact H|].
  exact (proj1 (proj2 (proj2 (Rotate_preserves_values demo_vault _ _ _ _ _ demo_updated_journal H)))).
Defined.

(** No disclosure without a trace.  A read that returns a value has found
    an undeleted entry of the project, returns exactly the value of the requested
    revision (the current one for version 0), has put a [secret.read] row naming
    the actor, the secret and the revision into the audit log, and has changed
    nothing but the audit log and the outbox. *)
Theorem Read_is_recorded `{P : Primitives, !PrimitivesOk P} s `{!ServiceOk s} p project id version r' w w' :
  Read s p project id version w = (Ok r', w') →
  (∃ e, ventries (w_db w) !! id = Some e ∧ ve_project_id e = project ∧ ve_deleted e = false ∧
     v_Revision r' = if (version =? 0)%Z then ve_revision e else version) ∧
  holds_value s project id (v_Revision r') (v_Value r') (w_db w) ∧
  disclosed p r' (v_Revision r') (w_db w) (w_db w') ∧ event_actor p ≠ uuid_Nil ∧ trail (w_db w) (w_db w').
Proof.
  intros (w0 & w1 & E & H & ->)%vault_tx_Ok. rewrite <-E in *. clear E w w'.
  apply bind_Ok in H as (r & w2 & [Hl E2]%load_Ok & H). apply load_row_Some in Hl as (e & Hl & _).
  destruct (v_Deleted r) eqn:Hd; [done|]. apply bind_Ok in H as (u3 & w3 & H3 & H).
  apply bind_Ok in H as (u4 & w4 & H4 & H). apply bind_Ok in H as (plain & w5 & [Hh E5]%readVersion_Ok & H).
  apply ret_Ok in H as [<- <-]. cbn. apply (keeps_permit s unchanged) in H3.
  pose proof (event_trail s _ _ _ _ _ _ H4) as Ht. apply event_recorded in H4 as [Ha Hrec]; [|done].
  assert (w_db w3 = w_db w0) as E3 by (unfold unchanged in H3; congruence). rewrite E3 in *. rewrite E5.
  destruct Hl as (He & Hp & Hid & Hpr & _ & Hr & Hde & _). rewrite Hid, Hpr in Hh.
  split; [exists e; split_and!; try done; [congruence|by rewrite Hr]|].
  split; [by eapply holds_value_core; [apply Ht|]|]. done.
Qed.

Lemma Read_is_recorded_witness : ∃ r' w',
  Read demo_vault demo_owner 20 70 1 demo_updated = (Ok r', w') ∧ v_Value r' = "v1" ∧
  disclosed demo_owner r' (v_Revision r') (w_db demo_updated) (w_db w').
Proof.
  destruct (runs_ok (Read demo_vault demo_owner 20 70 1) demo_updated) as [r' H]; [vm_compute; reflexivity|].
  eexists r', _. split; [exact H|].
  assert (result_map v_Value (Read demo_vault demo_owner 20 70 1 demo_updated).1 = Ok "v1") as E by (vm_compute; reflexivity).
  rewrite H in E. split; [by injection E|].
  exact (proj1 (proj2 (proj2 (Read_is_recorded demo_vault _ _ _ _ _ _ _ H)))).
Defined.

(** Archiving leaves nothing live.  After a project is archived every one of
    its journal entries ends in a tombstone and no row of the live table belongs
    to it, while the whole history and all key material are still there. *)
Theorem ArchiveProject_leaves_nothing_live `{P : Primitives, !PrimitivesOk P} s `{!ServiceOk s} p project u w w' :
  journal_ok (w_db w) → ArchiveProject s p project w = (Ok u, w') →
  (∀ id e, ventries (w_db w') !! id = Some e → ve_project_id e = project → ve_deleted e = true) ∧
  (∀ id x, secrets (w_db w') !! id = Some x → sr_project_id x ≠ project) ∧
  journal_ok (w_db w') ∧ history_grows (w_db w) (w_db w').
Proof. intros Hj H. apply ArchiveProject_Ok in H as (? & ? & ? & ?); done. Qed.

Lemma ArchiveProject_leaves_nothing_live_witness : ∃ w',
  ArchiveProject demo_vault demo_owner 20 demo_updated = (Ok (), w') ∧
  ∀ id x, secrets (w_db w') !! id = Some x → sr_project_id x ≠ 20%N.
Proof.
  pose proof (runs (ArchiveProject demo_vault demo_owner 20) demo_updated ()) as H.
  assert ((ArchiveProject demo_vault demo_owner 20 demo_updated).1 = Ok ()) as E by (vm_compute; reflexivity).
  specialize (H E). eexists. split; [exact H|].
  exact (proj1 (proj2 (ArchiveProject_leaves_nothing_live demo_vault _ _ _ _ _ demo_updated_journal H))).
Defined.
