(* ===== verification/VaultCollections.v ===== *)
(** * Reading and writing many secrets ([internal/vault/collections.go])

    Listing and batch reading filter denied keys before anything is decrypted and
    keep the answer under four megabytes; imports and templates write all their
    keys in one transaction. *)
From S2P Require Import Prelude GoStrings GoEncoding Policy Schema Database Crypto Jobs Authority AuditLog VaultStore Vault.

(** ** Definitions *)

(** [MaxReadBytes] and [MaxBatchKeys]. *)
Definition MaxReadBytes : Z := 4 * 2 ^ 20.
Definition MaxBatchKeys : nat := 100.

(** [json.Marshal] of a record. *)
Definition record_json (r : VRecord) : json :=
  JObj ([("id", JStr (uuid_String (v_ID r))); ("project_id", JStr (uuid_String (v_ProjectID r)));
         ("environment", JStr (v_Environment r)); ("key", JStr (v_Key r)); ("revision", JInt (v_Revision r))]
        ++ (if bool_decide (v_Value r = "") then [] else [("value", JStr (v_Value r))])
        ++ [("deleted", JBool (v_Deleted r)); ("environment_id", JStr (uuid_String (v_EnvironmentID r)));
            ("created_at", JStr (time_RFC3339Nano (v_CreatedAt r))); ("updated_at", JStr (time_RFC3339Nano (v_UpdatedAt r)))]).

Record BatchResult := mkBatchResult { br_Secrets : list VRecord; br_MissingKeys : list string }.
Definition batch_json (b : BatchResult) : json :=
  JObj [("secrets", JList (map record_json (br_Secrets b))); ("missing_keys", JList (map JStr (br_MissingKeys b)))].

Record WriteResult := mkWriteResult {
  wr_Created : list string;
  wr_Updated : list string;
  wr_Skipped : list string;
  wr_Records : list VRecord;
}.
Definition empty_write : WriteResult := mkWriteResult [] [] [] [].

(** The first occurrences, in order. *)
Fixpoint ordered_keys (seen keys : list string) : list string :=
  match keys with
  | [] => []
  | key :: keys' =>
      if bool_decide (key ∈ seen) then ordered_keys seen keys' else key :: ordered_keys (key :: seen) keys'
  end.

(** [sort.Strings] of a map's keys. *)
Definition sorted_keys (values : gmap string string) : list string :=
  merge_sort String.le (map fst (map_to_list values)).
Definition total_size (values : gmap string string) : Z :=
  foldr (λ kv acc, Z.of_nat (String.length kv.1) + Z.of_nat (String.length kv.2) + acc)%Z 0%Z (map_to_list values).
(** The limits on a set of values to write. *)
Definition values_ok (values : gmap string string) : bool :=
  negb (size values =? 0) && (size values <=? 1000)
  && forallb (λ kv, ValidKey kv.1 && value_fits kv.2) (map_to_list values)
  && (total_size values <=? 2 ^ 20)%Z.

Section Collections.
Context `{P : Primitives} (s : Service).

Definition collectionState (project : uuid) (environment : string) : Tx unit :=
  enrolled ← query (λ db, bool_decide (is_Some (vprojects db !! project)));
  if negb enrolled then fail ErrNotEnrolled else
  _ ← no_rows_is ErrNotFound (query_row (find_env project environment));
  mret ().

Definition collectionPermit (p : Principal) (project : uuid) (environment : string) : Tx unit :=
  match authorize s, audit s with
  | Some auth, Some _ =>
      d ← auth p ReadValue (mkResource uuid_Nil project environment "secret_collection" uuid_Nil 0 "");
      check (d_Allowed d) ErrDenied
  | _, _ => fail ErrDenied
  end.

Definition Metadata (p : Principal) (project id : uuid) (action : Action) : Tx VRecord :=
  vault_tx p project (
    r ← load project id;
    if v_Deleted r then fail ErrNotFound else
    _ ← permit s p action r;
    mret r).

Definition readTx (p : Principal) (r : VRecord) : Tx VRecord :=
  _ ← permit s p ReadValue r;
  _ ← event s p r "secret.read";
  plain ← readVersion s r (v_Revision r);
  mret (with_value plain r).

(** The direct call of [s.authorize] in the two loops below. *)
Definition may_read (p : Principal) (project : uuid) (r : VRecord) : Tx bool :=
  match authorize s with
  | Some auth =>
      d ← auth p ReadValue (mkResource uuid_Nil project (v_Environment r) "secret" (v_ID r) (v_Revision r) (v_Key r));
      mret (d_Allowed d)
  | None => fail (Errorf "runtime error: nil pointer dereference")
  end.

(** One record of a listing: skipped when denied, counted when read. *)
Definition read_listed (p : Principal) (project id : uuid) (size : Z) : Tx (option (VRecord * Z)) :=
  r ← load project id;
  allowed ← may_read p project r;
  if negb allowed then mret None else
  r ← readTx p r;
  let size := (size + Z.of_nat (String.length (Marshal (record_json r))) + 1)%Z in
  if (MaxReadBytes <? size)%Z then fail ErrInvalid else mret (Some (r, size)).

Definition List_ (p : Principal) (project : uuid) (environment : string) : Tx (list VRecord) :=
  vault_tx p project (
    _ ← collectionPermit p project environment;
    _ ← collectionState project environment;
    ids ← query (active_ids project environment);
    acc ← for_fold ids ([], 0%Z) (λ acc id,
            o ← read_listed p project id acc.2;
            mret (match o with Some (r, size) => (acc.1 ++ [r], size) | None => acc end));
    mret acc.1).

Definition batch_step (p : Principal) (project : uuid) (environment : string) (acc : BatchResult * Z) (key : string)
  : Tx (BatchResult * Z) :=
  let missing := (mkBatchResult (br_Secrets acc.1) (br_MissingKeys acc.1 ++ [key]), acc.2) in
  found ← query (active_named project environment key);
  match found with
  | None => mret missing
  | Some id =>
      o ← read_listed p project id acc.2;
      mret (match o with
            | Some (r, size) => (mkBatchResult (br_Secrets acc.1 ++ [r]) (br_MissingKeys acc.1), size)
            | None => missing
            end)
  end.

Definition BatchRead (p : Principal) (project : uuid) (environment : string) (keys : list string) : Tx BatchResult :=
  if (length keys =? 0) || (MaxBatchKeys <? length keys) || negb (forallb ValidKey keys)
  then fail ErrInvalid else
  vault_tx p project (
    _ ← collectionPermit p project environment;
    _ ← collectionState project environment;
    acc ← for_fold (ordered_keys [] keys) (mkBatchResult [] [], 0%Z) (batch_step p project environment);
    if (MaxReadBytes <? Z.of_nat (String.length (Marshal (batch_json acc.1))))%Z then fail ErrInvalid else mret acc.1).

Definition UpdateCurrent (p : Principal) (project id : uuid) (value : string) (expected : option Z) : Tx VRecord :=
  vault_tx p project (
    r ← load project id;
    if v_Deleted r then fail ErrNotFound else
    PutTx s p (with_value value r) (default (v_Revision r) expected) "").

Definition DeleteCurrent (p : Principal) (project id : uuid) (expected : option Z) : Tx unit :=
  vault_tx p project (
    r ← load project id;
    if v_Deleted r then fail ErrNotFound else
    DeleteTx s p project id (default (v_Revision r) expected)).

Definition put_key (p : Principal) (project : uuid) (environment : string) (env : uuid) (values : gmap string string)
    (overwrite : bool) (operation : string) (acc : WriteResult) (key : string) : Tx WriteResult :=
  let r := with_value (default "" (values !! key))
             (mkVRecord uuid_Nil project environment key 0 "" false uuid_Nil 0 0) in
  found ← query (active_in_env project env key);
  match found with
  | None =>
      written ← PutTx s p r 0 operation;
      mret (mkWriteResult (wr_Created acc ++ [key]) (wr_Updated acc) (wr_Skipped acc) (wr_Records acc ++ [written]))
  | Some id =>
      existing ← load project id;
      _ ← permit s p WriteSecret existing;
      if negb overwrite then
        mret (mkWriteResult (wr_Created acc) (wr_Updated acc) (wr_Skipped acc ++ [key]) (wr_Records acc))
      else
        let expected := v_Revision existing in
        written ← PutTx s p (with_id id r) expected operation;
        mret (if (expected =? 0)%Z
              then mkWriteResult (wr_Created acc ++ [key]) (wr_Updated acc) (wr_Skipped acc) (wr_Records acc ++ [written])
              else mkWriteResult (wr_Created acc) (wr_Updated acc ++ [key]) (wr_Skipped acc) (wr_Records acc ++ [written]))
  end.

Definition putManyTx (p : Principal) (project : uuid) (environment : string) (values : gmap string string)
    (overwrite : bool) (operation : string) (keys : list string) : Tx WriteResult :=
  env ← on_err ErrNotFound (query_row (find_env project environment));
  for_fold keys empty_write (put_key p project environment env values overwrite operation).

Definition PutMany (p : Principal) (project : uuid) (environment : string) (values : gmap string string)
    (overwrite : bool) (operation : string) : Tx WriteResult :=
  if negb (values_ok values) then fail ErrInvalid else
  vault_tx p project (putManyTx p project environment values overwrite operation (sorted_keys values)).

(** [source] reads a stored template inside the transaction. *)
Definition PutManyFromSource (p : Principal) (project : uuid) (environment : string)
    (sourceOrganizations : list uuid) (source : Tx (gmap string string)) : Tx WriteResult :=
  with_tx (
    _ ← exec_ (λ db, db);
    _ ← on_err ErrDenied (LockProjectOrganizations DBTypePostgres p project sourceOrganizations);
    values ← source;
    if negb (values_ok values) then fail ErrInvalid else
    putManyTx p project environment values true "template" (sorted_keys values)).

Definition CurrentTx (project : uuid) (environment key : string) : Tx VRecord :=
  id ← no_rows_is ErrNotFound (query_row (active_named project environment key));
  load project id.

(** [INSERT ... SELECT ... ON CONFLICT(snapshot_id) DO NOTHING]. *)
Definition BindSnapshotKeyTx (project snapshot : uuid) : Tx unit :=
  exec (λ db,
    match vprojects db !! project with
    | Some key => if snapshot_owned snapshot project db && bool_decide (vsnapkeys db !! snapshot = None)
                  then insert_snapshot_key snapshot project key db else Some db
    | None => Some db
    end).
End Collections.

(** *** What a bulk write promises *)

(** A record that a write left current under [key], holding [value]. *)
Definition key_written `{P : Primitives} (s : Service) (project env : uuid) (values : gmap string string) (db : DB)
    (r : VRecord) : Prop :=
  ∃ e, ventries db !! v_ID r = Some e ∧ ve_project_id e = project ∧ ve_environment_id e = env ∧
    ve_secret_key e = v_Key r ∧ ve_revision e = v_Revision r ∧ ve_deleted e = false ∧
    holds_value s project (v_ID r) (v_Revision r) (default "" (values !! v_Key r)) db.

(** Every key is reported once; created and updated keys carry a record. *)
Record write_report (overwrite : bool) (keys : list string) (res : WriteResult) : Prop := {
  wr_partition : wr_Created res ++ wr_Updated res ++ wr_Skipped res ≡ₚ keys;
  wr_recorded : map v_Key (wr_Records res) ≡ₚ wr_Created res ++ wr_Updated res;
  wr_overwrite : overwrite = true → wr_Skipped res = [];
}.

(** ** Lemmas *)

Section Facts.
Context `{P : Primitives} `{!PrimitivesOk P} (s : Service) `{!ServiceOk s}.

Lemma active_in_env_Some project env key db id :
  active_in_env project env key db = Some id →
  ∃ e, ventries db !! id = Some e ∧ ve_project_id e = project ∧ ve_environment_id e = env ∧ ve_secret_key e = key ∧
    ve_deleted e = false.
Proof.
  unfold active_in_env. destruct (head _) as [[i e]|] eqn:Hh; [|done]. intros [= <-].
  apply head_Some_elem_of, elem_of_select in Hh as [He Hp]. exists e. b2p. naive_solver.
Qed.

Lemma active_named_Some project environment key db id :
  active_named project environment key db = Some id →
  ∃ e, ventries db !! id = Some e ∧ in_environment project environment db e = true ∧ ve_secret_key e = key.
Proof.
  unfold active_named. destruct (head _) as [[i e]|] eqn:Hh; [|done]. intros [= <-].
  apply head_Some_elem_of, elem_of_select in Hh as [He Hp]. exists e. b2p. naive_solver.
Qed.

(** One more written key leaves the earlier ones as they were. *)
Lemma key_written_grows project env values db db' r r' :
  key_written s project env values db r → history_grows db db' →
  (∀ id, id ≠ v_ID r' → ventries db' !! id = ventries db !! id) →
  (∃ e', ventries db' !! v_ID r' = Some e' ∧ ve_secret_key e' = v_Key r') → v_Key r ≠ v_Key r' →
  key_written s project env values db' r.
Proof.
  intros (e & He & Hp & Hv & Hk & Hr & Hd & Hh) Hg Hsame (e' & He' & Hk') Hne. exists e.
  assert (v_ID r ≠ v_ID r') as Hid.
  { intros E. destruct (hg_entries _ _ Hg _ _ He) as (e1 & He1 & _ & _ & E1 & _). rewrite E in He1. congruence. }
  split_and!; try done; [by rewrite Hsame|]. by eapply holds_value_grows.
Qed.

Lemma put_key_ok p project environment env values overwrite op acc key done acc' w w' :
  journal_ok (w_db w) → op ≠ "delete" → find_env project environment (w_db w) = Some env →
  key ∉ done → write_report overwrite done acc → Forall (key_written s project env values (w_db w)) (wr_Records acc) →
  put_key s p project environment env values overwrite op acc key w = (Ok acc', w') →
  journal_ok (w_db w') ∧ history_grows (w_db w) (w_db w') ∧ find_env project environment (w_db w') = Some env ∧
  write_report overwrite (key :: done) acc' ∧ Forall (key_written s project env values (w_db w')) (wr_Records acc').
Proof.
  intros Hj Hop Henv Hnew [Rp Rr Ro] Hw H. unfold put_key in H.
  apply bind_Ok in H as (found & w1 & [-> ->]%query_Ok & H).
  assert (∀ r expected written w1 w2, w_db w1 = w_db w → PutTx s p r expected op w1 = (Ok written, w2) →
    v_ProjectID r = project → v_Value r = default "" (values !! key) →
    (v_ID r = uuid_Nil → v_Environment r = environment ∧ v_Key r = key) →
    (v_ID r ≠ uuid_Nil → ∃ e, ventries (w_db w) !! v_ID r = Some e ∧ ve_project_id e = project ∧ ve_environment_id e = env ∧ ve_secret_key e = key) →
    journal_ok (w_db w2) ∧ history_grows (w_db w) (w_db w2) ∧ find_env project environment (w_db w2) = Some env ∧
    v_Key written = key ∧ Forall (key_written s project env values (w_db w2)) (wr_Records acc ++ [written])) as Hput.
  { intros r expected written w1 w2 E H1 Hpr Hval Hnil Hold.
    pose proof (PutTx_frame s same_projects p r expected op _ _ _ H1) as Hproj. rewrite <-E in Hj.
    pose proof (PutTx_ok s _ _ _ _ _ _ _ Hj Hop H1) as R. rewrite E in *.
    destruct R as [R1 R2 _ R4 R5 (e & Hl) R7 R8 R9 R10]. destruct Hl as (He & Hp & _ & _ & Hk & Hrev & Hd & Hev).
    assert (v_Key written = key ∧ ve_environment_id e = env) as [Hkey Hee].
    { case_bool_decide as Hn.
      - destruct (Hnil Hn) as [<- <-], R5 as (_ & ? & _ & ?). split; congruence.
      - destruct (Hold Hn) as (e0 & He0 & _ & <- & <-). rewrite <-R5 in He0.
        destruct (hg_entries _ _ R10 _ _ He0) as (e1 & He1 & _ & ? & ? & _). split; congruence. }
    split; [done|]. split; [done|]. split; [unfold find_env, environments in *; unfold same_projects in Hproj; by rewrite Hproj|].
    split; [done|]. apply Forall_app. split.
    - apply Forall_forall. intros r0 Hin. pose proof (proj1 (Forall_forall _ _) Hw r0 Hin) as Hr0.
      eapply (key_written_grows _ _ _ _ _ _ written); [exact Hr0|done|intros; by apply R7|by exists e|].
      rewrite Hkey. intros E0. apply Hnew. rewrite <-Rp, app_assoc, <-Rr. apply elem_of_app. left.
      apply list_elem_of_fmap. by exists r0.
    - apply Forall_singleton. exists e. rewrite Hkey, <-Hval, <-Hpr. split_and!; congruence || done. }
  destruct (active_in_env _ _ _ _) as [id|] eqn:Hact.
  - apply active_in_env_Some in Hact as (e & He & Hp & Hv & Hk & Hd).
    apply bind_Ok in H as (existing & w2 & [Hl E2]%load_Ok & H). apply load_row_Some in Hl as (e1 & Hl & _).
    apply bind_Ok in H as (u & w3 & H3 & H). apply (keeps_permit s unchanged) in H3. cbn in E2, Hl.
    assert (w_db w3 = w_db w) as E3 by (unfold unchanged in H3; congruence).
    destruct Hl as (He1 & _ & _ & _ & _ & Hrev & _). rewrite He in He1. injection He1 as <-.
    destruct (negb overwrite) eqn:Ho.
    { apply ret_Ok in H as [<- <-]. rewrite E3. split; [done|]. split; [done|]. split; [done|]. split; [|done].
      apply negb_true_iff in Ho as ->. split; cbn; [|done|done]. rewrite <-Rp. solve_Permutation. }
    apply negb_false_iff in Ho as ->.
    apply bind_Ok in H as (written & w4 & H4 & H).
    destruct (jo_entry _ _ Hj _ _ He) as (Hpos & _). rewrite (proj2 (Z.eqb_neq _ 0)) in H by lia.
    apply ret_Ok in H as [<- <-]. apply Hput in H4 as (? & ? & ? & Hkey & ?); [|done|done|done| |].
    + split; [done|]. split; [done|]. split; [done|]. split; [|done]. specialize (Ro eq_refl).
      split; cbn; [| |done].
      * rewrite <-Rp. solve_Permutation.
      * rewrite map_app, Rr. cbn. rewrite Hkey. solve_Permutation.
    + done.
    + intros _. exists e. done.
  - apply bind_Ok in H as (written & w4 & H4 & H). apply ret_Ok in H as [<- <-].
    apply Hput in H4 as (? & ? & ? & Hkey & ?); [|done|done|done|done|by intros []].
    split; [done|]. split; [done|]. split; [done|]. split; [|done]. split; cbn; [| |done].
    * rewrite <-Rp. solve_Permutation.
    * rewrite map_app, Rr. cbn. rewrite Hkey. solve_Permutation.
Qed.

Lemma putMany_loop p project environment env values overwrite op keys : ∀ acc done acc' w w',
  NoDup (keys ++ done) → journal_ok (w_db w) → op ≠ "delete" → find_env project environment (w_db w) = Some env →
  write_report overwrite done acc → Forall (key_written s project env values (w_db w)) (wr_Records acc) →
  for_fold keys acc (put_key s p project environment env values overwrite op) w = (Ok acc', w') →
  journal_ok (w_db w') ∧ history_grows (w_db w) (w_db w') ∧
  write_report overwrite (keys ++ done) acc' ∧ Forall (key_written s project env values (w_db w')) (wr_Records acc').
Proof.
  induction keys as [|key keys IH]; intros acc dn acc' w w' Hnd Hj Hop Henv Hr Hw H; simpl in H.
  { apply ret_Ok in H as [<- <-]. done. }
  apply bind_Ok in H as (acc1 & w1 & H1 & H). apply NoDup_cons in Hnd as [Hni Hnd].
  rewrite elem_of_app in Hni.
  eapply put_key_ok in H1 as (Hj1 & G1 & Henv1 & Hr1 & Hw1); [|done..|by intros ?; apply Hni; right|done|done].
  assert (keys ++ key :: dn ≡ₚ (key :: keys) ++ dn) as Hp by (cbn; by rewrite Permutation_middle).
  eapply IH in H as (Hj2 & G2 & Hr2 & Hw2); [|..|exact Hr1|exact Hw1]; try done.
  - split; [done|]. split; [by etrans|]. split; [|done]. destruct Hr2 as [Q1 Q2 Q3]. split; [by rewrite Q1|done|done].
  - rewrite Hp. cbn. apply NoDup_cons. by rewrite elem_of_app.
Qed.

Lemma sorted_keys_spec values :
  NoDup (sorted_keys values) ∧ (∀ k, k ∈ sorted_keys values ↔ is_Some (values !! k)).
Proof.
  unfold sorted_keys. split.
  - rewrite (merge_sort_Permutation String.le). apply NoDup_fst_map_to_list.
  - intros k. rewrite (merge_sort_Permutation String.le), list_elem_of_fmap. split.
    + intros ([k' v] & -> & ?%elem_of_map_to_list). by exists v.
    + intros [v Hv]. exists (k, v). by rewrite elem_of_map_to_list.
Qed.

Lemma putManyTx_ok p project environment values overwrite op res w w' :
  journal_ok (w_db w) → op ≠ "delete" →
  putManyTx s p project environment values overwrite op (sorted_keys values) w = (Ok res, w') →
  ∃ env, find_env project environment (w_db w) = Some env ∧
    journal_ok (w_db w') ∧ history_grows (w_db w) (w_db w') ∧
    write_report overwrite (sorted_keys values) res ∧
    Forall (key_written s project env values (w_db w')) (wr_Records res).
Proof.
  intros Hj Hop H. unfold putManyTx in H. apply bind_Ok in H as (env & w1 & H1 & H).
  apply on_err_Ok, query_row_Ok in H1 as [Henv ->]. exists env. split; [done|].
  apply putMany_loop with (done := []) in H; try done; rewrite ?app_nil_r in *; [done|apply sorted_keys_spec].
Qed.

Lemma putManyTx_journaled p project environment values overwrite op :
  op ≠ "delete" → ok_keeps journaled (putManyTx s p project environment values overwrite op (sorted_keys values)).
Proof. intros Hop w r w' H Hj. by eapply putManyTx_ok in H as (env & _ & ? & ? & _). Qed.

Lemma PutMany_journaled p project environment values overwrite op :
  op ≠ "delete" → keeps journaled (PutMany s p project environment values overwrite op).
Proof.
  intros Hop. unfold PutMany. destruct (negb _); [apply keeps_fail, _|].
  apply keeps_vault_tx; [apply _|]. by apply putManyTx_journaled.
Qed.

Lemma UpdateCurrent_journaled p project id value expected : keeps journaled (UpdateCurrent s p project id value expected).
Proof.
  apply keeps_vault_tx; [apply _|]. apply ok_keeps_bind; [apply _|apply ok_keeps_keeps, keeps_load, _|intros r].
  destruct (v_Deleted r); [by apply ok_keeps_fail|by apply PutTx_journaled].
Qed.
Lemma DeleteCurrent_journaled p project id expected : keeps journaled (DeleteCurrent s p project id expected).
Proof.
  apply keeps_vault_tx; [apply _|]. apply ok_keeps_bind; [apply _|apply ok_keeps_keeps, keeps_load, _|intros r].
  destruct (v_Deleted r); [by apply ok_keeps_fail|by apply DeleteTx_journaled].
Qed.

(** *** Disclosures *)

(** A record read out of the current journal, and its audit row. *)
Definition read_out (p : Principal) (project id : uuid) (r : VRecord) (db db' : DB) : Prop :=
  (∃ e, loaded project id r e db) ∧ holds_value s project id (v_Revision r) (v_Value r) db ∧
  disclosed p r (v_Revision r) db db'.

Lemma readTx_Ok p r r' w w' :
  readTx s p r w = (Ok r', w') →
  ∃ plain, r' = with_value plain r ∧ holds_value s (v_ProjectID r) (v_ID r) (v_Revision r) plain (w_db w) ∧
    disclosed p r (v_Revision r) (w_db w) (w_db w') ∧ trail (w_db w) (w_db w').
Proof.
  intros H. unfold readTx in H. apply bind_Ok in H as (u1 & w1 & H1 & H). apply bind_Ok in H as (u2 & w2 & H2 & H).
  apply bind_Ok in H as (plain & w3 & [Hh E]%readVersion_Ok & H). apply ret_Ok in H as [<- <-].
  apply (keeps_permit s unchanged) in H1. unfold unchanged in H1. rewrite E. exists plain. split; [done|].
  pose proof (event_trail s _ _ _ _ _ _ H2) as Ht. rewrite H1 in Ht.
  apply event_recorded in H2 as [_ Hrec]; [|done]. rewrite H1 in Hrec. split; [|done].
  by eapply holds_value_core; [apply Ht|].
Qed.

Lemma read_listed_Ok p project id size o w w' :
  read_listed s p project id size w = (Ok o, w') →
  trail (w_db w) (w_db w') ∧
  match o with
  | None => True
  | Some (r, size') => read_out p project id r (w_db w) (w_db w') ∧ (size' <= MaxReadBytes)%Z ∧
      size' = (size + Z.of_nat (String.length (Marshal (record_json r))) + 1)%Z
  end.
Proof.
  intros H. unfold read_listed in H. apply bind_Ok in H as (r & w1 & [Hl E1]%load_Ok & H).
  apply load_row_Some in Hl as (e & Hl & _). apply bind_Ok in H as (al & w2 & H2 & H).
  assert (w_db w2 = w_db w) as E2.
  { rewrite <-E1. unfold may_read in H2. destruct (authorize s) as [f|] eqn:Ef; [|done].
    apply bind_Ok in H2 as (d & w3 & H3 & H2). apply ret_Ok in H2 as [_ <-].
    by eapply (authorizer_ok f Ef) in H3. }
  destruct (negb al); [apply ret_Ok in H as [<- <-]; rewrite E2; done|].
  apply bind_Ok in H as (r' & w3 & H3 & H). destruct (_ <? _)%Z eqn:Hs; [done|]. apply ret_Ok in H as [<- <-].
  apply readTx_Ok in H3 as (plain & -> & Hh & Hd & Ht). rewrite E2 in *.
  destruct Hl as (He & Hp & Hid & Hpr & Hk & Hr & Hdel & Hv). rewrite Hpr, Hid in Hh.
  split; [done|]. split; [|by apply Z.ltb_ge in Hs]. split; [|split; [done|exact Hd]]. exists e. by split_and!.
Qed.

Lemma read_out_trail p project id r db1 db2 db3 db4 :
  trail db1 db2 → read_out p project id r db2 db3 → trail db3 db4 → read_out p project id r db1 db4.
Proof.
  intros H1 ([e He] & Hh & Hd) H2. split; [|split].
  - exists e. eapply loaded_core; [symmetry; apply H1|exact He].
  - by eapply holds_value_core; [apply H1|].
  - by eapply recorded_trail.
Qed.

(** Total size of a listing. *)
Definition listing_size (rs : list VRecord) : Z :=
  foldr (λ r acc, Z.of_nat (String.length (Marshal (record_json r))) + 1 + acc)%Z 0%Z rs.
Lemma listing_size_snoc rs r :
  listing_size (rs ++ [r]) = (listing_size rs + Z.of_nat (String.length (Marshal (record_json r))) + 1)%Z.
Proof.
  induction rs as [|x rs IH]; [unfold listing_size; simpl; lia|]. change (listing_size ((x :: rs) ++ [r])) with
    (Z.of_nat (String.length (Marshal (record_json x))) + 1 + listing_size (rs ++ [r]))%Z.
  rewrite IH. unfold listing_size. simpl. lia.
Qed.

Lemma list_loop p project ids : ∀ acc acc' w w',
  acc.2 = listing_size acc.1 → (acc.2 <= MaxReadBytes)%Z →
  for_fold ids acc (λ acc id, o ← read_listed s p project id acc.2;
                     mret (match o with Some (r, size) => (acc.1 ++ [r], size) | None => acc end)) w = (Ok acc', w') →
  trail (w_db w) (w_db w') ∧ acc'.2 = listing_size acc'.1 ∧ (acc'.2 <= MaxReadBytes)%Z ∧
  ∃ new, acc'.1 = acc.1 ++ new ∧
    Forall (λ r, v_ID r ∈ ids ∧ read_out p project (v_ID r) r (w_db w) (w_db w')) new.
Proof.
  induction ids as [|id ids IH]; intros acc acc' w w' Hs Hm H; simpl in H.
  { apply ret_Ok in H as [<- <-]. split; [reflexivity|]. split; [done|]. split; [done|]. exists [].
    by rewrite app_nil_r. }
  apply bind_Ok in H as (acc1 & w1 & H1 & H). apply bind_Ok in H1 as (o & w2 & H1 & H2). apply ret_Ok in H2 as [<- <-].
  apply read_listed_Ok in H1 as [Ht1 Ho]. apply IH in H as (Ht & Hs' & Hm' & new & E & Hf).
  - split; [by etrans|]. split; [done|]. split; [done|].
    assert (Forall (λ r, v_ID r ∈ id :: ids ∧ read_out p project (v_ID r) r (w_db w) (w_db w')) new) as Hf'.
    { eapply Forall_impl; [exact Hf|]. intros r [Hin Hr]. split; [by right|]. by eapply read_out_trail. }
    destruct o as [[r size]|]; [|by exists new]. destruct Ho as (Hr & _). exists (r :: new).
    cbn in E. rewrite <-app_assoc in E. split; [done|]. constructor; [|done].
    pose proof Hr as ((e & _ & _ & Hid & _) & _). rewrite Hid. split; [by left|].
    eapply read_out_trail; [reflexivity|exact Hr|exact Ht].
  - destruct o as [[r size]|]; [|done]. destruct Ho as (_ & _ & ->).
    cbn [fst snd]. rewrite listing_size_snoc, Hs. lia.
  - destruct o as [[r size]|]; [|done]. by destruct Ho as (_ & ? & _).
Qed.

Lemma collectionPermit_unchanged p project environment : keeps unchanged (collectionPermit s p project environment).
Proof.
  unfold collectionPermit. destruct (authorize s) as [f|] eqn:E; [|apply keeps_fail, _].
  destruct (audit s); [|apply keeps_fail, _].
  apply keeps_bind; [apply _|apply (authorizer_ok f E)|intros d]. apply keeps_check, _.
Qed.
Lemma collectionState_unchanged project environment : keeps unchanged (collectionState project environment).
Proof.
  unfold collectionState. apply keeps_bind; [apply _|apply keeps_query, _|intros b]. destruct (negb b); [apply keeps_fail, _|].
  apply keeps_bind; [apply _|apply keeps_no_rows_is, keeps_query_row, _|intros _]. apply keeps_ret, _.
Qed.

Lemma elem_of_active_ids project environment db id :
  id ∈ active_ids project environment db ↔
  ∃ e, ventries db !! id = Some e ∧ in_environment project environment db e = true.
Proof.
  unfold active_ids. rewrite list_elem_of_fmap. setoid_rewrite (merge_sort_Permutation by_key). split.
  - intros ([i e] & -> & H%elem_of_select). by exists e.
  - intros (e & H). exists (id, e). split; [done|]. by apply elem_of_select.
Qed.

Lemma batch_loop p project environment keys db0 : ∀ acc done acc' w w',
  trail db0 (w_db w) →
  map v_Key (br_Secrets acc.1) ++ br_MissingKeys acc.1 ≡ₚ done →
  Forall (λ r, active_named project environment (v_Key r) db0 = Some (v_ID r) ∧ read_out p project (v_ID r) r db0 (w_db w))
    (br_Secrets acc.1) →
  for_fold keys acc (batch_step s p project environment) w = (Ok acc', w') →
  trail db0 (w_db w') ∧ map v_Key (br_Secrets acc'.1) ++ br_MissingKeys acc'.1 ≡ₚ keys ++ done ∧
  Forall (λ r, active_named project environment (v_Key r) db0 = Some (v_ID r) ∧ read_out p project (v_ID r) r db0 (w_db w'))
    (br_Secrets acc'.1).
Proof.
  induction keys as [|key keys IH]; intros acc dn acc' w w' Ht0 Hp Hf H; simpl in H.
  { apply ret_Ok in H as [<- <-]. done. }
  apply bind_Ok in H as (acc1 & w1 & H1 & H). unfold batch_step in H1.
  apply bind_Ok in H1 as (found & w2 & [-> ->]%query_Ok & H1).
  assert (active_named project environment key (w_db w) = active_named project environment key db0) as En.
  { destruct Ht0 as [(_ & Epr & _ & Ev) _]. unfold active_named, ventries, in_environment, entry_env, environments. by rewrite Ev, Epr. }
  assert (∀ A B, keys ++ key :: dn ≡ₚ (key :: keys) ++ dn ∧ A ++ B ++ [key] ≡ₚ key :: (A ++ B :> list string)) as Hperm.
  { intros A B. split; solve_Permutation. }
  assert (Forall (λ r, active_named project environment (v_Key r) db0 = Some (v_ID r) ∧ read_out p project (v_ID r) r db0 (w_db w1)) (br_Secrets acc.1) ∧
          trail (w_db w) (w_db w1) ∧
          (acc1.1 = mkBatchResult (br_Secrets acc.1) (br_MissingKeys acc.1 ++ [key]) ∨
           ∃ r, acc1.1 = mkBatchResult (br_Secrets acc.1 ++ [r]) (br_MissingKeys acc.1) ∧ v_Key r = key ∧
             active_named project environment key db0 = Some (v_ID r) ∧ read_out p project (v_ID r) r db0 (w_db w1)))
    as (Hf1 & Ht1 & Hcase).
  { assert (∀ db1, trail (w_db w) db1 →
      Forall (λ r, active_named project environment (v_Key r) db0 = Some (v_ID r) ∧ read_out p project (v_ID r) r db0 db1) (br_Secrets acc.1)) as Hmono.
    { intros db1 Hd. eapply Forall_impl; [exact Hf|]. intros r [? Hr]. split; [done|].
      eapply read_out_trail; [reflexivity|exact Hr|exact Hd]. }
    destruct (active_named project environment key (w_db w)) as [id|] eqn:Ea.
    - apply bind_Ok in H1 as (o & w3 & H3 & H1). apply ret_Ok in H1 as [<- <-].
      apply read_listed_Ok in H3 as [Ht3 Ho]. cbn in Ht3. split; [by apply Hmono|]. split; [done|].
      destruct o as [[r size]|]; [right|by left]. destruct Ho as (Hr & _). exists r.
      pose proof Hr as ((e & He & _ & Hid & _ & Hk & _) & _).
      apply active_named_Some in Ea as (e1 & He1 & _ & Hke). cbn in He. rewrite He1 in He. injection He as <-.
      split; [done|]. split; [congruence|]. split; [congruence|]. rewrite Hid.
      eapply read_out_trail; [exact Ht0|exact Hr|reflexivity].
    - apply ret_Ok in H1 as [<- <-]. split; [by apply Hmono|]. split; [reflexivity|by left]. }
  eapply (IH _ (key :: dn)) in H as (Ht & Hp' & Hf').
  - split; [done|]. split; [|done]. rewrite Hp'. by destruct (Hperm [] []) as [-> _].
  - by etrans.
  - destruct Hcase as [->|(r & -> & Hk & _)]; cbn; rewrite <-Hp.
    + apply (Hperm (map v_Key (br_Secrets acc.1)) (br_MissingKeys acc.1)).
    + rewrite map_app. cbn. rewrite Hk. solve_Permutation.
  - destruct Hcase as [->|(r & -> & Hk & ? & ?)]; cbn; [done|]. apply Forall_app. split; [done|].
    apply Forall_singleton. by rewrite Hk.
Qed.

Lemma elem_of_ordered_keys keys : ∀ seen k, k ∈ ordered_keys seen keys ↔ k ∈ keys ∧ k ∉ seen.
Proof.
  induction keys as [|x keys IH]; intros seen k; simpl.
  { split; [by intros ?%elem_of_nil|by intros [?%elem_of_nil _]]. }
  rewrite elem_of_cons. case_bool_decide as Hx.
  - rewrite IH. split; [tauto|]. intros [[->|Hk] Hs]; done.
  - rewrite elem_of_cons, IH, not_elem_of_cons. destruct (decide (k = x)) as [->|]; tauto.
Qed.
End Facts.

(** ** Properties *)

Import Toy.

(** A listing discloses exactly what it reports.  Every record returned is
    an undeleted secret of the requested environment with its current revision
    and exactly that revision's value, and left a [secret.read] row in the audit
    log; the encoded records stay under the four-megabyte limit; nothing but the
    audit log and the outbox changes. *)
Theorem List_discloses `{P : Primitives, !PrimitivesOk P} s `{!ServiceOk s} p project environment rs w w' :
  List_ s p project environment w = (Ok rs, w') →
  Forall (λ r, v_ID r ∈ active_ids project environment (w_db w) ∧
    read_out s p project (v_ID r) r (w_db w) (w_db w')) rs ∧
  (listing_size rs <= MaxReadBytes)%Z ∧ trail (w_db w) (w_db w').
Proof.
  intros (w0 & w1 & E & H & ->)%vault_tx_Ok. rewrite <-E in *. clear E w w'.
  apply bind_Ok in H as (u1 & w2 & H1 & H). apply bind_Ok in H as (u3 & w3 & H3 & H).
  apply bind_Ok in H as (ids & w4 & [-> ->]%query_Ok & H). apply bind_Ok in H as (acc & w5 & H5 & H).
  apply ret_Ok in H as [<- <-]. apply collectionPermit_unchanged in H1; [|done]. apply collectionState_unchanged in H3.
  unfold unchanged in *. apply list_loop in H5 as (Ht & Hs & Hm & new & E & Hf); [|done..]. cbn in *.
  rewrite E. rewrite H3, H1 in *. split; [done|]. by rewrite <-E, <-Hs.
Qed.

Lemma List_discloses_witness : ∃ rs w',
  List_ demo_vault demo_owner 20 "alpha" demo_updated = (Ok rs, w') ∧ map v_Value rs = ["v2"] ∧
  (listing_size rs <= MaxReadBytes)%Z.
Proof.
  destruct (runs_ok (List_ demo_vault demo_owner 20 "alpha") demo_updated) as [rs H]; [vm_compute; reflexivity|].
  eexists rs, _. split; [exact H|].
  assert (result_map (map v_Value) (List_ demo_vault demo_owner 20 "alpha" demo_updated).1 = Ok ["v2"]) as E by (vm_compute; reflexivity).
  rewrite H in E. split; [by injection E|].
  exact (proj1 (proj2 (List_discloses demo_vault _ _ _ _ _ _ H))).
Defined.

(** A batch read answers every key once.  The keys of the returned secrets
    together with the missing ones are exactly the distinct keys asked for; each
    returned secret is the active one of its name, with its current value and an
    audit row; the whole encoded answer is within the limit; and requests that are
    empty, too long or contain an invalid key are refused without touching the
    database. *)
Theorem BatchRead_answers `{P : Primitives, !PrimitivesOk P} s `{!ServiceOk s} p project environment keys res w w' :
  BatchRead s p project environment keys w = (res, w') →
  match res with
  | Ok b =>
      map v_Key (br_Secrets b) ++ br_MissingKeys b ≡ₚ ordered_keys [] keys ∧
      (∀ k, k ∈ ordered_keys [] keys ↔ k ∈ keys) ∧
      Forall (λ r, active_named project environment (v_Key r) (w_db w) = Some (v_ID r) ∧
        read_out s p project (v_ID r) r (w_db w) (w_db w')) (br_Secrets b) ∧
      (Z.of_nat (String.length (Marshal (batch_json b))) <= MaxReadBytes)%Z ∧
      (1 <= length keys <= MaxBatchKeys) ∧ trail (w_db w) (w_db w')
  | Err _ => w_db w' = w_db w
  end.
Proof.
  unfold BatchRead. destruct (_ || _) eqn:Hg; [by intros [= <- <-]|]. destruct res as [b|e]; [|apply vault_tx_Err].
  intros (w0 & w1 & E & H & ->)%vault_tx_Ok. rewrite <-E in *. clear E w w'.
  apply bind_Ok in H as (u1 & w2 & H1 & H). apply bind_Ok in H as (u3 & w3 & H3 & H).
  apply bind_Ok in H as (acc & w5 & H5 & H). destruct (_ <? _)%Z eqn:Hm; [done|]. apply ret_Ok in H as [<- <-].
  apply collectionPermit_unchanged in H1; [|done]. apply collectionState_unchanged in H3. unfold unchanged in *.
  assert (w_db w3 = w_db w0) as E3 by congruence.
  apply (batch_loop s p project environment _ (w_db w0) _ []) in H5 as (Ht & Hp & Hf); [|by rewrite E3|done|done].
  rewrite app_nil_r in Hp. split; [done|]. split; [intros k; rewrite elem_of_ordered_keys; split; [tauto|intros ?; split; [done|apply not_elem_of_nil]]|].
  split; [done|]. split; [by apply Z.ltb_ge|]. split; [|done].
  apply orb_false_iff in Hg as [[Hg1%Nat.eqb_neq Hg2%Nat.ltb_ge]%orb_false_iff _]. lia.
Qed.

Lemma BatchRead_answers_witness : ∃ b w',
  BatchRead demo_vault demo_owner 20 "alpha" ["NONE"; "DB_URL"; "NONE"] demo_updated = (Ok b, w') ∧
  map v_Key (br_Secrets b) ++ br_MissingKeys b ≡ₚ ordered_keys [] ["NONE"; "DB_URL"; "NONE"] ∧
  br_MissingKeys b = ["NONE"].
Proof.
  destruct (runs_ok (BatchRead demo_vault demo_owner 20 "alpha" ["NONE"; "DB_URL"; "NONE"]) demo_updated) as [b H];
    [vm_compute; reflexivity|].
  eexists b, _. split; [exact H|].
  split; [exact (proj1 (BatchRead_answers demo_vault _ _ _ _ (Ok b) _ _ H))|].
  assert (result_map br_MissingKeys (BatchRead demo_vault demo_owner 20 "alpha" ["NONE"; "DB_URL"; "NONE"] demo_updated).1 = Ok ["NONE"])
    as E by (vm_compute; reflexivity).
  rewrite H in E. by injection E.
Defined.

(** A bulk write is all or nothing, and complete.  On success every key of
    the request is reported exactly once as created, updated or skipped (never
    skipped when overwriting); each created or updated key carries a record that
    is the current, undeleted revision of that key in the requested environment
    and opens to the requested value; history is kept and the journal stays
    consistent.  On any error, the one after the last key included, the database
    is as it was. *)
Theorem PutMany_all_or_nothing `{P : Primitives, !PrimitivesOk P} s `{!ServiceOk s}
    p project environment values overwrite op res w w' :
  journal_ok (w_db w) → op ≠ "delete" → PutMany s p project environment values overwrite op w = (res, w') →
  match res with
  | Ok r => ∃ env, find_env project environment (w_db w) = Some env ∧ write_report overwrite (sorted_keys values) r ∧
      Forall (key_written s project env values (w_db w')) (wr_Records r) ∧
      journal_ok (w_db w') ∧ history_grows (w_db w) (w_db w')
  | Err _ => w_db w' = w_db w
  end.
Proof.
  intros Hj Hop. unfold PutMany. destruct (negb _); [by intros [= <- <-]|].
  destruct res as [r|e]; [|apply vault_tx_Err]. intros (w0 & w1 & E & H & ->)%vault_tx_Ok. rewrite <-E in *.
  apply putManyTx_ok in H as (env & ? & ? & ? & ? & ?); [|done..]. by exists env.
Qed.

Lemma PutMany_all_or_nothing_witness : ∃ r w',
  PutMany demo_vault demo_owner 20 "alpha" (<["NEW" := "n"]> {["DB_URL" := "v3"]}) true "import" demo_updated = (Ok r, w') ∧
  wr_Created r = ["NEW"] ∧ wr_Updated r = ["DB_URL"] ∧
  ∃ env, Forall (key_written demo_vault 20 env (<["NEW" := "n"]> {["DB_URL" := "v3"]}) (w_db w')) (wr_Records r).
Proof.
  set (values := <["NEW" := "n"]> {["DB_URL" := "v3"]} : gmap string string).
  destruct (runs_ok (PutMany demo_vault demo_owner 20 "alpha" values true "import") demo_updated) as [r H];
    [vm_compute; reflexivity|].
  eexists r, _. split; [exact H|].
  assert (result_map (λ r, (wr_Created r, wr_Updated r)) (PutMany demo_vault demo_owner 20 "alpha" values true "import" demo_updated).1
          = Ok (["NEW"], ["DB_URL"])) as E by (vm_compute; reflexivity).
  rewrite H in E. injection E as E1 E2. split; [done|]. split; [done|].
  destruct (PutMany_all_or_nothing demo_vault _ _ _ _ _ "import" (Ok r) _ _ demo_updated_journal ltac:(done) H) as (env & _ & _ & Hf & _).
  by exists env.
Defined.
