(* ===== verification/VaultPromotion.v ===== *)
(** * Promotions in the vault ([internal/vault/promotion.go])

    A promotion copies current values of one environment into another.  A
    request is bound to the exact revisions it was made against, checked again
    before it is applied, applied with snapshots of what it replaces, and rolled
    back from those snapshots unless someone has written since. *)
From S2P Require Import Prelude GoStrings GoEncoding Policy Schema Database Crypto Jobs Authority AuditLog VaultStore Vault VaultCollections.

(** ** Definitions *)

(** [models.PromotionRequest]: the row and its identifier. *)
Record PromotionRequest := mkRequest { q_ID : uuid; q_row : promotion_row }.
Definition q_ProjectID (q : PromotionRequest) : uuid := pq_project_id (q_row q).
Definition q_Source (q : PromotionRequest) : string := pq_source_environment (q_row q).
Definition q_Target (q : PromotionRequest) : string := pq_target_environment (q_row q).
Definition q_KeysFilter (q : PromotionRequest) : list string := pq_keys_filter (q_row q).
Definition q_OverridePolicy (q : PromotionRequest) : string := pq_override_policy (q_row q).

(** [models.DiffEntry]. *)
Record DiffEntry := mkDiff {
  de_Key : string;
  de_SourceHash : string;
  de_TargetHash : string;
  de_SourceExists : bool;
  de_TargetExists : bool;
  de_Action : string;
}.

(** The filter of a promotion: keys of acceptable length, none twice. *)
Fixpoint filter_ok (seen keys : list string) : bool :=
  match keys with
  | [] => true
  | key :: keys' =>
      negb (bool_decide (key = "")) && (String.length key <=? 255) && negb (bool_decide (key ∈ seen))
      && filter_ok (key :: seen) keys'
  end.

(** [promotionRevision] printed by [json.Marshal]. *)
Definition revision_json (r : VRecord) : json :=
  JObj [("Key", JStr (v_Key r)); ("ID", JStr (uuid_String (v_ID r))); ("Revision", JInt (v_Revision r));
        ("Deleted", JBool (v_Deleted r))].
Definition by_record_key (a b : VRecord) : Prop := String.le (v_Key a) (v_Key b).
#[export] Instance by_record_key_dec : RelDecision by_record_key.
Proof. intros a b. unfold by_record_key. apply _. Defined.
Definition revisions_json (records : list VRecord) : json := JList (map revision_json (merge_sort by_record_key records)).

Definition request_json (pr : PromotionRequest) : json :=
  JObj [("ID", JStr (uuid_String (q_ID pr))); ("Project", JStr (uuid_String (q_ProjectID pr)));
        ("RequestedBy", JStr (uuid_String (pq_requested_by (q_row pr))));
        ("Source", JStr (q_Source pr)); ("Target", JStr (q_Target pr)); ("Override", JStr (q_OverridePolicy pr));
        ("Notes", JStr (pq_notes (q_row pr))); ("Keys", JList (map JStr (merge_sort String.le (q_KeysFilter pr))));
        ("PolicyRevision", JInt 1); ("ApprovalRequired", JBool (bool_decide (q_Target pr = "prod")))].

(** *** Statements *)

Definition insert_binding (id : uuid) (b : binding_row) (db : DB) : option DB :=
  if bool_decide (is_Some (vbindings db !! id)) || bool_decide (promotions db !! id = None)
     || bool_decide (projects db !! vb_project_id b = None)
  then None
  else Some (upd_db_vault (upd_t_vault_promotion_bindings <[id := b]>) db).

Definition insert_snapshot (id : uuid) (ss : snapshot_row) (db : DB) : option DB :=
  if bool_decide (is_Some (snapshots db !! id)) || bool_decide (promotions db !! ss_promotion_id ss = None)
     || bool_decide (environments db !! ss_environment_id ss = None) || negb (varchar 255 (ss_key ss))
  then None
  else Some (upd_db_secrets (upd_t_secret_snapshots <[id := ss]>) db).

Definition insert_effect (promotion secret project : uuid) (rev : Z) (db : DB) : option DB :=
  if bool_decide (is_Some (veffects db !! (promotion, secret))) || bool_decide (vbindings db !! promotion = None)
     || bool_decide (projects db !! project = None) || (rev <=? 0)%Z || negb (entry_ok secret project db)
  then None
  else Some (upd_db_vault (upd_t_vault_promotion_effects <[(promotion, secret) := (project, rev)]>) db).

(** The rows a rollback goes through: a snapshot of the promotion, the secret it
    was written to, the revision it applied, and the key of the snapshot. *)
Record rollback_item := mkItem {
  it_key : string;
  it_exists : bool;
  it_cipher : string;
  it_nonce : string;
  it_encrypted : string;
  it_key_nonce : string;
  it_id : uuid;
  it_revision : Z;
}.
Definition by_item_key (a b : rollback_item) : Prop := String.le (it_key a) (it_key b).
#[export] Instance by_item_key_dec : RelDecision by_item_key.
Proof. intros a b. unfold by_item_key. apply _. Defined.

Definition item_of (project : uuid) (db : DB) (ss_id : uuid) (ss : snapshot_row) (promotion secret eproject : uuid) (rev : Z)
  : option rollback_item :=
  if bool_decide (ss_promotion_id ss = promotion) && bool_decide (eproject = project) then
    e ← ventries db !! secret;
    if bool_decide (ve_project_id e = eproject) && bool_decide (ve_secret_key e = ss_key ss)
       && bool_decide (ve_environment_id e = ss_environment_id ss)
    then
      let k := sk ← vsnapkeys db !! ss_id;
               if bool_decide (sk.1 = eproject) then
                 k ← vkeys db !! sk.2;
                 if bool_decide (vk_project_id k = sk.1) then Some k else None
               else None in
      Some (mkItem (ss_key ss) (ss_prior_existed ss) (ss_encrypted_value ss) (ss_value_nonce ss)
              (from_option vk_encrypted_key "" k) (from_option vk_nonce "" k) secret rev)
    else None
  else None.
Definition rollback_items (promotion project : uuid) (db : DB) : list rollback_item :=
  merge_sort by_item_key (
    ss ← map_to_list (snapshots db);
    omap (λ ef : (uuid * uuid) * (uuid * Z),
            if bool_decide (ef.1.1 = promotion)
            then item_of project db ss.1 ss.2 promotion ef.1.2 ef.2.1 ef.2.2 else None)
         (map_to_list (veffects db))).

(** [SELECT COUNT( * ) FROM vault_revisions WHERE ... revision>$3 AND operation<>'rotation']. *)
Definition changed_since (project id : uuid) (rev : Z) (db : DB) : Z :=
  count_where (λ k r, bool_decide (vr_project_id r = project) && bool_decide (k.1 = id) && (rev <? k.2)%Z
                      && negb (bool_decide (vr_operation r = "rotation"))) (vrevisions db).

(** [COUNT( * ) ... name IN (source, target)]. *)
Definition count_envs (project : uuid) (names : list string) (db : DB) : Z :=
  count_where (λ _ e, bool_decide (en_project_id e = project) && bool_decide (en_name e ∈ names)) (environments db).

Section Promotion.
Context `{P : Primitives} (s : Service).

Definition revisionDigest (records : list VRecord) : string :=
  hex_EncodeToString (sha256 (Marshal (revisions_json records))).
Definition promotionRequestDigest (pr : PromotionRequest) : string :=
  hex_EncodeToString (sha256 (Marshal (request_json pr))).

Definition Transaction {A} (p : Principal) (project : uuid) (action : Action) (fn : Tx A) : Tx A :=
  vault_tx p project (
    _ ← permit s p action (project_record project "");
    fn).
Definition EventTx (p : Principal) (project : uuid) (action environment : string) : Tx unit :=
  event s p (project_record project environment) action.

Definition promotionRecords (p : Principal) (project : uuid) (environment : string) (keys : list string) : Tx (list VRecord) :=
  ids ← query (active_ids project environment);
  if negb (filter_ok [] keys) then fail ErrInvalid else
  let selected := negb (bool_decide (keys = [])) in
  result ← for_fold ids [] (λ acc id,
    r ← load project id;
    if selected && negb (bool_decide (v_Key r ∈ keys)) then mret acc else
    _ ← permit s p ReadValue r;
    mret (acc ++ [r]));
  if selected && negb (length (remove_dups (map v_Key result)) =? length keys) then fail ErrNotFound
  else mret result.

Definition BindPromotionTx (p : Principal) (pr : PromotionRequest) : Tx unit :=
  envCount ← query (count_envs (q_ProjectID pr) [q_Source pr; q_Target pr]);
  if negb (envCount =? 2)%Z then fail ErrInvalid else
  source ← promotionRecords p (q_ProjectID pr) (q_Source pr) (q_KeysFilter pr);
  if bool_decide (source = []) then fail ErrInvalid else
  target ← promotionRecords p (q_ProjectID pr) (q_Target pr) [];
  t ← now;
  exec (insert_binding (q_ID pr)
          (mkBinding (q_ProjectID pr) (promotionRequestDigest pr) (revisionDigest source) (revisionDigest target)
             (t + 30 * Minute)%Z)).

Definition CheckPromotionTx (p : Principal) (pr : PromotionRequest) : Tx unit :=
  b ← on_err ErrConflict (query_row (λ db,
        b ← vbindings db !! q_ID pr; if bool_decide (vb_project_id b = q_ProjectID pr) then Some b else None));
  t ← now;
  if negb (bool_decide (vb_request_digest b = promotionRequestDigest pr)) || negb (After (vb_expires_at b) t)
  then fail ErrConflict else
  source ← promotionRecords p (q_ProjectID pr) (q_Source pr) (q_KeysFilter pr);
  target ← promotionRecords p (q_ProjectID pr) (q_Target pr) [];
  if negb (bool_decide (vb_source_digest b = revisionDigest source))
     || negb (bool_decide (vb_target_digest b = revisionDigest target))
  then fail ErrConflict else mret ().

(** [CurrentTx], with [ErrNotFound] turned into absence. *)
Definition current_opt (project : uuid) (environment key : string) : Tx (option VRecord) :=
  c ← attempt (CurrentTx project environment key);
  match c with
  | Ok r => mret (Some r)
  | Err e => if errors_Is e "vault record not found" then mret None else fail e
  end.

(** The value the target has now, kept in the snapshot. *)
Definition snapshot_value (project : uuid) (target : option VRecord) : Tx (string * string * uuid) :=
  match target with
  | None => mret ("", "", uuid_Nil)
  | Some t =>
      query_row (λ db, r ← vrevisions db !! (v_ID t, v_Revision t);
                       if bool_decide (vr_project_id r = project)
                       then Some (vr_encrypted_value r, vr_nonce r, vr_key_id r) else None)
  end.

Definition apply_one (p : Principal) (pr : PromotionRequest) (src : VRecord) : Tx unit :=
  let project := q_ProjectID pr in
  target ← current_opt project (q_Target pr) (v_Key src);
  if bool_decide (is_Some target) && bool_decide (q_OverridePolicy pr = "skip") then mret () else
  let record := mkVRecord uuid_Nil project (q_Target pr) (v_Key src) 0 "" false uuid_Nil 0 0 in
  _ ← permit s p WriteSecret record;
  snapshot ← uuid_New;
  env ← query_row (find_env project (q_Target pr));
  cnk ← snapshot_value project target;
  _ ← exec (insert_snapshot snapshot
             (mkSnapshot (q_ID pr) env (v_Key src) cnk.1.1 cnk.1.2 (bool_decide (is_Some target))));
  _ ← (match target with
       | Some _ => exec (insert_snapshot_key snapshot project cnk.2)
       | None => mret ()
       end);
  _ ← event s p src "secret.read";
  plain ← readVersion s src (v_Revision src);
  updated ← PutTx s p (with_value plain (match target with Some t => with_id (v_ID t) record | None => record end))
              (match target with Some t => v_Revision t | None => 0%Z end) "promotion";
  exec (insert_effect (q_ID pr) (v_ID updated) project (v_Revision updated)).

Definition ApplyPromotionTx (p : Principal) (pr : PromotionRequest) : Tx unit :=
  _ ← CheckPromotionTx p pr;
  source ← promotionRecords p (q_ProjectID pr) (q_Source pr) (q_KeysFilter pr);
  for_each source (apply_one p pr).

Definition rollback_one (p : Principal) (project : uuid) (i : rollback_item) : Tx unit :=
  r ← load project (it_id i);
  if v_Deleted r then fail ErrConflict else
  changed ← (if (v_Revision r =? it_revision i)%Z then mret 0%Z
             else query (changed_since project (v_ID r) (it_revision i)));
  if (0 <? changed)%Z then fail ErrConflict else
  if negb (it_exists i) then DeleteTx s p project (it_id i) (v_Revision r) else
  _ ← permit s p RestoreSecret r;
  _ ← event s p (bump r) "secret.restored";
  dek ← lift (DecryptDEK (crypto s) (it_encrypted i) (it_key_nonce i));
  plain ← lift (Decrypt dek (it_cipher i) (it_nonce i));
  _ ← PutTx s p (with_value plain r) (v_Revision r) "rollback";
  mret ().

Definition RollbackPromotionTx (p : Principal) (pr : PromotionRequest) : Tx unit :=
  items ← query (rollback_items (q_ID pr) (q_ProjectID pr));
  for_each items (rollback_one p (q_ProjectID pr)).

(** The keyed fingerprint two values are compared by. *)
Definition diff_hash (dek plain : string) : string := String.substring 0 16 (hex_EncodeToString (hmac_sha256 dek plain)).

Definition diff_one (p : Principal) (project : uuid) (target dek : string) (src : VRecord) : Tx DiffEntry :=
  _ ← event s p src "secret.read";
  plain ← readVersion s src (v_Revision src);
  let h := diff_hash dek plain in
  dst ← current_opt project target (v_Key src);
  match dst with
  | None => mret (mkDiff (v_Key src) h "" true false "add")
  | Some d =>
      _ ← permit s p ReadValue d;
      _ ← event s p d "secret.read";
      plain' ← readVersion s d (v_Revision d);
      let h' := diff_hash dek plain' in
      mret (mkDiff (v_Key src) h h' true true (if bool_decide (h = h') then "no_change" else "update"))
  end.

Definition PromotionDiff (p : Principal) (project : uuid) (source target : string) (keys : list string) : Tx (list DiffEntry) :=
  vault_tx p project (
    _ ← permit s p ReadValue (project_record project "");
    _ ← EventTx p project "promotion.diff" source;
    sourceRecords ← promotionRecords p project source keys;
    kd ← currentKey s project;
    for_fold sourceRecords [] (λ acc src, d ← diff_one p project target kd.2 src; mret (acc ++ [d]))).
End Promotion.

(** ** What a binding pins *)

(** Secret, revision and deletion of each record, in key order. *)
Definition pinned (records : list VRecord) : list (string * Z * bool) :=
  map (λ r, (uuid_String (v_ID r), v_Revision r, v_Deleted r)) (merge_sort by_record_key records).

(** Two different texts with the same SHA-256. *)
Definition sha256_collision `{P : Primitives} : Prop := ∃ a b : string, a ≠ b ∧ sha256 a = sha256 b.

(** What two equal requests share. *)
Definition request_terms (pr : PromotionRequest) : list string * list string :=
  ([uuid_String (q_ID pr); uuid_String (q_ProjectID pr); uuid_String (pq_requested_by (q_row pr));
    sanitize (q_Source pr); sanitize (q_Target pr); sanitize (q_OverridePolicy pr); sanitize (pq_notes (q_row pr))],
   map sanitize (merge_sort String.le (q_KeysFilter pr))).

(** ** Lemmas *)

Lemma revisions_json_ok rs : json_ok (revisions_json rs).
Proof.
  unfold revisions_json. generalize (merge_sort by_record_key rs). intros l. split; cbn.
  - induction l as [|r l IH]; [done|]. cbn. by rewrite is_number_pretty, IH.
  - assert (foldr (λ v m, N.max (json_depth v) m) 0 (map revision_json l) <= 1)%N as H.
    { induction l as [|r l IH]; cbn in *; lia. }
    unfold maxNestingDepth. lia.
Qed.

Lemma request_json_ok pr : json_ok (request_json pr).
Proof.
  split; cbn.
  - assert (∀ l : list string, forallb numbers_ok (map JStr l) = true) as -> by (intros l; by induction l).
    change (true && (is_number (pretty 1%Z) && true) = true). by rewrite is_number_pretty.
  - assert (∀ l : list string, foldr (λ v m, N.max (json_depth v) m) 0 (map JStr l) = 0)%N as ->
      by (intros l; induction l as [|x l IH]; [done|cbn; by rewrite IH]).
    done.
Qed.

Definition members (j : json) : list json := match j with JObj l => map snd l | _ => [] end.
Lemma jstr_inj s t : JStr s = JStr t → s = t.
Proof. congruence. Qed.
Lemma jlist_cons_inj x y l l' : JList (x :: l) = JList (y :: l') → x = y ∧ JList l = JList l'.
Proof. by intros [= -> ->]. Qed.
(** The members of a request, sorted. *)
Lemma normalize_request pr :
  normalize (request_json pr) = JObj
    [("ApprovalRequired", JBool (bool_decide (q_Target pr = "prod"))); ("ID", JStr (uuid_String (q_ID pr)));
     ("Keys", JList (map normalize (map JStr (merge_sort String.le (q_KeysFilter pr)))));
     ("Notes", JStr (sanitize (pq_notes (q_row pr)))); ("Override", JStr (sanitize (q_OverridePolicy pr)));
     ("PolicyRevision", JInt 1); ("Project", JStr (uuid_String (q_ProjectID pr)));
     ("RequestedBy", JStr (uuid_String (pq_requested_by (q_row pr))));
     ("Source", JStr (sanitize (q_Source pr))); ("Target", JStr (sanitize (q_Target pr)))].
Proof.
  unfold request_json. cbn [normalize map]. rewrite !sanitize_uuid.
  rewrite (sanitize_ascii "ID"), (sanitize_ascii "Project"), (sanitize_ascii "RequestedBy"), (sanitize_ascii "Source"),
    (sanitize_ascii "Target"), (sanitize_ascii "Override"), (sanitize_ascii "Notes"), (sanitize_ascii "Keys"),
    (sanitize_ascii "PolicyRevision"), (sanitize_ascii "ApprovalRequired") by reflexivity.
  reflexivity.
Qed.

Lemma pinned_eq a b : normalize (revisions_json a) = normalize (revisions_json b) → pinned a = pinned b.
Proof.
  unfold revisions_json, pinned. generalize (merge_sort by_record_key a) (merge_sort by_record_key b). clear a b.
  intros l l' H. cbn in H. injection H as H. revert l' H. induction l as [|r l IH]; intros [|r' l'] H; try done.
  cbn in H. injection H as H1 H2 H3 H4 H. cbn. rewrite !sanitize_uuid in *.
  f_equal; [|by apply IH]. unfold JInt in *. f_equal; [f_equal|]; [done| |done].
  by apply (inj pretty).
Qed.

Section Digests.
Context `{P : Primitives}.

Lemma sha_text a b : hex_EncodeToString (sha256 a) = hex_EncodeToString (sha256 b) → a = b ∨ sha256_collision.
Proof.
  intros H%hex_EncodeToString_inj. destruct (decide (a = b)) as [|Hne]; [by left|right]. by exists a, b.
Qed.

Lemma revisionDigest_pins a b : revisionDigest a = revisionDigest b → pinned a = pinned b ∨ sha256_collision.
Proof.
  intros [H|]%sha_text; [left|by right]. apply pinned_eq, Marshal_inj; [apply revisions_json_ok..|done].
Qed.

Lemma promotionRequestDigest_pins a b :
  promotionRequestDigest a = promotionRequestDigest b → request_terms a = request_terms b ∨ sha256_collision.
Proof.
  intros [H|]%sha_text; [left|by right]. apply Marshal_inj in H; [|apply request_json_ok..].
  rewrite !normalize_request in H. unfold request_terms.
  assert (∀ n, nth n (members (normalize (request_json a))) JNull = nth n (members (normalize (request_json b))) JNull)
    as Hn by (intros n; rewrite !normalize_request; by rewrite H).
  rewrite !normalize_request in Hn. cbn [members] in Hn.
  assert (∀ l l' : list string, JList (map normalize (map JStr l)) = JList (map normalize (map JStr l')) →
            map sanitize l = map sanitize l') as Hm.
  { intros l. induction l as [|x l IH]; intros [|y l'] Hl; try done.
    cbn [map normalize] in *. apply jlist_cons_inj in Hl as [Hx Hl]. rewrite (IH l') by done. by injection Hx as ->. }
  pose proof (Hm _ _ (Hn 2)) as E2. pose proof (jstr_inj _ _ (Hn 1)) as E1. pose proof (jstr_inj _ _ (Hn 3)) as E3.
  pose proof (jstr_inj _ _ (Hn 4)) as E4. pose proof (jstr_inj _ _ (Hn 6)) as E6. pose proof (jstr_inj _ _ (Hn 7)) as E7.
  pose proof (jstr_inj _ _ (Hn 8)) as E8. pose proof (jstr_inj _ _ (Hn 9)) as E9.
  by rewrite E1, E2, E3, E4, E6, E7, E8, E9.
Qed.
End Digests.

(** *** Records of a promotion *)

(** The records of an environment a filter selects, in key order. *)
Definition selected_records (project : uuid) (environment : string) (keys : list string) (db : DB) : list VRecord :=
  omap (λ id, r ← load_row project id db;
              if negb (bool_decide (keys = [])) && negb (bool_decide (v_Key r ∈ keys)) then None else Some r)
    (active_ids project environment db).

Section Facts.
Context `{P : Primitives} `{!PrimitivesOk P} (s : Service) `{!ServiceOk s}.

Lemma records_loop p project keys ids : ∀ acc rs w w',
  for_fold ids acc (λ acc id,
    r ← load project id;
    if negb (bool_decide (keys = [])) && negb (bool_decide (v_Key r ∈ keys)) then mret acc else
    _ ← permit s p ReadValue r;
    mret (acc ++ [r])) w = (Ok rs, w') →
  w_db w' = w_db w ∧
  rs = acc ++ omap (λ id, r ← load_row project id (w_db w);
            if negb (bool_decide (keys = [])) && negb (bool_decide (v_Key r ∈ keys)) then None else Some r) ids.
Proof.
  induction ids as [|id ids IH]; intros acc rs w w' H; simpl in H.
  { apply ret_Ok in H as [<- <-]. by rewrite app_nil_r. }
  apply bind_Ok in H as (acc1 & w1 & H1 & H). apply bind_Ok in H1 as (r & w2 & [Hl E2]%load_Ok & H1).
  apply IH in H as [E ->]. cbn. rewrite Hl. cbn. destruct (_ && _).
  - apply ret_Ok in H1 as [<- <-]. by rewrite E, E2.
  - apply bind_Ok in H1 as (u & w3 & H3 & H1). apply ret_Ok in H1 as [<- <-].
    apply (keeps_permit s unchanged) in H3. unfold unchanged in H3. rewrite E, H3, E2. by rewrite <-app_assoc.
Qed.

Lemma promotionRecords_Ok p project environment keys rs w w' :
  promotionRecords s p project environment keys w = (Ok rs, w') →
  w_db w' = w_db w ∧ rs = selected_records project environment keys (w_db w).
Proof.
  intros H. unfold promotionRecords in H. apply bind_Ok in H as (ids & w1 & [-> ->]%query_Ok & H).
  destruct (negb (filter_ok _ _)); [done|]. apply bind_Ok in H as (res & w2 & H2 & H).
  apply records_loop in H2 as [E ->]. destruct (_ && _); [done|]. apply ret_Ok in H as [<- <-]. done.
Qed.

Lemma elem_of_selected r project environment keys db :
  r ∈ selected_records project environment keys db →
  ∃ e, loaded project (v_ID r) r e db ∧ in_environment project environment db e = true.
Proof.
  unfold selected_records. rewrite list_elem_of_omap. intros (id & (e & He & Hin)%elem_of_active_ids & H).
  destruct (load_row project id db) as [r'|] eqn:Hl; [cbn in H|done]. destruct (_ && _); [done|]. injection H as ->.
  apply load_row_Some in Hl as (e' & Hl & _). pose proof Hl as (He' & _ & Hid & _).
  rewrite He in He'. injection He' as <-. exists e. by rewrite Hid.
Qed.

(** *** Binding and checking *)

Definition binding_of (pr : PromotionRequest) (t : time) (db : DB) : binding_row :=
  mkBinding (q_ProjectID pr) (promotionRequestDigest pr)
    (revisionDigest (selected_records (q_ProjectID pr) (q_Source pr) (q_KeysFilter pr) db))
    (revisionDigest (selected_records (q_ProjectID pr) (q_Target pr) [] db)) (t + 30 * Minute)%Z.

Lemma BindPromotionTx_Ok p pr u w w' :
  BindPromotionTx s p pr w = (Ok u, w') →
  vbindings (w_db w) !! q_ID pr = None ∧
  (∃ t, vbindings (w_db w') = <[q_ID pr := binding_of pr t (w_db w)]> (vbindings (w_db w))) ∧
  journaled (w_db w) (w_db w') ∧ count_envs (q_ProjectID pr) [q_Source pr; q_Target pr] (w_db w) = 2%Z.
Proof.
  intros H. unfold BindPromotionTx in H. apply bind_Ok in H as (n & w1 & [-> ->]%query_Ok & H).
  destruct (negb _) eqn:Hn; [done|]. apply negb_false_iff, Z.eqb_eq in Hn.
  apply bind_Ok in H as (src & w2 & H2 & H). destruct (bool_decide _); [done|].
  apply bind_Ok in H as (tgt & w3 & H3 & H). apply bind_Ok in H as (t & w4 & [-> ->]%now_Ok & H).
  apply exec_Ok in H as (db & H & ->).
  apply promotionRecords_Ok in H2 as [E2 ->], H3 as [E3 ->]. rewrite E3, E2 in H. cbn in *.
  unfold insert_binding in H. inv_write H. split; [done|]. split; [by eexists; rewrite <-H|]. split; [|done].
  rewrite <-H. apply journaled_other; try done. by apply insert_subseteq.
Qed.

Lemma CheckPromotionTx_Ok p pr u w w' :
  CheckPromotionTx s p pr w = (Ok u, w') →
  w_db w' = w_db w ∧ ∃ b, vbindings (w_db w) !! q_ID pr = Some b ∧ vb_project_id b = q_ProjectID pr ∧
    vb_request_digest b = promotionRequestDigest pr ∧ (w_now w < vb_expires_at b)%Z ∧
    vb_source_digest b = revisionDigest (selected_records (q_ProjectID pr) (q_Source pr) (q_KeysFilter pr) (w_db w)) ∧
    vb_target_digest b = revisionDigest (selected_records (q_ProjectID pr) (q_Target pr) [] (w_db w)).
Proof.
  intros H. unfold CheckPromotionTx in H. apply bind_Ok in H as (b & w1 & H1 & H).
  apply on_err_Ok, query_row_Ok in H1 as [Hb ->]. apply bind_Ok in H as (t & w2 & [-> ->]%now_Ok & H).
  destruct (_ || _) eqn:Hg; [done|]. apply orb_false_iff in Hg as [Hd He].
  apply negb_false_iff, bool_decide_eq_true in Hd. apply negb_false_iff, Z.ltb_lt in He.
  apply bind_Ok in H as (src & w3 & [E3 ->]%promotionRecords_Ok & H).
  apply bind_Ok in H as (tgt & w4 & [E4 ->]%promotionRecords_Ok & H).
  destruct (_ || _) eqn:Hg; [done|]. apply orb_false_iff in Hg as [Hs Ht]. apply ret_Ok in H as [_ <-].
  apply negb_false_iff, bool_decide_eq_true in Hs, Ht. rewrite E3 in *. rewrite E4. split; [done|].
  destruct (vbindings (w_db w) !! q_ID pr) as [b'|] eqn:Hlk; [cbn in Hb|done].
  destruct (bool_decide _) eqn:Hp; [|done]. injection Hb as ->. b2p. exists b. done.
Qed.

(** *** Applying *)

(** Revision [rev] of a secret called [key] in the target environment holds [v]. *)
Definition named (project : uuid) (target key : string) (id : uuid) (db : DB) : Prop :=
  ∃ e er, ventries db !! id = Some e ∧ ve_project_id e = project ∧ ve_secret_key e = key ∧
     environments db !! ve_environment_id e = Some er ∧ en_name er = target ∧ en_project_id er = project.
Definition landed (project : uuid) (target key : string) (id : uuid) (rev : Z) (v : string) (db : DB) : Prop :=
  named project target key id db ∧ holds_value s project id rev v db.

Lemma named_grows project target key id db db' :
  named project target key id db → history_grows db db' → same_projects db db' → named project target key id db'.
Proof.
  intros (e & er & He & Hp & Hk & Her & Hn & Hep) Hg Hs.
  destruct (hg_entries _ _ Hg _ _ He) as (e' & He' & E1 & E2 & E3 & _). exists e', er.
  unfold environments, same_projects in *. rewrite Hs, E2. split_and!; congruence || done.
Qed.

Lemma landed_grows project target key id rev v db db' :
  landed project target key id rev v db → history_grows db db' → same_projects db db' → landed project target key id rev v db'.
Proof.
  intros [Hn Hh] Hg Hs. split; [by eapply named_grows|by eapply holds_value_grows].
Qed.

Lemma find_env_Some project name db env :
  find_env project name db = Some env → ∃ er, environments db !! env = Some er ∧ en_name er = name ∧ en_project_id er = project.
Proof.
  unfold find_env. destruct (head _) as [[i e]|] eqn:Hh; [|done]. intros [= <-].
  apply head_Some_elem_of, elem_of_select in Hh as [He Hp]. exists e. b2p. naive_solver.
Qed.
Lemma in_environment_Some project environment db e :
  in_environment project environment db e = true →
  ve_project_id e = project ∧ ve_deleted e = false ∧
  ∃ er, environments db !! ve_environment_id e = Some er ∧ en_name er = environment ∧ en_project_id er = project.
Proof.
  unfold in_environment, entry_env. intros H. apply andb_true_iff in H as [[Hp Hd]%andb_true_iff Hn]. b2p.
  destruct (environments db !! ve_environment_id e) as [er|] eqn:Her; [cbn in Hn|done].
  case_bool_decide as He; [|done]. b2p. subst. split_and!; try done. by exists er.
Qed.

Lemma current_opt_Ok project environment key o w w' :
  current_opt project environment key w = (Ok o, w') →
  w_db w' = w_db w ∧
  match o with
  | Some t => ∃ e, loaded project (v_ID t) t e (w_db w) ∧ ve_secret_key e = key ∧ in_environment project environment (w_db w) e = true
  | None => True
  end.
Proof.
  intros H. unfold current_opt in H. apply bind_Ok in H as (c & w1 & H1 & H). apply (proj1 (attempt_Ok _ _ _ _)) in H1.
  assert (keeps unchanged (CurrentTx project environment key)) as K.
  { apply keeps_bind; [apply _|apply keeps_no_rows_is, keeps_query_row, _|intros id]. apply keeps_load, _. }
  pose proof (K _ _ _ H1) as E. unfold unchanged in E.
  destruct c as [t|e]; [|destruct (errors_Is _ _); [apply ret_Ok in H as [<- <-]; done|done]].
  apply ret_Ok in H as [<- <-]. split; [done|]. apply bind_Ok in H1 as (id & w2 & H2 & H1).
  apply no_rows_is_Ok, query_row_Ok in H2 as [Ha ->]. apply load_Ok in H1 as [Hl _]. cbn in Hl.
  apply active_named_Some in Ha as (e & He & Hin & Hk). apply load_row_Some in Hl as (e' & Hl & _).
  pose proof Hl as (He' & _ & Hid & _). rewrite He in He'. injection He' as <-. exists e. rewrite Hid. done.
Qed.

Lemma insert_snapshot_Ok id ss db db' :
  insert_snapshot id ss db = Some db' → journaled db db' ∧ same_projects db db' ∧ db_vault db' = db_vault db.
Proof. intros H. unfold insert_snapshot in H. inv_write H. subst db'. split; [by apply journaled_other|done]. Qed.
Lemma insert_snapshot_key_Ok id project key db db' :
  insert_snapshot_key id project key db = Some db' → journaled db db' ∧ same_projects db db' ∧ veffects db' = veffects db.
Proof.
  intros H. split; [by eapply journaled_insert_snapshot_key|]. unfold insert_snapshot_key in H. inv_write H. by subst db'.
Qed.
Lemma insert_effect_Ok promotion secret project rev db db' :
  insert_effect promotion secret project rev db = Some db' →
  journaled db db' ∧ same_projects db db' ∧ veffects db' = <[(promotion, secret) := (project, rev)]> (veffects db).
Proof.
  intros H. unfold insert_effect in H. inv_write H. subst db'. split; [|done].
  apply journaled_other; try done. by apply insert_subseteq.
Qed.

(** A put by name or by the identifier of the name's entry lands under the name. *)
Lemma put_lands p rec expected op upd target key w w' :
  journal_ok (w_db w) → op ≠ "delete" → PutTx s p rec expected op w = (Ok upd, w') →
  v_Environment rec = target → v_Key rec = key →
  (v_ID rec ≠ uuid_Nil → named (v_ProjectID rec) target key (v_ID rec) (w_db w)) →
  journal_ok (w_db w') ∧ history_grows (w_db w) (w_db w') ∧ same_projects (w_db w) (w_db w') ∧
  landed (v_ProjectID rec) target key (v_ID upd) (v_Revision upd) (v_Value rec) (w_db w').
Proof.
  intros Hj Hop H <- <- Hold. pose proof (PutTx_frame s same_projects _ _ _ _ _ _ _ H) as Hproj.
  eapply PutTx_ok in H as R; [|done..]. destruct R as [R1 R2 _ _ R5 (e & Hl) _ R8 R9 R10 _].
  destruct Hl as (He & Hp & _ & _ & Hk & _ & _ & Hev).
  split; [done|]. split; [done|]. split; [done|]. split; [|done].
  case_bool_decide as Hn.
  - destruct R5 as (_ & Hk' & _ & (er & Her & Hen & Hep)%find_env_Some). exists e, er.
    unfold environments, same_projects in *. rewrite Hproj. split_and!; congruence.
  - rewrite R5. eapply named_grows; [by apply Hold|done|done].
Qed.

(** A value readable later was readable when its row was already there. *)
Lemma holds_value_back project id rev v db db' :
  history_grows db db' → is_Some (version_row project id rev db) →
  holds_value s project id rev v db' → holds_value s project id rev v db.
Proof.
  intros Hg [rk Hrow] (rk' & dek & Hrow' & Hrest). exists rk, dek. split; [done|].
  apply version_row_Some in Hrow as (A1 & A2 & _), Hrow' as (B1 & B2 & _).
  eapply lookup_weaken in A1; [|apply Hg]. eapply lookup_weaken in A2; [|apply Hg].
  assert (rk.1 = rk'.1) as E1 by congruence. rewrite E1 in A2. assert (rk.2 = rk'.2) as E2 by congruence.
  by rewrite E1, E2.
Qed.

Lemma journal_version_row db id e :
  journal_ok db → ventries db !! id = Some e → is_Some (version_row (ve_project_id e) id (ve_revision e) db).
Proof.
  intros Hj He. destruct (jo_entry _ _ Hj _ _ He) as (_ & _ & r & Hr & Hp & _).
  destruct (jo_newest _ _ Hj _ _ _ Hr) as (e1 & He1 & _ & _ & Hk). rewrite He in He1. injection He1 as <-.
  apply key_ok_Some in Hk as (k & Hk & Hkp). exists (r, k). apply version_row_Some. split_and!; cbn; congruence.
Qed.

(** A key the policy leaves alone: the target has an entry of that name. *)
Definition skipped (pr : PromotionRequest) (src : VRecord) (db : DB) : Prop :=
  q_OverridePolicy pr = "skip" ∧ ∃ id, named (q_ProjectID pr) (q_Target pr) (v_Key src) id db.

(** One key promoted: skipped, or written to the target under an effect row. *)
Lemma apply_one_Ok p pr src u w w' :
  let project := q_ProjectID pr in
  journal_ok (w_db w) → v_ProjectID src = project → apply_one s p pr src w = (Ok u, w') →
  journal_ok (w_db w') ∧ history_grows (w_db w) (w_db w') ∧ same_projects (w_db w) (w_db w') ∧
  (skipped pr src (w_db w') ∨
   ∃ id rev v, holds_value s project (v_ID src) (v_Revision src) v (w_db w') ∧
     veffects (w_db w') !! (q_ID pr, id) = Some (project, rev) ∧
     landed project (q_Target pr) (v_Key src) id rev v (w_db w')).
Proof.
  intros project Hj Hsp H. unfold apply_one in H. fold project in H.
  apply bind_Ok in H as (target & w1 & [E1 Ht]%current_opt_Ok & H).
  destruct (_ && _) eqn:Hskip.
  { apply ret_Ok in H as [_ <-]. rewrite E1. split; [done|]. split; [done|]. split; [done|]. left.
    b2p. destruct Hskip as [[t ->] Hs]. split; [done|]. exists (v_ID t).
    destruct Ht as (e & (He & _) & Hk & (Hp & _ & er & Her & Hen & Hep)%in_environment_Some). by exists e, er. }
  apply bind_Ok in H as (u2 & w2 & H2 & H). apply (keeps_permit s unchanged) in H2. unfold unchanged in H2.
  apply bind_Ok in H as (snap & w3 & [_ ->]%uuid_New_Ok & H).
  apply bind_Ok in H as (env & w4 & [Henv ->]%query_row_Ok & H).
  apply bind_Ok in H as (cnk & w5 & H5 & H).
  assert (w_db w5 = w_db w) as E5.
  { assert (keeps unchanged (snapshot_value project target)) as K
      by (destruct target; [apply keeps_query_row, _|apply keeps_ret, _]).
    apply K in H5. unfold unchanged in H5. cbn in H5. congruence. }
  apply bind_Ok in H as (u6 & w6 & (db6 & H6 & ->)%exec_Ok & H). rewrite E5 in H6.
  apply insert_snapshot_Ok in H6 as (J6 & P6 & _).
  apply bind_Ok in H as (u7 & w7 & H7 & H).
  assert (journaled db6 (w_db w7) ∧ same_projects db6 (w_db w7)) as [J7 P7].
  { destruct target; [apply exec_Ok in H7 as (db7 & H7 & ->); cbn in *; by apply insert_snapshot_key_Ok in H7 as (? & ? & _)|].
    apply ret_Ok in H7 as [_ <-]. done. }
  destruct (J6 Hj) as [Hj6 G6]. destruct (J7 Hj6) as [Hj7 G7].
  apply bind_Ok in H as (u8 & w8 & H8 & H). apply keeps_event in H8; [|done].
  pose proof (proj1 (journal_proper _ _ _ H8) Hj7) as Hj8. pose proof (same_core_history _ _ H8) as G8.
  apply bind_Ok in H as (plain & w9 & [Hh E9]%readVersion_Ok & H). apply bind_Ok in H as (upd & w10 & H10 & H).
  apply exec_Ok in H as (db11 & H11 & ->). apply insert_effect_Ok in H11 as (J11 & P11 & Eff). cbn [w_db upd_w_db const].
  rewrite <-E9 in Hj8, Hh. rewrite Hsp in Hh.
  assert (history_grows (w_db w) (w_db w9)) as G.
  { etrans; [exact G6|]. etrans; [exact G7|]. by rewrite E9. }
  assert (same_projects (w_db w) (w_db w9)) as Pw.
  { etrans; [exact P6|]. etrans; [exact P7|]. rewrite E9. by apply same_core_projects. }
  assert (∃ rec, PutTx s p rec (match target with Some t => v_Revision t | None => 0%Z end) "promotion" w9 = (Ok upd, w10) ∧
    v_ProjectID rec = project ∧ v_Environment rec = q_Target pr ∧ v_Key rec = v_Key src ∧ v_Value rec = plain ∧
    (v_ID rec ≠ uuid_Nil → named project (q_Target pr) (v_Key src) (v_ID rec) (w_db w))) as (rec & Hput & A1 & A2 & A3 & A4 & A5).
  { eexists. split; [exact H10|]. destruct target as [t|]; cbn; split_and!; try done.
    intros _. destruct Ht as (e & (He & _) & Hk & (Hp & _ & er & Her & Hen & Hep)%in_environment_Some). by exists e, er. }
  eapply (put_lands _ _ _ _ _ (q_Target pr) (v_Key src)) in Hput as (J10 & G10 & P10 & HL); try done.
  - destruct (J11 J10) as [Hj11 G11]. rewrite A1, A4 in HL. split; [done|]. split; [by do 2 (etrans; [eassumption|])|].
    split; [by do 2 (etrans; [eassumption|])|]. right. exists (v_ID upd), (v_Revision upd), plain.
    split; [by do 2 (eapply holds_value_grows; [eassumption|])|]. split; [by rewrite Eff, lookup_insert_eq|].
    by eapply landed_grows.
  - intros Hn. rewrite A1. eapply named_grows; [by apply A5|done|done].
Qed.

(** What a promotion leaves for one source record. *)
Definition promoted (pr : PromotionRequest) (src : VRecord) (db db' : DB) : Prop :=
  ∃ id rev v, holds_value s (q_ProjectID pr) (v_ID src) (v_Revision src) v db ∧
    veffects db' !! (q_ID pr, id) = Some (q_ProjectID pr, rev) ∧
    landed (q_ProjectID pr) (q_Target pr) (v_Key src) id rev v db'.

Lemma apply_loop p pr source : ∀ w u w',
  journal_ok (w_db w) → Forall (λ r, v_ProjectID r = q_ProjectID pr ∧ is_Some (version_row (q_ProjectID pr) (v_ID r) (v_Revision r) (w_db w))) source →
  for_each source (apply_one s p pr) w = (Ok u, w') →
  journal_ok (w_db w') ∧ history_grows (w_db w) (w_db w') ∧ same_projects (w_db w) (w_db w') ∧
  Forall (λ src, skipped pr src (w_db w') ∨ promoted pr src (w_db w) (w_db w')) source.
Proof.
  induction source as [|src source IH]; intros w u w' Hj Hall H; simpl in H.
  { apply ret_Ok in H as [_ <-]. done. }
  apply bind_Ok in H as (u1 & w1 & H1 & H). apply Forall_cons in Hall as [[Hp Hv] Hall].
  apply apply_one_Ok in H1 as (Hj1 & G1 & P1 & Hcase); [|done..].
  apply IH in H as (Hj2 & G2 & P2 & Hf); [|done|].
  - split; [done|]. split; [by etrans|]. split; [by etrans|]. constructor.
    + destruct Hcase as [[Hs [id Hn]]|(id & rev & v & Hh & He & Hl)];
        [left; split; [done|]; exists id; by eapply named_grows|right]. exists id, rev, v.
      split; [by eapply holds_value_back|]. split; [by eapply lookup_weaken; [|apply G2]|by eapply landed_grows].
    + rewrite Forall_forall in Hf, Hall. apply Forall_forall. intros r Hr.
      destruct (Hf r Hr) as [?|(id & rev & v & Hh & He & Hl)]; [by left|right]. exists id, rev, v.
      split; [|done]. eapply holds_value_back; [exact G1| |done]. by apply Hall.
  - eapply Forall_impl; [exact Hall|]. intros r [? [rk Hrk]]. split; [done|]. exists rk.
    apply version_row_Some in Hrk as (A & B & ? & ?). apply version_row_Some.
    split_and!; try done; by eapply lookup_weaken; [|apply G1].
Qed.

Lemma ApplyPromotionTx_Ok p pr u w w' :
  journal_ok (w_db w) → ApplyPromotionTx s p pr w = (Ok u, w') →
  journal_ok (w_db w') ∧ history_grows (w_db w) (w_db w') ∧ same_projects (w_db w) (w_db w') ∧
  Forall (λ src, skipped pr src (w_db w') ∨ promoted pr src (w_db w) (w_db w'))
    (selected_records (q_ProjectID pr) (q_Source pr) (q_KeysFilter pr) (w_db w)) ∧
  ∃ b, vbindings (w_db w) !! q_ID pr = Some b ∧ (w_now w < vb_expires_at b)%Z.
Proof.
  intros Hj H. unfold ApplyPromotionTx in H.
  apply bind_Ok in H as (u1 & w1 & (E1 & b & Hb & _ & _ & He & _)%CheckPromotionTx_Ok & H).
  apply bind_Ok in H as (source & w2 & [E2 ->]%promotionRecords_Ok & H). rewrite E1 in *.
  rewrite <-E2 in Hj. apply apply_loop in H as (? & ? & ? & ?); [|done|].
  - rewrite E2 in *. split_and!; try done. by exists b.
  - apply Forall_forall. intros r (e & Hl & _)%elem_of_selected. rewrite E2 in *.
    destruct Hl as (He' & Hp & Hid & Hpr & _ & Hr & _). split; [done|]. rewrite Hr, <-Hp.
    by apply journal_version_row.
Qed.

(** *** Rolling back *)

(** What a rollback leaves for one item. *)
Definition rolled_back (project : uuid) (i : rollback_item) (db : DB) : Prop :=
  if it_exists i
  then ∃ dek v rev row, DecryptDEK (crypto s) (it_encrypted i) (it_key_nonce i) = Ok dek ∧
         Decrypt dek (it_cipher i) (it_nonce i) = Ok v ∧ holds_value s project (it_id i) rev v db ∧
         vrevisions db !! (it_id i, rev) = Some row ∧ vr_operation row = "rollback"
  else ∃ e, ventries db !! it_id i = Some e ∧ ve_deleted e = true.

Lemma rolled_back_grows project i db db' : history_grows db db' → rolled_back project i db → rolled_back project i db'.
Proof.
  intros Hg. unfold rolled_back. destruct (it_exists i).
  - intros (dek & v & rev & row & ? & ? & ? & ? & ?). exists dek, v, rev, row.
    split_and!; try done; [by eapply holds_value_grows|by eapply lookup_weaken; [|apply Hg]].
  - intros (e & He & Hd). destruct (hg_entries _ _ Hg _ _ He) as (e' & He' & _ & _ & _ & _ & E). exists e'.
    by rewrite (E Hd) in *.
Qed.

Lemma changed_since_pos project id rev db db' :
  history_grows db db' → (0 < changed_since project id rev db)%Z → (0 < changed_since project id rev db')%Z.
Proof.
  intros Hg. unfold changed_since. rewrite !count_where_pos. intros (k & r & Hk & Hp). exists k, r.
  split; [|done]. by eapply lookup_weaken; [|apply Hg].
Qed.

Lemma rollback_one_Ok p project i u w w' :
  journal_ok (w_db w) → rollback_one s p project i w = (Ok u, w') →
  journal_ok (w_db w') ∧ history_grows (w_db w) (w_db w') ∧
  (changed_since project (it_id i) (it_revision i) (w_db w) <= 0)%Z ∧
  rolled_back project i (w_db w').
Proof.
  intros Hj H. unfold rollback_one in H.
  apply bind_Ok in H as (r & w1 & [Hl E1]%load_Ok & H). apply load_row_Some in Hl as (e & Hl & _).
  destruct (v_Deleted r) eqn:Hd; [done|]. pose proof Hl as (He & Hp & Hid & Hpr & _ & Hr & Hde & _).
  apply bind_Ok in H as (changed & w2 & H2 & H). destruct (0 <? changed)%Z eqn:Hc; [done|]. apply Z.ltb_ge in Hc.
  assert (w_db w2 = w_db w ∧ (changed_since project (it_id i) (it_revision i) (w_db w) <= 0)%Z) as [E2 Hch].
  { destruct (_ =? _)%Z eqn:Hrv.
    - apply ret_Ok in H2 as [<- <-]. split; [done|]. apply Z.eqb_eq in Hrv. apply Z.le_ngt. intros Hpos.
      unfold changed_since in Hpos. apply count_where_pos in Hpos as ([k rev] & x & Hx & Hpx). b2p. cbn in Hpx.
      destruct Hpx as [[[Hpx ->] Hlt] _]. apply Z.ltb_lt in Hlt || idtac.
      destruct (jo_newest _ _ Hj _ _ _ Hx) as (e1 & He1 & _ & Hle & _). rewrite He in He1. injection He1 as <-.
      assert (v_Revision r = ve_revision e) by done. lia.
    - apply query_Ok in H2 as [-> ->]. rewrite Hid, E1 in Hc. done. }
  rewrite <-E1 in Hj. rewrite E1, <-E2 in *. unfold rolled_back. destruct (negb (it_exists i)) eqn:Hex.
  - apply negb_true_iff in Hex as ->.
    apply DeleteTx_ok in H as (e' & He' & _ & _ & _ & [[key B1] B2 B3 B4]); [|done..].
    split_and!; try done. eexists. rewrite B1, lookup_insert_eq. done.
  - apply negb_false_iff in Hex as ->. apply bind_Ok in H as (u3 & w3 & H3 & H).
    apply (keeps_permit s unchanged) in H3. unfold unchanged in H3.
    apply bind_Ok in H as (u4 & w4 & H4 & H). apply keeps_event in H4; [|done]. rewrite H3 in H4.
    apply bind_Ok in H as (dek & w5 & [Hdek ->]%lift_Ok & H). apply bind_Ok in H as (plain & w6 & [Hpl ->]%lift_Ok & H).
    apply bind_Ok in H as (upd & w7 & H7 & H). apply ret_Ok in H as [_ <-].
    pose proof (proj1 (journal_proper _ _ _ H4) Hj) as Hj4.
    eapply PutTx_ok in H7 as R; [|done..]. destruct R as [R1 _ _ _ R5 _ _ R8 R9 R10 (row & Hrow & Hop)]. cbn in *.
    assert (v_ID upd = it_id i) as Hu.
    { case_bool_decide as Hn; [|by rewrite R5]. destruct R5 as [R5 _].
      destruct (jo_entry _ _ Hj _ _ He) as (Hpos & _). lia. }
    split; [done|]. split; [by etrans; [apply same_core_history|]|]. split; [done|].
    exists dek, plain, (v_Revision upd), row. rewrite <-Hu. rewrite Hpr in R8. split_and!; try done.
    rewrite Hop. unfold put_operation. cbn. by rewrite andb_false_r.
Qed.

Lemma rollback_loop p project items : ∀ w u w',
  journal_ok (w_db w) → for_each items (rollback_one s p project) w = (Ok u, w') →
  journal_ok (w_db w') ∧ history_grows (w_db w) (w_db w') ∧
  Forall (λ i, (changed_since project (it_id i) (it_revision i) (w_db w) <= 0)%Z ∧ rolled_back project i (w_db w')) items.
Proof.
  induction items as [|i items IH]; intros w u w' Hj H; simpl in H.
  { apply ret_Ok in H as [_ <-]. done. }
  apply bind_Ok in H as (u1 & w1 & H1 & H). apply rollback_one_Ok in H1 as (Hj1 & G1 & C1 & R1); [|done].
  apply IH in H as (Hj2 & G2 & Hf); [|done]. split; [done|]. split; [by etrans|]. constructor.
  - split; [done|]. by eapply rolled_back_grows.
  - eapply Forall_impl; [exact Hf|]. intros x [Hc Hr]. split; [|done].
    apply Z.le_ngt. intros Hpos. apply (changed_since_pos _ _ _ _ _ G1) in Hpos. lia.
Qed.

(** *** Promotion steps stay within their tables *)

Section Frames.
Context (R : DB → DB → Prop) `{!Frame R}.

Lemma promotionRecords_frame p project environment keys : keeps R (promotionRecords s p project environment keys).
Proof.
  unfold promotionRecords. apply keeps_bind; [apply _|apply keeps_query, _|intros ids].
  destruct (negb _); [apply keeps_fail, _|]. apply keeps_bind; [apply _| |intros result].
  - apply keeps_for_fold; [apply _|]. intros acc id. apply keeps_bind; [apply _|apply keeps_load, _|intros r].
    destruct (_ && _); [apply keeps_ret, _|].
    apply keeps_bind; [apply _|apply keeps_permit, _; apply _|intros _]. apply keeps_ret, _.
  - destruct (_ && _); [apply keeps_fail, _|apply keeps_ret, _].
Qed.

Lemma BindPromotionTx_frame p pr : keeps R (BindPromotionTx s p pr).
Proof.
  unfold BindPromotionTx. apply keeps_bind; [apply _|apply keeps_query, _|intros n]. destruct (negb _); [apply keeps_fail, _|].
  apply keeps_bind; [apply _|apply promotionRecords_frame|intros source]. destruct (bool_decide _); [apply keeps_fail, _|].
  apply keeps_bind; [apply _|apply promotionRecords_frame|intros target].
  apply keeps_bind; [apply _|apply keeps_get, _|intros t]. apply keeps_exec; [apply _|].
  intros db db' H. unfold insert_binding in H. inv_write H. subst. apply frame_vault.
Qed.

Lemma CheckPromotionTx_frame p pr : keeps R (CheckPromotionTx s p pr).
Proof.
  unfold CheckPromotionTx. apply keeps_bind; [apply _|apply keeps_on_err, keeps_query_row, _|intros b].
  apply keeps_bind; [apply _|apply keeps_get, _|intros t]. destruct (_ || _); [apply keeps_fail, _|].
  apply keeps_bind; [apply _|apply promotionRecords_frame|intros source].
  apply keeps_bind; [apply _|apply promotionRecords_frame|intros target].
  destruct (_ || _); [apply keeps_fail, _|apply keeps_ret, _].
Qed.

Lemma current_opt_frame project environment key : keeps R (current_opt project environment key).
Proof.
  unfold current_opt. apply keeps_bind; [apply _| |intros c].
  - apply keeps_attempt, keeps_bind; [apply _|apply keeps_no_rows_is, keeps_query_row, _|intros id]. apply keeps_load, _.
  - destruct c as [r|e]; [apply keeps_ret, _|]. destruct (errors_Is _ _); [apply keeps_ret, _|apply keeps_fail, _].
Qed.

Lemma apply_one_frame p pr src : keeps R (apply_one s p pr src).
Proof.
  unfold apply_one. apply keeps_bind; [apply _|apply current_opt_frame|intros target].
  destruct (_ && _); [apply keeps_ret, _|].
  apply keeps_bind; [apply _|apply keeps_permit, _; apply _|intros _].
  apply keeps_bind; [apply _|apply keeps_uuid_New, _|intros snapshot].
  apply keeps_bind; [apply _|apply keeps_query_row, _|intros env].
  apply keeps_bind; [apply _|destruct target; [apply keeps_query_row, _|apply keeps_ret, _]|intros cnk].
  apply keeps_bind; [apply _| |intros _].
  { apply keeps_exec; [apply _|]. intros db db' H. unfold insert_snapshot in H. inv_write H. subst. apply frame_snapshots. }
  apply keeps_bind; [apply _| |intros _].
  { destruct target; [|apply keeps_ret, _]. apply keeps_exec; [apply _|]. intros db db' H.
    unfold insert_snapshot_key in H. inv_write H. subst. apply frame_vault. }
  apply keeps_bind; [apply _|apply event_frame; apply _|intros _].
  apply keeps_bind; [apply _|apply keeps_readVersion, _|intros plain].
  apply keeps_bind; [apply _|apply PutTx_frame; apply _|intros upd].
  apply keeps_exec; [apply _|]. intros db db' H. unfold insert_effect in H. inv_write H. subst. apply frame_vault.
Qed.

Lemma ApplyPromotionTx_frame p pr : keeps R (ApplyPromotionTx s p pr).
Proof.
  apply keeps_bind; [apply _|apply CheckPromotionTx_frame|intros _].
  apply keeps_bind; [apply _|apply promotionRecords_frame|intros source].
  apply keeps_for_each; [apply _|]. intros src. apply apply_one_frame.
Qed.

Lemma RollbackPromotionTx_frame p pr : keeps R (RollbackPromotionTx s p pr).
Proof.
  apply keeps_bind; [apply _|apply keeps_query, _|intros items]. apply keeps_for_each; [apply _|]. intros i.
  unfold rollback_one. apply keeps_bind; [apply _|apply keeps_load, _|intros r].
  destruct (v_Deleted r); [apply keeps_fail, _|]. apply keeps_bind; [apply _| |intros changed].
  { destruct (_ =? _)%Z; [apply keeps_ret, _|apply keeps_query, _]. }
  destruct (0 <? changed)%Z; [apply keeps_fail, _|]. destruct (negb _); [by apply DeleteTx_frame|].
  apply keeps_bind; [apply _|apply keeps_permit, _; apply _|intros _].
  apply keeps_bind; [apply _|apply event_frame; apply _|intros _].
  apply keeps_bind; [apply _|apply keeps_lift, _|intros dek]. apply keeps_bind; [apply _|apply keeps_lift, _|intros plain].
  apply keeps_bind; [apply _|apply PutTx_frame; apply _|intros _]. apply keeps_ret, _.
Qed.
End Frames.

(** *** Every promotion step respects the journal *)

Lemma BindPromotionTx_journaled p pr : ok_keeps journaled (BindPromotionTx s p pr).
Proof. by intros w u w' (_ & _ & ? & _)%BindPromotionTx_Ok. Qed.
Lemma CheckPromotionTx_journaled p pr : ok_keeps journaled (CheckPromotionTx s p pr).
Proof. intros w u w' [-> _]%CheckPromotionTx_Ok. reflexivity. Qed.
Lemma ApplyPromotionTx_journaled p pr : ok_keeps journaled (ApplyPromotionTx s p pr).
Proof. by intros w u w' H Hj; apply ApplyPromotionTx_Ok in H as (? & ? & _). Qed.
Lemma RollbackPromotionTx_journaled p pr : ok_keeps journaled (RollbackPromotionTx s p pr).
Proof.
  intros w u w' H Hj. unfold RollbackPromotionTx in H. apply bind_Ok in H as (items & w1 & [-> ->]%query_Ok & H).
  by apply rollback_loop in H as (? & ? & _).
Qed.
End Facts.

(** ** A concrete promotion, for evaluation *)

Import Toy.
Definition demo_request : PromotionRequest :=
  mkRequest 80 (mkPromotion 20 "alpha" "uat" "pending" 1 None [] "overwrite" "" 0 None).
Definition demo_promoting : World :=
  upd_w_db (upd_db_secrets (upd_t_promotion_requests <[80%N := q_row demo_request]>)) demo_updated.
Definition demo_bound : World := (BindPromotionTx demo_vault demo_owner demo_request demo_promoting).2.
Definition demo_applied : World := (ApplyPromotionTx demo_vault demo_owner demo_request demo_bound).2.

Lemma demo_promoting_journal : journal_ok (w_db demo_promoting).
Proof.
  unfold demo_promoting. pose proof demo_updated_journal as Hj. revert Hj. generalize demo_updated. intros w Hj.
  assert (journaled (w_db w) (w_db (upd_w_db (upd_db_secrets (upd_t_promotion_requests <[80%N := q_row demo_request]>)) w)))
    as J by (by apply journaled_other).
  exact (proj1 (J Hj)).
Qed.
Lemma demo_bind : ∃ u, BindPromotionTx demo_vault demo_owner demo_request demo_promoting = (Ok u, demo_bound).
Proof.
  destruct (runs_ok (BindPromotionTx demo_vault demo_owner demo_request) demo_promoting) as [u H]; [vm_compute; reflexivity|].
  exists u. exact H.
Qed.
Lemma demo_apply : ∃ u, ApplyPromotionTx demo_vault demo_owner demo_request demo_bound = (Ok u, demo_applied).
Proof.
  destruct (runs_ok (ApplyPromotionTx demo_vault demo_owner demo_request) demo_bound) as [u H]; [vm_compute; reflexivity|].
  exists u. exact H.
Qed.
Lemma demo_bound_journal : journal_ok (w_db demo_bound).
Proof. destruct demo_bind as [u H]. exact (proj1 (BindPromotionTx_journaled demo_vault _ _ _ _ _ H demo_promoting_journal)). Qed.
Lemma demo_applied_journal : journal_ok (w_db demo_applied).
Proof. destruct demo_apply as [u H]. exact (proj1 (ApplyPromotionTx_journaled demo_vault _ _ _ _ _ H demo_bound_journal)). Qed.

(** ** Properties *)

(** C6: an approval covers exactly what was approved.  If a promotion is bound
    and later, after any further history, a request with the same identifier
    passes the check, then unless SHA-256 has collided the request is the one
    that was bound and both environments have the same secrets at the same
    revisions as then: any addition, change or removal in the meantime makes the
    check fail. *)
Theorem approval_is_bound `{P : Primitives, !PrimitivesOk P} s `{!ServiceOk s} p p' pr pr' u u' w w1 w2 w3 :
  BindPromotionTx s p pr w = (Ok u, w1) → history_grows (w_db w1) (w_db w2) → q_ID pr' = q_ID pr →
  CheckPromotionTx s p' pr' w2 = (Ok u', w3) →
  sha256_collision ∨
  (request_terms pr' = request_terms pr ∧
   pinned (selected_records (q_ProjectID pr') (q_Source pr') (q_KeysFilter pr') (w_db w2)) =
     pinned (selected_records (q_ProjectID pr) (q_Source pr) (q_KeysFilter pr) (w_db w)) ∧
   pinned (selected_records (q_ProjectID pr') (q_Target pr') [] (w_db w2)) =
     pinned (selected_records (q_ProjectID pr) (q_Target pr) [] (w_db w)) ∧
   w_db w3 = w_db w2).
Proof.
  intros (_ & [t Hb] & _)%BindPromotionTx_Ok Hg Hid (E & b & Hb' & _ & Hr & _ & Hs & Ht)%CheckPromotionTx_Ok; [|done..].
  assert (vbindings (w_db w2) !! q_ID pr = Some (binding_of pr t (w_db w))) as Hb2.
  { eapply lookup_weaken; [|apply Hg]. by rewrite Hb, lookup_insert_eq. }
  rewrite Hid, Hb2 in Hb'. injection Hb' as <-. cbn in *.
  apply eq_sym, promotionRequestDigest_pins in Hr as [Hr|]; [|by left].
  apply eq_sym, revisionDigest_pins in Hs as [Hs|]; [|by left].
  apply eq_sym, revisionDigest_pins in Ht as [Ht|]; [|by left]. by right.
Qed.

Lemma approval_is_bound_witness : ∃ u w3,
  CheckPromotionTx demo_vault demo_owner demo_request demo_bound = (Ok u, w3) ∧
  (sha256_collision ∨ pinned (selected_records (q_ProjectID demo_request) (q_Target demo_request) [] (w_db demo_bound)) =
                      pinned (selected_records (q_ProjectID demo_request) (q_Target demo_request) [] (w_db demo_promoting))).
Proof.
  destruct demo_bind as [u H].
  destruct (runs_ok (CheckPromotionTx demo_vault demo_owner demo_request) demo_bound) as [u' H']; [vm_compute; reflexivity|].
  eexists u', _. split; [exact H'|].
  destruct (approval_is_bound demo_vault _ _ _ _ _ _ _ _ _ _ H ltac:(reflexivity) eq_refl H') as [?|(_ & _ & ? & _)]; [by left|by right].
Defined.

(** C2: applying a promotion copies every selected value.  A successful
    application happens under a live binding; for every record the filter selects
    in the source environment, the target environment has an entry of the same
    key with a revision that opens to the source's plaintext, and an effect row
    names that revision - unless the policy is to skip and the target has an
    entry of that key.
    Nothing in the history is lost and the journal stays consistent. *)
Theorem ApplyPromotion_copies `{P : Primitives, !PrimitivesOk P} s `{!ServiceOk s} p pr u w w' :
  journal_ok (w_db w) → ApplyPromotionTx s p pr w = (Ok u, w') →
  (∃ b, vbindings (w_db w) !! q_ID pr = Some b ∧ (w_now w < vb_expires_at b)%Z) ∧
  Forall (λ src, skipped pr src (w_db w') ∨ promoted s pr src (w_db w) (w_db w'))
    (selected_records (q_ProjectID pr) (q_Source pr) (q_KeysFilter pr) (w_db w)) ∧
  journal_ok (w_db w') ∧ history_grows (w_db w) (w_db w').
Proof. intros Hj H. apply ApplyPromotionTx_Ok in H as (? & ? & _ & ? & ?); done. Qed.

Lemma ApplyPromotion_copies_witness :
  length (selected_records (q_ProjectID demo_request) (q_Source demo_request) (q_KeysFilter demo_request) (w_db demo_bound)) = 1 ∧
  Forall (λ src, skipped demo_request src (w_db demo_applied) ∨ promoted demo_vault demo_request src (w_db demo_bound) (w_db demo_applied))
    (selected_records (q_ProjectID demo_request) (q_Source demo_request) (q_KeysFilter demo_request) (w_db demo_bound)).
Proof.
  split; [vm_compute; reflexivity|]. destruct demo_apply as [u H].
  exact (proj1 (proj2 (ApplyPromotion_copies demo_vault _ _ _ _ _ demo_bound_journal H))).
Defined.

(** Rolling back never overwrites later work.  A successful rollback has
    found, for every secret the promotion wrote, no revision newer than the
    promotion's other than key rotations; each such secret that did not exist
    before now ends in a tombstone, and each that did has a revision labelled
    [rollback] that opens to the value its snapshot preserved. *)
Theorem RollbackPromotion_restores `{P : Primitives, !PrimitivesOk P} s `{!ServiceOk s} p pr u w w' :
  journal_ok (w_db w) → RollbackPromotionTx s p pr w = (Ok u, w') →
  Forall (λ i, (changed_since (q_ProjectID pr) (it_id i) (it_revision i) (w_db w) <= 0)%Z ∧
               rolled_back s (q_ProjectID pr) i (w_db w'))
    (rollback_items (q_ID pr) (q_ProjectID pr) (w_db w)) ∧
  journal_ok (w_db w') ∧ history_grows (w_db w) (w_db w').
Proof.
  intros Hj H. unfold RollbackPromotionTx in H. apply bind_Ok in H as (items & w1 & [-> ->]%query_Ok & H).
  by apply rollback_loop in H as (? & ? & ?).
Qed.

Lemma RollbackPromotion_restores_witness : ∃ u w',
  RollbackPromotionTx demo_vault demo_owner demo_request demo_applied = (Ok u, w') ∧
  length (rollback_items (q_ID demo_request) (q_ProjectID demo_request) (w_db demo_applied)) = 1 ∧
  Forall (λ i, rolled_back demo_vault (q_ProjectID demo_request) i (w_db w')) (rollback_items (q_ID demo_request) (q_ProjectID demo_request) (w_db demo_applied)).
Proof.
  destruct (runs_ok (RollbackPromotionTx demo_vault demo_owner demo_request) demo_applied) as [u H]; [vm_compute; reflexivity|].
  eexists u, _. split; [exact H|]. split; [vm_compute; reflexivity|].
  eapply Forall_impl; [exact (proj1 (RollbackPromotion_restores demo_vault _ _ _ _ _ demo_applied_journal H))|].
  by intros i [_ Hi].
Defined.
