(* ===== verification/PromotionRepo.v ===== *)
(** * The repositories behind promotions ([internal/repository])

    [promotion_repo.go] and [promotion_transactions.go], with the operations of
    [secret_repo.go], [environment_repo.go] and [project_repo.go] that the
    promotion engine uses.  [InsertReturning] and the upserts are the PostgreSQL
    forms.  [value_at] is what a reader of the live table sees under a name;
    [moves] is the order the promotion requests move in. *)
From S2P Require Import Prelude GoStrings GoEncoding Policy Schema Database Crypto Jobs Authority AuditLog VaultStore Vault VaultCollections VaultPromotion.

(** ** Definitions *)

(** *** [promotion_repo.go] *)

(** [promotion_requests_no_self_approval] and the foreign key of [approved_by]. *)
Definition approval_ok (requested_by : uuid) (approved_by : option uuid) (db : DB) : bool :=
  match approved_by with
  | Some a => bool_decide (a ∈ users db) && negb (bool_decide (a = requested_by))
  | None => true
  end.

Definition insert_promotion (id : uuid) (pq : promotion_row) (db : DB) : option DB :=
  if bool_decide (is_Some (promotions db !! id)) || bool_decide (projects db !! pq_project_id pq = None)
     || negb (bool_decide (pq_requested_by pq ∈ users db)) || negb (approval_ok (pq_requested_by pq) (pq_approved_by pq) db)
     || negb (varchar 50 (pq_source_environment pq)) || negb (varchar 50 (pq_target_environment pq))
     || negb (varchar 20 (pq_status pq)) || negb (varchar 20 (pq_override_policy pq))
  then None
  else Some (upd_db_secrets (upd_t_promotion_requests <[id := pq]>) db).

(** The row a new request starts as. *)
Definition new_promotion (projectID : uuid) (sourceEnv targetEnv : string) (requestedBy : uuid) (keysFilter : list string)
    (overridePolicy notes : string) (t : time) : promotion_row :=
  mkPromotion projectID sourceEnv targetEnv "pending" requestedBy None keysFilter overridePolicy notes t None.

Definition set_status (status : string) (approvedBy : option uuid) (completedAt : option time) (pq : promotion_row) : promotion_row :=
  mkPromotion (pq_project_id pq) (pq_source_environment pq) (pq_target_environment pq) status (pq_requested_by pq)
    approvedBy (pq_keys_filter pq) (pq_override_policy pq) (pq_notes pq) (pq_created_at pq) completedAt.

(** [UPDATE promotion_requests SET status,approved_by,completed_at WHERE id [AND status]]. *)
Definition update_status (id : uuid) (status : string) (approvedBy : option uuid) (completedAt : option time)
    (requireFrom : string) (db : DB) : option (DB * Z) :=
  match promotions db !! id with
  | None => Some (db, 0%Z)
  | Some pq =>
      if negb (bool_decide (requireFrom = "")) && negb (bool_decide (pq_status pq = requireFrom)) then Some (db, 0%Z)
      else if approval_ok (pq_requested_by pq) approvedBy db && varchar 20 status
      then Some (upd_db_secrets (upd_t_promotion_requests <[id := set_status status approvedBy completedAt pq]>) db, 1%Z)
      else None
  end.

Definition setStatus (id : uuid) (status : string) (approvedBy : option uuid) (requireFrom : string) : Tx Z :=
  t ← now;
  let completedAt := if bool_decide (status = "completed") || bool_decide (status = "rejected") then Some t else None in
  wrap_err "updating promotion status" (exec_n (update_status id status approvedBy completedAt requireFrom)).

Definition UpdateStatus (id : uuid) (status : string) (approvedBy : option uuid) : Tx unit :=
  _ ← setStatus id status approvedBy ""; mret ().

Definition CompareAndSetStatusTx (id : uuid) (from to : string) (approvedBy : option uuid) : Tx bool :=
  n ← setStatus id to approvedBy from; mret (n =? 1)%Z.

Definition mark_rolled_back (pq : promotion_row) : promotion_row :=
  set_status "rolled_back" (pq_approved_by pq) (pq_completed_at pq) pq.
Definition MarkRolledBackTx (id : uuid) : Tx bool :=
  n ← wrap_err "marking promotion rolled back" (exec_n (λ db,
        match promotions db !! id with
        | Some pq => if bool_decide (pq_status pq = "completed")
                     then Some (upd_db_secrets (upd_t_promotion_requests <[id := mark_rolled_back pq]>) db, 1%Z)
                     else Some (db, 0%Z)
        | None => Some (db, 0%Z)
        end));
  mret (n =? 1)%Z.

Section Requests.
Context `{P : Primitives}.

Definition Create (projectID : uuid) (sourceEnv targetEnv : string) (requestedBy : uuid) (keysFilter : list string)
    (overridePolicy notes : string) : Tx PromotionRequest :=
  id ← uuid_New;
  t ← now;
  let pq := new_promotion projectID sourceEnv targetEnv requestedBy keysFilter overridePolicy notes t in
  _ ← wrap_err "creating promotion request" (exec (insert_promotion id pq));
  mret (mkRequest id pq).

Definition GetByID (id : uuid) : Tx PromotionRequest :=
  pq ← wrap_err "getting promotion request" (query_row (λ db, promotions db !! id));
  mret (mkRequest id pq).

(** [ORDER BY created_at DESC]. *)
Definition newest_request (a b : uuid * promotion_row) : Prop := (pq_created_at b.2 <= pq_created_at a.2)%Z.
#[export] Instance newest_request_dec : RelDecision newest_request.
Proof. intros a b. unfold newest_request. apply _. Defined.
Definition ListByProjectID (projectID : uuid) : Tx (list PromotionRequest) :=
  query (λ db, map (λ kv, mkRequest kv.1 kv.2)
                 (merge_sort newest_request (select (λ _ pq, bool_decide (pq_project_id pq = projectID)) (promotions db)))).

Definition CreateSnapshotTx (promotionID environmentID : uuid) (key encryptedValue valueNonce : string) (priorExisted : bool)
  : Tx unit :=
  id ← uuid_New;
  wrap_err "creating secret snapshot"
    (exec (insert_snapshot id (mkSnapshot promotionID environmentID key encryptedValue valueNonce priorExisted))).

(** [ORDER BY key]. *)
Definition by_snapshot_key (a b : uuid * snapshot_row) : Prop := String.le (ss_key a.2) (ss_key b.2).
#[export] Instance by_snapshot_key_dec : RelDecision by_snapshot_key.
Proof. intros a b. unfold by_snapshot_key. apply _. Defined.
Definition GetSnapshotsByPromotionID (promotionID : uuid) : Tx (list snapshot_row) :=
  query (λ db, map snd (merge_sort by_snapshot_key
                 (select (λ _ ss, bool_decide (ss_promotion_id ss = promotionID)) (snapshots db)))).

(** *** [promotion_transactions.go] *)

Definition GetByIDTx (id project : uuid) : Tx PromotionRequest :=
  query_row (λ db, pq ← promotions db !! id;
                   if bool_decide (pq_project_id pq = project) then Some (mkRequest id pq) else None).

Definition CreateTx (project : uuid) (source target : string) (actor : uuid) (keys : list string) (override notes : string)
  : Tx PromotionRequest :=
  id ← uuid_New;
  t ← now;
  _ ← exec (insert_promotion id (new_promotion project source target actor keys override notes t));
  GetByIDTx id project.

(** *** [secret_repo.go] *)

Definition names (env : uuid) (key : string) (s : secret_row) : bool :=
  bool_decide (sr_environment_id s = env) && bool_decide (sr_key s = key).

(** [ORDER BY "key"]. *)
Definition by_secret_key (a b : uuid * secret_row) : Prop := String.le (sr_key a.2) (sr_key b.2).
#[export] Instance by_secret_key_dec : RelDecision by_secret_key.
Proof. intros a b. unfold by_secret_key. apply _. Defined.
Definition secrets_in (projectID environmentID : uuid) (db : DB) : list (uuid * secret_row) :=
  merge_sort by_secret_key
    (select (λ _ s, bool_decide (sr_project_id s = projectID) && bool_decide (sr_environment_id s = environmentID)) (secrets db)).
Definition ListByProjectAndEnv (projectID environmentID : uuid) : Tx (list (uuid * secret_row)) :=
  wrap_err "listing secrets" (query (secrets_in projectID environmentID)).

Definition secret_named (env : uuid) (key : string) (db : DB) : option (uuid * secret_row) :=
  head (select (λ _ s, names env key s) (secrets db)).
Definition GetByEnvAndKeyTx (environmentID : uuid) (key : string) : Tx (option (uuid * secret_row)) :=
  wrap_err "getting secret by env and key" (query (secret_named environmentID key)).

(** [INSERT ... ON CONFLICT (environment_id, "key") DO UPDATE SET encrypted_value,
    value_nonce, updated_at]. *)
Definition upsert_secret (id projectID environmentID : uuid) (key encryptedValue valueNonce : string) (t : time) (db : DB)
  : option DB :=
  match secret_named environmentID key db with
  | Some _ => Some (upd_db_secrets (upd_t_secrets
                (update_where (λ _ s, names environmentID key s) (set_value encryptedValue valueNonce t))) db)
  | None => insert_secret id (mkSecret projectID environmentID key encryptedValue valueNonce t t) db
  end.
Definition UpsertTx (projectID environmentID : uuid) (key encryptedValue valueNonce : string) : Tx unit :=
  id ← uuid_New;
  t ← now;
  wrap_err "upserting secret" (exec (upsert_secret id projectID environmentID key encryptedValue valueNonce t)).

Definition delete_named (environmentID : uuid) (key : string) (db : DB) : DB :=
  upd_db_secrets (upd_t_secrets (delete_where (λ _ s, names environmentID key s))) db.
Definition DeleteByEnvAndKeyTx (environmentID : uuid) (key : string) : Tx unit :=
  wrap_err "deleting secret by env and key" (exec_ (delete_named environmentID key)).

(** *** [environment_repo.go] and [project_repo.go] *)

Definition GetByProjectAndName (projectID : uuid) (name : string) : Tx uuid :=
  wrap_err "getting environment" (query_row (find_env projectID name)).
Definition GetProjectByID (id : uuid) : Tx project_row :=
  wrap_err "getting project" (query_row (λ db, pr ← projects db !! id;
                                               if bool_decide (pr_deleted_at pr = None) then Some pr else None)).
End Requests.

(** ** The requests only move forward *)

(** The states a request goes through. *)
Definition promotion_statuses : list string := ["pending"; "completed"; "rejected"; "rolled_back"].
Definition promotion_edge (st st' : string) : Prop :=
  (st = "pending" ∧ (st' = "completed" ∨ st' = "rejected")) ∨ (st = "completed" ∧ st' = "rolled_back").

(** What was asked for is fixed; the status follows the edges. *)
Record request_le (q q' : promotion_row) : Prop := {
  rl_project : pq_project_id q' = pq_project_id q;
  rl_source : pq_source_environment q' = pq_source_environment q;
  rl_target : pq_target_environment q' = pq_target_environment q;
  rl_requester : pq_requested_by q' = pq_requested_by q;
  rl_keys : pq_keys_filter q' = pq_keys_filter q;
  rl_override : pq_override_policy q' = pq_override_policy q;
  rl_notes : pq_notes q' = pq_notes q;
  rl_created : pq_created_at q' = pq_created_at q;
  rl_status : rtc promotion_edge (pq_status q) (pq_status q');
}.

(** Four eyes: nobody approves their own request, and values reach production
    only with an approver. *)
Record request_wf (q : promotion_row) : Prop := {
  rw_status : pq_status q ∈ promotion_statuses;
  rw_separate : pq_approved_by q ≠ Some (pq_requested_by q);
  rw_prod : pq_target_environment q = "prod" → pq_status q ∈ ["completed"; "rolled_back"] → is_Some (pq_approved_by q);
}.

Definition requests_wf (db : DB) : Prop := map_Forall (λ _ q, request_wf q) (promotions db).
Definition requests_le (db db' : DB) : Prop :=
  ∀ id q, promotions db !! id = Some q → ∃ q', promotions db' !! id = Some q' ∧ request_le q q'.
Definition moves (db db' : DB) : Prop := requests_wf db → requests_wf db' ∧ requests_le db db'.

#[export] Instance request_le_preorder : PreOrder request_le.
Proof.
  split; [by intros q; split|]. intros q1 q2 q3 [] []. split; try congruence. by etrans.
Qed.
#[export] Instance moves_preorder : PreOrder moves.
Proof.
  split.
  - intros db Hwf. split; [done|]. intros id q Hq. by exists q.
  - intros d1 d2 d3 H12 H23 Hwf. destruct (H12 Hwf) as [Hwf2 L12]. destruct (H23 Hwf2) as [Hwf3 L23].
    split; [done|]. intros id q Hq. destruct (L12 _ _ Hq) as (q2 & Hq2 & ?). destruct (L23 _ _ Hq2) as (q3 & Hq3 & ?).
    exists q3. split; [done|]. by etrans.
Qed.

Lemma moves_same db db' : same_promotions db db' → moves db db'.
Proof.
  unfold same_promotions, moves, requests_wf, requests_le. intros -> Hwf. split; [done|]. intros id q Hq. by exists q.
Qed.
Lemma moves_insert id q db db' :
  promotions db !! id = None → promotions db' = <[id := q]> (promotions db) → request_wf q → moves db db'.
Proof.
  intros Hno E Hq Hwf. unfold requests_wf, requests_le. rewrite E. split.
  - by apply map_Forall_insert_2.
  - intros i x Hx. exists x. split; [|done]. rewrite lookup_insert_ne; congruence.
Qed.
Lemma moves_set id q q' db db' :
  promotions db !! id = Some q → promotions db' = <[id := q']> (promotions db) → request_le q q' →
  (request_wf q → request_wf q') → moves db db'.
Proof.
  intros Hq E Hle Hwf' Hwf. unfold requests_wf, requests_le. rewrite E. split.
  - apply map_Forall_insert_2; [|done]. apply Hwf', (Hwf _ _ Hq).
  - intros i x Hx. destruct (decide (i = id)) as [->|Hne].
    + rewrite lookup_insert_eq. rewrite Hq in Hx. injection Hx as <-. eauto.
    + rewrite lookup_insert_ne by done. by exists x.
Qed.

(** *** Status updates *)

Lemma approval_ok_separate u ab db : approval_ok u ab db = true → ab ≠ Some u.
Proof. unfold approval_ok. destruct ab as [a|]; [|done]. intros H [= ->]. b2p. naive_solver. Qed.

(** The row [setStatus] leaves, when it matches one. *)
Lemma setStatus_Ok id st ab from n w w' :
  setStatus id st ab from w = (Ok n, w') →
  (n = 0%Z ∧ w_db w' = w_db w) ∨
  (n = 1%Z ∧ ∃ q c, promotions (w_db w) !! id = Some q ∧ (from = "" ∨ pq_status q = from) ∧
     ab ≠ Some (pq_requested_by q) ∧
     w_db w' = upd_db_secrets (upd_t_promotion_requests <[id := set_status st ab c q]>) (w_db w)).
Proof.
  intros H. unfold setStatus in H. apply bind_Ok in H as (t & w1 & [-> ->]%now_Ok & H). apply wrap_err_Ok in H.
  apply exec_n_Ok in H as (db' & H & ->). cbn. unfold update_status in H. cbn in H.
  destruct (promotions (w_db w) !! id) as [q|] eqn:Hq; [|injection H as <- <-; by left].
  destruct (negb _ && _) eqn:Hf; [injection H as <- <-; by left|].
  destruct (_ && _) eqn:Ha in H; [|done]. injection H as <- <-. right. split; [done|].
  apply andb_true_iff in Ha as [Ha _]. apply approval_ok_separate in Ha. eexists q, _. split_and!; try done.
  b2p. destruct Hf as [?|?]; [by left|right]. done.
Qed.

(** Without a status to compare with, an existing row is always matched. *)
Lemma setStatus_matches id st ab q n w w' :
  promotions (w_db w) !! id = Some q → setStatus id st ab "" w = (Ok n, w') → n = 1%Z.
Proof.
  intros Hq H. unfold setStatus in H. apply bind_Ok in H as (t & w1 & [-> ->]%now_Ok & H).
  apply wrap_err_Ok, exec_n_Ok in H as (db' & H & ->). unfold update_status in H. rewrite Hq in H.
  rewrite (bool_decide_eq_true_2 ("" = "")) in H by done. cbn [negb andb] in H.
  destruct (_ && _) in H; [by injection H as _ <-|done].
Qed.

Lemma keeps_setStatus (R : DB → DB → Prop) `{!PreOrder R} id st ab from :
  (∀ g db, R db (upd_db_secrets (upd_t_promotion_requests g) db)) → keeps R (setStatus id st ab from).
Proof.
  intros HR. apply keeps_bind; [apply _|apply keeps_get, _|intros t]. apply keeps_wrap_err, keeps_exec_n; [apply _|].
  intros db db' n H. unfold update_status in H. repeat case_match; simplify_eq; done.
Qed.

Lemma setStatus_Err id st ab from e w w' : setStatus id st ab from w = (Err e, w') → w_db w' = w_db w.
Proof.
  intros H. unfold setStatus in H. apply bind_Err in H as [[=]|(t & w1 & [-> ->]%now_Ok & H)].
  unfold wrap_err in H. destruct (exec_n _ w) as [[n|e'] w2] eqn:E; [done|]. injection H as _ <-.
  unfold exec_n in E. apply bind_Err in E as [E|([] & w3 & ->%tick_Ok & E)].
  - unfold tick in E. by injection E as _ <-.
  - apply bind_Err in E as [[=]|(db & w4 & [-> ->]%get_Ok & E)].
    destruct (update_status _ _ _ _ _ _) as [[db' n]|]; [by apply bind_Err in E as [[=]|(? & ? & _ & [=])]|].
    by injection E as _ <-.
Qed.

(** Moving a pending request on keeps four eyes as long as a completion names an
    approver, or is not for production. *)
Lemma decide_pending_moves id st ab n w w' :
  (st = "completed" ∨ st = "rejected") →
  (∀ q, promotions (w_db w) !! id = Some q →
     pq_status q = "pending" ∧ (st = "completed" → pq_target_environment q = "prod" → is_Some ab)) →
  setStatus id st ab "" w = (Ok n, w') → moves (w_db w) (w_db w').
Proof.
  intros Hst Hq H. apply setStatus_Ok in H as [[_ ->]|(_ & q & c & Hid & _ & Hsep & ->)]; [reflexivity|].
  destruct (Hq _ Hid) as [Hp Hprod]. eapply moves_set; [done|done| |].
  - split; try done. cbn. rewrite Hp. apply rtc_once. left. done.
  - intros _. split; cbn; [destruct Hst as [-> | ->]; set_solver|done|].
    intros Ht Hs. apply Hprod; [|done]. destruct Hst as [-> | ->]; set_solver.
Qed.

(** The compare-and-set claim. *)
Lemma claim_moves id st ab w b w' :
  (st = "completed" ∨ st = "rejected") →
  (st = "completed" → ∀ q, promotions (w_db w) !! id = Some q → pq_target_environment q = "prod" → is_Some ab) →
  CompareAndSetStatusTx id "pending" st ab w = (Ok b, w') →
  moves (w_db w) (w_db w') ∧
  if b : bool
  then ∃ q c, promotions (w_db w) !! id = Some q ∧ pq_status q = "pending" ∧ ab ≠ Some (pq_requested_by q) ∧
         w_db w' = upd_db_secrets (upd_t_promotion_requests <[id := set_status st ab c q]>) (w_db w)
  else w_db w' = w_db w.
Proof.
  intros Hst Hq H. unfold CompareAndSetStatusTx in H. apply bind_Ok in H as (n & w1 & H1 & H). apply ret_Ok in H as [<- <-].
  apply setStatus_Ok in H1 as [[-> E]|(-> & q & c & Hid & [?|Hp] & Hsep & E)]; [|done|]; cbn.
  { rewrite E. split; [reflexivity|done]. }
  split; [|by exists q, c]. rewrite E. eapply moves_set; [done|done| |].
  - split; try done. cbn. rewrite Hp. apply rtc_once. left. done.
  - intros _. split; cbn; [destruct Hst as [-> | ->]; set_solver|done|].
    intros Ht Hs. destruct Hst as [-> | ->]; [by eapply Hq|set_solver].
Qed.

Lemma MarkRolledBackTx_Ok id b w w' :
  MarkRolledBackTx id w = (Ok b, w') →
  if b : bool
  then ∃ q, promotions (w_db w) !! id = Some q ∧ pq_status q = "completed" ∧
         w_db w' = upd_db_secrets (upd_t_promotion_requests <[id := mark_rolled_back q]>) (w_db w)
  else w_db w' = w_db w.
Proof.
  intros H. unfold MarkRolledBackTx in H. apply bind_Ok in H as (n & w1 & H1 & H). apply ret_Ok in H as [<- <-].
  apply wrap_err_Ok, exec_n_Ok in H1 as (db' & H1 & ->). cbn.
  destruct (promotions (w_db w) !! id) as [q|] eqn:Hq; [|injection H1 as <- <-; done].
  case_bool_decide as Hs; injection H1 as <- <-; [|done]. cbn. by exists q.
Qed.
Lemma MarkRolledBackTx_moves id : ok_keeps moves (MarkRolledBackTx id).
Proof.
  intros w b w' H%MarkRolledBackTx_Ok. destruct b; [|rewrite H; reflexivity].
  destruct H as (q & Hq & Hs & ->). eapply moves_set; [done|done| |].
  - split; try done. cbn. rewrite Hs. apply rtc_once. by right.
  - intros [? Hsep Hprod]. split; cbn; [set_solver|done|]. intros Ht _. apply Hprod; [done|set_solver].
Qed.

(** A new request is pending and has no approver. *)
Lemma insert_promotion_moves id project src tgt u keys ov notes t db db' :
  let q := new_promotion project src tgt u keys ov notes t in
  insert_promotion id q db = Some db' →
  moves db db' ∧ promotions db !! id = None ∧ db' = upd_db_secrets (upd_t_promotion_requests <[id := q]>) db.
Proof.
  intros q H. unfold insert_promotion in H. destruct (_ || _) eqn:Hg; [done|]. injection H as <-.
  repeat apply orb_false_iff in Hg as [Hg ?]. apply bool_decide_eq_false, eq_None_not_Some in Hg.
  split; [|done]. eapply moves_insert; [done|done|]. split; cbn; [set_solver|done|set_solver].
Qed.

Lemma same_promotions_secrets g db : same_promotions db (upd_db_secrets (upd_t_secrets g) db).
Proof. done. Qed.

(** ** The live table as a map from names to sealed values *)

(** [UNIQUE(environment_id, key)]. *)
Definition secrets_unique (db : DB) : Prop :=
  ∀ i j a b, secrets db !! i = Some a → secrets db !! j = Some b →
    sr_environment_id a = sr_environment_id b → sr_key a = sr_key b → i = j.

Definition value_at (env : uuid) (key : string) (db : DB) : option (string * string) :=
  (λ ks : uuid * secret_row, (sr_encrypted_value ks.2, sr_value_nonce ks.2)) <$> secret_named env key db.

Lemma names_true env key x : names env key x = true ↔ sr_environment_id x = env ∧ sr_key x = key.
Proof. unfold names. rewrite andb_true_iff, !bool_decide_eq_true. done. Qed.
Lemma secret_named_Some env key db i x :
  secret_named env key db = Some (i, x) → secrets db !! i = Some x ∧ sr_environment_id x = env ∧ sr_key x = key.
Proof.
  unfold secret_named. intros H%head_Some_elem_of%elem_of_select. destruct H as [H Hn]. unfold names in Hn. by b2p.
Qed.
Lemma secret_named_lookup env key db i x :
  secrets_unique db → secrets db !! i = Some x → sr_environment_id x = env → sr_key x = key →
  secret_named env key db = Some (i, x).
Proof.
  intros Hu Hx <- <-. destruct (secret_named _ _ db) as [[j y]|] eqn:Hs.
  - apply secret_named_Some in Hs as (Hy & E1 & E2). assert (i = j) as <- by (by eapply Hu). congruence.
  - unfold secret_named in Hs. apply head_None in Hs.
    assert ((i, x) ∈ select (λ _ s, names (sr_environment_id x) (sr_key x) s) (secrets db)) as Hin.
    { apply elem_of_select. split; [done|]. unfold names. by rewrite !bool_decide_eq_true_2. }
    rewrite Hs in Hin. by apply elem_of_nil in Hin.
Qed.

Lemma value_at_Some env key db v :
  secrets_unique db → value_at env key db = Some v ↔
  ∃ i x, secrets db !! i = Some x ∧ sr_environment_id x = env ∧ sr_key x = key ∧ v = (sr_encrypted_value x, sr_value_nonce x).
Proof.
  intros Hu. unfold value_at. split.
  - intros ([i x] & (? & ? & ?)%secret_named_Some & ->)%fmap_Some. by exists i, x.
  - intros (i & x & Hx & He & Hk & ->). by rewrite (secret_named_lookup env key db i x).
Qed.
(** Two tables with the same named values. *)
Lemma value_at_ext db db' env key :
  secrets_unique db → secrets_unique db' →
  (∀ v, (∃ i x, secrets db !! i = Some x ∧ sr_environment_id x = env ∧ sr_key x = key ∧ v = (sr_encrypted_value x, sr_value_nonce x)) ↔
        (∃ i x, secrets db' !! i = Some x ∧ sr_environment_id x = env ∧ sr_key x = key ∧ v = (sr_encrypted_value x, sr_value_nonce x))) →
  value_at env key db' = value_at env key db.
Proof. intros Hu Hu' H. apply option_eq. intros v. by rewrite !value_at_Some, H. Qed.

(** Writing under a name changes what is read under that name, and nothing else. *)
Definition named_write (env : uuid) (key : string) (v : option (string * string)) (db db' : DB) : Prop :=
  (secrets_unique db → secrets_unique db' ∧
     value_at env key db' = v ∧ ∀ e k, (e, k) ≠ (env, key) → value_at e k db' = value_at e k db) ∧
  same_promotions db db' ∧ snapshots db' = snapshots db.

Lemma upsert_secret_Ok id project env key c n t db db' :
  upsert_secret id project env key c n t db = Some db' → named_write env key (Some (c, n)) db db'.
Proof.
  intros H. unfold upsert_secret in H. destruct (secret_named env key db) as [[j y]|] eqn:Hs.
  - injection H as <-. split; [|done]. intros Hu. apply secret_named_Some in Hs as (Hy & He & Hk).
    set (db' := upd_db_secrets _ db).
    assert (∀ i x', secrets db' !! i = Some x' ↔
      ∃ x, secrets db !! i = Some x ∧ x' = if names env key x then set_value c n t x else x) as Hl.
    { intros i x'. unfold db', secrets. cbn. rewrite lookup_update_where.
      destruct (t_secrets (db_secrets db) !! i); cbn; naive_solver. }
    assert (secrets_unique db') as Hu'.
    { intros i1 i2 a b (a' & Ha & ->)%Hl (b' & Hb & ->)%Hl E1 E2. apply (Hu _ _ a' b'); [done..| |];
        repeat case_match; done. }
    split; [done|]. split.
    + apply value_at_Some; [done|]. exists j, (set_value c n t y). split; [|done].
      apply Hl. exists y. split; [done|]. unfold names. by rewrite He, Hk, !bool_decide_eq_true_2.
    + intros e k Hne. apply value_at_ext; [done..|]. intros v. split.
      * intros (i & x & Hx & <- & <- & ->). exists i, x. split; [|done]. apply Hl. exists x. split; [done|].
        destruct (names env key x) eqn:Hn; [|done]. apply names_true in Hn as [En Ek]. congruence.
      * intros (i & x' & (x & Hx & ->)%Hl & E1 & E2 & ->). exists i, x. split; [done|].
        destruct (names env key x) eqn:Hn; [|done]. apply names_true in Hn as [En Ek]. cbn in *. congruence.
  - unfold insert_secret in H. destruct (_ || _) eqn:Hg; [done|]. injection H as <-.
    repeat apply orb_false_iff in Hg as [Hg ?]. apply bool_decide_eq_false, eq_None_not_Some in Hg.
    split; [|done]. intros Hu. set (row := mkSecret _ _ _ _ _ _ _). set (db' := upd_db_secrets _ db).
    assert (∀ i x, secrets db' !! i = Some x ↔ (i = id ∧ x = row) ∨ secrets db !! i = Some x) as Hl.
    { intros i x. unfold db', secrets. cbn. rewrite lookup_insert_Some. unfold secrets in Hg.
      destruct (decide (i = id)) as [->|]; [rewrite Hg|]; naive_solver. }
    assert (∀ i x, secrets db !! i = Some x → (sr_environment_id x, sr_key x) ≠ (env, key)) as Hno.
    { intros i x Hx [= E1 E2]. assert (secret_named env key db = Some (i, x)) as E by (by apply secret_named_lookup). congruence. }
    assert (secrets_unique db') as Hu'.
    { intros i1 i2 a b [[-> ->]|Ha]%Hl [[-> ->]|Hb]%Hl E1 E2; [done|..|by eapply Hu]; cbn in *;
        [apply Hno in Hb|apply Hno in Ha]; congruence. }
    split; [done|]. split.
    + apply value_at_Some; [done|]. exists id, row. split; [|done]. apply Hl. by left.
    + intros e k Hne. apply value_at_ext; [done..|]. intros v. split.
      * intros (i & x & Hx & Hr). exists i, x. split; [apply Hl; by right|done].
      * intros (i & x & [[-> ->]|Hx]%Hl & E1 & E2 & Ev); [cbn in *; naive_solver|by exists i, x].
Qed.

Lemma delete_named_Ok env key db : named_write env key None db (delete_named env key db).
Proof.
  split; [|done]. intros Hu. set (db' := delete_named env key db).
  assert (∀ i x, secrets db' !! i = Some x ↔ secrets db !! i = Some x ∧ names env key x = false) as Hl.
  { intros i x. unfold db', delete_named, secrets. cbn. by rewrite lookup_delete_where. }
  assert (secrets_unique db') as Hu' by (intros i j a b [Ha _]%Hl [Hb _]%Hl; by eapply Hu).
  split; [done|]. split.
  - destruct (value_at env key db') as [v|] eqn:E; [|done].
    apply value_at_Some in E as (i & x & [_ Hx]%Hl & E1 & E2 & _); [|done].
    unfold names in Hx. rewrite E1, E2, !bool_decide_eq_true_2 in Hx; done.
  - intros e k Hne. apply value_at_ext; [done..|]. intros v. split.
    + intros (i & x & Hx & E1 & E2 & ->). exists i, x. split; [|done]. apply Hl. split; [done|].
      destruct (names env key x) eqn:Hn; [|done]. apply names_true in Hn as [En Ek]. congruence.
    + intros (i & x & [Hx _]%Hl & Hr). by exists i, x.
Qed.
