(* ===== verification/PromotionService.v ===== *)
(** * The promotion service ([internal/service/promotion_service.go], [promotion_vault.go])

    Requests to promote the values of one environment to the next.  With a vault
    the service works through [VaultPromotion] in one transaction; without one
    (the MySQL and SQLite deployments) it copies the live table itself, keeps
    snapshots, and records audit entries on a best-effort basis. *)
From S2P Require Import Prelude GoStrings GoEncoding Policy Schema Database Crypto Jobs Authority AuditLog VaultStore Vault VaultCollections VaultPromotion PromotionRepo.

(** ** Definitions *)

Record PromotionService := mkPromotionService {
  ps_vault : option Vault.Service;
  ps_auditRepo : option AuditRepository;
  ps_cryptoSvc : Crypto.Service;
}.

Definition NewPromotionService (a : option AuditRepository) (c : Crypto.Service) : PromotionService :=
  mkPromotionService None a c.
Definition EnableVault (v : Vault.Service) (s : PromotionService) : PromotionService :=
  mkPromotionService (Some v) (ps_auditRepo s) (ps_cryptoSvc s).

Definition ErrSelfApproval : error := Sentinel "requester cannot approve their own promotion".
Definition PromotionNotPending : string := "promotion is no longer pending".
Definition ErrPromotionNotPending : error := Sentinel PromotionNotPending.

Definition envOrder : gmap string Z := list_to_map [("alpha", 0%Z); ("uat", 1%Z); ("prod", 2%Z)].

Definition validateEnvironmentOrder (source target : string) : result unit :=
  match envOrder !! source, envOrder !! target with
  | Some srcOrder, Some tgtOrder =>
      if (tgtOrder <=? srcOrder)%Z then Err (Errorf "can only promote forward")
      else if (1 <? tgtOrder - srcOrder)%Z then Err (Errorf "can only promote to the next environment")
      else Ok tt
  | _, _ => Err (Errorf "invalid environment name")
  end.

(** A nil [[]string] is printed as [null]. *)
Definition keys_json (l : list string) : json :=
  match l with [] => JNull | _ => JList (map JStr l) end.

Section Service.
Context `{P : Primitives} (s : PromotionService).

(** [audit_helper.go]: a failed audit entry is not the caller's failure. *)
Definition emitAudit (repo : option AuditRepository) (actorID projectID : option uuid) (action environment : string) (details : json)
    (ipAddr : string) : Tx unit :=
  match repo with
  | None => mret ()
  | Some r => _ ← attempt (AuditLog.Create r actorID projectID action environment details ipAddr); mret ()
  end.

Definition diffHashLen : nat := 16.
Definition hashSecretForDiff (dek value : string) : string :=
  String.substring 0 diffHashLen (hex_EncodeToString (hmac_sha256 dek value)).

Definition decryptProjectDEK (project : project_row) : Tx string :=
  wrap_err "decrypting project DEK" (lift (DecryptDEK (ps_cryptoSvc s) (pr_encrypted_dek project) (pr_dek_nonce project))).

(** [len(filterSet) > 0 && !filterSet[key]]. *)
Definition filtered_out (filter : list string) (key : string) : bool :=
  negb (bool_decide (filter = [])) && negb (bool_decide (key ∈ filter)).

(** *** Without a vault *)

Definition diff_entry (dek : string) (tgtMap : gmap string secret_row) (srcSec : secret_row) : Tx DiffEntry :=
  srcValue ← wrap_err "decrypting source secret" (lift (Decrypt dek (sr_encrypted_value srcSec) (sr_value_nonce srcSec)));
  let h := hashSecretForDiff dek srcValue in
  match tgtMap !! sr_key srcSec with
  | Some tgtSec =>
      tgtValue ← wrap_err "decrypting target secret" (lift (Decrypt dek (sr_encrypted_value tgtSec) (sr_value_nonce tgtSec)));
      let h' := hashSecretForDiff dek tgtValue in
      mret (mkDiff (sr_key srcSec) h h' true true (if bool_decide (h = h') then "no_change" else "update"))
  | None => mret (mkDiff (sr_key srcSec) h "" true false "add")
  end.

Definition Diff (projectID : uuid) (sourceEnv targetEnv : string) (keysFilter : list string) : Tx (list DiffEntry) :=
  _ ← lift (validateEnvironmentOrder sourceEnv targetEnv);
  project ← wrap_err "getting project" (GetProjectByID projectID);
  srcEnv ← wrap_err "getting source environment" (GetByProjectAndName projectID sourceEnv);
  tgtEnv ← wrap_err "getting target environment" (GetByProjectAndName projectID targetEnv);
  dek ← decryptProjectDEK project;
  srcSecrets ← wrap_err "listing source secrets" (ListByProjectAndEnv projectID srcEnv);
  tgtSecrets ← wrap_err "listing target secrets" (ListByProjectAndEnv projectID tgtEnv);
  let tgtMap := foldl (λ m sec, <[sr_key (snd sec) := snd sec]> m) (∅ : gmap string secret_row) tgtSecrets in
  for_fold srcSecrets [] (λ diffs srcSec,
    if filtered_out keysFilter (sr_key srcSec.2) then mret diffs else
    d ← diff_entry dek tgtMap srcSec.2;
    mret (diffs ++ [d])).

(** One source secret: skipped, or snapshotted and written to the target. *)
Definition promote_one (dek : string) (promotion : PromotionRequest) (tgtEnv : uuid) (acc : list string * list string)
    (srcSec : uuid * secret_row) : Tx (list string * list string) :=
  let key := sr_key srcSec.2 in
  if filtered_out (q_KeysFilter promotion) key then mret acc else
  existing ← wrap_err "checking target key" (GetByEnvAndKeyTx tgtEnv key);
  if bool_decide (is_Some existing) && bool_decide (q_OverridePolicy promotion = "skip") then mret (acc.1, acc.2 ++ [key]) else
  _ ← match existing with
      | Some e => CreateSnapshotTx (q_ID promotion) tgtEnv (sr_key e.2) (sr_encrypted_value e.2) (sr_value_nonce e.2) true
      | None => CreateSnapshotTx (q_ID promotion) tgtEnv key "" "" false
      end;
  srcValue ← wrap_err "decrypting source secret" (lift (Decrypt dek (sr_encrypted_value srcSec.2) (sr_value_nonce srcSec.2)));
  cn ← wrap_err "encrypting secret" (Encrypt dek srcValue);
  _ ← wrap_err "upserting secret" (UpsertTx (q_ProjectID promotion) tgtEnv key cn.1 cn.2);
  mret (acc.1 ++ [key], acc.2).

Definition promote_tx (dek : string) (promotion : PromotionRequest) (tgtEnv : uuid) (srcSecrets : list (uuid * secret_row))
    (approvedBy : option uuid) : Tx (list string * list string) :=
  with_tx (
    claimed ← CompareAndSetStatusTx (q_ID promotion) "pending" "completed" approvedBy;
    if negb claimed then fail ErrPromotionNotPending else
    for_fold srcSecrets ([], []) (promote_one dek promotion tgtEnv)).

Definition runPromotion (promotion : PromotionRequest) (executorID : uuid) (approvedBy : option uuid) (ipAddress : string) : Tx unit :=
  project ← wrap_err "getting project" (GetProjectByID (q_ProjectID promotion));
  srcEnv ← wrap_err "getting source environment" (GetByProjectAndName (q_ProjectID promotion) (q_Source promotion));
  tgtEnv ← wrap_err "getting target environment" (GetByProjectAndName (q_ProjectID promotion) (q_Target promotion));
  dek ← decryptProjectDEK project;
  srcSecrets ← wrap_err "listing source secrets" (ListByProjectAndEnv (q_ProjectID promotion) srcEnv);
  done_ ← promote_tx dek promotion tgtEnv srcSecrets approvedBy;
  emitAudit (ps_auditRepo s) (Some executorID) (Some (q_ProjectID promotion)) "promotion_completed" (q_Target promotion)
    (mk_obj [("promotion_id", JStr (uuid_String (q_ID promotion))); ("source_environment", JStr (q_Source promotion));
             ("target_environment", JStr (q_Target promotion)); ("promoted_keys", keys_json done_.1);
             ("skipped_keys", keys_json done_.2); ("override_policy", JStr (q_OverridePolicy promotion))]) ipAddress.

(** [overridePolicy == ""] means [skip]. *)
Definition override_default (overridePolicy : string) : string :=
  if bool_decide (overridePolicy = "") then "skip" else overridePolicy.
Definition override_ok (overridePolicy : string) : bool :=
  bool_decide (overridePolicy = "skip") || bool_decide (overridePolicy = "overwrite").

Definition Promote (projectID : uuid) (sourceEnv targetEnv : string) (keysFilter : list string) (overridePolicy notes : string)
    (userID : uuid) (ipAddress : string) : Tx PromotionRequest :=
  _ ← lift (validateEnvironmentOrder sourceEnv targetEnv);
  let overridePolicy := override_default overridePolicy in
  if negb (override_ok overridePolicy) then fail (Errorf "invalid override_policy: must be 'skip' or 'overwrite'") else
  promotion ← wrap_err "creating promotion request"
    (Create projectID sourceEnv targetEnv userID keysFilter overridePolicy notes);
  if bool_decide (targetEnv = "prod") then
    _ ← emitAudit (ps_auditRepo s) (Some userID) (Some projectID) "promotion_requested" targetEnv
          (mk_obj [("promotion_id", JStr (uuid_String (q_ID promotion))); ("source_environment", JStr sourceEnv);
                   ("target_environment", JStr targetEnv); ("status", JStr "pending_approval")]) ipAddress;
    mret promotion
  else
    r ← attempt (runPromotion promotion userID None ipAddress);
    match r with
    | Err e =>
        _ ← (if errors_Is e PromotionNotPending then mret (Ok tt)
             else attempt (UpdateStatus (q_ID promotion) "rejected" None));
        fail (Wrapf "executing promotion" e)
    | Ok _ => wrap_err "refreshing promotion" (GetByID (q_ID promotion))
    end.

(** The audit details of an approval, a rejection. *)
Definition decision_details (promotion : PromotionRequest) : json :=
  mk_obj [("promotion_id", JStr (uuid_String (q_ID promotion))); ("source_environment", JStr (q_Source promotion));
          ("target_environment", JStr (q_Target promotion))].

Definition ApprovePromotion (promotionID approverID : uuid) (ipAddress : string) : Tx PromotionRequest :=
  promotion ← wrap_err "getting promotion" (GetByID promotionID);
  if negb (bool_decide (pq_status (q_row promotion) = "pending")) then fail (Errorf "promotion is not pending approval") else
  if bool_decide (pq_requested_by (q_row promotion) = approverID) then fail ErrSelfApproval else
  _ ← emitAudit (ps_auditRepo s) (Some approverID) (Some (q_ProjectID promotion)) "promotion_approved" (q_Target promotion)
        (decision_details promotion) ipAddress;
  r ← attempt (runPromotion promotion approverID (Some approverID) ipAddress);
  match r with
  | Err e =>
      if errors_Is e PromotionNotPending then fail e else
      _ ← attempt (UpdateStatus promotionID "rejected" (Some approverID));
      fail (Wrapf "executing promotion" e)
  | Ok _ => wrap_err "refreshing promotion" (GetByID promotionID)
  end.

Definition RejectPromotion (promotionID rejecterID : uuid) (ipAddress : string) : Tx PromotionRequest :=
  promotion ← wrap_err "getting promotion" (GetByID promotionID);
  if negb (bool_decide (pq_status (q_row promotion) = "pending")) then fail (Errorf "promotion is not pending") else
  _ ← wrap_err "rejecting promotion" (UpdateStatus promotionID "rejected" (Some rejecterID));
  _ ← emitAudit (ps_auditRepo s) (Some rejecterID) (Some (q_ProjectID promotion)) "promotion_rejected" (q_Target promotion)
        (decision_details promotion) ipAddress;
  wrap_err "refreshing promotion" (GetByID promotionID).

(** One snapshot put back: the prior value, or no value at all. *)
Definition rollback_snapshot (projectID : uuid) (acc : list string * list string) (snap : snapshot_row)
  : Tx (list string * list string) :=
  if ss_prior_existed snap then
    _ ← wrap_err "restoring secret"
          (UpsertTx projectID (ss_environment_id snap) (ss_key snap) (ss_encrypted_value snap) (ss_value_nonce snap));
    mret (acc.1 ++ [ss_key snap], acc.2)
  else
    _ ← wrap_err "removing added secret" (DeleteByEnvAndKeyTx (ss_environment_id snap) (ss_key snap));
    mret (acc.1, acc.2 ++ [ss_key snap]).

Definition Rollback (promotionID userID : uuid) (ipAddress : string) : Tx unit :=
  promotion ← wrap_err "getting promotion" (GetByID promotionID);
  if negb (bool_decide (pq_status (q_row promotion) = "completed")) then fail (Errorf "can only rollback completed promotions") else
  snapshots ← wrap_err "getting snapshots" (GetSnapshotsByPromotionID promotionID);
  done_ ← with_tx (
    done_ ← for_fold snapshots ([], []) (rollback_snapshot (q_ProjectID promotion));
    ok ← MarkRolledBackTx promotionID;
    if negb ok then fail (Errorf "promotion was not in completed state at rollback") else mret done_);
  emitAudit (ps_auditRepo s) (Some userID) (Some (q_ProjectID promotion)) "promotion_rollback" (q_Target promotion)
    (mk_obj [("promotion_id", JStr (uuid_String promotionID)); ("source_environment", JStr (q_Source promotion));
             ("target_environment", JStr (q_Target promotion)); ("restored_keys", keys_json done_.1);
             ("deleted_keys", keys_json done_.2)]) ipAddress.

Definition ListPromotions (projectID : uuid) : Tx (list PromotionRequest) := ListByProjectID projectID.
Definition GetPromotion (promotionID : uuid) : Tx PromotionRequest := GetByID promotionID.

(** *** With a vault: [promotion_vault.go] *)

Definition DiffAuthorized (p : Principal) (project : uuid) (source target : string) (keys : list string) : Tx (list DiffEntry) :=
  match ps_vault s with
  | None => Diff project source target keys
  | Some v =>
      if negb (bool_decide (p_Kind p = Human)) then fail Vault.ErrDenied else
      _ ← on_err ErrInvalid (lift (validateEnvironmentOrder source target));
      PromotionDiff v p project source target keys
  end.

(** The claim that ends an execution. *)
Definition claim_or_conflict (id : uuid) (from to : string) (approvedBy : option uuid) : Tx unit :=
  claimed ← CompareAndSetStatusTx id from to approvedBy;
  if negb claimed then fail ErrConflict else mret ().

Definition PromoteAuthorized (p : Principal) (project : uuid) (source target : string) (keys : list string)
    (override notes ip : string) : Tx PromotionRequest :=
  match ps_vault s with
  | None => Promote project source target keys override notes (p_ActorID p) ip
  | Some v =>
      if negb (bool_decide (p_Kind p = Human)) then fail Vault.ErrDenied else
      _ ← on_err ErrInvalid (lift (validateEnvironmentOrder source target));
      let override := override_default override in
      if negb (override_ok override) then fail ErrInvalid else
      Transaction v p project WriteSecret (
        pr ← CreateTx project source target (p_ActorID p) keys override notes;
        _ ← BindPromotionTx v p pr;
        _ ← EventTx v p project "promotion_requested" target;
        if bool_decide (target = "prod") then mret pr else
        _ ← ApplyPromotionTx v p pr;
        _ ← claim_or_conflict (q_ID pr) "pending" "completed" None;
        _ ← EventTx v p project "promotion_completed" target;
        GetByIDTx (q_ID pr) project)
  end.

Definition ApprovePromotionAuthorized (p : Principal) (project id : uuid) (ip : string) : Tx PromotionRequest :=
  match ps_vault s with
  | None => ApprovePromotion id (p_ActorID p) ip
  | Some v =>
      if negb (bool_decide (p_Kind p = Human)) then fail Vault.ErrDenied else
      Transaction v p project Policy.ApprovePromotion (
        pr ← on_err ErrNotFound (GetByIDTx id project);
        if bool_decide (pq_requested_by (q_row pr) = p_ActorID p) then fail ErrSelfApproval else
        if negb (bool_decide (pq_status (q_row pr) = "pending")) then fail ErrConflict else
        _ ← EventTx v p project "promotion_approved" (q_Target pr);
        _ ← ApplyPromotionTx v p pr;
        _ ← claim_or_conflict id "pending" "completed" (Some (p_ActorID p));
        _ ← EventTx v p project "promotion_completed" (q_Target pr);
        GetByIDTx id project)
  end.

Definition RejectPromotionAuthorized (p : Principal) (project id : uuid) (ip : string) : Tx PromotionRequest :=
  match ps_vault s with
  | None => RejectPromotion id (p_ActorID p) ip
  | Some v =>
      if negb (bool_decide (p_Kind p = Human)) then fail Vault.ErrDenied else
      Transaction v p project Policy.ApprovePromotion (
        pr ← on_err ErrNotFound (GetByIDTx id project);
        _ ← claim_or_conflict id "pending" "rejected" (Some (p_ActorID p));
        _ ← EventTx v p project "promotion_rejected" (q_Target pr);
        GetByIDTx id project)
  end.

Definition RollbackAuthorized (p : Principal) (project id : uuid) (ip : string) : Tx unit :=
  match ps_vault s with
  | None => Rollback id (p_ActorID p) ip
  | Some v =>
      if negb (bool_decide (p_Kind p = Human)) then fail Vault.ErrDenied else
      Transaction v p project Policy.ApprovePromotion (
        pr ← on_err ErrNotFound (GetByIDTx id project);
        if negb (bool_decide (pq_status (q_row pr) = "completed")) then fail ErrConflict else
        _ ← EventTx v p project "promotion_rollback" (q_Target pr);
        _ ← RollbackPromotionTx v p pr;
        ok ← MarkRolledBackTx id;
        if negb ok then fail ErrConflict else mret ())
  end.
End Service.

(** ** Lemmas *)

Section Facts.
Context `{P : Primitives} (s : PromotionService).

Lemma emitAudit_core repo u pr a e d ip : keeps same_core (emitAudit repo u pr a e d ip).
Proof.
  unfold emitAudit. destruct repo as [r|]; [|apply keeps_ret, _].
  apply keeps_bind; [apply _| |intros _; apply keeps_ret, _]. apply keeps_attempt, keeps_with_tx; [apply _|].
  eapply keeps_weaken; [|apply (audit_keeps (AuditorOk := CreateTx_auditor r))]. by intros x y [? _].
Qed.
Lemma keeps_emitAudit R `{!Frame R} repo u pr a e d ip : keeps R (emitAudit repo u pr a e d ip).
Proof. eapply keeps_weaken; [apply frame_core|apply emitAudit_core]. Qed.
Lemma emitAudit_total repo u pr a e d ip w : ∃ w', emitAudit repo u pr a e d ip w = (Ok tt, w').
Proof. unfold emitAudit. destruct repo as [r|]; [|by eexists].
  destruct (AuditLog.Create r u pr a e d ip w) as [x w'] eqn:E. exists w'. apply bind_attempt. by exists x, w'.
Qed.

Lemma upsert_frame R `{!Frame R} id p e k c n t db db' : upsert_secret id p e k c n t db = Some db' → R db db'.
Proof.
  intros H. unfold upsert_secret, insert_secret in H. destruct (secret_named e k db); [injection H as <-; apply frame_live|].
  destruct (_ || _); [done|]. injection H as <-. apply frame_live.
Qed.
Lemma keeps_UpsertTx R `{!Frame R} p e k c n : keeps R (UpsertTx p e k c n).
Proof.
  apply keeps_bind; [apply _|apply keeps_uuid_New, _|intros id]. apply keeps_bind; [apply _|apply keeps_get, _|intros t].
  apply keeps_wrap_err, keeps_exec; [apply _|]. intros db db'. by apply upsert_frame.
Qed.
Lemma keeps_CreateSnapshotTx R `{!Frame R} id e k c n b : keeps R (CreateSnapshotTx id e k c n b).
Proof.
  apply keeps_bind; [apply _|apply keeps_uuid_New, _|intros i]. apply keeps_wrap_err, keeps_exec; [apply _|].
  intros db db' H. unfold insert_snapshot in H. inv_write H. subst. apply frame_snapshots.
Qed.

Lemma promote_one_frame R `{!Frame R} dek pr tgt acc src : keeps R (promote_one dek pr tgt acc src).
Proof.
  unfold promote_one. destruct (filtered_out _ _); [apply keeps_ret, _|].
  apply keeps_bind; [apply _|apply keeps_wrap_err, keeps_wrap_err, keeps_query, _|intros ex].
  destruct (_ && _); [apply keeps_ret, _|].
  apply keeps_bind; [apply _|destruct ex; by apply keeps_CreateSnapshotTx|intros _].
  apply keeps_bind; [apply _|apply keeps_wrap_err, keeps_lift, _|intros v].
  apply keeps_bind; [apply _|apply keeps_wrap_err, keeps_encrypt, _|intros cn].
  apply keeps_bind; [apply _|apply keeps_wrap_err; by apply keeps_UpsertTx|intros _]. apply keeps_ret, _.
Qed.
Lemma rollback_snapshot_frame R `{!Frame R} project acc snap : keeps R (rollback_snapshot project acc snap).
Proof.
  unfold rollback_snapshot. destruct (ss_prior_existed snap).
  - apply keeps_bind; [apply _|apply keeps_wrap_err; by apply keeps_UpsertTx|intros _]. apply keeps_ret, _.
  - apply keeps_bind; [apply _| |intros _; apply keeps_ret, _].
    apply keeps_wrap_err, keeps_wrap_err, keeps_exec_; [apply _|]. intros db. apply frame_live.
Qed.

(** An execution without a vault either claimed the pending request or did
    nothing to the requests. *)
Definition claimed_by (id : uuid) (ab : option uuid) (db db' : DB) : Prop :=
  ∃ q c, promotions db !! id = Some q ∧ pq_status q = "pending" ∧ ab ≠ Some (pq_requested_by q) ∧
    promotions db' = <[id := set_status "completed" ab c q]> (promotions db).

Lemma promote_tx_Ok dek pr tgt srcs ab r w w' :
  promote_tx dek pr tgt srcs ab w = (Ok r, w') →
  ∃ w1 w2, (∃ q c, promotions (w_db w) !! q_ID pr = Some q ∧ pq_status q = "pending" ∧ ab ≠ Some (pq_requested_by q) ∧
      w_db w1 = upd_db_secrets (upd_t_promotion_requests <[q_ID pr := set_status "completed" ab c q]>) (w_db w)) ∧
    for_fold srcs ([], []) (promote_one dek pr tgt) w1 = (Ok r, w2) ∧ w_db w' = w_db w2.
Proof.
  intros H. apply with_tx_Ok in H as (w2 & H & ->). apply bind_Ok in H as (b & w1 & H1 & H).
  unfold CompareAndSetStatusTx in H1. apply bind_Ok in H1 as (n & w3 & H1 & H3). apply ret_Ok in H3 as [<- <-].
  apply setStatus_Ok in H1 as [[-> _]|(-> & q & c & Hq & [?|Hp] & Hsep & E)]; [done..|].
  cbn in *. exists w3, w2. split; [|done]. by exists q, c.
Qed.

Lemma runPromotion_moves pr ex ab ip r w w' :
  runPromotion s pr ex ab ip w = (r, w') →
  match r with
  | Ok _ => claimed_by (q_ID pr) ab (w_db w) (w_db w')
  | Err _ => same_promotions (w_db w) (w_db w')
  end.
Proof.
  revert w r w'. set (Q (r : result unit) db db' := match r with Ok _ => claimed_by (q_ID pr) ab db db' | Err _ => same_promotions db db' end).
  assert (∀ (e : error) db, Q (Err e : result unit) db db) as He by done.
  apply (reads_then Q); [apply keeps_wrap_err, keeps_wrap_err, keeps_query_row, _|exact He|intros project].
  apply (reads_then Q); [apply keeps_wrap_err, keeps_wrap_err, keeps_query_row, _|exact He|intros srcEnv].
  apply (reads_then Q); [apply keeps_wrap_err, keeps_wrap_err, keeps_query_row, _|exact He|intros tgtEnv].
  apply (reads_then Q); [apply keeps_wrap_err, keeps_lift, _|exact He|intros dek].
  apply (reads_then Q); [apply keeps_wrap_err, keeps_wrap_err, keeps_query, _|exact He|intros srcs].
  intros w r w' H. unfold Q. clear Q He.
  unfold mbind, M_bind in H. destruct (promote_tx _ _ _ _ _ _) as [[x|e] w1] eqn:E1 in H.
  - apply promote_tx_Ok in E1 as (w2 & w3 & (q & c & Hq & Hp & Hsep & E2) & E3 & E4).
    destruct (emitAudit_total (ps_auditRepo s) (Some ex) (Some (q_ProjectID pr)) "promotion_completed" (q_Target pr)
      (mk_obj [("promotion_id", JStr (uuid_String (q_ID pr))); ("source_environment", JStr (q_Source pr));
             ("target_environment", JStr (q_Target pr)); ("promoted_keys", keys_json x.1);
             ("skipped_keys", keys_json x.2); ("override_policy", JStr (q_OverridePolicy pr))]) ip w1) as [w4 E5].
    pose proof (keeps_emitAudit same_promotions _ _ _ _ _ _ _ _ _ _ E5) as E6.
    rewrite E5 in H. injection H as <- <-. exists q, c. split_and!; try done.
    apply (keeps_for_fold same_promotions _ _ _ (promote_one_frame same_promotions dek pr tgtEnv)) in E3.
    unfold same_promotions in *. by rewrite E6, E4, E3, E2.
  - apply with_tx_Err in E1. injection H as <- <-. by rewrite E1.
Qed.
End Facts.

(** *** Every operation moves the requests forward *)

Section Moves.
Context `{P : Primitives} (s : PromotionService).

Lemma moves_refl db db' : db' = db → moves db db'.
Proof. intros ->. reflexivity. Qed.

(** Once the request [pr] was read as pending, an execution with an approver
    (or towards another target than production) moves forward. *)
Lemma claimed_moves id ab q db db' :
  claimed_by id ab db db' → promotions db !! id = Some q →
  (pq_target_environment q = "prod" → is_Some ab) → moves db db'.
Proof.
  intros (q' & c & Hq & Hp & Hsep & E) Hid Hab. rewrite Hq in Hid. injection Hid as ->.
  eapply moves_set; [done|done| |].
  - split; try done. cbn. rewrite Hp. apply rtc_once. left. auto.
  - intros _. split; cbn; [set_solver|done|auto].
Qed.

(** The rejection that follows a failed execution, whatever becomes of it. *)
Lemma reject_moves id ab q r w w' :
  promotions (w_db w) !! id = Some q → pq_status q = "pending" →
  UpdateStatus id "rejected" ab w = (r, w') → moves (w_db w) (w_db w').
Proof.
  intros Hq Hp H. unfold UpdateStatus, mbind, M_bind in H. destruct (setStatus _ _ _ _ w) as [[n|e] w1] eqn:E.
  - injection H as _ <-. eapply decide_pending_moves; [by right| |done]. intros q' Hq'. rewrite Hq in Hq'. by injection Hq' as <-.
  - injection H as _ <-. apply setStatus_Err in E. by apply moves_refl.
Qed.

Lemma GetByID_reads id : keeps unchanged (GetByID id).
Proof. apply keeps_bind; [apply _|apply keeps_wrap_err, keeps_query_row, _|intros q; apply keeps_ret, _]. Qed.
Lemma GetByID_Ok id pr w w' :
  GetByID id w = (Ok pr, w') → w_db w' = w_db w ∧ q_ID pr = id ∧ promotions (w_db w) !! id = Some (q_row pr).
Proof.
  intros H. unfold GetByID in H. apply bind_Ok in H as (q & w1 & H1 & H). apply wrap_err_Ok, query_row_Ok in H1 as [Hq ->].
  apply ret_Ok in H as [<- <-]. done.
Qed.

Lemma refreshed msg id : keeps moves (wrap_err msg (GetByID id)).
Proof. apply keeps_wrap_err, keeps_unchanged; [apply _|apply GetByID_reads]. Qed.

(** The rest of an approval or an immediate promotion, after the request was
    recorded or read. *)
Lemma execute_moves pr q ex ab ip r w w' :
  promotions (w_db w) !! q_ID pr = Some q → pq_status q = "pending" →
  (pq_target_environment q = "prod" → is_Some ab) →
  runPromotion s pr ex ab ip w = (r, w') →
  moves (w_db w) (w_db w') ∧ (∀ e, r = Err e → promotions (w_db w') = promotions (w_db w)).
Proof.
  intros Hq Hp Hab H%runPromotion_moves. destruct r as [u|e]; [|split; [by apply moves_same|done]].
  split; [|done]. by eapply claimed_moves.
Qed.

Lemma ApprovePromotion_moves id approver ip : keeps moves (ApprovePromotion s id approver ip).
Proof.
  intros w r w' H. unfold ApprovePromotion in H.
  apply bind_unchanged in H as [(e & -> & E)|(pr & w1 & H1 & E & H)]; [by apply moves_refl| |apply keeps_wrap_err, GetByID_reads].
  apply wrap_err_Ok, GetByID_Ok in H1 as (_ & Hid & Hq). rewrite <-E in Hq |- *. clear E w.
  destruct (negb _) eqn:Hst; [by injection H as _ <-|]. apply negb_false_iff, bool_decide_eq_true in Hst.
  destruct (bool_decide _); [by injection H as _ <-|].
  unfold mbind at 1, M_bind at 1 in H.
  destruct (emitAudit_total (ps_auditRepo s) (Some approver) (Some (q_ProjectID pr)) "promotion_approved" (q_Target pr)
    (decision_details pr) ip w1) as [w2 E2]. rewrite E2 in H.
  pose proof (keeps_emitAudit same_promotions _ _ _ _ _ _ _ _ _ _ E2) as S2.
  etrans; [by apply moves_same|]. unfold same_promotions in S2. rewrite <-S2 in Hq. clear S2 E2 w1.
  apply bind_attempt in H as (x & w3 & H3 & H).
  rewrite <-Hid in Hq. eapply execute_moves in H3 as [M3 N3]; [|done..]. etrans; [exact M3|]. destruct x as [u|e].
  - by apply refreshed in H.
  - rewrite <-(N3 e eq_refl) in Hq. destruct (errors_Is _ _); [by injection H as _ <-|].
    apply bind_attempt in H as (y & w4 & H4 & H). injection H as _ <-. rewrite Hid in Hq. by eapply reject_moves.
Qed.

Lemma Promote_moves project src tgt keys ov notes u ip : keeps moves (Promote s project src tgt keys ov notes u ip).
Proof.
  intros w r w' H. unfold Promote in H.
  apply bind_unchanged in H as [(e & -> & E)|(a & w1 & _ & E & H)]; [by apply moves_refl| |apply keeps_lift, _].
  rewrite <-E. clear E w a. destruct (negb _); [by injection H as _ <-|].
  set (ov' := override_default ov) in *. unfold mbind at 1, M_bind at 1 in H.
  destruct (wrap_err _ _ w1) as [[pr|e] w2] eqn:E2.
  2:{ injection H as _ <-. refine ((_ : keeps moves _) _ _ _ E2). apply keeps_wrap_err.
      apply keeps_bind; [apply _|apply keeps_uuid_New, _|intros id]. apply keeps_bind; [apply _|apply keeps_get, _|intros t].
      apply keeps_bind; [apply _| |intros _; apply keeps_ret, _]. apply keeps_wrap_err, keeps_exec; [apply _|].
      intros db db' Hi. by apply insert_promotion_moves in Hi as [? _]. }
  apply wrap_err_Ok in E2. unfold Create in E2.
  apply bind_Ok in E2 as (id & w3 & [_ ->]%uuid_New_Ok & E2). apply bind_Ok in E2 as (t & w4 & [-> ->]%now_Ok & E2).
  apply bind_Ok in E2 as (u5 & w5 & H5 & E2). apply ret_Ok in E2 as [<- <-].
  apply wrap_err_Ok, exec_Ok in H5 as (db & Hi & ->). cbn in Hi. apply insert_promotion_moves in Hi as (M & Hno & Edb).
  etrans; [exact M|]. cbn in *.
  set (w2 := upd_w_db (const db) _) in *. change db with (w_db w2). set (q := new_promotion _ _ _ _ _ _ _ _) in *.
  assert (promotions (w_db w2) !! id = Some q) as Hq by (by cbn; rewrite Edb; unfold promotions; cbn; rewrite lookup_insert_eq).
  clearbody w2. clear M Edb. case_bool_decide as Ht.
  - refine ((_ : keeps moves _) _ _ _ H). apply keeps_bind; [apply _| |intros _; apply keeps_ret, _].
    intros x y z Hx. eapply moves_same, keeps_emitAudit; [apply _|done].
  - apply bind_attempt in H as (x & w6 & H6 & H).
    eapply execute_moves in H6 as [M6 N6]; [|done|done|done]. etrans; [exact M6|]. destruct x as [v|e]; [by apply refreshed in H|].
    unfold mbind, M_bind in H. destruct (errors_Is _ _); [by injection H as _ <-|].
    apply bind_attempt in H as (y & w7 & H7 & H). injection H as _ <-.
    rewrite <-(N6 e eq_refl) in Hq. by eapply reject_moves.
Qed.

Lemma RejectPromotion_moves id rejecter ip : keeps moves (RejectPromotion s id rejecter ip).
Proof.
  intros w r w' H. unfold RejectPromotion in H.
  apply bind_unchanged in H as [(e & -> & E)|(pr & w1 & H1 & E & H)]; [by apply moves_refl| |apply keeps_wrap_err, GetByID_reads].
  apply wrap_err_Ok, GetByID_Ok in H1 as (_ & Hid & Hq). rewrite <-E in Hq |- *. clear E w.
  destruct (negb _) eqn:Hst; [by injection H as _ <-|]. apply negb_false_iff, bool_decide_eq_true in Hst.
  unfold mbind at 1, M_bind at 1, wrap_err at 1 in H. destruct (UpdateStatus _ _ _ w1) as [[v|e] w2] eqn:E2.
  - apply reject_moves with (q := q_row pr) in E2; [|done..]. etrans; [exact E2|]. refine ((_ : keeps moves _) _ _ _ H).
    apply keeps_bind; [apply _| |intros _; apply refreshed].
    intros x y z Hx. eapply moves_same, keeps_emitAudit; [apply _|done].
  - injection H as _ <-. by eapply reject_moves.
Qed.

Lemma Rollback_moves id u ip : keeps moves (Rollback s id u ip).
Proof.
  unfold Rollback. apply keeps_bind; [apply _| |intros pr].
  { apply keeps_wrap_err, keeps_unchanged; [apply _|apply GetByID_reads]. }
  destruct (negb _); [apply keeps_fail, _|]. apply keeps_bind; [apply _|apply keeps_wrap_err, keeps_query, _|intros snaps].
  apply keeps_bind; [apply _| |intros d; intros x y z Hx; eapply moves_same, keeps_emitAudit; [apply _|done]].
  apply keeps_with_tx_ok; [apply _|]. apply ok_keeps_bind; [apply _| |intros d].
  - intros x y z Hx. apply moves_same.
    by apply (keeps_for_fold same_promotions _ _ _ (rollback_snapshot_frame same_promotions _)) in Hx.
  - apply ok_keeps_bind; [apply _|apply MarkRolledBackTx_moves|intros ok]. destruct (negb ok); [apply ok_keeps_fail|].
    apply ok_keeps_keeps, keeps_ret, _.
Qed.
End Moves.

(** *** ... with a vault *)

Section Authorized.
Context `{P : Primitives} (s : PromotionService) (Hv : ∀ v, ps_vault s = Some v → ServiceOk v).

Lemma keeps_Transaction R `{!PreOrder R} {A} v `{!ServiceOk v} p project action (fn : Tx A) :
  ok_keeps R fn → keeps R (Transaction v p project action fn).
Proof.
  intros Hf. apply keeps_vault_tx; [apply _|]. apply ok_keeps_bind; [apply _| |done].
  apply ok_keeps_keeps, keeps_permit; apply _.
Qed.
Lemma Transaction_Ok {A} v p project action (fn : Tx A) a w w' `{!ServiceOk v} :
  Transaction v p project action fn w = (Ok a, w') →
  ∃ w1 w2, w_db w1 = w_db w ∧ fn w1 = (Ok a, w2) ∧ w_db w' = w_db w2.
Proof.
  intros H. apply vault_tx_Ok in H as (w1 & w2 & E & H & ->). apply bind_Ok in H as (u & w3 & H3 & H).
  apply (keeps_permit v unchanged) in H3. unfold unchanged in H3. exists w3, w2. split; [congruence|done].
Qed.
Lemma Transaction_Err {A} v p project action (fn : Tx A) e w w' :
  Transaction v p project action fn w = (Err e, w') → w_db w' = w_db w.
Proof. apply with_tx_Err. Qed.

Lemma EventTx_moves v `{!ServiceOk v} p project a env : keeps moves (EventTx v p project a env).
Proof. intros w r w' H. eapply moves_same, event_frame; [apply _..|done]. Qed.
Lemma GetByIDTx_reads id project : keeps unchanged (GetByIDTx id project).
Proof. apply keeps_query_row, _. Qed.
Lemma GetByIDTx_Ok id project pr w w' :
  GetByIDTx id project w = (Ok pr, w') →
  w_db w' = w_db w ∧ q_ID pr = id ∧ q_ProjectID pr = project ∧ promotions (w_db w) !! id = Some (q_row pr).
Proof.
  intros [H ->]%query_row_Ok. cbn in H. destruct (promotions (w_db w) !! id) as [q|]; [cbn in H|done].
  case_bool_decide as Hp; [|done]. by injection H as <-.
Qed.

(** A claim that did not fail has moved the pending request on. *)
Lemma claim_or_conflict_Ok id st ab u w w' :
  (st = "completed" ∨ st = "rejected") →
  (st = "completed" → ∀ q, promotions (w_db w) !! id = Some q → pq_target_environment q = "prod" → is_Some ab) →
  claim_or_conflict id "pending" st ab w = (Ok u, w') →
  moves (w_db w) (w_db w') ∧ ∃ q c, promotions (w_db w) !! id = Some q ∧ pq_status q = "pending" ∧
    ab ≠ Some (pq_requested_by q) ∧
    w_db w' = upd_db_secrets (upd_t_promotion_requests <[id := set_status st ab c q]>) (w_db w).
Proof.
  intros Hst Hab H. unfold claim_or_conflict in H. apply bind_Ok in H as (b & w1 & H1 & H).
  apply claim_moves in H1 as [M H1]; [|done..]. destruct b; cbn in H; [|done]. by apply ret_Ok in H as [_ <-].
Qed.
Lemma claim_or_conflict_moves id st a :
  st = "completed" ∨ st = "rejected" → ok_keeps moves (claim_or_conflict id "pending" st (Some a)).
Proof. intros Hst w u w' H. apply claim_or_conflict_Ok in H as [? _]; [done|done|by eauto]. Qed.

Lemma PromoteAuthorized_moves p project src tgt keys ov notes ip :
  keeps moves (PromoteAuthorized s p project src tgt keys ov notes ip).
Proof.
  unfold PromoteAuthorized. destruct (ps_vault s) as [v|] eqn:Ev; [|apply Promote_moves].
  specialize (Hv v eq_refl). destruct (negb _); [apply keeps_fail, _|].
  apply keeps_bind; [apply _|apply keeps_on_err, keeps_lift, _|intros _]. destruct (negb _); [apply keeps_fail, _|].
  apply keeps_Transaction; [apply _..|]. intros w r w' H. apply bind_Ok in H as (pr & w1 & H1 & H).
  unfold CreateTx in H1. apply bind_Ok in H1 as (id & w2 & [_ ->]%uuid_New_Ok & H1).
  apply bind_Ok in H1 as (t & w3 & [-> ->]%now_Ok & H1). apply bind_Ok in H1 as (u & w4 & (db & Hi & ->)%exec_Ok & H1).
  cbn in Hi. apply insert_promotion_moves in Hi as (M & Hno & Edb). cbn in *.
  apply GetByIDTx_Ok in H1 as (E1 & Hid & _ & Hq). cbn in E1, Hq. etrans; [exact M|]. rewrite <-E1. clear M.
  assert (pq_target_environment (q_row pr) = tgt) as Ht.
  { rewrite Edb in Hq. unfold promotions in Hq. cbn in Hq. rewrite lookup_insert_eq in Hq. by injection Hq as <-. }
  rewrite <-E1 in Hq. clear E1 Edb Hno db.
  apply bind_Ok in H as (u2 & w5 & H5 & H). apply (BindPromotionTx_frame v same_promotions) in H5.
  apply bind_Ok in H as (u3 & w6 & H6 & H). apply (event_frame v same_promotions) in H6.
  etrans; [by apply moves_same|]. etrans; [by apply moves_same|].
  case_bool_decide as Hp; [by apply ret_Ok in H as [_ <-]|].
  apply bind_Ok in H as (u4 & w7 & H7 & H). apply (ApplyPromotionTx_frame v same_promotions) in H7.
  etrans; [by apply moves_same|]. apply bind_Ok in H as (u5 & w8 & H8 & H).
  apply claim_or_conflict_Ok in H8 as [M8 _]; [|by left|].
  - etrans; [exact M8|]. apply bind_Ok in H as (u6 & w9 & H9 & H). apply EventTx_moves in H9; [|done].
    etrans; [exact H9|]. by apply GetByIDTx_Ok in H as [-> _].
  - intros _ q Hq'. unfold same_promotions in *. rewrite H7, H6, H5 in Hq'. rewrite Hid in Hq'. rewrite Hq in Hq'.
    injection Hq' as <-. congruence.
Qed.

Lemma ApprovePromotionAuthorized_moves p project id ip : keeps moves (ApprovePromotionAuthorized s p project id ip).
Proof.
  unfold ApprovePromotionAuthorized. destruct (ps_vault s) as [v|] eqn:Ev; [|apply ApprovePromotion_moves].
  specialize (Hv v eq_refl). destruct (negb _); [apply keeps_fail, _|].
  apply keeps_Transaction; [apply _..|]. apply ok_keeps_bind; [apply _| |intros pr].
  { apply ok_keeps_keeps, keeps_on_err, keeps_unchanged; [apply _|apply GetByIDTx_reads]. }
  destruct (bool_decide _); [apply ok_keeps_fail|]. destruct (negb _); [apply ok_keeps_fail|].
  apply ok_keeps_bind; [apply _|apply ok_keeps_keeps; by apply EventTx_moves|intros _].
  apply ok_keeps_bind; [apply _| |intros _].
  { intros w r w' H. eapply moves_same, ApplyPromotionTx_frame; [apply _..|done]. }
  apply ok_keeps_bind; [apply _|apply claim_or_conflict_moves; by left|intros _].
  apply ok_keeps_bind; [apply _|apply ok_keeps_keeps; by apply EventTx_moves|intros _].
  apply ok_keeps_keeps, keeps_unchanged; [apply _|apply GetByIDTx_reads].
Qed.

Lemma RejectPromotionAuthorized_moves p project id ip : keeps moves (RejectPromotionAuthorized s p project id ip).
Proof.
  unfold RejectPromotionAuthorized. destruct (ps_vault s) as [v|] eqn:Ev; [|apply RejectPromotion_moves].
  specialize (Hv v eq_refl). destruct (negb _); [apply keeps_fail, _|].
  apply keeps_Transaction; [apply _..|]. apply ok_keeps_bind; [apply _| |intros pr].
  { apply ok_keeps_keeps, keeps_on_err, keeps_unchanged; [apply _|apply GetByIDTx_reads]. }
  apply ok_keeps_bind; [apply _|apply claim_or_conflict_moves; by right|intros _].
  apply ok_keeps_bind; [apply _|apply ok_keeps_keeps; by apply EventTx_moves|intros _].
  apply ok_keeps_keeps, keeps_unchanged; [apply _|apply GetByIDTx_reads].
Qed.

Lemma RollbackAuthorized_moves p project id ip : keeps moves (RollbackAuthorized s p project id ip).
Proof.
  unfold RollbackAuthorized. destruct (ps_vault s) as [v|] eqn:Ev; [|apply Rollback_moves].
  specialize (Hv v eq_refl). destruct (negb _); [apply keeps_fail, _|].
  apply keeps_Transaction; [apply _..|]. apply ok_keeps_bind; [apply _| |intros pr].
  { apply ok_keeps_keeps, keeps_on_err, keeps_unchanged; [apply _|apply GetByIDTx_reads]. }
  destruct (negb _); [apply ok_keeps_fail|].
  apply ok_keeps_bind; [apply _|apply ok_keeps_keeps; by apply EventTx_moves|intros _].
  apply ok_keeps_bind; [apply _| |intros _].
  { intros w r w' H. eapply moves_same, RollbackPromotionTx_frame; [apply _..|done]. }
  apply ok_keeps_bind; [apply _|apply MarkRolledBackTx_moves|intros ok]. destruct (negb ok); [apply ok_keeps_fail|].
  apply ok_keeps_keeps, keeps_ret, _.
Qed.
End Authorized.

(** *** Runs *)

Inductive promotion_op :=
  | OpPromote (p : Principal) (project : uuid) (source target : string) (keys : list string) (override notes ip : string)
  | OpApprove (p : Principal) (project id : uuid) (ip : string)
  | OpReject (p : Principal) (project id : uuid) (ip : string)
  | OpRollback (p : Principal) (project id : uuid) (ip : string).

Section Runs.
Context `{P : Primitives} (s : PromotionService).

Definition run_op (o : promotion_op) (w : World) : World :=
  match o with
  | OpPromote p project source target keys override notes ip =>
      (PromoteAuthorized s p project source target keys override notes ip w).2
  | OpApprove p project id ip => (ApprovePromotionAuthorized s p project id ip w).2
  | OpReject p project id ip => (RejectPromotionAuthorized s p project id ip w).2
  | OpRollback p project id ip => (RollbackAuthorized s p project id ip w).2
  end.

(** Any sequence of requests, each at its own time. *)
Definition run_ops (l : list (time * promotion_op)) (w : World) : World :=
  foldl (λ w to, run_op to.2 (upd_w_now (const to.1) w)) w l.

Lemma run_op_moves o w : (∀ v, ps_vault s = Some v → ServiceOk v) → moves (w_db w) (w_db (run_op o w)).
Proof.
  intros Hv.
  assert (∀ A (m : Tx A), keeps moves m → moves (w_db w) (w_db (m w).2)) as K.
  { intros A m Hm. eapply Hm. apply surjective_pairing. }
  destruct o; apply K;
    [by apply PromoteAuthorized_moves|by apply ApprovePromotionAuthorized_moves|by apply RejectPromotionAuthorized_moves
    |by apply RollbackAuthorized_moves].
Qed.
Lemma run_ops_moves l w : (∀ v, ps_vault s = Some v → ServiceOk v) → moves (w_db w) (w_db (run_ops l w)).
Proof.
  intros Hv. revert w. induction l as [|[t o] l IH]; intros w; [reflexivity|].
  etrans; [|apply IH]. by apply (run_op_moves o (upd_w_now (const t) w)).
Qed.
End Runs.

(** *** An approval with a vault *)

Section Approval.
Context `{P : Primitives} `{!PrimitivesOk P} (s : PromotionService) (v : Vault.Service) `{!ServiceOk v}.

Lemma same_core_selected project env keys db db' :
  same_core db db' → selected_records project env keys db' = selected_records project env keys db.
Proof. destruct db, db'. intros (E1 & E2 & E3 & E4). cbn in *. by subst. Qed.
(** What an application did is there before the audit entry that precedes it and
    after whatever follows it. *)
Lemma applied_grows pr src db1 db2 db3 db4 :
  same_core db1 db2 → history_grows db3 db4 → same_projects db3 db4 →
  skipped pr src db3 ∨ promoted v pr src db2 db3 → skipped pr src db4 ∨ promoted v pr src db1 db4.
Proof.
  intros H G S [[Hs [i Hn]]|(id & rev & x & Hh & He & Hl)]; [left|right].
  - split; [done|]. exists i. by eapply named_grows.
  - exists id, rev, x. split_and!.
    + destruct db1, db2, H as (E1 & E2 & E3 & E4). cbn in *. by subst.
    + eapply lookup_weaken; [exact He|apply G].
    + by eapply landed_grows.
Qed.

(** What an approval that went through has done. *)
Definition approved (actor project id : uuid) (pr : PromotionRequest) (db db' : DB) : Prop :=
  ∃ q c, promotions db !! id = Some q ∧ pq_project_id q = project ∧ pq_status q = "pending" ∧
    pq_requested_by q ≠ actor ∧
    pr = mkRequest id (set_status "completed" (Some actor) c q) ∧
    promotions db' = <[id := q_row pr]> (promotions db) ∧
    Forall (λ src, skipped (mkRequest id q) src db' ∨ promoted v (mkRequest id q) src db db')
      (selected_records project (pq_source_environment q) (pq_keys_filter q) db).

Lemma approve_Ok p project id ip pr w w' :
  ps_vault s = Some v → journal_ok (w_db w) →
  ApprovePromotionAuthorized s p project id ip w = (Ok pr, w') →
  approved (p_ActorID p) project id pr (w_db w) (w_db w') ∧ journal_ok (w_db w') ∧ history_grows (w_db w) (w_db w').
Proof.
  intros Ev Hj H. unfold ApprovePromotionAuthorized in H. rewrite Ev in H. destruct (negb _); [done|].
  apply Transaction_Ok in H as (w1 & w2 & E1 & H & E2); [|done]. rewrite E2. rewrite <-E1 in Hj |- *. clear E1 E2 w w'.
  apply bind_Ok in H as (pq & w3 & H3 & H). apply on_err_Ok, GetByIDTx_Ok in H3 as (E3 & Hid & Hp & Hq).
  rewrite <-E3 in Hj, Hq |- *. clear E3 w1.
  destruct (bool_decide _) eqn:Hself; [done|]. apply bool_decide_eq_false in Hself.
  destruct (negb _) eqn:Hst; [done|]. apply negb_false_iff, bool_decide_eq_true in Hst.
  apply bind_Ok in H as (u4 & w4 & H4 & H). apply keeps_event in H4; [|done].
  apply bind_Ok in H as (u5 & w5 & H5 & H). pose proof (ApplyPromotionTx_frame v same_promotions _ _ _ _ _ H5) as S5.
  apply ApplyPromotionTx_Ok in H5 as (Hj5 & G5 & _ & F5 & _); [|done|by eapply journal_proper; [symmetry|]].
  apply bind_Ok in H as (u6 & w6 & H6 & H). apply claim_or_conflict_Ok in H6 as [_ (q & c & Hq6 & Hp6 & Hsep & E6)]; [|by left|by eauto].
  apply bind_Ok in H as (u7 & w7 & H7 & H). apply keeps_event in H7; [|done].
  apply GetByIDTx_Ok in H as (E8 & Hid8 & _ & Hq8).
  pose proof (frame_core (R := same_promotions) _ _ H4) as S4. pose proof (frame_core (R := same_promotions) _ _ H7) as S7.
  unfold same_promotions in *. rewrite S5, S4 in Hq6. rewrite Hq in Hq6. injection Hq6 as <-.
  assert (promotions (w_db w6) = <[id := set_status "completed" (Some (p_ActorID p)) c (q_row pq)]> (promotions (w_db w3))) as P6.
  { rewrite E6. unfold promotions in *. cbn. by rewrite S5, S4. }
  rewrite E8. rewrite S7, P6, lookup_insert_eq in Hq8. injection Hq8 as Hq8.
  assert (journaled (w_db w5) (w_db w7)) as J7.
  { etrans; [|by apply same_core_journaled]. rewrite E6. by apply journaled_other. }
  destruct (J7 Hj5) as [Hj7 G7]. split; [|split; [done|]].
  2:{ etrans; [by apply same_core_history|]. by etrans. }
  exists (q_row pq), c. split_and!; try done.
  - destruct pr as [i r]. cbn in *. by subst.
  - by rewrite S7, P6, Hq8.
  - rewrite (same_core_selected _ _ _ _ _ H4) in F5. destruct pq as [i r]. cbn in *. subst i.
    unfold q_ProjectID, q_Source, q_KeysFilter in F5. cbn in F5. rewrite <-Hp. eapply Forall_impl; [exact F5|].
    intros src Hcase. eapply applied_grows; [exact H4|exact G7| |exact Hcase].
    etrans; [|by apply same_core_projects]. by rewrite E6.
Qed.
End Approval.

(** *** Promotion and rollback without a vault *)

Section Rollback.
Context `{P : Primitives} (s : PromotionService).

(** The value a snapshot preserves. *)
Definition prior (ss : snapshot_row) : option (string * string) :=
  if ss_prior_existed ss then Some (ss_encrypted_value ss, ss_value_nonce ss) else None.
Definition taken_for (id : uuid) (db : DB) (ss : snapshot_row) : Prop :=
  ∃ i, snapshots db !! i = Some ss ∧ ss_promotion_id ss = id.
Definition is_of (env : uuid) (key : string) (ss : snapshot_row) : Prop := ss_environment_id ss = env ∧ ss_key ss = key.

(** Since [db0], the promotion [id] has only changed values of [tgt] that it has
    a snapshot of, and no key of [todo] yet. *)
Record snapshotted (id tgt : uuid) (db0 : DB) (todo : list string) (db : DB) : Prop := {
  sn_unique : secrets_unique db;
  sn_prior ss : taken_for id db ss →
    prior ss = value_at (ss_environment_id ss) (ss_key ss) db0 ∧ ss_environment_id ss = tgt ∧ ss_key ss ∉ todo;
  sn_same e k : value_at e k db = value_at e k db0 ∨ ∃ ss, taken_for id db ss ∧ is_of e k ss;
}.

Lemma value_at_same e k db db' : secrets db' = secrets db → value_at e k db' = value_at e k db.
Proof. unfold value_at, secret_named. by intros ->. Qed.
Lemma secrets_unique_same db db' : secrets db' = secrets db → secrets_unique db → secrets_unique db'.
Proof. unfold secrets_unique. by intros ->. Qed.

Lemma CreateSnapshotTx_Ok id e k c n b u w w' :
  CreateSnapshotTx id e k c n b w = (Ok u, w') →
  secrets (w_db w') = secrets (w_db w) ∧
  ∃ i, snapshots (w_db w) !! i = None ∧ snapshots (w_db w') = <[i := mkSnapshot id e k c n b]> (snapshots (w_db w)).
Proof.
  intros H. unfold CreateSnapshotTx in H. apply bind_Ok in H as (i & w1 & [_ ->]%uuid_New_Ok & H).
  apply wrap_err_Ok, exec_Ok in H as (db & H & ->). unfold insert_snapshot in H. cbn in H. inv_write H. subst db.
  split; [done|]. by exists i.
Qed.
Lemma UpsertTx_Ok p e k c n u w w' :
  UpsertTx p e k c n w = (Ok u, w') → named_write e k (Some (c, n)) (w_db w) (w_db w').
Proof.
  intros H. unfold UpsertTx in H. apply bind_Ok in H as (i & w1 & [_ ->]%uuid_New_Ok & H).
  apply bind_Ok in H as (t & w2 & [-> ->]%now_Ok & H). apply wrap_err_Ok, exec_Ok in H as (db & H & ->).
  by apply upsert_secret_Ok in H.
Qed.

Lemma promote_one_snapshots dek pr tgt db0 todo acc src r w w' :
  snapshotted (q_ID pr) tgt db0 (sr_key src.2 :: todo) (w_db w) → sr_key src.2 ∉ todo →
  promote_one dek pr tgt acc src w = (Ok r, w') → snapshotted (q_ID pr) tgt db0 todo (w_db w').
Proof.
  intros [Hu Hpr Hs] Hno H. unfold promote_one in H. set (key := sr_key src.2) in *.
  assert (snapshotted (q_ID pr) tgt db0 todo (w_db w)) as Hskip.
  { split; [done| |done]. intros ss Hss. destruct (Hpr ss Hss) as (? & ? & ?). set_solver. }
  destruct (filtered_out _ _); [by apply ret_Ok in H as [_ <-]|].
  apply bind_Ok in H as (ex & w1 & H1 & H). apply wrap_err_Ok, wrap_err_Ok, query_Ok in H1 as [Hex ->].
  destruct (_ && _); [by apply ret_Ok in H as [_ <-]|].
  apply bind_Ok in H as (u2 & w2 & H2 & H).
  assert (secrets (w_db w2) = secrets (w_db w) ∧ ∃ i ss, snapshots (w_db w) !! i = None ∧
    snapshots (w_db w2) = <[i := ss]> (snapshots (w_db w)) ∧ ss_promotion_id ss = q_ID pr ∧ is_of tgt key ss ∧ prior ss = value_at tgt key (w_db w)) as
    (E2 & i & ss & Hi & S2 & Hid & [Hsse Hssk] & Hprior).
  { unfold value_at. rewrite <-Hex. destruct ex as [[j x]|]; apply CreateSnapshotTx_Ok in H2 as (E2 & i & Hi & S2);
      (split; [exact E2|]); eexists i, _; (split; [exact Hi|]); (split; [exact S2|]); (split; [done|]); [|done].
    symmetry in Hex. by apply secret_named_Some in Hex as (_ & _ & ?). }
  apply bind_Ok in H as (v & w3 & H3 & H). apply (keeps_wrap_err unchanged _ _ (keeps_lift unchanged _)) in H3.
  apply bind_Ok in H as (cn & w4 & H4 & H). apply wrap_err_Ok, (keeps_encrypt unchanged) in H4.
  apply bind_Ok in H as (u5 & w5 & H5 & H). apply wrap_err_Ok, UpsertTx_Ok in H5 as (N5 & _ & S5). apply ret_Ok in H as [_ <-].
  unfold unchanged in *. rewrite H4, H3 in N5, S5. clear H3 H4 w3 w4.
  destruct N5 as (Hu5 & _ & Hoth); [by eapply secrets_unique_same|].
  assert (∀ x, taken_for (q_ID pr) (w_db w5) x → x = ss ∨ taken_for (q_ID pr) (w_db w) x) as Hold.
  { intros x (j & Hj & Hx). rewrite S5, S2 in Hj. apply lookup_insert_Some in Hj as [[_ ->]|[_ Hj]]; [by left|]. right. by exists j. }
  assert (value_at tgt key (w_db w) = value_at tgt key db0) as Hfirst.
  { destruct (Hs tgt key) as [?|(x & Hx & _ & Hk)]; [done|]. destruct (Hpr x Hx) as (_ & _ & Hn). set_solver. }
  split; [done| |].
  - intros x [->|Hx]%Hold; [|by apply Hskip]. by rewrite Hprior, Hsse, Hssk.
  - intros e k. destruct (decide ((e, k) = (tgt, key))) as [[= -> ->]|Hne].
    + right. exists ss. split; [|done]. exists i. by rewrite S5, S2, lookup_insert_eq.
    + rewrite Hoth, (value_at_same _ _ _ _ E2) by done. destruct (Hs e k) as [?|(x & (j & Hj & Hx) & Hof)]; [by left|right].
      exists x. split; [|done]. exists j. split; [|done]. rewrite S5, S2, lookup_insert_ne; congruence.
Qed.

Lemma promote_loop dek pr tgt db0 srcs : ∀ acc r w w',
  NoDup (map (λ x, sr_key x.2) srcs) → snapshotted (q_ID pr) tgt db0 (map (λ x, sr_key x.2) srcs) (w_db w) →
  for_fold srcs acc (promote_one dek pr tgt) w = (Ok r, w') → snapshotted (q_ID pr) tgt db0 [] (w_db w').
Proof.
  induction srcs as [|src srcs IH]; intros acc r w w' Hnd Hs H; simpl in *; [by apply ret_Ok in H as [_ <-]|].
  apply NoDup_cons in Hnd as [Hno Hnd]. apply bind_Ok in H as (acc1 & w1 & H1 & H).
  eapply promote_one_snapshots in H1; [|done..]. by eapply IH.
Qed.

Lemma secrets_in_keys project env db : secrets_unique db → NoDup (map (λ x, sr_key x.2) (secrets_in project env db)).
Proof.
  intros Hu. apply NoDup_fmap_2_strong.
  - intros [i x] [j y]. unfold secrets_in. rewrite !(merge_sort_Permutation by_secret_key), !elem_of_select. cbn.
    intros [Hx Ex] [Hy Ey] Hk. b2p. assert (i = j) as -> by (eapply Hu; [exact Hx|exact Hy|naive_solver|done]). congruence.
  - unfold secrets_in, select. rewrite (merge_sort_Permutation by_secret_key), (merge_sort_Permutation by_id).
    apply NoDup_filter, NoDup_map_to_list.
Qed.

Lemma snapshotted_same id tgt db0 todo db db' :
  secrets db' = secrets db → snapshots db' = snapshots db → snapshotted id tgt db0 todo db → snapshotted id tgt db0 todo db'.
Proof.
  intros E1 E2 [Hu Hp Hs]. split; [by eapply secrets_unique_same| |]; unfold taken_for in *; rewrite E2; [done|].
  intros e k. by rewrite (value_at_same _ _ _ _ E1).
Qed.

Lemma runPromotion_snapshots pr ex ab ip u w w' :
  secrets_unique (w_db w) → (∀ ss, ¬ taken_for (q_ID pr) (w_db w) ss) →
  runPromotion s pr ex ab ip w = (Ok u, w') → ∃ tgt, snapshotted (q_ID pr) tgt (w_db w) [] (w_db w').
Proof.
  intros Hu Hno H. unfold runPromotion in H.
  apply bind_Ok in H as (project & w1 & [_ ->]%wrap_err_Ok%wrap_err_Ok%query_row_Ok & H).
  apply bind_Ok in H as (srcEnv & w1 & [_ ->]%wrap_err_Ok%wrap_err_Ok%query_row_Ok & H).
  apply bind_Ok in H as (tgt & w1 & [_ ->]%wrap_err_Ok%wrap_err_Ok%query_row_Ok & H).
  apply bind_Ok in H as (dek & w1 & E1 & H). apply (keeps_wrap_err unchanged _ _ (keeps_lift unchanged _)) in E1.
  unfold unchanged in E1. cbn in E1.
  apply bind_Ok in H as (srcs & w2 & [-> ->]%wrap_err_Ok%wrap_err_Ok%query_Ok & H). cbn in H.
  apply bind_Ok in H as (d & w3 & (w4 & w5 & (q & c & _ & _ & _ & E4) & H5 & E5)%promote_tx_Ok & H). cbn in E4.
  apply emitAudit_core in H as (_ & _ & E6 & _). exists tgt.
  assert (secrets (w_db w4) = secrets (w_db w)) as Es by (rewrite E4; unfold secrets; cbn; by rewrite E1).
  assert (snapshots (w_db w4) = snapshots (w_db w)) as Eq by (rewrite E4; unfold snapshots; cbn; by rewrite E1).
  eapply promote_loop with (db0 := w_db w) in H5; [|apply secrets_in_keys; by rewrite E1|split].
  - eapply snapshotted_same, H5; unfold secrets, snapshots; by rewrite E6, E5.
  - by eapply secrets_unique_same.
  - intros ss (i & Hi & Hp). rewrite Eq in Hi. destruct (Hno ss). by exists i.
  - intros e k. left. by apply value_at_same.
Qed.

Lemma ApprovePromotion_snapshots id approver ip pr w w' :
  secrets_unique (w_db w) → (∀ ss, ¬ taken_for id (w_db w) ss) →
  ApprovePromotion s id approver ip w = (Ok pr, w') → ∃ tgt, snapshotted id tgt (w_db w) [] (w_db w').
Proof.
  intros Hu Hno H. unfold ApprovePromotion in H. apply bind_Ok in H as (q & w1 & (E1 & <- & _)%wrap_err_Ok%GetByID_Ok & H).
  destruct (negb _); [done|]. destruct (bool_decide _); [done|].
  apply bind_Ok in H as (u2 & w2 & (_ & _ & E2 & _)%emitAudit_core & H).
  apply bind_attempt in H as ([u3|e] & w3 & H3 & H); cycle 1.
  { destruct (errors_Is _ _); [done|]. by apply bind_attempt in H as (x & w4 & _ & H). }
  apply wrap_err_Ok, GetByID_Ok in H as (E4 & _ & _). rewrite E4.
  assert (secrets (w_db w2) = secrets (w_db w)) as Es by (unfold secrets; by rewrite E2, E1).
  assert (snapshots (w_db w2) = snapshots (w_db w)) as Eq by (unfold snapshots; by rewrite E2, E1).
  apply runPromotion_snapshots in H3 as [tgt [Hu3 Hp3 Hs3]].
  - exists tgt. split; [done| |].
    + intros ss Hss. rewrite <-(value_at_same _ _ _ _ Es). by apply Hp3.
    + intros e k. rewrite <-(value_at_same _ _ _ _ Es). by apply Hs3.
  - by eapply secrets_unique_same.
  - intros ss (i & Hi & Hp). rewrite Eq in Hi. destruct (Hno ss). by exists i.
Qed.

(** Putting snapshots back touches the names they are of, and no other. *)
Lemma rollback_snapshot_Ok project acc ss r w w' :
  rollback_snapshot project acc ss w = (Ok r, w') → named_write (ss_environment_id ss) (ss_key ss) (prior ss) (w_db w) (w_db w').
Proof.
  unfold rollback_snapshot, prior. intros H. destruct (ss_prior_existed ss).
  - by apply bind_Ok in H as (u & w1 & H1%wrap_err_Ok%UpsertTx_Ok & [_ <-]%ret_Ok).
  - apply bind_Ok in H as (u & w1 & H1%wrap_err_Ok%wrap_err_Ok%exec__Ok & [_ <-]%ret_Ok). rewrite H1. apply delete_named_Ok.
Qed.

Lemma rollback_snapshots project l : ∀ acc r w w',
  secrets_unique (w_db w) → for_fold l acc (rollback_snapshot project) w = (Ok r, w') →
  ∀ e k, (value_at e k (w_db w') = value_at e k (w_db w) ∧ Forall (λ ss, ¬ is_of e k ss) l) ∨
         (∃ ss, ss ∈ l ∧ is_of e k ss ∧ value_at e k (w_db w') = prior ss).
Proof.
  induction l as [|ss l IH]; intros acc r w w' Hu H e k; simpl in H; [apply ret_Ok in H as [_ <-]; by left|].
  apply bind_Ok in H as (acc1 & w1 & (N & _)%rollback_snapshot_Ok & H). destruct (N Hu) as (Hu1 & Hv & Hoth).
  destruct (IH _ _ _ _ Hu1 H e k) as [[E Hl]|(x & Hx & Hof & E)]; [|right; exists x; set_solver].
  destruct (decide ((e, k) = (ss_environment_id ss, ss_key ss))) as [[= -> ->]|Hne].
  - right. exists ss. split; [set_solver|]. split; [done|congruence].
  - left. rewrite E. split; [by apply Hoth|]. constructor; [|done]. intros [<- <-]. done.
Qed.

Lemma Rollback_values id u ip v w w' :
  secrets_unique (w_db w) → Rollback s id u ip w = (Ok v, w') →
  ∀ e k, (value_at e k (w_db w') = value_at e k (w_db w) ∧ ∀ ss, taken_for id (w_db w) ss → ¬ is_of e k ss) ∨
         (∃ ss, taken_for id (w_db w) ss ∧ is_of e k ss ∧ value_at e k (w_db w') = prior ss).
Proof.
  intros Hu H e k. unfold Rollback in H. apply bind_Ok in H as (q & w1 & (E1 & _)%wrap_err_Ok%GetByID_Ok & H).
  destruct (negb _); [done|]. rewrite <-E1 in Hu |- *. clear E1 w.
  apply bind_Ok in H as (l & w2 & [El ->]%wrap_err_Ok%query_Ok & H).
  assert (∀ ss, ss ∈ l ↔ taken_for id (w_db w1) ss) as Hl.
  { intros ss. rewrite El, list_elem_of_fmap. split.
    - intros ([i x] & -> & Hx). rewrite (merge_sort_Permutation by_snapshot_key), elem_of_select in Hx. destruct Hx as [Hx Hp].
      apply bool_decide_eq_true in Hp. by exists i.
    - intros (i & Hi & Hp). exists (i, ss). rewrite (merge_sort_Permutation by_snapshot_key), elem_of_select.
      cbn. by rewrite bool_decide_eq_true. }
  apply bind_Ok in H as (d & w3 & (w4 & H4 & ->)%with_tx_Ok & H). apply emitAudit_core in H as (_ & _ & E6 & _).
  apply bind_Ok in H4 as (d1 & w5 & H5 & H4). apply bind_Ok in H4 as (ok & w7 & H7%MarkRolledBackTx_Ok & H4).
  destruct ok; [|done]. apply ret_Ok in H4 as [-> ->]. destruct H7 as (q' & _ & _ & E7). cbn in E6.
  assert (secrets (w_db w') = secrets (w_db w5)) as Es by (unfold secrets; by rewrite E6, E7).
  rewrite (value_at_same _ _ _ _ Es). destruct (rollback_snapshots _ _ _ _ (upd_w_locks (const []) (ticked (ticked w1))) _ Hu H5 e k) as [[E F]|(ss & Hs & ? & ?)].
  - left. split; [done|]. rewrite Forall_forall in F. intros ss Hss. by apply F, Hl.
  - right. exists ss. by rewrite <-Hl.
Qed.
End Rollback.

(** *** A rejection by the requester *)

Section SelfReject.
Context `{P : Primitives} (s : PromotionService).

Lemma self_claim st a id q u w w' :
  promotions (w_db w) !! id = Some q → pq_requested_by q = a →
  claim_or_conflict id "pending" st (Some a) w ≠ (Ok u, w').
Proof.
  intros Hq Ha H. unfold claim_or_conflict in H. apply bind_Ok in H as (b & w1 & H1 & H).
  unfold CompareAndSetStatusTx in H1. apply bind_Ok in H1 as (n & w2 & H1 & [<- <-]%ret_Ok).
  apply setStatus_Ok in H1 as [[-> _]|(-> & q' & c & Hq' & _ & Hsep & _)]; [done|]. congruence.
Qed.
Lemma self_update st a id q w r w' :
  promotions (w_db w) !! id = Some q → pq_requested_by q = a → UpdateStatus id st (Some a) w = (r, w') →
  is_ok r = false ∧ w_db w' = w_db w.
Proof.
  intros Hq Ha H. unfold UpdateStatus, mbind, M_bind in H. destruct (setStatus _ _ _ _ w) as [[n|e] w1] eqn:E.
  - pose proof (setStatus_matches _ _ _ _ _ _ _ Hq E) as ->.
    apply setStatus_Ok in E as [[? _]|(_ & q' & c & Hq' & _ & Hsep & _)]; [done|congruence].
  - apply setStatus_Err in E. by injection H as <- <-.
Qed.

Lemma self_reject_nothing p project id ip q w r w' :
  (∀ v, ps_vault s = Some v → ServiceOk v) →
  promotions (w_db w) !! id = Some q → pq_requested_by q = p_ActorID p →
  RejectPromotionAuthorized s p project id ip w = (r, w') → (∃ e, r = Err e) ∧ w_db w' = w_db w.
Proof.
  intros Hv Hq Hr H. unfold RejectPromotionAuthorized in H. destruct (ps_vault s) as [v|] eqn:Ev.
  - destruct (negb _); [injection H as <- <-; eauto|]. destruct r as [pr|e]; [exfalso|split; [by exists e|by apply with_tx_Err in H]].
    specialize (Hv v eq_refl). apply Transaction_Ok in H as (w1 & w2 & E1 & H & _); [|done]. rewrite <-E1 in Hq. clear E1 w w'.
    apply bind_Ok in H as (q' & w3 & (E3 & _)%on_err_Ok%GetByIDTx_Ok & H). rewrite <-E3 in Hq.
    apply bind_Ok in H as (u & w4 & H4 & H). by eapply self_claim.
  - unfold RejectPromotion in H.
    apply bind_unchanged in H as [(e & -> & E)|(pr & w1 & H1 & E & H)]; [by eauto| |apply keeps_wrap_err, GetByID_reads].
    rewrite <-E in Hq |- *. clear E H1 w. destruct (negb _); [injection H as <- <-; eauto|].
    unfold mbind at 1, M_bind at 1, wrap_err at 1 in H. destruct (UpdateStatus _ _ _ w1) as [x w2] eqn:E2.
    apply (self_update _ _ _ _ _ _ _ Hq Hr) in E2 as [Ex E2]. destruct x as [u|e]; [done|]. injection H as <- <-. by eauto.
Qed.
End SelfReject.

(** ** Concrete promotions, for evaluation *)

Import Toy.
Definition demo_audit : AuditRepository := mkAuditRepository "chain-key".
Definition demo_service : PromotionService := EnableVault demo_vault (NewPromotionService (Some demo_audit) demo_crypto).
Definition demo_legacy : PromotionService := NewPromotionService (Some demo_audit) demo_crypto.

(** User 2 asks for the promotion of [uat] to [prod] of user 1's project. *)
Definition demo_ask : PromotionRequest :=
  mkRequest 80 (mkPromotion 20 "uat" "prod" "pending" 2 None [] "overwrite" "" 0 None).
Definition with_peer (r : PromotionRequest) (db : DB) : DB :=
  upd_db_secrets (upd_t_promotion_requests <[q_ID r := q_row r]>)
    (upd_db_projects (upd_t_environments <[62%N := mkEnvironment 20 "prod"]>)
       (upd_db_identity (upd_t_users (λ us, {[2%N]} ∪ us)) db)).
Definition demo_asked : World :=
  (BindPromotionTx demo_vault demo_owner demo_ask (upd_w_db (with_peer demo_ask) demo_updated)).2.

Lemma demo_asked_journal : journal_ok (w_db demo_asked).
Proof.
  destruct (runs_ok (BindPromotionTx demo_vault demo_owner demo_ask) (upd_w_db (with_peer demo_ask) demo_updated))
    as [u H]; [vm_compute; reflexivity|].
  refine (proj1 (BindPromotionTx_journaled demo_vault _ _ _ _ _ H _)). clear H.
  pose proof demo_updated_journal as Hj. revert Hj. generalize demo_updated. intros w Hj.
  assert (journaled (w_db w) (w_db (upd_w_db (with_peer demo_ask) w))) as J by (by apply journaled_other).
  exact (proj1 (J Hj)).
Qed.

(** The same project before enrolment, with one secret to overwrite in [uat] and
    one to add; user 2 asks for their promotion. *)
Definition demo_ask_legacy : PromotionRequest :=
  mkRequest 80 (mkPromotion 20 "alpha" "uat" "pending" 2 None [] "overwrite" "" 0 None).
Definition demo_plain : World :=
  world_of (with_peer demo_ask_legacy (upd_db_secrets (upd_t_secrets <[72%N := demo_secret 60 "NEW" "n1"]>) demo_project_db)) 100.

Lemma demo_plain_unique : secrets_unique (w_db demo_plain).
Proof.
  intros i j a b Ha Hb.
  change (secrets (w_db demo_plain)) with
    (<[72%N := demo_secret 60 "NEW" "n1"]> (<[70%N := demo_secret 60 "DB_URL" "v1"]> {[71%N := demo_secret 61 "DB_URL" "u1"]})
     : gmap uuid secret_row) in *.
  rewrite !lookup_insert_Some, !lookup_singleton_Some in Ha, Hb. unfold demo_secret in *.
  destruct Ha as [[<- <-]|[_ [[<- <-]|[_ [<- <-]]]]], Hb as [[<- <-]|[_ [[<- <-]|[_ [<- <-]]]]]; cbn; congruence || done.
Qed.
Lemma demo_plain_fresh ss : ¬ taken_for 80 (w_db demo_plain) ss.
Proof.
  intros (i & Hi & _). change (snapshots (w_db demo_plain)) with (∅ : gmap uuid snapshot_row) in Hi. by rewrite lookup_empty in Hi.
Qed.

Lemma demo_ask_wf : request_wf (q_row demo_ask).
Proof. split; cbn; [set_solver|done|set_solver]. Qed.

(** ** Properties *)


Definition demo_promotion_ops : list (time * promotion_op) :=
  [(Minute, OpApprove (human 2 30) 20 80 ""); (Minute, OpReject demo_owner 20 81 "");
   (Minute, OpApprove demo_owner 20 80 ""); (Minute, OpReject demo_owner 20 80 "");
   (2 * Minute, OpRollback demo_owner 20 80 ""); (2 * Minute, OpPromote demo_owner 20 "alpha" "uat" [] "" "" "")]%Z.

(** An approval executes completely.  A successful approval found the request
    of that project pending and asked for by someone else; it is now completed with
    the approver recorded, every selected source value has been copied to the
    target or skipped because the policy says so, and the rest of the history
    stands. *)
Theorem ApprovePromotionAuthorized_executes `{P : Primitives, !PrimitivesOk P} s v `{!ServiceOk v} p project id ip pr w w' :
  ps_vault s = Some v → journal_ok (w_db w) →
  ApprovePromotionAuthorized s p project id ip w = (Ok pr, w') →
  approved v (p_ActorID p) project id pr (w_db w) (w_db w') ∧ journal_ok (w_db w') ∧ history_grows (w_db w) (w_db w').
Proof. intros Ev Hj H. by eapply approve_Ok in H. Qed.

Lemma ApprovePromotionAuthorized_executes_witness : ∃ pr w',
  ApprovePromotionAuthorized demo_service demo_owner 20 80 "" demo_asked = (Ok pr, w') ∧
  pq_status (q_row pr) = "completed" ∧ approved demo_vault 1 20 80 pr (w_db demo_asked) (w_db w').
Proof.
  destruct (runs_ok (ApprovePromotionAuthorized demo_service demo_owner 20 80 "") demo_asked) as [pr H]; [vm_compute; reflexivity|].
  pose proof (proj1 (ApprovePromotionAuthorized_executes demo_service demo_vault _ _ _ _ _ _ _ eq_refl demo_asked_journal H)) as Ha.
  eexists pr, _. split; [exact H|]. split; [|exact Ha]. destruct Ha as (q & c & _ & _ & _ & _ & -> & _). reflexivity.
Defined.

(** C34: without a vault, rollback is the inverse of promotion.  Let a request be
    approved and later rolled back, with any history in between that leaves the
    environments' keys unique and the request's snapshots alone.  Then under every
    name, the value is the one before the approval, or the approval had not
    changed it and the rollback does not either. *)
Theorem rollback_inverts_approval `{P : Primitives} s id approver u ip ip' pr v w w1 w2 w3 :
  secrets_unique (w_db w) → (∀ ss, ¬ taken_for id (w_db w) ss) →
  ApprovePromotion s id approver ip w = (Ok pr, w1) →
  secrets_unique (w_db w2) → (∀ ss, taken_for id (w_db w2) ss ↔ taken_for id (w_db w1) ss) →
  Rollback s id u ip' w2 = (Ok v, w3) →
  ∀ env key, value_at env key (w_db w3) = value_at env key (w_db w) ∨
    (value_at env key (w_db w1) = value_at env key (w_db w) ∧ value_at env key (w_db w3) = value_at env key (w_db w2)).
Proof.
  intros Hu Hno H1 Hu2 Hsame H3 env key. apply ApprovePromotion_snapshots in H1 as [tgt [_ Hp Hs]]; [|done..].
  destruct (Rollback_values s _ _ _ _ _ _ Hu2 H3 env key) as [[E F]|(ss & Hss%Hsame & [<- <-] & E)].
  - right. split; [|done]. destruct (Hs env key) as [?|(ss & Hss%Hsame & Hof)]; [done|]. by destruct (F ss).
  - left. rewrite E. by apply Hp.
Qed.

Lemma rollback_inverts_approval_witness : ∃ pr w1 v w3,
  ApprovePromotion demo_legacy 80 1 "" demo_plain = (Ok pr, w1) ∧
  value_at 61 "DB_URL" (w_db w1) ≠ value_at 61 "DB_URL" (w_db demo_plain) ∧
  Rollback demo_legacy 80 1 "" w1 = (Ok v, w3) ∧
  value_at 61 "DB_URL" (w_db w3) = value_at 61 "DB_URL" (w_db demo_plain).
Proof.
  destruct (runs_ok (ApprovePromotion demo_legacy 80 1 "") demo_plain) as [pr H1]; [vm_compute; reflexivity|].
  destruct (runs_ok (Rollback demo_legacy 80 1 "") (ApprovePromotion demo_legacy 80 1 "" demo_plain).2) as [v H3];
    [vm_compute; reflexivity|].
  eexists pr, _, v, _. split; [exact H1|]. split; [vm_compute; discriminate|]. split; [exact H3|].
  refine (match rollback_inverts_approval demo_legacy 80 1 1 "" "" pr v demo_plain _ _ _ demo_plain_unique demo_plain_fresh H1 _ _ H3 61 "DB_URL" with
          | or_introl E => E | or_intror (conj E E') => eq_trans E' E end).
  - destruct (ApprovePromotion_snapshots demo_legacy _ _ _ _ _ _ demo_plain_unique demo_plain_fresh H1) as [tgt Hs].
    exact (sn_unique _ _ _ _ _ Hs).
  - intros ss. reflexivity.
Defined.

(** Nobody can reject their own request.  A rejection records its author as
    the approver, which the database refuses for the requester: with or without
    a vault such a rejection fails and changes nothing. *)
Theorem self_reject_refused `{P : Primitives} s p project id ip q w :
  (∀ v, ps_vault s = Some v → ServiceOk v) →
  promotions (w_db w) !! id = Some q → pq_requested_by q = p_ActorID p →
  ∃ e w', RejectPromotionAuthorized s p project id ip w = (Err e, w') ∧ w_db w' = w_db w.
Proof.
  intros Hv Hq Hr. destruct (RejectPromotionAuthorized s p project id ip w) as [r w'] eqn:H.
  destruct (self_reject_nothing _ _ _ _ _ _ _ _ _ Hv Hq Hr H) as [[e ->] E]. by exists e, w'.
Qed.

Lemma self_reject_refused_witness : ∃ e w',
  RejectPromotionAuthorized demo_service (human 2 30) 20 80 "" demo_asked = (Err e, w') ∧ w_db w' = w_db demo_asked.
Proof.
  apply (self_reject_refused demo_service (human 2 30) 20 80 "" (q_row demo_ask) demo_asked); [|vm_compute; reflexivity|reflexivity].
  intros v [= <-]. apply _.
Defined.
