(* ===== verification/VaultLifecycle.v ===== *)
(** * Lifecycle metadata and reminders ([internal/vault/lifecycle.go])

    Who is responsible for a secret and when it should be renewed, updated under
    an expected revision, and the worker that turns due dates into notifications.
    Nothing here reads or writes a value. *)
From S2P Require Import Prelude GoStrings GoEncoding Policy Schema Database Crypto Jobs Authority AuditLog VaultStore Vault.

(** ** Definitions *)

(** [vault.Lifecycle]. *)
Record Lifecycle := mkLifecycle {
  lc_SecretID : uuid;
  lc_ProjectID : uuid;
  lc_ResponsibleUserID : option uuid;
  lc_DeclaredExpiresAt : option time;
  lc_RenewalAt : option time;
  lc_Provenance : string;
  lc_Revision : Z;
  lc_UpdatedAt : time;
  lc_Known : bool;
}.

(** [vault.LifecycleChange]. *)
Record LifecycleChange := mkLifecycleChange {
  ch_ResponsibleUserID : option uuid;
  ch_DeclaredExpiresAt : option time;
  ch_RenewalAt : option time;
  ch_Provenance : string;
  ch_ExpectedRevision : Z;
}.

(** [vault.Notification]. *)
Record Notification := mkNotification {
  no_ID : uuid;
  no_ProjectID : uuid;
  no_SecretID : uuid;
  no_Key : string;
  no_ThresholdDays : Z;
  no_LifecycleRevision : Z;
  no_CreatedAt : time;
  no_ReadAt : option time;
}.

(** [vault.LifecycleItem]. *)
Record LifecycleItem := mkLifecycleItem { li_Lifecycle : Lifecycle; li_Key : string; li_Environment : string }.

Definition Day : Z := 24 * Hour.

(** [lifecycleTx]: a secret without metadata is unknown at revision 0. *)
Definition lifecycle_of (project secret : uuid) (db : DB) : Lifecycle :=
  match vlifecycle db !! secret with
  | Some l =>
      if bool_decide (vl_project_id l = project) then
        mkLifecycle secret project (vl_responsible_user_id l) (vl_declared_expires_at l) (vl_renewal_at l)
          (vl_provenance l) (vl_revision l) (vl_updated_at l) true
      else mkLifecycle secret project None None None "" 0 0 false
  | None => mkLifecycle secret project None None None "" 0 0 false
  end.
Definition lifecycleTx (project secret : uuid) : Tx Lifecycle := query (lifecycle_of project secret).

(** [INSERT ... ON CONFLICT(secret_id) DO UPDATE]. *)
Definition upsert_lifecycle (t : time) (project secret : uuid) (c : LifecycleChange) (db : DB) : option DB :=
  let row rev proj := mkLifecycleRow proj (ch_ResponsibleUserID c) (ch_DeclaredExpiresAt c) (ch_RenewalAt c)
                        (ch_Provenance c) rev t in
  let user_ok := match ch_ResponsibleUserID c with Some u => bool_decide (u ∈ users db) | None => true end in
  if negb user_ok || negb (varchar 500 (ch_Provenance c)) then None else
  match vlifecycle db !! secret with
  | None => if entry_ok secret project db
            then Some (upd_db_vault (upd_t_vault_lifecycle <[secret := row 1%Z project]>) db) else None
  | Some l => if (incr64 (vl_revision l) <=? 0)%Z || (vl_revision l =? 2 ^ 63 - 1)%Z then None
              else Some (upd_db_vault (upd_t_vault_lifecycle <[secret := row (incr64 (vl_revision l)) (vl_project_id l)]>) db)
  end.

(** The due date of a row: renewal, else declared expiry. *)
Definition due_of (l : lifecycle_row) : option time :=
  match vl_renewal_at l with Some t => Some t | None => vl_declared_expires_at l end.
Definition thresholds : list Z := [30; 7; 1]%Z.
Definition reached (t due days : Z) : bool := (due - days * Day <=? t)%Z.
Definition notified (secret : uuid) (rev : Z) (user : uuid) (days : Z) (db : DB) : bool :=
  bool_decide (map_Exists (λ _ n, vn_secret_id n = secret ∧ vn_lifecycle_revision n = rev ∧ vn_user_id n = user
                                  ∧ vn_threshold_days n = days) (vnotifications db)).

(** The query that finds what may need a reminder, and one target. *)
Definition live_row (project : uuid) (db : DB) : bool :=
  match projects db !! project with Some r => bool_decide (pr_deleted_at r = None) | None => false end.
Definition active_entry (secret project : uuid) (db : DB) : bool :=
  match ventries db !! secret with
  | Some e => bool_decide (ve_project_id e = project) && negb (ve_deleted e)
  | None => false
  end.
Definition needs_reminder (t : time) (db : DB) (secret : uuid) (l : lifecycle_row) : bool :=
  live_row (vl_project_id l) db && active_entry secret (vl_project_id l) db
  && match vl_responsible_user_id l, due_of l with
     | Some user, Some due =>
         reached t due 30 && existsb (λ d, reached t due d && negb (notified secret (vl_revision l) user d db)) thresholds
     | _, _ => false
     end.
Definition reminder_targets (t : time) (db : DB) : list (uuid * uuid * uuid) :=
  take 100 (omap (λ sl : uuid * lifecycle_row,
                    user ← vl_responsible_user_id sl.2; Some (vl_project_id sl.2, sl.1, user))
              (select (needs_reminder t db) (vlifecycle db))).

(** [INSERT ... ON CONFLICT(secret_id,lifecycle_revision,user_id,threshold_days)
    DO NOTHING], with the number of rows it adds. *)
Definition insert_notification (id user project secret : uuid) (rev days t : Z) (db : DB) : option (DB * Z) :=
  if bool_decide (is_Some (vnotifications db !! id)) || negb (bool_decide (user ∈ users db))
     || negb (bool_decide (days ∈ thresholds)) || negb (entry_ok secret project db)
  then None
  else if notified secret rev user days db then Some (db, 0%Z)
  else Some (upd_db_vault (upd_t_vault_notifications <[id := mkNotificationRow user project secret rev days t None]>) db, 1%Z).

(** [... ORDER BY e.name,v.secret_key LIMIT 100]. *)
Definition by_env_key (a b : string * string * uuid) : Prop :=
  String.le a.1.1 b.1.1 ∧ (a.1.1 = b.1.1 → String.le a.1.2 b.1.2).
#[export] Instance by_env_key_dec : RelDecision by_env_key.
Proof. intros a b. unfold by_env_key. apply _. Defined.
Definition lifecycle_ids (project : uuid) (db : DB) : list uuid :=
  map snd (take 100 (merge_sort by_env_key
    (omap (λ ke : uuid * entry_row, env ← entry_env ke.2 db; Some (en_name env, ve_secret_key ke.2, ke.1))
       (active_entries project db)))).

Section Lifecycle.
Context `{P : Primitives} (s : Service).

Definition Lifecycle_ (p : Principal) (project secret : uuid) : Tx Lifecycle :=
  vault_tx p project (
    r ← on_err ErrNotFound (load project secret);
    if v_Deleted r then fail ErrNotFound else
    _ ← permit s p ReadMetadata r;
    lifecycleTx project secret).

Definition UpdateLifecycle (p : Principal) (project secret : uuid) (c : LifecycleChange) : Tx Lifecycle :=
  if (ch_ExpectedRevision c <? 0)%Z || (500 <? String.length (ch_Provenance c))
     || bool_decide (ch_ResponsibleUserID c = Some uuid_Nil)
  then fail ErrInvalid else
  with_tx (
    _ ← on_err ErrDenied (LockProjectSubjects DBTypePostgres p project (option_list (ch_ResponsibleUserID c)));
    r ← on_err ErrNotFound (load project secret);
    if v_Deleted r then fail ErrNotFound else
    _ ← permit s p WriteSecret r;
    l ← lifecycleTx project secret;
    if negb (lc_Revision l =? ch_ExpectedRevision c)%Z then fail ErrConflict else
    t ← now;
    _ ← exec (upsert_lifecycle t project secret c);
    l ← lifecycleTx project secret;
    _ ← eventWithMetadataRevision s p r "secret.lifecycle_updated" (lc_Revision l);
    mret l).

(** The rows a person may see: their own, of the current metadata revision, of
    a live secret in a live project they still belong to. *)
Definition visible_notification (user : uuid) (db : DB) (n : notification_row) : option string :=
  l ← vlifecycle db !! vn_secret_id n;
  e ← ventries db !! vn_secret_id n;
  pr ← projects db !! vn_project_id n;
  if bool_decide (vn_user_id n = user)
     && bool_decide (vl_project_id l = vn_project_id n) && (vl_revision l =? vn_lifecycle_revision n)%Z
     && bool_decide (vl_responsible_user_id l = Some (vn_user_id n))
     && bool_decide (ve_project_id e = vn_project_id n) && negb (ve_deleted e)
     && bool_decide (pr_deleted_at pr = None)
     && match pr_organization_id pr with
        | None => bool_decide (pr_owner_id pr = user)
        | Some o => match member_states db !! (o, user), members db !! (o, user) with
                    | Some (active, _), Some _ => active
                    | _, _ => false
                    end
        end
  then Some (ve_secret_key e) else None.
Definition newest_notification (a b : Notification) : Prop :=
  (no_CreatedAt b < no_CreatedAt a)%Z ∨ (no_CreatedAt a = no_CreatedAt b ∧ (no_ID b <= no_ID a)%N).
#[export] Instance newest_notification_dec : RelDecision newest_notification.
Proof. intros a b. unfold newest_notification. apply _. Defined.

Definition Notifications (p : Principal) : Tx (list Notification) :=
  if negb (bool_decide (p_Kind p = Human)) then fail ErrDenied else
  with_tx (
    _ ← on_err ErrDenied (RequireActiveTx DBTypePostgres (p_SubjectID p) (p_SessionID p));
    query (λ db, take 100 (merge_sort newest_notification
      (omap (λ kn : uuid * notification_row,
               key ← visible_notification (p_SubjectID p) db kn.2;
               Some (mkNotification kn.1 (vn_project_id kn.2) (vn_secret_id kn.2) key (vn_threshold_days kn.2)
                       (vn_lifecycle_revision kn.2) (vn_created_at kn.2) (vn_read_at kn.2)))
         (map_to_list (vnotifications db)))))).

(** The reminders of one target inside its transaction; [None] is the [continue]
    that rolls back, otherwise the number of notifications added. *)
Definition remind_body (now_ : time) (t : uuid * uuid * uuid) : Tx (option Z) :=
  let '(project, secret, user) := t in
  subject ← uuid_New;
  let p := mkPrincipal Workload subject user 0 0 0 0 0 "" in
  locked ← attempt (LockProject DBTypePostgres p project);
  if (if locked is Err _ then true else false) then mret None else
  l ← lifecycleTx project secret;
  if negb (bool_decide (lc_ResponsibleUserID l = Some user)) then mret None else
  match (match lc_RenewalAt l with Some d => Some d | None => lc_DeclaredExpiresAt l end) with
  | None => mret None
  | Some due =>
      active ← attempt (query_row (λ db, e ← ventries db !! secret;
                                         if bool_decide (ve_project_id e = project) then Some (negb (ve_deleted e)) else None));
      if negb (match active with Ok b => b | Err _ => false end) then mret None else
      created ← now;
      added ← for_fold thresholds 0%Z (λ added days,
        if Before now_ (due - days * Day) then mret added else
        id ← uuid_New;
        n ← exec_n (insert_notification id user project secret (lc_Revision l) days created);
        mret (added + n)%Z);
      if (added <=? 0)%Z then mret (Some added) else
      match audit s with
      | None => fail ErrDenied
      | Some CreateTx =>
          _ ← CreateTx (Some user) (Some project) "secret.reminder_created" ""
                (mk_obj [("secret_id", JStr (uuid_String secret)); ("lifecycle_revision", JInt (lc_Revision l)); ("count", JInt added)]) "";
          _ ← announce [("project_id", JStr (uuid_String project)); ("secret_id", JStr (uuid_String secret));
                        ("lifecycle_revision", JInt (lc_Revision l))];
          mret (Some added)
      end
  end.
Definition remind (now_ : time) (t : uuid * uuid * uuid) : Tx (option Z) :=
  with_tx_opt (o ← remind_body now_ t; mret (o, bool_decide (is_Some o))).

Definition GenerateReminders (now_ : time) : Tx Z :=
  targets ← query (reminder_targets now_);
  for_fold targets 0%Z (λ count t, o ← remind now_ t; mret (count + default 0 o)%Z).

Definition ListLifecycle (p : Principal) (project : uuid) : Tx (list LifecycleItem) :=
  vault_tx p project (
    match authorize s with
    | None => fail ErrDenied
    | Some auth =>
        d ← on_err ErrDenied (auth p ReadMetadata (mkResource uuid_Nil project "" "secret_collection" uuid_Nil 0 ""));
        _ ← check (d_Allowed d) ErrDenied;
        ids ← query (lifecycle_ids project);
        for_fold ids [] (λ out id,
          r ← load project id;
          d ← auth p ReadMetadata (mkResource uuid_Nil project (v_Environment r) "secret" id 0 (v_Key r));
          if negb (d_Allowed d) then mret out else
          life ← lifecycleTx project id;
          mret (out ++ [mkLifecycleItem life (v_Key r) (v_Environment r)]))
    end).
End Lifecycle.

(** *** What reminders promise *)

(** One notification per secret, metadata revision, user and threshold. *)
Definition notifications_unique (db : DB) : Prop :=
  ∀ i j a b, vnotifications db !! i = Some a → vnotifications db !! j = Some b →
    vn_secret_id a = vn_secret_id b → vn_lifecycle_revision a = vn_lifecycle_revision b →
    vn_user_id a = vn_user_id b → vn_threshold_days a = vn_threshold_days b → i = j.

(** A notification someone should get now. *)
Definition due_now (t : time) (db : DB) (n : notification_row) : Prop :=
  ∃ l due, vlifecycle db !! vn_secret_id n = Some l ∧ vl_project_id l = vn_project_id n ∧
    vl_responsible_user_id l = Some (vn_user_id n) ∧ vl_revision l = vn_lifecycle_revision n ∧
    due_of l = Some due ∧ vn_threshold_days n ∈ thresholds ∧ reached t due (vn_threshold_days n) = true ∧
    active_entry (vn_secret_id n) (vn_project_id n) db = true.

(** The effect of a reminder pass. *)
Record reminded (t : time) (db db' : DB) : Prop := {
  rm_lifecycle : vlifecycle db' = vlifecycle db;
  rm_entries : ventries db' = ventries db;
  rm_kept : vnotifications db ⊆ vnotifications db';
  rm_new id n : vnotifications db' !! id = Some n → vnotifications db !! id = Some n ∨ due_now t db n;
  rm_unique : notifications_unique db → notifications_unique db';
}.

(** ** Lemmas *)

#[export] Instance reminded_preorder t : PreOrder (reminded t).
Proof.
  split; [intros db; split; try done; by left|]. intros d1 d2 d3 [L1 E1 K1 N1 U1] [L2 E2 K2 N2 U2].
  split; [congruence|congruence|by etrans| |tauto].
  intros id n Hn. destruct (N2 _ _ Hn) as [Hn2|(l & due & Hl & Hp & Hu & Hr & Hd & Ht & Hre & Ha)]; [by apply N1|right].
  exists l, due. rewrite <-L1. unfold active_entry in *. rewrite E1 in Ha. done.
Qed.

Lemma same_core_reminded t db db' : same_core db db' → reminded t db db'.
Proof.
  intros (_ & _ & _ & Ev). split; unfold vlifecycle, ventries, vnotifications, notifications_unique; try by rewrite Ev.
  - intros id n. rewrite Ev. by left.
  - unfold vnotifications. by rewrite Ev.
Qed.

Lemma insert_notification_reminded t id user project secret rev days created due l db db' n :
  insert_notification id user project secret rev days created db = Some (db', n) →
  vlifecycle db !! secret = Some l → vl_project_id l = project → vl_responsible_user_id l = Some user →
  vl_revision l = rev → due_of l = Some due → reached t due days = true → active_entry secret project db = true →
  reminded t db db'.
Proof.
  intros H Hl Hp Hu Hr Hd Hre Ha. unfold insert_notification in H.
  destruct (_ || _) eqn:Hg; [done|]. rewrite !orb_false_iff, !negb_false_iff, bool_decide_eq_false in Hg.
  destruct Hg as [[[Hno _] Hdays] _]. apply eq_None_not_Some in Hno. apply bool_decide_eq_true in Hdays.
  destruct (notified secret rev user days db) eqn:Hnot; [by injection H as <- _|]. injection H as <- _.
  unfold notified in Hnot. apply bool_decide_eq_false in Hnot.
  split; try done.
  - by apply insert_subseteq.
  - intros i x. unfold vnotifications. cbn. intros [[<- <-]|[_ Hi]]%lookup_insert_Some; [right|by left].
    exists l, due. cbn. by split_and!.
  - intros Huq i j a b. unfold vnotifications. cbn.
    intros [[<- <-]|[Hi Hai]]%lookup_insert_Some [[<- <-]|[Hj Hbj]]%lookup_insert_Some; cbn; intros E1 E2 E3 E4; try done.
    + destruct Hnot. exists j, b. by split_and!.
    + destruct Hnot. exists i, a. by split_and!.
    + by eapply Huq.
Qed.

Section Facts.
Context `{P : Primitives} (s : Service) `{!ServiceOk s}.

Lemma notify_loop t user project secret created due l days : ∀ acc n w w',
  for_fold days acc (λ added days,
    if Before t (due - days * Day) then mret added else
    id ← uuid_New;
    n ← exec_n (insert_notification id user project secret (vl_revision l) days created);
    mret (added + n)%Z) w = (Ok n, w') →
  vlifecycle (w_db w) !! secret = Some l → vl_project_id l = project → vl_responsible_user_id l = Some user →
  due_of l = Some due → active_entry secret project (w_db w) = true → reminded t (w_db w) (w_db w').
Proof.
  induction days as [|d days IH]; intros acc n w w' H Hl Hp Hu Hd Ha; simpl in H.
  { apply ret_Ok in H as [_ <-]. reflexivity. }
  apply bind_Ok in H as (acc1 & w1 & H1 & H). destruct (Before _ _) eqn:Hb.
  - apply ret_Ok in H1 as [<- <-]. by eapply IH.
  - apply bind_Ok in H1 as (id & w2 & [_ ->]%uuid_New_Ok & H1).
    apply bind_Ok in H1 as (k & w3 & (db3 & H3 & ->)%exec_n_Ok & H1). apply ret_Ok in H1 as [_ <-].
    unfold Before in Hb. apply Z.ltb_ge in Hb. cbn in H3.
    eapply insert_notification_reminded with (t := t) in H3 as R; [|done..|by apply Z.leb_le|done].
    etrans; [exact R|]. destruct R as [RL RE _ _ _]. eapply IH in H; try done; cbn.
    + by rewrite RL.
    + unfold active_entry in *. by rewrite RE.
Qed.

#[local] Arguments thresholds : simpl never.

Lemma remind_body_reminded t tgt o w w' : remind_body s t tgt w = (Ok o, w') → reminded t (w_db w) (w_db w').
Proof.
  destruct tgt as [[project secret] user]. unfold remind_body. intros H.
  apply bind_Ok in H as (sub & w1 & [_ ->]%uuid_New_Ok & H). apply bind_Ok in H as (lk & w2 & H2 & H).
  apply (proj1 (attempt_Ok _ _ _ _)), (keeps_LockProject _ unchanged) in H2. unfold unchanged in H2. cbn in H2.
  rewrite <-H2. clear H2. destruct lk as [x|e]; cbn in H; [|by apply ret_Ok in H as [_ <-]].
  apply bind_Ok in H as (l & w3 & [-> ->]%query_Ok & H).
  destruct (bool_decide _) eqn:Hu in H; cbn in H; [|by apply ret_Ok in H as [_ <-]].
  unfold lifecycle_of in *. destruct (vlifecycle (w_db w2) !! secret) as [l|] eqn:Hl; [|by b2p].
  destruct (bool_decide (vl_project_id l = project)) eqn:Hp; [|by b2p]. b2p. cbn -[thresholds] in *.
  fold (due_of l) in H. destruct (due_of l) as [due|] eqn:Hd; [|by apply ret_Ok in H as [_ <-]].
  apply bind_Ok in H as (act & w4 & H4 & H). apply (proj1 (attempt_Ok _ _ _ _)) in H4.
  assert (w_db w4 = w_db w2) as E4 by (by apply (keeps_query_row unchanged) in H4).
  destruct act as [b|e]; [|apply ret_Ok in H as [_ <-]; by rewrite E4].
  apply query_row_Ok in H4 as [Ha _]. destruct b; cbn in H; [|apply ret_Ok in H as [_ <-]; by rewrite E4].
  assert (active_entry secret project (w_db w2) = true) as Hact.
  { unfold active_entry. cbn in Ha. destruct (ventries (w_db w2) !! secret) as [e|]; [cbn in Ha|done].
    destruct (bool_decide _); [|done]. injection Ha as Ha. by rewrite Ha. }
  apply bind_Ok in H as (c & w5 & [-> ->]%now_Ok & H). apply bind_Ok in H as (added & w6 & H6 & H).
  rewrite <-E4 in Hl, Hact. eapply notify_loop in H6; [|done..]. rewrite <-E4. etrans; [exact H6|].
  destruct (added <=? 0)%Z; [by apply ret_Ok in H as [_ <-]|].
  destruct (audit s) as [f|] eqn:Ef; [|done].
      apply bind_Ok in H as (u7 & w7 & H7 & H). apply bind_Ok in H as (u8 & w8 & H8 & H). apply ret_Ok in H as [_ <-].
  apply (audit_keeps (AuditorOk := auditor_ok f Ef)) in H7 as (C7 & _). apply keeps_announce in H8.
  apply same_core_reminded. by etrans.
Qed.

Lemma remind_reminded t tgt : keeps (reminded t) (remind s t tgt).
Proof.
  intros w r w' H. unfold remind in H. destruct r as [o|e].
  - apply with_tx_opt_Ok in H as (c & w1 & H & ->).
    apply bind_Ok in H as (o1 & w2 & H & [[= -> <-] <-]%ret_Ok). apply remind_body_reminded in H. cbn in H.
    destruct (bool_decide _); [exact H|reflexivity].
  - apply with_tx_opt_Err in H. by rewrite H.
Qed.

Lemma UpdateLifecycle_Err p project secret c e w w' :
  UpdateLifecycle s p project secret c w = (Err e, w') → w_db w' = w_db w.
Proof. unfold UpdateLifecycle. destruct (_ || _); [by intros [= _ <-]|]. apply with_tx_Err. Qed.
End Facts.

(** The metadata row of a secret belongs to the secret's project, as its foreign
    key demands. *)
Definition lifecycle_fk (db : DB) : Prop :=
  ∀ secret l, vlifecycle db !! secret = Some l → entry_ok secret (vl_project_id l) db = true.

Lemma lifecycle_fk_empty db : vlifecycle db = ∅ → lifecycle_fk db.
Proof. intros E secret l. by rewrite E, lookup_empty. Qed.

(** The upsert stores the values asked for, one revision after the expected one. *)
Lemma upsert_lifecycle_Ok t project secret c e db db' :
  lifecycle_fk db → ventries db !! secret = Some e → ve_project_id e = project →
  lc_Revision (lifecycle_of project secret db) = ch_ExpectedRevision c → upsert_lifecycle t project secret c db = Some db' →
  ∃ rev row, db' = upd_db_vault (upd_t_vault_lifecycle <[secret := row]>) db ∧
    row = mkLifecycleRow project (ch_ResponsibleUserID c) (ch_DeclaredExpiresAt c) (ch_RenewalAt c) (ch_Provenance c) rev t ∧
    (0 <= ch_ExpectedRevision c → rev = ch_ExpectedRevision c + 1)%Z ∧ entry_ok secret project db = true.
Proof.
  intros Hfk He Hp Hrev H. unfold upsert_lifecycle in H. destruct (negb _ || _); [done|]. unfold lifecycle_of in Hrev.
  destruct (vlifecycle db !! secret) as [lr|] eqn:Hlr.
  - destruct (_ || _) eqn:Hg2 in H; [done|]. apply orb_false_iff in Hg2 as [Hg2 _]. apply Z.leb_gt in Hg2. injection H as <-.
    pose proof (Hfk _ _ Hlr) as Hok. apply entry_ok_Some in Hok as (e' & He' & Hpe). rewrite He in He'. injection He' as <-.
    rewrite bool_decide_eq_true_2 in Hrev by congruence. cbn in Hrev.
    eexists _, _. split; [done|]. split; [by rewrite <-Hpe, Hp|]. split; [|apply entry_ok_Some; by exists e].
    intros Hge. rewrite <-Hrev in Hge |- *. unfold incr64 in *. case_match; lia.
  - destruct (entry_ok _ _ _) eqn:Heo; [|done]. injection H as <-. cbn in Hrev. eexists _, _. split; [done|]. split; [done|].
    split; [lia|done].
Qed.

(** ** Properties *)

(** Reminders are due, current and never repeated.  Whatever happens in a
    pass, failures of single targets included, the metadata and the journal are
    untouched and no notification is lost; every notification it adds is for an
    undeleted secret, addressed to the person responsible under the current
    metadata revision, at one of the three thresholds, whose date has been
    reached; and if notifications were unique per secret, revision, person and
    threshold before, they still are. *)
Theorem reminders_due_once `{P : Primitives} s `{!ServiceOk s} t res w w' :
  GenerateReminders s t w = (res, w') → reminded t (w_db w) (w_db w').
Proof.
  assert (keeps (reminded t) (GenerateReminders s t)) as K; [|by apply K].
  apply keeps_bind; [apply _|apply keeps_query, _|intros targets]. apply keeps_for_fold; [apply _|].
  intros count tgt. apply keeps_bind; [apply _|apply remind_reminded; apply _|intros o]. apply keeps_ret, _.
Qed.

(** Metadata updates are compare-and-set.  An update that succeeds was made
    against the current metadata revision, returns the stored metadata - exactly
    the values asked for, one revision further - and changes no other secret's
    metadata, no journal entry and no value; an update that fails changes
    nothing. *)
Theorem UpdateLifecycle_compare_and_set `{P : Primitives} s `{!ServiceOk s} p project secret c res w w' :
  lifecycle_fk (w_db w) → UpdateLifecycle s p project secret c w = (res, w') →
  match res with
  | Ok l =>
      lc_Revision (lifecycle_of project secret (w_db w)) = ch_ExpectedRevision c ∧
      l = lifecycle_of project secret (w_db w') ∧ lc_Known l = true ∧
      (0 <= ch_ExpectedRevision c → lc_Revision l = ch_ExpectedRevision c + 1)%Z ∧
      lc_ResponsibleUserID l = ch_ResponsibleUserID c ∧ lc_DeclaredExpiresAt l = ch_DeclaredExpiresAt c ∧
      lc_RenewalAt l = ch_RenewalAt c ∧ lc_Provenance l = ch_Provenance c ∧
      (∀ other, other ≠ secret → vlifecycle (w_db w') !! other = vlifecycle (w_db w) !! other) ∧
      journaled (w_db w) (w_db w') ∧ lifecycle_fk (w_db w')
  | Err _ => w_db w' = w_db w
  end.
Proof.
  intros Hfk H. destruct res as [l|e]; [|by eapply UpdateLifecycle_Err].
  unfold UpdateLifecycle in H. destruct (_ || _) eqn:Hg; [done|].
  apply with_tx_Ok in H as (w1 & H & ->). cbn [w_db ticked upd_w_faults].
  apply bind_Ok in H as (u1 & w2 & H1 & H). apply on_err_Ok in H1.
  apply (keeps_lockProjectOrganizations _ unchanged) in H1. unfold unchanged in H1. cbn in H1. rewrite <-H1 in *. clear H1 w.
  apply bind_Ok in H as (r & w3 & H3 & H). apply on_err_Ok, load_Ok in H3 as [Hl E3].
  apply load_row_Some in Hl as (e & (He & Hp & _) & _). destruct (v_Deleted r); [done|].
  apply bind_Ok in H as (u4 & w4 & H4 & H). apply (keeps_permit s unchanged) in H4. unfold unchanged in H4.
  apply bind_Ok in H as (l0 & w5 & [-> ->]%query_Ok & H). destruct (negb _) eqn:Hrev; [done|].
  apply negb_false_iff, Z.eqb_eq in Hrev. apply bind_Ok in H as (t & w6 & [-> ->]%now_Ok & H).
  apply bind_Ok in H as (u7 & w7 & (db7 & H7 & ->)%exec_Ok & H). apply bind_Ok in H as (l1 & w8 & [-> ->]%query_Ok & H).
  apply bind_Ok in H as (u9 & w9 & H9 & H). apply ret_Ok in H as [<- <-]. cbn -[upsert_lifecycle] in *.
  apply keeps_eventM in H9; [|done]. cbn in H9. rewrite H4, E3 in H7, Hrev.
  assert (∀ o, vlifecycle (w_db w9) !! o = vlifecycle db7 !! o) as Ev
    by (intros o; destruct H9 as (_ & _ & _ & Ev); unfold vlifecycle; by rewrite Ev).
  assert (lifecycle_of project secret (w_db w9) = lifecycle_of project secret db7) as El
    by (unfold lifecycle_of; by rewrite Ev).
  eapply upsert_lifecycle_Ok in H7 as (rev & row & E7 & Hrow & Hnext & Heo); [|done..].
  assert (vlifecycle db7 = <[secret := row]> (vlifecycle (w_db w2))) as Evl by (by rewrite E7).
  assert (lifecycle_of project secret db7 = mkLifecycle secret project (ch_ResponsibleUserID c) (ch_DeclaredExpiresAt c)
            (ch_RenewalAt c) (ch_Provenance c) rev (w_now w4) true) as Elc.
  { unfold lifecycle_of. rewrite Evl, lookup_insert_eq, Hrow. cbn. by rewrite bool_decide_eq_true_2. }
  rewrite El, Elc. cbn. split_and!; try done.
  - intros o Ho. by rewrite Ev, Evl, lookup_insert_ne.
  - etrans; [|by apply same_core_journaled]. rewrite E7. by apply journaled_other.
  - intros o lo. rewrite Ev, Evl. intros Hlo.
    assert (entry_ok o (vl_project_id lo) (w_db w9) = entry_ok o (vl_project_id lo) (w_db w2)) as ->.
    { destruct H9 as (_ & _ & _ & Ev9). unfold entry_ok, ventries. rewrite Ev9, E7. done. }
    apply lookup_insert_Some in Hlo as [[<- <-]|[_ Hlo]]; [by rewrite Hrow|by apply Hfk].
Qed.

Import Toy.
Definition demo_change : LifecycleChange := mkLifecycleChange (Some 1%N) (Some (10 * Day)%Z) None "vendor" 0.
Definition demo_tracked : World := (UpdateLifecycle demo_vault demo_owner 20 70 demo_change demo_updated).2.

Lemma UpdateLifecycle_compare_and_set_witness : ∃ l,
  UpdateLifecycle demo_vault demo_owner 20 70 demo_change demo_updated = (Ok l, demo_tracked) ∧
  lc_ResponsibleUserID l = Some 1%N.
Proof.
  pose proof (lifecycle_fk_empty (w_db demo_updated) ltac:(vm_compute; reflexivity)) as Hfk.
  destruct (runs_ok (UpdateLifecycle demo_vault demo_owner 20 70 demo_change) demo_updated) as [l H]; [vm_compute; reflexivity|].
  exists l. split; [exact H|].
  exact (proj1 (proj2 (proj2 (proj2 (proj2 (UpdateLifecycle_compare_and_set demo_vault _ _ _ _ (Ok l) _ _ Hfk H)))))).
Defined.

Lemma reminders_due_once_witness : ∃ n w',
  GenerateReminders demo_vault (5 * Day) demo_tracked = (Ok n, w') ∧ n = 2%Z ∧
  reminded (5 * Day) (w_db demo_tracked) (w_db w').
Proof.
  destruct (runs_ok (GenerateReminders demo_vault (5 * Day)) demo_tracked) as [n H]; [vm_compute; reflexivity|].
  eexists n, _. split; [exact H|].
  assert ((GenerateReminders demo_vault (5 * Day) demo_tracked).1 = Ok 2%Z) as E by (vm_compute; reflexivity).
  rewrite H in E. split; [by injection E|].
  exact (reminders_due_once demo_vault _ _ _ _ H).
Defined.
