(* ===== verification/EnvFile.v ===== *)
(** * [.env] files ([internal/service/envfile_strict.go], [envfile_service.go])

    Exporting the values of an environment as text and parsing such text line
    by line, as [bufio.Scanner] yields the lines. *)
From S2P Require Import Prelude GoStrings GoEncoding GoStrconv Policy Schema Database Crypto Jobs Authority AuditLog VaultStore Vault.

(** ** Definitions *)

(** *** [bufio.Scanner] *)

Definition drop_cr (line : string) : string :=
  match strip_suffix (String (byte 13) "") line with Some l => l | None => line end.
(** The lines up to the first that does not fit a buffer of [max] bytes, and
    whether there was one. *)
Fixpoint scan_lines (max : Z) (l : list string) : list string * bool :=
  match l with
  | [] | [""] => ([], true)
  | w :: l' => if (Z.of_nat (String.length w) <? max)%Z
               then let '(ws, ok) := scan_lines max l' in (drop_cr w :: ws, ok)
               else ([], false)
  end.
Definition Scan (max : Z) (content : string) : list string * bool := scan_lines max (split_byte (byte 10) content).

(** *** [envfile_strict.go] *)

(** A line without its [export] prefix. *)
Definition strip_export (line : string) : string :=
  match strip_prefix "export " line with Some l => TrimSpace l | None => line end.

Definition parse_value (value : string) : option string :=
  if HasPrefix value (String dquote "") then Unquote value else
  if HasPrefix value "'" then
    if (String.length value <? 2) || negb (HasSuffix value "'") then None
    else Some (String.substring 1 (String.length value - 2) value)
  else Some value.

Definition parse_line (result : gmap string string) (text : string) : option (gmap string string) :=
  let line := TrimSpace text in
  if bool_decide (line = "") || HasPrefix line "#" then Some result else
  let '(key, value, ok) := Cut (strip_export line) "=" in
  let key := TrimSpace key in
  let value := TrimSpace value in
  if negb ok || negb (ValidKey key) then None else
  if bool_decide (is_Some (result !! key)) then None else
  value ← parse_value value;
  Some (<[key := value]> result).
Definition parse_lines (lines : list string) (acc : gmap string string) : option (gmap string string) :=
  foldl (λ acc line, r ← acc; parse_line r line) (Some acc) lines.

Definition parseEnvStrict (content : string) : result (gmap string string) :=
  if (2 ^ 20 <? Z.of_nat (String.length content))%Z then Err ErrInvalid else
  let '(lines, ok) := Scan (2 ^ 20) content in
  match parse_lines lines ∅ with
  | Some r => if negb ok || bool_decide (r = ∅) then Err ErrInvalid else Ok r
  | None => Err ErrInvalid
  end.

Definition needs_quotes (value : string) : bool :=
  ContainsAny value [" "; "#"; byte 10; byte 13; byte 9; dquote; "'"; "\"]%char.
Definition format_record (printable : Z → bool) (record : VRecord) : string :=
  v_Key record +:+ "=" +:+ (if needs_quotes (v_Value record) then Quote printable (v_Value record) else v_Value record)
  +:+ String (byte 10) "".
Definition formatEnvRecords (printable : Z → bool) (records : list VRecord) : string :=
  "# KeepSave explicit plaintext export" +:+ String (byte 10) ""
  +:+ foldr (λ r s, format_record printable r +:+ s) "" records.

(** *** The legacy parser of [envfile_service.go] *)

(** [strings.ReplaceAll] of [\c] by [c]. *)
Fixpoint unescape (c : ascii) (s : string) : string :=
  match s with
  | String a ((String b s') as t) => if decide (a = "\"%char ∧ b = c) then String c (unescape c s')
                                     else String a (unescape c t)
  | _ => s
  end.
Definition strip_quotes (value : string) : string :=
  let n := String.length value in
  if (2 <=? n) && ((HasPrefix value (String dquote "") && HasSuffix value (String dquote ""))
                   || (HasPrefix value "'" && HasSuffix value "'"))
  then String.substring 1 (n - 2) value else value.
Definition legacy_line (vars : gmap string string) (text : string) : gmap string string :=
  let line := TrimSpace text in
  if bool_decide (line = "") || HasPrefix line "#" then vars else
  match Cut (strip_export line) "=" with
  | (_, _, false) => vars
  | (key, value, true) =>
      let key := TrimSpace key in
      let value := unescape "'" (unescape dquote (strip_quotes (TrimSpace value))) in
      if bool_decide (key = "") then vars else <[key := value]> vars
  end.
(** The scanner's error is not looked at, and its buffer holds 64 KiB. *)
Definition parseEnvContent (content : string) : gmap string string :=
  foldl legacy_line ∅ (Scan (64 * 1024) content).1.

(** ** Lemmas *)

(** *** Runes of concatenations *)

Lemma runes_fuel_enough n : ∀ m s, String.length s ≤ n → String.length s ≤ m → runes_fuel n s = runes_fuel m s.
Proof.
  induction n as [|n IH]; intros m s Hn Hm.
  { destruct s; [by destruct m|cbn in Hn; lia]. }
  destruct m as [|m]; [destruct s; [done|cbn in Hm; lia]|]. cbn [runes_fuel].
  destruct (DecodeRune s) as [[[r b] t]|] eqn:E; [|done]. apply DecodeRune_spec in E as [_ Hl]. f_equal. apply IH; lia.
Qed.
Lemma runes_step s r b t : DecodeRune s = Some (r, b, t) → runes s = (r, b) :: runes t.
Proof.
  intros E. unfold runes. pose proof (DecodeRune_spec _ _ _ _ E) as [_ Hl]. destruct (String.length s) as [|n] eqn:En; [lia|].
  cbn [runes_fuel]. rewrite E. f_equal. apply runes_fuel_enough; lia.
Qed.

Lemma ascii_no_cont c b0 : in_range 0 127 c = true → second_ok b0 c = false ∧ in_range 128 191 c = false.
Proof.
  intros H%in_range_spec. assert (in_range 128 191 c = false) as Hc.
  { destruct (in_range 128 191 c) eqn:E; [|done]. apply in_range_spec in E. lia. }
  split; [|done]. destruct (second_ok b0 c) eqn:E; [|done]. apply second_cont in E as [E _]. congruence.
Qed.
Lemma DecodeRune_app s c t :
  in_range 0 127 c = true → s ≠ "" →
  DecodeRune (s +:+ String c t) = (λ x : Z * string * string, (x.1, x.2 +:+ String c t)) <$> DecodeRune s.
Proof.
  intros Hc Hs. destruct s as [|b0 s]; [done|]. destruct (ascii_no_cont c b0 Hc) as [Hc2 Hc1].
  destruct s as [|b1 [|b2 [|b3 s]]]; unfold DecodeRune; cbn [String.append]; rewrite ?app_cons, ?app_nil_l', ?Hc2, ?Hc1, ?andb_false_r;
    destruct (in_range 0 127 b0); try done; destruct (in_range 194 223 b0); try done; try (by destruct (second_ok b0 b1));
    destruct (in_range 224 239 b0); try done; try (by destruct t as [|? [|? ?]]); try (by destruct (second_ok b0 b1 && _));
    try (by destruct t); try (by destruct (_ && _ && _ && _)).
Qed.
Lemma runes_app s c t :
  in_range 0 127 c = true → runes (s +:+ String c t) = runes s ++ (byte_val c, String c "") :: runes t.
Proof.
  intros Hc. remember (String.length s) as n eqn:En. revert s En. induction (lt_wf n) as [n _ IH]. intros s ->.
  destruct (decide (s = "")) as [->|Hne].
  { rewrite app_nil_l'. change (runes "" ++ ?l) with l. apply runes_step. cbn. by rewrite Hc. }
  destruct (DecodeRune s) as [[[r b] u]|] eqn:E; [|by apply DecodeRune_None in E].
  pose proof (DecodeRune_spec _ _ _ _ E) as [_ Hl].
  rewrite (runes_step s r b u E), (runes_step _ r b (u +:+ String c t)) by (by rewrite DecodeRune_app, E).
  cbn [app]. f_equal. by apply (IH (String.length u)).
Qed.

(** An ASCII byte of a text is one of its runes. *)
Lemma byte_rune s c : in_range 0 127 c = true → contains_byte c s = true → (byte_val c, String c "") ∈ runes s.
Proof.
  intros Hc. rewrite <-Contains_byte, Contains_spec. intros (b & a & ->). rewrite app_cons, app_nil_l', runes_app by done. set_solver.
Qed.

(** *** Trimming *)

Definition edge_ok (l : list (Z * string)) : bool := match l with (r, _) :: _ => negb (IsSpace r) | [] => true end.
(** A text that neither begins nor ends with a space. *)
Definition trimmed (s : string) : bool := edge_ok (runes s) && edge_ok (rev (runes s)).

Lemma trimmed_id s : trimmed s = true → TrimSpace s = s.
Proof.
  unfold trimmed, TrimSpace. intros [H1 H2]%andb_true_iff.
  assert (∀ l, edge_ok l = true → drop_spaces l = l) as Hd.
  { intros [|[r b] l]; [done|]. cbn. by intros ->%negb_true_iff. }
  by rewrite (Hd _ H1), (Hd _ H2), rev_involutive, concat_bytes_runes.
Qed.

Lemma ValidKey_spec k :
  ValidKey k = true → k ≠ "" ∧ contains_byte "=" k = false ∧ Forall (λ rb, IsSpace rb.1 = false ∧ IsControl rb.1 = false) (runes k).
Proof.
  unfold ValidKey. intros [[[H1%negb_true_iff%bool_decide_eq_false _]%andb_true_iff H2%negb_true_iff]%andb_true_iff H3%negb_true_iff]%andb_true_iff.
  split; [done|]. split; [by rewrite <-Contains_byte|]. apply Forall_forall. intros rb Hin.
  apply orb_false_iff. destruct (IsSpace rb.1 || IsControl rb.1) eqn:E; [|done].
  rewrite <-not_true_iff_false in H3. destruct H3. apply existsb_exists. exists rb. by rewrite <-list_elem_of_In.
Qed.
Lemma no_space_trimmed s : Forall (λ rb : Z * string, IsSpace rb.1 = false) (runes s) → trimmed s = true.
Proof.
  intros H. assert (∀ l, Forall (λ rb : Z * string, IsSpace rb.1 = false) l → edge_ok l = true) as He.
  { intros [|[r b] l]; [done|]. intros [Hr _]%Forall_cons. cbn in *. by rewrite Hr. }
  unfold trimmed. rewrite (He _ H), (He _ (Forall_rev H)). done.
Qed.

(** A line [key=value] whose ends are not spaces. *)
Lemma trimmed_line k v : ValidKey k = true → trimmed v = true → trimmed (k +:+ String "=" v) = true.
Proof.
  intros (Hk & _ & Hf)%ValidKey_spec [_ Hv]%andb_true_iff. unfold trimmed. rewrite runes_app by done.
  apply andb_true_iff. split.
  - assert (runes k ≠ []) as Hne.
    { intros E. apply Hk. by rewrite <-(concat_bytes_runes k), E. }
    destruct (runes k) as [|[r b] l]; [done|]. apply Forall_cons in Hf as [[Hr _] _]. cbn in *. by rewrite Hr.
  - rewrite rev_app_distr. cbn [rev]. destruct (rev (runes v)) as [|[r b] l]; [done|]. done.
Qed.

(** *** One record, one line *)

Lemma ValidKey_no k c :
  ValidKey k = true → in_range 0 127 c = true → IsSpace (byte_val c) || IsControl (byte_val c) = true → contains_byte c k = false.
Proof.
  intros (_ & _ & Hf)%ValidKey_spec Hc Hs. destruct (contains_byte c k) eqn:E; [|done].
  apply byte_rune in E; [|done]. rewrite Forall_forall in Hf. destruct (Hf _ E) as [E1 E2]. cbn in E1, E2. by rewrite E1, E2 in Hs.
Qed.

Section Format.
Context (printable : Z → bool).

Definition text_of (v : string) : string := if needs_quotes v then Quote printable v else v.
Definition line_of (r : VRecord) : string := v_Key r +:+ String "=" (text_of (v_Value r)).

(** What an export can bring back: the key is not taken for a comment, and a
    value that is not quoted has no spaces at its ends. *)
Definition survives (r : VRecord) : Prop :=
  ValidKey (v_Key r) = true ∧ HasPrefix (v_Key r) "#" = false ∧ (needs_quotes (v_Value r) || trimmed (v_Value r)) = true.

Lemma text_trimmed v : (needs_quotes v || trimmed v) = true → trimmed (text_of v) = true.
Proof.
  unfold text_of. destruct (needs_quotes v); [intros _|done]. unfold Quote, trimmed.
  set (q := quote_runes printable (runes v)). apply andb_true_iff. split.
  - change (String dquote (q +:+ String dquote "")) with ("" +:+ String dquote (q +:+ String dquote "")). by rewrite runes_app.
  - change (String dquote (q +:+ String dquote "")) with (String dquote q +:+ String dquote ""). rewrite runes_app by done.
    by rewrite rev_app_distr.
Qed.
Lemma text_parses v : parse_value (text_of v) = Some v.
Proof.
  unfold text_of, parse_value. destruct (needs_quotes v) eqn:Hn.
  - assert (HasPrefix (Quote printable v) (String dquote "") = true) as -> by (apply HasPrefix_spec; by eexists).
    apply Unquote_Quote.
  - unfold needs_quotes in Hn. destruct v as [|c v]; [done|]. apply ContainsAny_cons in Hn as [Hc _].
    assert (∀ q, q ∈ [dquote; "'"%char] → HasPrefix (String c v) (String q "") = false) as Hq.
    { intros q Hq. destruct (HasPrefix _ _) eqn:E; [|done]. apply HasPrefix_spec in E as [t E]. injection E as ->. set_solver. }
    rewrite Hq by set_solver. change "'" with (String "'" "") at 1. by rewrite Hq by set_solver.
Qed.
Lemma text_line v : ContainsAny (text_of v) [byte 10; byte 13] = false.
Proof.
  unfold text_of. destruct (needs_quotes v) eqn:Hn; [apply Quote_line|]. eapply ContainsAny_weaken; [|exact Hn]. set_solver.
Qed.

Lemma line_no_break r : survives r → contains_byte (byte 10) (line_of r) = false ∧ contains_byte (byte 13) (line_of r) = false.
Proof.
  intros (Hk & _ & _). unfold line_of. rewrite !contains_byte_app, !contains_byte_cons.
  rewrite !(ValidKey_no _ _ Hk) by done. split; (eapply ContainsAny_weaken; [|exact (text_line (v_Value r))]; set_solver).
Qed.

Lemma line_prefix k t : ValidKey k = true → strip_prefix "export " (k +:+ String "=" t) = None.
Proof.
  intros Hk. destruct (strip_prefix _ _) as [l|] eqn:E; [|done]. exfalso. apply strip_prefix_Some in E.
  pose proof (ValidKey_no k " " Hk eq_refl eq_refl) as Hs.
  destruct (le_ge_dec (String.length k) (String.length "export ")) as [Hle|Hle].
  - apply app_prefix_cases in E as (e & E1 & E2); [|done]. destruct e as [|c e].
    + rewrite app_nil_r' in E1. by rewrite <-E1 in Hs.
    + rewrite app_cons in E2. injection E2 as <- _. apply (f_equal (contains_byte "=")) in E1.
      rewrite contains_byte_app, contains_byte_cons, orb_true_r in E1. discriminate E1.
  - symmetry in E. apply app_prefix_cases in E as (e & E1 & _); [|lia]. rewrite E1, contains_byte_app in Hs. discriminate Hs.
Qed.

Lemma parse_line_of r acc :
  survives r → acc !! v_Key r = None → parse_line acc (line_of r) = Some (<[v_Key r := v_Value r]> acc).
Proof.
  intros (Hk & Hc & Ht) Hno. pose proof (text_trimmed _ Ht) as Htt. destruct (ValidKey_spec _ Hk) as (Hne & Heq & Hsp).
  unfold parse_line. rewrite (trimmed_id (line_of r)) by (by apply trimmed_line). unfold line_of.
  assert (bool_decide (v_Key r +:+ String "=" (text_of (v_Value r)) = "") = false) as ->.
  { apply bool_decide_eq_false. intros [? ?]%app_eq_nil'. done. }
  assert (HasPrefix (v_Key r +:+ String "=" (text_of (v_Value r))) "#" = false) as ->.
  { destruct (v_Key r) as [|c k]; [done|]. rewrite app_cons. unfold HasPrefix in *. cbn in *. by case_decide. }
  cbn [orb]. unfold strip_export. rewrite line_prefix by done. unfold Cut. rewrite find_first_byte by done.
  rewrite (trimmed_id (text_of _)) by done. rewrite (trimmed_id (v_Key r)).
  - rewrite Hk. cbn [negb orb]. rewrite bool_decide_eq_false_2 by (rewrite Hno; by intros [? ?]).
    by rewrite text_parses.
  - apply no_space_trimmed. eapply Forall_impl; [exact Hsp|]. by intros rb [? _].
Qed.

Lemma parse_records rs : ∀ acc,
  Forall survives rs → NoDup (map v_Key rs) → Forall (λ r, acc !! v_Key r = None) rs →
  parse_lines (map line_of rs) acc = Some (list_to_map (map (λ r, (v_Key r, v_Value r)) rs) ∪ acc).
Proof.
  unfold parse_lines. induction rs as [|r rs IH]; intros acc Hs Hnd Hno; [cbn; by rewrite map_empty_union|].
  apply Forall_cons in Hs as [Hr Hs], Hno as [Hnr Hno]. apply NoDup_cons in Hnd as [Hnin Hnd]. cbn [map foldl mbind option_bind].
  rewrite parse_line_of by done. rewrite IH; [|done..|].
  - f_equal. cbn [list_to_map foldr fst snd]. rewrite <-insert_union_r, insert_union_l; [done|].
    apply not_elem_of_list_to_map. by rewrite map_map.
  - rewrite Forall_forall in Hno |- *. intros x Hx. rewrite lookup_insert_ne; [by apply Hno|].
    intros E. apply Hnin. rewrite E. by apply list_elem_of_fmap_2.
Qed.

(** *** The lines of an export *)

Lemma split_byte_app c a t : contains_byte c a = false → split_byte c (a +:+ String c t) = a :: split_byte c t.
Proof.
  induction a as [|x a IH]; [intros _; rewrite app_nil_l'; cbn; by rewrite decide_True|].
  rewrite contains_byte_cons, orb_false_iff, bool_decide_eq_false. intros [Hx Ha]. rewrite app_cons. cbn [split_byte].
  rewrite decide_False by done. by rewrite IH.
Qed.
Lemma scan_lines_all max ls :
  Forall (λ l, (Z.of_nat (String.length l) < max)%Z) ls → scan_lines max (ls ++ [""]) = (map drop_cr ls, true).
Proof.
  induction 1 as [|w ls Hw Hls IH]; [done|]. cbn [app map]. cbn [scan_lines].
  rewrite IH, (proj2 (Z.ltb_lt _ max)) by done. destruct w, (ls ++ [""]) eqn:E; try done. by destruct ls.
Qed.
Lemma drop_cr_id l : contains_byte (byte 13) l = false → drop_cr l = l.
Proof.
  intros H. unfold drop_cr. destruct (strip_suffix _ l) as [x|] eqn:E; [|done].
  apply strip_suffix_Some in E as ->. by rewrite contains_byte_app, orb_true_r in H.
Qed.

Definition header_line : string := "# KeepSave explicit plaintext export".
Definition body (rs : list VRecord) : string := foldr (λ r s, format_record printable r +:+ s) "" rs.
Lemma body_cons r rs : body (r :: rs) = line_of r +:+ String (byte 10) (body rs).
Proof. unfold body, line_of, format_record, text_of. cbn [foldr]. by rewrite <-!app_assoc', !app_cons, app_nil_l'. Qed.

Lemma export_lines rs : Forall survives rs → split_byte (byte 10) (body rs) = map line_of rs ++ [""].
Proof.
  induction 1 as [|r rs Hr Hrs IH]; [done|]. rewrite body_cons, split_byte_app by (by apply line_no_break). by rewrite IH.
Qed.
Lemma export_short rs : Forall (λ r, String.length (line_of r) < String.length (body rs)) rs.
Proof.
  induction rs as [|r rs IH]; [done|]. rewrite body_cons, length_app'. cbn [String.length].
  constructor; [lia|]. eapply Forall_impl; [exact IH|]. cbn. lia.
Qed.
End Format.

(** ** Properties *)

(** C40: an export can be imported.  If the keys are valid, distinct and none
    begins with a hash, and every value that is not quoted has no space at its
    ends, then parsing what was formatted gives every key its value back,
    whatever bytes the values hold, as long as the text fits the parser. *)
Theorem envfile_roundtrip printable rs :
  rs ≠ [] → NoDup (map v_Key rs) → Forall survives rs →
  (Z.of_nat (String.length (formatEnvRecords printable rs)) <= 2 ^ 20)%Z →
  parseEnvStrict (formatEnvRecords printable rs) = Ok (list_to_map (map (λ r, (v_Key r, v_Value r)) rs)).
Proof.
  intros Hne Hnd Hs Hlen. unfold parseEnvStrict. rewrite (proj2 (Z.ltb_ge _ _)) by done.
  assert (formatEnvRecords printable rs = header_line +:+ String (byte 10) (body printable rs)) as E
    by reflexivity.
  assert (Scan (2 ^ 20) (formatEnvRecords printable rs) = (header_line :: map (line_of printable) rs, true)) as ->.
  { unfold Scan. rewrite E, split_byte_app by done. rewrite export_lines by done. rewrite app_comm_cons, scan_lines_all.
    - cbn [map]. f_equal. f_equal. rewrite map_map. apply map_ext_in. intros r Hr%list_elem_of_In.
      rewrite Forall_forall in Hs. by apply drop_cr_id, (line_no_break printable r), Hs.
    - rewrite E, length_app' in Hlen. constructor; [vm_compute; reflexivity|]. apply Forall_map.
      eapply Forall_impl; [apply (export_short printable)|]. cbn [String.length] in Hlen. intros r Hr. cbv beta in *. lia. }
  assert (parse_lines (header_line :: map (line_of printable) rs) ∅ = parse_lines (map (line_of printable) rs) ∅) as -> by done.
  rewrite parse_records by (done || by apply Forall_forall). rewrite map_union_empty. cbn [negb orb].
  rewrite bool_decide_eq_false_2; [done|]. intros E0. destruct rs as [|r rs]; [done|]. exact (insert_non_empty _ _ _ E0).
Qed.

Definition demo_file : list VRecord :=
  [mkVRecord 1 20 "alpha" "DB_URL" 1 "postgres://app:a b@db?x=1#y" false 60 0 0;
   mkVRecord 2 20 "alpha" "CERT" 3 (String (byte 10) (String "034" (String "092" (String (byte 200) (String (byte 0) "end"))))) false 60 0 0;
   mkVRecord 3 20 "alpha" "PLAIN" 1 "abc=" false 60 0 0; mkVRecord 4 20 "alpha" "EMPTY" 1 "" false 60 0 0].
Lemma envfile_roundtrip_witness :
  parseEnvStrict (formatEnvRecords (λ _, false) demo_file) = Ok (list_to_map (map (λ r, (v_Key r, v_Value r)) demo_file)).
Proof.
  apply (envfile_roundtrip (λ _, false) demo_file); [done| | |vm_compute; discriminate].
  - apply (bool_decide_unpack _). vm_compute. exact I.
  - repeat constructor.
Defined.

(** ** What an export does not bring back *)

(** A value that begins with a no-break space, a form feed or another space that
    is not among the quoted characters is exported bare and trimmed on import; a
    valid key that begins with a hash is exported as a comment. *)
Lemma edge_space_lost :
  parseEnvStrict (formatEnvRecords (λ _, true) [mkVRecord 1 20 "alpha" "PIN" 1 (String (byte 12) "1234") false 60 0 0;
                                                mkVRecord 2 20 "alpha" "#A" 1 "x" false 60 0 0]) =
  Ok {["PIN" := "1234"]}.
Proof. vm_compute. reflexivity. Qed.

(** The legacy parser does not look at the scanner's error: a line beyond 64 KiB
    silently ends the import, and what follows is not read. *)
Lemma legacy_long_line_truncates :
  parseEnvContent ("A=1" +:+ String (byte 10) ("B=" +:+ String.concat "" (replicate 4096 "0123456789abcdef")
                           +:+ String (byte 10) "C=3")) = {["A" := "1"]}.
Proof. vm_compute. reflexivity. Qed.
