(* ===== verification/ApiKeys.v ===== *)
(** * API keys

    [internal/service/apikey_transactions.go] and [apikey_service.go] over
    [internal/repository/apikey_transactions.go] and [apikey_repo.go]: keys are
    created and deleted by the owner of a project in one transaction with the
    admission barrier, the audit entry and the outbox event; key material is
    [internal/auth/apikey.go]'s. *)
From S2P Require Import Prelude GoStrings GoEncoding Policy Schema Database Crypto Jobs Authority AuditLog VaultStore Vault.

(** ** Definitions *)

Definition ErrSessionInvalid : error := Sentinel "invalid or expired human session".
Definition ErrSessionUnavailable : error := Sentinel "human session authority unavailable".
Definition ErrRecentAuthentication : error := Sentinel "recent authentication required".
Definition ErrNotAuthorized : error := Sentinel "not authorized for this project".
Definition ErrAPIKeyExpiryOutOfRange : error :=
  Sentinel "expires_at must be in the future and at most 365 days from now".

Definition RecentAuthenticationWindow : Z := 10 * Minute.

(** [SELECT ... FROM session_tokens WHERE id=$1 AND user_id=$2]. *)
Definition session_of (user id : uuid) (db : DB) : option session_row :=
  s ← sessions db !! id; if bool_decide (se_user_id s = user) then Some s else None.

(** [SessionRepository.LockActiveTx]. *)
Definition LockActiveTx (Dialect : DBType) (user id : uuid) (recent : bool) : Tx unit :=
  r ← attempt (query_row (session_of user id));
  match r with
  | Err e => fail (if errors_Is e ErrNoRows then ErrSessionInvalid else ErrSessionUnavailable)
  | Ok s =>
      _ ← g_lock Dialect (LockSession id);
      t ← now;
      if se_revoked s || negb (After (se_expires_at s) t) then fail ErrSessionInvalid
      else if recent && (RecentAuthenticationWindow <? t - se_created_at s)%Z then fail ErrRecentAuthentication
      else mret ()
  end.

(** *** [ProjectRepository.RequireOwnedTx] *)

(** The owner of a live project, personal or one [user] administers. *)
Definition owned_project (id user : uuid) (db : DB) : option uuid :=
  r ← projects db !! id;
  if bool_decide (pr_deleted_at r = None)
     && match pr_organization_id r with None => true | Some o => bool_decide (members db !! (o, user) = Some "admin") end
  then Some (pr_owner_id r) else None.

Definition RequireOwnedTx (Dialect : DBType) (id user : uuid) : Tx unit :=
  owner ← query_row (owned_project id user);
  _ ← g_lock Dialect (LockProjectRow id);
  check (bool_decide (owner = user)) (Sentinel ErrNoRows).

(** *** Key material *)

Definition apiKeyPrefix : string := "ks_".
Definition apiKeyDefaultTTL : Z := 90 * 24 * Hour.
Definition apiKeyMaxTTL : Z := 365 * 24 * Hour.

Definition computeEffectiveAPIKeyExpiry (now : time) (requested : option time) : result time :=
  match requested with
  | None => Ok (now + apiKeyDefaultTTL)%Z
  | Some r =>
      if Before r (now + 1 * Minute) || After r (now + apiKeyMaxTTL) then Err ErrAPIKeyExpiryOutOfRange else Ok r
  end.

Definition validAPIKeyScope (scope : string) : bool :=
  let '(action, pattern, qualified) := Cut scope ":" in
  if negb (bool_decide (action ∈ ["read"; "write"; "delete"; "promote"])) then false
  else negb qualified
       || ((0 <? String.length pattern) && (String.length pattern <=? 255)
           && negb (ContainsAny pattern ["000"; "013"; "010"]%char)).

Section Keys.
Context `{P : Primitives}.

(** The raw key and the hash that is stored. *)
Definition HashAPIKey (rawKey : string) : string := hex_EncodeToString (sha256 rawKey).
Definition GenerateAPIKey : Tx (string * string) :=
  b ← wrap_err "generating api key" (rand_bytes 32);
  let rawKey := apiKeyPrefix +:+ hex_EncodeToString b in
  mret (rawKey, HashAPIKey rawKey).

(** *** [APIKeyRepository] *)

(** [INSERT INTO api_keys]: the primary key, the unique hash, the foreign keys
    and the widths of the columns. *)
Definition insert_api_key (id : uuid) (k : api_key_row) (db : DB) : option DB :=
  if bool_decide (is_Some (api_keys db !! id))
     || bool_decide (map_Exists (λ _ k', ak_hashed_key k' = ak_hashed_key k) (api_keys db))
     || bool_decide (ak_user_id k ∉ users db) || bool_decide (projects db !! ak_project_id k = None)
     || negb (varchar 255 (ak_name k)) || negb (varchar 64 (ak_hashed_key k))
     || match ak_environment k with Some e => negb (varchar 50 e) | None => false end
  then None else Some (upd_db_projects (upd_t_api_keys <[id := k]>) db).

Definition GetByIDTx (id : uuid) : Tx api_key_row := query_row (λ db, api_keys db !! id).

Definition APIKeyRepository_CreateTx (name hash : string) (user project : uuid) (scopes : list string)
    (environment : option string) (expiry : time) : Tx (uuid * api_key_row) :=
  id ← uuid_New;
  t ← now;
  _ ← exec (insert_api_key id (mkAPIKey user project scopes environment (Some expiry) name hash t));
  k ← GetByIDTx id;
  mret (id, k).

(** [DELETE ... WHERE id=$1 AND user_id=$2], which must hit one row. *)
Definition owned_key (id user : uuid) (k : uuid) (r : api_key_row) : bool :=
  bool_decide (k = id) && bool_decide (ak_user_id r = user).
Definition DeleteTx (id user : uuid) : Tx unit :=
  n ← exec_n (λ db, Some (delete_api_keys (owned_key id user) db, count_where (owned_key id user) (api_keys db)));
  check (n =? 1)%Z (Sentinel ErrNoRows).

(** [ORDER BY created_at DESC]. *)
Definition newest_key (a b : uuid * api_key_row) : Prop := (ak_created_at b.2 <= ak_created_at a.2)%Z.
#[export] Instance newest_key_dec : RelDecision newest_key.
Proof. intros a b. unfold newest_key. apply _. Defined.
Definition ListByUserID (user : uuid) : Tx (list (uuid * api_key_row)) :=
  query (λ db, merge_sort newest_key (select (λ _ k, bool_decide (ak_user_id k = user)) (api_keys db))).

(** *** The service *)

Record APIKeyService := mkAPIKeyService {
  ks_dialect : DBType;
  ks_sessions : bool;
  ks_auditRepo : AuditRepository;
}.
Context (s : APIKeyService).

(** The outbox event that follows a change of a key, on PostgreSQL. *)
Definition key_event (project id : uuid) (action : string) : Tx unit :=
  if bool_decide (ks_dialect s = DBTypePostgres) then
    job ← uuid_New;
    EnqueueTx job "identity.event"
      (Marshal (mk_obj [("project_id", JStr (uuid_String project)); ("key_id", JStr (uuid_String id)); ("action", JStr action)]))
      "local" 5
  else mret ().

(** Barrier and session of the caller. *)
Definition admit_owner (p : Principal) (project : uuid) : Tx unit :=
  _ ← (if bool_decide (ks_dialect s = DBTypePostgres) || ks_sessions s
       then on_err Vault.ErrDenied (LockProject (ks_dialect s) p project) else mret ());
  if ks_sessions s then LockActiveTx (ks_dialect s) (p_SubjectID p) (p_SessionID p) false else mret ().

Definition human_caller (p : Principal) : bool :=
  bool_decide (p_Kind p = Human) && negb (bool_decide (p_SubjectID p = uuid_Nil))
  && bool_decide (p_ActorID p = p_SubjectID p).

Definition CreateAuthorized (p : Principal) (name : string) (project : uuid) (scopes : list string)
    (environment : option string) (expires : option time) (ip : string) : Tx ((uuid * api_key_row) * string) :=
  if negb (human_caller p) then fail Vault.ErrDenied else
  let scopes := if bool_decide (scopes = []) then ["read"] else scopes in
  if negb (forallb validAPIKeyScope scopes) then fail Vault.ErrInvalid else
  t ← now;
  expiry ← lift (computeEffectiveAPIKeyExpiry t expires);
  '(raw, hash) ← GenerateAPIKey;
  k ← with_tx (
    _ ← admit_owner p project;
    _ ← no_rows_is ErrNotAuthorized (RequireOwnedTx (ks_dialect s) project (p_SubjectID p));
    k ← APIKeyRepository_CreateTx name hash (p_SubjectID p) project scopes environment expiry;
    _ ← CreateTx (ks_auditRepo s) (Some (p_ActorID p)) (Some project) "apikey.created" (default "" environment)
          (mk_obj [("key_id", JStr (uuid_String k.1)); ("name", JStr name); ("scopes", JList (map JStr scopes))]) ip;
    _ ← key_event project k.1 "apikey.created";
    mret k);
  mret (k, raw).

Definition DeleteAuthorized (p : Principal) (id : uuid) (ip : string) : Tx unit :=
  if negb (human_caller p) then fail Vault.ErrDenied else
  with_tx (
    k ← on_err Vault.ErrNotFound (GetByIDTx id);
    _ ← check (bool_decide (ak_user_id k = p_SubjectID p)) Vault.ErrNotFound;
    _ ← admit_owner p (ak_project_id k);
    _ ← on_err Vault.ErrDenied (RequireOwnedTx (ks_dialect s) (ak_project_id k) (p_SubjectID p));
    _ ← DeleteTx id (p_SubjectID p);
    _ ← CreateTx (ks_auditRepo s) (Some (p_ActorID p)) (Some (ak_project_id k)) "apikey.deleted" ""
          (mk_obj [("key_id", JStr (uuid_String id))]) ip;
    key_event (ak_project_id k) id "apikey.deleted").

Definition List (user : uuid) : Tx (list (uuid * api_key_row)) := ListByUserID user.
End Keys.

(** ** Lemmas *)

Lemma reads_LockProject d p project : reads (LockProject d p project).
Proof. split; [apply keeps_LockProject, _|apply forward_LockProject]. Qed.
Lemma reads_RequireSession d p recent : reads (RequireSession d p recent).
Proof. split; [apply keeps_RequireSession, _|apply forward_RequireSession]. Qed.
Lemma reads_g_lock d l : reads (g_lock d l).
Proof. unfold g_lock. destruct (bool_decide _); [apply reads_ret|apply reads_note_lock]. Qed.
Lemma reads_LockSubjects d ids : reads (LockSubjects d ids).
Proof. split; [apply keeps_LockSubjects, _|unfold LockSubjects, select_locked, g_lock; forward_tac]. Qed.
Lemma reads_RequireActiveTx d user sid : reads (RequireActiveTx d user sid).
Proof. apply reads_bind; [apply reads_LockSubjects|intros _; apply reads_RequireSession]. Qed.
Lemma reads_RequireRecentTx d user sid : reads (RequireRecentTx d user sid).
Proof. apply reads_bind; [apply reads_LockSubjects|intros _; apply reads_RequireSession]. Qed.
Lemma reads_LockActiveTx d user id recent : reads (LockActiveTx d user id recent).
Proof. unfold LockActiveTx, g_lock. split; [keeps_tac|forward_tac]. Qed.
Lemma reads_RequireOwnedTx d id user : reads (RequireOwnedTx d id user).
Proof. unfold RequireOwnedTx, g_lock. split; [keeps_tac|forward_tac]. Qed.
Lemma reads_GenerateAPIKey `{P : Primitives} : reads GenerateAPIKey.
Proof. unfold GenerateAPIKey. split; [keeps_tac|forward_tac]. Qed.
#[export] Hint Resolve reads_LockProject reads_LockActiveTx reads_RequireOwnedTx reads_GenerateAPIKey reads_uuid_New
  reads_lift reads_RequireSession reads_g_lock reads_LockSubjects reads_RequireActiveTx reads_RequireRecentTx : reads.

(** States everything in terms of the world a run of reads began with. *)
Ltac settle :=
  repeat match goal with
  | S : at_same ?a ?b, S' : at_same ?b ?c |- _ => apply (transitivity S) in S'
  end;
  repeat match goal with
  | S : at_same _ _ |- _ =>
      let E := fresh "E" in let T := fresh "T" in
      destruct S as (E & T & _); rewrite ?E, ?T in *; clear E T
  end.

(** Replaces the first step of [H], a read, by its result. *)
Tactic Notation "read_step" ident(H) "as" ident(a) ident(Ha) ident(S) :=
  let w := fresh "w" in
  apply bind_reads_Ok in H as (a & w & Ha & S & H); [|solve [auto with reads nocore]].

Section Facts.
Context `{P : Primitives} (s : APIKeyService).

Lemma reads_admit_owner p project : reads (admit_owner s p project).
Proof.
  unfold admit_owner. apply reads_bind; [|intros _].
  - destruct (_ || _); [apply reads_on_err, reads_LockProject|apply reads_ret].
  - destruct (ks_sessions s); [apply reads_LockActiveTx|apply reads_ret].
Qed.
#[local] Hint Resolve reads_admit_owner : reads.
Lemma key_event_core project id a : keeps same_core (key_event s project id a).
Proof.
  unfold key_event. destruct (bool_decide _); [|apply keeps_ret, _].
  apply keeps_bind; [apply _|apply keeps_uuid_New, _|intros j]. apply keeps_EnqueueTx; [apply _|].
  intros db x t _ _ _. by repeat split.
Qed.
Lemma audit_core r u pr a e d ip : keeps same_core (CreateTx r u pr a e d ip).
Proof. eapply keeps_weaken; [|apply (audit_keeps (AuditorOk := CreateTx_auditor r))]. by intros x y [? _]. Qed.

Lemma RequireOwnedTx_Ok d id user u w w' : RequireOwnedTx d id user w = (Ok u, w') → owned_project id user (w_db w) = Some user.
Proof. unfold RequireOwnedTx. intros H. steps. b2p. by subst. Qed.

(** Both operations move the random source forward. *)
Lemma forward_CreateAuthorized p name project scopes env exp ip :
  forward (CreateAuthorized s p name project scopes env exp ip).
Proof.
  unfold CreateAuthorized, GenerateAPIKey, admit_owner, LockActiveTx, RequireOwnedTx, g_lock, APIKeyRepository_CreateTx, GetByIDTx, key_event.
  forward_tac; apply forward_CreateTx.
Qed.
Lemma forward_DeleteAuthorized p id ip : forward (DeleteAuthorized s p id ip).
Proof.
  unfold DeleteAuthorized, admit_owner, LockActiveTx, RequireOwnedTx, g_lock, GetByIDTx, DeleteTx, key_event.
  forward_tac; apply forward_CreateTx.
Qed.

(** The bounds of a key's lifetime. *)
Lemma expiry_bounds t requested e :
  computeEffectiveAPIKeyExpiry t requested = Ok e → (t + Minute <= e <= t + apiKeyMaxTTL)%Z.
Proof.
  unfold computeEffectiveAPIKeyExpiry, Before, After, apiKeyDefaultTTL, apiKeyMaxTTL, Hour, Minute, Second, Millisecond.
  destruct requested as [r|]; [|intros [= <-]; lia]. destruct (_ || _) eqn:E; [done|]. intros [= <-].
  apply orb_false_iff in E as [E1%Z.ltb_ge E2%Z.ltb_ge]. lia.
Qed.

Lemma insert_api_key_Some id k db db' :
  insert_api_key id k db = Some db' →
  api_keys db !! id = None ∧ map_Forall (λ _ k', ak_hashed_key k' ≠ ak_hashed_key k) (api_keys db) ∧
  ak_user_id k ∈ users db ∧ db' = upd_db_projects (upd_t_api_keys <[id := k]>) db.
Proof.
  unfold insert_api_key. destruct (_ || _) eqn:E; [done|]. intros [= <-]. rewrite !orb_false_iff, !bool_decide_eq_false in E.
  destruct E as ((((((E1 & E2) & E3) & _) & _) & _) & _). split_and!; [by apply eq_None_not_Some| | |done].
  - intros i k' Hk Heq. apply E2. by exists i, k'.
  - by destruct (decide (ak_user_id k ∈ users db)).
Qed.

(** The repository's insert: a fresh identifier, the row read back. *)
Lemma key_read_back name hash user project scopes env exp kk w w' :
  APIKeyRepository_CreateTx name hash user project scopes env exp w = (Ok kk, w') →
  ∃ pos, (w_rng w <= pos)%N ∧ kk = (uuid_new pos, mkAPIKey user project scopes env (Some exp) name hash (w_now w)) ∧
    insert_api_key kk.1 kk.2 (w_db w) = Some (w_db w').
Proof.
  unfold APIKeyRepository_CreateTx. intros H. apply bind_Ok in H as (id & w1 & [-> ->]%uuid_New_Ok & H).
  apply bind_Ok in H as (t & w2 & [-> ->]%now_Ok & H). apply bind_Ok in H as (u & w3 & (db & Hi & ->)%exec_Ok & H).
  apply bind_Ok in H as (k & w4 & [Hk ->]%query_row_Ok & [<- <-]%ret_Ok).
  exists (w_rng w). split; [lia|]. cbn in *. apply insert_api_key_Some in Hi as Hi'. destruct Hi' as (_ & _ & _ & ->).
  cbn in Hk. rewrite lookup_insert_eq in Hk. injection Hk as <-. by split.
Qed.

Lemma CreateAuthorized_Ok p name project scopes env exp ip kr w w' :
  CreateAuthorized s p name project scopes env exp ip w = (Ok kr, w') →
  ∃ pos e, (w_rng w <= pos)%N ∧ kr.1.1 = uuid_new pos ∧ api_keys (w_db w) !! kr.1.1 = None ∧
    kr.1.2 = mkAPIKey (p_SubjectID p) project (if bool_decide (scopes = []) then ["read"] else scopes) env (Some e) name
               (HashAPIKey kr.2) (w_now w) ∧
    (w_now w + Minute <= e <= w_now w + apiKeyMaxTTL)%Z ∧ Forall (λ sc, validAPIKeyScope sc = true) (ak_scopes kr.1.2) ∧
    owned_project project (p_SubjectID p) (w_db w) = Some (p_SubjectID p) ∧
    same_core (upd_db_projects (upd_t_api_keys <[kr.1.1 := kr.1.2]>) (w_db w)) (w_db w').
Proof.
  unfold CreateAuthorized. destruct (negb (human_caller p)); [done|]. destruct (negb _) eqn:Hsc; [done|]. intros H.
  apply bind_Ok in H as (t & w1 & [-> ->]%now_Ok & H). apply bind_Ok in H as (e & w1 & [He ->]%lift_Ok & H).
  apply expiry_bounds in He. unfold GenerateAPIKey in H.
  apply bind_Ok in H as ([raw hash] & w1 & Hg & H). apply bind_Ok in Hg as (b & w2 & Hb & [[= <- <-] <-]%ret_Ok).
  apply wrap_err_Ok, rand_bytes_Ok in Hb as [_ ->]. apply bind_Ok in H as (k & w3 & H & [<- <-]%ret_Ok).
  apply with_tx_Ok in H as (w1 & H & ->). cbn [w_db ticked upd_w_faults].
  read_step H as u1 Hu1 S1. read_step H as u2 Howned S2. apply no_rows_is_Ok, RequireOwnedTx_Ok in Howned.
  apply bind_Ok in H as (k1 & w5 & Hc & H). apply key_read_back in Hc as (pos & Hpos & -> & Hi).
  apply bind_Ok in H as (u3 & w6 & H1%audit_core & H). apply bind_Ok in H as (u4 & w7 & H2%key_event_core & H).
  apply ret_Ok in H as [<- <-]. pose proof (transitivity S1 S2) as (E & T & R). destruct S1 as (E1 & _).
  cbn in E, T, R, E1. rewrite E, T in *. rewrite E1 in Howned. apply insert_api_key_Some in Hi as (Hno & _ & _ & Hw5).
  exists pos, e. cbn in *. split_and!; try done; try lia.
  - apply negb_false_iff in Hsc. rewrite forallb_forall in Hsc. apply Forall_forall. intros x Hx. apply Hsc.
    by apply list_elem_of_In.
  - etrans; [|exact H2]. by rewrite <-Hw5.
Qed.

Lemma DeleteAuthorized_Ok p id ip u w w' :
  DeleteAuthorized s p id ip w = (Ok u, w') →
  (∃ k, api_keys (w_db w) !! id = Some k ∧ ak_user_id k = p_SubjectID p) ∧
  same_core (delete_api_keys (owned_key id (p_SubjectID p)) (w_db w)) (w_db w').
Proof.
  unfold DeleteAuthorized. destruct (negb _); [done|]. intros (w1 & H & ->)%with_tx_Ok. cbn [w_db ticked upd_w_faults].
  apply bind_Ok in H as (k & w2 & Hk & H). apply on_err_Ok, query_row_Ok in Hk as [Hk ->].
  apply bind_Ok in H as (u1 & w3 & [Hu <-]%check_Ok & H). read_step H as u2 Hu2 S2. read_step H as u3 Hu3 S3.
  apply bind_Ok in H as (u4 & w5 & Hd & H). unfold DeleteTx in Hd. apply bind_Ok in Hd as (n & w6 & Hd & [_ <-]%check_Ok).
  apply exec_n_Ok in Hd as (db & [= <- <-] & ->). apply bind_Ok in H as (u5 & w7 & H1%audit_core & H2%key_event_core).
  destruct S2 as (E2 & _), S3 as (E3 & _). cbn in *. rewrite E3, E2 in *. split; [by exists k; split; [|b2p]|].
  by etrans.
Qed.
End Facts.
#[export] Hint Resolve reads_admit_owner : reads.
