(* ===== verification/Grants.v ===== *)
(** * Leases and agent tokens

    [internal/service/lease_transactions.go], [lease_service.go],
    [agent_token_transactions.go] and [agent_token_service.go], the token claims
    of [internal/auth/auth.go] and the denylist of
    [internal/repository/token_denylist_repo.go]: an API key leases some of its
    keys, a lease is exchanged for a short-lived token, and both are revoked, each
    in one transaction with its admission barrier, audit entry and outbox event.
    [grant_step] is the abstract specification of the four credential tables;
    the operations refine it, and narrowing and revocation are proved on it.
    The deadline of [withGrantTx] is not modelled. *)
From S2P Require Import Prelude GoStrings GoEncoding Policy Schema Database Crypto Jobs Authority AuditLog VaultStore Vault ApiKeys.

(** ** Definitions *)

Definition ErrLeaseNotFound : error := Sentinel "lease not found".
Definition ErrLeaseAuthority : error := Sentinel "lease exceeds parent authority".
Definition ErrLeaseNotActive : error := Sentinel "lease not active".
Definition ErrLeaseProjectMismatch : error := Sentinel "lease does not belong to project".
Definition ErrAgentTokenNotFound : error := Sentinel "agent token not found".

(** *** [auth.Claims] and signing *)

Record Claims := mkClaims {
  c_UserID : uuid;
  c_Email : string;
  c_SessionID : string;
  c_TokenType : string;
  c_LeaseID : option uuid;
  c_ProjectID : option uuid;
  c_Environment : string;
  c_SecretKeys : list string;
  c_ID : string;
  c_ExpiresAt : option time;
  c_IssuedAt : option time;
}.

(** The JWT library: [NewWithClaims(alg, claims)] with a [kid] header, signed. *)
Class JWT := SignedString : string → option string → string → Claims → option string.

(** [JWTService]: the HMAC secret and, once RS256 is enabled, the keystore, with
    its signing key if it has one. *)
Record JWTService := mkJWTService {
  jwt_secret : string;
  jwt_keystore : option (option (string * string));
}.

Definition maxAgentTokenTTL : Z := 15 * Minute.
Definition MaxAgentTokenTTL : Z := maxAgentTokenTTL.

Definition signed_or_error (r : option string) : result string :=
  match r with Some t => Ok t | None => Err (Wrapf "signing token" (Sentinel "jwt")) end.

Section Tokens.
Context `{J : JWT} `{P : Primitives}.

Definition signClaims (s : JWTService) (c : Claims) : result string :=
  match jwt_keystore s with
  | Some (Some (kid, priv)) => signed_or_error (SignedString "RS256" (Some kid) priv c)
  | _ => signed_or_error (SignedString "HS256" None (jwt_secret s) c)
  end.

(** The lifetime of a token: the request, capped, within the lease. *)
Definition agent_ttl (ttl leaseRemaining : Z) : Z :=
  let ttl := if (ttl <=? 0)%Z || (maxAgentTokenTTL <? ttl)%Z then maxAgentTokenTTL else ttl in
  if (0 <? leaseRemaining)%Z && (leaseRemaining <? ttl)%Z then leaseRemaining else ttl.

Definition GenerateAgentToken (s : JWTService) (userID : uuid) (email : string) (leaseID projectID : uuid)
    (environment : string) (secretKeys : list string) (ttl leaseRemaining : Z) : Tx (string * string * time) :=
  let ttl := agent_ttl ttl leaseRemaining in
  id ← uuid_New;
  let jti := uuid_String id in
  t ← now;
  let expiresAt := (t + ttl)%Z in
  signed ← lift (signClaims s (mkClaims userID email "" "agent" (Some leaseID) (Some projectID) environment secretKeys
                                 jti (Some expiresAt) (Some t)));
  mret (signed, jti, expiresAt).

(** *** [LeaseService] *)

Record LeaseService := mkLeaseService {
  ls_dialect : DBType;
  ls_auditRepo : option AuditRepository;
  ls_sessions : bool;
}.

(** [identityEventTx]: PostgreSQL is the durable platform. *)
Definition identityEventTx (Dialect : DBType) (actor : uuid) (action : string) (details : list (string * string)) : Tx unit :=
  if negb (bool_decide (Dialect = DBTypePostgres)) then mret () else
  id ← uuid_New;
  EnqueueTx id "identity.event"
    (Marshal (mk_obj [("actor_id", JStr (uuid_String actor)); ("action", JStr action);
                      ("details", mk_obj (map (λ kv, (kv.1, JStr kv.2)) details))])) "local" 5.

(** [auditRepo.CreateTx] on a repository that may be [nil]. *)
Definition audit_grant (repo : option AuditRepository) (actor project : uuid) (action environment : string)
    (details : list (string * json)) (ip : string) : Tx unit :=
  match repo with
  | Some r => CreateTx r (Some actor) (Some project) action environment (mk_obj details) ip
  | None => fail (Errorf "runtime error: nil pointer dereference")
  end.

Definition with_actor (actor : uuid) (p : Principal) : Principal :=
  mkPrincipal (p_Kind p) (p_SubjectID p) actor (p_TenantID p) (p_ParentGrantID p) (p_ExpiresAt p) (p_SessionID p)
    (p_LeaseID p) (p_TokenID p).
Definition without_session (p : Principal) : Principal :=
  mkPrincipal (p_Kind p) (p_SubjectID p) (p_ActorID p) (p_TenantID p) (p_ParentGrantID p) (p_ExpiresAt p) uuid_Nil
    (p_LeaseID p) (p_TokenID p).

Definition parentTx (Dialect : DBType) (id : uuid) (lock : bool) : Tx api_key_row :=
  k ← query_row (λ db, api_keys db !! id);
  _ ← (if lock then g_lock Dialect (LockAPIKey id) else mret ());
  mret k.
Definition leaseTx (Dialect : DBType) (id : uuid) (lock : bool) : Tx lease_row :=
  l ← query_row (λ db, leases db !! id);
  _ ← (if lock then g_lock Dialect (LockLease id) else mret ());
  mret l.

Definition validLeaseParent (t : time) (parent : api_key_row) (project : uuid) (environment : string)
    (keys : list string) (expires : time) : bool :=
  bool_decide (ak_project_id parent = project)
  && match ak_environment parent with None => true | Some e => bool_decide (e = environment) end
  && LeaseKeysAllowed (ak_scopes parent) keys
  && match ak_expires_at parent with None => true | Some pe => After pe t && negb (After expires pe) end.

(** [INSERT INTO secret_leases] and [UPDATE ... SET revoked]. *)
Definition insert_lease (id : uuid) (l : lease_row) (db : DB) : option DB :=
  if bool_decide (is_Some (leases db !! id)) || bool_decide (api_keys db !! le_api_key_id l = None)
     || bool_decide (projects db !! le_project_id l = None) || negb (varchar 50 (le_environment l))
  then None else Some (upd_db_projects (upd_t_secret_leases <[id := l]>) db).
Definition revoke_row (t : time) (l : lease_row) : lease_row :=
  mkLease (le_api_key_id l) (le_project_id l) (le_environment l) (le_secret_keys l) (le_granted_at l) (le_expires_at l)
    true (Some t).
Definition revoke_lease (id project : uuid) (t : time) (db : DB) : DB :=
  upd_db_projects (upd_t_secret_leases
    (update_where (λ k l, bool_decide (k = id) && bool_decide (le_project_id l = project)) (revoke_row t))) db.

(** [INSERT INTO agent_token_issuance]. *)
Definition insert_issuance (jti : string) (i : issuance_row) (db : DB) : option DB :=
  if bool_decide (is_Some (issuance db !! jti)) || bool_decide (leases db !! is_lease_id i = None)
     || bool_decide (projects db !! is_project_id i = None) || bool_decide (is_user_id i ∉ users db)
     || negb (varchar 255 jti)
  then None else Some (upd_db_projects (upd_t_agent_token_issuance <[jti := i]>) db).
(** [INSERT INTO token_denylist ... ON CONFLICT (jti) DO UPDATE SET jti = EXCLUDED.jti]. *)
Definition deny_token (jti : string) (d : denied_row) (db : DB) : DB :=
  match denylist db !! jti with
  | Some _ => db
  | None => upd_db_projects (upd_t_token_denylist <[jti := d]>) db
  end.

Section Leases.
Context (s : LeaseService).

(** The transaction of a grant: two timeouts on PostgreSQL, the body, [Commit]. *)
Definition withGrantTx {A} (fn : Tx A) : Tx A :=
  match ls_auditRepo s with
  | None => fail (Errorf "grant audit unavailable")
  | Some _ =>
      with_tx (
        _ ← (if bool_decide (ls_dialect s = DBTypePostgres) then _ ← exec_ (λ db, db); exec_ (λ db, db) else mret ());
        fn)
  end.

Definition lockGrantActorTx (p : Principal) (project : uuid) : Tx unit :=
  if (negb (bool_decide (p_Kind p = Human)) && negb (bool_decide (p_Kind p = APIKey)))
     || bool_decide (p_SubjectID p = uuid_Nil) || bool_decide (p_ActorID p = uuid_Nil)
     || (bool_decide (p_Kind p = Human) && negb (bool_decide (p_SubjectID p = p_ActorID p)))
  then fail ErrLeaseAuthority
  else if negb (bool_decide (ls_dialect s = DBTypePostgres)) then
    _ ← (if bool_decide (p_Kind p = Human) && ls_sessions s
         then LockActiveTx (ls_dialect s) (p_SubjectID p) (p_SessionID p) false else mret ());
    oo ← on_err ErrLeaseAuthority (query_row (live_project project));
    _ ← g_lock (ls_dialect s) (LockProjectRow project);
    match oo.2 with
    | None => mret ()
    | Some tenant =>
        _ ← on_err ErrLeaseAuthority (query_row (λ db, members db !! (tenant, p_ActorID p)));
        g_lock (ls_dialect s) (LockMembership tenant (p_ActorID p))
    end
  else
    _ ← on_err ErrLeaseAuthority (LockProject (ls_dialect s) (without_session p) project);
    if bool_decide (p_Kind p = Human) && ls_sessions s
    then on_err ErrSessionInvalid (RequireSession (ls_dialect s) p false)
    else mret ().

Definition grant_resource (project : uuid) (environment : string) (keys : list string) (collection : bool) : Resource :=
  mkResource uuid_Nil project environment (if collection then "secret_collection" else "") uuid_Nil 0
    (default "" (head keys)).

Definition authorizeGrantTx (p : Principal) (project : uuid) (environment : string) (keys : list string)
    (collection : bool) : Tx unit :=
  d ← on_err ErrLeaseAuthority
        (stored_authorizer (ls_dialect s) (ls_sessions s) p IssueGrant (grant_resource project environment keys collection));
  check (d_Allowed d) ErrLeaseAuthority.

Definition lease_environments : list string := ["alpha"; "uat"; "prod"].

Definition CreateLeaseAuthorized (p : Principal) (project : uuid) (environment : string) (keys : list string)
    (duration : Z) (ip : string) : Tx (uuid * lease_row) :=
  if negb (bool_decide (p_Kind p = APIKey)) || (duration <=? 0)%Z || (24 * Hour <? duration)%Z
     || negb (bool_decide (environment ∈ lease_environments))
  then fail ErrLeaseAuthority
  else withGrantTx (
    parent ← on_err ErrLeaseAuthority (parentTx (ls_dialect s) (p_SubjectID p) false);
    _ ← check (bool_decide (p_ActorID p = uuid_Nil) || bool_decide (p_ActorID p = ak_user_id parent)) ErrLeaseAuthority;
    let p := with_actor (ak_user_id parent) p in
    _ ← lockGrantActorTx p project;
    parent ← on_err ErrLeaseAuthority (parentTx (ls_dialect s) (p_SubjectID p) true);
    t ← now;
    let expires := (t + duration)%Z in
    _ ← check (bool_decide (ak_user_id parent = p_ActorID p) && validLeaseParent t parent project environment keys expires)
          ErrLeaseAuthority;
    _ ← authorizeGrantTx p project environment keys false;
    let keys := if bool_decide (keys = []) then ["*"] else keys in
    id ← uuid_New;
    _ ← wrap_err "creating lease"
          (exec (insert_lease id (mkLease (p_SubjectID p) project environment keys t expires false None)));
    lease ← leaseTx (ls_dialect s) id false;
    _ ← audit_grant (ls_auditRepo s) (ak_user_id parent) project "lease.created" environment
          [("project_id", JStr (uuid_String project)); ("lease_id", JStr (uuid_String id));
           ("secret_keys", JList (map JStr keys))] ip;
    _ ← identityEventTx (ls_dialect s) (ak_user_id parent) "lease.created"
          [("project_id", uuid_String project); ("lease_id", uuid_String id); ("api_key_id", uuid_String (p_SubjectID p))];
    mret (id, lease)).

(** The caller of a revocation: an API key acts as its user, on its own leases. *)
Definition revoking_principal (p : Principal) (lease : lease_row) : Tx Principal :=
  if bool_decide (p_Kind p = APIKey) then
    parent ← on_err ErrLeaseNotFound (parentTx (ls_dialect s) (p_SubjectID p) false);
    _ ← check (bool_decide (p_SubjectID p = le_api_key_id lease)
               && (bool_decide (p_ActorID p = uuid_Nil) || bool_decide (p_ActorID p = ak_user_id parent))) ErrLeaseNotFound;
    mret (with_actor (ak_user_id parent) p)
  else mret p.

Definition RevokeLeaseAuthorized (p : Principal) (id project : uuid) (ip : string) : Tx unit :=
  withGrantTx (
    lease ← on_err ErrLeaseNotFound (leaseTx (ls_dialect s) id false);
    _ ← check (bool_decide (le_project_id lease = project)) ErrLeaseNotFound;
    p ← revoking_principal p lease;
    _ ← lockGrantActorTx p project;
    parent ← on_err ErrLeaseNotFound (parentTx (ls_dialect s) (le_api_key_id lease) true);
    _ ← check (bool_decide (ak_project_id parent = project)
               && negb (bool_decide (p_Kind p = APIKey) && negb (bool_decide (ak_user_id parent = p_ActorID p))))
          ErrLeaseNotFound;
    current ← on_err ErrLeaseNotFound (leaseTx (ls_dialect s) id true);
    _ ← check (bool_decide (le_project_id current = project) && bool_decide (le_api_key_id current = le_api_key_id lease))
          ErrLeaseNotFound;
    _ ← authorizeGrantTx p project (le_environment current) [] true;
    if le_revoked current then mret () else
    t ← now;
    _ ← exec_ (revoke_lease id project t);
    _ ← audit_grant (ls_auditRepo s) (p_ActorID p) project "lease.revoked" (le_environment current)
          [("lease_id", JStr (uuid_String id))] ip;
    identityEventTx (ls_dialect s) (p_ActorID p) "lease.revoked" [("project_id", uuid_String project); ("lease_id", uuid_String id)]).

(** The wrappers without an explicit principal. *)
Definition CreateLease (apiKeyID project : uuid) (environment : string) (keys : list string) (duration : Z) (ip : string) :
    Tx (uuid * lease_row) :=
  CreateLeaseAuthorized (mkPrincipal APIKey apiKeyID uuid_Nil 0 0 0 0 0 "") project environment keys duration ip.
Definition RevokeLease (id project actor : uuid) (ip : string) : Tx unit :=
  RevokeLeaseAuthorized (mkPrincipal Human actor actor 0 0 0 0 0 "") id project ip.

(** Reads of active leases. *)
Definition active_lease (t : time) (l : lease_row) : bool := negb (le_revoked l) && (t <? le_expires_at l)%Z.
Definition GetActiveLease (id : uuid) : Tx lease_row :=
  t ← now;
  l ← wrap_err "getting active lease" (query_row (λ db, l ← leases db !! id; if active_lease t l then Some l else None));
  _ ← check (After (le_expires_at l) t) ErrLeaseNotFound;
  mret l.
Definition newest_lease (a b : uuid * lease_row) : Prop := (le_granted_at b.2 <= le_granted_at a.2)%Z.
#[export] Instance newest_lease_dec : RelDecision newest_lease.
Proof. intros a b. unfold newest_lease. apply _. Defined.
Definition ListActiveLeases (apiKey : uuid) : Tx (list (uuid * lease_row)) :=
  t ← now;
  wrap_err "listing active leases" (query (λ db,
    merge_sort newest_lease (select (λ _ l, bool_decide (le_api_key_id l = apiKey) && active_lease t l) (leases db)))).
End Leases.

(** *** [AgentTokenService] *)

(** [Format(time.RFC3339)]: no fraction of a second. *)
Definition rfc3339 (t : time) : string := time_RFC3339Nano (t - t mod Second).

Record AgentTokenService := mkAgentTokenService {
  at_jwt : option JWTService;
  at_leases : LeaseService;
  at_auditRepo : option AuditRepository;
}.
Record MintedAgentToken := mkMinted {
  mt_Token : string;
  mt_TokenType : string;
  mt_ExpiresAt : time;
  mt_LeaseID : uuid;
}.

Section Agents.
Context (s : AgentTokenService).
Definition at_dialect : DBType := ls_dialect (at_leases s).

(** [lease.Revoked || !lease.ExpiresAt.After(time.Now())], or no lease. *)
Definition live_lease (id : uuid) (lock : bool) : Tx lease_row :=
  lease ← on_err ErrLeaseNotActive (leaseTx at_dialect id lock);
  t ← now;
  _ ← check (negb (le_revoked lease) && After (le_expires_at lease) t) ErrLeaseNotActive;
  mret lease.

Definition MintTokenAuthorized (p : Principal) (project id : uuid) (requestedTTL : Z) (ip : string) : Tx MintedAgentToken :=
  match at_auditRepo s, at_jwt s with
  | Some _, Some jwt =>
      if negb (bool_decide (p_Kind p = Human)) && negb (bool_decide (p_Kind p = APIKey)) then fail ErrLeaseAuthority else
      withGrantTx (at_leases s) (
        lease ← live_lease id false;
        _ ← check (bool_decide (le_project_id lease = project)) ErrLeaseProjectMismatch;
        let parentID := le_api_key_id lease in
        parent ← on_err ErrLeaseAuthority (parentTx at_dialect parentID false);
        _ ← check (negb ((negb (bool_decide (p_ActorID p = uuid_Nil)) && negb (bool_decide (p_ActorID p = ak_user_id parent)))
                         || (bool_decide (p_Kind p = Human) && negb (bool_decide (p_SubjectID p = ak_user_id parent)))
                         || (bool_decide (p_Kind p = APIKey) && negb (bool_decide (p_SubjectID p = parentID)))))
              ErrLeaseAuthority;
        let p := with_actor (ak_user_id parent) p in
        _ ← lockGrantActorTx (at_leases s) p project;
        parent ← on_err ErrLeaseAuthority (parentTx at_dialect parentID true);
        _ ← check (bool_decide (ak_user_id parent = p_ActorID p)) ErrLeaseAuthority;
        lease ← live_lease id true;
        t ← now;
        _ ← check (bool_decide (le_project_id lease = project) && bool_decide (le_api_key_id lease = parentID)
                   && validLeaseParent t parent project (le_environment lease) (le_secret_keys lease) (le_expires_at lease))
              ErrLeaseAuthority;
        _ ← authorizeGrantTx (at_leases s) p project (le_environment lease) (le_secret_keys lease) false;
        let parentPrincipal := mkPrincipal APIKey parentID (ak_user_id parent) 0 0 0 0 0 "" in
        _ ← authorizeGrantTx (at_leases s) parentPrincipal project (le_environment lease) (le_secret_keys lease) false;
        '(token, jti, expires) ← GenerateAgentToken jwt (ak_user_id parent) "" id project (le_environment lease)
                                   (le_secret_keys lease) requestedTTL (le_expires_at lease - t);
        let expires := if After expires (le_expires_at lease) then le_expires_at lease else expires in
        _ ← exec (insert_issuance jti (mkIssuance id project (ak_user_id parent) expires));
        _ ← audit_grant (at_auditRepo s) (ak_user_id parent) project "agent.token.minted" (le_environment lease)
              [("project_id", JStr (uuid_String project)); ("lease_id", JStr (uuid_String id)); ("jti", JStr jti);
               ("expires_at", JStr (rfc3339 expires))] ip;
        _ ← identityEventTx at_dialect (ak_user_id parent) "agent.token.minted"
              [("project_id", uuid_String project); ("lease_id", uuid_String id); ("jti", jti)];
        mret (mkMinted token "agent" expires id))
  | _, _ => fail (Errorf "agent token issuer unavailable")
  end.

(** [SELECT ... FROM agent_token_issuance WHERE jti AND project_id AND user_id]. *)
Definition issued_token (jti : string) (project user : uuid) (db : DB) : option issuance_row :=
  i ← issuance db !! jti;
  if bool_decide (is_project_id i = project) && bool_decide (is_user_id i = user) then Some i else None.

Definition RevokeTokenAuthorized (p : Principal) (project : uuid) (jti ip : string) : Tx unit :=
  match at_auditRepo s with
  | None => fail (Errorf "agent token audit unavailable")
  | Some _ =>
      if bool_decide (jti = "") || bool_decide (p_ActorID p = uuid_Nil)
         || (negb (bool_decide (p_Kind p = Human)) && negb (bool_decide (p_Kind p = APIKey)))
      then fail ErrAgentTokenNotFound
      else withGrantTx (at_leases s) (
        leaseID ← on_err ErrAgentTokenNotFound (query_row (λ db, is_lease_id <$> issued_token jti project (p_ActorID p) db));
        lease ← on_err ErrAgentTokenNotFound (leaseTx at_dialect leaseID false);
        _ ← check (bool_decide (le_project_id lease = project)
                   && negb (bool_decide (p_Kind p = APIKey) && negb (bool_decide (p_SubjectID p = le_api_key_id lease))))
              ErrAgentTokenNotFound;
        _ ← lockGrantActorTx (at_leases s) p project;
        let parentID := le_api_key_id lease in
        parent ← on_err ErrAgentTokenNotFound (parentTx at_dialect parentID true);
        _ ← check (bool_decide (ak_project_id parent = project) && bool_decide (ak_user_id parent = p_ActorID p))
              ErrAgentTokenNotFound;
        lease ← on_err ErrAgentTokenNotFound (leaseTx at_dialect leaseID true);
        _ ← check (bool_decide (le_project_id lease = project) && bool_decide (le_api_key_id lease = parentID))
              ErrAgentTokenNotFound;
        _ ← authorizeGrantTx (at_leases s) p project (le_environment lease) [] true;
        expiry ← on_err ErrAgentTokenNotFound (query_row (λ db,
                   i ← issued_token jti project (p_ActorID p) db;
                   if bool_decide (is_lease_id i = leaseID) then Some (is_expires_at i) else None));
        _ ← g_lock at_dialect (LockToken jti);
        denied ← query (λ db, denylist db !! jti);
        match denied with
        | Some _ => mret ()
        | None =>
            _ ← exec_ (deny_token jti (mkDenied None expiry "revoked via scoped api"));
            _ ← audit_grant (at_auditRepo s) (p_ActorID p) project "agent.token.revoked" (le_environment lease)
                  [("project_id", JStr (uuid_String project)); ("jti", JStr jti)] ip;
            identityEventTx at_dialect (p_ActorID p) "agent.token.revoked" [("project_id", uuid_String project); ("jti", jti)]
        end)
  end.

Definition MintToken (actor project lease : uuid) (requestedTTL : Z) (ip : string) : Tx MintedAgentToken :=
  MintTokenAuthorized (mkPrincipal Human actor actor 0 0 0 0 0 "") project lease requestedTTL ip.
Definition RevokeToken (actor project : uuid) (jti ip : string) (callerKey : option uuid) : Tx unit :=
  RevokeTokenAuthorized
    match callerKey with
    | Some k => mkPrincipal APIKey k actor 0 0 0 0 0 ""
    | None => mkPrincipal Human actor actor 0 0 0 0 0 ""
    end project jti ip.
End Agents.

(** *** [TokenDenylistRepository]: the table and a cache of denied tokens *)

Definition IsTokenRevoked (revoked : gset string) (jti : string) (leaseID : option uuid) : Tx bool :=
  if bool_decide (jti ∈ revoked) then mret true else
  t ← now;
  count ← wrap_err "checking token revocation"
            (query (λ db, match denylist db !! jti with Some d => (t <? de_expires_at d)%Z | None => false end));
  if (count : bool) then mret true else
  match leaseID with
  | None => mret false
  | Some id =>
      l ← wrap_err "checking lease state for token revocation"
            (query (λ db, l ← leases db !! id; if active_lease t l then Some l else None));
      match l with
      | None => mret true
      | Some l =>
          if negb (After (le_expires_at l) t) then mret true else
          (* [GetByID] wraps its error, so the comparison with [sql.ErrNoRows] never holds *)
          parent ← wrap_err "checking parent authority"
                     (wrap_err "getting api key by hash" (query_row (λ db, api_keys db !! le_api_key_id l)));
          mret (negb (validLeaseParent t parent (le_project_id l) (le_environment l) (le_secret_keys l) (le_expires_at l)))
      end
  end.
Definition Revoke (revoked : gset string) (jti : string) (leaseID : option uuid) (expiresAt : time) (reason : string) :
    Tx (gset string) :=
  _ ← wrap_err "revoking token" (exec (λ db,
        if bool_decide (is_Some (denylist db !! jti)) then None
        else Some (upd_db_projects (upd_t_token_denylist <[jti := mkDenied leaseID expiresAt reason]>) db)));
  mret ({[jti]} ∪ revoked).
Definition RefreshCache : Tx (gset string) :=
  t ← now;
  wrap_err "refreshing denylist cache" (query (λ db, dom (filter (λ kd, (t < de_expires_at kd.2)%Z) (denylist db)))).
Definition DeleteExpired : Tx Z :=
  t ← now;
  wrap_err "pruning denylist" (exec_n (λ db,
    Some (upd_db_projects (upd_t_token_denylist (delete_where (λ _ d, (de_expires_at d <=? t)%Z))) db,
          count_where (λ _ d, (de_expires_at d <=? t)%Z) (denylist db)))).
End Tokens.

(** *** Operations and runs *)

(** The operations on credentials. *)
Inductive grant_op :=
  | OpCreateKey (p : Principal) (name : string) (project : uuid) (scopes : list string) (environment : option string)
      (expires : option time) (ip : string)
  | OpDeleteKey (p : Principal) (id : uuid) (ip : string)
  | OpCreateLease (p : Principal) (project : uuid) (environment : string) (keys : list string) (duration : Z) (ip : string)
  | OpRevokeLease (p : Principal) (id project : uuid) (ip : string)
  | OpMintToken (p : Principal) (project id : uuid) (requestedTTL : Z) (ip : string)
  | OpRevokeToken (p : Principal) (project : uuid) (jti ip : string)
  | OpPrune.

(** The services the server builds over one audit log. *)
Definition key_service (r : AuditRepository) : APIKeyService := mkAPIKeyService DBTypePostgres true r.
Definition lease_service (r : AuditRepository) : LeaseService := mkLeaseService DBTypePostgres (Some r) true.
Definition token_service (jwt : JWTService) (r : AuditRepository) : AgentTokenService :=
  mkAgentTokenService (Some jwt) (lease_service r) (Some r).

Section Runs.
Context `{J : JWT} `{P : Primitives} (jwt : JWTService) (r : AuditRepository).

Definition run_op (o : grant_op) : Tx unit :=
  match o with
  | OpCreateKey p n pr sc e ex ip => _ ← CreateAuthorized (key_service r) p n pr sc e ex ip; mret ()
  | OpDeleteKey p id ip => DeleteAuthorized (key_service r) p id ip
  | OpCreateLease p pr e ks d ip => _ ← CreateLeaseAuthorized (lease_service r) p pr e ks d ip; mret ()
  | OpRevokeLease p id pr ip => RevokeLeaseAuthorized (lease_service r) p id pr ip
  | OpMintToken p pr id ttl ip => _ ← MintTokenAuthorized (token_service jwt r) p pr id ttl ip; mret ()
  | OpRevokeToken p pr jti ip => RevokeTokenAuthorized (token_service jwt r) p pr jti ip
  | OpPrune => _ ← DeleteExpired; mret ()
  end.

(** The four credential tables. *)
Definition credentials (db : DB) :=
  (api_keys db, leases db, issuance db, denylist db).

(** A run: operations, time passing, and the other parts of the server, which
    leave credentials alone or, archiving a project, delete API keys. *)
Inductive grants_run : World → World → Prop :=
  | run_stop w : grants_run w w
  | run_step o w x w1 w2 : run_op o w = (x, w1) → grants_run w1 w2 → grants_run w w2
  | run_other w w1 w2 :
      (w_now w <= w_now w1)%Z → (w_rng w <= w_rng w1)%N → credentials (w_db w1) = credentials (w_db w) →
      grants_run w1 w2 → grants_run w w2
  | run_archive p w w1 w2 :
      (w_now w <= w_now w1)%Z → (w_rng w <= w_rng w1)%N →
      credentials (w_db w1) = credentials (delete_api_keys p (w_db w)) →
      grants_run w1 w2 → grants_run w w2.
End Runs.

(** ** The abstract specification *)

(** What a lease may be, given the key it comes from. *)
Definition lease_within (k : api_key_row) (l : lease_row) : Prop :=
  ak_project_id k = le_project_id l ∧ (∀ e, ak_environment k = Some e → e = le_environment l) ∧
  LeaseKeysAllowed (ak_scopes k) (le_secret_keys l) = true ∧
  (∀ pe, ak_expires_at k = Some pe → (le_expires_at l <= pe)%Z).
Definition lease_term (l : lease_row) : Prop :=
  (le_granted_at l < le_expires_at l <= le_granted_at l + 24 * Hour)%Z.

(** What an issued token may be, given its lease and key. *)
Definition token_within (k : api_key_row) (l : lease_row) (i : issuance_row) : Prop :=
  is_project_id i = le_project_id l ∧ is_user_id i = ak_user_id k ∧ (is_expires_at i <= le_expires_at l)%Z.

Section Spec.
Context `{P : Primitives}.

(** [drawn n id]: [id] is drawn from the random source at position [n] or later. *)
Definition drawn (n : N) (id : uuid) : Prop := ∃ pos, (n <= pos)%N ∧ id = uuid_new pos.

(** One step on the credentials, at time [t], drawing identifiers from [n] on. *)
Inductive grant_step (t : time) (n : N) (db : DB) : DB → Prop :=
  | step_none : grant_step t n db db
  | step_key id k :
      drawn n id → api_keys db !! id = None →
      (∃ e, ak_expires_at k = Some e ∧ t + Minute <= e <= t + apiKeyMaxTTL)%Z →
      Forall (λ s, validAPIKeyScope s = true) (ak_scopes k) → owned_project (ak_project_id k) (ak_user_id k) db = Some (ak_user_id k) →
      grant_step t n db (upd_db_projects (upd_t_api_keys <[id := k]>) db)
  | step_delete p : grant_step t n db (delete_api_keys p db)
  | step_lease id k l :
      drawn n id → leases db !! id = None → api_keys db !! le_api_key_id l = Some k →
      lease_within k l → lease_term l → le_granted_at l = t → le_revoked l = false →
      grant_step t n db (upd_db_projects (upd_t_secret_leases <[id := l]>) db)
  | step_revoke id l :
      leases db !! id = Some l → le_revoked l = false →
      grant_step t n db (upd_db_projects (upd_t_secret_leases <[id := revoke_row t l]>) db)
  | step_token id k l i :
      drawn n id → issuance db !! uuid_String id = None →
      leases db !! is_lease_id i = Some l → api_keys db !! le_api_key_id l = Some k →
      lease_within k l → token_within k l i → le_revoked l = false → (t < is_expires_at i <= t + maxAgentTokenTTL)%Z →
      grant_step t n db (upd_db_projects (upd_t_agent_token_issuance <[uuid_String id := i]>) db)
  | step_deny jti i :
      issuance db !! jti = Some i → denylist db !! jti = None →
      grant_step t n db (deny_token jti (mkDenied None (is_expires_at i) "revoked via scoped api") db)
  | step_prune :
      grant_step t n db (upd_db_projects (upd_t_token_denylist (delete_where (λ _ d, (de_expires_at d <=? t)%Z))) db).

(** A step of the implementation also writes the audit log and the outbox. *)
Definition grant_move (t : time) (n : N) (db db' : DB) : Prop :=
  ∃ mid, grant_step t n db mid ∧ same_core mid db'.
End Spec.

(** ** Lemmas *)

Lemma reads_stored_authorizer d req p a r : reads (stored_authorizer d req p a r).
Proof.
  split; [apply stored_authorizer_ok|]. unfold stored_authorizer, Authorize. forward_tac.
Qed.
Lemma reads_parentTx d id lock : reads (parentTx d id lock).
Proof. unfold parentTx, g_lock. split; [keeps_tac|forward_tac]. Qed.
Lemma reads_leaseTx d id lock : reads (leaseTx d id lock).
Proof. unfold leaseTx, g_lock. split; [keeps_tac|forward_tac]. Qed.
Lemma reads_live_lease s id lock : reads (live_lease s id lock).
Proof. unfold live_lease, leaseTx, g_lock. split; [keeps_tac|forward_tac]. Qed.
#[export] Hint Resolve reads_stored_authorizer reads_parentTx reads_leaseTx reads_live_lease : reads.

Section LeaseReads.
Context (s : LeaseService).
Lemma reads_lockGrantActorTx p project : reads (lockGrantActorTx s p project).
Proof.
  unfold lockGrantActorTx. destruct (_ || _); [apply reads_fail|]. destruct (negb _).
  { apply reads_bind; [destruct (_ && _); [apply reads_LockActiveTx|apply reads_ret]|intros _].
    apply reads_bind; [apply reads_on_err, reads_query_row|intros [owner [o|]]];
      (apply reads_bind; [apply reads_g_lock|intros _]); [|apply reads_ret].
    apply reads_bind; [apply reads_on_err, reads_query_row|intros _; apply reads_g_lock]. }
  apply reads_bind; [apply reads_on_err, reads_LockProject|intros _].
  destruct (_ && _); [apply reads_on_err, reads_RequireSession|apply reads_ret].
Qed.
Lemma reads_authorizeGrantTx p project env keys c : reads (authorizeGrantTx s p project env keys c).
Proof. apply reads_bind; [apply reads_on_err, reads_stored_authorizer|intros d; apply reads_check]. Qed.
Lemma reads_revoking_principal p l : reads (revoking_principal s p l).
Proof.
  unfold revoking_principal. destruct (bool_decide _); [|apply reads_ret].
  apply reads_bind; [apply reads_on_err, reads_parentTx|intros k].
  apply reads_bind; [apply reads_check|intros _; apply reads_ret].
Qed.
End LeaseReads.
#[export] Hint Resolve reads_lockGrantActorTx reads_authorizeGrantTx reads_revoking_principal : reads.

Lemma parentTx_Ok d id lock k w w' : parentTx d id lock w = (Ok k, w') → api_keys (w_db w) !! id = Some k.
Proof. unfold parentTx. intros (k' & w1 & [Hk _]%query_row_Ok & (u & w2 & _ & [<- _]%ret_Ok)%bind_Ok)%bind_Ok. done. Qed.
Lemma leaseTx_Ok d id lock l w w' : leaseTx d id lock w = (Ok l, w') → leases (w_db w) !! id = Some l.
Proof. unfold leaseTx. intros (k' & w1 & [Hk _]%query_row_Ok & (u & w2 & _ & [<- _]%ret_Ok)%bind_Ok)%bind_Ok. done. Qed.
Lemma live_lease_Ok s id lock l w w' :
  live_lease s id lock w = (Ok l, w') →
  leases (w_db w) !! id = Some l ∧ le_revoked l = false ∧ (w_now w < le_expires_at l)%Z.
Proof.
  unfold live_lease. intros H. read_step H as l0 Hr S1. apply on_err_Ok, leaseTx_Ok in Hr.
  apply bind_Ok in H as (t & w2 & [-> ->]%now_Ok & H). destruct S1 as (_ & T & _).
  apply bind_Ok in H as (u & w3 & [Hc <-]%check_Ok & [<- <-]%ret_Ok). unfold After in Hc. rewrite T in Hc. b2p.
  by destruct Hc.
Qed.

(** What the parent check establishes. *)
Lemma validLeaseParent_spec t k l :
  validLeaseParent t k (le_project_id l) (le_environment l) (le_secret_keys l) (le_expires_at l) = true ↔
  lease_within k l ∧ (∀ pe, ak_expires_at k = Some pe → (t < pe)%Z).
Proof.
  unfold validLeaseParent, lease_within, After. rewrite !andb_true_iff, bool_decide_eq_true. split.
  - intros (((-> & He) & ->) & Hx). split_and!; try done.
    + intros e Hk. rewrite Hk in He. by b2p.
    + intros pe Hk. rewrite Hk in Hx. b2p. lia.
    + intros pe Hk. rewrite Hk in Hx. b2p. lia.
  - intros ((-> & He & -> & Hx) & Ht). split_and!; try done.
    + destruct (ak_environment k); [by rewrite bool_decide_eq_true_2; [|apply He]|done].
    + destruct (ak_expires_at k) as [pe|]; [|done]. specialize (Hx pe eq_refl). specialize (Ht pe eq_refl).
      rewrite andb_true_iff, negb_true_iff, Z.ltb_lt, Z.ltb_ge. lia.
Qed.

(** Leasing nothing in particular is leasing everything. *)
Lemma LeaseKeysAllowed_star scopes keys :
  LeaseKeysAllowed scopes keys = true → LeaseKeysAllowed scopes (if bool_decide (keys = []) then ["*"] else keys) = true.
Proof. destruct keys as [|k ks]; [|done]. cbn. unfold lease_key_allowed. cbn. by intros ->. Qed.

(** What passing the grant barrier means. *)
Lemma lockGrantActorTx_Ok s p project u w w' :
  lockGrantActorTx s p project w = (Ok u, w') →
  (p_Kind p = Human ∨ p_Kind p = APIKey) ∧ p_ActorID p ≠ uuid_Nil ∧
  (p_Kind p = Human → p_SubjectID p = p_ActorID p) ∧ is_Some (live_project project (w_db w)).
Proof.
  unfold lockGrantActorTx. destruct (_ || _) eqn:Hg; [done|]. intros H.
  rewrite !orb_false_iff, !andb_false_iff, !negb_false_iff, !bool_decide_eq_true, !bool_decide_eq_false in Hg.
  destruct Hg as (((Hk & _) & Ha) & Hs). split_and!; [done|done|naive_solver|]. destruct (negb _).
  { apply bind_reads_Ok in H as (u1 & w1 & _ & (E & _) & H);
      [|destruct (_ && _); [apply reads_LockActiveTx|apply reads_ret]].
    apply bind_Ok in H as (oo & w2 & Hoo & _). apply on_err_Ok, query_row_Ok in Hoo as [Hoo _]. rewrite E in Hoo. by eexists. }
  apply bind_Ok in H as (u1 & w1 & H & _). apply on_err_Ok in H.
  unfold LockProject, LockProjectSubjects, lockProjectOrganizations in H. apply bind_Ok in H as (a & w2 & H2 & H).
  apply acting_user_Ok in H2 as [(E & _) _]. apply bind_Ok in H as (b & w3 & H3 & H). apply on_err_Ok, query_row_Ok in H3 as [H3 _].
  rewrite E in H3. by eexists.
Qed.

Section Effects.
Context `{J : JWT} `{P : Primitives}.

Lemma withGrantTx_Ok {A} s (fn : Tx A) a w w' :
  withGrantTx s fn w = (Ok a, w') →
  ∃ r w1 w2, ls_auditRepo s = Some r ∧ at_same w w1 ∧ fn w1 = (Ok a, w2) ∧ w_db w' = w_db w2 ∧ w_now w' = w_now w2.
Proof.
  unfold withGrantTx. destruct (ls_auditRepo s) as [r|]; [|done]. intros (w1 & H & ->)%with_tx_Ok.
  apply bind_Ok in H as (u1 & w2 & H1 & H). eexists r, w2, w1. split; [done|]. split; [|by split].
  destruct (bool_decide _); [|by apply ret_Ok in H1 as [_ <-]].
  apply bind_Ok in H1 as (u2 & w3 & ->%exec__Ok & ->%exec__Ok). by split_and!.
Qed.
Lemma withGrantTx_Err {A} s (fn : Tx A) e w w' : withGrantTx s fn w = (Err e, w') → w_db w' = w_db w.
Proof. unfold withGrantTx. destruct (ls_auditRepo s); [apply with_tx_Err|by intros [= _ <-]]. Qed.
Lemma forward_withGrantTx {A} s (fn : Tx A) : forward fn → forward (withGrantTx s fn).
Proof. intros Hf. unfold withGrantTx. forward_tac. Qed.

Lemma audit_grant_core r a pr ac e d ip : keeps same_core (audit_grant r a pr ac e d ip).
Proof. unfold audit_grant. destruct r; [apply audit_core|apply keeps_fail, _]. Qed.
Lemma identityEventTx_core dl a ac d : keeps same_core (identityEventTx dl a ac d).
Proof.
  unfold identityEventTx. destruct (negb _); [apply keeps_ret, _|].
  apply keeps_bind; [apply _|apply keeps_uuid_New, _|intros j]. apply keeps_EnqueueTx; [apply _|].
  intros db x t _ _ _. by repeat split.
Qed.
Lemma forward_audit_grant r a pr ac e d ip : forward (audit_grant r a pr ac e d ip).
Proof. unfold audit_grant. destruct r; [apply forward_CreateTx|apply forward_fail]. Qed.
Lemma forward_identityEventTx dl a ac d : forward (identityEventTx dl a ac d).
Proof. unfold identityEventTx. forward_tac. Qed.
Hint Resolve forward_audit_grant forward_identityEventTx : forward.

(** The entry and the event that end every operation, and its answer. *)
Lemma audit_and_event {A} r a pr ac e d ip dl a' ac' d' (x y : A) w w' :
  (_ ← audit_grant r a pr ac e d ip; _ ← identityEventTx dl a' ac' d'; mret x) w = (Ok y, w') →
  y = x ∧ same_core (w_db w) (w_db w') ∧ w_now w' = w_now w.
Proof.
  intros H. apply bind_Ok in H as (u1 & w1 & H1 & H). apply bind_Ok in H as (u2 & w2 & H2 & [<- <-]%ret_Ok).
  destruct (forward_audit_grant _ _ _ _ _ _ _ _ _ _ H1) as [_ T1]. destruct (forward_identityEventTx _ _ _ _ _ _ _ H2) as [_ T2].
  apply audit_grant_core in H1. apply identityEventTx_core in H2. split; [done|]. split; [by etrans|congruence].
Qed.

Lemma insert_lease_Some id l db db' :
  insert_lease id l db = Some db' → leases db !! id = None ∧ db' = upd_db_projects (upd_t_secret_leases <[id := l]>) db.
Proof.
  unfold insert_lease. destruct (_ || _) eqn:E; [done|]. intros [= <-]. rewrite !orb_false_iff, !bool_decide_eq_false in E.
  destruct E as (((E & _) & _) & _). split; [by apply eq_None_not_Some|done].
Qed.
Lemma insert_issuance_Some jti i db db' :
  insert_issuance jti i db = Some db' →
  issuance db !! jti = None ∧ db' = upd_db_projects (upd_t_agent_token_issuance <[jti := i]>) db.
Proof.
  unfold insert_issuance. destruct (_ || _) eqn:E; [done|]. intros [= <-]. rewrite !orb_false_iff, !bool_decide_eq_false in E.
  destruct E as ((((E & _) & _) & _) & _). split; [by apply eq_None_not_Some|done].
Qed.

(** A lease that was granted. *)
Lemma CreateLeaseAuthorized_Ok s p project env keys d ip kl w w' :
  CreateLeaseAuthorized s p project env keys d ip w = (Ok kl, w') →
  ∃ k, p_Kind p = APIKey ∧ api_keys (w_db w) !! p_SubjectID p = Some k ∧ drawn (w_rng w) kl.1 ∧ leases (w_db w) !! kl.1 = None ∧
    kl.2 = mkLease (p_SubjectID p) project env (if bool_decide (keys = []) then ["*"] else keys) (w_now w) (w_now w + d)
             false None ∧
    lease_within k kl.2 ∧ (∀ pe, ak_expires_at k = Some pe → (w_now w < pe)%Z) ∧ lease_term kl.2 ∧ env ∈ lease_environments ∧
    same_core (upd_db_projects (upd_t_secret_leases <[kl.1 := kl.2]>) (w_db w)) (w_db w').
Proof.
  unfold CreateLeaseAuthorized. destruct (_ || _) eqn:Hg; [done|]. rewrite !orb_false_iff, !negb_false_iff, !bool_decide_eq_true in Hg.
  destruct Hg as (((Hkind & Hd1%Z.leb_gt) & Hd2%Z.ltb_ge) & Henv).
  intros (r & w1 & w2 & Hrepo & S & H & -> & _)%withGrantTx_Ok.
  read_step H as k0 Hk0 S1. read_step H as u1 Hu1 S2. read_step H as u2 Hu2 S3. read_step H as k Hk S4.
  apply on_err_Ok, parentTx_Ok in Hk. apply bind_Ok in H as (t & w7 & [-> ->]%now_Ok & H).
  read_step H as u3 Hv S5. apply check_Ok in Hv as [Hv _]. apply andb_true_iff in Hv as [Huser Hv].
  read_step H as u4 Hu4 S6. apply bind_Ok in H as (id & w10 & [-> ->]%uuid_New_Ok & H).
  apply bind_Ok in H as (u5 & w11 & H1 & H). apply wrap_err_Ok, exec_Ok in H1 as (db & Hi & ->).
  read_step H as l Hl S7. apply leaseTx_Ok in Hl. apply audit_and_event in H as (-> & Hcore & _).
  pose proof (transitivity S (transitivity S1 (transitivity S2 S3))) as (E3 & T3 & R3).
  pose proof (transitivity S4 (transitivity S5 S6)) as (E6 & T6 & R6). destruct S4 as (E4 & T4 & R4), S7 as (E7 & _).
  cbn in *. rewrite E7 in *. rewrite E3 in *. rewrite E6 in Hi. rewrite T4, T3 in *. apply insert_lease_Some in Hi as [Hno Hdb].
  assert (l = mkLease (p_SubjectID p) project env (if bool_decide (keys = []) then ["*"] else keys) (w_now w)
                (w_now w + d) false None) as ->.
  { rewrite Hdb in Hl. unfold leases in Hl. cbn in Hl. rewrite lookup_insert_eq in Hl. by injection Hl. }
  exists k. cbn [fst snd]. split_and!; try done.
  - eexists. split; [|done]. lia.
  - apply (validLeaseParent_spec (w_now w)). cbn. unfold validLeaseParent in *. rewrite !andb_true_iff in *.
    destruct Hv as (((? & ?) & Hks%LeaseKeysAllowed_star) & ?). by split_and!.
  - intros pe Hpe. unfold validLeaseParent in Hv. rewrite !andb_true_iff in Hv. destruct Hv as (_ & Hv). rewrite Hpe in Hv.
    unfold After in Hv. b2p. lia.
  - unfold lease_term. cbn. lia.
  - by rewrite <-Hdb.
Qed.

(** The row a revocation rewrites. *)
Lemma revoke_lease_one id project t l db :
  leases db !! id = Some l → le_project_id l = project →
  revoke_lease id project t db = upd_db_projects (upd_t_secret_leases <[id := revoke_row t l]>) db.
Proof.
  intros Hl Hp. unfold revoke_lease, upd_db_projects, upd_t_secret_leases. do 2 f_equal.
  apply (update_where_one _ _ (leases db) id l); [done| |].
  - intros k x [Hk _]%andb_true_iff. by b2p.
  - by rewrite !bool_decide_eq_true_2.
Qed.

Lemma RevokeLeaseAuthorized_Ok s p id project ip u w w' :
  RevokeLeaseAuthorized s p id project ip w = (Ok u, w') →
  ∃ l, leases (w_db w) !! id = Some l ∧ le_project_id l = project ∧
    same_core (if le_revoked l then w_db w
               else upd_db_projects (upd_t_secret_leases <[id := revoke_row (w_now w) l]>) (w_db w)) (w_db w').
Proof.
  intros (r & w1 & w2 & _ & S & H & -> & _)%withGrantTx_Ok.
  read_step H as l0 Hl0 S1. read_step H as u1 Hu1 S2. read_step H as p' Hp' S3. read_step H as u2 Hu2 S4.
  read_step H as k Hk S5. read_step H as u3 Hu3 S6. read_step H as l Hl S7. apply on_err_Ok, leaseTx_Ok in Hl.
  read_step H as u4 Hu4 S8. apply check_Ok in Hu4 as [Hp _]. apply andb_true_iff in Hp as [Hp%bool_decide_eq_true _].
  read_step H as u5 Hu5 S9.
  pose proof (transitivity S (transitivity S1 (transitivity S2 (transitivity S3 (transitivity S4 (transitivity S5 S6)))))) as (E6 & T6 & _).
  pose proof (transitivity S7 (transitivity S8 S9)) as (E9 & T9 & _). rewrite E6 in *. rewrite T6 in *.
  exists l. split; [done|]. split; [done|]. destruct (le_revoked l).
  - apply ret_Ok in H as [_ <-]. by rewrite E9.
  - apply bind_Ok in H as (t & w11 & [-> ->]%now_Ok & H). apply bind_Ok in H as (u6 & w12 & ->%exec__Ok & H).
    apply bind_Ok in H as (u7 & w13 & H1%audit_grant_core & H2%identityEventTx_core).
    cbn in H1. rewrite E9, T9 in H1. rewrite (revoke_lease_one _ _ _ l) in H1 by done. by etrans.
Qed.

(** The lifetime of a token. *)
Lemma agent_ttl_bounds ttl rem : (0 < rem)%Z → (0 < agent_ttl ttl rem <= maxAgentTokenTTL)%Z ∧ (agent_ttl ttl rem <= rem)%Z.
Proof.
  intros Hr. unfold agent_ttl. assert (0 < maxAgentTokenTTL)%Z as Hm by (by vm_compute).
  set (c := if (ttl <=? 0)%Z || (maxAgentTokenTTL <? ttl)%Z then maxAgentTokenTTL else ttl).
  assert (0 < c <= maxAgentTokenTTL)%Z as Hc.
  { unfold c. destruct (_ || _) eqn:E; [lia|]. apply orb_false_iff in E as [?%Z.leb_gt ?%Z.ltb_ge]. lia. }
  clearbody c. destruct (_ && _) eqn:E; [apply andb_true_iff in E as [_ ?%Z.ltb_lt]; lia|].
  apply andb_false_iff in E as [?%Z.ltb_ge|?%Z.ltb_ge]; lia.
Qed.

Lemma GenerateAgentToken_Ok s u e l pr env ks ttl rem tok jti exp w w' :
  GenerateAgentToken s u e l pr env ks ttl rem w = (Ok (tok, jti, exp), w') →
  jti = uuid_String (uuid_new (w_rng w)) ∧ exp = (w_now w + agent_ttl ttl rem)%Z ∧
  signClaims s (mkClaims u e "" "agent" (Some l) (Some pr) env ks jti (Some exp) (Some (w_now w))) = Ok tok ∧
  w' = upd_w_rng N.succ w.
Proof.
  unfold GenerateAgentToken. intros H. apply bind_Ok in H as (id & w1 & [-> ->]%uuid_New_Ok & H).
  apply bind_Ok in H as (t & w2 & [-> ->]%now_Ok & H). apply bind_Ok in H as (x & w3 & [Hs ->]%lift_Ok & H).
  apply ret_Ok in H as [[= <- <- <-] <-]. done.
Qed.

(** What an admitted grant means: the principal may issue grants there. *)
Lemma authorizeGrantTx_Ok s p project env keys c u w w' :
  authorizeGrantTx s p project env keys c w = (Ok u, w') →
  ∃ d w1, stored_authorizer (ls_dialect s) (ls_sessions s) p IssueGrant (grant_resource project env keys c) w = (Ok d, w1) ∧
    d_Allowed d = true.
Proof.
  intros (d & w1 & H & [Hd _]%check_Ok)%bind_Ok. apply on_err_Ok in H. by exists d, w1.
Qed.

(** A token that was issued. *)
Lemma MintTokenAuthorized_Ok s p project id ttl ip m w w' :
  MintTokenAuthorized s p project id ttl ip w = (Ok m, w') →
  ∃ k l tid jwt, at_jwt s = Some jwt ∧ leases (w_db w) !! id = Some l ∧ api_keys (w_db w) !! le_api_key_id l = Some k ∧
    drawn (w_rng w) tid ∧ issuance (w_db w) !! uuid_String tid = None ∧
    le_project_id l = project ∧ le_revoked l = false ∧ lease_within k l ∧ (∀ pe, ak_expires_at k = Some pe → (w_now w < pe)%Z) ∧
    is_Some (live_project project (w_db w)) ∧
    mt_LeaseID m = id ∧ mt_TokenType m = "agent" ∧
    (w_now w < mt_ExpiresAt m <= w_now w + maxAgentTokenTTL)%Z ∧ (mt_ExpiresAt m <= le_expires_at l)%Z ∧
    signClaims jwt (mkClaims (ak_user_id k) "" "" "agent" (Some id) (Some project) (le_environment l) (le_secret_keys l)
                      (uuid_String tid) (Some (mt_ExpiresAt m)) (Some (w_now w))) = Ok (mt_Token m) ∧
    (∃ d w1 w2, at_same w w1 ∧ d_Allowed d = true ∧
       stored_authorizer (at_dialect s) (ls_sessions (at_leases s)) (mkPrincipal APIKey (le_api_key_id l) (ak_user_id k) 0 0 0 0 0 "")
         IssueGrant (grant_resource project (le_environment l) (le_secret_keys l) false) w1 = (Ok d, w2)) ∧
    same_core (upd_db_projects (upd_t_agent_token_issuance
                 <[uuid_String tid := mkIssuance id project (ak_user_id k) (mt_ExpiresAt m)]>) (w_db w)) (w_db w').
Proof.
  unfold MintTokenAuthorized. destruct (at_auditRepo s) as [ar|] eqn:Har; [|done]. destruct (at_jwt s) as [jwt|] eqn:Hj; [|done].
  destruct (_ && _) eqn:Hg; [done|]. intros (r & w1 & w2 & _ & S & H & -> & _)%withGrantTx_Ok.
  read_step H as l0 Hl0 S1. read_step H as u1 Hu1 S2. read_step H as k0 Hk0 S3. read_step H as u2 Hu2 S4.
  read_step H as u3 Hu3 S5. apply lockGrantActorTx_Ok in Hu3 as (_ & _ & _ & Hproj).
  read_step H as k Hk S6. apply on_err_Ok, parentTx_Ok in Hk. read_step H as u4 Hu4 S7.
  read_step H as l Hl S8. apply live_lease_Ok in Hl as (Hl & Hrev & Hlive).
  apply bind_Ok in H as (t & wt & [-> ->]%now_Ok & H).
  read_step H as u5 Hv S9. apply check_Ok in Hv as [Hv _]. rewrite !andb_true_iff, !bool_decide_eq_true in Hv.
  destruct Hv as ((Hpr & Hpid) & Hv). read_step H as u6 Hu6 S10. read_step H as u7 Hu7 S11.
  apply authorizeGrantTx_Ok in Hu7 as (d & wd & Hd & Hal).
  apply bind_Ok in H as ([[tok jti] exp] & wj & Hj' & H). apply GenerateAgentToken_Ok in Hj' as (-> & -> & Hsig & ->).
  apply bind_Ok in H as (u8 & wi & (db & Hi & ->)%exec_Ok & H). apply audit_and_event in H as (-> & Hcore & _).
  pose proof (transitivity S (transitivity S1 (transitivity S2 (transitivity S3 S4)))) as B4.
  pose proof (transitivity B4 (transitivity S5 (transitivity S6 S7))) as B7.
  pose proof (transitivity B7 (transitivity S8 (transitivity S9 S10))) as B10.
  pose proof (transitivity B10 S11) as (E11 & T11 & R11). pose proof (transitivity B4 S5) as (E5 & _).
  destruct B7 as (E7 & T7 & _), B4 as (E4 & _), S8 as (_ & T8 & _). cbn in *.
  rewrite E11 in *. rewrite T11, T8, T7 in *. rewrite E7 in *. rewrite E5 in Hk. rewrite E4 in Hproj. rewrite <-Hpid in *.
  destruct (agent_ttl_bounds ttl (le_expires_at l - w_now w)) as [Hb1 Hb2]; [lia|].
  assert (After (w_now w + agent_ttl ttl (le_expires_at l - w_now w)) (le_expires_at l) = false) as Ha
    by (apply Z.ltb_ge; lia).
  rewrite Ha in *. apply insert_issuance_Some in Hi as [Hno ->]. rewrite <-Hpr in Hv. apply validLeaseParent_spec in Hv as [Hw Hx].
  exists k, l, (uuid_new (w_rng w12)), jwt. split_and!; try done; try lia.
  - eexists. split; [|done]. lia.
  - by exists d, w11, wd.
Qed.

Lemma issued_token_Some jti project user db i :
  issued_token jti project user db = Some i → issuance db !! jti = Some i ∧ is_project_id i = project ∧ is_user_id i = user.
Proof.
  unfold issued_token. destruct (issuance db !! jti) as [i'|]; [cbn|done]. destruct (_ && _) eqn:E; [|done]. intros [= ->].
  b2p. by destruct E.
Qed.

(** A token that was denied, or was already. *)
Lemma RevokeTokenAuthorized_Ok s p project jti ip u w w' :
  RevokeTokenAuthorized s p project jti ip w = (Ok u, w') →
  ∃ i, issuance (w_db w) !! jti = Some i ∧ is_project_id i = project ∧ is_user_id i = p_ActorID p ∧
    same_core (deny_token jti (mkDenied None (is_expires_at i) "revoked via scoped api") (w_db w)) (w_db w').
Proof.
  unfold RevokeTokenAuthorized. destruct (at_auditRepo s) as [ar|] eqn:Har; [|done]. destruct (_ || _) eqn:Hg; [done|].
  intros (r & w1 & w2 & _ & S & H & -> & _)%withGrantTx_Ok.
  read_step H as lid Hlid S1. read_step H as l0 Hl0 S2. read_step H as u1 Hu1 S3. read_step H as u2 Hu2 S4.
  read_step H as k Hk S5. read_step H as u3 Hu3 S6. read_step H as l Hl S7. read_step H as u4 Hu4 S8.
  read_step H as u5 Hu5 S9. read_step H as e He S10. apply on_err_Ok, query_row_Ok in He as [He _].
  read_step H as u6 Hu6 S11. read_step H as dn Hdn S12. apply query_Ok in Hdn as [-> _].
  pose proof (transitivity S (transitivity S1 (transitivity S2 (transitivity S3 (transitivity S4 S5))))) as B5.
  pose proof (transitivity B5 (transitivity S6 (transitivity S7 (transitivity S8 S9)))) as B9.
  pose proof (transitivity B9 (transitivity S10 S11)) as B11. destruct B9 as (E9 & _), (transitivity B11 S12) as (E12 & _), B11 as (E11 & _).
  rewrite E9 in *. rewrite E11 in *. destruct (issued_token _ _ _ _) as [i|] eqn:Hi; cbn in He; [|done].
  destruct (bool_decide (is_lease_id i = lid)); [|done]. injection He as <-. apply issued_token_Some in Hi as (Hi & Hp & Hu).
  exists i. split_and!; try done. unfold deny_token. destruct (denylist (w_db w) !! jti) eqn:Hd.
  - apply ret_Ok in H as [_ <-]. by rewrite E12.
  - apply bind_Ok in H as (u7 & w15 & ->%exec__Ok & H).
    apply bind_Ok in H as (u8 & w16 & H1%audit_grant_core & H2%identityEventTx_core).
    cbn in H1. rewrite E12 in H1. unfold deny_token in H1. rewrite Hd in H1. by etrans.
Qed.

(** *** The operations refine the specification *)

Lemma forward_CreateLeaseAuthorized s p pr e ks d ip : forward (CreateLeaseAuthorized s p pr e ks d ip).
Proof. unfold CreateLeaseAuthorized. destruct (_ || _); [apply forward_fail|]. apply forward_withGrantTx. forward_tac. Qed.
Lemma forward_RevokeLeaseAuthorized s p id pr ip : forward (RevokeLeaseAuthorized s p id pr ip).
Proof. apply forward_withGrantTx. forward_tac. Qed.
Lemma forward_MintTokenAuthorized s p pr id ttl ip : forward (MintTokenAuthorized s p pr id ttl ip).
Proof.
  unfold MintTokenAuthorized, GenerateAgentToken. destruct (at_auditRepo s), (at_jwt s); try apply forward_fail.
  destruct (_ && _); [apply forward_fail|]. apply forward_withGrantTx. forward_tac.
Qed.
Lemma forward_RevokeTokenAuthorized s p pr jti ip : forward (RevokeTokenAuthorized s p pr jti ip).
Proof.
  unfold RevokeTokenAuthorized. destruct (at_auditRepo s); [|apply forward_fail].
  destruct (_ || _); [apply forward_fail|]. apply forward_withGrantTx. forward_tac.
Qed.

Context (jwt : JWTService) (r : AuditRepository).

Lemma run_op_forward o : forward (run_op jwt r o).
Proof.
  destruct o; cbn [run_op].
  - apply forward_bind; [apply forward_CreateAuthorized|intros; apply forward_ret].
  - apply forward_DeleteAuthorized.
  - apply forward_bind; [apply forward_CreateLeaseAuthorized|intros; apply forward_ret].
  - apply forward_RevokeLeaseAuthorized.
  - apply forward_bind; [apply forward_MintTokenAuthorized|intros; apply forward_ret].
  - apply forward_RevokeTokenAuthorized.
  - unfold DeleteExpired. forward_tac.
Qed.

(** An operation that fails leaves the database alone. *)
Lemma run_op_Err o e w w' : run_op jwt r o w = (Err e, w') → w_db w' = w_db w.
Proof.
  destruct o; cbn [run_op].
  - intros [H|(a & w1 & _ & [=])]%bind_Err. unfold CreateAuthorized in H.
    destruct (negb _); [by injection H as _ <-|]. destruct (negb _); [by injection H as _ <-|].
    apply bind_Err in H as [[=]|(t & w1 & [-> ->]%now_Ok & H)].
    apply bind_Err in H as [[= _ <-]|(ex & w2 & [_ ->]%lift_Ok & H)]; [done|].
    apply bind_Err in H as [H|([raw hash] & w3 & H3 & H)].
    { by apply (reads_run GenerateAPIKey _ _ _ reads_GenerateAPIKey) in H as (-> & _). }
    apply (reads_run GenerateAPIKey _ _ _ reads_GenerateAPIKey) in H3 as (<- & _).
    apply bind_Err in H as [H|(k & w4 & _ & [=])]. by apply with_tx_Err in H.
  - unfold DeleteAuthorized. destruct (negb _); [by intros [= _ <-]|apply with_tx_Err].
  - intros [H|(a & w1 & _ & [=])]%bind_Err. unfold CreateLeaseAuthorized in H.
    destruct (_ || _); [by injection H as _ <-|by apply withGrantTx_Err in H].
  - apply withGrantTx_Err.
  - intros [H|(a & w1 & _ & [=])]%bind_Err. unfold MintTokenAuthorized in H.
    destruct (at_auditRepo _); [|by injection H as _ <-]. destruct (at_jwt _); [|by injection H as _ <-].
    destruct (_ && _); [by injection H as _ <-|by apply withGrantTx_Err in H].
  - unfold RevokeTokenAuthorized. destruct (at_auditRepo _); [|by intros [= _ <-]].
    destruct (_ || _); [by intros [= _ <-]|apply withGrantTx_Err].
  - intros [H|(a & w1 & _ & [=])]%bind_Err. unfold DeleteExpired in H.
    apply bind_Err in H as [[=]|(t & w1 & [-> ->]%now_Ok & H)]. unfold wrap_err in H.
    destruct (exec_n _ w) as [[n|e'] w1] eqn:E; [done|]. injection H as _ <-.
    unfold exec_n in E. apply bind_Err in E as [[= _ <-]|(u & w2 & ->%tick_Ok & E)]; [done|]. by injection E.
Qed.

Lemma run_op_move o x w w' : run_op jwt r o w = (x, w') → grant_move (w_now w) (w_rng w) (w_db w) (w_db w').
Proof.
  intros H. destruct x as [u|e]; [|apply run_op_Err in H as ->; exists (w_db w); split; [apply step_none|reflexivity]].
  destruct o; cbn [run_op] in H.
  - apply bind_Ok in H as ([[id k] raw] & w1 & H & [_ <-]%ret_Ok).
    apply CreateAuthorized_Ok in H as (pos & ex & Hpos & Hid & Hno & Hk & He & Hsc & Ho & Hc). cbn in *.
    eexists. split; [|exact Hc]. apply step_key; try done; [by exists pos|exists ex; by rewrite Hk|by rewrite Hk].
  - apply DeleteAuthorized_Ok in H as (_ & Hc). eexists. split; [|exact Hc]. apply step_delete.
  - apply bind_Ok in H as ([id l] & w1 & H & [_ <-]%ret_Ok).
    apply CreateLeaseAuthorized_Ok in H as (k & _ & Hk & Hd & Hno & Hl & Hw & _ & Ht & _ & Hc). cbn in *.
    eexists. split; [|exact Hc]. eapply step_lease; try done; by rewrite Hl.
  - apply RevokeLeaseAuthorized_Ok in H as (l & Hl & _ & Hc). eexists. split; [|exact Hc].
    destruct (le_revoked l) eqn:E; [apply step_none|by apply step_revoke].
  - apply bind_Ok in H as (m & w1 & H & [_ <-]%ret_Ok).
    apply MintTokenAuthorized_Ok in H as (k & l & tid & j & _ & Hl & Hk & Hd & Hno & Hp & Hr & Hw & _ & _ & _ & _ & Hb & Hb' & _ & _ & Hc).
    eexists. split; [|exact Hc]. eapply step_token; try done.
  - apply RevokeTokenAuthorized_Ok in H as (i & Hi & _ & _ & Hc). unfold deny_token in Hc.
    destruct (denylist (w_db w) !! jti) eqn:E; [exists (w_db w); split; [apply step_none|done]|].
    eexists. split; [by apply (step_deny _ _ _ jti i)|]. unfold deny_token. by rewrite E.
  - apply bind_Ok in H as (n & w1 & H & [_ <-]%ret_Ok). unfold DeleteExpired in H.
    apply bind_Ok in H as (t & w2 & [-> ->]%now_Ok & H). apply wrap_err_Ok, exec_n_Ok in H as (db & [= <- _] & ->).
    eexists. split; [apply step_prune|reflexivity].
Qed.
End Effects.

(** *** Tables after a cascade *)

Lemma deleted_api_key p db id k : api_keys (delete_api_keys p db) !! id = Some k → api_keys db !! id = Some k.
Proof. unfold delete_api_keys, api_keys. cbn. by intros [? _]%lookup_delete_where. Qed.
Lemma deleted_lease p db id l :
  leases (delete_api_keys p db) !! id = Some l →
  leases db !! id = Some l ∧ is_Some (api_keys (delete_api_keys p db) !! le_api_key_id l).
Proof.
  unfold delete_api_keys, api_keys, leases. cbn. intros [Hl Hk]%lookup_delete_where. split; [done|].
  apply bool_decide_eq_false in Hk. by apply not_eq_None_Some.
Qed.
Lemma deleted_issuance p db jti i :
  issuance (delete_api_keys p db) !! jti = Some i →
  issuance db !! jti = Some i ∧ is_Some (leases (delete_api_keys p db) !! is_lease_id i).
Proof.
  unfold delete_api_keys, api_keys, leases, issuance. cbn. intros [Hl Hk]%lookup_delete_where. split; [done|].
  apply bool_decide_eq_false in Hk. by apply not_eq_None_Some.
Qed.

(** *** Revocation on the specification *)

(** A lease nothing can be drawn from, and a token that no longer admits. *)
Definition lease_dead (id : uuid) (db : DB) : Prop := ∀ l, leases db !! id = Some l → le_revoked l = true.
Definition token_dead (t : time) (jti : string) (db : DB) : Prop :=
  ∀ i, issuance db !! jti = Some i →
    (is_expires_at i <= t)%Z ∨ ∃ d, denylist db !! jti = Some d ∧ (is_expires_at i <= de_expires_at d)%Z.
Definition principal_dead (p : Principal) (t : time) (db : DB) : Prop :=
  lease_dead (p_LeaseID p) db ∨ token_dead t (p_TokenID p) db.

Lemma principal_dead_later p t t' db : (t <= t')%Z → principal_dead p t db → principal_dead p t' db.
Proof.
  intros Ht [?|Hd]; [by left|right]. intros i Hi. destruct (Hd i Hi) as [?|?]; [left; lia|by right].
Qed.
Lemma principal_dead_ext p t db db' : credentials db' = credentials db → principal_dead p t db → principal_dead p t db'.
Proof. unfold principal_dead, lease_dead, token_dead, credentials. intros [= _ -> -> ->]. done. Qed.
Lemma principal_dead_deleted p q t db : principal_dead p t db → principal_dead p t (delete_api_keys q db).
Proof.
  intros [Hd|Hd]; [left|right].
  - intros l [Hl _]%deleted_lease. auto.
  - intros i [Hi _]%deleted_issuance. destruct (Hd i Hi) as [?|(d & ? & ?)]; [by left|right]. by exists d.
Qed.

Section Revocation.
Context `{P : Primitives}.

(** The identifiers of a principal's lease and token are not drawn again. *)
Definition not_redrawn (n : N) (p : Principal) : Prop :=
  ∀ pos, (n <= pos)%N → uuid_new pos ≠ p_LeaseID p ∧ uuid_String (uuid_new pos) ≠ p_TokenID p.

Lemma grant_step_dead p t n db db' :
  grant_step t n db db' → not_redrawn n p → principal_dead p t db → principal_dead p t db'.
Proof.
  intros Hstep Hn Hdead. destruct Hstep as [|id k _ _ _ _ _|q|id k l (pos & Hpos & ->) Hno|id l Hl Hrev|id k l i (pos & Hpos & ->)|jti i Hi Hno|];
    try done; [by apply principal_dead_deleted|..]; destruct Hdead as [Hd|Hd]; try (by left); try (by right).
  - left. intros l0. unfold leases. cbn. intros [[E _]|[_ Hl]]%lookup_insert_Some; [|auto].
    by destruct (Hn pos Hpos).
  - left. intros l0. unfold leases. cbn. intros [[_ <-]|[_ Hl0]]%lookup_insert_Some; [done|auto].
  - right. intros i0. unfold issuance. cbn. intros [[E _]|[_ Hi]]%lookup_insert_Some; [|by apply Hd].
    by destruct (Hn pos Hpos).
  - left. intros l0. unfold deny_token. rewrite Hno. apply Hd.
  - right. unfold deny_token. rewrite Hno. intros i0 Hi0. destruct (Hd i0 Hi0) as [?|(d & Hd1 & Hd2)]; [by left|right].
    exists d. split; [|done]. unfold denylist. cbn. rewrite lookup_insert_ne; [done|]. intros ->. congruence.
  - right. intros i0 Hi0. destruct (Hd i0 Hi0) as [?|(d & Hd1 & Hd2)]; [by left|].
    destruct (Z.leb_spec (de_expires_at d) t); [left; lia|right]. exists d. split; [|done].
    unfold denylist. cbn. apply lookup_delete_where. split; [done|]. by apply Z.leb_gt.
Qed.

(** A dead principal is not loaded. *)
Lemma dead_denied d req p r w x w' :
  p_Kind p = AgentToken → principal_dead p (w_now w) (w_db w) → LoadAuthority d req p r w = (x, w') → ∃ e, x = Err e.
Proof.
  intros Hk Hdead H. destruct x as [a|e]; [exfalso|by exists e].
  apply LoadAuthority_agent in H as (row & tr & Hrow & Hden & _); [|done].
  apply agent_denied_spec in Hden as (Hexp & _ & Htok & _). cbn zeta in *. unfold agent_lookup in Hrow.
  destruct (issuance (w_db w) !! p_TokenID p) as [i|] eqn:Hi; [cbn in Hrow|done].
  destruct (leases (w_db w) !! is_lease_id i) as [l|] eqn:Hl; [cbn in Hrow|done].
  destruct (api_keys (w_db w) !! le_api_key_id l) as [k|]; [cbn in Hrow|done].
  destruct (_ && _) eqn:Hc in Hrow; [|done]. injection Hrow as <-. rewrite !andb_true_iff, !negb_true_iff, !bool_decide_eq_true in Hc.
  destruct Hc as (((((_ & _) & Hid) & _) & Hrev) & Hden). cbn in *. destruct Hdead as [Hd|Hd].
  - rewrite <-Hid in Hd. specialize (Hd _ Hl). congruence.
  - destruct (Hd i Hi) as [?|(dn & Hdn & ?)]; [lia|]. rewrite Hdn, Z.ltb_ge in Hden. lia.
Qed.
End Revocation.

(** *** Narrowing on the specification *)

(** Every lease stays within its key and every token within its lease. *)
Record grants_wf (db : DB) : Prop := {
  wf_lease id l : leases db !! id = Some l → lease_term l ∧ ∃ k, api_keys db !! le_api_key_id l = Some k ∧ lease_within k l;
  wf_token jti i : issuance db !! jti = Some i →
    ∃ l k, leases db !! is_lease_id i = Some l ∧ api_keys db !! le_api_key_id l = Some k ∧ token_within k l i;
}.

Lemma grants_wf_ext db db' : credentials db' = credentials db → grants_wf db → grants_wf db'.
Proof. unfold credentials. intros [= Ek El Ei _] [H1 H2]. split; [by rewrite El, Ek|by rewrite Ei, El, Ek]. Qed.
Lemma grants_wf_deleted p db : grants_wf db → grants_wf (delete_api_keys p db).
Proof.
  intros [H1 H2]. split.
  - intros id l [Hl [k Hk]]%deleted_lease. apply H1 in Hl as (? & k' & Hk' & ?). split; [done|]. exists k.
    split; [done|]. apply deleted_api_key in Hk. congruence.
  - intros jti i [Hi [l Hl]]%deleted_issuance. apply H2 in Hi as (l' & k' & Hl' & Hk' & ?).
    apply deleted_lease in Hl as Hl2. destruct Hl2 as [Hl2 [k Hk]]. apply deleted_api_key in Hk as Hk2.
    exists l, k. split; [done|]. split; [done|]. congruence.
Qed.

Lemma grant_step_wf `{P : Primitives} t n db db' : grant_step t n db db' → grants_wf db → grants_wf db'.
Proof.
  intros Hstep Hwf. destruct Hstep as [|id k _ Hno _ _ _|q|id k l _ Hno Hk Hw Ht _ _|id l Hl Hrev|id k l i _ Hno Hl Hk Hw Hi _ _|jti i Hi Hno|];
    try done; [|by apply grants_wf_deleted|..].
  - destruct Hwf as [H1 H2]. split.
    + intros i l (? & k' & Hk' & ?)%H1. split; [done|]. exists k'. split; [|done].
      unfold api_keys. cbn. rewrite lookup_insert_ne; [done|]. intros ->. congruence.
    + intros jti i (l & k' & Hl & Hk' & ?)%H2. exists l, k'. split; [done|]. split; [|done].
      unfold api_keys. cbn. rewrite lookup_insert_ne; [done|]. intros ->. congruence.
  - destruct Hwf as [H1 H2]. split.
    + intros i l0. unfold leases. cbn. intros [[_ <-]|[_ H]]%lookup_insert_Some; [split; [done|by exists k]|by apply H1 in H].
    + intros jti i (l0 & k' & Hl & Hk' & ?)%H2. exists l0, k'. split; [|done].
      unfold leases. cbn. rewrite lookup_insert_ne; [done|]. intros ->. congruence.
  - destruct Hwf as [H1 H2]. split.
    + intros i l0. unfold leases. cbn. intros [[_ <-]|[_ H]]%lookup_insert_Some; [by apply H1 in Hl|by apply H1 in H].
    + intros jti i (l0 & k' & Hl0 & Hk' & Hw)%H2. destruct (decide (is_lease_id i = id)) as [E|Hne].
      * rewrite E, Hl in Hl0. injection Hl0 as <-. exists (revoke_row t l), k'. split; [|done].
        unfold leases. cbn. by rewrite E, lookup_insert_eq.
      * exists l0, k'. split; [|done]. unfold leases. cbn. by rewrite lookup_insert_ne.
  - destruct Hwf as [H1 H2]. split; [apply H1|]. intros jti i0. unfold issuance. cbn.
    intros [[_ <-]|[_ H]]%lookup_insert_Some; [by exists l, k|by eapply H2].
  - unfold deny_token. rewrite Hno. destruct Hwf as [H1 H2]. by split.
  - destruct Hwf as [H1 H2]. by split.
Qed.

(** *** Runs *)

Lemma same_core_credentials db db' : same_core db db' → credentials db' = credentials db.
Proof. intros (_ & E & _). unfold credentials, api_keys, leases, issuance, denylist. by rewrite E. Qed.

Section RunFacts.
Context `{J : JWT} `{P : Primitives} (jwt : JWTService) (r : AuditRepository).

Lemma run_op_credentials o x w w1 :
  run_op jwt r o w = (x, w1) →
  (w_rng w <= w_rng w1)%N ∧ w_now w1 = w_now w ∧
  ∃ mid, grant_step (w_now w) (w_rng w) (w_db w) mid ∧ credentials (w_db w1) = credentials mid.
Proof.
  intros H. destruct (run_op_forward jwt r o _ _ _ H) as [Hn Ht]. split; [done|]. split; [done|].
  apply run_op_move in H as (mid & Hs & Hc). exists mid. split; [done|]. by apply same_core_credentials.
Qed.

Lemma run_principal_dead p w w2 :
  grants_run jwt r w w2 → not_redrawn (w_rng w) p → principal_dead p (w_now w) (w_db w) → principal_dead p (w_now w2) (w_db w2).
Proof.
  induction 1 as [|o w x w1 w2 Hop _ IH|w w1 w2 Ht Hn Hc _ IH|q w w1 w2 Ht Hn Hc _ IH]; intros Hd Hp; [done|..].
  - apply run_op_credentials in Hop as (Hn & Ht & mid & Hs & Hc). apply IH.
    + intros pos Hpos. apply Hd. lia.
    + rewrite Ht. eapply principal_dead_ext; [exact Hc|]. by eapply grant_step_dead.
  - apply IH; [intros pos Hpos; apply Hd; lia|]. eapply principal_dead_later; [exact Ht|].
    by eapply principal_dead_ext.
  - apply IH; [intros pos Hpos; apply Hd; lia|]. eapply principal_dead_later; [exact Ht|].
    eapply principal_dead_ext; [exact Hc|]. by apply principal_dead_deleted.
Qed.

Lemma run_grants_wf w w2 : grants_run jwt r w w2 → grants_wf (w_db w) → grants_wf (w_db w2).
Proof.
  induction 1 as [|o w x w1 w2 Hop _ IH|w w1 w2 Ht Hn Hc _ IH|q w w1 w2 Ht Hn Hc _ IH]; intros Hw; [done|apply IH..].
  - apply run_op_credentials in Hop as (_ & _ & mid & Hs & Hc). eapply grants_wf_ext; [exact Hc|]. by eapply grant_step_wf.
  - by eapply grants_wf_ext.
  - eapply grants_wf_ext; [exact Hc|]. by apply grants_wf_deleted.
Qed.

(** The principals an operation that succeeds is meant to shut out. *)
Definition shuts_out (o : grant_op) (db : DB) (p : Principal) : Prop :=
  match o with
  | OpDeleteKey _ id _ => ∃ l, leases db !! p_LeaseID p = Some l ∧ le_api_key_id l = id
  | OpRevokeLease _ id _ _ => p_LeaseID p = id
  | OpRevokeToken _ _ jti _ => p_TokenID p = jti
  | _ => False
  end.

Lemma shut_out_dead o p w w1 :
  run_op jwt r o w = (Ok (), w1) → shuts_out o (w_db w) p →
  (∀ i d, issuance (w_db w) !! p_TokenID p = Some i → denylist (w_db w) !! p_TokenID p = Some d →
     (is_expires_at i <= de_expires_at d)%Z) →
  principal_dead p (w_now w1) (w_db w1).
Proof.
  intros H Hs Hcov. destruct (run_op_forward jwt r o _ _ _ H) as [_ ->].
  destruct o; cbn [run_op] in H; cbn [shuts_out] in Hs; try done.
  - apply DeleteAuthorized_Ok in H as ((k & Hk & Hu) & Hc%same_core_credentials). destruct Hs as (l & Hl & Hid).
    eapply principal_dead_ext; [exact Hc|]. left. intros l' [Hl' [k' Hk']]%deleted_lease. exfalso.
    rewrite Hl in Hl'. injection Hl' as <-. rewrite Hid in Hk'. revert Hk'. unfold delete_api_keys, api_keys. cbn.
    intros [Hk2 Ho]%lookup_delete_where. unfold api_keys in Hk. rewrite Hk in Hk2. injection Hk2 as <-.
    unfold owned_key in Ho. by rewrite !bool_decide_eq_true_2 in Ho.
  - apply RevokeLeaseAuthorized_Ok in H as (l & Hl & _ & Hc%same_core_credentials).
    eapply principal_dead_ext; [exact Hc|]. left. rewrite Hs. intros l'. destruct (le_revoked l) eqn:Hr; [congruence|].
    unfold leases. cbn. rewrite lookup_insert_eq. by intros [= <-].
  - apply RevokeTokenAuthorized_Ok in H as (i & Hi & _ & _ & Hc%same_core_credentials).
    eapply principal_dead_ext; [exact Hc|]. right. rewrite Hs in *. unfold deny_token.
    destruct (denylist (w_db w) !! jti) as [d|] eqn:Hd; intros i' Hi'; right.
    + exists d. split; [done|]. by eapply Hcov.
    + unfold issuance, denylist in *. cbn in *. rewrite lookup_insert_eq. rewrite Hi in Hi'. injection Hi' as <-. by eexists.
Qed.
End RunFacts.

(** The credentials of an agent that holds a token of lease [id]. *)
Definition agent_principal (subject user : uuid) (expires : time) (id : uuid) (jti : string) : Principal :=
  mkPrincipal AgentToken subject user 0 0 expires 0 id jti.

Lemma agent_row_ok t k l e :
  lease_within k l → (∀ pe, ak_expires_at k = Some pe → (t < pe)%Z) → (t < e <= le_expires_at l)%Z →
  agent_denied t (mkAgentRow k l e) = false.
Proof.
  intros (_ & Henv & Hkeys & Hexp) Hpe He. unfold agent_denied, After. cbn. rewrite Hkeys. cbn.
  rewrite (proj2 (Z.ltb_lt _ _)), (proj2 (Z.ltb_lt t e)) by lia. cbn.
  destruct (ak_expires_at k) as [pe|].
  - specialize (Hexp pe eq_refl). specialize (Hpe pe eq_refl). rewrite (proj2 (Z.ltb_lt _ _)), (proj2 (Z.ltb_ge _ _)) by lia.
    destruct (ak_environment k) as [en|]; [|done]. by rewrite bool_decide_eq_true_2 by auto.
  - destruct (ak_environment k) as [en|]; [|done]. by rewrite bool_decide_eq_true_2 by auto.
Qed.

(** Reading as an agent, and what its row must be. *)
Lemma agent_may_read dl req q sid key row tr w :
  w_faults w = [] → p_Kind q = AgentToken → p_SubjectID q ≠ uuid_Nil → p_LeaseID q ≠ uuid_Nil → p_TokenID q ≠ "" →
  p_TenantID q = uuid_Nil → p_ActorID q = ak_user_id (ag_key row) → (w_now w < p_ExpiresAt q)%Z →
  agent_lookup (w_now w) q (w_db w) = Some row → agent_denied (w_now w) row = false →
  project_role (ak_user_id (ag_key row)) (ak_project_id (ag_key row)) (w_db w) = Some tr →
  RoleAllows tr.2 "editor" = true → ak_project_id (ag_key row) ≠ uuid_Nil →
  ∃ d w', stored_authorizer dl req q ReadValue
            (mkResource uuid_Nil (ak_project_id (ag_key row)) (le_environment (ag_lease row)) "secret" sid 0 key) w = (Ok d, w') ∧
    d_Allowed d = LegacyAllows (agent_scopes (le_secret_keys (ag_lease row))) "read" key.
Proof.
  intros Hf Hk Hs Hl Ht Hten Ha He Hrow Hden Htr Hrole Hp.
  set (r := mkResource _ _ _ _ _ _ _). pose proof (agent_denied_spec _ _ Hden) as (Hlive & _). cbn zeta in Hlive.
  destruct (LoadAuthority_agent_run dl req q r row tr w) as [w' Hload]; try done.
  eexists _, w'. split.
  - unfold stored_authorizer. apply bind_Ok. eexists _, _. split; [reflexivity|]. apply Authorize_run; [|exact Hload].
    split; try done; [tauto|]. rewrite Hk. done.
  - apply eq_iff_eq_true. rewrite evaluate_spec. split.
    + intros [_ _ _ _ _ (role & verb & Hn & _ & _ & Hc)]. apply (needs_det _ _ _ _ _ needs_value) in Hn as [<- <-].
      destruct (Hc (or_intror Hk)) as (_ & _ & Hc'). exact Hc'.
    + intros Hc. split; try done. exists "editor", "read". split_and!; try done; [constructor|by left|].
      intros _. split_and!; [done|by right|done].
Qed.

(** ** Properties *)

(** A minted token works, for exactly what was leased.  Once a token has been
    minted, the agent that presents it is allowed to read a key of the lease's
    project and environment exactly when the lease names the key, whichever
    subject it runs as; the token is signed with the lease's scope, and expires
    within fifteen minutes and before the lease. *)
Theorem minted_token_reads_lease `{J : JWT} `{P : Primitives} s p project id ttl ip m w w1 :
  MintTokenAuthorized s p project id ttl ip w = (Ok m, w1) → id ≠ uuid_Nil →
  (∀ pos, (w_rng w <= pos)%N → denylist (w_db w) !! uuid_String (uuid_new pos) = None) →
  ∃ k l tid jwt,
    leases (w_db w) !! id = Some l ∧ api_keys (w_db w) !! le_api_key_id l = Some k ∧
    at_jwt s = Some jwt ∧
    signClaims jwt (mkClaims (ak_user_id k) "" "" "agent" (Some id) (Some project) (le_environment l) (le_secret_keys l)
                      (uuid_String tid) (Some (mt_ExpiresAt m)) (Some (w_now w))) = Ok (mt_Token m) ∧
    (w_now w < mt_ExpiresAt m <= w_now w + maxAgentTokenTTL)%Z ∧ (mt_ExpiresAt m <= le_expires_at l)%Z ∧
    ∀ dl req subject sid key, subject ≠ uuid_Nil →
      ∃ d w2, stored_authorizer dl req
                (agent_principal subject (ak_user_id k) (mt_ExpiresAt m) id (uuid_String tid)) ReadValue
                (mkResource uuid_Nil project (le_environment l) "secret" sid 0 key) (upd_w_faults (const []) w1) = (Ok d, w2) ∧
        d_Allowed d = LegacyAllows (agent_scopes (le_secret_keys l)) "read" key.
Proof.
  intros H Hid Hfresh. destruct (forward_MintTokenAuthorized _ _ _ _ _ _ _ _ _ H) as [_ Hnow].
  apply MintTokenAuthorized_Ok in H as (k & l & tid & jwt & Hj & Hl & Hk & (pos & Hpos & ->) & Hno & Hpr & Hrev & Hw & Hpe & Hproj &
    _ & _ & Hb & Hb' & Hsig & (d & wp & wp' & (Ep & _) & Hal & Hauth) & Hc).
  exists k, l, (uuid_new pos), jwt. split_and!; try done; try lia.
  intros dl req subject sid key Hs. destruct Hw as (Hkp & Henv & Hkeys & Hexp).
  unfold stored_authorizer in Hauth. apply bind_Ok in Hauth as (t & wt & [-> ->]%now_Ok & Hauth).
  apply Authorize_Allowed in Hauth as ([_ Hproj0 _ _ _] & a & Hload & Hperm); [|done].
  apply LoadAuthority_key in Hload as (k' & tr & Hk' & Htr & Hrole & _); [|done]. rewrite Ep in Hk', Htr.
  cbn in Hk'. rewrite Hk in Hk'. injection Hk' as <-.
  destruct Hperm as [_ _ _ _ _ (role & verb & Hn & Hra & _)]. apply (needs_det _ _ _ _ _ needs_grant) in Hn as [<- <-].
  rewrite Hrole in Hra. cbn in Hproj0.
  destruct Hc as (Eid & Epr & _). cbn in Epr.
  set (i := mkIssuance id project (ak_user_id k) (mt_ExpiresAt m)) in *.
  set (q := agent_principal subject (ak_user_id k) (mt_ExpiresAt m) id (uuid_String (uuid_new pos))).
  assert (agent_lookup (w_now w) q (w_db w1) = Some (mkAgentRow k l (mt_ExpiresAt m))) as Hrow.
  { unfold agent_lookup, issuance, leases, api_keys, denylist. rewrite Epr. cbn. rewrite lookup_insert_eq. cbn.
    fold (leases (w_db w)) (api_keys (w_db w)) (denylist (w_db w)). rewrite Hl. cbn. rewrite Hk. cbn.
    rewrite Hpr, Hkp, Hpr, Hrev, Hfresh by done. by rewrite !bool_decide_eq_true_2. }
  assert (project_role (ak_user_id k) (ak_project_id k) (w_db w1) = Some tr) as Htr1.
  { unfold project_role, projects, members in *. rewrite Eid, Epr. exact Htr. }
  rewrite <-Hpr, <-Hkp in Hproj0 |- *.
  destruct (agent_may_read dl req q sid key (mkAgentRow k l (mt_ExpiresAt m)) tr (upd_w_faults (const []) w1)) as (d' & w2 & H & Hd);
    cbn; rewrite ?Hnow; try done; [lia|apply agent_row_ok; [exact (conj Hkp (conj Henv (conj Hkeys Hexp)))|done|lia]|by exists d', w2].
Qed.

(** C5: revocation is final.  After an API key is deleted, a lease revoked or a
    token revoked, no agent token that depends on it is ever admitted again: not
    at once, and not after any interleaving of credential operations, successful
    or not, of time passing, of other parts of the server and of project
    archiving.  The identifiers of the lease and the token must not be drawn
    again, and a token that was already denied must have been denied for its
    whole lifetime. *)
Theorem revocation_is_final `{J : JWT} `{P : Primitives} jwt repo o p w w1 w2 d req r x w3 :
  run_op jwt repo o w = (Ok (), w1) → shuts_out o (w_db w) p →
  (∀ i dn, issuance (w_db w) !! p_TokenID p = Some i → denylist (w_db w) !! p_TokenID p = Some dn →
     (is_expires_at i <= de_expires_at dn)%Z) →
  not_redrawn (w_rng w1) p → grants_run jwt repo w1 w2 → p_Kind p = AgentToken →
  LoadAuthority d req p r w2 = (x, w3) → ∃ e, x = Err e.
Proof.
  intros Hop Hs Hcov Hn Hrun Hk Hload. eapply dead_denied; [done| |done].
  eapply run_principal_dead; [done..|]. by eapply shut_out_dead.
Qed.

(** Grants only narrow.  If every lease lies within its API key - same project
    and environment, only keys the key's scopes may read, at most a day and not
    past the key's expiry - and every issued token within its lease and user,
    then that is so after any run of credential operations, interleaved with
    time, the rest of the server and project archiving. *)
Theorem grants_only_narrow `{J : JWT} `{P : Primitives} jwt repo w w2 :
  grants_run jwt repo w w2 → grants_wf (w_db w) → grants_wf (w_db w2).
Proof. apply run_grants_wf. Qed.

(** C33: the services refine the specification of grants.  Whatever an operation
    on credentials does, successful or not, the clock stands still, the random
    source moves on, and the credential tables make one step of [grant_step]:
    nothing, a key of a project's owner with a bounded lifetime, a cascading
    deletion, a lease within its key, a revocation, a token within a live lease,
    a denial for the token's lifetime, or the pruning of denials that have run
    out. *)
Theorem grants_refine_specification `{J : JWT} `{P : Primitives} jwt repo o x w w1 :
  run_op jwt repo o w = (x, w1) →
  w_now w1 = w_now w ∧ (w_rng w <= w_rng w1)%N ∧
  ∃ mid, grant_step (w_now w) (w_rng w) (w_db w) mid ∧ credentials (w_db w1) = credentials mid ∧
    (∀ e, x = Err e → w_db w1 = w_db w).
Proof.
  intros H. pose proof (run_op_credentials jwt repo _ _ _ _ H) as (Hn & Ht & mid & Hs & Hc).
  split; [done|]. split; [done|]. exists mid. split; [done|]. split; [done|]. intros e ->. by eapply run_op_Err.
Qed.

(** *** Examples: the key of [demo_db] leases and mints *)

Import Toy.
#[export] Instance toy_jwt : JWT := λ alg _ _ c, Some (alg +:+ "." +:+ c_ID c).

Definition demo_jwt : JWTService := mkJWTService "hmac-secret" None.
Definition demo_audit : AuditRepository := mkAuditRepository "chain-key".
Definition demo_key : Principal := mkPrincipal APIKey 40 2 0 0 0 0 0 "".
Definition demo_tokens : AgentTokenService := token_service demo_jwt demo_audit.
(** No lease and no token yet. *)
Definition demo_start : World :=
  mkWorld (upd_db_projects (upd_t_secret_leases (const ∅) ∘ upd_t_agent_token_issuance (const ∅)) demo_db) 100 1000 [] [].
Definition demo_lease_op : grant_op := OpCreateLease demo_key 20 "alpha" ["DB_URL"] 500 "".
Definition demo_leased : World := (run_op demo_jwt demo_audit demo_lease_op demo_start).2.
(** The identifier the first draw yields. *)
Definition demo_lease_id : uuid := uuid_new 1000.

Lemma minted_token_reads_lease_witness : ∃ m w1 k l tid d w2,
  MintTokenAuthorized demo_tokens demo_key 20 demo_lease_id Minute "" demo_leased = (Ok m, w1) ∧
  leases (w_db demo_leased) !! demo_lease_id = Some l ∧
  stored_authorizer DBTypePostgres true (agent_principal 77 (ak_user_id k) (mt_ExpiresAt m) demo_lease_id (uuid_String tid))
    ReadValue (mkResource uuid_Nil 20 (le_environment l) "secret" 5 0 "DB_URL") (upd_w_faults (const []) w1) = (Ok d, w2) ∧
  d_Allowed d = true.
Proof.
  destruct (MintTokenAuthorized demo_tokens demo_key 20 demo_lease_id Minute "" demo_leased) as [[m|e] w1] eqn:E;
    [|assert (∃ m, (MintTokenAuthorized demo_tokens demo_key 20 demo_lease_id Minute "" demo_leased).1 = Ok m) as [m Hm]
        by (eexists; vm_compute; reflexivity); rewrite E in Hm; discriminate Hm].
  destruct (minted_token_reads_lease demo_tokens demo_key 20 demo_lease_id Minute "" m demo_leased w1 E
              ltac:(vm_compute; discriminate)
              ltac:(intros pos _; replace (denylist (w_db demo_leased)) with (∅ : gmap string denied_row)
                      by (vm_compute; reflexivity); apply lookup_empty))
    as (k & l & tid & jwt & Hl & _ & _ & _ & _ & _ & Hread).
  destruct (Hread DBTypePostgres true 77%N 5%N "DB_URL" ltac:(discriminate)) as (d & w2 & Hd & Ha).
  exists m, w1, k, l, tid, d, w2. split; [exact eq_refl|]. split; [exact Hl|]. split; [exact Hd|].
  rewrite Ha. assert (leases (w_db demo_leased) !! demo_lease_id = Some (mkLease 40 20 "alpha" ["DB_URL"] 100 600 false None)) as Hl'
    by (vm_compute; reflexivity).
  rewrite Hl in Hl'. injection Hl' as ->. reflexivity.
Defined.

(** The lease of [demo_db] and its token "jti", revoked by the key's user. *)
Definition demo_world : World := mkWorld demo_db 100 1000 [] [].
Definition demo_revoke : grant_op := OpRevokeLease demo_key 50 20 "".
Definition demo_mint : grant_op := OpMintToken demo_key 20 50 Minute "".

Lemma revocation_is_final_witness : ∃ w1 w2 e,
  run_op demo_jwt demo_audit demo_revoke demo_world = (Ok (), w1) ∧ w_now w2 = 150%Z ∧
  (LoadAuthority DBTypePostgres true demo_agent demo_resource w2).1 = Err e.
Proof.
  destruct (run_op demo_jwt demo_audit demo_revoke demo_world) as [x w1] eqn:E.
  assert (x = Ok ()) as -> by (change x with ((x, w1).1); rewrite <-E; vm_compute; reflexivity).
  set (w' := upd_w_now (const 150%Z) (run_op demo_jwt demo_audit demo_mint w1).2).
  assert (grants_run demo_jwt demo_audit w1 w') as Hrun.
  { eapply run_step; [apply surjective_pairing|]. eapply (run_other _ _ _ w' w'); [|apply N.le_refl|reflexivity|apply run_stop].
    subst w'. cbn [w_now upd_w_now const].
    rewrite (proj2 (run_op_forward demo_jwt demo_audit demo_mint w1 _ _ (surjective_pairing _))).
    rewrite (proj2 (run_op_forward demo_jwt demo_audit demo_revoke demo_world _ _ E)). vm_compute. discriminate. }
  assert (not_redrawn (w_rng w1) demo_agent) as Hn.
  { pose proof (proj1 (run_op_forward demo_jwt demo_audit demo_revoke demo_world _ _ E)) as Hr. change (w_rng demo_world) with 1000%N in Hr.
    intros pos Hpos. split; [|intros Heq; pose proof (uuid_String_length (uuid_new pos)) as Hl; rewrite Heq in Hl; discriminate Hl].
    change (N.succ (N.min pos 65535) ≠ 50%N). lia. }
  destruct (LoadAuthority DBTypePostgres true demo_agent demo_resource w') as [y w3] eqn:El.
  destruct (revocation_is_final demo_jwt demo_audit demo_revoke demo_agent demo_world w1 w' DBTypePostgres true demo_resource y w3
              E eq_refl ltac:(intros i dn _ Hd; discriminate Hd) Hn Hrun eq_refl El) as [e ->].
  exists w1, w', e. split; [exact eq_refl|]. split; [exact eq_refl|]. rewrite El. reflexivity.
Defined.

Lemma grants_only_narrow_witness : ∃ w2 l,
  leases (w_db w2) !! demo_lease_id = Some l ∧ le_secret_keys l = ["DB_URL"] ∧ grants_wf (w_db w2).
Proof.
  assert (grants_wf (w_db demo_start)) as Hw.
  { split; intros i x Hx; exfalso; unfold leases, issuance in Hx; cbn in Hx; rewrite lookup_empty in Hx; discriminate Hx. }
  assert (grants_run demo_jwt demo_audit demo_start demo_leased) as Hrun
    by (eapply run_step; [apply surjective_pairing|apply run_stop]).
  eexists demo_leased, _. split; [vm_compute; reflexivity|]. split; [reflexivity|].
  exact (grants_only_narrow demo_jwt demo_audit _ _ Hrun Hw).
Defined.

Lemma grants_refine_specification_witness : ∃ mid,
  grant_step 100 1000 (w_db demo_start) mid ∧ credentials (w_db demo_leased) = credentials mid.
Proof.
  destruct (grants_refine_specification demo_jwt demo_audit demo_lease_op _ demo_start demo_leased (surjective_pairing _))
    as (_ & _ & mid & Hs & Hc & _).
  exists mid. split; [exact Hs|exact Hc].
Defined.
