(* ===== verification/McpAuth.v ===== *)
(** * Delegated OAuth

    [internal/mcpauth/types.go], [service.go], [delegations.go] and [http.go]:
    resource-bound OAuth for public clients.  A client's authorization request is
    approved or refused by a user with a recent session; an approval is a consent
    and a code of sixty seconds; the code is exchanged once, with its PKCE
    verifier, for a family of tokens; a refresh rotates the family's token, and
    presenting a rotated refresh token revokes the family.  Only hashes of codes
    and tokens are stored.  [oauth_step] is the abstract specification of the six
    tables; the operations refine it, and the invariant and the finality of
    revocation are proved on it. *)
From S2P Require Import Prelude GoStrings GoEncoding GoNet Policy Schema Database Crypto Authority AuditLog VaultStore Vault ApiKeys.

(** ** Definitions *)

Definition Scope : string := "keepsave:tools".

Definition ErrInvalid : error := Sentinel "invalid OAuth request".
Definition ErrDenied : error := Sentinel "OAuth access denied".
Definition ErrUnavailable : error := Sentinel "OAuth authority unavailable".

Record Config := mkConfig {
  cfg_Issuer : string;
  cfg_Resource : string;
  cfg_AppURL : string;
  cfg_AllowedOrigins : list string;
}.

Section Configuration.
Context `{N : NetURL}.

Definition bare_https (raw : string) : bool :=
  match url_Parse raw with
  | None => false
  | Some u =>
      bool_decide (u_Scheme u = "https") && negb (bool_decide (u_Host u = "")) && bool_decide (u_User u = None)
      && bool_decide (u_RawQuery u = "") && bool_decide (u_Fragment u = "")
  end.
Definition url_of (raw : string) : URL := default (mkURL "" "" None "" "" "") (url_Parse raw).

Definition Validate_Config (c : Config) : result unit :=
  if negb (forallb (λ raw, bare_https raw && negb (HasSuffix raw "/")) [cfg_Issuer c; cfg_Resource c; cfg_AppURL c])
  then Err ErrInvalid
  else
    let issuer := url_of (cfg_Issuer c) in
    let resource := url_of (cfg_Resource c) in
    let app := url_of (cfg_AppURL c) in
    if negb (bool_decide (u_Host issuer = u_Host app)) || negb (bool_decide (u_Host resource = u_Host app))
       || negb (bool_decide (u_Path app = "")) || negb (bool_decide (u_Path resource = "/mcp"))
    then Err ErrInvalid
    else if negb (bool_decide (cfg_Issuer c = cfg_AppURL c)) then Err ErrInvalid
    else if negb (forallb (λ raw, bare_https raw && bool_decide (u_Path (url_of raw) = "")) (cfg_AllowedOrigins c))
    then Err ErrInvalid
    else Ok ().
End Configuration.

(** [OriginAllowed], on the values of the [Origin] header. *)
Definition OriginAllowed (c : Config) (values : list string) : bool :=
  match values with
  | [] => true
  | [v] => negb (bool_decide (v = "")) && bool_decide (v ∈ cfg_AppURL c :: cfg_AllowedOrigins c)
  | _ => false
  end.

(** A validated access token. *)
Record Principal := mkPrincipal {
  op_UserID : uuid;
  op_SessionID : uuid;
  op_FamilyID : uuid;
  op_TokenID : uuid;
  op_ClientID : string;
  op_Scope : string;
  op_ExpiresAt : time;
}.
Record AuthorizationRequest := mkAuthorizationRequest {
  aq_ID : uuid;
  aq_ClientID : string;
  aq_Harness : string;
  aq_Resource : string;
  aq_RedirectURI : string;
  aq_Scope : string;
  aq_State : string;
  aq_Challenge : string;
  aq_ExpiresAt : time;
}.
Record TokenRequest := mkTokenRequest {
  tq_GrantType : string;
  tq_ClientID : string;
  tq_Code : string;
  tq_RedirectURI : string;
  tq_Verifier : string;
  tq_RefreshToken : string;
  tq_Resource : string;
  tq_Scope : string;
}.
Record TokenResponse := mkTokenResponse {
  tr_AccessToken : string;
  tr_TokenType : string;
  tr_ExpiresIn : Z;
  tr_RefreshToken : string;
  tr_Scope : string;
}.

(** The loop over the fields of a scope, and the set of those seen. *)
Fixpoint scope_fields (fields : list string) (seen : gset string) : option (gset string) :=
  match fields with
  | [] => Some seen
  | f :: fields' =>
      if (negb (bool_decide (f = Scope)) && negb (bool_decide (f = "offline_access"))) || bool_decide (f ∈ seen) then None
      else scope_fields fields' ({[f]} ∪ seen)
  end.
Definition canonicalScope (s : string) : result string :=
  let fields := Fields s in
  if bool_decide (fields = []) then Err ErrInvalid else
  match scope_fields fields ∅ with
  | None => Err ErrInvalid
  | Some seen =>
      if negb (bool_decide (Scope ∈ seen)) then Err ErrInvalid
      else if bool_decide ("offline_access" ∈ seen) then Ok (Scope +:+ " offline_access")
      else Ok Scope
  end.

Definition validChallenge (s : string) : bool :=
  match b64_DecodeString s with
  | Some b => (String.length b =? 32) && (String.length s =? 43)
  | None => false
  end.
Definition verifier_rune (r : Z) : bool :=
  ((97 <=? r)%Z && (r <=? 122)%Z) || ((65 <=? r)%Z && (r <=? 90)%Z) || ((48 <=? r)%Z && (r <=? 57)%Z)
  || bool_decide (r ∈ [45; 46; 95; 126]%Z).
Definition validVerifier (s : string) : bool :=
  (43 <=? String.length s) && (String.length s <=? 128) && forallb (λ rb, verifier_rune rb.1) (runes s).

Section Tokens.
Context `{P : Primitives}.
Definition token : Tx string := b ← rand_bytes 32; mret (b64_Encode b).
Definition hash (s : string) : string := hex_EncodeToString (sha256 s).
(** [base64.RawURLEncoding.EncodeToString(sha256.Sum256(verifier))]. *)
Definition s256 (verifier : string) : string := b64_Encode (sha256 verifier).
End Tokens.

(** *** Statements *)

Definition upd_oauth (g : OAuthDB → OAuthDB) : DB → DB := upd_db_identity (upd_t_oauth g).

Definition consumed_request (t : time) (r : oauth_request_row) : oauth_request_row :=
  mkRequest (or_client_id r) (or_resource r) (or_redirect_uri r) (or_scope r) (or_state r) (or_challenge r)
    (or_expires_at r) (Some t).
Definition consumed_code (t : time) (c : oauth_code_row) : oauth_code_row :=
  mkCode (od_consent_id c) (od_redirect_uri c) (od_challenge c) (od_expires_at c) (Some t).
Definition revoked_family (t : time) (f : oauth_family_row) : oauth_family_row :=
  mkFamily (of_consent_id f) (of_expires_at f) (Some t) (of_created_at f).
Definition rotated_token (t : time) (k : oauth_token_row) : oauth_token_row :=
  mkToken (ot_family_id k) (ot_access_hash k) (ot_refresh_hash k) (ot_expires_at k) (Some t) (ot_created_at k).

Definition insert_request (id : uuid) (r : oauth_request_row) (db : DB) : option DB :=
  if bool_decide (is_Some (oauth_requests db !! id)) || bool_decide (oauth_clients db !! or_client_id r = None)
  then None else Some (upd_oauth (upd_t_mcp_oauth_requests <[id := r]>) db).
Definition consume_request (id : uuid) (t : time) : DB → DB :=
  upd_oauth (upd_t_mcp_oauth_requests (alter (consumed_request t) id)).
Definition insert_consent (id : uuid) (c : oauth_consent_row) (db : DB) : option DB :=
  if bool_decide (is_Some (oauth_consents db !! id)) || bool_decide (oc_user_id c ∉ users db)
     || bool_decide (sessions db !! oc_session_id c = None) || bool_decide (oauth_clients db !! oc_client_id c = None)
  then None else Some (upd_oauth (upd_t_mcp_oauth_consents <[id := c]>) db).
Definition insert_code (h : string) (c : oauth_code_row) (db : DB) : option DB :=
  if bool_decide (is_Some (oauth_codes db !! h)) || bool_decide (oauth_consents db !! od_consent_id c = None)
  then None else Some (upd_oauth (upd_t_mcp_oauth_codes <[h := c]>) db).
Definition consume_code (h : string) (t : time) : DB → DB :=
  upd_oauth (upd_t_mcp_oauth_codes (alter (consumed_code t) h)).
Definition insert_family (id : uuid) (f : oauth_family_row) (db : DB) : option DB :=
  if bool_decide (is_Some (oauth_families db !! id)) || bool_decide (oauth_consents db !! of_consent_id f = None)
  then None else Some (upd_oauth (upd_t_mcp_oauth_families <[id := f]>) db).
Definition revoke_family (id : uuid) (t : time) : DB → DB :=
  upd_oauth (upd_t_mcp_oauth_families (alter (revoked_family t) id)).
(** The hashes are unique. *)
Definition insert_token (id : uuid) (k : oauth_token_row) (db : DB) : option DB :=
  if bool_decide (is_Some (oauth_tokens db !! id)) || bool_decide (oauth_families db !! ot_family_id k = None)
     || bool_decide (map_Exists (λ _ k', ot_access_hash k' = ot_access_hash k ∨ ot_refresh_hash k' = ot_refresh_hash k)
                       (oauth_tokens db))
  then None else Some (upd_oauth (upd_t_mcp_oauth_tokens <[id := k]>) db).
Definition rotate_token (id : uuid) (t : time) : DB → DB :=
  upd_oauth (upd_t_mcp_oauth_tokens (alter (rotated_token t) id)).

(** The row of a unique hash. *)
Definition token_by (p : oauth_token_row → bool) (db : DB) : option (uuid * oauth_token_row) :=
  head (select (λ _ k, p k) (oauth_tokens db)).
Definition by_access (h : string) (k : oauth_token_row) : bool := bool_decide (ot_access_hash k = h).
Definition by_refresh (h : string) (k : oauth_token_row) : bool := bool_decide (ot_refresh_hash k = h).

(** The family of a delegation and its consent. *)
Definition family_consent (family : uuid) (db : DB) : option (oauth_family_row * oauth_consent_row) :=
  f ← oauth_families db !! family; c ← oauth_consents db !! of_consent_id f; Some (f, c).

(** *** The service *)

Record Service := mkService {
  sv_audit : AuditRepository;
  sv_cfg : Config;
}.

(** What [Exchange], [refresh] and [Validate] carry along: the consent, its
    user, session, client, scope and expiry, the family and the token. *)
Record lineage := mkLineage {
  ln_consent : uuid;
  ln_user : uuid;
  ln_sid : uuid;
  ln_family : uuid;
  ln_token : uuid;
  ln_client : string;
  ln_scope : string;
  ln_expires : time;
}.

(** [if errors.Is(e, sql.ErrNoRows) { return none }; if e != nil { return ErrUnavailable }]. *)
Definition scan_or {A} (none : error) (m : Tx A) : Tx A := λ w,
  match m w with
  | (Err e, w') => (Err (if errors_Is e ErrNoRows then none else ErrUnavailable), w')
  | r => r
  end.

Record Delegation := mkDelegation {
  dg_FamilyID : uuid;
  dg_ClientID : string;
  dg_Harness : string;
  dg_Resource : string;
  dg_Scope : string;
  dg_CreatedAt : time;
  dg_ExpiresAt : time;
  dg_RequiresRefresh : bool;
}.

Section Operations.
Context `{N : NetURL} `{U : UUIDParse} `{P : Primitives} (s : Service).

Definition resource_ : string := cfg_Resource (sv_cfg s).

(** [New]: PostgreSQL, and a valid configuration. *)
Definition New (dialect : DBType) (audit : AuditRepository) (cfg : Config) : result Service :=
  if negb (bool_decide (dialect = DBTypePostgres)) then Err ErrUnavailable
  else match Validate_Config cfg with Err e => Err e | Ok _ => Ok (mkService audit cfg) end.

Definition auditTx (user : uuid) (action : string) (details : list (string * json)) : Tx unit :=
  CreateTx (sv_audit s) (Some user) None action "" (mk_obj details) "".

(** [begin], the body, and [Commit] where the body says so; the errors of the
    database around it are [ErrUnavailable]. *)
Definition begin {A} (body : Tx (A * bool)) : Tx A :=
  x ← on_err ErrUnavailable (with_tx_opt (
        _ ← exec_ (λ db, db);
        r ← attempt body;
        mret (match r with Ok (a, c) => (Ok a, c) | Err e => (Err e, false) end)));
  lift x.

Definition parent (user sid : uuid) (recent : bool) : Tx time :=
  _ ← on_err ErrDenied (if recent then RequireRecentTx DBTypePostgres user sid else RequireActiveTx DBTypePostgres user sid);
  on_err ErrUnavailable (query_row (λ db, se_expires_at <$> session_of user sid db)).

(** [FOR SHARE] inside a transaction. *)
Definition client (tx : bool) (id redirect : string) : Tx string :=
  c ← scan_or ErrInvalid (query_row (λ db, oauth_clients db !! id));
  _ ← (if tx then note_lock (LockClient id) else mret ());
  if negb (cl_enabled c) || (negb (bool_decide (redirect = "")) && negb (bool_decide (cl_redirect_uri c = redirect)))
  then fail ErrInvalid else mret (cl_harness c).

Definition request_params : list string :=
  ["client_id"; "redirect_uri"; "response_type"; "scope"; "state"; "code_challenge"; "code_challenge_method"; "resource"].

Definition BeginAuthorization (values : Values) : Tx AuthorizationRequest :=
  if negb (forallb (λ key, length (default [] (values !! key)) =? 1) request_params) then fail ErrInvalid else
  if negb (bool_decide (values_Get values "response_type" = "code"))
     || negb (bool_decide (values_Get values "resource" = resource_))
     || negb (bool_decide (values_Get values "code_challenge_method" = "S256"))
     || negb (validChallenge (values_Get values "code_challenge"))
     || (String.length (values_Get values "state") <? 16) || (1024 <? String.length (values_Get values "state"))
  then fail ErrInvalid else
  scope ← lift (canonicalScope (values_Get values "scope"));
  let clientID := values_Get values "client_id" in
  let redirect := values_Get values "redirect_uri" in
  harness ← client false clientID redirect;
  id ← uuid_New;
  t ← now;
  let row := mkRequest clientID resource_ redirect scope (values_Get values "state") (values_Get values "code_challenge")
               (t + 5 * Minute) None in
  _ ← on_err ErrUnavailable (exec (insert_request id row));
  mret (mkAuthorizationRequest id clientID harness resource_ redirect scope (or_state row) (or_challenge row) (or_expires_at row)).

(** The request joined to its enabled client. *)
Definition request_row (id : uuid) (db : DB) : option (oauth_request_row * string) :=
  r ← oauth_requests db !! id;
  c ← oauth_clients db !! or_client_id r;
  if cl_enabled c then Some (r, cl_harness c) else None.
(** The variables before the scan. *)
Definition zero_request : oauth_request_row * string := (mkRequest "" "" "" "" "" "" 0 None, "").

Definition loadRequest (id : uuid) (lock : bool) : Tx AuthorizationRequest :=
  x ← attempt (query_row (request_row id));
  _ ← (match x with Ok _ => if lock then note_lock (LockRequest id) else mret () | Err _ => mret () end);
  t ← now;
  let '(r, harness) := match x with Ok r => r | Err _ => zero_request end in
  if match x with Err e => errors_Is e ErrNoRows | Ok _ => false end
     || negb (bool_decide (or_consumed_at r = None)) || negb (After (or_expires_at r) t)
     || negb (bool_decide (or_resource r = resource_))
  then fail ErrInvalid
  else match x with
       | Err _ => fail ErrUnavailable
       | Ok _ => mret (mkAuthorizationRequest id (or_client_id r) harness (or_resource r) (or_redirect_uri r) (or_scope r)
                         (or_state r) (or_challenge r) (or_expires_at r))
       end.

Definition Preview (user sid id : uuid) : Tx AuthorizationRequest :=
  begin (
    _ ← parent user sid false;
    r ← loadRequest id false;
    mret (r, false)).

(** The consent and the code of an approval; the query parameters and the audit
    details they add. *)
Definition approve_request (user sid : uuid) (r : AuthorizationRequest) (parentExpiry : time) :
    Tx (list (string * string) * list (string * json)) :=
  consent ← uuid_New;
  t ← now;
  let expires := (t + 8 * Hour)%Z in
  let expires := if Before parentExpiry expires then parentExpiry else expires in
  _ ← on_err ErrUnavailable (exec (insert_consent consent (mkConsent user sid (aq_ClientID r) resource_ (aq_Scope r) expires None)));
  code ← on_err ErrUnavailable token;
  _ ← on_err ErrUnavailable (exec (insert_code (hash code)
        (mkCode consent (aq_RedirectURI r) (aq_Challenge r) (t + 60 * Second) None)));
  mret ([("code", code)], [("consent_id", JStr (uuid_String consent))]).

Definition Decide (user sid id : uuid) (approve : bool) : Tx string :=
  begin (
    parentExpiry ← parent user sid true;
    r ← loadRequest id true;
    _ ← client true (aq_ClientID r) (aq_RedirectURI r);
    t ← now;
    _ ← on_err ErrUnavailable (exec_ (consume_request id t));
    ans ← (if approve then approve_request user sid r parentExpiry else mret ([("error", "access_denied")], []));
    _ ← on_err ErrUnavailable (auditTx user (if approve then "mcp.consent_approved" else "mcp.consent_denied")
          ([("client_id", JStr (aq_ClientID r)); ("request_id", JStr (uuid_String id)); ("resource", JStr resource_)] ++ ans.2));
    mret (url_with_query (aq_RedirectURI r) ([("state", aq_State r); ("iss", cfg_Issuer (sv_cfg s))] ++ ans.1), true)).

Definition discover (h : string) (refresh : bool) : Tx lineage :=
  scan_or ErrDenied (query_row (λ db,
    '(id, k) ← token_by (if refresh then by_refresh h else by_access h) db;
    '(f, c) ← family_consent (ot_family_id k) db;
    Some (mkLineage (of_consent_id f) (oc_user_id c) (oc_session_id c) (ot_family_id k) id (oc_client_id c) (oc_scope c)
            (oc_expires_at c)))).

(** The consent again, locked; a failed scan leaves the resource empty, which is
    not the configured one. *)
Definition lockConsent (l : lineage) : Tx lineage :=
  c ← on_err ErrDenied (query_row (λ db,
        c ← oauth_consents db !! ln_consent l;
        if bool_decide (oc_user_id c = ln_user l) && bool_decide (oc_session_id c = ln_sid l) then Some c else None));
  _ ← note_lock (LockConsent (ln_consent l));
  t ← now;
  if negb (bool_decide (oc_revoked_at c = None)) || negb (bool_decide (oc_resource c = resource_))
     || negb (After (oc_expires_at c) t)
  then fail ErrDenied
  else
    _ ← client true (oc_client_id c) "";
    mret (mkLineage (ln_consent l) (ln_user l) (ln_sid l) (ln_family l) (ln_token l) (oc_client_id c) (oc_scope c)
            (oc_expires_at c)).

Definition with_family (family : uuid) (expires : time) (l : lineage) : lineage :=
  mkLineage (ln_consent l) (ln_user l) (ln_sid l) family (ln_token l) (ln_client l) (ln_scope l) expires.

Definition issue (l : lineage) : Tx TokenResponse :=
  access ← on_err ErrUnavailable token;
  refresh ← on_err ErrUnavailable token;
  t ← now;
  let expires := (t + 10 * Minute)%Z in
  let expires := if Before (ln_expires l) expires then ln_expires l else expires in
  id ← uuid_New;
  _ ← on_err ErrUnavailable (exec (insert_token id (mkToken (ln_family l) (hash access) (hash refresh) expires None t)));
  mret (mkTokenResponse access "Bearer" (Z.quot (expires - t) Second) refresh (ln_scope l)).

(** The consent, user and session of a code. *)
Definition code_lineage (h : string) (db : DB) : option lineage :=
  k ← oauth_codes db !! h;
  c ← oauth_consents db !! od_consent_id k;
  Some (mkLineage (od_consent_id k) (oc_user_id c) (oc_session_id c) uuid_Nil uuid_Nil "" "" 0).

Definition code_accepted (t : time) (l : lineage) (r : TokenRequest) (k : oauth_code_row) : bool :=
  bool_decide (od_consumed_at k = None) && After (od_expires_at k) t && bool_decide (ln_client l = tq_ClientID r)
  && bool_decide (od_redirect_uri k = tq_RedirectURI r) && bool_decide (s256 (tq_Verifier r) = od_challenge k).

Definition exchange_code (r : TokenRequest) : Tx TokenResponse :=
  let h := hash (tq_Code r) in
  l ← scan_or ErrDenied (query_row (code_lineage h));
  begin (
    _ ← parent (ln_user l) (ln_sid l) false;
    l ← lockConsent l;
    k ← on_err ErrDenied (query_row (λ db, oauth_codes db !! h));
    _ ← note_lock (LockCode h);
    t ← now;
    _ ← check (code_accepted t l r k) ErrDenied;
    _ ← on_err ErrUnavailable (exec_ (consume_code h t));
    family ← uuid_New;
    let l := with_family family (ln_expires l) l in
    _ ← on_err ErrUnavailable (exec (insert_family family (mkFamily (ln_consent l) (ln_expires l) None t)));
    result ← issue l;
    _ ← on_err ErrUnavailable (auditTx (ln_user l) "mcp.token_issued"
          [("family_id", JStr (uuid_String family)); ("client_id", JStr (ln_client l));
           ("consent_id", JStr (uuid_String (ln_consent l)))]);
    mret (result, true)).

(** Presenting a rotated refresh token revokes its family, and is denied. *)
Definition replayed (l : lineage) : Tx (result TokenResponse * bool) :=
  t ← now;
  _ ← on_err ErrUnavailable (exec_ (revoke_family (ln_family l) t));
  _ ← on_err ErrUnavailable (auditTx (ln_user l) "mcp.refresh_replay"
        [("family_id", JStr (uuid_String (ln_family l))); ("client_id", JStr (ln_client l))]);
  mret (Err ErrDenied, true).

Definition live_family (t : time) (f : oauth_family_row) : bool :=
  bool_decide (of_revoked_at f = None) && After (of_expires_at f) t.

Definition refresh (r : TokenRequest) : Tx TokenResponse :=
  if bool_decide (tq_RefreshToken r = "") then fail ErrInvalid else
  let h := hash (tq_RefreshToken r) in
  l ← discover h true;
  ans ← begin (
    _ ← parent (ln_user l) (ln_sid l) false;
    l ← lockConsent l;
    _ ← check (bool_decide (tq_ClientID r = ln_client l)
               && (bool_decide (tq_Scope r = "") || bool_decide (tq_Scope r = ln_scope l))) ErrDenied;
    f ← on_err ErrDenied (query_row (λ db, oauth_families db !! ln_family l));
    _ ← note_lock (LockFamily (ln_family l));
    t ← now;
    _ ← check (live_family t f) ErrDenied;
    k ← on_err ErrDenied (query_row (token_by (λ k, by_refresh h k && bool_decide (ot_family_id k = ln_family l))));
    _ ← note_lock (LockOAuthToken k.1);
    if negb (bool_decide (ot_rotated_at k.2 = None)) then replayed l else
    _ ← on_err ErrUnavailable (exec_ (rotate_token k.1 t));
    let l := with_family (ln_family l) (if Before (of_expires_at f) (ln_expires l) then of_expires_at f else ln_expires l) l in
    result ← issue l;
    _ ← on_err ErrUnavailable (auditTx (ln_user l) "mcp.token_refreshed"
          [("family_id", JStr (uuid_String (ln_family l))); ("client_id", JStr (ln_client l))]);
    mret (Ok result, true));
  lift ans.

Definition Exchange (r : TokenRequest) : Tx TokenResponse :=
  if negb (bool_decide (tq_Resource r = resource_)) || bool_decide (tq_ClientID r = "") then fail ErrInvalid
  else if bool_decide (tq_GrantType r = "refresh_token") then refresh r
  else if negb (bool_decide (tq_GrantType r = "authorization_code")) || negb (validVerifier (tq_Verifier r))
          || bool_decide (tq_Code r = "")
  then fail ErrInvalid
  else exchange_code r.

(** The token of a hash with its family, as [Validate] joins them. *)
Definition token_family (h : string) (family : uuid) (db : DB) : option (oauth_token_row * oauth_family_row) :=
  k ← token_by (λ k, by_access h k && bool_decide (ot_family_id k = family)) db;
  f ← oauth_families db !! family;
  Some (k.2, f).

Definition Validate (raw : string) : Tx Principal :=
  if negb (String.length raw =? 43) then fail ErrDenied else
  let h := hash raw in
  l ← discover h false;
  begin (
    parentExpiry ← parent (ln_user l) (ln_sid l) false;
    l ← lockConsent l;
    kf ← on_err ErrDenied (query_row (token_family h (ln_family l)));
    t ← now;
    _ ← check (bool_decide (ot_rotated_at kf.1 = None) && bool_decide (of_revoked_at kf.2 = None)
               && After (ot_expires_at kf.1) t && After (of_expires_at kf.2) t) ErrDenied;
    let earlier := λ accessExpiry limit : time, if Before limit accessExpiry then limit else accessExpiry in
    let accessExpiry := fold_left earlier [parentExpiry; ln_expires l; of_expires_at kf.2] (ot_expires_at kf.1) in
    mret (mkPrincipal (ln_user l) (ln_sid l) (ln_family l) (ln_token l) (ln_client l) (ln_scope l) accessExpiry, false)).

(** [if errors.Is(e, ErrDenied) { return nil }; return e]. *)
Definition denied_is_nil (e : error) : result unit :=
  if errors_Is e "OAuth access denied" then Ok () else Err e.

Definition Revoke (raw clientID : string) : Tx unit :=
  if negb (String.length raw =? 43) then mret () else
  x ← attempt (discover (hash raw) true);
  x ← (match x with
       | Err e => if errors_Is e "OAuth access denied" then attempt (discover (hash raw) false) else mret x
       | Ok _ => mret x
       end);
  match x with
  | Err e => lift (denied_is_nil e)
  | Ok l =>
      if negb (bool_decide (clientID = ln_client l)) then mret () else
      begin (
        x ← attempt (parent (ln_user l) (ln_sid l) false);
        match x with
        | Err e => u ← lift (denied_is_nil e); mret (u, false)
        | Ok _ =>
            x ← attempt (lockConsent l);
            match x with
            | Err e => u ← lift (denied_is_nil e); mret (u, false)
            | Ok l =>
                f ← on_err ErrUnavailable (query_row (λ db, oauth_families db !! ln_family l));
                _ ← note_lock (LockFamily (ln_family l));
                if negb (bool_decide (of_revoked_at f = None)) then mret ((), false) else
                t ← now;
                _ ← on_err ErrUnavailable (exec_ (revoke_family (ln_family l) t));
                _ ← on_err ErrUnavailable (auditTx (ln_user l) "mcp.token_revoked"
                      [("family_id", JStr (uuid_String (ln_family l))); ("client_id", JStr (ln_client l))]);
                mret ((), true)
            end
        end)
  end.

(** *** Grants and delegations *)

Definition RequireGrantTx (p : Policy.Principal) (clientID : string) : Tx unit :=
  t ← now;
  if negb (bool_decide (p_Kind p = OAuthDelegation)) || bool_decide (p_SubjectID p = uuid_Nil)
     || bool_decide (p_SessionID p = uuid_Nil) || bool_decide (p_ParentGrantID p = uuid_Nil) || negb (After (p_ExpiresAt p) t)
  then fail ErrDenied else
  fc ← on_err ErrDenied (query_row (family_consent (p_ParentGrantID p)));
  let consent := of_consent_id fc.1 in
  _ ← check (bool_decide (oc_user_id fc.2 = p_SubjectID p) && bool_decide (oc_session_id fc.2 = p_SessionID p)) ErrDenied;
  c ← on_err ErrDenied (query_row (λ db, oauth_consents db !! consent));
  _ ← note_lock (LockConsent consent);
  _ ← check (bool_decide (oc_resource c = resource_) && bool_decide (oc_client_id c = clientID)
             && bool_decide (oc_revoked_at c = None) && After (oc_expires_at c) t) ErrDenied;
  f ← on_err ErrDenied (query_row (λ db, oauth_families db !! p_ParentGrantID p));
  _ ← note_lock (LockFamily (p_ParentGrantID p));
  _ ← check (live_family t f) ErrDenied;
  match uuid_Parse (p_TokenID p) with
  | None => fail ErrDenied
  | Some tokenID =>
      if bool_decide (tokenID = uuid_Nil) then fail ErrDenied else
      _ ← on_err ErrDenied (query_row (λ db,
            k ← oauth_tokens db !! tokenID;
            if bool_decide (ot_family_id k = p_ParentGrantID p) && bool_decide (ot_rotated_at k = None)
               && (t <? ot_expires_at k)%Z
            then Some tokenID else None));
      _ ← note_lock (LockOAuthToken tokenID);
      _ ← client true clientID "";
      mret ()
  end.

Definition humanPrincipal (t : time) (p : Policy.Principal) : bool :=
  bool_decide (p_Kind p = Human) && negb (bool_decide (p_SubjectID p = uuid_Nil)) && negb (bool_decide (p_SessionID p = uuid_Nil))
  && (bool_decide (p_ActorID p = uuid_Nil) || bool_decide (p_ActorID p = p_SubjectID p))
  && (IsZero (p_ExpiresAt p) || After (p_ExpiresAt p) t).

(** The row a family contributes to the list of a user's delegations, with its
    creation time. *)
Definition delegation_row (t : time) (user : uuid) (db : DB) (id : uuid) (f : oauth_family_row) : option (time * Delegation) :=
  c ← oauth_consents db !! of_consent_id f;
  cl ← oauth_clients db !! oc_client_id c;
  parent ← session_of (oc_user_id c) (oc_session_id c) db;
  let usable k := bool_decide (ot_family_id k = id) && bool_decide (ot_rotated_at k = None) && (t <? ot_expires_at k)%Z in
  if bool_decide (oc_user_id c = user) && bool_decide (oc_resource c = resource_) && bool_decide (of_revoked_at f = None)
     && bool_decide (oc_revoked_at c = None) && cl_enabled cl && negb (se_revoked parent) && (t <? se_expires_at parent)%Z
     && (t <? of_expires_at f)%Z && (t <? oc_expires_at c)%Z
  then Some (of_created_at f,
             mkDelegation id (oc_client_id c) (cl_harness cl) (oc_resource c) (oc_scope c) (of_created_at f)
               (Z.min (of_expires_at f) (Z.min (oc_expires_at c) (se_expires_at parent)))
               (negb (existsb (λ ik, usable ik.2) (map_to_list (oauth_tokens db)))))
  else None.
(** [ORDER BY f.created_at DESC,f.id LIMIT 100]. *)
Definition newest_delegation (a b : time * Delegation) : Prop :=
  (b.1 < a.1)%Z ∨ (a.1 = b.1 ∧ (dg_FamilyID a.2 <= dg_FamilyID b.2)%N).
#[export] Instance newest_delegation_dec : RelDecision newest_delegation.
Proof. intros a b. unfold newest_delegation. apply _. Defined.

Definition ListDelegations (p : Policy.Principal) : Tx (list Delegation) :=
  t ← now;
  if negb (humanPrincipal t p) then fail ErrDenied else
  begin (
    _ ← parent (p_SubjectID p) (p_SessionID p) false;
    rows ← on_err ErrUnavailable (query (λ db,
             merge_sort newest_delegation (omap (λ kf, delegation_row t (p_SubjectID p) db kf.1 kf.2) (map_to_list (oauth_families db)))));
    mret (map snd (take 100 rows), false)).

Definition RevokeDelegation (p : Policy.Principal) (family : uuid) : Tx unit :=
  t ← now;
  if negb (humanPrincipal t p) || bool_decide (family = uuid_Nil) then fail ErrDenied else
  begin (
    _ ← parent (p_SubjectID p) (p_SessionID p) false;
    fc ← on_err ErrDenied (query_row (λ db,
           fc ← family_consent family db;
           if bool_decide (oc_user_id fc.2 = p_SubjectID p) && bool_decide (oc_resource fc.2 = resource_) then Some fc else None));
    let consent := of_consent_id fc.1 in
    _ ← on_err ErrUnavailable (query_row (λ db, oauth_consents db !! consent));
    _ ← note_lock (LockConsent consent);
    f ← on_err ErrUnavailable (query_row (λ db, oauth_families db !! family));
    _ ← note_lock (LockFamily family);
    if negb (bool_decide (of_revoked_at f = None)) then mret ((), false) else
    _ ← on_err ErrUnavailable (exec_ (revoke_family family t));
    _ ← on_err ErrUnavailable (auditTx (p_SubjectID p) "mcp.delegation_revoked"
          [("family_id", JStr (uuid_String family)); ("client_id", JStr (oc_client_id fc.2))]);
    mret ((), true)).

(** [ORDER BY t.created_at DESC LIMIT 1]. *)
Definition newest_token (a b : uuid * oauth_token_row) : Prop := (ot_created_at b.2 <= ot_created_at a.2)%Z.
#[export] Instance newest_token_dec : RelDecision newest_token.
Proof. intros a b. unfold newest_token. apply _. Defined.
Definition current_token (t : time) (family : uuid) (db : DB) : option (uuid * time) :=
  fc ← family_consent family db;
  ik ← head (merge_sort newest_token (select (λ _ k, bool_decide (ot_family_id k = family) && bool_decide (ot_rotated_at k = None)
                                              && (t <? ot_expires_at k)%Z) (oauth_tokens db)));
  Some (ik.1, Z.min (ot_expires_at ik.2) (Z.min (of_expires_at fc.1) (oc_expires_at fc.2))).

Definition FamilyPrincipalTx (human : Policy.Principal) (clientID : string) (family : uuid) : Tx Policy.Principal :=
  t ← now;
  if negb (humanPrincipal t human) || bool_decide (clientID = "") || bool_decide (family = uuid_Nil) then fail ErrDenied else
  fc ← on_err ErrDenied (query_row (λ db,
         fc ← family_consent family db;
         if bool_decide (oc_client_id fc.2 = clientID) && bool_decide (oc_resource fc.2 = resource_) then Some fc else None));
  let user := oc_user_id fc.2 in
  let sid := oc_session_id fc.2 in
  _ ← check (bool_decide (user = p_SubjectID human)) ErrDenied;
  _ ← parent user (p_SessionID human) false;
  parentExpiry ← parent user sid false;
  te ← on_err ErrDenied (query_row (current_token t family));
  let expiry := if Before parentExpiry te.2 then parentExpiry else te.2 in
  let p := Policy.mkPrincipal OAuthDelegation user user uuid_Nil family expiry sid uuid_Nil (uuid_String te.1) in
  _ ← RequireGrantTx p clientID;
  mret p.
End Operations.
