(* ===== verification/McpAuthSpec.v ===== *)
(** * The specification of delegated OAuth, and that the service refines it

    [oauth_step] says what an operation of [McpAuth] may do to the six OAuth
    tables.  From it follow the invariant that one approval gives at most one
    code, one family and one usable token, that a code is redeemed once, and that
    a revoked family never comes back.  The file ends with the theorems and with
    a client, a session and a request on which they are evaluated. *)
From S2P Require Import Prelude GoStrings GoEncoding GoNet Policy Schema Database Crypto Authority AuditLog VaultStore Vault ApiKeys McpAuth.

(** ** The abstract specification *)

Section Spec.
Context (resource : string) (t : time) (db : DB).

(** A human session that is live now. *)
Definition live_session (user sid : uuid) (s : session_row) : Prop :=
  session_of user sid db = Some s ∧ se_revoked s = false ∧ (t < se_expires_at s)%Z.
Definition open_request (r : oauth_request_row) : Prop :=
  or_consumed_at r = None ∧ (t < or_expires_at r)%Z ∧ or_resource r = resource.
Definition live_consent (c : oauth_consent_row) : Prop :=
  oc_revoked_at c = None ∧ oc_resource c = resource ∧ (t < oc_expires_at c)%Z ∧
  (∃ s, live_session (oc_user_id c) (oc_session_id c) s) ∧
  (∃ cl, oauth_clients db !! oc_client_id c = Some cl ∧ cl_enabled cl = true).
Definition fresh_token (id : uuid) (k : oauth_token_row) : Prop :=
  oauth_tokens db !! id = None ∧ ot_rotated_at k = None ∧ ot_created_at k = t ∧ (ot_expires_at k <= t + 10 * Minute)%Z ∧
  map_Forall (λ _ k', ot_access_hash k' ≠ ot_access_hash k ∧ ot_refresh_hash k' ≠ ot_refresh_hash k) (oauth_tokens db).

Inductive oauth_step : OAuthDB → Prop :=
  | step_none : oauth_step (t_oauth (db_identity db))
  | step_request id r cl :
      oauth_requests db !! id = None → oauth_clients db !! or_client_id r = Some cl → cl_enabled cl = true →
      (or_redirect_uri r = "" ∨ or_redirect_uri r = cl_redirect_uri cl) → validChallenge (or_challenge r) = true →
      or_resource r = resource → or_expires_at r = (t + 5 * Minute)%Z → or_consumed_at r = None →
      oauth_step (upd_t_mcp_oauth_requests <[id := r]> (t_oauth (db_identity db)))
  | step_refuse id r :
      oauth_requests db !! id = Some r → open_request r →
      oauth_step (upd_t_mcp_oauth_requests <[id := consumed_request t r]> (t_oauth (db_identity db)))
  | step_approve id r user sid s consent c h k :
      oauth_requests db !! id = Some r → open_request r →
      live_session user sid s → (t - 10 * Minute < se_created_at s)%Z →
      oauth_consents db !! consent = None →
      c = mkConsent user sid (or_client_id r) resource (or_scope r) (Z.min (t + 8 * Hour) (se_expires_at s)) None →
      oauth_codes db !! h = None →
      k = mkCode consent (or_redirect_uri r) (or_challenge r) (t + 60 * Second) None →
      oauth_step (upd_t_mcp_oauth_codes <[h := k]> (upd_t_mcp_oauth_consents <[consent := c]>
                    (upd_t_mcp_oauth_requests <[id := consumed_request t r]> (t_oauth (db_identity db)))))
  | step_exchange h k c family f id tok :
      oauth_codes db !! h = Some k → od_consumed_at k = None → (t < od_expires_at k)%Z →
      oauth_consents db !! od_consent_id k = Some c → live_consent c →
      oauth_families db !! family = None → f = mkFamily (od_consent_id k) (oc_expires_at c) None t →
      fresh_token id tok → ot_family_id tok = family → (ot_expires_at tok <= oc_expires_at c)%Z →
      oauth_step (upd_t_mcp_oauth_tokens <[id := tok]> (upd_t_mcp_oauth_families <[family := f]>
                    (upd_t_mcp_oauth_codes <[h := consumed_code t k]> (t_oauth (db_identity db)))))
  | step_rotate old k f c id tok :
      oauth_tokens db !! old = Some k → ot_rotated_at k = None →
      oauth_families db !! ot_family_id k = Some f → live_family t f = true →
      oauth_consents db !! of_consent_id f = Some c → live_consent c →
      fresh_token id tok → ot_family_id tok = ot_family_id k →
      (ot_expires_at tok <= Z.min (of_expires_at f) (oc_expires_at c))%Z →
      oauth_step (upd_t_mcp_oauth_tokens <[id := tok]>
                    (upd_t_mcp_oauth_tokens <[old := rotated_token t k]> (t_oauth (db_identity db))))
  | step_revoke family f :
      oauth_families db !! family = Some f → of_revoked_at f = None →
      oauth_step (upd_t_mcp_oauth_families <[family := revoked_family t f]> (t_oauth (db_identity db))).
End Spec.

(** A step of the implementation also writes the audit log. *)
Definition oauth_move (resource : string) (t : time) (db db' : DB) : Prop :=
  ∃ o, oauth_step resource t db o ∧ same_core (upd_oauth (const o) db) db'.

(** *** Operations and runs *)

Inductive oauth_op :=
  | OpBegin (values : Values)
  | OpPreview (user sid id : uuid)
  | OpDecide (user sid id : uuid) (approve : bool)
  | OpExchange (r : TokenRequest)
  | OpValidate (raw : string)
  | OpRevoke (raw client : string)
  | OpList (p : Policy.Principal)
  | OpRevokeDelegation (p : Policy.Principal) (family : uuid).

Section Runs.
Context `{N : NetURL} `{U : UUIDParse} `{P : Primitives} (s : Service).

Definition run_op (o : oauth_op) : Tx unit :=
  match o with
  | OpBegin v => _ ← BeginAuthorization s v; mret ()
  | OpPreview u sid id => _ ← Preview s u sid id; mret ()
  | OpDecide u sid id a => _ ← Decide s u sid id a; mret ()
  | OpExchange r => _ ← Exchange s r; mret ()
  | OpValidate raw => _ ← Validate s raw; mret ()
  | OpRevoke raw c => Revoke s raw c
  | OpList p => _ ← ListDelegations s p; mret ()
  | OpRevokeDelegation p f => RevokeDelegation s p f
  end.

(** A run: operations, successful or not, time passing, and the rest of the
    server, which only reads the OAuth tables. *)
Inductive oauth_run : World → World → Prop :=
  | run_stop w : oauth_run w w
  | run_step o w x w1 w2 : run_op o w = (x, w1) → oauth_run w1 w2 → oauth_run w w2
  | run_other w w1 w2 :
      (w_now w <= w_now w1)%Z → t_oauth (db_identity (w_db w1)) = t_oauth (db_identity (w_db w)) →
      oauth_run w1 w2 → oauth_run w w2.
End Runs.

(** *** The invariant *)

Record oauth_wf (o : OAuthDB) : Prop := {
  code_consent h k : t_mcp_oauth_codes o !! h = Some k → is_Some (t_mcp_oauth_consents o !! od_consent_id k);
  (** one code per consent *)
  code_unique h h' k k' :
    t_mcp_oauth_codes o !! h = Some k → t_mcp_oauth_codes o !! h' = Some k' → od_consent_id k = od_consent_id k' → h = h';
  family_bounded i f :
    t_mcp_oauth_families o !! i = Some f →
    ∃ c, t_mcp_oauth_consents o !! of_consent_id f = Some c ∧ (of_expires_at f <= oc_expires_at c)%Z;
  (** a family only from a code that was used *)
  family_code i f h k :
    t_mcp_oauth_families o !! i = Some f → t_mcp_oauth_codes o !! h = Some k → od_consent_id k = of_consent_id f →
    is_Some (od_consumed_at k);
  (** one family per consent *)
  family_unique i i' f f' :
    t_mcp_oauth_families o !! i = Some f → t_mcp_oauth_families o !! i' = Some f' → of_consent_id f = of_consent_id f' → i = i';
  token_bounded i k :
    t_mcp_oauth_tokens o !! i = Some k →
    ∃ f, t_mcp_oauth_families o !! ot_family_id k = Some f ∧ (ot_expires_at k <= of_expires_at f)%Z;
  (** one usable token per family *)
  token_unique i i' k k' :
    t_mcp_oauth_tokens o !! i = Some k → t_mcp_oauth_tokens o !! i' = Some k' → ot_family_id k = ot_family_id k' →
    ot_rotated_at k = None → ot_rotated_at k' = None → i = i';
  access_unique i i' k k' :
    t_mcp_oauth_tokens o !! i = Some k → t_mcp_oauth_tokens o !! i' = Some k' → ot_access_hash k = ot_access_hash k' → i = i';
  refresh_unique i i' k k' :
    t_mcp_oauth_tokens o !! i = Some k → t_mcp_oauth_tokens o !! i' = Some k' → ot_refresh_hash k = ot_refresh_hash k' → i = i';
}.

(** ** Lemmas *)

Lemma oauth_move_none resource t db db' : same_core db db' → oauth_move resource t db db'.
Proof.
  intros H. exists (t_oauth (db_identity db)). split; [constructor|]. etrans; [|exact H].
  destruct db as [[] ? ? ? ? ? ?]. by repeat split.
Qed.

(** *** The invariant along steps *)

Ltac at_insert := repeat match goal with
  | H : <[_ := _]> _ !! _ = Some _ |- _ => apply lookup_insert_Some in H as [[? ?]|[? H]]; subst; cbn in *
  end.

Section Invariant.
Context (resource : string) (t : time) (db : DB) (W : oauth_wf (t_oauth (db_identity db))).
Let o := t_oauth (db_identity db).

Lemma wf_requests g : oauth_wf (upd_t_mcp_oauth_requests g o).
Proof. destruct W. by split. Qed.

Lemma wf_approve g consent c h k :
  oauth_consents db !! consent = None → oauth_codes db !! h = None → od_consent_id k = consent →
  oauth_wf (upd_t_mcp_oauth_codes <[h := k]> (upd_t_mcp_oauth_consents <[consent := c]> (upd_t_mcp_oauth_requests g o))).
Proof.
  intros Hno Hno' <-. destruct W as [W1 W2 W3 W4 W5 W6 W7 W8 W9].
  assert (∀ x, ¬ t_mcp_oauth_consents o !! od_consent_id k = Some x) as Hn by (unfold oauth_consents in Hno; intros x; subst o; congruence).
  split; cbn; try assumption.
  - intros h' k' H. at_insert; [by rewrite lookup_insert_eq|].
    destruct (W1 _ _ H) as [x Hx]. rewrite lookup_insert_ne; [by exists x|]. intros E. rewrite <-E in Hx. by eapply Hn.
  - intros h1 h2 k1 k2 H1 H2 E. at_insert; try done.
    + destruct (W1 _ _ H1) as [x Hx]. rewrite E in Hx. by apply Hn in Hx.
    + destruct (W1 _ _ H2) as [x Hx]. rewrite <-E in Hx. by apply Hn in Hx.
    + eauto.
  - intros i f H. destruct (W3 _ _ H) as (x & Hx & Hb). exists x. split; [|done]. rewrite lookup_insert_ne; [done|].
    intros E. rewrite <-E in Hx. by apply Hn in Hx.
  - intros i f h' k' H H' E. at_insert; [|eauto]. destruct (W3 _ _ H) as (x & Hx & _). rewrite <-E in Hx. by apply Hn in Hx.
Qed.

Lemma wf_exchange h k c family f id tok :
  oauth_codes db !! h = Some k → od_consumed_at k = None → oauth_consents db !! od_consent_id k = Some c →
  oauth_families db !! family = None → f = mkFamily (od_consent_id k) (oc_expires_at c) None t →
  fresh_token t db id tok → ot_family_id tok = family → (ot_expires_at tok <= oc_expires_at c)%Z →
  oauth_wf (upd_t_mcp_oauth_tokens <[id := tok]> (upd_t_mcp_oauth_families <[family := f]>
              (upd_t_mcp_oauth_codes <[h := consumed_code t k]> o))).
Proof.
  intros Hk Hu Hc Hno -> (Hno' & _ & _ & _ & Hfr) <- Hb. destruct W as [W1 W2 W3 W4 W5 W6 W7 W8 W9]. split; cbn.
  - intros h' k' H. at_insert; eauto.
  - intros h1 h2 k1 k2 H1 H2 E. at_insert; eauto.
  - intros i f H. at_insert; [|eauto]. exists c. split; [done|lia].
  - intros i f h' k' H H' E. at_insert; cbn; try by eexists.
    + destruct (W2 _ _ _ _ Hk H' (eq_sym E)). done.
    + eauto.
  - assert (∀ i f, t_mcp_oauth_families o !! i = Some f → of_consent_id f ≠ od_consent_id k) as Hn.
    { intros i f H E. destruct (W4 _ _ _ _ H Hk (eq_sym E)) as [x Hx]. congruence. }
    intros i i' f f' H H' E. at_insert; [done|by eapply Hn in E|symmetry in E; by eapply Hn in E|by eauto].
  - intros i k' H. at_insert; [rewrite lookup_insert_eq; eexists; by split|].
    destruct (W6 _ _ H) as (f & Hf & Hle). exists f. split; [|done]. rewrite lookup_insert_ne; [done|].
    intros E. rewrite <-E in Hf. unfold oauth_families in Hno. subst o. congruence.
  - assert (∀ i k', t_mcp_oauth_tokens o !! i = Some k' → ot_family_id k' ≠ ot_family_id tok) as Hn.
    { intros i k' H E. destruct (W6 _ _ H) as (f & Hf & _). rewrite E in Hf. unfold oauth_families in Hno. subst o. congruence. }
    intros i i' k1 k2 H1 H2 E R1 R2. at_insert; try done; [by apply Hn in H1|by apply Hn in H2|by eauto].
  - intros i i' k1 k2 H1 H2 E. at_insert; try done; [by apply Hfr in H1 as [? _]|by apply Hfr in H2 as [? _]|by eauto].
  - intros i i' k1 k2 H1 H2 E. at_insert; try done; [by apply Hfr in H1 as [_ ?]|by apply Hfr in H2 as [_ ?]|by eauto].
Qed.

Lemma wf_rotate old k f id tok :
  oauth_tokens db !! old = Some k → ot_rotated_at k = None → oauth_families db !! ot_family_id k = Some f →
  fresh_token t db id tok → ot_family_id tok = ot_family_id k → (ot_expires_at tok <= of_expires_at f)%Z →
  oauth_wf (upd_t_mcp_oauth_tokens <[id := tok]> (upd_t_mcp_oauth_tokens <[old := rotated_token t k]> o)).
Proof.
  intros Hk Hr Hf (Hno & _ & _ & _ & Hfr) Htf Hb. destruct W as [W1 W2 W3 W4 W5 W6 W7 W8 W9]. split; cbn; try assumption.
  - intros i k' H. at_insert; [rewrite Htf; by exists f|exact (W6 _ _ Hk)|by eauto].
  - assert (∀ i k', t_mcp_oauth_tokens o !! i = Some k' → ot_family_id k' = ot_family_id k → ot_rotated_at k' = None → old = i) as Hn.
    { intros i k' H E R. by eapply W7. }
    intros i i' k1 k2 H1 H2 E R1 R2. at_insert; try done; try congruence.
    + destruct (Hn _ _ H1); congruence.
    + destruct (Hn _ _ H2); congruence.
    + eauto.
  - intros i i' k1 k2 H1 H2 E. at_insert; try done; try (by eapply Hfr in Hk as [? ?]); try (by eapply Hfr in H1 as [? ?]); try (by eapply Hfr in H2 as [? ?]); eauto.
  - intros i i' k1 k2 H1 H2 E. at_insert; try done; try (by eapply Hfr in Hk as [? ?]); try (by eapply Hfr in H1 as [? ?]); try (by eapply Hfr in H2 as [? ?]); eauto.
Qed.

Lemma wf_revoke family f :
  oauth_families db !! family = Some f → oauth_wf (upd_t_mcp_oauth_families <[family := revoked_family t f]> o).
Proof.
  intros Hf. destruct W as [W1 W2 W3 W4 W5 W6 W7 W8 W9]. split; cbn; try assumption.
  - intros i f' H. at_insert; [exact (W3 _ _ Hf)|eauto].
  - intros i f' h k H Hk E. at_insert; [exact (W4 _ _ _ _ Hf Hk E)|eauto].
  - intros i i' f1 f2 H1 H2 E. at_insert; eauto.
  - intros i k H. destruct (W6 _ _ H) as (f' & Hf' & Hb). destruct (decide (family = ot_family_id k)) as [->|Hne].
    + rewrite lookup_insert_eq. eexists. split; [done|]. unfold oauth_families in Hf. subst o. rewrite Hf in Hf'. by injection Hf' as <-.
    + rewrite lookup_insert_ne; [|done]. by exists f'.
Qed.

Lemma oauth_step_wf o' : oauth_step resource t db o' → oauth_wf o'.
Proof.
  destruct 1 as [|id r cl|id r|id r user sid s consent c h k ? ? ? ? ? -> ? ->|h k c family f id tok ? ? ? ? ? ? -> ? ? ?
    |old k f c id tok ? ? ? ? ? ? ? ? ?|family f].
  - exact W.
  - apply wf_requests.
  - apply wf_requests.
  - by eapply wf_approve.
  - by eapply wf_exchange.
  - eapply wf_rotate; try done. lia.
  - by apply wf_revoke.
Qed.
End Invariant.

(** *** What persists along steps *)

(** Nothing is deleted, and the marks are written once. *)
Record oauth_grows (o o' : OAuthDB) : Prop := {
  grows_consent i c : t_mcp_oauth_consents o !! i = Some c → t_mcp_oauth_consents o' !! i = Some c;
  grows_code h k :
    t_mcp_oauth_codes o !! h = Some k →
    ∃ k', t_mcp_oauth_codes o' !! h = Some k' ∧ od_consent_id k' = od_consent_id k ∧ (is_Some (od_consumed_at k) → k' = k);
  grows_family i f :
    t_mcp_oauth_families o !! i = Some f →
    ∃ f', t_mcp_oauth_families o' !! i = Some f' ∧ of_consent_id f' = of_consent_id f ∧ (is_Some (of_revoked_at f) → f' = f);
  grows_token i k :
    t_mcp_oauth_tokens o !! i = Some k →
    ∃ k', t_mcp_oauth_tokens o' !! i = Some k' ∧ ot_family_id k' = ot_family_id k ∧ ot_access_hash k' = ot_access_hash k ∧
      ot_refresh_hash k' = ot_refresh_hash k ∧ (is_Some (ot_rotated_at k) → k' = k);
}.
#[export] Instance oauth_grows_preorder : PreOrder oauth_grows.
Proof.
  split.
  - intros o. split; eauto 10.
  - intros a b c [C1 D1 F1 T1] [C2 D2 F2 T2]. split; [auto|..].
    + intros h k H. destruct (D1 _ _ H) as (k1 & H1 & E1 & U1). destruct (D2 _ _ H1) as (k2 & H2 & E2 & U2).
      exists k2. split_and!; [done|congruence|]. intros U. pose proof (U1 U) as ->. auto.
    + intros h k H. destruct (F1 _ _ H) as (k1 & H1 & E1 & U1). destruct (F2 _ _ H1) as (k2 & H2 & E2 & U2).
      exists k2. split_and!; [done|congruence|]. intros U. pose proof (U1 U) as ->. auto.
    + intros h k H. destruct (T1 _ _ H) as (k1 & H1 & E1 & E1' & E1'' & U1). destruct (T2 _ _ H1) as (k2 & H2 & E2 & E2' & E2'' & U2).
      exists k2. split_and!; [done|congruence..|]. intros U. pose proof (U1 U) as ->. auto.
Qed.

(** A row that was not there, and one whose mark was not set. *)
Lemma grows_insert {K V} `{Countable K} (m : gmap K V) k v (Q : V → V → Prop) i x :
  m !! k = None → m !! i = Some x → Q x x → ∃ x', <[k := v]> m !! i = Some x' ∧ Q x x'.
Proof. intros Hk Hi Hq. exists x. split; [|done]. rewrite lookup_insert_ne; [done|congruence]. Qed.
Lemma grows_update {K V} `{Countable K} (m : gmap K V) k v v' (Q : V → V → Prop) i x :
  m !! k = Some v → Q v v' → m !! i = Some x → Q x x → ∃ x', <[k := v']> m !! i = Some x' ∧ Q x x'.
Proof.
  intros Hk Hv Hi Hq. destruct (decide (k = i)) as [->|Hne].
  - rewrite lookup_insert_eq. exists v'. split; [done|]. congruence.
  - exists x. split; [|done]. by rewrite lookup_insert_ne.
Qed.

Lemma oauth_step_grows resource t db o' : oauth_step resource t db o' → oauth_grows (t_oauth (db_identity db)) o'.
Proof.
  destruct 1 as [|id r cl|id r|id r user sid s consent c h k ? ? ? ? ? -> ? ->|h k c family f id tok ? ? ? ? ? ? -> [? _] ? ?
    |old k f c id tok ? ? ? ? ? ? [? _] ? ?|family f]; [done|by split; eauto 10..| | | |].
  - split; cbn; [|intros i x Hx; by eapply (grows_insert (t_mcp_oauth_codes _) _ _ (λ x x', od_consent_id x' = od_consent_id x ∧ _))|eauto 10..].
    intros i x Hx. rewrite lookup_insert_ne; [done|]. unfold oauth_consents in *. congruence.
  - split; cbn; [done|intros i x Hx|intros i x Hx|intros i x Hx].
    + eapply (grows_update (t_mcp_oauth_codes _) _ _ _ (λ x x', od_consent_id x' = od_consent_id x ∧ (is_Some (od_consumed_at x) → x' = x)));
        try done. split; [done|]. intros [y Hy]. congruence.
    + by eapply (grows_insert (t_mcp_oauth_families _) _ _ (λ x x', of_consent_id x' = of_consent_id x ∧ (is_Some (of_revoked_at x) → x' = x))).
    + by eapply (grows_insert (t_mcp_oauth_tokens _) _ _ (λ x x', ot_family_id x' = ot_family_id x ∧ ot_access_hash x' = ot_access_hash x ∧
        ot_refresh_hash x' = ot_refresh_hash x ∧ (is_Some (ot_rotated_at x) → x' = x))).
  - split; cbn; [eauto 10..|]. intros i x Hx.
    destruct (grows_update (t_mcp_oauth_tokens (t_oauth (db_identity db))) old k (rotated_token t k)
      (λ x x', ot_family_id x' = ot_family_id x ∧ ot_access_hash x' = ot_access_hash x ∧
        ot_refresh_hash x' = ot_refresh_hash x ∧ (is_Some (ot_rotated_at x) → x' = x)) i x) as (x' & Hx' & Hq); try done.
    + split_and!; [done..|]. intros [y Hy]. congruence.
    + exists x'. split; [|done]. rewrite lookup_insert_ne; [done|]. unfold oauth_tokens in *. congruence.
  - split; cbn; [eauto 10..| |eauto 10]. intros i x Hx.
    eapply (grows_update (t_mcp_oauth_families _) _ _ _ (λ x x', of_consent_id x' = of_consent_id x ∧ (is_Some (of_revoked_at x) → x' = x)));
      try done. split; [done|]. intros [y Hy]. congruence.
Qed.

Section Facts.
Context `{N : NetURL} `{U : UUIDParse} `{P : Primitives} (s : Service).

(** *** Reads *)

Lemma reads_scan_or {A} e (m : Tx A) : reads m → reads (scan_or e m).
Proof.
  intros Hm. split; intros w r w' H; unfold scan_or in H; destruct (m w) as [[] w1] eqn:E; simplify_eq;
    by eapply Hm.
Qed.
Lemma reads_parent user sid recent : reads (parent user sid recent).
Proof.
  apply reads_bind; [|intros _]; apply reads_on_err; [|apply reads_query_row].
  destruct recent; auto with reads.
Qed.
Lemma reads_client tx id redirect : reads (client tx id redirect).
Proof.
  apply reads_bind; [apply reads_scan_or, reads_query_row|intros c].
  apply reads_bind; [destruct tx; [apply reads_note_lock|apply reads_ret]|intros _].
  destruct (_ || _); [apply reads_fail|apply reads_ret].
Qed.
Lemma reads_loadRequest id lock : reads (loadRequest s id lock).
Proof.
  apply reads_bind; [apply reads_attempt, reads_query_row|intros x].
  apply reads_bind; [destruct x; [destruct lock|]; auto using reads_note_lock, reads_ret|intros _].
  apply reads_bind; [apply reads_get|intros t]. destruct (match x with Ok r => r | Err _ => zero_request end) as [r h].
  destruct (_ || _); [apply reads_fail|destruct x; [apply reads_ret|apply reads_fail]].
Qed.
Lemma reads_discover h refresh : reads (discover h refresh).
Proof. apply reads_scan_or, reads_query_row. Qed.
Lemma reads_lockConsent l : reads (lockConsent s l).
Proof.
  apply reads_bind; [apply reads_on_err, reads_query_row|intros c]. apply reads_bind; [apply reads_note_lock|intros _].
  apply reads_bind; [apply reads_get|intros t]. destruct (_ || _); [apply reads_fail|].
  apply reads_bind; [apply reads_client|intros _; apply reads_ret].
Qed.
Lemma reads_token : reads token.
Proof. apply reads_bind; [|intros; apply reads_ret]. split; [apply keeps_rand_bytes, _|apply forward_rand_bytes]. Qed.
Lemma reads_RequireGrantTx p id : reads (RequireGrantTx s p id).
Proof.
  apply reads_bind; [apply reads_get|intros t]. destruct (_ || _); [apply reads_fail|].
  apply reads_bind; [apply reads_on_err, reads_query_row|intros fc]. apply reads_bind; [apply reads_check|intros _].
  apply reads_bind; [apply reads_on_err, reads_query_row|intros c]. apply reads_bind; [apply reads_note_lock|intros _].
  apply reads_bind; [apply reads_check|intros _].
  apply reads_bind; [apply reads_on_err, reads_query_row|intros f]. apply reads_bind; [apply reads_note_lock|intros _].
  apply reads_bind; [apply reads_check|intros _]. destruct (uuid_Parse _) as [k|]; [|apply reads_fail].
  destruct (bool_decide _); [apply reads_fail|].
  apply reads_bind; [apply reads_on_err, reads_query_row|intros _]. apply reads_bind; [apply reads_note_lock|intros _].
  apply reads_bind; [apply reads_client|intros _; apply reads_ret].
Qed.
#[local] Hint Resolve reads_scan_or reads_attempt reads_parent reads_client reads_loadRequest reads_discover reads_lockConsent
  reads_token reads_RequireGrantTx : reads.

(** *** What the admission steps establish *)

Lemma scan_or_Ok {A} e (m : Tx A) a w w' : scan_or e m w = (Ok a, w') ↔ m w = (Ok a, w').
Proof. unfold scan_or. destruct (m w) as [[]]; naive_solver. Qed.

Lemma parent_Ok user sid recent e w w' :
  parent user sid recent w = (Ok e, w') →
  ∃ ss, live_session (w_now w) (w_db w) user sid ss ∧ e = se_expires_at ss ∧
    (recent = true → (w_now w - 10 * Minute < se_created_at ss)%Z).
Proof.
  unfold parent. intros H. read_step H as u1 Hu S1.
  apply on_err_Ok in Hu. apply on_err_Ok, query_row_Ok in H as [Hs _]. destruct S1 as (E & T & _). rewrite E in Hs.
  apply fmap_Some in Hs as (ss & Hs & ->).
  assert (∃ s', sessions (w_db w) !! sid = Some s' ∧ session_live (w_now w) (human user sid) recent s' = true) as (s' & Hs' & Hl).
  { destruct recent; apply bind_Ok in Hu as (u2 & w2 & [_ (E2 & T2 & _)]%LockSubjects_Ok & Hu);
      apply RequireSession_Ok in Hu as ((s' & Hs' & Hl) & _); rewrite E2 in Hs'; rewrite T2 in Hl; by exists s'. }
  assert (s' = ss) as ->.
  { unfold session_of in Hs. rewrite Hs' in Hs. cbn in Hs. case_bool_decide; congruence. }
  unfold session_live in Hl. rewrite !andb_true_iff in Hl. destruct Hl as (((_ & Hr) & Hx) & Hc). b2p.
  exists ss. split_and!; try done. intros ->. destruct Hc as [Hc|Hc]; [done|lia].
Qed.

Lemma client_Ok tx id redirect h w w' :
  client tx id redirect w = (Ok h, w') →
  ∃ cl, oauth_clients (w_db w) !! id = Some cl ∧ cl_enabled cl = true ∧ h = cl_harness cl ∧
    (redirect = "" ∨ redirect = cl_redirect_uri cl).
Proof.
  unfold client. intros H. apply bind_Ok in H as (cl & w1 & Hc & H). apply scan_or_Ok, query_row_Ok in Hc as [Hc ->].
  read_step H as u1 Hu S1.
  destruct (_ || _) eqn:E; [done|]. apply ret_Ok in H as [<- _]. exists cl. split; [done|].
  apply orb_false_iff in E as [E1%negb_false_iff E2]. split; [done|]. split; [done|].
  apply andb_false_iff in E2 as [E2|E2]; apply negb_false_iff, bool_decide_eq_true in E2; auto.
Qed.

Lemma loadRequest_Ok id lock q w w' :
  loadRequest s id lock w = (Ok q, w') →
  ∃ r cl, oauth_requests (w_db w) !! id = Some r ∧ open_request (resource_ s) (w_now w) r ∧
    oauth_clients (w_db w) !! or_client_id r = Some cl ∧ cl_enabled cl = true ∧
    q = mkAuthorizationRequest id (or_client_id r) (cl_harness cl) (or_resource r) (or_redirect_uri r) (or_scope r)
          (or_state r) (or_challenge r) (or_expires_at r).
Proof.
  unfold loadRequest. intros H. apply bind_Ok in H as (x & w1 & Hx & H). rewrite attempt_Ok in Hx.
  read_step H as u1 Hu S1.
  apply bind_Ok in H as (t & w3 & [-> ->]%now_Ok & H). destruct S1 as (_ & T & _).
  assert (w_now w1 = w_now w) as T1.
  { apply (reads_run (query_row (request_row id))) in Hx as (_ & ? & _); [done|auto with reads]. }
  destruct x as [[r h]|e]; [|unfold zero_request in H; cbv beta iota zeta in H; by destruct (_ || _)].
  apply query_row_Ok in Hx as [Hr _]. unfold request_row in Hr.
  apply bind_Some in Hr as (r' & Hr' & Hr). apply bind_Some in Hr as (cl & Hcl & Hr). destruct (cl_enabled cl) eqn:He; [|done].
  injection Hr as -> <-. destruct (_ || _) eqn:E; [done|]. apply ret_Ok in H as [<- _].
  rewrite !orb_false_iff, !negb_false_iff, !bool_decide_eq_true in E. destruct E as (((_ & E1) & E2) & E3).
  unfold After in E2. rewrite T, T1 in E2. b2p. exists r, cl. by split_and!.
Qed.

Lemma discover_Ok h refresh l w w' :
  discover h refresh w = (Ok l, w') →
  ∃ id k f c, token_by (if refresh then by_refresh h else by_access h) (w_db w) = Some (id, k) ∧
    oauth_families (w_db w) !! ot_family_id k = Some f ∧ oauth_consents (w_db w) !! of_consent_id f = Some c ∧
    l = mkLineage (of_consent_id f) (oc_user_id c) (oc_session_id c) (ot_family_id k) id (oc_client_id c) (oc_scope c)
          (oc_expires_at c).
Proof.
  unfold discover. intros H%scan_or_Ok. apply query_row_Ok in H as [H _].
  apply bind_Some in H as ([id k] & Hk & H). apply bind_Some in H as ([f c] & Hf & [= <-]). unfold family_consent in Hf.
  apply bind_Some in Hf as (f' & Hf' & Hf). apply bind_Some in Hf as (c' & Hc & [= -> ->]). by exists id, k, f, c.
Qed.

Lemma lockConsent_Ok l l' w w' :
  lockConsent s l w = (Ok l', w') → (∃ ss, live_session (w_now w) (w_db w) (ln_user l) (ln_sid l) ss) →
  ∃ c, oauth_consents (w_db w) !! ln_consent l = Some c ∧ live_consent (resource_ s) (w_now w) (w_db w) c ∧
    oc_user_id c = ln_user l ∧ oc_session_id c = ln_sid l ∧
    l' = mkLineage (ln_consent l) (ln_user l) (ln_sid l) (ln_family l) (ln_token l) (oc_client_id c) (oc_scope c) (oc_expires_at c).
Proof.
  unfold lockConsent. intros H Hs. apply bind_Ok in H as (c & w1 & Hc & H). apply on_err_Ok, query_row_Ok in Hc as [Hc ->].
  apply bind_Some in Hc as (c' & Hc' & Hc). destruct (_ && _) eqn:E in Hc; [|done]. injection Hc as ->.
  apply andb_true_iff in E as [Eu Es]. b2p. apply bind_Ok in H as (u & w2 & ->%note_lock_Ok & H).
  apply bind_Ok in H as (t & w3 & [-> ->]%now_Ok & H). destruct (_ || _) eqn:E in H; [done|].
  rewrite !orb_false_iff, !negb_false_iff, !bool_decide_eq_true in E. destruct E as ((E1 & E2) & E3). unfold After in E3. b2p.
  apply bind_Ok in H as (h & w4 & (cl & Hcl & He & _)%client_Ok & [<- _]%ret_Ok). cbn in *.
  exists c. split; [done|]. split; [|by split_and!]. split_and!; try done; [rewrite Eu, Es; exact Hs|by exists cl].
Qed.

(** *** The transaction *)

Lemma begin_run {A} (body : Tx (A * bool)) w r w' :
  begin body w = (r, w') →
  (r = Err ErrUnavailable ∧ w_db w' = w_db w) ∨
  ∃ w1 x w2, at_same w w1 ∧ body w1 = (x, w2) ∧
    match x with
    | Ok (a, c) => r = Ok a ∧ w_db w' = if c then w_db w2 else w_db w
    | Err e => r = Err e ∧ w_db w' = w_db w
    end.
Proof.
  unfold begin. intros [(x & w0 & E & [= -> ->])|(e & E & ->)]%bind_run.
  - right. apply on_err_Ok, with_tx_opt_Ok in E as (c & w1 & E & Hdb).
    apply bind_Ok in E as (u & w2 & ->%exec__Ok & E). apply bind_Ok in E as (y & w3 & Hy & [E <-]%ret_Ok). rewrite attempt_Ok in Hy.
    eexists _, y, w3. split; [|split; [exact Hy|]]; [by split_and!|].
    destruct y as [[a c']|e]; injection E as <- <-; (split; [done|]); rewrite Hdb; [by destruct c'|done].
  - left. apply on_err_Err in E as [-> [e0 E]]. split; [done|]. by eapply with_tx_opt_Err.
Qed.
Lemma begin_Ok {A} (body : Tx (A * bool)) w a w' :
  begin body w = (Ok a, w') →
  ∃ w1 c w2, at_same w w1 ∧ body w1 = (Ok (a, c), w2) ∧ w_db w' = if c then w_db w2 else w_db w.
Proof.
  intros [[? _]|(w1 & x & w2 & S & H & Hx)]%begin_run; [done|]. destruct x as [[b c]|e]; destruct Hx as [[= <-] E].
  by exists w1, c, w2.
Qed.
Lemma begin_Err {A} (body : Tx (A * bool)) w e w' : begin body w = (Err e, w') → w_db w' = w_db w.
Proof. intros [[_ ?]|(w1 & [[b c]|e'] & w2 & S & H & Hr & E)]%begin_run; done. Qed.
Lemma forward_begin {A} (body : Tx (A * bool)) : forward body → forward (begin body).
Proof. intros Hb. unfold begin. forward_tac. Qed.

(** *** Effects *)

Lemma insert_request_Some id r db db' :
  insert_request id r db = Some db' →
  oauth_requests db !! id = None ∧ db' = upd_oauth (upd_t_mcp_oauth_requests <[id := r]>) db.
Proof. unfold insert_request. destruct (_ || _) eqn:E; [done|]. intros [= <-]. b2p. split; [by apply eq_None_not_Some; intuition|done]. Qed.
Lemma insert_consent_Some id c db db' :
  insert_consent id c db = Some db' →
  oauth_consents db !! id = None ∧ db' = upd_oauth (upd_t_mcp_oauth_consents <[id := c]>) db.
Proof. unfold insert_consent. destruct (_ || _) eqn:E; [done|]. intros [= <-]. b2p. split; [by apply eq_None_not_Some; intuition|done]. Qed.
Lemma insert_code_Some h k db db' :
  insert_code h k db = Some db' →
  oauth_codes db !! h = None ∧ db' = upd_oauth (upd_t_mcp_oauth_codes <[h := k]>) db.
Proof. unfold insert_code. destruct (_ || _) eqn:E; [done|]. intros [= <-]. b2p. split; [by apply eq_None_not_Some; intuition|done]. Qed.
Lemma insert_family_Some id f db db' :
  insert_family id f db = Some db' →
  oauth_families db !! id = None ∧ db' = upd_oauth (upd_t_mcp_oauth_families <[id := f]>) db.
Proof. unfold insert_family. destruct (_ || _) eqn:E; [done|]. intros [= <-]. b2p. split; [by apply eq_None_not_Some; intuition|done]. Qed.
Lemma insert_token_Some id k db db' :
  insert_token id k db = Some db' →
  oauth_tokens db !! id = None ∧
  map_Forall (λ _ k', ot_access_hash k' ≠ ot_access_hash k ∧ ot_refresh_hash k' ≠ ot_refresh_hash k) (oauth_tokens db) ∧
  db' = upd_oauth (upd_t_mcp_oauth_tokens <[id := k]>) db.
Proof.
  unfold insert_token. destruct (_ || _) eqn:E; [done|]. intros [= <-]. b2p. destruct E as ((E1 & _) & E2).
  split_and!; [by apply eq_None_not_Some| |done]. intros i k' Hk'. split; intros Heq; apply E2; exists i, k'; auto.
Qed.

(** Updates of a row by its key. *)
Lemma consume_request_one id t r db :
  oauth_requests db !! id = Some r →
  consume_request id t db = upd_oauth (upd_t_mcp_oauth_requests <[id := consumed_request t r]>) db.
Proof. intros H. unfold consume_request, upd_oauth, upd_db_identity, upd_t_oauth, upd_t_mcp_oauth_requests. by rewrite (alter_Some _ _ _ r). Qed.
Lemma consume_code_one h t k db :
  oauth_codes db !! h = Some k → consume_code h t db = upd_oauth (upd_t_mcp_oauth_codes <[h := consumed_code t k]>) db.
Proof. intros H. unfold consume_code, upd_oauth, upd_db_identity, upd_t_oauth, upd_t_mcp_oauth_codes. by rewrite (alter_Some _ _ _ k). Qed.
Lemma revoke_family_one id t f db :
  oauth_families db !! id = Some f →
  revoke_family id t db = upd_oauth (upd_t_mcp_oauth_families <[id := revoked_family t f]>) db.
Proof. intros H. unfold revoke_family, upd_oauth, upd_db_identity, upd_t_oauth, upd_t_mcp_oauth_families. by rewrite (alter_Some _ _ _ f). Qed.
Lemma rotate_token_one id t k db :
  oauth_tokens db !! id = Some k → rotate_token id t db = upd_oauth (upd_t_mcp_oauth_tokens <[id := rotated_token t k]>) db.
Proof. intros H. unfold rotate_token, upd_oauth, upd_db_identity, upd_t_oauth, upd_t_mcp_oauth_tokens. by rewrite (alter_Some _ _ _ k). Qed.

Lemma Before_min (a b : time) : (if Before a b then a else b) = Z.min a b.
Proof. unfold Before. destruct (Z.ltb_spec a b); lia. Qed.

(** A token of 32 random bytes. *)
Definition minted (x : string) : Prop := ∃ pos b, rand_read pos 32 = Some b ∧ x = b64_Encode b.
Definition bears (k : oauth_token_row) (m : TokenResponse) : Prop :=
  ot_access_hash k = hash (tr_AccessToken m) ∧ minted (tr_AccessToken m).
Lemma token_minted x w w' : token w = (Ok x, w') → minted x.
Proof. intros (b & w1 & [Hb _]%rand_bytes_Ok & [<- _]%ret_Ok)%bind_Ok. by eexists _, b. Qed.
Lemma minted_length `{!PrimitivesOk P} x : minted x → String.length x = 43.
Proof. intros (pos & b & Hb%rand_length & ->). by rewrite b64_Encode_length, Hb. Qed.

Lemma issue_Ok l m w w' :
  issue l w = (Ok m, w') →
  ∃ id k, fresh_token (w_now w) (w_db w) id k ∧ ot_family_id k = ln_family l ∧
    ot_expires_at k = Z.min (ln_expires l) (w_now w + 10 * Minute) ∧ bears k m ∧
    ot_refresh_hash k = hash (tr_RefreshToken m) ∧ tr_Scope m = ln_scope l ∧
    tr_ExpiresIn m = Z.quot (ot_expires_at k - w_now w) Second ∧
    w_db w' = upd_oauth (upd_t_mcp_oauth_tokens <[id := k]>) (w_db w).
Proof.
  unfold issue. intros H. read_step H as access Ha S1. read_step H as refresh Hr S2.
  apply on_err_Ok, token_minted in Ha.
  apply bind_Ok in H as (t & w3 & [-> ->]%now_Ok & H). cbv zeta in H. rewrite Before_min in H.
  apply bind_Ok in H as (id & w3 & [-> ->]%uuid_New_Ok & H). apply bind_Ok in H as (u & w4 & Hi & [<- <-]%ret_Ok).
  apply on_err_Ok, exec_Ok in Hi as (db & Hi%insert_token_Some & ->). pose proof (transitivity S1 S2) as (E & T & _).
  cbn in *. rewrite E, T in *. destruct Hi as (Hno & Hfresh & ->). eexists _, _.
  split; [|split_and!; [..|reflexivity]; done]. split_and!; try done. cbn. lia.
Qed.

Lemma auditTx_core user a d : keeps same_core (auditTx s user a d).
Proof. apply audit_core. Qed.
Lemma audited user a d e (u : unit) w w' :
  on_err e (auditTx s user a d) w = (Ok u, w') → same_core (w_db w) (w_db w').
Proof. intros H%on_err_Ok. by eapply auditTx_core. Qed.

(** *** The operations *)


Lemma exchange_code_Ok r m w w' :
  exchange_code s r w = (Ok m, w') →
  ∃ k c family id tok, oauth_codes (w_db w) !! hash (tq_Code r) = Some k ∧
    od_consumed_at k = None ∧ (w_now w < od_expires_at k)%Z ∧
    oauth_consents (w_db w) !! od_consent_id k = Some c ∧ live_consent (resource_ s) (w_now w) (w_db w) c ∧
    (oc_client_id c = tq_ClientID r ∧ od_redirect_uri k = tq_RedirectURI r ∧ s256 (tq_Verifier r) = od_challenge k) ∧
    oauth_families (w_db w) !! family = None ∧
    (fresh_token (w_now w) (w_db w) id tok ∧ ot_family_id tok = family ∧
     ot_expires_at tok = Z.min (oc_expires_at c) (w_now w + 10 * Minute) ∧
     bears tok m ∧ ot_refresh_hash tok = hash (tr_RefreshToken m) ∧ tr_Scope m = oc_scope c) ∧
    same_core (upd_oauth (const (upd_t_mcp_oauth_tokens <[id := tok]>
      (upd_t_mcp_oauth_families <[family := mkFamily (od_consent_id k) (oc_expires_at c) None (w_now w)]>
      (upd_t_mcp_oauth_codes <[hash (tq_Code r) := consumed_code (w_now w) k]> (t_oauth (db_identity (w_db w))))))) (w_db w)) (w_db w').
Proof.
  unfold exchange_code. intros H. read_step H as l0 Hl S0. apply scan_or_Ok, query_row_Ok in Hl as [Hl _].
  unfold code_lineage in Hl. apply bind_Some in Hl as (k0 & Hk0 & Hl). apply bind_Some in Hl as (c0 & Hc0 & [= <-]).
  apply begin_Ok in H as (w1 & b & w2 & S1 & H & Hdb). cbn [ln_user ln_sid] in H.
  read_step H as e He S2. apply parent_Ok in He as (ss & Hss & _ & _).
  read_step H as l Hl S3. read_step H as k Hk S4. apply on_err_Ok, query_row_Ok in Hk as [Hk _]. read_step H as u1 Hu1 S5.
  apply bind_Ok in H as (t & w8 & [-> ->]%now_Ok & H). read_step H as u2 Hu2 S6. apply check_Ok in Hu2 as [Hacc _].
  apply lockConsent_Ok in Hl as (c & Hc & Hlive & Hu & Hsid & ->);
    [|destruct S2 as (E2 & T2 & _); rewrite E2, T2; by exists ss].
  apply bind_Ok in H as (u3 & w9 & Hcode & H). apply on_err_Ok, exec__Ok in Hcode as ->.
  apply bind_Ok in H as (family & w9 & [-> ->]%uuid_New_Ok & H). apply bind_Ok in H as (u4 & w9 & Hf & H).
  apply on_err_Ok, exec_Ok in Hf as (db & Hf & ->). apply insert_family_Some in Hf as [Hfno ->].
  apply bind_Ok in H as (m' & w10 & Hi & H). apply issue_Ok in Hi as (id & tok & Hfr & Htf & Hte & Hta & Htr & Hsc & _ & Hw10).
  apply bind_Ok in H as (u5 & w11 & Ha%audited & [[= -> <-] ->]%ret_Ok). cbn in *. settle.
  rewrite Hk0 in Hk. injection Hk as <-. rewrite Hc0 in Hc. injection Hc as <-.
  unfold code_accepted, After in Hacc. rewrite !andb_true_iff in Hacc. destruct Hacc as ((((A1 & A2) & A3) & A4) & A5). b2p.
  rewrite (consume_code_one _ _ k0) in * by done.
  exists k0, c0, (uuid_new (w_rng w7)), id, tok. split_and!; try done.
  rewrite Hdb. etrans; [|exact Ha]. rewrite Hw10. by repeat split.
Qed.

Lemma token_by_Some p db id k : token_by p db = Some (id, k) → oauth_tokens db !! id = Some k ∧ p k = true.
Proof.
  unfold token_by. intros H. apply (elem_of_select (λ _ k, p k)). destruct (select _ _) as [|x l]; [done|]. injection H as ->. by left.
Qed.

Lemma fresh_token_rotated t db id t' i k : fresh_token t (rotate_token id t' db) i k → fresh_token t db i k.
Proof.
  intros (Hno & Hr & Hc & He & Hf). split_and!; try done.
  - apply eq_None_not_Some. intros [x Hx]. apply eq_None_not_Some in Hno. apply Hno. unfold oauth_tokens in *. cbn.
    apply lookup_alter_is_Some. by eexists.
  - intros j x Hj. destruct (decide (j = id)) as [->|Hne].
    + apply (Hf id (rotated_token t' x)). unfold oauth_tokens in *. cbn. by rewrite lookup_alter_eq, Hj.
    + apply (Hf j). unfold oauth_tokens in *. cbn. by rewrite lookup_alter_ne.
Qed.

(** A refresh rotates the token of a live family, or finds it rotated before. *)
Lemma refresh_Ok r ans w w' :
  refresh s r w = (ans, w') →
  (∃ e, ans = Err e ∧ w_db w' = w_db w) ∨
  ∃ id k f c, oauth_tokens (w_db w) !! id = Some k ∧ ot_refresh_hash k = hash (tq_RefreshToken r) ∧
    oauth_families (w_db w) !! ot_family_id k = Some f ∧ live_family (w_now w) f = true ∧
    oauth_consents (w_db w) !! of_consent_id f = Some c ∧ live_consent (resource_ s) (w_now w) (w_db w) c ∧
    oc_client_id c = tq_ClientID r ∧
    ((ot_rotated_at k ≠ None ∧ ans = Err ErrDenied ∧
      same_core (upd_oauth (const (upd_t_mcp_oauth_families <[ot_family_id k := revoked_family (w_now w) f]>
        (t_oauth (db_identity (w_db w))))) (w_db w)) (w_db w')) ∨
     (ot_rotated_at k = None ∧ ∃ m id' tok, ans = Ok m ∧ fresh_token (w_now w) (w_db w) id' tok ∧
        ot_family_id tok = ot_family_id k ∧
        ot_expires_at tok = Z.min (Z.min (of_expires_at f) (oc_expires_at c)) (w_now w + 10 * Minute) ∧
        bears tok m ∧ ot_refresh_hash tok = hash (tr_RefreshToken m) ∧ tr_Scope m = oc_scope c ∧
        same_core (upd_oauth (const (upd_t_mcp_oauth_tokens <[id' := tok]>
          (upd_t_mcp_oauth_tokens <[id := rotated_token (w_now w) k]> (t_oauth (db_identity (w_db w)))))) (w_db w)) (w_db w'))).
Proof.
  unfold refresh. destruct (bool_decide _); [intros [= <- <-]; left; by eexists|]. intros H.
  apply bind_run in H as [(l0 & w1 & Hl0 & H)|(e & H & ->)].
  2:{ left. exists e. split; [done|]. by apply (reads_run (discover _ _)) in H as (? & _); [|auto with reads]. }
  pose proof (reads_run _ _ _ _ (reads_discover _ _) Hl0) as S0. apply discover_Ok in Hl0 as (id0 & k0 & f0 & c0 & Hk0 & Hf0 & Hc0 & ->).
  apply bind_run in H as [(a & w2 & H & [= -> ->])|(e & H & ->)].
  2:{ left. exists e. split; [done|]. apply begin_Err in H as ->. by destruct S0 as (-> & _). }
  apply begin_Ok in H as (w3 & b & w4 & S1 & H & Hdb). cbn [ln_user ln_sid ln_family] in H.
  read_step H as e He S2. apply parent_Ok in He as (ss & Hss & _ & _).
  read_step H as l Hl S3. read_step H as u0 Hu0 S4. read_step H as f Hf S5. apply on_err_Ok, query_row_Ok in Hf as [Hf _].
  read_step H as u1 Hu1 S6. apply bind_Ok in H as (t & w9 & [-> ->]%now_Ok & H). read_step H as u2 Hu2 S7.
  apply check_Ok in Hu2 as [Hlf _]. read_step H as ik Hk S8. apply on_err_Ok, query_row_Ok in Hk as [Hk _]. read_step H as u3 Hu3 S9.
  apply lockConsent_Ok in Hl as (c & Hc & Hlive & Hu & Hsid & ->);
    [|destruct S2 as (E2 & T2 & _); rewrite E2, T2; by exists ss].
  apply check_Ok in Hu0 as [Hcl _]. apply andb_true_iff in Hcl as [Hcl _]. clear Hu1 Hu3. destruct ik as [id k].
  apply token_by_Some in Hk as [Hk Hp]. apply andb_true_iff in Hp as [Hp1 Hp2]. unfold by_refresh in Hp1. b2p.
  right. exists id, k. destruct (negb _) eqn:Hrot in H; b2p.
  - apply bind_Ok in H as (t & w12 & [-> ->]%now_Ok & H). apply bind_Ok in H as (u4 & w12 & Hx & H).
    apply on_err_Ok, exec__Ok in Hx as ->. apply bind_Ok in H as (u5 & w13 & Ha%audited & [[= <- <-] ->]%ret_Ok).
    cbn in *. settle. rewrite <-Hp2 in *. rewrite Hf0 in Hf. injection Hf as <-. rewrite Hc0 in Hc. injection Hc as <-.
    rewrite (revoke_family_one _ _ f0) in Ha by done. exists f0, c0. split_and!; try done. left. split_and!; try done.
    rewrite Hdb. etrans; [|exact Ha]. by repeat split.
  - apply bind_Ok in H as (u4 & w12 & Hx & H). apply on_err_Ok, exec__Ok in Hx as ->.
    apply bind_Ok in H as (m & w13 & Hi & H). apply issue_Ok in Hi as (id' & tok & Hfr & Htf & Hte & Hta & Htr & Hsc & _ & Hw13).
    apply bind_Ok in H as (u5 & w14 & Ha%audited & [[= <- <-] ->]%ret_Ok). cbn in *. settle. rewrite Before_min in Hte.
    rewrite <-Hp2 in *. rewrite Hf0 in Hf. injection Hf as <-. rewrite Hc0 in Hc. injection Hc as <-.
    apply fresh_token_rotated in Hfr. rewrite (rotate_token_one _ _ k) in Hw13 by done.
    exists f0, c0. split_and!; try done. right. split; [done|]. exists m, id', tok. split_and!; try done.
    rewrite Hdb. etrans; [|exact Ha]. rewrite Hw13. by repeat split.
Qed.

Lemma BeginAuthorization_Ok values q w w' :
  BeginAuthorization s values w = (Ok q, w') →
  oauth_move (resource_ s) (w_now w) (w_db w) (w_db w').
Proof.
  unfold BeginAuthorization. destruct (negb _); [done|]. destruct (_ || _) eqn:E; [done|]. intros H.
  apply bind_Ok in H as (scope & w1 & [_ ->]%lift_Ok & H). read_step H as h Hh S1.
  apply client_Ok in Hh as (cl & Hcl & Hen & -> & Hred). apply bind_Ok in H as (id & w2 & [-> ->]%uuid_New_Ok & H).
  apply bind_Ok in H as (t & w2 & [-> ->]%now_Ok & H). apply bind_Ok in H as (u & w2 & Hi & [<- <-]%ret_Ok).
  apply on_err_Ok, exec_Ok in Hi as (db & Hi & ->). apply insert_request_Some in Hi as [Hno ->]. cbn in *. settle.
  rewrite !orb_false_iff, !negb_false_iff in E. destruct E as (((((_ & _) & _) & Hch) & _) & _).
  eexists. split; [|split_and!; reflexivity]. by eapply step_request.
Qed.

Lemma approve_request_Ok user sid q e ans w w' :
  approve_request s user sid q e w = (Ok ans, w') →
  ∃ consent h, oauth_consents (w_db w) !! consent = None ∧ oauth_codes (w_db w) !! h = None ∧
    w_db w' = upd_oauth (upd_t_mcp_oauth_codes
                <[h := mkCode consent (aq_RedirectURI q) (aq_Challenge q) (w_now w + 60 * Second) None]>)
              (upd_oauth (upd_t_mcp_oauth_consents
                <[consent := mkConsent user sid (aq_ClientID q) (resource_ s) (aq_Scope q) (Z.min e (w_now w + 8 * Hour)) None]>) (w_db w)).
Proof.
  unfold approve_request. intros H. apply bind_Ok in H as (consent & w1 & [-> ->]%uuid_New_Ok & H).
  apply bind_Ok in H as (t & w1 & [-> ->]%now_Ok & H). cbv zeta in H. rewrite Before_min in H.
  apply bind_Ok in H as (u1 & w1 & Hc & H). apply on_err_Ok, exec_Ok in Hc as (db & Hc & ->).
  apply insert_consent_Some in Hc as [Hno ->]. read_step H as code Hcode S1.
  apply bind_Ok in H as (u2 & w2 & Hk & [<- <-]%ret_Ok). apply on_err_Ok, exec_Ok in Hk as (db & Hk & ->).
  apply insert_code_Some in Hk as [Hno' ->]. settle. cbn in *. by exists (uuid_new (w_rng w)), (hash code).
Qed.

Lemma Decide_Ok user sid id approve x w w' :
  Decide s user sid id approve w = (Ok x, w') →
  oauth_move (resource_ s) (w_now w) (w_db w) (w_db w').
Proof.
  unfold Decide. intros (w1 & b & w2 & S1 & H & Hdb)%begin_Ok. read_step H as e He S2.
  apply parent_Ok in He as (ss & Hss & -> & Hrec). read_step H as q Hq S3.
  apply loadRequest_Ok in Hq as (r & cl & Hr & Hopen & Hcl & Hen & ->). read_step H as hn Hhn S4.
  apply bind_Ok in H as (t & w6 & [-> ->]%now_Ok & H). apply bind_Ok in H as (u1 & w6 & Hc & H).
  apply on_err_Ok, exec__Ok in Hc as ->. apply bind_Ok in H as (ans & w6 & Hans & H).
  apply bind_Ok in H as (u2 & w7 & Ha%audited & [[= _ <-] ->]%ret_Ok). cbn in *.
  assert (or_resource r = resource_ s) as Hres by apply Hopen. destruct approve.
  - apply approve_request_Ok in Hans as (consent & h & Hno & Hno' & Hw6). cbn in *. settle.
    rewrite (consume_request_one _ _ r) in * by done. eexists. split.
    + eapply (step_approve _ _ _ id r user sid ss consent _ h); try done. by apply Hrec.
    + rewrite Hdb. etrans; [|exact Ha]. rewrite Hw6, (Z.min_comm (se_expires_at ss)). by repeat split.
  - apply ret_Ok in Hans as [<- <-]. cbn in *. settle. rewrite (consume_request_one _ _ r) in * by done.
    eexists. split; [by apply (step_refuse _ _ _ id r)|]. rewrite Hdb. etrans; [|exact Ha]. by repeat split.
Qed.

(** Revoking: the family of the token is revoked, or nothing changes. *)
Lemma Revoke_run raw cid x w w' :
  Revoke s raw cid w = (x, w') →
  w_db w' = w_db w ∨
  ∃ fam f, x = Ok () ∧ oauth_families (w_db w) !! fam = Some f ∧ of_revoked_at f = None ∧
    same_core (upd_oauth (upd_t_mcp_oauth_families <[fam := revoked_family (w_now w) f]>) (w_db w)) (w_db w').
Proof.
  unfold Revoke. destruct (negb _); [intros [= <- <-]; by left|]. intros H.
  apply bind_attempt in H as (x1 & w1 & H1 & H). apply (reads_run (discover _ _)) in H1; [|auto with reads].
  apply bind_run in H as [(x2 & w2 & H2 & H)|(e & H & ->)].
  2:{ left. destruct x1 as [l|e1]; [done|]. destruct (errors_Is _ _); [|done]. unfold attempt in H. by destruct (discover _ _ w1). }
  assert (at_same w1 w2) as S2.
  { eapply reads_run; [|exact H2]. destruct x1; [auto with reads|]. destruct (errors_Is _ _); auto with reads. }
  pose proof (transitivity H1 S2) as S. clear H1 S2 H2. destruct x2 as [l|e].
  2:{ left. injection H as _ <-. by destruct S. }
  destruct (negb _); [injection H as _ <-; left; by destruct S|].
  apply begin_run in H as [[_ E]|(w3 & y & w4 & S3 & H & Hy)]; [left; rewrite E; by destruct S|].
  destruct y as [[u c]|e]; destruct Hy as [Hres E]; [|left; rewrite E; by destruct S].
  destruct c; [|left; rewrite E; by destruct S].
  apply bind_attempt in H as (p & w5 & H1 & H). apply (reads_run (parent _ _ _)) in H1; [|auto with reads].
  destruct p as [t0|e]; [|by apply bind_Ok in H as (u1 & w6 & _ & [[= ->] _]%ret_Ok)].
  apply bind_attempt in H as (p & w6 & H2 & H). apply (reads_run (lockConsent _ _)) in H2; [|auto with reads].
  destruct p as [l'|e]; [|by apply bind_Ok in H as (u1 & w7 & _ & [[= ->] _]%ret_Ok)].
  read_step H as f Hf S4. apply on_err_Ok, query_row_Ok in Hf as [Hf _]. read_step H as u1 Hu1 S5. clear Hu1.
  destruct (negb _) eqn:Hrev in H; [by apply ret_Ok in H as [[= ->] _]|]. b2p.
  apply bind_Ok in H as (t & w9 & [-> ->]%now_Ok & H). apply bind_Ok in H as (u2 & w9 & Hx & H).
  apply on_err_Ok, exec__Ok in Hx as ->. apply bind_Ok in H as (u3 & w10 & Ha%audited & [_ ->]%ret_Ok). cbn in *. settle.
  right. exists (ln_family l'), f. split; [rewrite Hres; by destruct u|]. split_and!; try done. rewrite E. by rewrite <-(revoke_family_one _ _ f).
Qed.

Lemma RevokeDelegation_Ok p family u w w' :
  RevokeDelegation s p family w = (Ok u, w') →
  ∃ f, oauth_families (w_db w) !! family = Some f ∧
    same_core (if bool_decide (of_revoked_at f = None)
               then upd_oauth (upd_t_mcp_oauth_families <[family := revoked_family (w_now w) f]>) (w_db w) else w_db w) (w_db w').
Proof.
  unfold RevokeDelegation. intros H. apply bind_Ok in H as (t & w1 & [-> ->]%now_Ok & H). destruct (_ || _); [done|].
  apply begin_Ok in H as (w1 & b & w2 & S1 & H & Hdb). read_step H as e He S2. read_step H as fc Hfc S3.
  read_step H as c Hc S4. read_step H as u1 Hu1 S5. read_step H as f Hf S6. apply on_err_Ok, query_row_Ok in Hf as [Hf _].
  read_step H as u2 Hu2 S7. clear Hu1 Hu2. exists f. destruct (bool_decide (of_revoked_at f = None)); cbn in H.
  - apply bind_Ok in H as (u3 & w9 & Hx & H). apply on_err_Ok, exec__Ok in Hx as ->.
    apply bind_Ok in H as (u4 & w10 & Ha%audited & [[= _ <-] ->]%ret_Ok). cbn in *. settle. split; [done|].
    rewrite Hdb. by rewrite <-(revoke_family_one _ _ f).
  - apply ret_Ok in H as [[= _ <-] <-]. settle. split; [done|]. by rewrite Hdb.
Qed.

Lemma exchange_code_Err r e w w' : exchange_code s r w = (Err e, w') → w_db w' = w_db w.
Proof.
  unfold exchange_code. intros [(l & w1 & Hl & H)|(e' & Hl & _)]%bind_run; apply (reads_run (scan_or _ _)) in Hl as (E & _); auto with reads.
  by apply begin_Err in H as ->.
Qed.

Lemma Exchange_move r x w w' :
  Exchange s r w = (x, w') → oauth_move (resource_ s) (w_now w) (w_db w) (w_db w').
Proof.
  unfold Exchange. destruct (_ || _); [intros [= _ <-]; by apply oauth_move_none|]. destruct (bool_decide _).
  { intros [(e & _ & E)|(id & k & f & c & Hk & _ & Hf & Hlf & Hc & Hlive & _ &
      [(Hr & _ & Hs)|(Hr & m & id' & tok & _ & Hfr & Htf & Hte & _ & _ & _ & Hs)])]%refresh_Ok.
    - rewrite E. by apply oauth_move_none.
    - eexists. split; [|exact Hs]. apply andb_true_iff in Hlf as [?%bool_decide_eq_true _]. by apply step_revoke.
    - eexists. split; [|exact Hs]. apply (step_rotate _ _ _ id k f c); try done. lia. }
  destruct (_ || _); [intros [= _ <-]; by apply oauth_move_none|]. intros H. destruct x as [m|e].
  - apply exchange_code_Ok in H as (k & c & fam & id & tok & Hk & Hu & Ht & Hc & Hlive & _ & Hno & (Hfr & Htf & Hte & _) & Hs).
    eexists. split; [|exact Hs]. apply (step_exchange _ _ _ _ k c fam _ id tok); try done. lia.
  - apply exchange_code_Err in H as ->. by apply oauth_move_none.
Qed.

(** *** Errors leave no trace, and reads read *)

Lemma run_reads {A} (m : Tx A) x w w' : reads m → m w = (x, w') → w_db w' = w_db w.
Proof. intros Hm H. by apply (reads_run m) in H as (E & _). Qed.
Lemma begin_rolled_back {A} (body : Tx (A * bool)) x w w' :
  (∀ v a c v', body v = (Ok (a, c), v') → c = false) → begin body w = (x, w') → w_db w' = w_db w.
Proof.
  intros Hc [[_ E]|(w1 & y & w2 & _ & Hb & Hy)]%begin_run; [done|].
  destruct y as [[a c]|e]; destruct Hy as [_ E]; [|done]. by rewrite (Hc _ _ _ _ Hb) in E.
Qed.
Lemma Validate_same raw x w w' : Validate s raw w = (x, w') → w_db w' = w_db w.
Proof.
  unfold Validate. destruct (negb _); [by intros [= _ <-]|].
  intros [(l & w1 & Hl & H)|(e & Hl & _)]%bind_run; apply (run_reads (discover _ _)) in Hl; auto with reads.
  apply begin_rolled_back in H; [congruence|]. intros v a c v' Hb. repeat apply bind_Ok in Hb as (? & ? & _ & Hb).
  by apply ret_Ok in Hb as [[= _ <-] _].
Qed.
Lemma Preview_same user sid id x w w' : Preview s user sid id w = (x, w') → w_db w' = w_db w.
Proof.
  apply begin_rolled_back. intros v a c v' Hb. repeat apply bind_Ok in Hb as (? & ? & _ & Hb).
  by apply ret_Ok in Hb as [[= _ <-] _].
Qed.
Lemma ListDelegations_same p x w w' : ListDelegations s p w = (x, w') → w_db w' = w_db w.
Proof.
  unfold ListDelegations. intros [(t & w1 & [-> ->]%now_Ok & H)|(e & [=] & _)]%bind_run.
  destruct (negb _); [by injection H as _ <-|]. apply begin_rolled_back in H; [done|].
  intros v a c v' Hb. repeat apply bind_Ok in Hb as (? & ? & _ & Hb). by apply ret_Ok in Hb as [[= _ <-] _].
Qed.
Lemma BeginAuthorization_Err values e w w' : BeginAuthorization s values w = (Err e, w') → w_db w' = w_db w.
Proof.
  unfold BeginAuthorization. destruct (negb _); [by intros [= _ <-]|]. destruct (_ || _); [by intros [= _ <-]|].
  intros [(sc & w1 & [_ ->]%lift_Ok & H)|(e1 & [= _ ->] & _)]%bind_run; [|done].
  apply bind_run in H as [(h & w2 & Hh & H)|(e1 & Hh & _)]; apply (run_reads (client _ _ _)) in Hh; auto with reads.
  apply bind_run in H as [(id & w3 & [_ ->]%uuid_New_Ok & H)|(e1 & [=] & _)].
  apply bind_run in H as [(t & w3 & [_ ->]%now_Ok & H)|(e1 & [=] & _)].
  apply bind_run in H as [(u & w3 & _ & H)|(e1 & H & _)]; [done|]. apply on_err_Err in H as [_ [e0 H]].
  apply exec_Err in H. by rewrite H.
Qed.
Lemma RevokeDelegation_Err p fam e w w' : RevokeDelegation s p fam w = (Err e, w') → w_db w' = w_db w.
Proof.
  unfold RevokeDelegation. intros [(t & w1 & [-> ->]%now_Ok & H)|(e1 & [=] & _)]%bind_run.
  destruct (_ || _); [by injection H as _ <-|]. by apply begin_Err in H.
Qed.

(** *** Runs *)

Lemma forward_run_op o : forward (run_op s o).
Proof.
  destruct o; cbn [run_op];
    unfold BeginAuthorization, Preview, Decide, approve_request, Exchange, exchange_code, refresh, replayed, issue, Validate, Revoke,
      ListDelegations, RevokeDelegation, begin, auditTx; forward_tac; apply forward_CreateTx.
Qed.

Lemma oauth_op_move o x w w' : run_op s o w = (x, w') → oauth_move (resource_ s) (w_now w) (w_db w) (w_db w').
Proof.
  destruct o; cbn [run_op].
  - intros [(q & w1 & H & [= _ <-])|(e & H & _)]%bind_run; [by apply BeginAuthorization_Ok in H|].
    apply BeginAuthorization_Err in H as ->. by apply oauth_move_none.
  - intros [(q & w1 & H & [= _ <-])|(e & H & _)]%bind_run; apply Preview_same in H as ->; by apply oauth_move_none.
  - intros [(q & w1 & H & [= _ <-])|(e & H & _)]%bind_run; [by apply Decide_Ok in H|].
    apply begin_Err in H as ->. by apply oauth_move_none.
  - intros [(q & w1 & H & [= _ <-])|(e & H & _)]%bind_run; by apply Exchange_move in H.
  - intros [(q & w1 & H & [= _ <-])|(e & H & _)]%bind_run; apply Validate_same in H as ->; by apply oauth_move_none.
  - intros [->|(fam & f & _ & Hf & Hr & Hs)]%Revoke_run; [by apply oauth_move_none|].
    eexists. split; [|exact Hs]. by apply step_revoke.
  - intros [(q & w1 & H & [= _ <-])|(e & H & _)]%bind_run; apply ListDelegations_same in H as ->; by apply oauth_move_none.
  - intros H. destruct x as [u|e]; [|apply RevokeDelegation_Err in H as ->; by apply oauth_move_none].
    apply RevokeDelegation_Ok in H as (f & Hf & Hs). destruct (bool_decide _) eqn:Hr; [|by apply oauth_move_none].
    b2p. eexists. split; [|exact Hs]. by apply step_revoke.
Qed.

(** An operation makes one step on the OAuth tables; the clock stands still. *)
Lemma run_op_step o x w w' :
  run_op s o w = (x, w') →
  w_now w' = w_now w ∧ oauth_step (resource_ s) (w_now w) (w_db w) (t_oauth (db_identity (w_db w'))).
Proof.
  intros H. destruct (forward_run_op o _ _ _ H) as [_ ->]. split; [done|].
  apply oauth_op_move in H as (o' & Hs & Hc & _). by rewrite Hc.
Qed.
End Facts.
#[export] Hint Resolve reads_scan_or reads_attempt reads_parent reads_client reads_loadRequest reads_discover reads_lockConsent
  reads_token reads_RequireGrantTx : reads.

Section Along.
Context `{N : NetURL} `{U : UUIDParse} `{P : Primitives} (s : Service).

Lemma oauth_run_grows w w' :
  oauth_run s w w' →
  (w_now w <= w_now w')%Z ∧ oauth_grows (t_oauth (db_identity (w_db w))) (t_oauth (db_identity (w_db w'))) ∧
  (oauth_wf (t_oauth (db_identity (w_db w))) → oauth_wf (t_oauth (db_identity (w_db w')))).
Proof.
  induction 1 as [w|w o x w1 w2 H _ (Ht & Hg & Hw)|w w1 w2 Hle E _ (Ht & Hg & Hw)].
  - done.
  - apply run_op_step in H as [T Hs]. rewrite T in Ht. split_and!; [done| |].
    + etrans; [|exact Hg]. by eapply oauth_step_grows.
    + intros W. apply Hw. by eapply oauth_step_wf.
  - rewrite E in Hg, Hw. split_and!; [lia|done..].
Qed.

(** A token's hash finds it. *)
Lemma token_by_unique p db id k :
  oauth_tokens db !! id = Some k → p k = true →
  (∀ i k', oauth_tokens db !! i = Some k' → p k' = true → i = id) → token_by p db = Some (id, k).
Proof.
  intros Hk Hp Hu. unfold token_by.
  assert ((id, k) ∈ select (λ _ k, p k) (oauth_tokens db)) as Hin by by apply (elem_of_select (λ _ k, p k)).
  destruct (select _ _) as [|[i k'] l] eqn:E; [by apply elem_of_nil in Hin|]. cbn.
  assert ((i, k') ∈ select (λ _ k, p k) (oauth_tokens db)) as [Hi Hpi]%(elem_of_select (λ _ k, p k)) by (rewrite E; by left).
  cbn in Hi, Hpi. pose proof (Hu _ _ Hi Hpi) as ->. rewrite Hk in Hi. by injection Hi as <-.
Qed.

(** *** Reading a live delegation *)

Lemma yields_LockSubjects d w user : user ≠ uuid_Nil → user ∈ users (w_db w) → yields w (LockSubjects d [user]) ().
Proof.
  intros Hn Hu. unfold LockSubjects. rewrite bool_decide_eq_false_2; [|set_solver]. apply yields_for_each.
  intros id ->%elem_of_sorted_set%list_elem_of_singleton. eapply yields_bind; [|apply yields_ret].
  eapply yields_bind; [apply yields_on_err, yields_query_row; by rewrite decide_True|].
  eapply yields_bind; [|apply yields_ret]. unfold g_lock. case_bool_decide; auto with yields.
Qed.
Lemma yields_parent w user sid ss :
  user ≠ uuid_Nil → sid ≠ uuid_Nil → user ∈ users (w_db w) → live_session (w_now w) (w_db w) user sid ss →
  yields w (parent user sid false) (se_expires_at ss).
Proof.
  intros Hu Hsid Hin (Hs & Hr & Hx). assert (sessions (w_db w) !! sid = Some ss ∧ se_user_id ss = user) as [Hss Hus].
  { unfold session_of in Hs. destruct (sessions (w_db w) !! sid) as [x|]; [|done]. cbn in Hs.
    case_bool_decide; [|done]. injection Hs as ->. by split. }
  eapply yields_bind; [|apply yields_on_err, yields_query_row; by rewrite Hs]. apply yields_on_err.
  eapply yields_bind; [by apply yields_LockSubjects|]. unfold RequireSession, human. cbn [p_Kind p_SubjectID p_SessionID p_ActorID].
  rewrite (bool_decide_eq_false_2 (user = uuid_Nil)), (bool_decide_eq_false_2 (sid = uuid_Nil)) by done.
  rewrite (bool_decide_eq_true_2 (user = user)), (bool_decide_eq_true_2 (Human = Human)) by done. cbn.
  yield_step. eapply yields_bind; [|apply yields_ret].
  eapply yields_bind; [apply yields_on_err, yields_query_row|].
  - rewrite Hss. cbn. unfold session_live. cbn. rewrite Hus, bool_decide_eq_true_2, Hr by done. cbn.
    apply Z.ltb_lt in Hx. by rewrite Hx.
  - eapply yields_bind; [|apply yields_ret]. unfold g_lock. case_bool_decide; auto with yields.
Qed.
Lemma yields_client w tx id cl :
  oauth_clients (w_db w) !! id = Some cl → cl_enabled cl = true → yields w (client tx id "") (cl_harness cl).
Proof.
  intros Hc He. eapply yields_bind; [|].
  - intros w0 S F. destruct (yields_query_row w (λ db, oauth_clients db !! id) cl Hc w0 S F) as (w1 & E & S1).
    exists w1. split; [|exact S1]. by apply scan_or_Ok.
  - eapply yields_bind; [destruct tx; auto with yields|]. cbv beta. rewrite He, bool_decide_eq_true_2 by done. apply yields_ret.
Qed.
Lemma yields_lockConsent w l c :
  oauth_consents (w_db w) !! ln_consent l = Some c → live_consent (resource_ s) (w_now w) (w_db w) c →
  oc_user_id c = ln_user l → oc_session_id c = ln_sid l →
  yields w (lockConsent s l) (mkLineage (ln_consent l) (ln_user l) (ln_sid l) (ln_family l) (ln_token l)
    (oc_client_id c) (oc_scope c) (oc_expires_at c)).
Proof.
  intros Hc (Hr & Hres & Hx & _ & cl & Hcl & He) Hu Hs.
  eapply yields_bind; [apply yields_on_err, yields_query_row; rewrite Hc; cbn; by rewrite !bool_decide_eq_true_2|].
  yield_step. yield_step. unfold After. apply Z.ltb_lt in Hx. rewrite !bool_decide_eq_true_2, Hx by done. cbn.
  eapply yields_bind; [by apply (yields_client _ _ _ cl)|apply yields_ret].
Qed.
Lemma yields_begin {A} w (body : Tx (A * bool)) a c : yields w body (a, c) → yields w (begin body) a.
Proof.
  intros Hb. eapply yields_bind; [|intros w0 S F; by exists w0]. apply yields_on_err.
  eapply (yields_with_tx_opt _ _ _ c). eapply yields_bind; [intros w0 S F|].
  - exists (ticked w0). split; [|by apply at_same_ticked]. unfold exec_, exec, exec_n, tick, mbind, M_bind, get. rewrite F. cbn.
    unfold upd_w_db. cbn. by destruct w0.
  - apply (yields_bind w (attempt body) _ (Ok (a, c))); [intros w0 S F|apply yields_ret]. destruct (Hb w0 S F) as (w1 & E & S1). exists w1. split; [|exact S1].
    apply attempt_Ok. exact E.
Qed.

(** A body that commits. *)
Lemma begin_commits {A} w (body : Tx (A * bool)) a (Q : DB → Prop) :
  (∀ w0, at_same w w0 → w_faults w0 = [] → ∃ w1, body w0 = (Ok (a, true), w1) ∧ w_faults w1 = [] ∧ Q (w_db w1)) →
  w_faults w = [] → ∃ w1, begin body w = (Ok a, w1) ∧ Q (w_db w1).
Proof.
  intros Hb F. destruct (Hb (ticked (upd_w_locks (const []) (ticked w)))) as (w1 & E & F1 & HQ).
  { by split_and!. } { unfold ticked, upd_w_faults. cbn. by rewrite F. }
  exists (ticked w1). split; [|exact HQ]. apply bind_Ok. exists (Ok a), (ticked w1).
  split; [|done]. apply on_err_Ok. unfold with_tx_opt, tick at 1.
  rewrite F. cbn [head]. erewrite bind_then; [|apply exec__run; unfold ticked, upd_w_faults; cbn; by rewrite F].
  erewrite bind_then; [|apply attempt_Ok; exact E]. cbn. unfold tick. by rewrite F1.
Qed.

(** Everything a delegation hangs on is live. *)
Definition live_delegation (w : World) (family : uuid) (f : oauth_family_row) (c : oauth_consent_row) : Prop :=
  oauth_families (w_db w) !! family = Some f ∧ live_family (w_now w) f = true ∧
  oauth_consents (w_db w) !! of_consent_id f = Some c ∧ live_consent (resource_ s) (w_now w) (w_db w) c ∧
  oc_user_id c ≠ uuid_Nil ∧ oc_session_id c ≠ uuid_Nil ∧ oc_user_id c ∈ users (w_db w).
Definition lineage_of (family id : uuid) (f : oauth_family_row) (c : oauth_consent_row) : lineage :=
  mkLineage (of_consent_id f) (oc_user_id c) (oc_session_id c) family id (oc_client_id c) (oc_scope c) (oc_expires_at c).

Lemma yields_discover w h (refresh : bool) id k family f c :
  token_by (if refresh then by_refresh h else by_access h) (w_db w) = Some (id, k) → ot_family_id k = family →
  live_delegation w family f c → yields w (discover h refresh) (lineage_of family id f c).
Proof.
  intros Hk <- (Hf & _ & Hc & _) w0 S F. unfold discover.
  match goal with |- context [query_row ?g] => destruct (yields_query_row w g (lineage_of (ot_family_id k) id f c)) with (w0 := w0)
    as (w1 & E & S1); [|done..|] end.
  - rewrite Hk. cbn. unfold family_consent. rewrite Hf. cbn. by rewrite Hc.
  - exists w1. split; [|exact S1]. by apply scan_or_Ok.
Qed.

(** A usable token of a live delegation is accepted. *)
Lemma yields_Validate w raw id k f c ss :
  oauth_wf (t_oauth (db_identity (w_db w))) → String.length raw = 43 →
  oauth_tokens (w_db w) !! id = Some k → ot_access_hash k = hash raw → ot_rotated_at k = None → (w_now w < ot_expires_at k)%Z →
  live_delegation w (ot_family_id k) f c → live_session (w_now w) (w_db w) (oc_user_id c) (oc_session_id c) ss →
  yields w (Validate s raw) (mkPrincipal (oc_user_id c) (oc_session_id c) (ot_family_id k) id (oc_client_id c) (oc_scope c)
    (Z.min (ot_expires_at k) (se_expires_at ss))).
Proof.
  intros W Hlen Hk Hh Hr Hx Hdel Hss. unfold Validate. rewrite Hlen. cbn [negb Nat.eqb].
  assert (∀ i k', oauth_tokens (w_db w) !! i = Some k' → by_access (hash raw) k' = true → i = id) as Huniq.
  { intros i k' Hi Hk'. unfold by_access in Hk'. b2p. eapply (access_unique _ W); [exact Hi|exact Hk|congruence]. }
  eapply yields_bind; [eapply yields_discover; [|done|exact Hdel]|].
  { apply (token_by_unique _ _ id k); [done| |done]. unfold by_access. by rewrite bool_decide_eq_true_2. }
  destruct Hdel as (Hf & Hlf & Hc & Hlive & Hu & Hs & Hin). set (l := lineage_of (ot_family_id k) id f c).
  eapply yields_begin. eapply yields_bind; [by eapply yields_parent|]. eapply yields_bind; [by eapply (yields_lockConsent w l c)|].
  eapply yields_bind; [apply yields_on_err, (yields_query_row _ _ (k, f))|].
  { unfold token_family. rewrite (token_by_unique _ _ id k); [|done|..].
    - cbn. by rewrite Hf.
    - unfold by_access. by rewrite !bool_decide_eq_true_2.
    - intros i k' Hi [Hk' _]%andb_true_iff. by eapply Huniq. }
  yield_step. unfold live_family, After in Hlf. apply andb_true_iff in Hlf as [Hrev Hfx].
  eapply yields_bind; [apply yields_check|].
  { cbn. unfold After. rewrite Hrev, Hfx, Hr, bool_decide_eq_true_2 by done. cbn. rewrite andb_true_r. by apply Z.ltb_lt. }
  destruct (token_bounded _ W id k Hk) as (f' & Hf' & Hb). unfold oauth_families in Hf. rewrite Hf in Hf'. injection Hf' as <-.
  destruct (family_bounded _ W _ f Hf) as (c' & Hc' & Hb'). unfold oauth_consents in Hc. rewrite Hc in Hc'. injection Hc' as <-.
  cbn. rewrite !Before_min. replace (ot_expires_at k `min` se_expires_at ss)%Z
    with (of_expires_at f `min` (oc_expires_at c `min` (se_expires_at ss `min` ot_expires_at k)))%Z by lia. apply yields_ret.
Qed.
End Along.

Section Final.
Context `{N : NetURL} `{U : UUIDParse} `{P : Primitives} (s : Service).

(** *** The finality of revocation *)

(** Nothing is admitted by, or issued to, a family. *)
Definition family_dead (fam : uuid) (w : World) : Prop :=
  (∀ raw p w', Validate s raw w = (Ok p, w') → op_FamilyID p ≠ fam) ∧
  (∀ p cid u w', RequireGrantTx s p cid w = (Ok u, w') → p_ParentGrantID p ≠ fam) ∧
  (∀ h cid q w', FamilyPrincipalTx s h cid fam w ≠ (Ok q, w')) ∧
  (∀ r x w' i k, Exchange s r w = (x, w') → oauth_tokens (w_db w') !! i = Some k → ot_family_id k = fam →
     is_Some (oauth_tokens (w_db w) !! i)).

Lemma Validate_Ok raw p w w' :
  Validate s raw w = (Ok p, w') →
  ∃ i k f c ss, oauth_tokens (w_db w) !! i = Some k ∧ (oauth_wf (t_oauth (db_identity (w_db w))) → i = op_TokenID p) ∧ ot_access_hash k = hash raw ∧ ot_rotated_at k = None ∧
    (w_now w < ot_expires_at k)%Z ∧ ot_family_id k = op_FamilyID p ∧
    oauth_families (w_db w) !! op_FamilyID p = Some f ∧ live_family (w_now w) f = true ∧
    oauth_consents (w_db w) !! of_consent_id f = Some c ∧ live_consent (resource_ s) (w_now w) (w_db w) c ∧
    live_session (w_now w) (w_db w) (oc_user_id c) (oc_session_id c) ss ∧
    oc_user_id c = op_UserID p ∧ oc_session_id c = op_SessionID p ∧ oc_client_id c = op_ClientID p ∧ oc_scope c = op_Scope p.
Proof.
  unfold Validate. destruct (negb _); [done|]. intros H. read_step H as l0 Hl0 S0.
  apply discover_Ok in Hl0 as (id0 & k0 & f0 & c0 & Hk0 & Hf0 & Hc0 & ->).
  apply begin_Ok in H as (w3 & b & w4 & S1 & H & _). cbn [ln_user ln_sid ln_family] in H.
  read_step H as e He S2. apply parent_Ok in He as (ss & Hss & _ & _). read_step H as l Hl S3.
  apply lockConsent_Ok in Hl as (c & Hc & Hlive & Hu & Hsid & ->);
    [|destruct S2 as (E2 & T2 & _); rewrite E2, T2; by exists ss].
  read_step H as kf Hkf S4. apply on_err_Ok, query_row_Ok in Hkf as [Hkf _].
  apply bind_Ok in H as (t & w7 & [-> ->]%now_Ok & H). read_step H as u1 Hu1 S5. apply check_Ok in Hu1 as [Hu1 _].
  apply ret_Ok in H as [[= <- <-] _]. cbn in *. settle.
  unfold token_family in Hkf. apply bind_Some in Hkf as ([i k] & Hk & Hkf). apply bind_Some in Hkf as (f & Hf & [= <-]).
  apply token_by_Some in Hk as [Hk Hp]. apply token_by_Some in Hk0 as [Hk0 Hp0]. apply andb_true_iff in Hp as [Hp Hfam].
  unfold by_access in Hp, Hp0. cbn in Hu1. unfold After in Hu1. rewrite !andb_true_iff in Hu1.
  destruct Hu1 as (((R1 & R2) & R3) & R4). b2p. rewrite Hf0 in Hf. injection Hf as <-. rewrite Hc0 in Hc. injection Hc as <-.
  exists i, k, f0, c0, ss. split_and!; try done.
  - intros W. eapply (access_unique _ W); [exact Hk|exact Hk0|congruence].
  - unfold live_family, After. rewrite bool_decide_eq_true_2 by done. by apply Z.ltb_lt.
Qed.

Lemma RequireGrantTx_Ok p cid u w w' :
  RequireGrantTx s p cid w = (Ok u, w') →
  p_Kind p = OAuthDelegation ∧
  ∃ f c id k cl, oauth_families (w_db w) !! p_ParentGrantID p = Some f ∧ live_family (w_now w) f = true ∧
    oauth_consents (w_db w) !! of_consent_id f = Some c ∧ oc_revoked_at c = None ∧ oc_resource c = resource_ s ∧
    (w_now w < oc_expires_at c)%Z ∧ oc_user_id c = p_SubjectID p ∧ oc_session_id c = p_SessionID p ∧ oc_client_id c = cid ∧
    uuid_Parse (p_TokenID p) = Some id ∧ oauth_tokens (w_db w) !! id = Some k ∧ ot_family_id k = p_ParentGrantID p ∧
    ot_rotated_at k = None ∧ (w_now w < ot_expires_at k)%Z ∧
    oauth_clients (w_db w) !! cid = Some cl ∧ cl_enabled cl = true ∧ (w_now w < p_ExpiresAt p)%Z.
Proof.
  unfold RequireGrantTx. intros H. apply bind_Ok in H as (t & w0 & [-> ->]%now_Ok & H). destruct (_ || _) eqn:E0; [done|].
  rewrite !orb_false_iff, !negb_false_iff in E0. destruct E0 as ((((Hkind & _) & _) & _) & Hexp). unfold After in Hexp.
  read_step H as fc Hfc S1. apply on_err_Ok, query_row_Ok in Hfc as [Hfc _]. unfold family_consent in Hfc.
  apply bind_Some in Hfc as (f0 & Hf0 & Hfc). apply bind_Some in Hfc as (c0 & Hc0 & [= <-]). cbn [fst snd] in H.
  read_step H as u1 Hu1 S2. apply check_Ok in Hu1 as [Hu1 _]. read_step H as c Hc S3. apply on_err_Ok, query_row_Ok in Hc as [Hc _].
  read_step H as u2 Hu2 S4. clear Hu2. read_step H as u3 Hu3 S5. apply check_Ok in Hu3 as [Hu3 _].
  read_step H as f Hf S6. apply on_err_Ok, query_row_Ok in Hf as [Hf _]. read_step H as u4 Hu4 S7. clear Hu4.
  read_step H as u5 Hu5 S8. apply check_Ok in Hu5 as [Hlf _]. destruct (uuid_Parse (p_TokenID p)) as [id|] eqn:Hid; [|done].
  destruct (bool_decide (id = _)); [done|]. read_step H as id' Hk S9. apply on_err_Ok, query_row_Ok in Hk as [Hk _].
  read_step H as u6 Hu6 S10. clear Hu6. read_step H as h Hcl S11. apply client_Ok in Hcl as (cl & Hcl & Hen & _ & _).
  clear H. settle. rewrite Hf0 in Hf. injection Hf as <-. rewrite Hc0 in Hc. injection Hc as <-.
  apply bind_Some in Hk as (k & Hk & Hk'). destruct (_ && _) eqn:Ek in Hk'; [|done]. unfold After in Hu3.
  rewrite !andb_true_iff in *. destruct Hu1 as (U1 & U2), Hu3 as (((U3 & U4) & U5) & U6), Ek as ((K1 & K2) & K3). b2p.
  split; [done|]. exists f0, c0, id, k, cl. by split_and!.
Qed.

(** A step adds no token to a revoked family. *)
Lemma step_no_token t db o' fam f i k :
  oauth_step (resource_ s) t db o' → oauth_families db !! fam = Some f → is_Some (of_revoked_at f) →
  t_mcp_oauth_tokens o' !! i = Some k → ot_family_id k = fam → is_Some (oauth_tokens db !! i).
Proof.
  intros Hs Hf [x Hx] Hi Hk. unfold oauth_tokens, oauth_families in *.
  destruct Hs as [| | | |h k0 c family f0 id tok ? ? ? ? ? Hno ? ? Hfam ?|old k0 f0 c id tok Hold ? Hf0 Hlive ? ? ? Hfam ?|]; cbn in Hi;
    try (by eexists); at_insert; try (by eexists).
  - unfold oauth_families in Hno. congruence.
  - unfold oauth_families, live_family in *. apply andb_true_iff in Hlive as [Hrev _]. b2p. congruence.
Qed.

Lemma revoked_dead fam f w :
  oauth_families (w_db w) !! fam = Some f → is_Some (of_revoked_at f) → family_dead fam w.
Proof.
  intros Hf [x Hx].
  assert (∀ f', oauth_families (w_db w) !! fam = Some f' → live_family (w_now w) f' = false) as Hdead.
  { intros f' Hf'. rewrite Hf in Hf'. injection Hf' as <-. unfold live_family. by rewrite Hx. }
  assert (∀ p cid u w', RequireGrantTx s p cid w = (Ok u, w') → p_ParentGrantID p ≠ fam) as Hgrant.
  { intros p cid u w' (_ & f' & c & id & k & cl & Hf' & Hl & _)%RequireGrantTx_Ok <-. rewrite Hdead in Hl; done. }
  split_and!; [|done| |].
  - intros raw p w' (i & k & f' & c & ss & _ & _ & _ & _ & _ & _ & Hf' & Hl & _)%Validate_Ok <-. rewrite Hdead in Hl; done.
  - intros h cid q w' H. unfold FamilyPrincipalTx in H. apply bind_Ok in H as (t & w0 & [-> ->]%now_Ok & H).
    destruct (_ || _); [done|]. read_step H as fc Hfc S1. read_step H as u1 Hu1 S2. read_step H as e1 He1 S3.
    read_step H as e2 He2 S4. read_step H as te Hte S5. clear Hfc Hu1 He1 He2 Hte. cbv zeta in H.
    apply bind_Ok in H as (u2 & w6 & Hg & _). apply RequireGrantTx_Ok in Hg as (_ & f' & c & id & k & cl & Hf' & Hl & _).
    settle. cbn in Hf'. rewrite Hdead in Hl; done.
  - intros r y w' i k H Hi Hk. apply Exchange_move in H as (o' & Hs & Hc & _). unfold oauth_tokens in Hi. rewrite Hc in Hi.
    by eapply step_no_token.
Qed.

Lemma run_dead fam f w w' :
  oauth_families (w_db w) !! fam = Some f → is_Some (of_revoked_at f) → oauth_run s w w' → family_dead fam w'.
Proof.
  intros Hf Hr (_ & Hg & _)%oauth_run_grows. destruct (grows_family _ _ Hg _ _ Hf) as (f' & Hf' & _ & E).
  rewrite (E Hr) in Hf'. by eapply revoked_dead.
Qed.

(** *** A replay, run forward *)

Lemma replayed_run l f w :
  w_faults w = [] → oauth_families (w_db w) !! ln_family l = Some f →
  (∀ pos, (w_rng w <= pos)%N → db_audit_log (w_db w) !! uuid_new pos = None) →
  ∃ w', replayed s l w = (Ok (Err ErrDenied, true), w') ∧ w_faults w' = [] ∧
    oauth_families (w_db w') !! ln_family l = Some (revoked_family (w_now w) f).
Proof.
  intros F Hf Hfresh. unfold replayed. rewrite (bind_then now _ _ _ _ eq_refl).
  erewrite bind_then; [|by apply on_err_Ok, exec__run].
  set (w1 := upd_w_db _ _). assert (w_faults w1 = []) as F1 by (subst w1; unfold ticked, upd_w_faults, upd_w_db; cbn; by rewrite F).
  destruct (CreateTx_run (sv_audit s) (Some (ln_user l)) None "mcp.refresh_replay" "" (mk_obj [("family_id", JStr (uuid_String (ln_family l)));
    ("client_id", JStr (ln_client l))]) "" w1) as (w2 & E & F2); [done|by split|done..|].
  erewrite bind_then; [|apply on_err_Ok; exact E]. eexists. split; [reflexivity|]. split; [done|].
  destruct (audit_core _ _ _ _ _ _ _ _ _ _ E) as (Hc & _). unfold oauth_families. rewrite Hc. subst w1. cbn.
  unfold oauth_families in Hf. by rewrite lookup_alter_eq, Hf.
Qed.

Lemma refresh_replays r i k f c w :
  w_faults w = [] → oauth_wf (t_oauth (db_identity (w_db w))) → tq_RefreshToken r ≠ "" →
  oauth_tokens (w_db w) !! i = Some k → ot_refresh_hash k = hash (tq_RefreshToken r) → is_Some (ot_rotated_at k) →
  live_delegation s w (ot_family_id k) f c → oc_client_id c = tq_ClientID r → (tq_Scope r = "" ∨ tq_Scope r = oc_scope c) →
  (∀ pos, (w_rng w <= pos)%N → db_audit_log (w_db w) !! uuid_new pos = None) →
  ∃ w', refresh s r w = (Err ErrDenied, w') ∧
    oauth_families (w_db w') !! ot_family_id k = Some (revoked_family (w_now w) f).
Proof.
  intros F W Hne Hk Hh [x Hx] Hdel Hcl Hsc Hfresh. unfold refresh. rewrite bool_decide_eq_false_2 by done. cbv zeta.
  assert (∀ i' k', oauth_tokens (w_db w) !! i' = Some k' → by_refresh (hash (tq_RefreshToken r)) k' = true → i' = i) as Huniq.
  { intros i' k' Hi Hk'. unfold by_refresh in Hk'. b2p. eapply (refresh_unique _ W); [exact Hi|exact Hk|congruence]. }
  assert (at_same w w) as S by reflexivity.
  run_read ltac:(eapply yields_discover; [|done|exact Hdel]; apply (token_by_unique _ _ i k);
    [done|by unfold by_refresh; rewrite bool_decide_eq_true_2|done]).
  assert (bool_decide (tq_ClientID r = oc_client_id c) && (bool_decide (tq_Scope r = "") || bool_decide (tq_Scope r = oc_scope c)) = true) as Hok.
  { rewrite Hcl, andb_true_iff, orb_true_iff, !bool_decide_eq_true. by split. }
  destruct Hdel as (Hf & Hlf & Hc & Hlive & Hu & Hs & Hin). pose proof Hlive as (_ & _ & _ & (ss & Hss) & _).
  match goal with |- context [mbind _ (begin ?b)] =>
    destruct (begin_commits w0 b (Err ErrDenied) (λ db, oauth_families db !! ot_family_id k = Some (revoked_family (w_now w) f)))
      as (w1 & E & HQ); [|exact F|exists w1; erewrite bind_then by exact E; by split] end.
  intros v S' F'. apply (transitivity S) in S'. clear S F w0. rename S' into S, F' into F.
  run_read ltac:(by eapply yields_parent). run_read ltac:(by eapply (yields_lockConsent _ _ (lineage_of _ _ _ _) c)).
  run_read ltac:(apply yields_check; exact Hok).
  run_read ltac:(apply yields_on_err, yields_query_row; exact Hf). run_read ltac:(apply yields_note_lock).
  run_read ltac:(apply yields_now). run_read ltac:(by apply yields_check).
  run_read ltac:(apply yields_on_err, yields_query_row, (token_by_unique _ _ i k); [done|by unfold by_refresh; rewrite !bool_decide_eq_true_2
    |intros i' k' Hi' [Hk' _]%andb_true_iff; by eapply Huniq]).
  run_read ltac:(apply yields_note_lock). cbn [snd]. rewrite Hx, bool_decide_eq_false_2 by done. cbn [negb].
  destruct S as (E & T & R). rewrite <-T. apply replayed_run; [done|by rewrite E|]. intros pos Hpos. rewrite E. apply Hfresh. lia.
Qed.

(** *** What a successful exchange leaves *)

Lemma Exchange_Ok r m w w' :
  Exchange s r w = (Ok m, w') →
  ∃ i k f c, oauth_tokens (w_db w') !! i = Some k ∧ bears k m ∧ ot_rotated_at k = None ∧ (ot_expires_at k <= w_now w + 10 * Minute)%Z ∧
    oauth_families (w_db w') !! ot_family_id k = Some f ∧ of_revoked_at f = None ∧
    oauth_consents (w_db w') !! of_consent_id f = Some c ∧ live_consent (resource_ s) (w_now w) (w_db w) c ∧
    oc_client_id c = tq_ClientID r ∧ tr_Scope m = oc_scope c ∧
    oauth_clients (w_db w') = oauth_clients (w_db w) ∧
    (ot_expires_at k <= oc_expires_at c)%Z.
Proof.
  intros H. pose proof H as (o' & Hs & Hcore & _)%Exchange_move.
  unfold Exchange in H. destruct (_ || _); [done|]. destruct (bool_decide _).
  - apply refresh_Ok in H as [(e & [=] & _)|(id & k & f & c & Hk & _ & Hf & Hlf & Hc & Hlive & Hcl &
      [(_ & [=] & _)|(Hr & m' & id' & tok & [= <-] & Hfr & Htf & Hte & Hb & _ & Hsc & Hdb & _)])].
    unfold live_family in Hlf. apply andb_true_iff in Hlf as [Hrev _]. b2p.
    exists id', tok, f, c. unfold oauth_tokens, oauth_families, oauth_consents, oauth_clients in *. rewrite Hdb. cbn.
    rewrite Htf, lookup_insert_eq. split_and!; try done; [by apply Hfr|lia..].
  - destruct (_ || _); [done|].
    apply exchange_code_Ok in H as (k & c & fam & id & tok & Hk & Hu & Ht & Hc & Hlive & (Hcl & _) & Hno & (Hfr & Htf & Hte & Hb & _ & Hsc) & Hdb & _).
    exists id, tok, (mkFamily (od_consent_id k) (oc_expires_at c) None (w_now w)), c.
    unfold oauth_tokens, oauth_families, oauth_consents, oauth_clients in *. rewrite Hdb. cbn.
    rewrite Htf, !lookup_insert_eq. split_and!; try done; [by apply Hfr|lia..].
Qed.

Lemma oauth_op_Err o e w w' :
  run_op s o w = (Err e, w') →
  w_db w' = w_db w ∨
  (e = ErrDenied ∧ ∃ r i k f, o = OpExchange r ∧ oauth_tokens (w_db w) !! i = Some k ∧ ot_refresh_hash k = hash (tq_RefreshToken r) ∧
     is_Some (ot_rotated_at k) ∧ oauth_families (w_db w) !! ot_family_id k = Some f ∧
     oauth_families (w_db w') = <[ot_family_id k := revoked_family (w_now w) f]> (oauth_families (w_db w))).
Proof.
  destruct o; cbn [run_op].
  - intros [(q & w1 & H & [=])|(e' & H & _)]%bind_run. left. by apply BeginAuthorization_Err in H.
  - intros [(q & w1 & H & [=])|(e' & H & _)]%bind_run. left. by apply Preview_same in H.
  - intros [(q & w1 & H & [=])|(e' & H & _)]%bind_run. left. by apply begin_Err in H.
  - intros [(q & w1 & H & [=])|(e' & H & [= ->])]%bind_run. unfold Exchange in H. destruct (_ || _); [left; by injection H as _ <-|].
    destruct (bool_decide _).
    + apply refresh_Ok in H as [(e'' & _ & E)|(id & k & f & c & Hk & Hh & Hf & _ & _ & _ & _ &
        [(Hr & [= ->] & Hdb & _)|(_ & m & id' & tok & [=] & _)])]; [by left|].
      right. split; [done|]. exists r, id, k, f. split_and!; try done; [by apply not_eq_None_Some|].
      unfold oauth_families in *. by rewrite Hdb.
    + destruct (_ || _); [left; by injection H as _ <-|]. left. by apply exchange_code_Err in H.
  - intros [(q & w1 & H & [=])|(e' & H & _)]%bind_run. left. by apply Validate_same in H.
  - intros [->|(fam & f & [=] & _)]%Revoke_run. by left.
  - intros [(q & w1 & H & [=])|(e' & H & _)]%bind_run. left. by apply ListDelegations_same in H.
  - intros H. left. by apply RevokeDelegation_Err in H.
Qed.

(** ** Properties *)

(** C30: delegated OAuth implements its specification: whatever operation runs on
    whatever state, the clock stands still and the six tables make exactly one
    step of [oauth_step] (open a request, refuse or approve it, redeem a code,
    rotate a token, revoke a family, or nothing); and an operation that reports an
    error has changed nothing, except a refresh with a token rotated before, which
    revokes the token's family. *)
Theorem oauth_refines_specification o x w w' :
  run_op s o w = (x, w') →
  w_now w' = w_now w ∧ oauth_step (resource_ s) (w_now w) (w_db w) (t_oauth (db_identity (w_db w'))) ∧
  ∀ e, x = Err e →
    w_db w' = w_db w ∨
    (e = ErrDenied ∧ ∃ r i k f, o = OpExchange r ∧ oauth_tokens (w_db w) !! i = Some k ∧
       ot_refresh_hash k = hash (tq_RefreshToken r) ∧ is_Some (ot_rotated_at k) ∧
       oauth_families (w_db w) !! ot_family_id k = Some f ∧
       oauth_families (w_db w') = <[ot_family_id k := revoked_family (w_now w) f]> (oauth_families (w_db w))).
Proof.
  intros H. destruct (run_op_step _ _ _ _ _ H) as [Ht Hs]. split_and!; [done..|]. intros e ->. by apply oauth_op_Err in H.
Qed.

(** Over any run of the operations, successful or not, the chain from an
    approval to its tokens stays linear: a consent has at most one code and one
    family, a family exists only for a used code, a family has at most one token
    that is not rotated, and no token outlives its family nor a family its
    consent. *)
Theorem consent_chain_linear w w' :
  oauth_run s w w' → oauth_wf (t_oauth (db_identity (w_db w))) → oauth_wf (t_oauth (db_identity (w_db w'))).
Proof. intros (_ & _ & H)%oauth_run_grows. exact H. Qed.

(** C29: a code is redeemed at most once, by its client: a successful exchange
    had an unused, unexpired code of a live consent, and matched the consent's
    client, the exact redirect URI and the PKCE challenge; after it, however the
    run goes on, every further exchange of that code is refused and changes
    nothing. *)
Theorem code_redeemed_once r m w w1 w2 r' x w3 :
  tq_GrantType r = "authorization_code" → Exchange s r w = (Ok m, w1) →
  oauth_run s w1 w2 → tq_GrantType r' = "authorization_code" → tq_Code r' = tq_Code r → Exchange s r' w2 = (x, w3) →
  (∃ k c, oauth_codes (w_db w) !! hash (tq_Code r) = Some k ∧ od_consumed_at k = None ∧ (w_now w < od_expires_at k)%Z ∧
     oauth_consents (w_db w) !! od_consent_id k = Some c ∧ live_consent (resource_ s) (w_now w) (w_db w) c ∧
     oc_client_id c = tq_ClientID r ∧ od_redirect_uri k = tq_RedirectURI r ∧ s256 (tq_Verifier r) = od_challenge k) ∧
  ∃ e, x = Err e ∧ w_db w3 = w_db w2.
Proof.
  intros Hg H (_ & Hgr & _)%oauth_run_grows Hg' Hcode H'. unfold Exchange in H. destruct (_ || _); [done|].
  rewrite Hg, bool_decide_eq_false_2 in H by done. destruct (_ || _); [done|].
  apply exchange_code_Ok in H as (k & c & fam & id & tok & Hk & Hu & Ht & Hc & Hlive & (Hcl & Hred & Hpk) & _ & _ & Hdb & _).
  split; [exists k, c; by split_and!|]. destruct (grows_code _ _ Hgr (hash (tq_Code r)) (consumed_code (w_now w) k)) as (k' & Hk' & _ & E).
  { rewrite Hdb. cbn. by rewrite lookup_insert_eq. }
  rewrite E in Hk' by by eexists. destruct x as [m'|e].
  - exfalso. unfold Exchange in H'. destruct (_ || _); [done|]. rewrite Hg', bool_decide_eq_false_2 in H' by done.
    destruct (_ || _); [done|]. apply exchange_code_Ok in H' as (k2 & _ & _ & _ & _ & Hk2 & Hu2 & _).
    rewrite Hcode in Hk2. unfold oauth_codes in Hk2. rewrite Hk' in Hk2. by injection Hk2 as <-.
  - exists e. split; [done|]. unfold Exchange in H'. destruct (_ || _); [by injection H' as _ <-|].
    rewrite Hg', bool_decide_eq_false_2 in H' by done. destruct (_ || _); [by injection H' as _ <-|]. by apply exchange_code_Err in H'.
Qed.

(** C31: revoking a delegation is final: once [RevokeDelegation] has succeeded,
    however the run goes on, no token of the family validates, no principal of it
    passes the grant check of a run, no new principal is derived from it, and no
    exchange adds a token to it. *)
Theorem delegation_revocation_is_final p fam u w w1 w2 :
  RevokeDelegation s p fam w = (Ok u, w1) → oauth_run s w1 w2 → family_dead fam w2.
Proof.
  intros (f & Hf & Hdb & _)%RevokeDelegation_Ok Hrun.
  destruct (of_revoked_at f) as [x|] eqn:Hr; cbn in Hdb.
  - apply (run_dead fam f w1 w2); [|by rewrite Hr; eexists|exact Hrun]. unfold oauth_families in *. by rewrite Hdb.
  - apply (run_dead fam (revoked_family (w_now w) f) w1 w2); [|by eexists|exact Hrun]. unfold oauth_families in *. rewrite Hdb. cbn. by rewrite lookup_insert_eq.
Qed.

(** C24: a stolen refresh token does not outlive its use: presenting a refresh
    token that was rotated before, by the right client of a live delegation and
    with the database answering, is denied and leaves the whole family revoked for
    good, the newest tokens included. *)
Theorem refresh_replay_revokes_family r i k f c w :
  w_faults w = [] → oauth_wf (t_oauth (db_identity (w_db w))) →
  tq_Resource r = resource_ s → tq_ClientID r ≠ "" → tq_GrantType r = "refresh_token" → tq_RefreshToken r ≠ "" →
  oauth_tokens (w_db w) !! i = Some k → ot_refresh_hash k = hash (tq_RefreshToken r) → is_Some (ot_rotated_at k) →
  live_delegation s w (ot_family_id k) f c → oc_client_id c = tq_ClientID r → (tq_Scope r = "" ∨ tq_Scope r = oc_scope c) →
  (∀ pos, (w_rng w <= pos)%N → db_audit_log (w_db w) !! uuid_new pos = None) →
  ∃ w1, Exchange s r w = (Err ErrDenied, w1) ∧ ∀ w2, oauth_run s w1 w2 → family_dead (ot_family_id k) w2.
Proof.
  intros F W Hres Hcid Hg Hne Hk Hh Hr Hdel Hcl Hsc Hfresh.
  destruct (refresh_replays r i k f c w F W Hne Hk Hh Hr Hdel Hcl Hsc Hfresh) as (w1 & H & Hf). exists w1. split.
  - unfold Exchange. rewrite Hres, Hg. rewrite (bool_decide_eq_true_2 (resource_ s = resource_ s)), bool_decide_eq_false_2 by done. exact H.
  - intros w2 Hrun. by apply (run_dead _ (revoked_family (w_now w) f) w1 w2); [exact Hf|eexists|].
Qed.

(** What an exchange issues works, exactly as approved: from a well-formed
    state, the access token of a successful exchange or refresh names the user,
    session, client and scope of a live consent of the requesting client; while
    the token has not expired, the session is live and the database answers, it
    validates to exactly that principal.  Its expiry is at most ten minutes away,
    and never after the consent's or the session's. *)
Theorem issued_token_validates `{!PrimitivesOk P} r m w w1 :
  oauth_wf (t_oauth (db_identity (w_db w))) → Exchange s r w = (Ok m, w1) →
  ∃ id k f c, oauth_tokens (w_db w1) !! id = Some k ∧ oauth_families (w_db w1) !! ot_family_id k = Some f ∧
    oauth_consents (w_db w1) !! of_consent_id f = Some c ∧
    live_consent (resource_ s) (w_now w) (w_db w) c ∧ oc_client_id c = tq_ClientID r ∧ tr_Scope m = oc_scope c ∧
    (ot_expires_at k <= w_now w + 10 * Minute)%Z ∧ (ot_expires_at k <= oc_expires_at c)%Z ∧
    ∀ w2 ss, w_faults w2 = [] → w_db w2 = w_db w1 → (w_now w2 < ot_expires_at k)%Z →
      oc_user_id c ≠ uuid_Nil → oc_session_id c ≠ uuid_Nil → oc_user_id c ∈ users (w_db w2) →
      live_session (w_now w2) (w_db w2) (oc_user_id c) (oc_session_id c) ss →
      ∃ w3, Validate s (tr_AccessToken m) w2 =
        (Ok (mkPrincipal (oc_user_id c) (oc_session_id c) (ot_family_id k) id (oc_client_id c) (oc_scope c)
           (Z.min (ot_expires_at k) (se_expires_at ss))), w3).
Proof.
  intros W H. pose proof H as (i & k & f & c & Hk & [Hh Hm] & Hr & Hx & Hf & Hrev & Hc & Hlive & Hcl & Hsc & Hclients & Hxc)%Exchange_Ok.
  apply Exchange_move in H as (o' & Hs & Hcore & _). apply oauth_step_wf in Hs; [|exact W].
  assert (oauth_wf (t_oauth (db_identity (w_db w1)))) as W1 by (rewrite Hcore; exact Hs). clear Hs.
  exists i, k, f, c. split_and!; [done..|]. intros w2 ss F E Ht Hu Hsid Hin Hss.
  destruct (yields_Validate s w2 (tr_AccessToken m) i k f c ss) with (w0 := w2) as (w3 & E3 & _); try done; [by rewrite E|by apply minted_length|by rewrite E| |by exists w3].
  destruct (token_bounded _ W1 _ _ Hk) as (f' & Hf' & Hb). unfold oauth_families in Hf. rewrite Hf in Hf'. injection Hf' as <-.
  destruct Hlive as (L1 & L2 & L3 & _ & cl & Hcl' & He).
  split_and!; [by rewrite E| |by rewrite E| |done..].
  - unfold live_family, After. rewrite bool_decide_eq_true_2 by done. apply Z.ltb_lt. lia.
  - split_and!; [done..|lia|by exists ss|]. exists cl. rewrite E, Hclients. by split.
Qed.
End Final.

(** ** Examples: a client of the demo server *)

Import Toy.
#[export] Instance toy_url : NetURL := {|
  url_Parse raw := rest ← strip_prefix "https://" raw; Some (mkURL "https" rest None "" "" "");
  url_with_query raw ps := foldl (λ u kv, u +:+ "&" +:+ kv.1 +:+ "=" +:+ kv.2) raw ps;
|}.
#[export] Instance toy_uuid : UUIDParse := λ raw, if bool_decide (raw = "") then None else Some 1%N.

Definition demo_service : Service :=
  mkService (mkAuditRepository "chain-key") (mkConfig "https://ks.example" "https://ks.example/mcp" "https://ks.example" []).
Definition demo_client : oauth_client_row := mkClient "cli" "http://127.0.0.1/cb" true.
Definition demo_oauth_db : DB :=
  upd_db_identity (upd_t_users (const {[1%N]}) ∘ upd_t_session_tokens (const {[5%N := mkSession 1 false 0 (24 * Hour)]})
    ∘ upd_t_oauth (upd_t_mcp_oauth_clients (const {["cli" := demo_client]}))) empty_db.
Definition demo_verifier : string := "0123456789abcdefghijklmnopqrstuvwxyzABCDEFG".
Definition demo_query : Values := list_to_map [
  ("client_id", ["cli"]); ("redirect_uri", ["http://127.0.0.1/cb"]); ("response_type", ["code"]); ("scope", ["keepsave:tools"]);
  ("state", ["0123456789abcdef"]); ("code_challenge", [s256 demo_verifier]); ("code_challenge_method", ["S256"]);
  ("resource", ["https://ks.example/mcp"])].
Definition demo_begun : World := (run_op demo_service (OpBegin demo_query) (mkWorld demo_oauth_db 100 1000 [] [])).2.
Definition demo_decided : World := (run_op demo_service (OpDecide 1 5 1001 true) demo_begun).2.
(** The code of the redirect. *)
Definition demo_code : string := b64_Encode (be_bytes 32 1002).
Definition demo_request : TokenRequest :=
  mkTokenRequest "authorization_code" "cli" demo_code "http://127.0.0.1/cb" demo_verifier "" "https://ks.example/mcp" "".
Definition demo_exchanged : World := (run_op demo_service (OpExchange demo_request) demo_decided).2.
Definition demo_refresh (token : string) : TokenRequest :=
  mkTokenRequest "refresh_token" "cli" "" "" "" token "https://ks.example/mcp" "".
(** The refresh token of the exchange, and the state after it was used. *)
Definition demo_refresh_token : string := b64_Encode (be_bytes 32 1006).
Definition demo_rotated : World := (run_op demo_service (OpExchange (demo_refresh demo_refresh_token)) demo_exchanged).2.
Definition demo_user : Policy.Principal := Policy.mkPrincipal Human 1 1 0 0 0 5 0 "".

Lemma demo_run : oauth_run demo_service (mkWorld demo_oauth_db 100 1000 [] []) demo_rotated.
Proof.
  apply (run_step _ (OpBegin demo_query) _ _ demo_begun _ (surjective_pairing _)).
  apply (run_step _ (OpDecide 1 5 1001 true) _ _ demo_decided _ (surjective_pairing _)).
  apply (run_step _ (OpExchange demo_request) _ _ demo_exchanged _ (surjective_pairing _)).
  apply (run_step _ (OpExchange (demo_refresh demo_refresh_token)) _ _ demo_rotated _ (surjective_pairing _)). apply run_stop.
Qed.
Lemma demo_start_wf : oauth_wf (t_oauth (db_identity demo_oauth_db)).
Proof. split; intros; exfalso; cbn in *; match goal with H : ∅ !! _ = Some _ |- _ => rewrite lookup_empty in H; discriminate H end. Qed.
Lemma demo_rotated_wf : oauth_wf (t_oauth (db_identity (w_db demo_rotated))).
Proof. apply (proj2 (proj2 (oauth_run_grows _ _ _ demo_run))), demo_start_wf. Qed.
Lemma demo_run_decided : oauth_run demo_service (mkWorld demo_oauth_db 100 1000 [] []) demo_decided.
Proof.
  apply (run_step _ (OpBegin demo_query) _ _ demo_begun _ (surjective_pairing _)).
  apply (run_step _ (OpDecide 1 5 1001 true) _ _ demo_decided _ (surjective_pairing _)). apply run_stop.
Qed.
Definition demo_family : oauth_family_row := mkFamily 1002 (100 + 8 * Hour) None 100.
Definition demo_consent : oauth_consent_row := mkConsent 1 5 "cli" "https://ks.example/mcp" "keepsave:tools" (100 + 8 * Hour) None.
Lemma demo_live : live_delegation demo_service demo_rotated 1005 demo_family demo_consent.
Proof.
  split; [vm_compute; reflexivity|]. split; [vm_compute; reflexivity|]. split; [vm_compute; reflexivity|].
  split; [|split; [discriminate|split; [discriminate|apply (bool_decide_unpack _); vm_compute; exact I]]].
  split; [reflexivity|]. split; [reflexivity|]. split; [vm_compute; reflexivity|]. split.
  - exists (mkSession 1 false 0 (24 * Hour)). split; [vm_compute; reflexivity|]. split; [reflexivity|vm_compute; reflexivity].
  - exists demo_client. split; [vm_compute; reflexivity|reflexivity].
Qed.

Lemma demo_audit_fresh pos : (w_rng demo_rotated <= pos)%N → db_audit_log (w_db demo_rotated) !! uuid_new pos = None.
Proof.
  intros Hpos. replace (w_rng demo_rotated) with 1013%N in Hpos by (vm_compute; reflexivity).
  assert (map_Forall (λ i _, (i <= 1013)%N) (db_audit_log (w_db demo_rotated))) as H by (apply (bool_decide_unpack _); vm_compute; exact I).
  apply eq_None_not_Some. intros [x Hx]. apply H in Hx. change (N.succ (N.min pos 65535) <= 1013)%N in Hx. lia.
Qed.

Lemma oauth_refines_specification_witness :
  oauth_step "https://ks.example/mcp" 100 (w_db demo_decided) (t_oauth (db_identity (w_db demo_exchanged))).
Proof.
  destruct (oauth_refines_specification demo_service (OpExchange demo_request) _ demo_decided demo_exchanged (surjective_pairing _))
    as (_ & Hs & _).
  replace (w_now demo_decided) with 100%Z in Hs by (vm_compute; reflexivity). exact Hs.
Defined.

Lemma consent_chain_linear_witness : ∃ k,
  oauth_tokens (w_db demo_rotated) !! 1012%N = Some k ∧ ot_rotated_at k = None ∧ oauth_wf (t_oauth (db_identity (w_db demo_rotated))).
Proof.
  eexists. split; [vm_compute; reflexivity|]. split; [reflexivity|].
  exact (consent_chain_linear demo_service _ _ demo_run demo_start_wf).
Defined.

Lemma code_redeemed_once_witness : ∃ m w1 e w3,
  Exchange demo_service demo_request demo_decided = (Ok m, w1) ∧ Exchange demo_service demo_request w1 = (Err e, w3) ∧
  w_db w3 = w_db w1.
Proof.
  destruct (Exchange demo_service demo_request demo_decided) as [x w1] eqn:E.
  assert (∃ m, x = Ok m) as [m ->] by (change x with ((x, w1).1); rewrite <-E; eexists; vm_compute; reflexivity).
  destruct (Exchange demo_service demo_request w1) as [y w3] eqn:E3.
  destruct (code_redeemed_once demo_service demo_request m demo_decided w1 w1 demo_request y w3 eq_refl E (run_stop _ _) eq_refl eq_refl E3)
    as (_ & e & -> & Hdb).
  exists m, w1, e, w3. split; [exact eq_refl|]. split; [exact E3|exact Hdb].
Defined.

Lemma delegation_revocation_is_final_witness : ∃ u w1,
  RevokeDelegation demo_service demo_user 1005 demo_rotated = (Ok u, w1) ∧ family_dead demo_service 1005 w1.
Proof.
  destruct (RevokeDelegation demo_service demo_user 1005 demo_rotated) as [x w1] eqn:E.
  assert (x = Ok ()) as -> by (change x with ((x, w1).1); rewrite <-E; vm_compute; reflexivity).
  exists (), w1. split; [reflexivity|]. exact (delegation_revocation_is_final demo_service _ _ _ _ _ _ E (run_stop _ _)).
Defined.

Lemma refresh_replay_revokes_family_witness : ∃ w1,
  Exchange demo_service (demo_refresh demo_refresh_token) demo_rotated = (Err ErrDenied, w1) ∧ family_dead demo_service 1005 w1.
Proof.
  destruct (oauth_tokens (w_db demo_rotated) !! 1008%N) as [k|] eqn:Hk;
    [|exfalso; assert (oauth_tokens (w_db demo_rotated) !! 1008%N ≠ None) as H by (vm_compute; discriminate); exact (H Hk)].
  assert (ot_refresh_hash k = hash demo_refresh_token ∧ is_Some (ot_rotated_at k) ∧ ot_family_id k = 1005%N) as (Hh & Hr & Hf).
  { assert (match oauth_tokens (w_db demo_rotated) !! 1008%N with Some k => (ot_refresh_hash k, ot_rotated_at k, ot_family_id k)
      | None => ("", None, 0%N) end = (hash demo_refresh_token, Some 100%Z, 1005%N)) as H by (vm_compute; reflexivity).
    rewrite Hk in H. injection H as -> -> ->. by split_and!. }
  destruct (refresh_replay_revokes_family demo_service (demo_refresh demo_refresh_token) 1008 k demo_family demo_consent demo_rotated)
    as (w1 & H & Hd); [vm_compute; reflexivity|exact demo_rotated_wf|reflexivity|discriminate|reflexivity|vm_compute; discriminate
      |exact Hk|exact Hh|exact Hr|rewrite Hf; exact demo_live|reflexivity|by left| |].
  - apply demo_audit_fresh.
  - exists w1. split; [exact H|]. rewrite <-Hf. apply Hd, run_stop.
Defined.

(** What the witness needs to know of the state after the exchange. *)
Definition demo_facts (db : DB) :=
  (bool_decide (map_Forall (λ i _, i = 1008%N) (oauth_tokens db)), (λ k, (ot_family_id k, ot_expires_at k)) <$> oauth_tokens db !! 1008%N,
   oauth_families db !! 1005%N, oauth_consents db !! 1002%N, (bool_decide (1%N ∈ users db), session_of 1 5 db)).
Lemma issued_token_validates_witness : ∃ m w1 p w3,
  Exchange demo_service demo_request demo_decided = (Ok m, w1) ∧
  Validate demo_service (tr_AccessToken m) (mkWorld (w_db w1) 500 0 [] []) = (Ok p, w3) ∧ op_ExpiresAt p = (100 + 10 * Minute)%Z.
Proof.
  destruct (Exchange demo_service demo_request demo_decided) as [x w1] eqn:E.
  assert (∃ m, x = Ok m) as [m ->] by (change x with ((x, w1).1); rewrite <-E; eexists; vm_compute; reflexivity).
  assert (demo_facts (w_db w1) = (true, Some (1005%N, 100 + 10 * Minute)%Z, Some demo_family, Some demo_consent,
    (true, Some (mkSession 1 false 0 (24 * Hour))))) as Hfacts
    by (change w1 with ((Ok m, w1).2); rewrite <-E; vm_compute; reflexivity).
  injection Hfacts as Hid%bool_decide_eq_true Hk' Hf' Hc' Hu%bool_decide_eq_true Hs.
  assert (oauth_wf (t_oauth (db_identity (w_db demo_decided)))) as W
    by exact (proj2 (proj2 (oauth_run_grows _ _ _ demo_run_decided)) demo_start_wf).
  destruct (issued_token_validates demo_service demo_request m demo_decided w1 W E)
    as (id & k & f & c & Hk & Hf & Hc & _ & _ & _ & _ & _ & H).
  apply Hid in Hk as Hid'. subst id. rewrite Hk in Hk'. injection Hk' as Hfam Hexp. rewrite Hfam, Hf' in Hf. injection Hf as <-.
  cbn [of_consent_id demo_family] in Hc. rewrite Hc' in Hc. injection Hc as <-.
  destruct (H (mkWorld (w_db w1) 500 0 [] []) (mkSession 1 false 0 (24 * Hour))) as [w3 H3];
    [reflexivity|reflexivity|rewrite Hexp; reflexivity|discriminate|discriminate|exact Hu|split; [exact Hs|split; reflexivity]|].
  eexists m, w1, _, w3. split; [reflexivity|]. split; [exact H3|]. cbn [op_ExpiresAt]. rewrite Hexp. reflexivity.
Defined.
