(* ===== verification/Automation.v ===== *)
(** * Instruction artifacts, profiles and packages

    [internal/automation/artifacts.go] and [internal/mcpgateway/catalog/catalog.go]:
    the validation of an instruction source, the limits of a profile in their
    canonical form, and the native packages of a harness.  Parameters: the YAML
    decoder, and the JSON-schema library that the catalog's digests go through. *)
From S2P Require Import Prelude GoStrings GoEncoding GoStruct GoStrconv Schema Database Crypto.

(** ** Definitions *)

(** *** The catalog *)

(** A value decoded into a [jsonschema.Schema], and that printed again. *)
Class JSONSchema := schema_Normalize : json → json.

Definition Installation : string := "keepsave_v1".

Record ToolDefinition := mkToolDefinition {
  td_Name : string;
  td_Operation : string;
  td_Installation : string;
  td_SchemaDigest : string;
  td_InputSchema : json;
}.
Definition ToolDefinition_json (d : ToolDefinition) : json := JObj [
  ("name", JStr (td_Name d));
  ("operation", JStr (td_Operation d));
  ("installation", JStr (td_Installation d));
  ("schema_digest", JStr (td_SchemaDigest d));
  ("input_schema", td_InputSchema d)].

(** [text(max)]. *)
Definition text (max : Z) : json := mk_obj [("type", JStr "string"); ("minLength", JInt 1); ("maxLength", JInt max)].

(** The name, the properties and the required ones of every operation. *)
Definition specs : list (string * list (string * json) * list string) := [
  ("available_runs", [], []);
  ("repository_tree", [("run_id", text 36); ("request_key", text 128)], ["run_id"; "request_key"]);
  ("read_file", [("run_id", text 36); ("request_key", text 128); ("path", text 512)], ["run_id"; "request_key"; "path"]);
  ("operation_status", [("operation_id", text 36);
     ("wait_ms", mk_obj [("type", JStr "integer"); ("minimum", JInt 0); ("maximum", JInt 2000)])], ["operation_id"]);
  ("operation_result", [("operation_id", text 36)], ["operation_id"]);
  ("cancel_operation", [("operation_id", text 36)], ["operation_id"]);
  ("cancel_run", [("run_id", text 36)], ["run_id"])].

Section Catalog.
Context `{P : Primitives} `{JS : JSONSchema}.

(** [automation.Digest]. *)
Definition Digest (b : string) : string := hex_EncodeToString (sha256 b).

Definition definition_of (spec : string * list (string * json) * list string) : ToolDefinition :=
  let '(name, properties, required) := spec in
  let schema := schema_Normalize (mk_obj [("type", JStr "object"); ("properties", mk_obj properties);
                  ("required", JList (map JStr required)); ("additionalProperties", JBool false)]) in
  mkToolDefinition (Installation +:+ "__" +:+ name) name Installation (Digest (Marshal schema)) schema.
Definition Definitions : list ToolDefinition := map definition_of specs.

(** [Find]; it panics for a name that is not in the list. *)
Definition Find (operation : string) : option ToolDefinition :=
  snd <$> list_find (λ d, td_Operation d = operation) Definitions.

Definition CatalogDigest : string := Digest (Marshal (JList (map ToolDefinition_json Definitions))).
End Catalog.

(** *** Sources *)

Definition ErrInvalid : error := Sentinel "invalid instruction artifact".

(** [[a-z][a-z0-9-]{0,63}]. *)
Definition namePattern (s : string) : bool :=
  match s with
  | String c s' => is_lower c && all_bytes (λ c, is_lower c || is_digit c || one_of "-" c) s' && (String.length s <=? 64)
  | EmptyString => false
  end.
Definition digestPattern : string → bool := hex_string 64.

(** [yaml.NewDecoder] with [KnownFields(true)] on the front matter: the name and
    the description the first [Decode] gives, and whether a second one reports
    [io.EOF]. *)
Class YAML := yaml_Decode : string → option (string * string * bool).

Definition newline : string := String "010" "".
Definition fence_line : string := "---" +:+ newline.

Definition ValidateSource `{Y : YAML} (name source : string) : result unit :=
  if negb (namePattern name) || negb (ValidString source) || (65536 <? N.of_nat (String.length source))%N
     || contains_byte "000" source || negb (HasPrefix source fence_line)
  then Err ErrInvalid else
  match find_first (newline +:+ fence_line) (default source (strip_prefix fence_line source)) with
  | None => Err ErrInvalid
  | Some (front, body) =>
      if bool_decide (TrimSpace body = "") then Err ErrInvalid else
      match yaml_Decode front with
      | None => Err ErrInvalid
      | Some (n, description, eof) =>
          if negb (bool_decide (n = name)) || bool_decide (TrimSpace description = "") || (1024 <? String.length description)
          then Err ErrInvalid
          else if negb eof then Err ErrInvalid
          else Ok ()
      end
  end.

(** *** Profiles *)

(** [automation.Manifest]; the operations may be a nil slice. *)
Record Manifest := mkManifest {
  mf_CatalogDigest : string;
  mf_ArtifactDigest : string;
  mf_Operations : option (list string);
  mf_MaxSeconds : Z;
  mf_ToolSeconds : Z;
  mf_MaxResponseBytes : Z;
  mf_MaxProviderOperations : Z;
  mf_MaxTotalBytes : Z;
  mf_MaxConcurrent : Z;
  mf_Controls : string;
}.
Definition zero_Manifest : Manifest := mkManifest "" "" None 0 0 0 0 0 0 "".
Definition Manifest_json (m : Manifest) : json := JObj [
  ("catalog_digest", JStr (mf_CatalogDigest m));
  ("artifact_digest", JStr (mf_ArtifactDigest m));
  ("operations", enc_strings (mf_Operations m));
  ("max_seconds", JInt (mf_MaxSeconds m));
  ("tool_seconds", JInt (mf_ToolSeconds m));
  ("max_response_bytes", JInt (mf_MaxResponseBytes m));
  ("max_provider_operations", JInt (mf_MaxProviderOperations m));
  ("max_total_bytes", JInt (mf_MaxTotalBytes m));
  ("max_concurrent", JInt (mf_MaxConcurrent m));
  ("controls", JStr (mf_Controls m))].
Definition dec_Manifest : decoder Manifest := dec_struct [
  field "catalog_digest" dec_string mf_CatalogDigest (λ x m, mkManifest x (mf_ArtifactDigest m) (mf_Operations m) (mf_MaxSeconds m) (mf_ToolSeconds m) (mf_MaxResponseBytes m) (mf_MaxProviderOperations m) (mf_MaxTotalBytes m) (mf_MaxConcurrent m) (mf_Controls m));
  field "artifact_digest" dec_string mf_ArtifactDigest (λ x m, mkManifest (mf_CatalogDigest m) x (mf_Operations m) (mf_MaxSeconds m) (mf_ToolSeconds m) (mf_MaxResponseBytes m) (mf_MaxProviderOperations m) (mf_MaxTotalBytes m) (mf_MaxConcurrent m) (mf_Controls m));
  field "operations" (dec_slice "" dec_string) mf_Operations (λ x m, mkManifest (mf_CatalogDigest m) (mf_ArtifactDigest m) x (mf_MaxSeconds m) (mf_ToolSeconds m) (mf_MaxResponseBytes m) (mf_MaxProviderOperations m) (mf_MaxTotalBytes m) (mf_MaxConcurrent m) (mf_Controls m));
  field "max_seconds" dec_int mf_MaxSeconds (λ x m, mkManifest (mf_CatalogDigest m) (mf_ArtifactDigest m) (mf_Operations m) x (mf_ToolSeconds m) (mf_MaxResponseBytes m) (mf_MaxProviderOperations m) (mf_MaxTotalBytes m) (mf_MaxConcurrent m) (mf_Controls m));
  field "tool_seconds" dec_int mf_ToolSeconds (λ x m, mkManifest (mf_CatalogDigest m) (mf_ArtifactDigest m) (mf_Operations m) (mf_MaxSeconds m) x (mf_MaxResponseBytes m) (mf_MaxProviderOperations m) (mf_MaxTotalBytes m) (mf_MaxConcurrent m) (mf_Controls m));
  field "max_response_bytes" dec_int mf_MaxResponseBytes (λ x m, mkManifest (mf_CatalogDigest m) (mf_ArtifactDigest m) (mf_Operations m) (mf_MaxSeconds m) (mf_ToolSeconds m) x (mf_MaxProviderOperations m) (mf_MaxTotalBytes m) (mf_MaxConcurrent m) (mf_Controls m));
  field "max_provider_operations" dec_int mf_MaxProviderOperations (λ x m, mkManifest (mf_CatalogDigest m) (mf_ArtifactDigest m) (mf_Operations m) (mf_MaxSeconds m) (mf_ToolSeconds m) (mf_MaxResponseBytes m) x (mf_MaxTotalBytes m) (mf_MaxConcurrent m) (mf_Controls m));
  field "max_total_bytes" dec_int mf_MaxTotalBytes (λ x m, mkManifest (mf_CatalogDigest m) (mf_ArtifactDigest m) (mf_Operations m) (mf_MaxSeconds m) (mf_ToolSeconds m) (mf_MaxResponseBytes m) (mf_MaxProviderOperations m) x (mf_MaxConcurrent m) (mf_Controls m));
  field "max_concurrent" dec_int mf_MaxConcurrent (λ x m, mkManifest (mf_CatalogDigest m) (mf_ArtifactDigest m) (mf_Operations m) (mf_MaxSeconds m) (mf_ToolSeconds m) (mf_MaxResponseBytes m) (mf_MaxProviderOperations m) (mf_MaxTotalBytes m) x (mf_Controls m));
  field "controls" dec_string mf_Controls (λ x m, mkManifest (mf_CatalogDigest m) (mf_ArtifactDigest m) (mf_Operations m) (mf_MaxSeconds m) (mf_ToolSeconds m) (mf_MaxResponseBytes m) (mf_MaxProviderOperations m) (mf_MaxTotalBytes m) (mf_MaxConcurrent m) x)].

Definition manifest_operations : list string := ["repository_tree"; "read_file"].

Section Profiles.
Context `{P : Primitives} `{JS : JSONSchema}.

Definition NewManifest (digest : string) : Manifest :=
  mkManifest CatalogDigest digest (Some manifest_operations) 600 30 (4 * 2 ^ 20) 100 (32 * 2 ^ 20) 2 "server_enforced".

Definition within (lo hi n : Z) : bool := (lo <=? n)%Z && (n <=? hi)%Z.

Definition manifest_ok (m : Manifest) : bool :=
  bool_decide (mf_CatalogDigest m = CatalogDigest) && digestPattern (mf_ArtifactDigest m)
  && within 1 600 (mf_MaxSeconds m) && within 1 30 (mf_ToolSeconds m)
  && within (128 * 2 ^ 10) (4 * 2 ^ 20) (mf_MaxResponseBytes m) && within 1 100 (mf_MaxProviderOperations m)
  && within 1 (32 * 2 ^ 20) (mf_MaxTotalBytes m) && within 1 2 (mf_MaxConcurrent m)
  && bool_decide (mf_Controls m = "server_enforced") && bool_decide (mf_Operations m = Some manifest_operations).

Definition Canonical (m : Manifest) : result string :=
  if manifest_ok m then Ok (Marshal (Manifest_json m)) else Err ErrInvalid.
End Profiles.

(** *** Packages *)

(** [automation.PackageManifest]. *)
Record PackageManifest := mkPackageManifest {
  pm_SchemaVersion : string;
  pm_PackageVersion : string;
  pm_Harness : string;
  pm_HarnessVersion : string;
  pm_SDKVersion : string;
  pm_Protocol : string;
  pm_OS : string;
  pm_Endpoint : string;
  pm_ClientID : string;
  pm_Callback : string;
  pm_ProfileID : string;
  pm_ProfileRevision : Z;
  pm_ProfileDigest : string;
  pm_SkillName : string;
  pm_ArtifactDigest : string;
  pm_RequiredControls : option (list string);
  pm_Controls : option (gmap string string);
  pm_FileDigests : option (gmap string string);
  pm_TreeDigest : string;
  pm_Qualification : string;
  pm_SourceCheckedAt : string;
  pm_Sources : option (list string);
}.
Definition zero_PackageManifest : PackageManifest := mkPackageManifest "" "" "" "" "" "" "" "" "" "" "" 0 "" "" "" None None None "" "" "" None.
Definition PackageManifest_json (m : PackageManifest) : json := JObj [
  ("schema_version", JStr (pm_SchemaVersion m));
  ("package_version", JStr (pm_PackageVersion m));
  ("harness", JStr (pm_Harness m));
  ("harness_version", JStr (pm_HarnessVersion m));
  ("sdk_version", JStr (pm_SDKVersion m));
  ("protocol", JStr (pm_Protocol m));
  ("os", JStr (pm_OS m));
  ("endpoint", JStr (pm_Endpoint m));
  ("client_id", JStr (pm_ClientID m));
  ("callback", JStr (pm_Callback m));
  ("profile_id", JStr (pm_ProfileID m));
  ("profile_revision", JInt (pm_ProfileRevision m));
  ("profile_digest", JStr (pm_ProfileDigest m));
  ("skill_name", JStr (pm_SkillName m));
  ("artifact_digest", JStr (pm_ArtifactDigest m));
  ("required_controls", enc_strings (pm_RequiredControls m));
  ("controls", enc_map (pm_Controls m));
  ("file_digests", enc_map (pm_FileDigests m));
  ("tree_digest", JStr (pm_TreeDigest m));
  ("qualification", JStr (pm_Qualification m));
  ("source_checked_at", JStr (pm_SourceCheckedAt m));
  ("sources", enc_strings (pm_Sources m))].
Definition dec_PackageManifest : decoder PackageManifest := dec_struct [
  field "schema_version" dec_string pm_SchemaVersion (λ x m, mkPackageManifest x (pm_PackageVersion m) (pm_Harness m) (pm_HarnessVersion m) (pm_SDKVersion m) (pm_Protocol m) (pm_OS m) (pm_Endpoint m) (pm_ClientID m) (pm_Callback m) (pm_ProfileID m) (pm_ProfileRevision m) (pm_ProfileDigest m) (pm_SkillName m) (pm_ArtifactDigest m) (pm_RequiredControls m) (pm_Controls m) (pm_FileDigests m) (pm_TreeDigest m) (pm_Qualification m) (pm_SourceCheckedAt m) (pm_Sources m));
  field "package_version" dec_string pm_PackageVersion (λ x m, mkPackageManifest (pm_SchemaVersion m) x (pm_Harness m) (pm_HarnessVersion m) (pm_SDKVersion m) (pm_Protocol m) (pm_OS m) (pm_Endpoint m) (pm_ClientID m) (pm_Callback m) (pm_ProfileID m) (pm_ProfileRevision m) (pm_ProfileDigest m) (pm_SkillName m) (pm_ArtifactDigest m) (pm_RequiredControls m) (pm_Controls m) (pm_FileDigests m) (pm_TreeDigest m) (pm_Qualification m) (pm_SourceCheckedAt m) (pm_Sources m));
  field "harness" dec_string pm_Harness (λ x m, mkPackageManifest (pm_SchemaVersion m) (pm_PackageVersion m) x (pm_HarnessVersion m) (pm_SDKVersion m) (pm_Protocol m) (pm_OS m) (pm_Endpoint m) (pm_ClientID m) (pm_Callback m) (pm_ProfileID m) (pm_ProfileRevision m) (pm_ProfileDigest m) (pm_SkillName m) (pm_ArtifactDigest m) (pm_RequiredControls m) (pm_Controls m) (pm_FileDigests m) (pm_TreeDigest m) (pm_Qualification m) (pm_SourceCheckedAt m) (pm_Sources m));
  field "harness_version" dec_string pm_HarnessVersion (λ x m, mkPackageManifest (pm_SchemaVersion m) (pm_PackageVersion m) (pm_Harness m) x (pm_SDKVersion m) (pm_Protocol m) (pm_OS m) (pm_Endpoint m) (pm_ClientID m) (pm_Callback m) (pm_ProfileID m) (pm_ProfileRevision m) (pm_ProfileDigest m) (pm_SkillName m) (pm_ArtifactDigest m) (pm_RequiredControls m) (pm_Controls m) (pm_FileDigests m) (pm_TreeDigest m) (pm_Qualification m) (pm_SourceCheckedAt m) (pm_Sources m));
  field "sdk_version" dec_string pm_SDKVersion (λ x m, mkPackageManifest (pm_SchemaVersion m) (pm_PackageVersion m) (pm_Harness m) (pm_HarnessVersion m) x (pm_Protocol m) (pm_OS m) (pm_Endpoint m) (pm_ClientID m) (pm_Callback m) (pm_ProfileID m) (pm_ProfileRevision m) (pm_ProfileDigest m) (pm_SkillName m) (pm_ArtifactDigest m) (pm_RequiredControls m) (pm_Controls m) (pm_FileDigests m) (pm_TreeDigest m) (pm_Qualification m) (pm_SourceCheckedAt m) (pm_Sources m));
  field "protocol" dec_string pm_Protocol (λ x m, mkPackageManifest (pm_SchemaVersion m) (pm_PackageVersion m) (pm_Harness m) (pm_HarnessVersion m) (pm_SDKVersion m) x (pm_OS m) (pm_Endpoint m) (pm_ClientID m) (pm_Callback m) (pm_ProfileID m) (pm_ProfileRevision m) (pm_ProfileDigest m) (pm_SkillName m) (pm_ArtifactDigest m) (pm_RequiredControls m) (pm_Controls m) (pm_FileDigests m) (pm_TreeDigest m) (pm_Qualification m) (pm_SourceCheckedAt m) (pm_Sources m));
  field "os" dec_string pm_OS (λ x m, mkPackageManifest (pm_SchemaVersion m) (pm_PackageVersion m) (pm_Harness m) (pm_HarnessVersion m) (pm_SDKVersion m) (pm_Protocol m) x (pm_Endpoint m) (pm_ClientID m) (pm_Callback m) (pm_ProfileID m) (pm_ProfileRevision m) (pm_ProfileDigest m) (pm_SkillName m) (pm_ArtifactDigest m) (pm_RequiredControls m) (pm_Controls m) (pm_FileDigests m) (pm_TreeDigest m) (pm_Qualification m) (pm_SourceCheckedAt m) (pm_Sources m));
  field "endpoint" dec_string pm_Endpoint (λ x m, mkPackageManifest (pm_SchemaVersion m) (pm_PackageVersion m) (pm_Harness m) (pm_HarnessVersion m) (pm_SDKVersion m) (pm_Protocol m) (pm_OS m) x (pm_ClientID m) (pm_Callback m) (pm_ProfileID m) (pm_ProfileRevision m) (pm_ProfileDigest m) (pm_SkillName m) (pm_ArtifactDigest m) (pm_RequiredControls m) (pm_Controls m) (pm_FileDigests m) (pm_TreeDigest m) (pm_Qualification m) (pm_SourceCheckedAt m) (pm_Sources m));
  field "client_id" dec_string pm_ClientID (λ x m, mkPackageManifest (pm_SchemaVersion m) (pm_PackageVersion m) (pm_Harness m) (pm_HarnessVersion m) (pm_SDKVersion m) (pm_Protocol m) (pm_OS m) (pm_Endpoint m) x (pm_Callback m) (pm_ProfileID m) (pm_ProfileRevision m) (pm_ProfileDigest m) (pm_SkillName m) (pm_ArtifactDigest m) (pm_RequiredControls m) (pm_Controls m) (pm_FileDigests m) (pm_TreeDigest m) (pm_Qualification m) (pm_SourceCheckedAt m) (pm_Sources m));
  field "callback" dec_string pm_Callback (λ x m, mkPackageManifest (pm_SchemaVersion m) (pm_PackageVersion m) (pm_Harness m) (pm_HarnessVersion m) (pm_SDKVersion m) (pm_Protocol m) (pm_OS m) (pm_Endpoint m) (pm_ClientID m) x (pm_ProfileID m) (pm_ProfileRevision m) (pm_ProfileDigest m) (pm_SkillName m) (pm_ArtifactDigest m) (pm_RequiredControls m) (pm_Controls m) (pm_FileDigests m) (pm_TreeDigest m) (pm_Qualification m) (pm_SourceCheckedAt m) (pm_Sources m));
  field "profile_id" dec_string pm_ProfileID (λ x m, mkPackageManifest (pm_SchemaVersion m) (pm_PackageVersion m) (pm_Harness m) (pm_HarnessVersion m) (pm_SDKVersion m) (pm_Protocol m) (pm_OS m) (pm_Endpoint m) (pm_ClientID m) (pm_Callback m) x (pm_ProfileRevision m) (pm_ProfileDigest m) (pm_SkillName m) (pm_ArtifactDigest m) (pm_RequiredControls m) (pm_Controls m) (pm_FileDigests m) (pm_TreeDigest m) (pm_Qualification m) (pm_SourceCheckedAt m) (pm_Sources m));
  field "profile_revision" dec_int pm_ProfileRevision (λ x m, mkPackageManifest (pm_SchemaVersion m) (pm_PackageVersion m) (pm_Harness m) (pm_HarnessVersion m) (pm_SDKVersion m) (pm_Protocol m) (pm_OS m) (pm_Endpoint m) (pm_ClientID m) (pm_Callback m) (pm_ProfileID m) x (pm_ProfileDigest m) (pm_SkillName m) (pm_ArtifactDigest m) (pm_RequiredControls m) (pm_Controls m) (pm_FileDigests m) (pm_TreeDigest m) (pm_Qualification m) (pm_SourceCheckedAt m) (pm_Sources m));
  field "profile_digest" dec_string pm_ProfileDigest (λ x m, mkPackageManifest (pm_SchemaVersion m) (pm_PackageVersion m) (pm_Harness m) (pm_HarnessVersion m) (pm_SDKVersion m) (pm_Protocol m) (pm_OS m) (pm_Endpoint m) (pm_ClientID m) (pm_Callback m) (pm_ProfileID m) (pm_ProfileRevision m) x (pm_SkillName m) (pm_ArtifactDigest m) (pm_RequiredControls m) (pm_Controls m) (pm_FileDigests m) (pm_TreeDigest m) (pm_Qualification m) (pm_SourceCheckedAt m) (pm_Sources m));
  field "skill_name" dec_string pm_SkillName (λ x m, mkPackageManifest (pm_SchemaVersion m) (pm_PackageVersion m) (pm_Harness m) (pm_HarnessVersion m) (pm_SDKVersion m) (pm_Protocol m) (pm_OS m) (pm_Endpoint m) (pm_ClientID m) (pm_Callback m) (pm_ProfileID m) (pm_ProfileRevision m) (pm_ProfileDigest m) x (pm_ArtifactDigest m) (pm_RequiredControls m) (pm_Controls m) (pm_FileDigests m) (pm_TreeDigest m) (pm_Qualification m) (pm_SourceCheckedAt m) (pm_Sources m));
  field "artifact_digest" dec_string pm_ArtifactDigest (λ x m, mkPackageManifest (pm_SchemaVersion m) (pm_PackageVersion m) (pm_Harness m) (pm_HarnessVersion m) (pm_SDKVersion m) (pm_Protocol m) (pm_OS m) (pm_Endpoint m) (pm_ClientID m) (pm_Callback m) (pm_ProfileID m) (pm_ProfileRevision m) (pm_ProfileDigest m) (pm_SkillName m) x (pm_RequiredControls m) (pm_Controls m) (pm_FileDigests m) (pm_TreeDigest m) (pm_Qualification m) (pm_SourceCheckedAt m) (pm_Sources m));
  field "required_controls" (dec_slice "" dec_string) pm_RequiredControls (λ x m, mkPackageManifest (pm_SchemaVersion m) (pm_PackageVersion m) (pm_Harness m) (pm_HarnessVersion m) (pm_SDKVersion m) (pm_Protocol m) (pm_OS m) (pm_Endpoint m) (pm_ClientID m) (pm_Callback m) (pm_ProfileID m) (pm_ProfileRevision m) (pm_ProfileDigest m) (pm_SkillName m) (pm_ArtifactDigest m) x (pm_Controls m) (pm_FileDigests m) (pm_TreeDigest m) (pm_Qualification m) (pm_SourceCheckedAt m) (pm_Sources m));
  field "controls" dec_map pm_Controls (λ x m, mkPackageManifest (pm_SchemaVersion m) (pm_PackageVersion m) (pm_Harness m) (pm_HarnessVersion m) (pm_SDKVersion m) (pm_Protocol m) (pm_OS m) (pm_Endpoint m) (pm_ClientID m) (pm_Callback m) (pm_ProfileID m) (pm_ProfileRevision m) (pm_ProfileDigest m) (pm_SkillName m) (pm_ArtifactDigest m) (pm_RequiredControls m) x (pm_FileDigests m) (pm_TreeDigest m) (pm_Qualification m) (pm_SourceCheckedAt m) (pm_Sources m));
  field "file_digests" dec_map pm_FileDigests (λ x m, mkPackageManifest (pm_SchemaVersion m) (pm_PackageVersion m) (pm_Harness m) (pm_HarnessVersion m) (pm_SDKVersion m) (pm_Protocol m) (pm_OS m) (pm_Endpoint m) (pm_ClientID m) (pm_Callback m) (pm_ProfileID m) (pm_ProfileRevision m) (pm_ProfileDigest m) (pm_SkillName m) (pm_ArtifactDigest m) (pm_RequiredControls m) (pm_Controls m) x (pm_TreeDigest m) (pm_Qualification m) (pm_SourceCheckedAt m) (pm_Sources m));
  field "tree_digest" dec_string pm_TreeDigest (λ x m, mkPackageManifest (pm_SchemaVersion m) (pm_PackageVersion m) (pm_Harness m) (pm_HarnessVersion m) (pm_SDKVersion m) (pm_Protocol m) (pm_OS m) (pm_Endpoint m) (pm_ClientID m) (pm_Callback m) (pm_ProfileID m) (pm_ProfileRevision m) (pm_ProfileDigest m) (pm_SkillName m) (pm_ArtifactDigest m) (pm_RequiredControls m) (pm_Controls m) (pm_FileDigests m) x (pm_Qualification m) (pm_SourceCheckedAt m) (pm_Sources m));
  field "qualification" dec_string pm_Qualification (λ x m, mkPackageManifest (pm_SchemaVersion m) (pm_PackageVersion m) (pm_Harness m) (pm_HarnessVersion m) (pm_SDKVersion m) (pm_Protocol m) (pm_OS m) (pm_Endpoint m) (pm_ClientID m) (pm_Callback m) (pm_ProfileID m) (pm_ProfileRevision m) (pm_ProfileDigest m) (pm_SkillName m) (pm_ArtifactDigest m) (pm_RequiredControls m) (pm_Controls m) (pm_FileDigests m) (pm_TreeDigest m) x (pm_SourceCheckedAt m) (pm_Sources m));
  field "source_checked_at" dec_string pm_SourceCheckedAt (λ x m, mkPackageManifest (pm_SchemaVersion m) (pm_PackageVersion m) (pm_Harness m) (pm_HarnessVersion m) (pm_SDKVersion m) (pm_Protocol m) (pm_OS m) (pm_Endpoint m) (pm_ClientID m) (pm_Callback m) (pm_ProfileID m) (pm_ProfileRevision m) (pm_ProfileDigest m) (pm_SkillName m) (pm_ArtifactDigest m) (pm_RequiredControls m) (pm_Controls m) (pm_FileDigests m) (pm_TreeDigest m) (pm_Qualification m) x (pm_Sources m));
  field "sources" (dec_slice "" dec_string) pm_Sources (λ x m, mkPackageManifest (pm_SchemaVersion m) (pm_PackageVersion m) (pm_Harness m) (pm_HarnessVersion m) (pm_SDKVersion m) (pm_Protocol m) (pm_OS m) (pm_Endpoint m) (pm_ClientID m) (pm_Callback m) (pm_ProfileID m) (pm_ProfileRevision m) (pm_ProfileDigest m) (pm_SkillName m) (pm_ArtifactDigest m) (pm_RequiredControls m) (pm_Controls m) (pm_FileDigests m) (pm_TreeDigest m) (pm_Qualification m) (pm_SourceCheckedAt m) x)].

(** [automation.Package]. *)
Record Package := mkPackage {
  pk_Harness : string;
  pk_Version : string;
  pk_Format : string;
  pk_Files : option (gmap string string);
  pk_ProfileDigest : string;
  pk_Compatibility : option (gmap string string);
  pk_Manifest : PackageManifest;
}.
Definition zero_Package : Package := mkPackage "" "" "" None "" None zero_PackageManifest.
Definition Package_json (m : Package) : json := JObj [
  ("harness", JStr (pk_Harness m));
  ("version", JStr (pk_Version m));
  ("format", JStr (pk_Format m));
  ("files", enc_map (pk_Files m));
  ("profile_digest", JStr (pk_ProfileDigest m));
  ("compatibility", enc_map (pk_Compatibility m));
  ("manifest", PackageManifest_json (pk_Manifest m))].
Definition dec_Package : decoder Package := dec_struct [
  field "harness" dec_string pk_Harness (λ x m, mkPackage x (pk_Version m) (pk_Format m) (pk_Files m) (pk_ProfileDigest m) (pk_Compatibility m) (pk_Manifest m));
  field "version" dec_string pk_Version (λ x m, mkPackage (pk_Harness m) x (pk_Format m) (pk_Files m) (pk_ProfileDigest m) (pk_Compatibility m) (pk_Manifest m));
  field "format" dec_string pk_Format (λ x m, mkPackage (pk_Harness m) (pk_Version m) x (pk_Files m) (pk_ProfileDigest m) (pk_Compatibility m) (pk_Manifest m));
  field "files" dec_map pk_Files (λ x m, mkPackage (pk_Harness m) (pk_Version m) (pk_Format m) x (pk_ProfileDigest m) (pk_Compatibility m) (pk_Manifest m));
  field "profile_digest" dec_string pk_ProfileDigest (λ x m, mkPackage (pk_Harness m) (pk_Version m) (pk_Format m) (pk_Files m) x (pk_Compatibility m) (pk_Manifest m));
  field "compatibility" dec_map pk_Compatibility (λ x m, mkPackage (pk_Harness m) (pk_Version m) (pk_Format m) (pk_Files m) (pk_ProfileDigest m) x (pk_Manifest m));
  field "manifest" dec_PackageManifest pk_Manifest (λ x m, mkPackage (pk_Harness m) (pk_Version m) (pk_Format m) (pk_Files m) (pk_ProfileDigest m) (pk_Compatibility m) x)].

Record PackageRequest := mkPackageRequest {
  rq_Client : string;
  rq_Version : string;
  rq_SkillName : string;
  rq_SkillSource : string;
  rq_ArtifactDigest : string;
  rq_ProfileDigest : string;
  rq_Endpoint : string;
  rq_ProfileID : string;
  rq_Revision : Z;
  rq_RequiredControls : list string;
}.
Abbreviation NativeExporter := (PackageRequest → result Package).

(** The options the one caller passes: it never sets [RequiredControls]. *)
Record PackageOptions := mkPackageOptions {
  po_Endpoint : string;
  po_ProfileID : string;
  po_Revision : Z;
  po_RequiredControls : option (list string);
  po_Exporter : option NativeExporter;
}.
Definition default_controls : list string :=
  ["credential_custody"; "current_authority"; "client_bound_run"; "commit_bound_target"; "result_reauthorization";
   "expiry"; "revocation"; "bounded_output"; "explicit_cancellation"].

Definition NativePackage `{P : Primitives} `{Y : YAML} (client version name source profileDigest : string)
    (options : list PackageOptions) : result Package :=
  match ValidateSource name source, options with
  | Ok _, [o] =>
      match digestPattern profileDigest, po_Exporter o with
      | true, Some export =>
          let artifact := Digest source in
          match export (mkPackageRequest client version name source artifact profileDigest (po_Endpoint o) (po_ProfileID o)
                          (po_Revision o) (default default_controls (po_RequiredControls o))) with
          | Err _ => Err ErrInvalid
          | Ok p =>
              if negb (bool_decide (pk_Harness p = client)) || negb (bool_decide (pk_Version p = version))
                 || negb (bool_decide (pk_ProfileDigest p = profileDigest))
                 || negb (bool_decide (pm_ArtifactDigest (pk_Manifest p) = artifact))
                 || negb (bool_decide (pm_HarnessVersion (pk_Manifest p) = version))
              then Err ErrInvalid else Ok p
          end
      | _, _ => Err ErrInvalid
      end
  | _, _ => Err ErrInvalid
  end.
