(* ===== verification/Runner.v ===== *)
(** * What the connector and the supervisor exchange

    [internal/runner/types.go]: operation requests, tickets and their
    validation.  The supervisor itself (processes, containers, sockets) is not
    modelled. *)
From S2P Require Import Prelude GoStrings GoEncoding GoStruct GoStrconv Schema Database Crypto.

(** ** Definitions *)

Definition ErrInvalid : error := Sentinel "invalid runner request".

(** [[a-z0-9][a-z0-9./:_-]{0,180}@sha256:[a-f0-9]{64}]: the first part holds no
    at sign. *)
Definition image_char (c : ascii) : bool := is_lower c || is_digit c || one_of "./:_-" c.
Definition imagePattern (s : string) : bool :=
  match find_first "@" s with
  | Some (String c name as whole, rest) =>
      (is_lower c || is_digit c) && all_bytes image_char name && (String.length whole <=? 181)
      && match strip_prefix "sha256:" rest with Some d => hex_string 64 d | None => false end
  | _ => false
  end.
Definition digestPattern : string → bool := hex_string 64.
Definition tokenPattern (s : string) : bool :=
  (String.length s =? 43) && all_bytes (λ c, is_alnum c || one_of "_-" c) s.

Record Arguments_ := mkArguments { a_Path : string }.
(** [omitempty]. *)
Definition Arguments_json (a : Arguments_) : json :=
  JObj (if bool_decide (a_Path a = "") then [] else [("path", JStr (a_Path a))]).
Definition dec_Arguments : decoder Arguments_ := dec_struct [field "path" dec_string a_Path (λ x _, mkArguments x)].

Record OperationRequest := mkOperationRequest {
  q_OperationID : uuid;
  q_RunID : uuid;
  q_GrantID : uuid;
  q_Attempt : Z;
  q_Fence : Z;
  q_ImageDigest : string;
  q_RequestDigest : string;
  q_Nonce : string;
  q_Kind : string;
  q_Arguments : Arguments_;
}.
#[export] Instance Arguments_eq_dec : EqDecision Arguments_.
Proof. solve_decision. Defined.
#[export] Instance OperationRequest_eq_dec : EqDecision OperationRequest.
Proof. solve_decision. Defined.

Record Ticket := mkTicket {
  t_TicketID : uuid;
  t_OperationID : uuid;
  t_RunID : uuid;
  t_GrantID : uuid;
  t_Attempt : Z;
  t_Fence : Z;
  t_ImageDigest : string;
  t_RequestDigest : string;
  t_Nonce : string;
  t_ExpiresAt : time;
  t_Kind : string;
  t_Arguments : Arguments_;
  t_Token : string;
}.
Record TicketStatusRequest := mkTicketStatusRequest { ts_TicketID : uuid; ts_Token : string }.
Record ExecuteRequest := mkExecuteRequest { x_TicketID : uuid; x_Token : string; x_Request : OperationRequest }.
Record ExecuteResponse := mkExecuteResponse { y_Result : string; y_Outcome : string; y_ReceiptID : uuid }.

Definition Request_of (t : Ticket) : OperationRequest :=
  mkOperationRequest (t_OperationID t) (t_RunID t) (t_GrantID t) (t_Attempt t) (t_Fence t) (t_ImageDigest t)
    (t_RequestDigest t) (t_Nonce t) (t_Kind t) (t_Arguments t).

(** A relative path in a repository: [broker.ValidPath], and the same conditions
    in [OperationRequest.Validate]. *)
Definition ValidPath (p : string) : bool :=
  ValidString p && (1 <=? String.length p) && (String.length p <=? 512) && negb (HasPrefix p "/")
  && negb (ContainsAny p ["\"; "000"; "013"; "010"]%char) && forallb (λ rb, negb (IsControl rb.1)) (runes p)
  && forallb (λ v, negb (bool_decide (v ∈ [""; "."; ".."]))) (split_byte "/" p).

Definition ValidImage : string → bool := imagePattern.

Section Digests.
Context `{P : Primitives}.

Definition RequestDigest (kind : string) (args : Arguments_) : string :=
  hex_EncodeToString (sha256 (Marshal (JObj [("kind", JStr kind); ("arguments", Arguments_json args)]))).

Definition Validate_Request (r : OperationRequest) : bool :=
  negb (bool_decide (q_OperationID r = uuid_Nil)) && negb (bool_decide (q_RunID r = uuid_Nil))
  && negb (bool_decide (q_GrantID r = uuid_Nil)) && (1 <=? q_Attempt r)%Z && (q_Attempt r =? q_Fence r)%Z
  && ValidImage (q_ImageDigest r) && digestPattern (q_Nonce r) && digestPattern (q_RequestDigest r)
  && bool_decide (q_RequestDigest r = RequestDigest (q_Kind r) (q_Arguments r))
  && (if bool_decide (q_Kind r = "repository_tree") then bool_decide (a_Path (q_Arguments r) = "")
      else if bool_decide (q_Kind r = "read_file") then ValidPath (a_Path (q_Arguments r))
      else false).

Definition Validate_Ticket (t : Ticket) (image : string) (now : time) : bool :=
  negb (bool_decide (t_TicketID t = uuid_Nil)) && tokenPattern (t_Token t) && bool_decide (t_ImageDigest t = image)
  && After (t_ExpiresAt t) now && Validate_Request (Request_of t).
End Digests.
