(* ===== verification/Broker.v ===== *)
(** * Credential custody and structured provider reads

    [internal/broker/github.go]: the broker opens an app key, trades it for a
    short-lived token and reads a commit, a tree or a file, asking an admission
    callback before every use of a credential and before every request.
    Parameters: the HTTP transport, RSA keys and their signatures, SHA-1, and
    what the rest of the server does while a request waits. *)
From S2P Require Import Prelude GoStrings GoEncoding GoNet GoStruct GoStrconv Schema Database Crypto Runner.

(** ** Definitions *)

Definition ErrProvider : error := Sentinel "provider read failed".
Definition ErrUncertain : error := Sentinel "provider outcome uncertain".
Definition DeadlineExceeded : error := Sentinel "context deadline exceeded".
Definition MaxResultBytes : Z := 4 * 2 ^ 20.
Definition APIVersion : string := "2026-03-10".

Record http_request := mkHTTPRequest {
  hr_Method : string;
  hr_URL : string;
  hr_Bearer : string;
  hr_Body : option string;
}.
(** An answer: its status, and what reading the body up to a number of bytes
    gives. *)
Record http_answer := mkHTTPAnswer {
  ha_Status : Z;
  ha_Read : N → option string;
}.

Class Remote := {
  (** The transport, at a position of the random source: the nanoseconds it
      takes, and the answer; no answer is a transport error. *)
  http_Do : N → http_request → N * option http_answer;
  (** whether [http.NewRequest] accepts a URL *)
  http_URL_ok : string → bool;
  (** the RSA key of a PEM file, by its bit length *)
  rsa_key : string → option N;
  (** a JWT of an issuer, issue and expiry second, signed with such a key *)
  jwt_RS256 : string → string → Z → Z → option string;
  sha1 : string → string;
}.

(** What happens elsewhere while a request waits: by how many nanoseconds it
    wakes up late, and what the other requests of the server do to the database
    in the meantime. *)
Class Elsewhere := {
  late : N → N;
  meanwhile : N → DB → DB;
}.
Definition wait `{E : Elsewhere} (d : Z) : World → World := λ w,
  upd_w_db (meanwhile (w_rng w)) (upd_w_now (λ t, t + d)%Z (upd_w_rng N.succ w)).

(** [CryptoCustody]; a nil custody is [None]. *)
Record Service := mkBroker {
  custody : option Crypto.Service;
  base : string;
}.

Record Connection := mkConnection {
  c_AppID : Z;
  c_InstallationID : Z;
  c_Ciphertext : string;
  c_Nonce : string;
}.
Record Target := mkTarget {
  g_RepositoryID : Z;
  g_Owner : string;
  g_Repository : string;
  g_Reference : string;
  g_Commit : string;
  g_TreeSHA : string;
}.
Definition zero_Target : Target := mkTarget 0 "" "" "" "" "".

Definition slug (s : string) : bool :=
  match s with
  | String c s' => is_alnum c && all_bytes (λ c, is_alnum c || one_of "_.-" c) s' && (String.length s <=? 100)
  | EmptyString => false
  end.
Definition commit : string → bool := hex_string 40.
Definition ref (s : string) : bool :=
  match s with
  | String c s' => is_alnum c && all_bytes (λ c, is_alnum c || one_of "_./-" c) s' && (String.length s <=? 200)
  | EmptyString => false
  end.
Definition ValidReference (v : string) : bool :=
  ref v && negb (Contains v "..") && negb (Contains v "//") && negb (HasSuffix v "/") && negb (HasSuffix v ".")
  && negb (HasSuffix v ".lock").
Definition ValidTargetSpec (t : Target) : bool :=
  (0 <? g_RepositoryID t)%Z && slug (g_Owner t) && slug (g_Repository t)
  && (ValidReference (g_Reference t) || (bool_decide (g_Reference t = "") && commit (g_Commit t))).
Definition ValidTarget (t : Target) : bool := ValidTargetSpec t && commit (g_Commit t) && commit (g_TreeSHA t).

(** The answers' structs. *)
Record token_answer := mkTokenAnswer {
  k_Token : string;
  k_ExpiresAt : time;
  k_Permissions : option (gmap string string);
  k_Repositories : option (list Z);
}.
Definition dec_id : decoder Z := dec_struct [field "id" dec_int (λ x, x) (λ x _, x)].
Definition dec_token_answer : decoder token_answer := dec_struct [
  field "token" dec_string k_Token (λ x k, mkTokenAnswer x (k_ExpiresAt k) (k_Permissions k) (k_Repositories k));
  field "expires_at" dec_time k_ExpiresAt (λ x k, mkTokenAnswer (k_Token k) x (k_Permissions k) (k_Repositories k));
  field "permissions" dec_map k_Permissions (λ x k, mkTokenAnswer (k_Token k) (k_ExpiresAt k) x (k_Repositories k));
  field "repositories" (dec_slice 0%Z dec_id) k_Repositories (λ x k, mkTokenAnswer (k_Token k) (k_ExpiresAt k) (k_Permissions k) x)].
Definition dec_repo : decoder (Z * string) := dec_struct [
  field "id" dec_int fst (λ x p, (x, p.2));
  field "full_name" dec_string snd (λ x p, (p.1, x))].
Definition dec_sha : decoder string := dec_struct [field "sha" dec_string (λ x, x) (λ x _, x)].
Definition dec_commit : decoder string := dec_struct [field "tree" dec_sha (λ x, x) (λ x _, x)].
(** The commit and the tree's hash. *)
Definition dec_resolved : decoder (string * string) := dec_struct [
  field "sha" dec_string fst (λ x p, (x, p.2));
  field "commit" dec_commit snd (λ x p, (p.1, x))].

Record TreeEntry := mkTreeEntry {
  e_Path : string;
  e_Type : string;
  e_Mode : string;
  e_SHA : string;
  e_Size : Z;
}.
Definition zero_TreeEntry : TreeEntry := mkTreeEntry "" "" "" "" 0.
Definition dec_TreeEntry : decoder TreeEntry := dec_struct [
  field "path" dec_string e_Path (λ x e, mkTreeEntry x (e_Type e) (e_Mode e) (e_SHA e) (e_Size e));
  field "type" dec_string e_Type (λ x e, mkTreeEntry (e_Path e) x (e_Mode e) (e_SHA e) (e_Size e));
  field "mode" dec_string e_Mode (λ x e, mkTreeEntry (e_Path e) (e_Type e) x (e_SHA e) (e_Size e));
  field "sha" dec_string e_SHA (λ x e, mkTreeEntry (e_Path e) (e_Type e) (e_Mode e) x (e_Size e));
  field "size" dec_int e_Size (λ x e, mkTreeEntry (e_Path e) (e_Type e) (e_Mode e) (e_SHA e) x)].
Definition TreeEntry_json (e : TreeEntry) : json := JObj
  ([("path", JStr (e_Path e)); ("type", JStr (e_Type e)); ("mode", JStr (e_Mode e)); ("sha", JStr (e_SHA e))]
   ++ (if (e_Size e =? 0)%Z then [] else [("size", JInt (e_Size e))])).
Record Tree := mkTree { tree_Commit : string; tree_Entries : list TreeEntry }.
Definition Tree_json (t : Tree) : json :=
  JObj [("commit", JStr (tree_Commit t)); ("entries", JList (map TreeEntry_json (tree_Entries t)))].
Record tree_answer := mkTreeAnswer { ta_SHA : string; ta_Truncated : bool; ta_Entries : option (list TreeEntry) }.
Definition dec_tree_answer : decoder tree_answer := dec_struct [
  field "sha" dec_string ta_SHA (λ x a, mkTreeAnswer x (ta_Truncated a) (ta_Entries a));
  field "truncated" dec_bool ta_Truncated (λ x a, mkTreeAnswer (ta_SHA a) x (ta_Entries a));
  field "tree" (dec_slice zero_TreeEntry dec_TreeEntry) ta_Entries (λ x a, mkTreeAnswer (ta_SHA a) (ta_Truncated a) x)].
Record file_answer := mkFileAnswer { f_SHA : string; f_Encoding : string; f_Content : string; f_Size : Z }.
Definition dec_file_answer : decoder file_answer := dec_struct [
  field "sha" dec_string f_SHA (λ x f, mkFileAnswer x (f_Encoding f) (f_Content f) (f_Size f));
  field "encoding" dec_string f_Encoding (λ x f, mkFileAnswer (f_SHA f) x (f_Content f) (f_Size f));
  field "content" dec_string f_Content (λ x f, mkFileAnswer (f_SHA f) (f_Encoding f) x (f_Size f));
  field "size" dec_int f_Size (λ x f, mkFileAnswer (f_SHA f) (f_Encoding f) (f_Content f) x)].

(** [json.Unmarshal] of an answer's body. *)
Definition read_json {S} (d : decoder S) (zero : S) (raw : string) : option S := j ← Unmarshal raw; decode d zero j.
(** [if v is absent { return ErrProvider }]. *)
Definition provided {A} (o : option A) : Tx A :=
  match o with Some a => mret a | None => fail ErrProvider end.
(** The Unix second of a time. *)
Definition unix (t : time) : Z := (t / Second - 62135596800)%Z.

(** The loop over the entries of a tree, and the paths seen. *)
Fixpoint entries_ok (l : list TreeEntry) (seen : gset string) : bool :=
  match l with
  | [] => true
  | e :: l' =>
      ValidPath (e_Path e) && commit (e_SHA e) && bool_decide (e_Path e ∉ seen) && (0 <=? e_Size e)%Z
      && ((bool_decide (e_Type e = "tree") && bool_decide (e_Mode e = "040000"))
          || (bool_decide (e_Type e = "blob") && bool_decide (e_Mode e ∈ ["100644"; "100755"])))
      && entries_ok l' ({[e_Path e]} ∪ seen)
  end.

Section Broker.
Context `{P : Primitives} `{R : Remote} `{E : Elsewhere} (s : Service).

Definition privateKey (b : string) : option N := rsa_key b.
Definition ValidateKey (b : string) : result unit :=
  match privateKey b with
  | Some bits => if (bits <? 2048)%N || (16384 <? N.of_nat (String.length b))%N then Err ErrProvider else Ok ()
  | None => Err ErrProvider
  end.

(** [Seal]: the custody's [EncryptServiceSecret]. *)
Definition Seal (b : string) : Tx (string * string) :=
  match custody s with None => fail ErrProvider | Some c => EncryptServiceSecret c b end.

(** [WithOpened]. *)
Definition WithOpened {A} (b n : string) (fn : string → result A) : result A :=
  match custody s with
  | None => Err ErrProvider
  | Some c => match DecryptServiceSecret c b n with Err _ => Err ErrProvider | Ok p => fn p end
  end.

(** [Admission]; a nil callback admits everything. *)
Abbreviation Admission := (option (string → Tx unit)).

Section Calls.
(** The deadline of the context, and the callback. *)
Context (deadline : time) (a : option (string → Tx unit)).

Definition admit_stage (stage : string) : Tx unit :=
  t ← now;
  if (deadline <=? t)%Z then fail DeadlineExceeded else
  match a with Some f => f stage | None => mret () end.

(** [client.Do], with its timeout of thirty seconds and the context's deadline. *)
Definition client_Do (r : http_request) : Tx (option http_answer) := λ w,
  let '(elapsed, answer) := http_Do (w_rng w) r in
  let limit := Z.max 0 (Z.min (30 * Second) (deadline - w_now w)) in
  if (limit <? Z.of_N elapsed)%Z
  then (Ok None, wait limit w)
  else (Ok answer, wait (Z.of_N elapsed) w).

Definition read (method path token : string) (body : option string) (max : N) : Tx string :=
  _ ← admit_stage "provider_request";
  if negb (http_URL_ok (base s +:+ path)) then fail ErrProvider else
  answer ← client_Do (mkHTTPRequest method (base s +:+ path) token body);
  match answer with
  | None => fail ErrUncertain
  | Some r =>
      if (ha_Status r <? 200)%Z || (300 <=? ha_Status r)%Z then fail ErrProvider else
      match ha_Read r (max + 1) with
      | None => fail ErrProvider
      | Some b => if (max <? N.of_nat (String.length b))%N then fail ErrProvider else mret b
      end
  end.

Definition token_ok (t : time) (repo : Z) (k : token_answer) : bool :=
  negb (bool_decide (k_Token k = "")) && (String.length (k_Token k) <=? 4096) && After (k_ExpiresAt k) t
  && bool_decide (default "" (default ∅ (k_Permissions k) !! "contents") = "read")
  && bool_decide (k_Repositories k = Some [repo])
  && forallb (λ '(p, v), bool_decide (v = "read") && bool_decide (p ∈ ["contents"; "metadata"]))
       (map_to_list (default ∅ (k_Permissions k))).

Definition token (c : Connection) (repo : Z) : Tx string :=
  if (c_AppID c <? 1)%Z || (c_InstallationID c <? 1)%Z || (repo <? 1)%Z then fail ErrProvider else
  _ ← admit_stage "credential";
  t ← now;
  signed ← on_err ErrProvider (lift (WithOpened (c_Ciphertext c) (c_Nonce c) (λ key,
             match privateKey key with
             | None => Err ErrProvider
             | Some _ =>
                 match jwt_RS256 key (pretty (c_AppID c)) (unix (t - 30 * Second)) (unix (t + 5 * Minute)) with
                 | Some j => Ok j
                 | None => Err ErrProvider
                 end
             end)));
  let body := Marshal (mk_obj [("repository_ids", JList [JInt repo]); ("permissions", mk_obj [("contents", JStr "read")])]) in
  raw ← read "POST" ("/app/installations/" +:+ pretty (c_InstallationID c) +:+ "/access_tokens") signed (Some body) 65536;
  k ← provided (read_json dec_token_answer (mkTokenAnswer "" 0 None None) raw);
  t ← now;
  if token_ok t repo k then mret (k_Token k) else fail ErrProvider.

Definition repo_path (t : Target) : string :=
  "/repos/" +:+ url_PathEscape (g_Owner t) +:+ "/" +:+ url_PathEscape (g_Repository t).

Definition ResolveAuthorized (c : Connection) (t : Target) : Tx Target :=
  if negb (ValidTargetSpec t) then fail ErrProvider else
  k ← token c (g_RepositoryID t);
  raw ← read "GET" ("/repositories/" +:+ pretty (g_RepositoryID t)) k None 65536;
  repo ← provided (read_json dec_repo (0%Z, "") raw);
  if negb (repo.1 =? g_RepositoryID t)%Z
     || negb (bool_decide (fold_name repo.2 = fold_name (g_Owner t +:+ "/" +:+ g_Repository t)))
  then fail ErrProvider else
  let reference := if bool_decide (g_Reference t = "") then g_Commit t else g_Reference t in
  raw ← read "GET" (repo_path t +:+ "/commits/" +:+ url_PathEscape reference) k None 524288;
  resolved ← provided (read_json dec_resolved ("", "") raw);
  if negb (commit resolved.1) || negb (commit resolved.2) || (commit reference && negb (bool_decide (resolved.1 = reference)))
  then fail ErrProvider
  else mret (mkTarget (g_RepositoryID t) (g_Owner t) (g_Repository t) (g_Reference t) resolved.1 resolved.2).

Definition tree (k : string) (t : Target) (max : Z) : Tx Tree :=
  raw ← read "GET" (repo_path t +:+ "/git/trees/" +:+ g_TreeSHA t +:+ "?recursive=1") k None (Z.to_N max);
  v ← provided (read_json dec_tree_answer (mkTreeAnswer "" false None) raw);
  let entries := default [] (ta_Entries v) in
  if negb (bool_decide (ta_SHA v = g_TreeSHA t)) || ta_Truncated v || (10000 <? N.of_nat (length entries))%N
     || negb (entries_ok entries ∅)
  then fail ErrProvider else mret (mkTree (g_Commit t) entries).

(** The checks on the plain text of a file. *)
Definition plain_ok (f : file_answer) (plain : string) : bool :=
  (Z.of_nat (String.length plain) =? f_Size f)%Z && ValidString plain
  && negb (HasPrefix plain "version https://git-lfs.github.com/spec/")
  && forallb (λ rb, negb (IsControl rb.1) || bool_decide (rb.1 ∈ [10; 13; 9]%Z)) (runes plain)
  && bool_decide (hex_EncodeToString (sha1 ("blob " +:+ pretty (Z.of_nat (String.length plain)) +:+ String "000" plain)) = f_SHA f).

Definition read_file (k : string) (t : Target) (path : string) (max : Z) (v : Tree) : Tx json :=
  match list_find (λ e, e_Path e = path) (tree_Entries v) with
  | None => fail ErrProvider
  | Some (_, e) =>
      if negb (bool_decide (e_Type e = "blob")) || (max <? e_Size e)%Z then fail ErrProvider else
      raw ← read "GET" (repo_path t +:+ "/git/blobs/" +:+ e_SHA e) k None (Z.to_N max);
      f ← provided (read_json dec_file_answer (mkFileAnswer "" "" "" 0) raw);
      if negb (bool_decide (f_SHA f = e_SHA e)) || negb (bool_decide (f_Encoding f = "base64"))
         || negb (f_Size f =? e_Size e)%Z || (max <? f_Size f)%Z
      then fail ErrProvider else
      plain ← provided (std_DecodeString (drop_bytes (λ c, bool_decide (c = "010"%char)) (f_Content f)));
      if negb (plain_ok f plain) then fail ErrProvider else
      mret (mk_obj [("commit", JStr (g_Commit t)); ("path", JStr path); ("blob_sha", JStr (f_SHA f)); ("content", JStr plain)])
  end.

(** The text without its first and last byte. *)
Definition inner (q : string) : string := String.substring 1 (String.length q - 2) q.
Definition reveals (b key : string) : bool :=
  let encoded := quote_string key in
  Contains b key || ((2 <? String.length encoded) && Contains b (inner encoded)).

Definition ExecuteAuthorized (c : Connection) (t : Target) (kind path : string) (max : Z) : Tx string :=
  if negb (ValidTarget t) || (max <? 1024)%Z || (MaxResultBytes <? max)%Z
     || (negb (bool_decide (kind = "repository_tree")) && negb (bool_decide (kind = "read_file")))
     || (bool_decide (kind = "repository_tree") && negb (bool_decide (path = "")))
     || (bool_decide (kind = "read_file") && negb (ValidPath path))
  then fail ErrProvider else
  k ← token c (g_RepositoryID t);
  v ← tree k t max;
  result ← (if bool_decide (kind = "read_file") then read_file k t path max v else mret (Tree_json v));
  let b := Marshal result in
  if (max <? Z.of_nat (String.length b))%Z || Contains b k then fail ErrProvider else
  _ ← admit_stage "credential";
  _ ← on_err ErrProvider (lift (WithOpened (c_Ciphertext c) (c_Nonce c) (λ key,
        if reveals b key then Err ErrProvider else Ok ())));
  mret b.
End Calls.

(** [Resolve] and [Execute]: without a callback. *)
Definition Resolve (deadline : time) (c : Connection) (t : Target) : Tx Target := ResolveAuthorized deadline None c t.
Definition Execute (deadline : time) (c : Connection) (t : Target) (kind path : string) (max : Z) : Tx string :=
  ExecuteAuthorized deadline None c t kind path max.
End Broker.

(** *** What an answer is *)

Definition tree_entries_ok (es : list TreeEntry) : Prop :=
  NoDup (map e_Path es) ∧
  Forall (λ e, ValidPath (e_Path e) = true ∧ commit (e_SHA e) = true ∧ (0 <= e_Size e)%Z ∧
    ((e_Type e = "tree" ∧ e_Mode e = "040000") ∨ (e_Type e = "blob" ∧ e_Mode e ∈ ["100644"; "100755"]))) es.
(** The Git object hash of a blob. *)
Definition blob_hash `{R : Remote} (plain : string) : string :=
  hex_EncodeToString (sha1 ("blob " +:+ pretty (Z.of_nat (String.length plain)) +:+ String "000" plain)).
(** The listing of the target's tree, or a file that the tree lists, whose
    bytes hash to what it lists. *)
Definition answers `{R : Remote} (t : Target) (kind path b : string) : Prop :=
  ∃ es, tree_entries_ok es ∧ (N.of_nat (length es) <= 10000)%N ∧
    ((kind = "repository_tree" ∧ b = Marshal (Tree_json (mkTree (g_Commit t) es))) ∨
     (kind = "read_file" ∧ ∃ e plain, e ∈ es ∧ e_Path e = path ∧ e_Type e = "blob" ∧
        e_Size e = Z.of_nat (String.length plain) ∧ blob_hash plain = e_SHA e ∧
        b = Marshal (mk_obj [("commit", JStr (g_Commit t)); ("path", JStr path); ("blob_sha", JStr (e_SHA e)); ("content", JStr plain)]))).

(** *** A provider for examples *)

Module Provider.
#[export] Instance quiet : Elsewhere := {| late _ := 0%N; meanwhile _ db := db |}.

Fixpoint repeat_byte (n : nat) (c : ascii) : string := match n with O => "" | S n => String c (repeat_byte n c) end.
Definition demo_commit : string := repeat_byte 40 "a".
Definition demo_tree : string := repeat_byte 40 "b".
(** A file with the text "hi!". *)
Definition demo_blob : string := hex_EncodeToString (be_bytes 20 (Toy.poly 3 ("blob 3" +:+ String "000" "hi!"))).
(** A provider that answers everything in a millisecond. *)
Definition demo_answer (r : http_request) : json :=
  if bool_decide (hr_Method r = "POST") then
    mk_obj [("token", JStr "ghs_token"); ("expires_at", JStr "2030-01-01T00:00:00Z");
            ("permissions", mk_obj [("contents", JStr "read"); ("metadata", JStr "read")]);
            ("repositories", JList [mk_obj [("id", JInt 5)]])]
  else if Contains (hr_URL r) "/git/trees/" then
    mk_obj [("sha", JStr demo_tree); ("truncated", JBool false);
            ("tree", JList [mk_obj [("path", JStr "README.md"); ("type", JStr "blob"); ("mode", JStr "100644");
                                    ("sha", JStr demo_blob); ("size", JInt 3)]])]
  else if Contains (hr_URL r) "/git/blobs/" then
    mk_obj [("sha", JStr demo_blob); ("encoding", JStr "base64"); ("content", JStr "aGkh"); ("size", JInt 3)]
  else if Contains (hr_URL r) "/commits/" then
    mk_obj [("sha", JStr demo_commit); ("commit", mk_obj [("tree", mk_obj [("sha", JStr demo_tree)])])]
  else mk_obj [("id", JInt 5); ("full_name", JStr "acme/shop")].
#[export] Instance answering : Remote := {|
  http_Do _ r := (1000000%N, Some (mkHTTPAnswer 200 (λ _, Some (Marshal (demo_answer r)))));
  http_URL_ok _ := true;
  rsa_key k := if HasPrefix k "PEM" then Some 2048%N else None;
  jwt_RS256 _ iss _ _ := Some ("jwt-" +:+ iss);
  sha1 m := be_bytes 20 (Toy.poly 3 m);
|}.
Definition demo_custody : Crypto.Service := Crypto.mkService (be_bytes 32 5).
(** A sealed app key. *)
Definition demo_connection `{P : Primitives} : Connection :=
  match EncryptServiceSecret demo_custody "PEM key" (world_of empty_db 0) with
  | (Ok cn, _) => mkConnection 1 2 cn.1 cn.2
  | _ => mkConnection 1 2 "" ""
  end.
Definition demo_target : Target := mkTarget 5 "acme" "shop" "main" demo_commit demo_tree.
Definition demo_read `{P : Primitives} : Tx string :=
  ExecuteAuthorized (mkBroker (Some demo_custody) "https://api.github.com") (60 * Second) None demo_connection demo_target
    "read_file" "README.md" 65536.
Definition demo_text : string :=
  Marshal (mk_obj [("commit", JStr demo_commit); ("path", JStr "README.md"); ("blob_sha", JStr demo_blob); ("content", JStr "hi!")]).
End Provider.

(** ** Lemmas *)

Lemma entries_ok_spec es seen :
  entries_ok es seen = true → tree_entries_ok es ∧ Forall (λ e, e_Path e ∉ seen) es.
Proof.
  revert seen. induction es as [|e es IH]; intros seen H; [by split; [split; constructor|constructor]|].
  cbn in H. b2p. destruct H as [[[[[H1 H2] H3] H4] H5] [[H6 H7] H8]%IH]. split.
  - split; [|by constructor; [|done]]. cbn. constructor; [|done]. intros ([] & E & Hin)%list_elem_of_fmap.
    rewrite Forall_forall in H8. apply H8 in Hin. set_solver.
  - constructor; [done|]. eapply Forall_impl; [exact H8|]. set_solver.
Qed.

Section Answers.
Context `{P : Primitives} `{R : Remote} `{E : Elsewhere} (s : Service) (deadline : time) (a : option (string → Tx unit)).

Lemma tree_Ok k t max w v w' :
  tree s deadline a k t max w = (Ok v, w') →
  tree_Commit v = g_Commit t ∧ tree_entries_ok (tree_Entries v) ∧ (N.of_nat (length (tree_Entries v)) <= 10000)%N.
Proof.
  intros H. unfold tree in H. apply bind_Ok in H as (raw & w1 & _ & H). apply bind_Ok in H as (x & w2 & _ & H).
  cbv zeta in H. destruct (_ || _) eqn:B; [done|]. apply ret_Ok in H as [<- _]. cbn. b2p.
  destruct B as [[_ B] Es]. apply entries_ok_spec in Es as [Es _]. split_and!; [done..|]. by apply N.ltb_ge.
Qed.
Lemma read_file_Ok k t path max v w j w' :
  read_file s deadline a k t path max v w = (Ok j, w') →
  ∃ e plain, e ∈ tree_Entries v ∧ e_Path e = path ∧ e_Type e = "blob" ∧ e_Size e = Z.of_nat (String.length plain) ∧
    blob_hash plain = e_SHA e ∧
    j = mk_obj [("commit", JStr (g_Commit t)); ("path", JStr path); ("blob_sha", JStr (e_SHA e)); ("content", JStr plain)].
Proof.
  intros H. unfold read_file in H. destruct (list_find _ _) as [[i e]|] eqn:F; [|done]. apply list_find_Some in F as (Hi & Hp & _).
  branch H as B1. apply bind_Ok in H as (raw & w1 & _ & H). apply bind_Ok in H as (f & w2 & _ & H).
  branch H as B2. apply bind_Ok in H as (plain & w3 & _ & H). branch H as B3.
  apply ret_Ok in H as [<- _]. b2p. destruct B1 as [B1 _], B2 as [[[B2 _] B4] _]. unfold plain_ok in B3. b2p.
  destruct B3 as [[[[B3 _] _] _] B5]. exists e, plain. rewrite B2 in *. split_and!; try done; [by eapply list_elem_of_lookup_2|congruence].
Qed.
Lemma admit_forward stage w u w' : admit_stage deadline a stage w = (Ok u, w') → (w_now w < deadline)%Z.
Proof. intros H. apply bind_Ok in H as (t & w1 & [-> ->]%now_Ok & H). destruct (_ <=? _)%Z eqn:B; [done|]. b2p. lia. Qed.

End Answers.

(** ** Properties *)


Section Example_.
Import Toy Provider.

End Example_.
