(* ===== verification/Runs.v ===== *)
(** * The agent tool platform: admission, grants and runs

    [internal/runs/service.go], [scope.go], [lifecycle.go] and the reads of
    [grants.go]: who may act, the stored chain of approvals behind a grant, the
    snapshot of a run, and the cancellations other operations share.  The
    platform talks to the authority barriers, the policy evaluator, the audit
    trail and the OAuth service through functions it is given ([Service]). *)
From S2P Require Import Prelude GoStrings GoEncoding GoNet GoStruct Policy Schema Database Crypto Jobs Authority AuditLog VaultStore Vault Automation Runner Broker.

(** ** Definitions *)

Definition ErrDenied : error := Sentinel "tool access denied".
Definition ErrUnavailable : error := Sentinel "tool platform unavailable".
Definition ErrInvalid : error := Sentinel "invalid tool request".
Definition ErrConflict : error := Sentinel "tool revision conflict".
Definition ErrNoWork : error := Sentinel "no tool work ready".

Abbreviation ProjectLocker := (Principal → uuid → bool → list uuid → Tx unit).
Abbreviation GrantChecker := (Principal → string → Tx unit).
Abbreviation MaintenanceLocker := (uuid → list uuid → Tx unit).
Abbreviation FamilyResolver := (Principal → string → uuid → Tx Principal).

Record Flags := mkFlags {
  fl_Enabled : bool;
  fl_Admission : bool;
  fl_Dispatch : bool;
  fl_Endpoint : string;
}.
(** [runs.Service]; a nil port is [None]. *)
Record Service := mkService {
  sv_broker : option Broker.Service;
  sv_authorize : option AuthorizeTx;
  sv_audit : option Auditor;
  sv_flags : Flags;
  LockProjectSubjects : option ProjectLocker;
  RequireGrantTx : option GrantChecker;
  FamilyPrincipalTx : option FamilyResolver;
  LockMaintenanceSubjects : option MaintenanceLocker;
  PackageExporter : option NativeExporter;
}.

(** *** Data *)

Record Operation := mkOperation {
  o_ID : uuid;
  o_RunID : uuid;
  o_Status : string;
  o_Outcome : string;
  o_Result : option string;
  o_ExpiresAt : time;
  o_ReceiptID : uuid;
  o_CancelRequested : bool;
}.
Record Run := mkRun {
  r_ID : uuid;
  r_ProjectID : uuid;
  r_ProfileID : uuid;
  r_BindingID : uuid;
  r_ClientID : string;
  r_OwnerID : uuid;
  r_RepositoryID : Z;
  r_Repository : string;
  r_EnvironmentID : uuid;
  r_Environment : string;
  r_Reference : string;
  r_InstallationID : Z;
  r_Commit : string;
  r_ExpiresAt : time;
  r_State : string;
}.
Record Grant := mkGrant {
  g_ID : uuid;
  g_ProjectID : uuid;
  g_ProfileID : uuid;
  g_PackageID : uuid;
  g_BindingID : uuid;
  g_WorkloadID : uuid;
  g_ActorID : uuid;
  g_ClientID : string;
  g_ExpiresAt : time;
}.
Record CreateRunRequest := mkCreateRunRequest {
  i_FamilyID : uuid;
  i_GrantID : uuid;
  i_RequestKey : string;
  i_Reference : string;
  i_DurationSeconds : Z;
}.

(** [[A-Za-z0-9_.:-]{1,128}]. *)
Definition keyPattern (s : string) : bool :=
  (1 <=? String.length s) && (String.length s <=? 128) && all_bytes (λ c, is_alnum c || one_of "_.:-" c) s.
Definition digestPattern : string → bool := hex_string 64.
Definition validClient (c : string) : bool := keyPattern c.

Definition actor (p : Principal) : uuid :=
  if (bool_decide (p_Kind p = Human) || bool_decide (p_Kind p = OAuthDelegation)) && bool_decide (p_ActorID p = p_SubjectID p)
     && negb (bool_decide (p_SubjectID p = uuid_Nil))
  then p_SubjectID p else uuid_Nil.

(** The first of the times that are set. *)
Definition earliest (ts : list time) : time :=
  foldl (λ out v, if negb (IsZero v) && (IsZero out || Before v out) then v else out) 0%Z ts.

Definition hash `{P : Primitives} (v : string) : string := hex_EncodeToString (sha256 v).
Definition randomToken `{P : Primitives} : Tx string := b ← rand_bytes 32; mret (b64_Encode b).

(** *** The tables *)

Definition artifacts (db : DB) := t_tool_artifacts (db_tools db).
Definition profiles (db : DB) := t_tool_profiles (db_tools db).
Definition packages (db : DB) := t_tool_packages (db_tools db).
Definition connections (db : DB) := t_tool_connections (db_tools db).
Definition bindings (db : DB) := t_tool_bindings (db_tools db).
Definition workloads (db : DB) := t_tool_workloads (db_tools db).
Definition grants (db : DB) := t_tool_grants (db_tools db).
Definition runs (db : DB) := t_tool_runs (db_tools db).
Definition resolutions (db : DB) := t_tool_resolutions (db_tools db).
Definition operations (db : DB) := t_tool_operations (db_tools db).
Definition tickets (db : DB) := t_tool_tickets (db_tools db).
Definition attempts (db : DB) := t_tool_attempts (db_tools db).
Definition receipts (db : DB) := t_tool_receipts (db_tools db).
Definition spool (db : DB) := t_tool_spool (db_tools db).
Definition checks (db : DB) := t_tool_checks (db_tools db).

(** [INSERT INTO tool_receipts]. *)
Definition insert_receipt (id : uuid) (r : receipt_row) (db : DB) : option DB :=
  if bool_decide (is_Some (receipts db !! id)) || bool_decide (runs db !! re_run_id r = None)
     || match re_operation_id r with Some o => bool_decide (operations db !! o = None) | None => false end
     || negb (varchar 64 (re_action r)) || negb (varchar 64 (re_outcome r))
  then None else Some (upd_db_tools (upd_t_tool_receipts <[id := r]>) db).

Definition juuid (u : uuid) : json := JStr (uuid_String u).

(** The role a member has, and the epoch of the membership. *)
Definition membership (org user : uuid) (db : DB) : option (Z * bool * string) :=
  st ← member_states db !! (org, user); role ← members db !! (org, user); Some (st.2, st.1, role).
Definition memberEpoch (project user : uuid) : Tx (Z * string) :=
  row ← on_err ErrDenied (query_row (live_project project));
  let '(owner, org) := row in
  match org with
  | None => if bool_decide (owner = user) then mret (0%Z, "admin") else fail ErrDenied
  | Some org =>
      m ← on_err ErrDenied (query_row (membership org user));
      let '(epoch, active, role) := m in
      if negb active || (epoch <? 1)%Z then fail ErrDenied else mret (epoch, role)
  end.

Definition zero_decision : Decision := mkDecision false false "" 0 0.

Section Platform.
Context `{P : Primitives} `{Y : YAML} `{JS : JSONSchema} `{U : UUIDParse} (s : Service).

(** [Ready] and [Enabled]; the service and its database are never nil. *)
Definition Ready : bool :=
  bool_decide (is_Some (sv_broker s)) && bool_decide (is_Some (sv_authorize s)) && bool_decide (is_Some (sv_audit s))
  && bool_decide (is_Some (LockProjectSubjects s)).
Definition Enabled : bool := Ready && fl_Enabled (sv_flags s).
(** The broker; a nil one behaves as one without custody. *)
Definition the_broker : Broker.Service := default (mkBroker None "") (sv_broker s).

(** A call of a port; where it is nil the code would panic. *)
Definition nil_pointer {A} : Tx A := fail (Errorf "runtime error: nil pointer dereference").
Definition port {F A} (o : option F) (call : F → Tx A) : Tx A :=
  match o with Some f => call f | None => nil_pointer end.
(** A nil grant checker denies. *)
Definition require_grant (p : Principal) (client : string) : Tx unit :=
  match RequireGrantTx s with None => fail ErrDenied | Some f => on_err ErrDenied (f p client) end.

Definition beginMode {A} (p : Principal) (project : uuid) (cap : Capability) (client : string) (control : bool)
    (extra : list uuid) (body : Tx (A * bool)) : Tx A :=
  if negb Ready || (negb (fl_Enabled (sv_flags s)) && negb (bool_decide (cap = InspectTeam)) && negb control)
  then fail ErrUnavailable else
  let management := negb (bool_decide (cap = StartApprovedRun)) && negb (bool_decide (cap = InspectTeam)) in
  t ← now;
  if bool_decide (actor p = uuid_Nil) || bool_decide (p_SessionID p = uuid_Nil)
     || (negb (IsZero (p_ExpiresAt p)) && negb (After (p_ExpiresAt p) t))
     || (management && negb (bool_decide (p_Kind p = Human)))
  then fail ErrDenied else
  with_tx_or ErrUnavailable (
    _ ← on_err ErrUnavailable (exec_ (λ db, db));
    _ ← on_err ErrDenied (port (LockProjectSubjects s) (λ f, f p project management extra));
    d ← on_err ErrDenied (port (sv_authorize s) (λ f, f p ReadMetadata
          (mkResource uuid_Nil project "" "tool_platform" uuid_Nil 0 "")));
    _ ← check (d_Allowed d) ErrDenied;
    er ← on_err ErrDenied (memberEpoch project (p_ActorID p));
    _ ← check (CapabilityAllows er.2 cap) ErrDenied;
    _ ← (if bool_decide (p_Kind p = OAuthDelegation) then
           if bool_decide (client = "") then fail ErrDenied else require_grant p client
         else mret ());
    body).
Definition begin {A} (p : Principal) (project : uuid) (cap : Capability) (client : string) (extra : list uuid)
    (body : Tx (A * bool)) : Tx A :=
  beginMode p project cap client false extra body.
Definition beginControl {A} (p : Principal) (project : uuid) (cap : Capability) (extra : list uuid)
    (body : Tx (A * bool)) : Tx A :=
  beginMode p project cap "" true extra body.

(** A required audit entry and an outbox message. *)
Definition event (p : Principal) (project : uuid) (action : string) (details : list (string * json)) : Tx unit :=
  _ ← port (sv_audit s) (λ CreateTx, CreateTx (Some (p_ActorID p)) (Some project) action "" (mk_obj details) "");
  id ← uuid_New;
  EnqueueTx id "tool.event" (Marshal (mk_obj [("project_id", juuid project); ("action", JStr action)])) "local" 3.

(** The delegation's token and family, as they are stored. *)
Definition tokenID (p : Principal) : option uuid :=
  if bool_decide (p_Kind p = OAuthDelegation) then uuid_Parse (p_TokenID p) else None.
Definition familyID (p : Principal) : option uuid :=
  if bool_decide (p_Kind p = OAuthDelegation) then Some (p_ParentGrantID p) else None.

(** [op] is nil for a receipt of the run itself. *)
Definition receipt (p : Principal) (project run op : uuid) (action outcome : string) (details : list (string * json)) : Tx uuid :=
  id ← uuid_New;
  t ← now;
  let operation := if bool_decide (op = uuid_Nil) then None else Some op in
  _ ← exec (insert_receipt id (mkReceiptRow run operation action outcome (normalize (mk_obj details)) t));
  _ ← event p project action (details ++ [("receipt_id", juuid id); ("run_id", juuid run)]
        ++ match operation with Some o => [("operation_id", juuid o)] | None => [] end);
  mret id.

(** *** The scope of a run *)

Record runScope := mkRunScope {
  rs_RepositoryID : Z;
  rs_Repository : string;
  rs_EnvironmentID : uuid;
  rs_Environment : string;
  rs_Reference : string;
  rs_InstallationID : Z;
}.
Definition zero_scope : runScope := mkRunScope 0 "" uuid_Nil "" "" 0.
Definition dec_uuid : decoder uuid := λ j u,
  match j with JStr x => match uuid_Parse x with Some v => (v, true) | None => (u, false) end | _ => (u, false) end.
Definition dec_runScope : decoder runScope := dec_struct [
  field "repository_id" dec_int rs_RepositoryID (λ x c, mkRunScope x (rs_Repository c) (rs_EnvironmentID c) (rs_Environment c) (rs_Reference c) (rs_InstallationID c));
  field "repository" dec_string rs_Repository (λ x c, mkRunScope (rs_RepositoryID c) x (rs_EnvironmentID c) (rs_Environment c) (rs_Reference c) (rs_InstallationID c));
  field "environment_id" dec_uuid rs_EnvironmentID (λ x c, mkRunScope (rs_RepositoryID c) (rs_Repository c) x (rs_Environment c) (rs_Reference c) (rs_InstallationID c));
  field "environment" dec_string rs_Environment (λ x c, mkRunScope (rs_RepositoryID c) (rs_Repository c) (rs_EnvironmentID c) x (rs_Reference c) (rs_InstallationID c));
  field "reference" dec_string rs_Reference (λ x c, mkRunScope (rs_RepositoryID c) (rs_Repository c) (rs_EnvironmentID c) (rs_Environment c) x (rs_InstallationID c));
  field "installation_id" dec_int rs_InstallationID (λ x c, mkRunScope (rs_RepositoryID c) (rs_Repository c) (rs_EnvironmentID c) (rs_Environment c) (rs_Reference c) x)].
Definition runScope_json (c : runScope) : json := JObj [
  ("repository_id", JInt (rs_RepositoryID c));
  ("repository", JStr (rs_Repository c));
  ("environment_id", juuid (rs_EnvironmentID c));
  ("environment", JStr (rs_Environment c));
  ("reference", JStr (rs_Reference c));
  ("installation_id", JInt (rs_InstallationID c))].

(** [readScope]: the scope to put into the run; a row without a snapshot has
    none. *)
Definition readScope (reference : string) (raw : option json) : result (option runScope) :=
  match raw with
  | None => Ok None
  | Some j =>
      match decode dec_runScope zero_scope j with
      | None => Err ErrUnavailable
      | Some c =>
          if (rs_RepositoryID c <? 1)%Z || bool_decide (rs_Repository c = "") || bool_decide (rs_EnvironmentID c = uuid_Nil)
             || bool_decide (rs_Environment c = "") || negb (bool_decide (rs_Reference c = reference))
             || (rs_InstallationID c <? 1)%Z
          then Err ErrUnavailable else Ok (Some c)
      end
  end.
Definition scoped_run (id : uuid) (r : run_row) (g : tool_grant_row) (c : option runScope) : Run :=
  let c := default zero_scope c in
  mkRun id (rn_project_id r) (tg_profile_id g) (tg_binding_id g) (rn_client_id r) (rn_actor_id r)
    (rs_RepositoryID c) (rs_Repository c) (rs_EnvironmentID c) (rs_Environment c) (rn_reference r) (rs_InstallationID c)
    (default "" (rn_commit_sha r)) (rn_expires_at r) (rn_state r).

(** *** Grants *)

Record grantState := mkGrantState {
  gs_Grant : Grant;
  gs_Issuer : uuid;
  gs_ActorEpoch : Z;
  gs_IssuerEpoch : Z;
  gs_ProfileDigest : string;
  gs_PackageDigest : string;
  gs_ProfileApprover : uuid;
  gs_PackageApprover : uuid;
  gs_ProfileApproverEpoch : Z;
  gs_PackageApproverEpoch : Z;
  gs_Manifest : Manifest;
  gs_Target : Target;
  gs_ConnectionID : uuid;
  gs_Connection : Connection;
  gs_EnvironmentID : uuid;
  gs_Environment : string;
  gs_Image : string;
}.
Definition zero_grantState : grantState :=
  mkGrantState (mkGrant 0 0 0 0 0 0 0 "" 0) 0 0 0 "" "" 0 0 0 0 zero_Manifest zero_Target 0 (mkConnection 0 0 "" "") 0 "" "".
Definition with_target (t : Target) (g : grantState) : grantState :=
  mkGrantState (gs_Grant g) (gs_Issuer g) (gs_ActorEpoch g) (gs_IssuerEpoch g) (gs_ProfileDigest g) (gs_PackageDigest g)
    (gs_ProfileApprover g) (gs_PackageApprover g) (gs_ProfileApproverEpoch g) (gs_PackageApproverEpoch g)
    (gs_Manifest g) t (gs_ConnectionID g) (gs_Connection g) (gs_EnvironmentID g) (gs_Environment g) (gs_Image g).

Definition scopeForGrant (g : grantState) : runScope :=
  mkRunScope (g_RepositoryID (gs_Target g)) (g_Owner (gs_Target g) +:+ "/" +:+ g_Repository (gs_Target g))
    (gs_EnvironmentID g) (gs_Environment g) (g_Reference (gs_Target g)) (c_InstallationID (gs_Connection g)).

Definition approver (a : option approval_row) : uuid := match a with Some a => ap_approved_by a | None => uuid_Nil end.
Definition grant_subjects (id : uuid) (db : DB) : option (uuid * list uuid) :=
  g ← grants db !! id;
  p ← profiles db !! tg_profile_id g;
  k ← packages db !! tg_package_id g;
  Some (tg_project_id g, [tg_issued_by g; tg_actor_id g; approver (tp_approval p); approver (tk_approval k)]).
Definition subjectsForGrant (id : uuid) : Tx (uuid * list uuid) := on_err ErrDenied (query_row (grant_subjects id)).

(** The rows a grant rests on. *)
Record grant_rows := mkGrantRows {
  j_grant : tool_grant_row;
  j_profile : profile_row;
  j_artifact : artifact_row;
  j_package : package_row;
  j_client : oauth_client_row;
  j_binding : tool_binding_row;
  j_environment : environment_row;
  j_connection : connection_row;
  j_workload : workload_row;
  j_profile_approval : approval_row;
  j_package_approval : approval_row;
}.
Definition tool_environments : list string := ["development"; "alpha"; "uat"].
Definition grant_chain (t : time) (id user : uuid) (client : string) (db : DB) : option grant_rows :=
  g ← grants db !! id;
  p ← profiles db !! tg_profile_id g;
  a ← artifacts db !! tp_artifact_id p;
  k ← packages db !! tg_package_id g;
  cl ← oauth_clients db !! tg_client_id g;
  b ← bindings db !! tg_binding_id g;
  env ← environments db !! tb_environment_id b;
  c ← connections db !! tb_connection_id b;
  w ← workloads db !! tg_workload_id g;
  pa ← tp_approval p;
  ka ← tk_approval k;
  if bool_decide (tp_project_id p = tg_project_id g) && bool_decide (tp_digest p = tg_profile_digest g)
     && bool_decide (ta_project_id a = tg_project_id g) && bool_decide (tk_profile_id k = tg_profile_id g)
     && bool_decide (tk_digest k = tg_package_digest g) && bool_decide (tb_project_id b = tg_project_id g)
     && bool_decide (en_project_id env = tg_project_id g) && bool_decide (en_name env ∈ tool_environments)
     && bool_decide (tc_project_id c = tg_project_id g) && bool_decide (tw_project_id w = tg_project_id g)
     && bool_decide (tg_actor_id g = user) && bool_decide (tg_client_id g = client)
     && bool_decide (tg_revoked_at g = None) && After (tg_expires_at g) t
     && After (ap_approved_until pa) t && bool_decide (tp_revoked_at p = None) && bool_decide (ta_revoked_at a = None)
     && After (ap_approved_until ka) t && bool_decide (tk_revoked_at k = None) && bool_decide (tb_revoked_at b = None)
     && bool_decide (tc_revoked_at c = None) && bool_decide (tw_revoked_at w = None) && cl_enabled cl
  then Some (mkGrantRows g p a k cl b env c w pa ka) else None.
(** [FOR SHARE OF g,p,a,k,cl,b,env,c,w]. *)
Definition chain_locks (id : uuid) (j : grant_rows) : list lock :=
  [LockToolRow "tool_grants" id; LockToolRow "tool_profiles" (tg_profile_id (j_grant j));
   LockToolRow "tool_artifacts" (tp_artifact_id (j_profile j)); LockToolRow "tool_profile_packages" (tg_package_id (j_grant j));
   LockClient (tg_client_id (j_grant j)); LockToolRow "tool_bindings" (tg_binding_id (j_grant j));
   LockToolRow "environments" (tb_environment_id (j_binding j)); LockToolRow "tool_connections" (tb_connection_id (j_binding j));
   LockToolRow "tool_workloads" (tg_workload_id (j_grant j))].

(** What the scan fills in; the manifest is decoded later. *)
Definition grant_state (id : uuid) (j : grant_rows) (m : Manifest) : grantState :=
  let g := j_grant j in let b := j_binding j in let c := j_connection j in
  mkGrantState
    (mkGrant id (tg_project_id g) (tg_profile_id g) (tg_package_id g) (tg_binding_id g) (tg_workload_id g) (tg_actor_id g)
       (tg_client_id g) (tg_expires_at g))
    (tg_issued_by g) (tg_membership_epoch g) (tg_issuer_epoch g) (tg_profile_digest g) (tg_package_digest g)
    (ap_approved_by (j_profile_approval j)) (ap_approved_by (j_package_approval j))
    (ap_approver_epoch (j_profile_approval j)) (ap_approver_epoch (j_package_approval j)) m
    (mkTarget (tb_repository_id b) (tb_owner_name b) (tb_repository_name b) (tb_reference b) "" "")
    (tb_connection_id b) (mkConnection (tc_app_id c) (tc_installation_id c) (tc_ciphertext c) (tc_nonce c))
    (tb_environment_id b) (en_name (j_environment j)) (tw_image_digest (j_workload j)).

(** The subjects whose membership must be what it was. *)
Definition grant_authorities (j : grant_rows) : list (uuid * Z * Capability) :=
  [(tg_actor_id (j_grant j), tg_membership_epoch (j_grant j), StartApprovedRun);
   (tg_issued_by (j_grant j), tg_issuer_epoch (j_grant j), ManageConnections);
   (ap_approved_by (j_profile_approval j), ap_approver_epoch (j_profile_approval j), ApproveProtected);
   (ap_approved_by (j_package_approval j), ap_approver_epoch (j_package_approval j), ApproveProtected)].

(** The manifest a profile row stores, if it still is what the digest and the
    artifact say. *)
Definition stored_manifest (p : profile_row) (a : artifact_row) : option Manifest :=
  m ← decode dec_Manifest zero_Manifest (tp_manifest p);
  match Canonical m with
  | Err _ => None
  | Ok canonical =>
      if bool_decide (Digest canonical = tp_digest p) && bool_decide (mf_ArtifactDigest m = ta_digest a)
         && bool_decide (Digest (ta_source a) = ta_digest a)
         && match ValidateSource (ta_name a) (ta_source a) with Ok _ => true | Err _ => false end
      then Some m else None
  end.
Definition native_package (client version name source digest : string) (profile : uuid) : result Package :=
  NativePackage client version name source digest
    [mkPackageOptions (fl_Endpoint (sv_flags s)) (uuid_String profile) 1 None (PackageExporter s)].
(** The stored package is the one its digest names, and the one the exporter
    makes now. *)
Definition package_current (profile : uuid) (p : profile_row) (a : artifact_row) (k : package_row) (harness : string) : bool :=
  match decode dec_Package zero_Package (tk_content k) with
  | None => false
  | Some pkg =>
      bool_decide (Digest (Marshal (Package_json pkg)) = tk_digest k) && bool_decide (pk_ProfileDigest pkg = tp_digest p)
      && bool_decide (pk_Harness pkg = harness)
      && match native_package (pk_Harness pkg) (pk_Version pkg) (ta_name a) (ta_source a) (tp_digest p) profile with
         | Err _ => false
         | Ok expected => bool_decide (Digest (Marshal (Package_json expected)) = tk_digest k)
         end
  end.

Definition grantTx (id user : uuid) (client : string) : Tx grantState :=
  t ← now;
  j ← on_err ErrDenied (query_row (grant_chain t id user client));
  _ ← for_each (chain_locks id j) note_lock;
  _ ← for_each (grant_authorities j) (λ '(subject, epoch, cap),
        er ← on_err ErrDenied (memberEpoch (tg_project_id (j_grant j)) subject);
        check ((er.1 =? epoch)%Z && CapabilityAllows er.2 cap) ErrDenied);
  match stored_manifest (j_profile j) (j_artifact j) with
  | None => fail ErrDenied
  | Some m =>
      _ ← check (package_current (tg_profile_id (j_grant j)) (j_profile j) (j_artifact j) (j_package j) (cl_harness (j_client j)))
            ErrDenied;
      mret (grant_state id j m)
  end.

(** *** Runs *)

Record runState := mkRunState {
  rs_Run : Run;
  rs_GrantID : uuid;
  rs_SessionID : uuid;
  rs_Kind : string;
  rs_Family : option uuid;
  rs_Token : option uuid;
  rs_AuthorityExpiry : time;
  rs_Tree : string;
  rs_ScopeKnown : bool;
  rs_ProviderOps : Z;
  rs_Bytes : Z;
}.
Definition run_grant (id : uuid) (db : DB) : option (run_row * tool_grant_row) :=
  r ← runs db !! id; g ← grants db !! rn_grant_id r; Some (r, g).

Definition readRun (id : uuid) (lock : bool) : Tx runState :=
  rg ← query_row (run_grant id);
  let '(r, g) := rg in
  _ ← (if lock then note_lock (LockRun id) else mret ());
  c ← lift (readScope (rn_reference r) (rn_scope r));
  mret (mkRunState (scoped_run id r g c) (rn_grant_id r) (rn_session_id r) (rn_parent_kind r) (rn_parent_family r)
          (rn_parent_token r) (rn_authority_expires_at r) (default "" (rn_tree_sha r)) (bool_decide (is_Some c))
          (rn_provider_operations r) (rn_result_bytes r)).

Definition scopeMatchesGrant (r : runState) (g : grantState) : bool :=
  let c := scopeForGrant g in
  rs_ScopeKnown r && (r_RepositoryID (rs_Run r) =? rs_RepositoryID c)%Z && bool_decide (r_Repository (rs_Run r) = rs_Repository c)
  && bool_decide (r_EnvironmentID (rs_Run r) = rs_EnvironmentID c) && bool_decide (r_Environment (rs_Run r) = rs_Environment c)
  && bool_decide (r_Reference (rs_Run r) = rs_Reference c) && (r_InstallationID (rs_Run r) =? rs_InstallationID c)%Z.

(** The principal whose authority a stored delegation carries. *)
Definition stored_principal (kind : string) (user session : uuid) (family token : option uuid) (expires : time) : Principal :=
  Policy.mkPrincipal kind user user uuid_Nil (default uuid_Nil family) expires session uuid_Nil
    (match token with Some t => uuid_String t | None => "" end).
Definition principalForRun (r : runState) : Principal :=
  stored_principal (rs_Kind r) (r_OwnerID (rs_Run r)) (rs_SessionID r) (rs_Family r) (rs_Token r)
    (earliest [rs_AuthorityExpiry r; r_ExpiresAt (rs_Run r)]).

Definition discoverRun (id : uuid) : Tx (uuid * list uuid) :=
  g ← on_err ErrDenied (query_row (λ db, rn_grant_id <$> runs db !! id));
  subjectsForGrant g.

(** The run, and for [active] ones the grant behind it. *)
Definition runTx (p : Principal) (client : string) (id : uuid) (active : bool) : Tx (runState * grantState) :=
  r ← on_err ErrDenied (readRun id true);
  if negb (bool_decide (r_OwnerID (rs_Run r) = actor p)) || negb (bool_decide (r_ClientID (rs_Run r) = client))
     || (bool_decide (p_Kind p = OAuthDelegation) && negb (bool_decide (rs_SessionID r = p_SessionID p)))
  then fail ErrDenied else
  if bool_decide (p_Kind p = OAuthDelegation)
     && (negb (bool_decide (rs_Kind r = OAuthDelegation)) || negb (bool_decide (rs_Family r = Some (p_ParentGrantID p))))
  then fail ErrDenied else
  if negb active then mret (r, zero_grantState) else
  t ← now;
  if negb (bool_decide (r_State (rs_Run r) = "active")) || negb (After (r_ExpiresAt (rs_Run r)) t)
     || negb (After (rs_AuthorityExpiry r) t)
  then fail ErrDenied else
  g ← grantTx (rs_GrantID r) (r_OwnerID (rs_Run r)) client;
  if negb (scopeMatchesGrant r g) then fail ErrDenied else
  let tg := gs_Target g in
  mret (r, with_target (mkTarget (g_RepositoryID tg) (g_Owner tg) (g_Repository tg) (g_Reference tg) (r_Commit (rs_Run r)) (rs_Tree r)) g).

(** The stored authority of a run. *)
Definition run_parent (id : uuid) (db : DB) : option Principal :=
  r ← runs db !! id;
  Some (stored_principal (rn_parent_kind r) (rn_actor_id r) (rn_session_id r) (rn_parent_family r) (rn_parent_token r)
          (rn_authority_expires_at r)).

Definition beginRun {A} (p : Principal) (client : string) (id : uuid) (cap : Capability) (body : Tx (A * bool)) : Tx A :=
  ps ← discoverRun id;
  parent ← on_err ErrDenied (query_row (run_parent id));
  begin p ps.1 cap client (if bool_decide (cap = InspectTeam) then [] else ps.2) (
    _ ← (if bool_decide (cap = StartApprovedRun) && bool_decide (p_Kind parent = OAuthDelegation)
         then require_grant parent client else mret ());
    body).
End Platform.
