(* ===== verification/RunGrants.v ===== *)
(** * The agent tool platform: issuing grants, preparing and cancelling runs

    [internal/runs/grants.go] and [lifecycle.go]: a grant ties an approved
    profile and package to a binding, a workload, an actor and a client; a run
    is prepared in one transaction, resolved at the provider, and finished in
    another; archiving a project, offboarding a member and revoking a resource
    cancel the runs that depend on it. *)
From S2P Require Import Prelude GoStrings GoEncoding GoNet GoStruct Policy Schema Database Crypto Jobs Authority AuditLog Automation Runner Broker Runs.

(** ** Definitions *)

(** *** Cancellation ([lifecycle.go], and [cancelRunTx] of [operations.go]) *)

Definition on_tools (g : ToolDB → ToolDB) : DB → DB := upd_db_tools g.
(** [COALESCE(revoked_at, NOW())]. *)
Definition coalesce (o : option time) (t : time) : option time := Some (default t o).

Definition set_run_state (st : string) (r : run_row) : run_row :=
  mkRunRow (rn_project_id r) (rn_grant_id r) (rn_actor_id r) (rn_session_id r) (rn_client_id r) (rn_parent_kind r)
    (rn_parent_family r) (rn_parent_token r) (rn_authority_expires_at r) st (rn_commit_sha r) (rn_tree_sha r) (rn_reference r)
    (rn_expires_at r) (rn_created_at r) (rn_provider_operations r) (rn_result_bytes r) (rn_request_key r) (rn_request_digest r)
    (rn_scope r).
Definition set_run_commit (commit tree : string) (r : run_row) : run_row :=
  mkRunRow (rn_project_id r) (rn_grant_id r) (rn_actor_id r) (rn_session_id r) (rn_client_id r) (rn_parent_kind r)
    (rn_parent_family r) (rn_parent_token r) (rn_authority_expires_at r) "active" (Some commit) (Some tree) (rn_reference r)
    (rn_expires_at r) (rn_created_at r) (rn_provider_operations r) (rn_result_bytes r) (rn_request_key r) (rn_request_digest r)
    (rn_scope r).
Definition set_run_counts (ops bytes : Z) (r : run_row) : run_row :=
  mkRunRow (rn_project_id r) (rn_grant_id r) (rn_actor_id r) (rn_session_id r) (rn_client_id r) (rn_parent_kind r)
    (rn_parent_family r) (rn_parent_token r) (rn_authority_expires_at r) (rn_state r) (rn_commit_sha r) (rn_tree_sha r) (rn_reference r)
    (rn_expires_at r) (rn_created_at r) ops bytes (rn_request_key r) (rn_request_digest r) (rn_scope r).
Definition set_operation (status outcome : string) (cancel : bool) (t : time) (o : operation_row) : operation_row :=
  mkOperationRow (xo_run_id o) (xo_kind o) (xo_arguments o) (xo_request_key o) (xo_request_digest o) (xo_parent_kind o)
    (xo_parent_family o) (xo_parent_token o) (xo_authority_expires_at o) status outcome cancel (xo_fence o) (xo_workload_id o)
    (xo_lease_until o) (xo_deadline o) (xo_expires_at o) (xo_created_at o) t.
Definition set_attempt (st outcome : string) (t : time) (a : attempt_row) : attempt_row :=
  mkAttemptRow (at_ticket_id a) (at_workload_id a) st (at_deadline a) outcome (Some t).

Definition set_state (id : uuid) (st : string) : DB → DB := on_tools (upd_t_tool_runs (alter (set_run_state st) id)).
(** [CASE WHEN status IN('queued','leased') THEN 'cancelled' ELSE status END]. *)
Definition cancelled_status (st : string) : string := if bool_decide (st ∈ ["queued"; "leased"]) then "cancelled" else st.
Definition cancel_operations (run : uuid) (t : time) : DB → DB :=
  on_tools (upd_t_tool_operations (update_where (λ _ o, bool_decide (xo_run_id o = run))
    (λ o, set_operation (cancelled_status (xo_status o)) (xo_outcome o) true t o))).
(** The leased attempts of some operations. *)
Definition cancel_attempts (mine : uuid → bool) (t : time) : DB → DB :=
  on_tools (upd_t_tool_attempts (update_where (λ k a, mine k.1 && bool_decide (at_state a = "leased"))
    (set_attempt "cancelled" "cancelled" t))).
Definition run_operation (run : uuid) (db : DB) (o : uuid) : bool :=
  match operations db !! o with Some x => bool_decide (xo_run_id x = run) | None => false end.

Definition cancelRunTx (id : uuid) (st : string) : Tx unit :=
  _ ← exec_ (set_state id st);
  t ← now;
  _ ← exec_ (cancel_operations id t);
  exec_ (λ db, cancel_attempts (run_operation id db) t db).

(** Runs that satisfy a condition, in the order of their identifiers. *)
Definition selected_runs (p : uuid → run_row → bool) (db : DB) : list uuid := map fst (select p (runs db)).
Definition cancelProjectRunsTx (project : uuid) : Tx unit :=
  ids ← query (selected_runs (λ _ r, bool_decide (rn_project_id r = project)));
  _ ← for_each ids (λ id, note_lock (LockRun id));
  for_each ids (λ id, cancelRunTx id "revoked").

(** [UPDATE <table> SET revoked_at=COALESCE(revoked_at,NOW()) WHERE ...]. *)
Definition revoke_artifacts (p : uuid → artifact_row → bool) (t : time) : DB → DB :=
  on_tools (upd_t_tool_artifacts (update_where p (λ r,
    mkArtifactRow (ta_project_id r) (ta_name r) (ta_digest r) (ta_source r) (ta_created_by r) (ta_created_at r) (coalesce (ta_revoked_at r) t)))).
Definition revoke_profiles (p : uuid → profile_row → bool) (t : time) : DB → DB :=
  on_tools (upd_t_tool_profiles (update_where p (λ r,
    mkProfileRow (tp_project_id r) (tp_artifact_id r) (tp_digest r) (tp_manifest r) (tp_created_by r) (tp_approval r)
      (coalesce (tp_revoked_at r) t) (tp_created_at r)))).
Definition revoke_packages (p : uuid → package_row → bool) (t : time) : DB → DB :=
  on_tools (upd_t_tool_packages (update_where p (λ r,
    mkPackageRow (tk_profile_id r) (tk_harness r) (tk_version r) (tk_format r) (tk_digest r) (tk_content r) (tk_compatibility r)
      (tk_created_by r) (tk_approval r) (coalesce (tk_revoked_at r) t)))).
Definition revoke_connections (p : uuid → connection_row → bool) (t : time) : DB → DB :=
  on_tools (upd_t_tool_connections (update_where p (λ r,
    mkConnectionRow (tc_project_id r) (tc_app_id r) (tc_installation_id r) (tc_ciphertext r) (tc_nonce r) (tc_created_by r)
      (tc_created_at r) (coalesce (tc_revoked_at r) t)))).
Definition revoke_bindings (p : uuid → tool_binding_row → bool) (t : time) : DB → DB :=
  on_tools (upd_t_tool_bindings (update_where p (λ r,
    mkToolBinding (tb_project_id r) (tb_connection_id r) (tb_environment_id r) (tb_repository_id r) (tb_owner_name r)
      (tb_repository_name r) (tb_reference r) (tb_created_at r) (coalesce (tb_revoked_at r) t)))).
Definition revoke_workloads (p : uuid → workload_row → bool) (t : time) : DB → DB :=
  on_tools (upd_t_tool_workloads (update_where p (λ r,
    mkWorkloadRow (tw_project_id r) (tw_certificate_sha256 r) (tw_image_digest r) (tw_created_by r) (tw_created_at r)
      (coalesce (tw_revoked_at r) t)))).
Definition revoke_grants (p : uuid → tool_grant_row → bool) (t : time) : DB → DB :=
  on_tools (upd_t_tool_grants (update_where p (λ r,
    mkToolGrant (tg_project_id r) (tg_profile_id r) (tg_package_id r) (tg_profile_digest r) (tg_package_digest r) (tg_binding_id r)
      (tg_workload_id r) (tg_actor_id r) (tg_client_id r) (tg_issued_by r) (tg_membership_epoch r) (tg_issuer_epoch r)
      (tg_expires_at r) (coalesce (tg_revoked_at r) t) (tg_created_at r)))).

Definition ArchiveProjectTx (project : uuid) : Tx unit :=
  t ← now;
  _ ← exec_ (revoke_connections (λ _ r, bool_decide (tc_project_id r = project)) t);
  _ ← exec_ (revoke_workloads (λ _ r, bool_decide (tw_project_id r = project)) t);
  _ ← exec_ (revoke_grants (λ _ r, bool_decide (tg_project_id r = project)) t);
  _ ← exec_ (revoke_bindings (λ _ r, bool_decide (tb_project_id r = project)) t);
  _ ← exec_ (revoke_profiles (λ _ r, bool_decide (tp_project_id r = project)) t);
  _ ← exec_ (revoke_artifacts (λ _ r, bool_decide (ta_project_id r = project)) t);
  _ ← exec_ (λ db, revoke_packages (λ _ k, match profiles db !! tk_profile_id k with
                                          | Some p => bool_decide (tp_project_id p = project) | None => false end) t db);
  cancelProjectRunsTx project.

(** A row of a table that satisfies a condition; [id IN (SELECT id FROM ...)]. *)
Definition row_is {V} (t : gmap uuid V) (id : uuid) (p : V → bool) : bool :=
  match t !! id with Some r => p r | None => false end.
Definition revoked (o : option time) : bool := bool_decide (is_Some o).
Definition org_project (org project : uuid) (db : DB) : bool :=
  row_is (projects db) project (λ r, bool_decide (pr_organization_id r = Some org)).
(** [offboardGrantPredicate]. *)
Definition offboard_grant (target : uuid) (db : DB) (g : tool_grant_row) : bool :=
  bool_decide (tg_actor_id g = target) || bool_decide (tg_issued_by g = target) || revoked (tg_revoked_at g)
  || row_is (bindings db) (tg_binding_id g) (λ b, row_is (connections db) (tb_connection_id b) (λ c,
       bool_decide (tc_created_by c = target) || revoked (tc_revoked_at c)))
  || row_is (workloads db) (tg_workload_id g) (λ w, bool_decide (tw_created_by w = target) || revoked (tw_revoked_at w))
  || row_is (profiles db) (tg_profile_id g) (λ p, bool_decide (ap_approved_by <$> tp_approval p = Some target))
  || row_is (packages db) (tg_package_id g) (λ k, bool_decide (ap_approved_by <$> tk_approval k = Some target)).
Definition affected_grant (org target : uuid) (db : DB) (g : tool_grant_row) : bool :=
  org_project org (tg_project_id g) db && offboard_grant target db g.

Definition OffboardTx (org target : uuid) : Tx Z :=
  ids ← query (λ db, selected_runs (λ _ r,
          org_project org (rn_project_id r) db && bool_decide (rn_state r ∈ ["preparing"; "active"])
          && (bool_decide (rn_actor_id r = target) || row_is (grants db) (rn_grant_id r) (affected_grant org target db))) db);
  t ← now;
  _ ← exec_ (λ db, revoke_connections (λ _ r, bool_decide (tc_created_by r = target) && org_project org (tc_project_id r) db) t db);
  _ ← exec_ (λ db, revoke_workloads (λ _ r, bool_decide (tw_created_by r = target) && org_project org (tw_project_id r) db) t db);
  _ ← exec_ (λ db, revoke_grants (λ _ g, affected_grant org target db g) t db);
  _ ← for_each ids (λ id, cancelRunTx id "revoked");
  mret (Z.of_nat (length ids)).

(** The grants that depend on a resource; [None] for an unknown kind. *)
Definition depends (kind : string) (id : uuid) (db : DB) : option (uuid → tool_grant_row → bool) :=
  if bool_decide (kind = "artifact") then
    Some (λ _ g, row_is (profiles db) (tg_profile_id g) (λ p, bool_decide (tp_artifact_id p = id)))
  else if bool_decide (kind = "profile") then Some (λ _ g, bool_decide (tg_profile_id g = id))
  else if bool_decide (kind = "package") then Some (λ _ g, bool_decide (tg_package_id g = id))
  else if bool_decide (kind = "connection") then
    Some (λ _ g, row_is (bindings db) (tg_binding_id g) (λ b, bool_decide (tb_connection_id b = id)))
  else if bool_decide (kind = "binding") then Some (λ _ g, bool_decide (tg_binding_id g = id))
  else if bool_decide (kind = "workload") then Some (λ _ g, bool_decide (tg_workload_id g = id))
  else if bool_decide (kind = "grant") then Some (λ gid _, bool_decide (gid = id))
  else None.
Definition known_kinds : list string := ["artifact"; "profile"; "package"; "connection"; "binding"; "workload"; "grant"].
Definition dependent (kind : string) (id : uuid) (db : DB) (gid : uuid) (g : tool_grant_row) : bool :=
  match depends kind id db with Some p => p gid g | None => false end.

Definition revokeAffectedRunsTx (project id : uuid) (kind : string) : Tx unit :=
  if negb (bool_decide (kind ∈ known_kinds)) then fail ErrInvalid else
  t ← now;
  _ ← exec_ (λ db, revoke_grants (λ gid g, bool_decide (tg_project_id g = project) && dependent kind id db gid g) t db);
  ids ← query (λ db, selected_runs (λ _ r,
          bool_decide (rn_project_id r = project) && row_is (grants db) (rn_grant_id r) (dependent kind id db (rn_grant_id r))) db);
  _ ← for_each ids (λ rid, note_lock (LockRun rid));
  for_each ids (λ rid, cancelRunTx rid "revoked").

(** *** Statements of [grants.go] *)

Definition set_grant (id : uuid) (expires : time) (g : Grant) : Grant :=
  mkGrant id (g_ProjectID g) (g_ProfileID g) (g_PackageID g) (g_BindingID g) (g_WorkloadID g) (g_ActorID g) (g_ClientID g) expires.
(** The foreign keys that name a project must name a row of that project. *)
Definition in_project {V} (t : gmap uuid V) (project_of : V → uuid) (project id : uuid) : bool :=
  row_is t id (λ r, bool_decide (project_of r = project)).
Definition insert_grant (id : uuid) (g : tool_grant_row) (db : DB) : option DB :=
  if bool_decide (is_Some (grants db !! id)) || negb (bool_decide (is_Some (projects db !! tg_project_id g)))
     || negb (in_project (profiles db) tp_project_id (tg_project_id g) (tg_profile_id g))
     || negb (bool_decide (is_Some (packages db !! tg_package_id g)))
     || negb (in_project (bindings db) tb_project_id (tg_project_id g) (tg_binding_id g))
     || negb (in_project (workloads db) tw_project_id (tg_project_id g) (tg_workload_id g))
     || bool_decide (tg_actor_id g ∉ users db) || bool_decide (oauth_clients db !! tg_client_id g = None)
     || bool_decide (tg_issued_by g ∉ users db)
  then None else Some (on_tools (upd_t_tool_grants <[id := g]>) db).

Definition kinds_of_parent : list string := [Human; OAuthDelegation].
Definition same_request (r r' : run_row) : Prop :=
  rn_actor_id r' = rn_actor_id r ∧ rn_client_id r' = rn_client_id r ∧ rn_request_key r' = rn_request_key r.
#[export] Instance same_request_dec r r' : base.Decision (same_request r r').
Proof. unfold same_request. apply _. Defined.
(** An optional foreign key. *)
Definition optional_key {V} (t : gmap uuid V) (o : option uuid) : bool :=
  match o with Some k => bool_decide (is_Some (t !! k)) | None => true end.
Definition insert_run (id : uuid) (r : run_row) (db : DB) : option DB :=
  if bool_decide (is_Some (runs db !! id)) || negb (bool_decide (is_Some (projects db !! rn_project_id r)))
     || negb (in_project (grants db) tg_project_id (rn_project_id r) (rn_grant_id r))
     || bool_decide (rn_actor_id r ∉ users db) || bool_decide (sessions db !! rn_session_id r = None)
     || negb (optional_key (oauth_families db) (rn_parent_family r)) || negb (optional_key (oauth_tokens db) (rn_parent_token r))
     || negb (bool_decide (rn_parent_kind r ∈ kinds_of_parent)) || negb (varchar 200 (rn_reference r))
     || bool_decide (map_Exists (λ _ r', same_request r r') (runs db))
  then None else Some (on_tools (upd_t_tool_runs <[id := r]>) db).
Definition insert_resolution (id : uuid) (a : resolution_row) (db : DB) : option DB :=
  if bool_decide (is_Some (resolutions db !! id)) || bool_decide (runs db !! ra_run_id a = None)
  then None else Some (on_tools (upd_t_tool_resolutions <[id := a]>) db).
(** [provider_operations=provider_operations+1], within the [CHECK]. *)
Definition bump_run (id : uuid) (db : DB) : option DB :=
  match runs db !! id with
  | None => Some db
  | Some r =>
      if (rn_provider_operations r + 1 <=? 100)%Z
      then Some (on_tools (upd_t_tool_runs <[id := set_run_counts (rn_provider_operations r + 1) (rn_result_bytes r) r]>) db)
      else None
  end.
Definition set_resolution (st outcome : string) (finished : option time) (a : resolution_row) : resolution_row :=
  mkResolution (ra_run_id a) st (ra_deadline a) outcome finished.

(** The run a request key names. *)
Definition run_by_key (user : uuid) (client key : string) (db : DB) : option (uuid * string) :=
  '(id, r) ← head (select (λ _ r, bool_decide (rn_actor_id r = user) && bool_decide (rn_client_id r = client)
                                 && bool_decide (rn_request_key r = key)) (runs db));
  Some (id, rn_request_digest r).

(** The approvers of the profile and package a grant names, for an enabled
    client of the package's harness. *)
Definition grant_approvers (g : Grant) (db : DB) : option (uuid * uuid) :=
  p ← profiles db !! g_ProfileID g;
  k ← packages db !! g_PackageID g;
  cl ← oauth_clients db !! g_ClientID g;
  pa ← tp_approval p;
  ka ← tk_approval k;
  if bool_decide (tk_profile_id k = g_ProfileID g) && bool_decide (cl_harness cl = tk_harness k)
     && bool_decide (tp_project_id p = g_ProjectID g) && cl_enabled cl
  then Some (ap_approved_by pa, ap_approved_by ka) else None.
Definition grant_digests (g : Grant) (db : DB) : option (string * string) :=
  p ← profiles db !! g_ProfileID g;
  k ← packages db !! g_PackageID g;
  if bool_decide (tk_profile_id k = g_ProfileID g) && bool_decide (tp_project_id p = g_ProjectID g)
     && bool_decide (tp_revoked_at p = None) && bool_decide (tk_revoked_at k = None)
     && bool_decide (is_Some (tp_approval p)) && bool_decide (is_Some (tk_approval k))
  then Some (tp_digest p, tk_digest k) else None.

Definition with_duration (d : Z) (reference : string) (i : CreateRunRequest) : CreateRunRequest :=
  mkCreateRunRequest (i_FamilyID i) (i_GrantID i) (i_RequestKey i) reference d.

(** What an admitted preparation is resolved with. *)
Record prepared := mkPrepared {
  pp_Run : uuid;
  pp_Attempt : uuid;
  pp_Deadline : time;
  pp_Connection : Connection;
  pp_Target : Target;
}.

Section Grants.
Context `{P : Primitives} `{Y : YAML} `{JS : JSONSchema} `{U : UUIDParse} `{R : Remote} `{E : Elsewhere} (s : Service).

Definition IssueGrant (p : Principal) (g : Grant) : Tx Grant :=
  if negb (Enabled s) || negb (fl_Admission (sv_flags s)) then fail ErrUnavailable else
  t ← now;
  if negb (validClient (g_ClientID g)) || bool_decide (g_ActorID g = uuid_Nil) || negb (After (g_ExpiresAt g) t)
     || After (g_ExpiresAt g) (t + 24 * Hour)
  then fail ErrInvalid else
  approvers ← on_err ErrDenied (query_row (grant_approvers g));
  begin s p (g_ProjectID g) ManageConnections "" [g_ActorID g; approvers.1; approvers.2] (
    er ← on_err ErrDenied (memberEpoch (g_ProjectID g) (g_ActorID g));
    _ ← check (CapabilityAllows er.2 StartApprovedRun) ErrDenied;
    issuer ← memberEpoch (g_ProjectID g) (p_ActorID p);
    digests ← on_err ErrDenied (query_row (grant_digests g));
    id ← uuid_New;
    let g := set_grant id (earliest [g_ExpiresAt g; p_ExpiresAt p]) g in
    _ ← on_err ErrDenied (exec (insert_grant id
          (mkToolGrant (g_ProjectID g) (g_ProfileID g) (g_PackageID g) digests.1 digests.2 (g_BindingID g) (g_WorkloadID g)
             (g_ActorID g) (g_ClientID g) (p_ActorID p) er.1 issuer.1 (g_ExpiresAt g) None t)));
    _ ← grantTx s id (g_ActorID g) (g_ClientID g);
    _ ← event s p (g_ProjectID g) "tool.grant.issued"
          [("grant_id", juuid id); ("actor_id", juuid (g_ActorID g)); ("client_id", JStr (g_ClientID g))];
    mret (g, true)).

(** *** Reading runs *)

(** [GetRun]. *)
Definition with_state (st : string) (r : Run) : Run :=
  mkRun (r_ID r) (r_ProjectID r) (r_ProfileID r) (r_BindingID r) (r_ClientID r) (r_OwnerID r) (r_RepositoryID r) (r_Repository r)
    (r_EnvironmentID r) (r_Environment r) (r_Reference r) (r_InstallationID r) (r_Commit r) (r_ExpiresAt r) st.
Definition GetRun (p : Principal) (client : string) (id : uuid) : Tx Run :=
  beginRun s p client id InspectTeam (
    rg ← runTx s p client id false;
    t ← now;
    let r := rs_Run rg.1 in
    mret (if After (r_ExpiresAt r) t then r else with_state "expired" r, false)).

(** [ORDER BY created_at DESC LIMIT 100]. *)
Definition newest_run (a b : uuid * run_row) : Prop := (rn_created_at b.2 <= rn_created_at a.2)%Z.
#[export] Instance newest_run_dec : RelDecision newest_run.
Proof. intros a b. unfold newest_run. apply _. Defined.
Definition AvailableRuns (p : Principal) (client : string) : Tx (list Run) :=
  if negb (Enabled s) then fail ErrUnavailable else
  if bool_decide (actor p = uuid_Nil) || negb (validClient client) then fail ErrDenied else
  t ← now;
  rows ← on_err ErrUnavailable (query (λ db, merge_sort newest_run (select (λ _ r,
           bool_decide (rn_actor_id r = p_ActorID p) && bool_decide (rn_session_id r = p_SessionID p)
           && bool_decide (rn_client_id r = client) && bool_decide (rn_state r = "active") && After (rn_expires_at r) t)
           (runs db))));
  for_fold (map fst (take 100 rows)) [] (λ out id,
    d ← attempt (discoverRun id);
    match d with
    | Err _ => mret out
    | Ok _ =>
        x ← attempt (beginRun s p client id StartApprovedRun (rg ← runTx s p client id true; mret (rs_Run rg.1, false)));
        mret (match x with Ok r => out ++ [r] | Err _ => out end)
    end).

(** *** Preparing a run *)

(** The principal a run is created for. *)
Definition run_principal (p : Principal) (client : string) (i : CreateRunRequest) : Tx Principal :=
  if bool_decide (p_Kind p = Human) then
    if bool_decide (i_FamilyID i = uuid_Nil) then fail ErrDenied else
    match FamilyPrincipalTx s with
    | None => fail ErrDenied
    | Some f =>
        d ← on_err ErrDenied (f p client (i_FamilyID i));
        if negb (bool_decide (p_ActorID d = p_ActorID p)) then fail ErrDenied else mret d
    end
  else if negb (bool_decide (i_FamilyID i = uuid_Nil)) && negb (bool_decide (i_FamilyID i = p_ParentGrantID p)) then fail ErrDenied
  else mret p.

Definition request_digest (p : Principal) (i : CreateRunRequest) : string :=
  Digest (Marshal (JObj [
    ("GrantID", juuid (i_GrantID i)); ("Reference", JStr (i_Reference i)); ("Seconds", JInt (i_DurationSeconds i));
    ("Session", juuid (p_SessionID p)); ("Family", juuid (p_ParentGrantID p)); ("Token", JStr (p_TokenID p))])).

(** The transaction that admits a preparation: the principal, and the run it
    found or the preparation it recorded. *)
Definition prepare_body (p : Principal) (client : string) (project : uuid) (i : CreateRunRequest) : Tx (Principal * (uuid + prepared) * bool) :=
  p ← run_principal p client i;
  g ← grantTx s (i_GrantID i) (p_ActorID p) client;
  let tg := gs_Target g in
  let i := with_duration (i_DurationSeconds i) (if bool_decide (i_Reference i = "") then g_Reference tg else i_Reference i) i in
  if negb (bool_decide (i_Reference i = g_Reference tg)) then fail ErrDenied else
  let digest := request_digest p i in
  found ← query (run_by_key (p_ActorID p) client (i_RequestKey i));
  match found with
  | Some (existing, old) => if negb (bool_decide (old = digest)) then fail ErrConflict else mret (p, inl existing, false)
  | None =>
      sessionExpiry ← on_err ErrDenied (query_row (λ db, se_expires_at <$> sessions db !! p_SessionID p));
      t ← now;
      let m := gs_Manifest g in
      let stop := earliest [(t + i_DurationSeconds i * Second)%Z; (t + mf_MaxSeconds m * Second)%Z; g_ExpiresAt (gs_Grant g);
                           p_ExpiresAt p; sessionExpiry] in
      id ← uuid_New;
      _ ← on_err ErrConflict (exec (insert_run id
            (mkRunRow project (i_GrantID i) (p_ActorID p) (p_SessionID p) client (p_Kind p) (familyID p) (tokenID p) stop
               "preparing" None None (i_Reference i) stop t 0 0 (i_RequestKey i) digest
               (Some (normalize (runScope_json (scopeForGrant g)))))));
      attempt ← uuid_New;
      let deadline := earliest [stop; (t + 30 * Second)%Z] in
      _ ← exec (insert_resolution attempt (mkResolution id "admitted" deadline "" None));
      _ ← receipt s p project id uuid_Nil "tool.run.preparing" "admitted"
            [("resolution_id", juuid attempt); ("grant_id", juuid (g_ID (gs_Grant g))); ("repository_id", JInt (g_RepositoryID tg))];
      mret (p, inr (mkPrepared id attempt deadline (gs_Connection g) tg), true)
  end.

(** The run, its grant and the attempt of a resolution under way. *)
Definition resolving (p : Principal) (client : string) (id : uuid) (live : bool) : Tx (runState * grantState) :=
  t ← now;
  r ← on_err ErrDenied (readRun id true);
  if negb (bool_decide (r_State (rs_Run r) = "preparing")) || negb (bool_decide (r_OwnerID (rs_Run r) = p_ActorID p))
     || negb (bool_decide (r_ClientID (rs_Run r) = client))
     || (bool_decide (p_Kind p = OAuthDelegation) && negb (bool_decide (rs_SessionID r = p_SessionID p)))
     || (live && negb (After (r_ExpiresAt (rs_Run r)) t))
  then fail ErrDenied else
  g ← grantTx s (rs_GrantID r) (p_ActorID p) client;
  mret (r, g).
Definition resolution_of (attempt run : uuid) (db : DB) : option resolution_row :=
  a ← resolutions db !! attempt; if bool_decide (ra_run_id a = run) then Some a else None.
Definition open_resolution (a : resolution_row) : bool := bool_decide (ra_state a ∈ ["admitted"; "dispatched"]).

Definition resolutionAdmission (p : Principal) (client : string) (id attempt : uuid) (stage : string) : Tx unit :=
  ps ← discoverRun id;
  begin s p ps.1 StartApprovedRun client ps.2 (
    rg ← resolving p client id true;
    let '(r, g) := rg in
    if negb (scopeMatchesGrant r g) then fail ErrDenied else
    t ← now;
    a ← on_err ErrDenied (query_row (resolution_of attempt id));
    _ ← note_lock (LockToolRow "tool_resolution_attempts" attempt);
    if negb (open_resolution a) || negb (After (ra_deadline a) t) then fail ErrDenied else
    _ ← (if bool_decide (stage = "provider_request") then
           if (mf_MaxProviderOperations (gs_Manifest g) <=? rs_ProviderOps r)%Z then fail ErrDenied else
           _ ← exec (bump_run id);
           exec_ (on_tools (upd_t_tool_resolutions (alter (λ a, set_resolution "dispatched" (ra_outcome a) (ra_finished_at a) a) attempt)))
         else mret ());
    _ ← receipt s p ps.1 id uuid_Nil "tool.resolution.admitted" stage [("resolution_id", juuid attempt)];
    mret ((), true)).

Definition finishResolution (p : Principal) (client : string) (id attempt : uuid) (target : Target) (outcome : string) : Tx unit :=
  ps ← discoverRun id;
  begin s p ps.1 StartApprovedRun client ps.2 (
    rg ← resolving p client id false;
    let '(r, g) := rg in
    let run := rs_Run r in
    let succeeded := bool_decide (outcome = "succeeded") in
    if negb (scopeMatchesGrant r g)
       || (succeeded && (negb (g_RepositoryID target =? r_RepositoryID run)%Z
                         || negb (bool_decide (g_Owner target +:+ "/" +:+ g_Repository target = r_Repository run))
                         || negb (bool_decide (g_Reference target = r_Reference run))))
    then fail ErrDenied else
    t ← now;
    a ← on_err ErrDenied (query_row (resolution_of attempt id));
    _ ← note_lock (LockToolRow "tool_resolution_attempts" attempt);
    if negb (open_resolution a) then fail ErrDenied else
    if succeeded && negb (After (ra_deadline a) t) then fail ErrDenied else
    _ ← (if succeeded then
           if negb (ValidTarget target) || negb (After (r_ExpiresAt run) t) then fail ErrDenied else
           exec_ (on_tools (upd_t_tool_runs (alter (set_run_commit (g_Commit target) (g_TreeSHA target)) id)))
         else exec_ (set_state id "failed"));
    _ ← exec_ (on_tools (upd_t_tool_resolutions (alter (set_resolution outcome outcome (Some t)) attempt)));
    _ ← receipt s p ps.1 id uuid_Nil "tool.run.resolved" outcome
          [("resolution_id", juuid attempt); ("commit", JStr (g_Commit target))];
    mret ((), true)).

Definition CreateRunWithRequest (p : Principal) (client : string) (input : CreateRunRequest) : Tx Run :=
  if negb (Enabled s) || negb (fl_Admission (sv_flags s)) then fail ErrUnavailable else
  if negb (validClient client) || negb (keyPattern (i_RequestKey input)) || (i_DurationSeconds input <? 0)%Z
     || (600 <? i_DurationSeconds input)%Z
  then fail ErrInvalid else
  let input := with_duration (if (i_DurationSeconds input =? 0)%Z then 600 else i_DurationSeconds input) (i_Reference input) input in
  ps ← subjectsForGrant (i_GrantID input);
  px ← begin s p ps.1 StartApprovedRun client ps.2 (prepare_body p client ps.1 input);
  let '(p, x) := px in
  match x with
  | inl existing => GetRun p client existing
  | inr q =>
      resolved ← attempt (ResolveAuthorized (the_broker s) (pp_Deadline q)
                   (Some (resolutionAdmission p client (pp_Run q) (pp_Attempt q))) (pp_Connection q) (pp_Target q));
      match resolved with
      | Err e =>
          _ ← attempt (finishResolution p client (pp_Run q) (pp_Attempt q) zero_Target
                         (if errors_Is e "provider outcome uncertain" then "uncertain" else "failed"));
          fail ErrDenied
      | Ok target =>
          _ ← finishResolution p client (pp_Run q) (pp_Attempt q) target "succeeded";
          GetRun p client (pp_Run q)
      end
  end.
Definition CreateRun (p : Principal) (client : string) (grant : uuid) (key : string) : Tx Run :=
  CreateRunWithRequest p client (mkCreateRunRequest uuid_Nil grant key "" 0).
End Grants.
