(* ===== verification/RunOps.v ===== *)
(** * The agent tool platform: operations

    [internal/runs/operations.go]: a client requests an operation of its run; a
    workload claims it under a lease with a one-use ticket, executes it at the
    provider through the broker, and the result is sealed into a spool.  An
    operation is dispatched only under current authority, and a retry is
    possible only where nothing was dispatched. *)
From S2P Require Import Prelude GoStrings GoEncoding GoNet GoStruct Policy Schema Database Crypto Jobs Authority AuditLog Automation Runner Broker Runs RunGrants.

(** ** Definitions *)

Record operationState := mkOperationState {
  os_Op : Operation;
  os_Kind : string;
  os_Args : Arguments_;
  os_Digest : string;
  os_Parent : Principal;
  os_Fence : Z;
  os_Workload : option uuid;
  os_Deadline : option time;
  os_Lease : option time;
}.
Definition with_status (st outcome : string) (o : Operation) : Operation :=
  mkOperation (o_ID o) (o_RunID o) st outcome (o_Result o) (o_ExpiresAt o) (o_ReceiptID o) (o_CancelRequested o).
Definition with_receipt (id : uuid) (o : Operation) : Operation :=
  mkOperation (o_ID o) (o_RunID o) (o_Status o) (o_Outcome o) (o_Result o) (o_ExpiresAt o) id (o_CancelRequested o).
Definition with_result (b : option string) (o : Operation) : Operation :=
  mkOperation (o_ID o) (o_RunID o) (o_Status o) (o_Outcome o) b (o_ExpiresAt o) (o_ReceiptID o) (o_CancelRequested o).
Definition set_status (st : string) (o : operationState) : operationState :=
  mkOperationState (with_status st (o_Outcome (os_Op o)) (os_Op o)) (os_Kind o) (os_Args o) (os_Digest o) (os_Parent o) (os_Fence o)
    (os_Workload o) (os_Deadline o) (os_Lease o).

(** *** Statements *)

Definition operation_run (id : uuid) (db : DB) : option (operation_row * run_row) :=
  o ← operations db !! id; r ← runs db !! xo_run_id o; Some (o, r).
(** The operation a request key names. *)
Definition operation_by_key (run : uuid) (key : string) (db : DB) : option (uuid * string) :=
  '(id, o) ← head (select (λ _ o, bool_decide (xo_run_id o = run) && bool_decide (xo_request_key o = key)) (operations db));
  Some (id, xo_request_digest o).
Definition insert_operation (id : uuid) (o : operation_row) (db : DB) : option DB :=
  if bool_decide (is_Some (operations db !! id)) || bool_decide (runs db !! xo_run_id o = None)
     || negb (bool_decide (xo_kind o ∈ manifest_operations)) || negb (bool_decide (xo_parent_kind o ∈ kinds_of_parent))
     || negb (optional_key (oauth_families db) (xo_parent_family o)) || negb (optional_key (oauth_tokens db) (xo_parent_token o))
     || bool_decide (map_Exists (λ _ o', xo_run_id o' = xo_run_id o ∧ xo_request_key o' = xo_request_key o) (operations db))
  then None else Some (on_tools (upd_t_tool_operations <[id := o]>) db).
Definition update_operation (id : uuid) (g : operation_row → operation_row) : DB → DB :=
  on_tools (upd_t_tool_operations (alter g id)).
Definition requeue (t : time) (o : operation_row) : operation_row :=
  mkOperationRow (xo_run_id o) (xo_kind o) (xo_arguments o) (xo_request_key o) (xo_request_digest o) (xo_parent_kind o)
    (xo_parent_family o) (xo_parent_token o) (xo_authority_expires_at o) "queued" "" (xo_cancel_requested o) (xo_fence o) None
    None None (xo_expires_at o) (xo_created_at o) t.
Definition lease_operation (fence : Z) (workload : uuid) (until t : time) (o : operation_row) : operation_row :=
  mkOperationRow (xo_run_id o) (xo_kind o) (xo_arguments o) (xo_request_key o) (xo_request_digest o) (xo_parent_kind o)
    (xo_parent_family o) (xo_parent_token o) (xo_authority_expires_at o) "leased" (xo_outcome o) (xo_cancel_requested o) fence
    (Some workload) (Some until) (Some until) (xo_expires_at o) (xo_created_at o) t.
Definition insert_ticket (id : uuid) (k : ticket_row) (db : DB) : option DB :=
  if bool_decide (is_Some (tickets db !! id)) || bool_decide (operations db !! tt_operation_id k = None)
     || bool_decide (workloads db !! tt_workload_id k = None)
     || bool_decide (map_Exists (λ _ k', tt_token_hash k' = tt_token_hash k) (tickets db))
  then None else Some (on_tools (upd_t_tool_tickets <[id := k]>) db).
Definition consume_ticket (t : time) (k : ticket_row) : ticket_row :=
  mkTicketRow (tt_operation_id k) (tt_workload_id k) (tt_token_hash k) (tt_fence k) (tt_request_digest k) (tt_image_digest k)
    (tt_nonce k) (tt_expires_at k) (Some t).
Definition insert_attempt (op : uuid) (fence : Z) (a : attempt_row) (db : DB) : option DB :=
  if bool_decide (is_Some (attempts db !! (op, fence))) || bool_decide (operations db !! op = None)
     || bool_decide (tickets db !! at_ticket_id a = None) || bool_decide (workloads db !! at_workload_id a = None)
  then None else Some (on_tools (upd_t_tool_attempts <[(op, fence) := a]>) db).
(** [UPDATE tool_attempts SET state,outcome,finished_at WHERE operation_id, fence]. *)
Definition finish_attempt (op : uuid) (fence : Z) (st outcome : string) (t : time) : DB → DB :=
  on_tools (upd_t_tool_attempts (alter (set_attempt st outcome t) (op, fence))).
(** The same, where the attempt is still leased. *)
Definition expire_attempt (op : uuid) (fence : Z) (t : time) : DB → DB :=
  on_tools (upd_t_tool_attempts (alter (λ a,
    if bool_decide (at_state a = "leased") then set_attempt "failed" "pre_dispatch_failure" t a else a) (op, fence))).
Definition dispatch_attempt (op : uuid) (fence : Z) : DB → DB :=
  on_tools (upd_t_tool_attempts (alter (λ a,
    mkAttemptRow (at_ticket_id a) (at_workload_id a) "dispatched" (at_deadline a) (at_outcome a) (at_finished_at a)) (op, fence))).
Definition insert_spool (op : uuid) (z : spool_row) (db : DB) : option DB :=
  if bool_decide (is_Some (spool db !! op)) || bool_decide (operations db !! op = None)
  then None else Some (on_tools (upd_t_tool_spool <[op := z]>) db).
(** [result_bytes=result_bytes+$2], within the [CHECK]. *)
Definition add_bytes (id : uuid) (n : Z) (db : DB) : option DB :=
  match runs db !! id with
  | None => Some db
  | Some r =>
      if (rn_result_bytes r + n <=? 33554432)%Z
      then Some (on_tools (upd_t_tool_runs <[id := set_run_counts (rn_provider_operations r) (rn_result_bytes r + n) r]>) db)
      else None
  end.

(** [COUNT( * )] of a run's operations that hold a lease, and of an operation's
    attempts that reached the provider. *)
Definition under_lease (run : uuid) (t : time) (db : DB) : Z :=
  count_where (λ _ o, bool_decide (xo_run_id o = run) && bool_decide (xo_status o ∈ ["leased"; "dispatched"])
                      && match xo_deadline o with Some d => (t <? d)%Z | None => false end) (operations db).
Definition reached_provider (op : uuid) (db : DB) : Z :=
  count_where (λ k a, bool_decide (k.1 = op) && bool_decide (at_state a ∈ ["dispatched"; "succeeded"; "uncertain"])) (attempts db).

(** [ORDER BY created_at,id]. *)
Definition oldest_operation (a b : uuid * operation_row) : Prop :=
  (xo_created_at a.2 < xo_created_at b.2)%Z ∨ (xo_created_at a.2 = xo_created_at b.2 ∧ (a.1 <= b.1)%N).
#[export] Instance oldest_operation_dec : RelDecision oldest_operation.
Proof. intros a b. unfold oldest_operation. apply _. Defined.
Definition pending_for (workload : uuid) (db : DB) : list uuid :=
  take 100 (map fst (merge_sort oldest_operation (select (λ _ o,
    row_is (runs db) (xo_run_id o) (λ r, row_is (grants db) (rn_grant_id r) (λ g, bool_decide (tg_workload_id g = workload)))
    && bool_decide (xo_status o ∈ ["queued"; "leased"; "dispatched"])) (operations db)))).
Definition enrolled (certificate image : string) (db : DB) : option uuid :=
  fst <$> head (select (λ _ w, bool_decide (tw_certificate_sha256 w = certificate) && bool_decide (tw_image_digest w = image)
                               && bool_decide (tw_revoked_at w = None)) (workloads db)).
(** [ORDER BY created_at DESC,id DESC LIMIT 1]. *)
Definition newest_receipt (a b : uuid * receipt_row) : Prop :=
  (re_created_at b.2 < re_created_at a.2)%Z ∨ (re_created_at a.2 = re_created_at b.2 ∧ (b.1 <= a.1)%N).
#[export] Instance newest_receipt_dec : RelDecision newest_receipt.
Proof. intros a b. unfold newest_receipt. apply _. Defined.
Definition completion_receipt (op : uuid) (db : DB) : option uuid :=
  fst <$> head (merge_sort newest_receipt (select (λ _ r,
    bool_decide (re_operation_id r = Some op) && bool_decide (re_action r = "tool.attempt.completed")) (receipts db))).

(** *** [json.Marshal] of an operation *)

(** [json.Compact] with HTML escaping, as a raw message is printed: outside
    strings white space goes. *)
Fixpoint compact (quoted escaped : bool) (s : string) : string :=
  match s with
  | EmptyString => ""
  | String c s' =>
      if escaped then String c (compact quoted false s')
      else if decide (c = "060"%char) then "\u003c" +:+ compact quoted false s'
      else if decide (c = "062"%char) then "\u003e" +:+ compact quoted false s'
      else if decide (c = "038"%char) then "\u0026" +:+ compact quoted false s'
      else if decide (c = "034"%char) then String c (compact (negb quoted) false s')
      else if decide (c = "092"%char) then String c (compact quoted true s')
      else match c, s' with
           | "226"%char, String "128" (String "168" r) => "\u2028" +:+ compact quoted false r
           | "226"%char, String "128" (String "169" r) => "\u2029" +:+ compact quoted false r
           | _, _ =>
               if negb quoted && bool_decide (c ∈ [" "; "009"; "010"; "013"]%char) then compact quoted false s'
               else String c (compact quoted false s')
           end
  end.
Definition Operation_text (o : Operation) : string :=
  let omit k v := if bool_decide (v = "") then "" else quote_string k +:+ ":" +:+ quote_string v +:+ "," in
  "{" +:+ quote_string "operation_id" +:+ ":" +:+ Marshal (juuid (o_ID o)) +:+ ","
  +:+ quote_string "run_id" +:+ ":" +:+ Marshal (juuid (o_RunID o)) +:+ ","
  +:+ quote_string "status" +:+ ":" +:+ quote_string (o_Status o) +:+ "," +:+ omit "outcome" (o_Outcome o)
  +:+ (match o_Result o with
       | Some b => if bool_decide (b = "") then "" else quote_string "result" +:+ ":" +:+ compact false false b +:+ ","
       | None => ""
       end)
  +:+ quote_string "expires_at" +:+ ":" +:+ quote_string (time_RFC3339Nano (o_ExpiresAt o)) +:+ ","
  +:+ quote_string "receipt_id" +:+ ":" +:+ Marshal (juuid (o_ReceiptID o)) +:+ ","
  +:+ quote_string "cancel_requested" +:+ ":" +:+ Marshal (JBool (o_CancelRequested o)) +:+ "}".

Definition validArguments (kind : string) (args : Arguments_) : bool :=
  (bool_decide (kind = "repository_tree") && bool_decide (a_Path args = ""))
  || (bool_decide (kind = "read_file") && ValidPath (a_Path args)).

Section Operations.
Context `{P : Primitives} `{Y : YAML} `{JS : JSONSchema} `{U : UUIDParse} `{R : Remote} `{E : Elsewhere} (s : Service).

Definition operation_parent (o : operation_row) (r : run_row) : Principal :=
  stored_principal (xo_parent_kind o) (rn_actor_id r) (rn_session_id r) (xo_parent_family o) (xo_parent_token o)
    (xo_authority_expires_at o).

Definition readOperation (id : uuid) (lock : bool) : Tx operationState :=
  x ← query_row (operation_run id);
  let '(o, r) := x in
  _ ← (if lock then note_lock (LockOperation id) else mret ());
  match decode dec_Arguments (mkArguments "") (xo_arguments o) with
  | None => fail ErrDenied
  | Some args =>
      mret (mkOperationState
              (mkOperation id (xo_run_id o) (xo_status o) (xo_outcome o) None (xo_expires_at o) uuid_Nil (xo_cancel_requested o))
              (xo_kind o) args (xo_request_digest o) (operation_parent o r) (xo_fence o) (xo_workload_id o) (xo_deadline o)
              (xo_lease_until o))
  end.

(** The run, the stored authority and the client of an operation. *)
Definition discoverOperation (id : uuid) : Tx (uuid * Principal * string) :=
  x ← on_err ErrDenied (query_row (operation_run id));
  mret (xo_run_id x.1, operation_parent x.1 x.2, rn_client_id x.2).

Definition beginOperation {A} (p : Principal) (client : string) (id : uuid) (active : bool)
    (body : runState → grantState → operationState → Tx (A * bool)) : Tx A :=
  d ← discoverOperation id;
  let '(run, parent, storedClient) := d in
  if negb (bool_decide (storedClient = client)) || negb (bool_decide (p_ActorID parent = actor p))
     || (bool_decide (p_Kind p = OAuthDelegation) && negb (bool_decide (p_SessionID parent = p_SessionID p)))
  then fail ErrDenied else
  beginRun s p client run (if active then StartApprovedRun else InspectTeam) (
    _ ← (if active && bool_decide (p_Kind parent = OAuthDelegation) then require_grant s parent client else mret ());
    rg ← runTx s p client run active;
    o ← on_err ErrDenied (readOperation id true);
    t ← now;
    if active && (o_CancelRequested (os_Op o) || negb (After (o_ExpiresAt (os_Op o)) t) || negb (After (p_ExpiresAt (os_Parent o)) t))
    then fail ErrDenied
    else body rg.1 rg.2 o).

Definition Request (p : Principal) (client : string) (run : uuid) (key kind : string) (args : Arguments_) : Tx Operation :=
  if negb (fl_Admission (sv_flags s)) then fail ErrUnavailable else
  if negb (keyPattern key) || negb (validArguments kind args) then fail ErrInvalid else
  beginRun s p client run StartApprovedRun (
    rg ← runTx s p client run true;
    let '(r, g) := rg in
    let p := if bool_decide (p_Kind p = Human) then principalForRun r else p in
    let digest := RequestDigest kind args in
    found ← query (operation_by_key run key);
    match found with
    | Some (id, stored) =>
        if negb (bool_decide (stored = digest)) then fail ErrConflict else
        o ← readOperation id false;
        mret (os_Op o, false)
    | None =>
        if (mf_MaxProviderOperations (gs_Manifest g) <=? rs_ProviderOps r)%Z || (mf_MaxTotalBytes (gs_Manifest g) <=? rs_Bytes r)%Z
        then fail ErrDenied else
        id ← uuid_New;
        t ← now;
        let stop := earliest [r_ExpiresAt (rs_Run r); rs_AuthorityExpiry r; p_ExpiresAt p] in
        _ ← on_err ErrConflict (exec (insert_operation id
              (mkOperationRow run kind (normalize (Arguments_json args)) key digest (p_Kind p) (familyID p) (tokenID p) stop
                 "queued" "" false 0 None None None stop t t)));
        receipt ← receipt s p (r_ProjectID (rs_Run r)) run id "tool.operation.queued" "queued"
          [("request_digest", JStr digest); ("kind", JStr kind);
           ("tool_id", JStr (default "" (td_Name <$> Find kind))); ("installation", JStr Installation); ("origin", JStr "keepsave");
           ("schema_digest", JStr (default "" (td_SchemaDigest <$> Find kind)));
           ("artifact_digest", JStr (mf_ArtifactDigest (gs_Manifest g))); ("catalog_digest", JStr (mf_CatalogDigest (gs_Manifest g)));
           ("connector_digest", JStr (gs_Image g))];
        mret (mkOperation id run "queued" "" None stop receipt false, true)
    end).

(** *** Waiting for an operation *)

(** [time.After(d)]. *)
Definition sleep (d : Z) : Tx unit := λ w, (Ok (), wait (d + Z.of_N (late (w_rng w))) w).

(** One look at the operation. *)
Definition look (p : Principal) (client : string) (id : uuid) : Tx Operation :=
  beginOperation p client id false (λ _ _ o,
    t ← now;
    let op := os_Op o in
    mret (if negb (After (o_ExpiresAt op) t) && bool_decide (o_Status op ∈ ["queued"; "leased"])
          then with_status "expired" (o_Outcome op) op else op, false)).
(** The loop; [None] when the fuel is spent. *)
Fixpoint poll (fuel : nat) (p : Principal) (client : string) (id : uuid) (wait_ : Z) (deadline : time) : Tx (option Operation) :=
  match fuel with
  | O => mret None
  | S fuel =>
      o ← look p client id;
      t ← now;
      if (wait_ =? 0)%Z || After t deadline || negb (bool_decide (o_Status o ∈ ["queued"; "leased"; "dispatched"]))
      then mret (Some (with_result None o))
      else _ ← sleep (100 * Millisecond); poll fuel p client id wait_ deadline
  end.
(** The looks a wait of two seconds allows. *)
Definition poll_fuel : nat := 22.
Definition Status (p : Principal) (client : string) (id : uuid) (wait_ : Z) : Tx (option Operation) :=
  if (wait_ <? 0)%Z || (2 * Second <? wait_)%Z then fail ErrInvalid else
  t ← now;
  poll poll_fuel p client id wait_ (t + wait_)%Z.

Definition Result (p : Principal) (client : string) (id : uuid) : Tx Operation :=
  beginOperation p client id true (λ r _ o,
    let op := os_Op o in
    if negb (bool_decide (o_Status op = "succeeded")) then fail ErrConflict else
    z ← on_err ErrDenied (query_row (λ db, spool db !! id));
    _ ← note_lock (LockToolRow "tool_result_spool" id);
    t ← now;
    if negb (After (sp_expires_at z) t) then fail ErrDenied else
    receipt ← receipt s p (r_ProjectID (rs_Run r)) (r_ID (rs_Run r)) id "tool.result.admitted" "succeeded" [];
    op ← on_err ErrDenied (lift (WithOpened (the_broker s) (sp_ciphertext z) (sp_nonce z) (λ b,
           if negb (json_Valid b) then Err ErrDenied else
           let op := with_result (Some b) (with_receipt receipt op) in
           if (4194304 <? N.of_nat (String.length (Operation_text op)))%N then Err ErrDenied else Ok op)));
    mret (op, true)).

(** *** Cancelling and retrying *)

Definition CancelOperation (p : Principal) (client : string) (id : uuid) : Tx unit :=
  beginOperation p client id false (λ r _ o,
    let status := cancelled_status (o_Status (os_Op o)) in
    t ← now;
    _ ← exec_ (update_operation id (λ x, set_operation status (xo_outcome x) true t x));
    _ ← exec_ (cancel_attempts (λ k, bool_decide (k = id)) t);
    _ ← receipt s p (r_ProjectID (rs_Run r)) (r_ID (rs_Run r)) id "tool.operation.cancelled" status [];
    mret ((), true)).

Definition CancelRun (p : Principal) (client : string) (id : uuid) : Tx unit :=
  beginRun s p client id InspectTeam (
    rg ← runTx s p client id false;
    _ ← cancelRunTx id "cancelled";
    _ ← receipt s p (r_ProjectID (rs_Run rg.1)) id uuid_Nil "tool.run.cancelled" "cancelled" [];
    mret ((), true)).

Definition RetryOperation (p : Principal) (client : string) (id : uuid) : Tx Operation :=
  beginOperation p client id true (λ r _ o,
    let op := os_Op o in
    if negb (bool_decide (o_Status op = "failed")) || negb (bool_decide (o_Outcome op = "pre_dispatch_failure"))
    then fail ErrConflict else
    dispatched ← on_err ErrConflict (query (reached_provider id));
    if negb (dispatched =? 0)%Z then fail ErrConflict else
    t ← now;
    _ ← exec_ (update_operation id (requeue t));
    receipt ← receipt s p (r_ProjectID (rs_Run r)) (r_ID (rs_Run r)) id "tool.operation.retried" "queued" [];
    mret (with_receipt receipt (with_status "queued" "" op), true)).

(** *** Claiming *)

Definition finishAttemptTx (p : Principal) (r : runState) (o : operationState) (status outcome : string) : Tx unit :=
  t ← now;
  let id := o_ID (os_Op o) in
  _ ← exec_ (update_operation id (λ x, set_operation status outcome (xo_cancel_requested x) t x));
  _ ← exec_ (finish_attempt id (os_Fence o) status outcome t);
  _ ← receipt s p (r_ProjectID (rs_Run r)) (r_ID (rs_Run r)) id "tool.attempt.completed" status
        [("fence", JInt (os_Fence o)); ("outcome", JStr outcome)];
  mret ().

Definition elapsed (o : option time) (t : time) : bool := match o with Some d => negb (After d t) | None => false end.

(** A new lease: the ticket, and the three rows that record it. *)
Definition lease (p : Principal) (r : runState) (g : grantState) (o : operationState) (workload : uuid) (image : string) : Tx Ticket :=
  token ← randomToken;
  nonceBytes ← rand_bytes 32;
  t ← now;
  let id := o_ID (os_Op o) in
  let run := r_ID (rs_Run r) in
  let stop := earliest [o_ExpiresAt (os_Op o); p_ExpiresAt p; r_ExpiresAt (rs_Run r);
                       (t + mf_ToolSeconds (gs_Manifest g) * Second)%Z] in
  ticket ← uuid_New;
  let fence := (os_Fence o + 1)%Z in
  let tk := mkTicket ticket id run (g_ID (gs_Grant g)) fence fence image (os_Digest o) (hex_EncodeToString nonceBytes) stop
              (os_Kind o) (os_Args o) token in
  _ ← exec_ (update_operation id (lease_operation fence workload stop t));
  _ ← exec (insert_ticket ticket (mkTicketRow id workload (hash token) fence (os_Digest o) image (t_Nonce tk) stop None));
  _ ← exec (insert_attempt id fence (mkAttemptRow ticket workload "leased" stop "" None));
  _ ← receipt s p (r_ProjectID (rs_Run r)) run id "tool.attempt.leased" "leased"
        [("fence", JInt fence); ("workload_id", juuid workload)];
  mret tk.

(** The transaction of [claimOne]: it may commit and still have no work. *)
Definition claim_body (certificate image : string) (workload id : uuid) (p : Principal)
    (r : runState) (g : grantState) (o : operationState) : Tx (result Ticket * bool) :=
  if negb (bool_decide (g_WorkloadID (gs_Grant g) = workload)) || negb (bool_decide (gs_Image g = image)) then fail ErrDenied else
  stored ← on_err ErrDenied (query_row (λ db, w ← workloads db !! workload;
             if bool_decide (tw_revoked_at w = None) then Some (tw_certificate_sha256 w) else None));
  if negb (bool_decide (stored = certificate)) then fail ErrDenied else
  t ← now;
  if bool_decide (o_Status (os_Op o) = "dispatched") && elapsed (os_Deadline o) t then
    _ ← finishAttemptTx p r o "uncertain" "deadline_elapsed";
    mret (Err ErrNoWork, true)
  else
    o ← (if bool_decide (o_Status (os_Op o) = "leased") && elapsed (os_Lease o) t then
           _ ← exec_ (expire_attempt id (os_Fence o) t);
           mret (set_status "queued" o)
         else mret o);
    if negb (bool_decide (o_Status (os_Op o) = "queued")) then fail ErrNoWork else
    current ← query (under_lease (r_ID (rs_Run r)) t);
    if (mf_MaxConcurrent (gs_Manifest g) <=? current)%Z || (mf_MaxProviderOperations (gs_Manifest g) <=? rs_ProviderOps r)%Z
       || (mf_MaxTotalBytes (gs_Manifest g) <=? rs_Bytes r)%Z
    then fail ErrNoWork else
    tk ← lease p r g o workload image;
    mret (Ok tk, true).
Definition claimOne (certificate image : string) (workload id : uuid) : Tx Ticket :=
  d ← discoverOperation id;
  let '(_, p, client) := d in
  x ← beginOperation p client id true (claim_body certificate image workload id p);
  lift x.

(** The first of the operations that can be claimed. *)
Fixpoint claim_first (certificate image : string) (workload : uuid) (ids : list uuid) : Tx Ticket :=
  match ids with
  | [] => fail ErrNoWork
  | id :: ids' =>
      x ← attempt (claimOne certificate image workload id);
      match x with
      | Ok t => mret t
      | Err e => if errors_Is e "tool platform unavailable" then fail e else claim_first certificate image workload ids'
      end
  end.
Definition Claim (certificate image : string) : Tx Ticket :=
  if negb (Enabled s) || negb (fl_Dispatch (sv_flags s)) then fail ErrUnavailable else
  if negb (digestPattern certificate) || negb (ValidImage image) then fail ErrDenied else
  workload ← on_err ErrDenied (query_row (enrolled certificate image));
  ids ← on_err ErrUnavailable (query (pending_for workload));
  claim_first certificate image workload ids.

(** *** Executing *)

Definition ticket_workload (id : uuid) (db : DB) : option (ticket_row * workload_row) :=
  k ← tickets db !! id; w ← workloads db !! tt_workload_id k;
  if bool_decide (tw_revoked_at w = None) then Some (k, w) else None.
Definition ticketOperation (certificate : string) (id : uuid) (token : string) : Tx uuid :=
  if negb (digestPattern certificate) || negb (String.length token =? 43) then fail ErrDenied else
  t ← now;
  on_err ErrDenied (query_row (λ db,
    kw ← ticket_workload id db;
    if bool_decide (tt_token_hash kw.1 = hash token) && bool_decide (tw_certificate_sha256 kw.2 = certificate)
       && (t <? tt_expires_at kw.1)%Z
    then Some (tt_operation_id kw.1) else None)).

(** The request a ticket stands for. *)
Definition expected_request (k : ticket_row) (r : runState) (g : grantState) (o : operationState) : OperationRequest :=
  mkOperationRequest (o_ID (os_Op o)) (r_ID (rs_Run r)) (g_ID (gs_Grant g)) (tt_fence k) (tt_fence k) (tt_image_digest k)
    (tt_request_digest k) (tt_nonce k) (os_Kind o) (os_Args o).
(** [req] is the request to consume the ticket for; [None] only looks at it. *)
Definition ticketTx (certificate : string) (ticket : uuid) (token : string) (r : runState) (g : grantState) (o : operationState)
    (req : option OperationRequest) : Tx unit :=
  t ← now;
  kw ← on_err ErrDenied (query_row (λ db, kw ← ticket_workload ticket db;
         if bool_decide (tt_operation_id kw.1 = o_ID (os_Op o)) then Some kw else None));
  _ ← note_lock (LockToolRow "tool_tickets" ticket);
  let '(k, w) := kw in
  if negb (bool_decide (tw_certificate_sha256 w = certificate)) || negb (bool_decide (tt_token_hash k = hash token))
     || negb (bool_decide (tt_workload_id k = g_WorkloadID (gs_Grant g))) || negb (bool_decide (tt_image_digest k = gs_Image g))
     || negb (tt_fence k =? os_Fence o)%Z || negb (After (tt_expires_at k) t)
     || (bool_decide (is_Some req) && bool_decide (is_Some (tt_consumed_at k)))
  then fail ErrDenied else
  match req with
  | Some q =>
      if negb (bool_decide (q = expected_request k r g o)) || negb (Validate_Request q)
         || negb (bool_decide (o_Status (os_Op o) = "leased"))
      then fail ErrDenied
      else exec_ (on_tools (upd_t_tool_tickets (alter (consume_ticket t) ticket)))
  | None => check (bool_decide (o_Status (os_Op o) ∈ ["leased"; "dispatched"])) ErrDenied
  end.

Definition TicketStatus (certificate : string) (req : TicketStatusRequest) : Tx bool :=
  id ← ticketOperation certificate (ts_TicketID req) (ts_Token req);
  d ← discoverOperation id;
  let '(_, p, client) := d in
  beginOperation p client id true (λ r g o,
    _ ← ticketTx certificate (ts_TicketID req) (ts_Token req) r g o None;
    mret (true, false)).

(** The transaction that dispatches. *)
Definition dispatch_body (certificate : string) (req : ExecuteRequest) (id : uuid) (p : Principal)
    (r : runState) (g : grantState) (o : operationState) : Tx (runState * grantState * operationState * bool) :=
  _ ← ticketTx certificate (x_TicketID req) (x_Token req) r g o (Some (x_Request req));
  t ← now;
  _ ← exec_ (update_operation id (λ x, set_operation "dispatched" (xo_outcome x) (xo_cancel_requested x) t x));
  _ ← exec_ (dispatch_attempt id (os_Fence o));
  _ ← receipt s p (r_ProjectID (rs_Run r)) (r_ID (rs_Run r)) id "tool.attempt.dispatched" "dispatched" [("fence", JInt (os_Fence o))];
  mret (r, g, o, true).

(** The conditions on an operation that is at the provider. *)
Definition at_provider (fence : Z) (o : operationState) (t : time) : bool :=
  bool_decide (o_Status (os_Op o) = "dispatched") && (os_Fence o =? fence)%Z
  && match os_Deadline o with Some d => After d t | None => false end.

Definition operationAdmission (p : Principal) (client : string) (id : uuid) (fence : Z) (stage : string) : Tx unit :=
  beginOperation p client id true (λ r g o,
    t ← now;
    if negb (at_provider fence o t) then fail ErrDenied else
    _ ← (if bool_decide (stage = "provider_request") then
           if (mf_MaxProviderOperations (gs_Manifest g) <=? rs_ProviderOps r)%Z then fail ErrDenied
           else exec (bump_run (r_ID (rs_Run r)))
         else mret ());
    _ ← receipt s p (r_ProjectID (rs_Run r)) (r_ID (rs_Run r)) id "tool.broker.admitted" stage [("fence", JInt fence)];
    mret ((), true)).

(** Half of the response limit, less the envelope. *)
Definition payload_limit (m : Manifest) : Z := Z.quot (mf_MaxResponseBytes m - 65536) 2.
(** The bytes a result may still have. *)
Definition store_result (id : uuid) (r : runState) (g : grantState) (o : operationState) (b : string) : Tx unit :=
  let n := Z.of_nat (String.length b) in
  if negb (json_Valid b) || (payload_limit (gs_Manifest g) <? n)%Z || (mf_MaxTotalBytes (gs_Manifest g) <? rs_Bytes r + n)%Z
  then fail ErrDenied else
  cn ← Seal (the_broker s) b;
  _ ← exec (insert_spool id (mkSpool cn.1 cn.2 (o_ExpiresAt (os_Op o))));
  exec (add_bytes (r_ID (rs_Run r)) n).

Definition finishOperation (p : Principal) (client : string) (id : uuid) (fence : Z) (status outcome : string) (b : string) : Tx uuid :=
  beginOperation p client id true (λ r g o,
    t ← now;
    if negb (at_provider fence o t) then fail ErrDenied else
    _ ← (if bool_decide (status = "succeeded") then store_result id r g o b else mret ());
    _ ← finishAttemptTx p r o status outcome;
    receipt ← query_row (completion_receipt id);
    mret (receipt, true)).

Definition Execute (certificate : string) (req : ExecuteRequest) : Tx ExecuteResponse :=
  if negb (Enabled s) || negb (fl_Dispatch (sv_flags s)) then fail ErrUnavailable else
  if negb (Validate_Request (x_Request req)) then fail ErrInvalid else
  id ← on_err ErrDenied (ticketOperation certificate (x_TicketID req) (x_Token req));
  if negb (bool_decide (id = q_OperationID (x_Request req))) then fail ErrDenied else
  d ← discoverOperation id;
  let '(_, p, client) := d in
  x ← beginOperation p client id true (dispatch_body certificate req id p);
  let '(r, g, o) := x in
  let remaining := (mf_MaxTotalBytes (gs_Manifest g) - rs_Bytes r)%Z in
  let limit := if (remaining <? payload_limit (gs_Manifest g))%Z then remaining else payload_limit (gs_Manifest g) in
  result ← attempt (ExecuteAuthorized (the_broker s) (default 0%Z (os_Deadline o))
             (Some (operationAdmission p client id (os_Fence o))) (gs_Connection g) (gs_Target g) (os_Kind o) (a_Path (os_Args o)) limit);
  match result with
  | Err e =>
      let '(st, outcome) := if errors_Is e "provider outcome uncertain" then ("uncertain", "provider_uncertain")
                            else ("failed", "provider_failed") in
      _ ← attempt (finishOperation p client id (os_Fence o) st outcome "");
      fail ErrDenied
  | Ok b =>
      receipt ← finishOperation p client id (os_Fence o) "succeeded" "succeeded" b;
      mret (mkExecuteResponse b "succeeded" receipt)
  end.
End Operations.
