(* ===== verification/RunRecovery.v ===== *)
(** * The agent tool platform: reconciliation

    [internal/runs/recovery.go]: trusted local maintenance that only reduces
    expired authority: expired runs are cancelled, overdue attempts and
    resolutions are closed, expired results are deleted. *)
From S2P Require Import Prelude GoStrings GoEncoding GoNet GoStruct Policy Schema Database Crypto Jobs Authority AuditLog Automation Runner Broker Runs RunGrants RunOps.

(** ** Definitions *)

Definition set_check (st : string) (calls : Z) (finished : option time) (c : check_row) : check_row :=
  mkCheckRow (ck_project_id c) (ck_connection_id c) (ck_binding_id c) (ck_actor_id c) (ck_session_id c) (ck_deadline c) st calls finished.

Definition overdue (o : option time) (t : time) : bool := match o with Some d => (d <=? t)%Z | None => false end.
Definition overdue_operation (t : time) (o : operation_row) : bool :=
  bool_decide (xo_status o ∈ ["leased"; "dispatched"]) && overdue (xo_deadline o) t.
Definition overdue_resolution (t : time) (a : resolution_row) : bool :=
  bool_decide (ra_state a ∈ ["admitted"; "dispatched"]) && (ra_deadline a <=? t)%Z.
(** [CASE WHEN state='dispatched' THEN 'uncertain' ELSE 'failed' END]. *)
Definition closed_state (st : string) : string := if bool_decide (st = "dispatched") then "uncertain" else "failed".

(** The runs there is something to do for, in the order of their identifiers. *)
Definition due (t : time) (db : DB) (id : uuid) (r : run_row) : bool :=
  ((rn_expires_at r <=? t)%Z && bool_decide (rn_state r ∈ ["preparing"; "active"]))
  || existsb (λ ko, bool_decide (xo_run_id ko.2 = id) &&
                    (overdue_operation t ko.2 || row_is (spool db) ko.1 (λ z, (sp_expires_at z <=? t)%Z)))
       (map_to_list (operations db))
  || existsb (λ ka, bool_decide (ra_run_id ka.2 = id) && overdue_resolution t ka.2) (map_to_list (resolutions db)).

Definition close_resolutions (run : uuid) (t : time) : gmap uuid resolution_row → gmap uuid resolution_row :=
  update_where (λ _ a, bool_decide (ra_run_id a = run) && overdue_resolution t a)
    (λ a, set_resolution (closed_state (ra_state a)) "deadline_elapsed" (Some t) a).
Definition expired_result (run : uuid) (t : time) (db : DB) (op : uuid) (z : spool_row) : bool :=
  run_operation run db op && (sp_expires_at z <=? t)%Z.
Definition fail_preparing (run : uuid) : DB → DB :=
  on_tools (upd_t_tool_runs (alter (λ r, if bool_decide (rn_state r = "preparing") then set_run_state "failed" r else r) run)).
Definition overdue_check (t : time) (c : check_row) : bool :=
  bool_decide (ck_state c ∈ ["admitted"; "dispatched"]) && (ck_deadline c <=? t)%Z.
(** [ORDER BY project_id,id]. *)
Definition check_order (a b : uuid * check_row) : Prop :=
  (ck_project_id a.2 < ck_project_id b.2)%N ∨ (ck_project_id a.2 = ck_project_id b.2 ∧ (a.1 <= b.1)%N).
#[export] Instance check_order_dec : RelDecision check_order.
Proof. intros a b. unfold check_order. apply _. Defined.

Definition as_workload (p : Principal) : Principal :=
  Policy.mkPrincipal Workload (p_SubjectID p) (p_ActorID p) (p_TenantID p) (p_ParentGrantID p) (p_ExpiresAt p) (p_SessionID p)
    (p_LeaseID p) (p_TokenID p).

Section Recovery.
Context `{P : Primitives} `{U : UUIDParse} (s : Service).

Definition lock_maintenance (project : uuid) (subjects : list uuid) : Tx unit :=
  match LockMaintenanceSubjects s with None => fail ErrUnavailable | Some f => f project subjects end.

(** An overdue operation: at the provider the outcome is uncertain, before it
    the attempt failed. *)
Definition reconcile_operation (p : Principal) (r : runState) (id : uuid) : Tx unit :=
  o ← readOperation id true;
  if bool_decide (o_Status (os_Op o) = "dispatched") then finishAttemptTx s p r o "uncertain" "deadline_elapsed"
  else
    t ← now;
    _ ← exec_ (expire_attempt id (os_Fence o) t);
    _ ← exec_ (update_operation id (λ x, set_operation "failed" "pre_dispatch_failure" (xo_cancel_requested x) t x));
    _ ← receipt s p (r_ProjectID (rs_Run r)) (r_ID (rs_Run r)) id "tool.attempt.expired" "pre_dispatch_failure"
          [("fence", JInt (os_Fence o))];
    mret ().

(** The transaction of [reconcileRun], and whether it changed anything. *)
Definition reconcile_body (id project : uuid) (subjects : list uuid) : Tx (bool * bool) :=
  _ ← exec_ (λ db, db);
  _ ← lock_maintenance project subjects;
  r ← readRun id true;
  t ← now;
  let p := as_workload (principalForRun r) in
  let run := rs_Run r in
  let expired := negb (After (r_ExpiresAt run) t) && bool_decide (r_State run ∈ ["active"; "preparing"]) in
  _ ← (if expired then cancelRunTx id "revoked" else mret ());
  ops ← query (λ db, map fst (select (λ _ o, bool_decide (xo_run_id o = id) && overdue_operation t o) (operations db)));
  _ ← for_each ops (reconcile_operation p r);
  n ← exec_n (λ db, Some (on_tools (upd_t_tool_resolutions (close_resolutions id t)) db,
                          count_where (λ _ a, bool_decide (ra_run_id a = id) && overdue_resolution t a) (resolutions db)));
  _ ← (if (0 <? n)%Z then
         _ ← exec_ (fail_preparing id);
         _ ← receipt s p (r_ProjectID run) id uuid_Nil "tool.resolution.expired" "deadline_elapsed" [];
         mret ()
       else mret ());
  z ← exec_n (λ db, Some (on_tools (upd_t_tool_spool (delete_where (expired_result id t db))) db,
                          count_where (expired_result id t db) (spool db)));
  _ ← (if (0 <? z)%Z then
         _ ← receipt s p (r_ProjectID run) id uuid_Nil "tool.result.expired" "expired" [("count", JInt z)];
         mret ()
       else mret ());
  let changed := expired || negb (bool_decide (ops = [])) || (0 <? n)%Z || (0 <? z)%Z in
  mret (changed, changed).

Definition reconcileRun (id : uuid) : Tx bool :=
  ps ← discoverRun id;
  match LockMaintenanceSubjects s with
  | None => fail ErrUnavailable
  | Some _ => with_tx_opt (reconcile_body id ps.1 ps.2)
  end.

(** One overdue connection check; the number of rows it closed. *)
Definition reconcile_check (id : uuid) (c : check_row) : Tx Z :=
  match LockMaintenanceSubjects s with
  | None => fail ErrUnavailable
  | Some _ =>
      with_tx (
        _ ← lock_maintenance (ck_project_id c) [ck_actor_id c];
        t ← now;
        let mine := λ k c', bool_decide (k = id) && overdue_check t c' in
        n ← exec_n (λ db, Some (on_tools (upd_t_tool_checks (update_where mine (λ c',
               set_check (closed_state (ck_state c')) (ck_provider_operations c') (Some t) c'))) db, count_where mine (checks db)));
        _ ← (if (0 <? n)%Z then
               event s (Policy.mkPrincipal Workload (ck_actor_id c) (ck_actor_id c) 0 0 0 0 0 "") (ck_project_id c)
                 "tool.connection.check.expired" [("check_id", juuid id); ("outcome", JStr "deadline_elapsed")]
             else mret ());
        mret n)
  end.
Definition reconcileChecks : Tx Z :=
  t ← now;
  all ← query (λ db, take 100 (merge_sort check_order (select (λ _ c, overdue_check t c) (checks db))));
  for_fold all 0%Z (λ n c, k ← reconcile_check c.1 c.2; mret (n + k)%Z).

Definition ReconcileExpired : Tx Z :=
  match sv_audit s with
  | None => fail ErrUnavailable
  | Some _ =>
      t ← now;
      ids ← on_err ErrUnavailable (query (λ db, take 100 (selected_runs (due t db) db)));
      count ← reconcileChecks;
      for_fold ids count (λ n id, changed ← reconcileRun id; mret (if changed : bool then n + 1 else n)%Z)
  end.
End Recovery.
