(* ===== verification/RunManage.v ===== *)
(** * The agent tool platform: management, inspection and diagnostics

    [internal/runs/management.go], [inspection.go] and [diagnostics.go]:
    artifacts, profiles, packages, connections, bindings and workloads are
    created in a project, approved by somebody else than their creator, listed,
    checked against the provider and revoked. *)
From S2P Require Import Prelude GoStrings GoEncoding GoNet GoStruct Policy Schema Database Crypto Jobs Authority AuditLog Automation Runner Broker Runs RunGrants RunOps RunRecovery.

(** ** Definitions *)

Record Artifact := mkArtifact { ar_ID : uuid; ar_ProjectID : uuid; ar_Name : string; ar_Digest : string }.
Record Profile := mkProfile {
  pf_ID : uuid;
  pf_ProjectID : uuid;
  pf_ArtifactID : uuid;
  pf_Digest : string;
  pf_Manifest : Manifest;
  pf_Approved : bool;
}.
Record Binding := mkBindingHandle {
  bd_EnvironmentID : uuid;
  bd_ID : uuid;
  bd_ProjectID : uuid;
  bd_ConnectionID : uuid;
  bd_Target : Target;
}.
Record Workload_ := mkWorkload { wl_ID : uuid; wl_ProjectID : uuid; wl_CertificateSHA256 : string; wl_ImageDigest : string }.
Record ConnectionMetadata := mkConnectionMetadata {
  cm_ID : uuid;
  cm_ProjectID : uuid;
  cm_AppID : Z;
  cm_InstallationID : Z;
  cm_Provider : string;
}.
Record PackageMetadata := mkPackageMetadata {
  km_ID : uuid;
  km_ProfileID : uuid;
  km_Harness : string;
  km_Version : string;
  km_Digest : string;
  km_Approved : bool;
}.
Record Receipt := mkReceipt {
  rc_ID : uuid;
  rc_RunID : uuid;
  rc_OperationID : option uuid;
  rc_Action : string;
  rc_Outcome : string;
  rc_Details : json;
}.
Record ConnectionCheck := mkConnectionCheck {
  cc_ID : uuid;
  cc_ConnectionID : uuid;
  cc_BindingID : uuid;
  cc_Provider : string;
  cc_Status : string;
  cc_RepositoryID : Z;
  cc_Commit : string;
  cc_ExternalRead : bool;
  cc_AuthorizationTokenMint : bool;
  cc_RepositoryWrite : bool;
}.

(** *** Statements *)

Definition insert_artifact (id : uuid) (a : artifact_row) (db : DB) : option DB :=
  if bool_decide (is_Some (artifacts db !! id)) || bool_decide (projects db !! ta_project_id a = None)
     || bool_decide (ta_created_by a ∉ users db)
     || bool_decide (map_Exists (λ _ a', ta_project_id a' = ta_project_id a ∧ ta_digest a' = ta_digest a) (artifacts db))
  then None else Some (on_tools (upd_t_tool_artifacts <[id := a]>) db).
Definition insert_profile (id : uuid) (p : profile_row) (db : DB) : option DB :=
  if bool_decide (is_Some (profiles db !! id)) || bool_decide (projects db !! tp_project_id p = None)
     || bool_decide (tp_created_by p ∉ users db) || negb (in_project (artifacts db) ta_project_id (tp_project_id p) (tp_artifact_id p))
  then None else Some (on_tools (upd_t_tool_profiles <[id := p]>) db).
Definition same_package (k k' : package_row) : Prop :=
  tk_profile_id k' = tk_profile_id k ∧ tk_harness k' = tk_harness k ∧ tk_version k' = tk_version k ∧ tk_digest k' = tk_digest k.
#[export] Instance same_package_dec k k' : base.Decision (same_package k k').
Proof. unfold same_package. apply _. Defined.
Definition insert_package (id : uuid) (k : package_row) (db : DB) : option DB :=
  if bool_decide (is_Some (packages db !! id)) || bool_decide (profiles db !! tk_profile_id k = None)
     || bool_decide (tk_created_by k ∉ users db) || negb (varchar 32 (tk_harness k)) || negb (varchar 64 (tk_version k))
     || negb (varchar 64 (tk_format k)) || bool_decide (map_Exists (λ _ k', same_package k k') (packages db))
  then None else Some (on_tools (upd_t_tool_packages <[id := k]>) db).
Definition insert_connection (id : uuid) (c : connection_row) (db : DB) : option DB :=
  if bool_decide (is_Some (connections db !! id)) || bool_decide (projects db !! tc_project_id c = None)
     || bool_decide (tc_created_by c ∉ users db) || (tc_app_id c <=? 0)%Z || (tc_installation_id c <=? 0)%Z
  then None else Some (on_tools (upd_t_tool_connections <[id := c]>) db).
Definition insert_binding (id : uuid) (b : tool_binding_row) (db : DB) : option DB :=
  if bool_decide (is_Some (bindings db !! id)) || bool_decide (projects db !! tb_project_id b = None)
     || bool_decide (environments db !! tb_environment_id b = None) || (tb_repository_id b <=? 0)%Z
     || negb (in_project (connections db) tc_project_id (tb_project_id b) (tb_connection_id b))
  then None else Some (on_tools (upd_t_tool_bindings <[id := b]>) db).
(** Certificates are unique. *)
Definition insert_workload (id : uuid) (w : workload_row) (db : DB) : option DB :=
  if bool_decide (is_Some (workloads db !! id)) || bool_decide (projects db !! tw_project_id w = None)
     || bool_decide (tw_created_by w ∉ users db)
     || bool_decide (map_Exists (λ _ w', tw_certificate_sha256 w' = tw_certificate_sha256 w) (workloads db))
  then None else Some (on_tools (upd_t_tool_workloads <[id := w]>) db).
Definition insert_check (id : uuid) (c : check_row) (db : DB) : option DB :=
  if bool_decide (is_Some (checks db !! id)) || bool_decide (projects db !! ck_project_id c = None)
     || bool_decide (connections db !! ck_connection_id c = None) || bool_decide (bindings db !! ck_binding_id c = None)
     || bool_decide (ck_actor_id c ∉ users db) || bool_decide (sessions db !! ck_session_id c = None)
  then None else Some (on_tools (upd_t_tool_checks <[id := c]>) db).

(** [UPDATE ... SET approved_by,... WHERE id=$3 AND approved_at IS NULL]; the
    [CHECK] refuses the creator. *)
Definition approve_profile (id : uuid) (a : approval_row) (db : DB) : option (DB * Z) :=
  match profiles db !! id with
  | Some p =>
      if negb (bool_decide (tp_approval p = None)) then Some (db, 0%Z)
      else if bool_decide (ap_approved_by a = tp_created_by p) then None
      else Some (on_tools (upd_t_tool_profiles <[id := mkProfileRow (tp_project_id p) (tp_artifact_id p) (tp_digest p) (tp_manifest p)
                   (tp_created_by p) (Some a) (tp_revoked_at p) (tp_created_at p)]>) db, 1%Z)
  | None => Some (db, 0%Z)
  end.
Definition approve_package (id : uuid) (a : approval_row) (db : DB) : option (DB * Z) :=
  match packages db !! id with
  | Some k =>
      if negb (bool_decide (tk_approval k = None)) then Some (db, 0%Z)
      else if bool_decide (ap_approved_by a = tk_created_by k) then None
      else Some (on_tools (upd_t_tool_packages <[id := mkPackageRow (tk_profile_id k) (tk_harness k) (tk_version k) (tk_format k)
                   (tk_digest k) (tk_content k) (tk_compatibility k) (tk_created_by k) (Some a) (tk_revoked_at k)]>) db, 1%Z)
  | None => Some (db, 0%Z)
  end.

(** The digest, the creator and the manifest of a profile, with its artifact. *)
Definition live_profile (id project : uuid) (db : DB) : option (profile_row * artifact_row) :=
  p ← profiles db !! id;
  a ← artifacts db !! tp_artifact_id p;
  if bool_decide (tp_project_id p = project) && bool_decide (tp_revoked_at p = None) && bool_decide (ta_revoked_at a = None)
  then Some (p, a) else None.
Definition live_package (id project : uuid) (approved : bool) (db : DB) : option (package_row * profile_row) :=
  k ← packages db !! id;
  p ← profiles db !! tk_profile_id k;
  if bool_decide (tp_project_id p = project) && bool_decide (tk_revoked_at k = None) && bool_decide (tp_revoked_at p = None)
     && (negb approved || bool_decide (is_Some (tp_approval p)))
  then Some (k, p) else None.

(** [approvalValidSQL]: an approval that is in force. *)
Definition approval_valid (t : time) (a : option approval_row) (project : uuid) (db : DB) : bool :=
  match a, projects db !! project with
  | Some a, Some pr =>
      After (ap_approved_until a) t
      && match pr_organization_id pr with
         | None => bool_decide (ap_approved_by a = pr_owner_id pr)
         | Some org =>
             match membership org (ap_approved_by a) db with
             | Some (epoch, active, role) => active && (epoch =? ap_approver_epoch a)%Z && bool_decide (role ∈ ["admin"; "promoter"])
             | None => false
             end
         end
  | _, _ => false
  end.

(** [ORDER BY created_at,id]. *)
Definition created_order {V} (created : V → time) (a b : uuid * V) : Prop :=
  (created a.2 < created b.2)%Z ∨ (created a.2 = created b.2 ∧ (a.1 <= b.1)%N).
#[export] Instance created_order_dec {V} (created : V → time) : RelDecision (created_order created).
Proof. intros a b. unfold created_order. apply _. Defined.
Definition listed {V} (created : V → time) (p : uuid → V → bool) (t : gmap uuid V) : list (uuid * V) :=
  merge_sort (created_order created) (select p t).

(** A binding of a connection in a usable environment. *)
Definition check_binding (project connection binding : uuid) (db : DB) : option (connection_row * tool_binding_row) :=
  c ← connections db !! connection;
  b ← bindings db !! binding;
  env ← environments db !! tb_environment_id b;
  if bool_decide (tb_connection_id b = connection) && bool_decide (tb_project_id b = tc_project_id c)
     && bool_decide (en_project_id env = tc_project_id c) && bool_decide (tc_project_id c = project)
     && bool_decide (tc_revoked_at c = None) && bool_decide (tb_revoked_at b = None) && bool_decide (en_name env ∈ tool_environments)
  then Some (c, b) else None.

Section Manage.
Context `{P : Primitives} `{Y : YAML} `{JS : JSONSchema} `{U : UUIDParse} `{R : Remote} `{E : Elsewhere} (s : Service).

Definition source_ok (name source : string) : bool := match ValidateSource name source with Ok _ => true | Err _ => false end.

Definition CreateArtifact (p : Principal) (project : uuid) (name source : string) : Tx Artifact :=
  if negb (source_ok name source) then fail ErrInvalid else
  begin s p project ManageProfiles "" [] (
    id ← uuid_New;
    t ← now;
    let a := mkArtifact id project name (Digest source) in
    _ ← on_err ErrConflict (exec (insert_artifact id (mkArtifactRow project name (ar_Digest a) source (p_ActorID p) t None)));
    _ ← event s p project "tool.artifact.created" [("artifact_id", juuid id); ("digest", JStr (ar_Digest a))];
    mret (a, true)).

Definition CreateProfile (p : Principal) (project artifact : uuid) : Tx Profile :=
  begin s p project ManageProfiles "" [] (
    a ← on_err ErrDenied (query_row (λ db, a ← artifacts db !! artifact;
          if bool_decide (ta_project_id a = project) && bool_decide (ta_revoked_at a = None) then Some a else None));
    _ ← note_lock (LockToolRow "tool_artifacts" artifact);
    if negb (source_ok (ta_name a) (ta_source a)) || negb (bool_decide (Digest (ta_source a) = ta_digest a)) then fail ErrDenied else
    let m := NewManifest (ta_digest a) in
    let b := match Canonical m with Ok b => b | Err _ => "" end in
    id ← uuid_New;
    t ← now;
    let v := mkProfile id project artifact (Digest b) m false in
    _ ← exec (λ db, stored ← Unmarshal b;
          insert_profile id (mkProfileRow project artifact (pf_Digest v) stored (p_ActorID p) None None t) db);
    _ ← event s p project "tool.profile.created" [("profile_id", juuid id); ("digest", JStr (pf_Digest v))];
    mret (v, true)).

Definition approvalExpiry (p : Principal) (t : time) : time := earliest [(t + 24 * Hour)%Z; p_ExpiresAt p].
Definition approval_of (p : Principal) (epoch : Z) (t : time) : approval_row :=
  mkApproval (p_ActorID p) epoch t (Z.min (t + 24 * Hour) (approvalExpiry p t)).

Definition ApproveProfile (p : Principal) (project id : uuid) (digest : string) : Tx unit :=
  if negb (digestPattern digest) then fail ErrInvalid else
  begin s p project ApproveProtected "" [] (
    pa ← on_err ErrDenied (query_row (live_profile id project));
    _ ← note_lock (LockToolRow "tool_profiles" id);
    let '(row, a) := pa in
    if negb (bool_decide (tp_digest row = digest)) || bool_decide (tp_created_by row = p_ActorID p) then fail ErrDenied else
    match stored_manifest row a with
    | None => fail ErrDenied
    | Some _ =>
        er ← memberEpoch project (p_ActorID p);
        t ← now;
        n ← exec_n (approve_profile id (approval_of p er.1 t));
        if negb (n =? 1)%Z then fail ErrConflict else
        _ ← event s p project "tool.profile.approved" [("profile_id", juuid id); ("digest", JStr digest)];
        mret ((), true)
    end).

Definition Package_ (p : Principal) (project profile : uuid) (client version : string) : Tx (uuid * Package) :=
  begin s p project ManageProfiles "" [] (
    pa ← on_err ErrDenied (query_row (λ db, pa ← live_profile profile project db;
           if bool_decide (ta_project_id pa.2 = tp_project_id pa.1) then Some pa else None));
    let '(row, a) := pa in
    match native_package s client version (ta_name a) (ta_source a) (tp_digest row) profile with
    | Err _ => fail ErrInvalid
    | Ok pkg =>
        let b := Marshal (Package_json pkg) in
        id ← uuid_New;
        _ ← on_err ErrConflict (exec (λ db,
              content ← Unmarshal b;
              compat ← Unmarshal (Marshal (enc_map (pk_Compatibility pkg)));
              insert_package id (mkPackageRow profile client version (pk_Format pkg) (Digest b) content compat (p_ActorID p) None None) db));
        _ ← event s p project "tool.package.created" [("package_id", juuid id); ("digest", JStr (Digest b))];
        mret (id, pkg, true)
    end).

(** What is left of a package whose decoding may have failed. *)
Definition decoded_package (j : json) : Package := (dec_Package j zero_Package).1.

Definition ApprovePackage (p : Principal) (project id : uuid) (digest : string) : Tx unit :=
  begin s p project ApproveProtected "" [] (
    kp ← on_err ErrDenied (query_row (live_package id project true));
    _ ← note_lock (LockToolRow "tool_profile_packages" id);
    let k := kp.1 in
    if bool_decide (tk_created_by k = p_ActorID p) || negb (bool_decide (tk_digest k = digest))
       || negb (bool_decide (Digest (Marshal (Package_json (decoded_package (tk_content k)))) = digest))
    then fail ErrDenied else
    er ← memberEpoch project (p_ActorID p);
    t ← now;
    n ← exec_n (approve_package id (approval_of p er.1 t));
    if negb (n =? 1)%Z then fail ErrConflict else
    _ ← event s p project "tool.package.approved" [("package_id", juuid id); ("digest", JStr digest)];
    mret ((), true)).

Definition CreateConnection (p : Principal) (project : uuid) (app installation : Z) (key : string) : Tx uuid :=
  if (app <? 1)%Z || (installation <? 1)%Z || match ValidateKey key with Ok _ => false | Err _ => true end then fail ErrInvalid else
  begin s p project ManageConnections "" [] (
    cn ← Seal (the_broker s) key;
    id ← uuid_New;
    t ← now;
    _ ← exec (insert_connection id (mkConnectionRow project app installation cn.1 cn.2 (p_ActorID p) t None));
    _ ← event s p project "tool.connection.created" [("connection_id", juuid id); ("provider", JStr "github_app")];
    mret (id, true)).

(** [connection]. *)
Definition connection (id project : uuid) : Tx connection_row :=
  c ← query_row (λ db, c ← connections db !! id;
        if bool_decide (tc_project_id c = project) && bool_decide (tc_revoked_at c = None) then Some c else None);
  _ ← note_lock (LockToolRow "tool_connections" id);
  mret c.

Definition CreateBindingInEnvironment (p : Principal) (project conn : uuid) (environment : string) (t : Target) : Tx Binding :=
  if negb (bool_decide (environment ∈ tool_environments)) then fail ErrDenied else
  if negb (ValidTargetSpec t) then fail ErrInvalid else
  let t := mkTarget (g_RepositoryID t) (g_Owner t) (g_Repository t)
             (if bool_decide (g_Reference t = "") then g_Commit t else g_Reference t) "" "" in
  begin s p project ManageConnections "" [] (
    _ ← on_err ErrDenied (connection conn project);
    env ← on_err ErrDenied (query_row (λ db, fst <$> head (select (λ _ e,
            bool_decide (en_project_id e = project) && bool_decide (en_name e = environment)) (environments db))));
    id ← uuid_New;
    created ← now;
    _ ← exec (insert_binding id (mkToolBinding project conn env (g_RepositoryID t) (g_Owner t) (g_Repository t) (g_Reference t) created None));
    _ ← event s p project "tool.binding.created"
          [("binding_id", juuid id); ("repository_id", JInt (g_RepositoryID t)); ("external_read", JBool false)];
    mret (mkBindingHandle env id project conn t, true)).
Definition CreateBinding (p : Principal) (project conn : uuid) (t : Target) : Tx Binding :=
  CreateBindingInEnvironment p project conn "development" t.

Definition EnrollWorkload (p : Principal) (project : uuid) (fingerprint image : string) : Tx Workload_ :=
  if negb (digestPattern fingerprint) || negb (ValidImage image) then fail ErrInvalid else
  begin s p project ManageWorkloads "" [] (
    id ← uuid_New;
    t ← now;
    _ ← exec (insert_workload id (mkWorkloadRow project fingerprint image (p_ActorID p) t None));
    _ ← event s p project "tool.workload.enrolled" [("workload_id", juuid id); ("image_digest", JStr image)];
    mret (mkWorkload id project fingerprint image, true)).

(** *** Revocation *)

(** The tables [Revoke] names, as the update of one row of a project and the
    number of rows it affects. *)
Definition revoke_one (kind : string) (id project : uuid) (t : time) (db : DB) : option (DB * Z) :=
  let one {V} (tb : gmap uuid V) (project_of : V → uuid) : Z := if in_project tb project_of project id then 1%Z else 0%Z in
  let mine {V} (project_of : V → uuid) (k : uuid) (r : V) : bool := bool_decide (k = id) && bool_decide (project_of r = project) in
  if bool_decide (kind = "artifact") then Some (revoke_artifacts (mine ta_project_id) t db, one (artifacts db) ta_project_id)
  else if bool_decide (kind = "profile") then Some (revoke_profiles (mine tp_project_id) t db, one (profiles db) tp_project_id)
  else if bool_decide (kind = "connection") then Some (revoke_connections (mine tc_project_id) t db, one (connections db) tc_project_id)
  else if bool_decide (kind = "binding") then Some (revoke_bindings (mine tb_project_id) t db, one (bindings db) tb_project_id)
  else if bool_decide (kind = "workload") then Some (revoke_workloads (mine tw_project_id) t db, one (workloads db) tw_project_id)
  else if bool_decide (kind = "grant") then Some (revoke_grants (mine tg_project_id) t db, one (grants db) tg_project_id)
  else None.
Definition revocable : list string := ["artifact"; "profile"; "connection"; "binding"; "workload"; "grant"].

Definition Revoke (p : Principal) (project id : uuid) (kind : string) : Tx unit :=
  if negb (bool_decide (kind ∈ revocable)) then fail ErrInvalid else
  let cap := if bool_decide (kind = "connection") || bool_decide (kind = "binding") then ManageConnections
             else if bool_decide (kind = "workload") then ManageWorkloads else ManageProfiles in
  beginControl s p project cap [] (
    t ← now;
    n ← exec_n (revoke_one kind id project t);
    if negb (n =? 1)%Z then fail ErrDenied else
    _ ← revokeAffectedRunsTx project id kind;
    _ ← event s p project ("tool." +:+ kind +:+ ".revoked") [("resource_id", juuid id)];
    mret ((), true)).

Definition RevokePackage (p : Principal) (project id : uuid) : Tx unit :=
  beginControl s p project ManageProfiles [] (
    t ← now;
    let mine := λ db k r, bool_decide (k = id) && row_is (profiles db) (tk_profile_id r) (λ f, bool_decide (tp_project_id f = project)) in
    n ← exec_n (λ db, Some (revoke_packages (mine db) t db, if row_is (packages db) id (mine db id) then 1%Z else 0%Z));
    if negb (n =? 1)%Z then fail ErrDenied else
    _ ← revokeAffectedRunsTx project id "package";
    _ ← event s p project "tool.package.revoked" [("package_id", juuid id)];
    mret ((), true)).

(** *** Inspection *)

Definition inspect {A} (p : Principal) (project : uuid) (f : time → DB → A) : Tx A :=
  begin s p project InspectTeam "" [] (t ← now; x ← query (f t); mret (x, false)).

Definition ListArtifacts (p : Principal) (project : uuid) : Tx (list Artifact) :=
  inspect p project (λ _ db, map (λ '(id, a), mkArtifact id (ta_project_id a) (ta_name a) (ta_digest a))
    (listed ta_created_at (λ _ a, bool_decide (ta_project_id a = project) && bool_decide (ta_revoked_at a = None)) (artifacts db))).

Definition ListProfiles (p : Principal) (project : uuid) : Tx (list Profile) :=
  begin s p project InspectTeam "" [] (
    t ← now;
    rows ← query (λ db, map (λ '(id, r), (id, r, approval_valid t (tp_approval r) (tp_project_id r) db))
      (listed tp_created_at (λ _ r, bool_decide (tp_project_id r = project) && bool_decide (tp_revoked_at r = None)
         && row_is (artifacts db) (tp_artifact_id r) (λ a, bool_decide (ta_revoked_at a = None))) (profiles db)));
    out ← for_fold rows [] (λ out '(id, r, approved),
      match decode dec_Manifest zero_Manifest (tp_manifest r) with
      | None => fail ErrUnavailable
      | Some m => mret (out ++ [mkProfile id (tp_project_id r) (tp_artifact_id r) (tp_digest r) m approved])
      end);
    mret (out, false)).

Definition ListConnections (p : Principal) (project : uuid) : Tx (list ConnectionMetadata) :=
  inspect p project (λ _ db, map (λ '(id, c), mkConnectionMetadata id (tc_project_id c) (tc_app_id c) (tc_installation_id c) "github_app")
    (listed tc_created_at (λ _ c, bool_decide (tc_project_id c = project) && bool_decide (tc_revoked_at c = None)) (connections db))).

Definition ListBindings (p : Principal) (project : uuid) : Tx (list Binding) :=
  inspect p project (λ _ db, map (λ '(id, b), mkBindingHandle (tb_environment_id b) id (tb_project_id b) (tb_connection_id b)
      (mkTarget (tb_repository_id b) (tb_owner_name b) (tb_repository_name b) (tb_reference b) "" ""))
    (listed tb_created_at (λ _ b, bool_decide (tb_project_id b = project) && bool_decide (tb_revoked_at b = None)) (bindings db))).

Definition ListWorkloads (p : Principal) (project : uuid) : Tx (list Workload_) :=
  inspect p project (λ _ db, map (λ '(id, w), mkWorkload id (tw_project_id w) (tw_certificate_sha256 w) (tw_image_digest w))
    (listed tw_created_at (λ _ w, bool_decide (tw_project_id w = project) && bool_decide (tw_revoked_at w = None)) (workloads db))).

Definition ListGrants (p : Principal) (project : uuid) : Tx (list Grant) :=
  inspect p project (λ _ db, map (λ '(id, g), mkGrant id (tg_project_id g) (tg_profile_id g) (tg_package_id g) (tg_binding_id g)
      (tg_workload_id g) (tg_actor_id g) (tg_client_id g) (tg_expires_at g))
    (listed tg_created_at (λ _ g, bool_decide (tg_project_id g = project) && bool_decide (tg_revoked_at g = None)) (grants db))).

Definition ListPackages (p : Principal) (project : uuid) : Tx (list PackageMetadata) :=
  inspect p project (λ t db, omap (λ '(id, k),
      f ← profiles db !! tk_profile_id k;
      a ← artifacts db !! tp_artifact_id f;
      if bool_decide (tp_project_id f = project) && bool_decide (tp_revoked_at f = None) && bool_decide (ta_revoked_at a = None)
         && bool_decide (tk_revoked_at k = None)
      then Some (mkPackageMetadata id (tk_profile_id k) (tk_harness k) (tk_version k) (tk_digest k)
                   (approval_valid t (tk_approval k) (tp_project_id f) db && approval_valid t (tp_approval f) (tp_project_id f) db))
      else None) (select (λ _ _, true) (packages db))).

Definition GetPackage (p : Principal) (project id : uuid) : Tx Package :=
  begin s p project InspectTeam "" [] (
    kp ← on_err ErrDenied (query_row (λ db, kp ← live_package id project false db;
           a ← artifacts db !! tp_artifact_id kp.2; if bool_decide (ta_revoked_at a = None) then Some kp else None));
    match decode dec_Package zero_Package (tk_content kp.1) with
    | None => fail ErrDenied
    | Some pkg =>
        if negb (bool_decide (Digest (Marshal (Package_json pkg)) = tk_digest kp.1)) then fail ErrDenied else mret (pkg, false)
    end).

(** The first thousand receipts of a run. *)
Definition Receipts (p : Principal) (client : string) (id : uuid) : Tx (list Receipt) :=
  beginRun s p client id InspectTeam (
    _ ← runTx s p client id false;
    rows ← query (λ db, listed re_created_at (λ _ r, bool_decide (re_run_id r = id)) (receipts db));
    out ← for_fold (take 1000 rows) [] (λ out '(rid, r),
      match re_details r with
      | JObj _ | JNull => mret (out ++ [mkReceipt rid (re_run_id r) (re_operation_id r) (re_action r) (re_outcome r) (re_details r)])
      | _ => fail ErrUnavailable
      end);
    mret (out, false)).

Definition Catalog (p : Principal) (project : uuid) : Tx (list ToolDefinition) :=
  begin s p project InspectTeam "" [] (mret (Definitions, false)).

Definition CreateProjectRun (p : Principal) (project : uuid) (client : string) (input : CreateRunRequest) : Tx Run :=
  if negb (Enabled s) then fail ErrUnavailable else
  stored ← on_err ErrDenied (query_row (λ db, tg_project_id <$> grants db !! i_GrantID input));
  if negb (bool_decide (stored = project)) then fail ErrDenied else
  CreateRunWithRequest s p client input.

(** [ORDER BY r.created_at DESC,r.id LIMIT 100]. *)
Definition newest_first (a b : uuid * run_row) : Prop :=
  (rn_created_at b.2 < rn_created_at a.2)%Z ∨ (rn_created_at a.2 = rn_created_at b.2 ∧ (a.1 <= b.1)%N).
#[export] Instance newest_first_dec : RelDecision newest_first.
Proof. intros a b. unfold newest_first. apply _. Defined.
Definition shown_state (t : time) (r : run_row) (g : tool_grant_row) : string :=
  if negb (After (rn_expires_at r) t) then "expired"
  else if bool_decide (is_Some (tg_revoked_at g)) then "revoked" else rn_state r.
Definition ListRuns (p : Principal) (project : uuid) (client : string) : Tx (list Run) :=
  if negb (bool_decide (p_Kind p = Human)) then fail ErrDenied else
  begin s p project InspectTeam "" [] (
    t ← now;
    rows ← query (λ db, omap (λ '(id, r), g ← grants db !! rn_grant_id r; Some (id, r, g))
      (take 100 (merge_sort newest_first (select (λ _ r,
         bool_decide (rn_project_id r = project) && bool_decide (rn_actor_id r = p_ActorID p)
         && (bool_decide (client = "") || bool_decide (rn_client_id r = client)) && bool_decide (is_Some (grants db !! rn_grant_id r)))
         (runs db)))));
    out ← for_fold rows [] (λ out '(id, r, g),
      c ← lift (readScope (rn_reference r) (rn_scope r));
      mret (out ++ [with_state (shown_state t r g) (scoped_run id r g c)]));
    mret (out, false)).

(** *** Diagnostics *)

Definition checkBindingTx (project connectionID bindingID : uuid) : Tx (Connection * Target) :=
  cb ← on_err ErrDenied (query_row (check_binding project connectionID bindingID));
  let '(c, b) := cb in
  _ ← for_each [LockToolRow "tool_connections" connectionID; LockToolRow "tool_bindings" bindingID;
                LockToolRow "environments" (tb_environment_id b)] note_lock;
  mret (mkConnection (tc_app_id c) (tc_installation_id c) (tc_ciphertext c) (tc_nonce c),
        mkTarget (tb_repository_id b) (tb_owner_name b) (tb_repository_name b) (tb_reference b) "" "").

(** A live check of this actor and session. *)
Definition own_check (p : Principal) (t : time) (id : uuid) (k : uuid) (c : check_row) : bool :=
  bool_decide (k = id) && bool_decide (ck_actor_id c = p_ActorID p) && bool_decide (ck_session_id c = p_SessionID p)
  && (t <? ck_deadline c)%Z.

Definition checkAdmission (p : Principal) (project id conn binding : uuid) (stage : string) : Tx unit :=
  begin s p project ManageConnections "" [] (
    _ ← checkBindingTx project conn binding;
    t ← now;
    c ← on_err ErrDenied (query_row (λ db, c ← checks db !! id; if own_check p t id id c then Some c else None));
    _ ← note_lock (LockToolRow "tool_connection_checks" id);
    if negb (bool_decide (ck_state c ∈ ["admitted"; "dispatched"])) then fail ErrDenied else
    _ ← (if bool_decide (stage = "provider_request") then
           if (3 <=? ck_provider_operations c)%Z then fail ErrDenied
           else exec_ (on_tools (upd_t_tool_checks (alter (λ c, set_check "dispatched" (ck_provider_operations c + 1) (ck_finished_at c) c) id)))
         else mret ());
    _ ← event s p project "tool.connection.check.access" [("check_id", juuid id); ("stage", JStr stage)];
    mret ((), true)).

Definition admit_check (p : Principal) (project connectionID bindingID : uuid) : Tx (uuid * time * Connection * Target) :=
  begin s p project ManageConnections "" [] (
    ct ← checkBindingTx project connectionID bindingID;
    id ← uuid_New;
    t ← now;
    let deadline := earliest [(t + 30 * Second)%Z; p_ExpiresAt p] in
    _ ← exec (insert_check id (mkCheckRow project connectionID bindingID (p_ActorID p) (p_SessionID p) deadline "admitted" 0 None));
    _ ← event s p project "tool.connection.check.admitted"
          [("check_id", juuid id); ("connection_id", juuid connectionID); ("binding_id", juuid bindingID);
           ("external_read", JBool true); ("authorization_token_mint", JBool true); ("repository_write", JBool false)];
    mret (id, deadline, ct.1, ct.2, true)).

Definition CheckConnection (p : Principal) (project connectionID bindingID : uuid) (externalRead tokenMint : bool) : Tx ConnectionCheck :=
  if negb (fl_Admission (sv_flags s)) || negb externalRead || negb tokenMint then fail ErrDenied else
  x ← admit_check p project connectionID bindingID;
  let '(id, deadline, c, target) := x in
  resolved ← attempt (ResolveAuthorized (the_broker s) deadline (Some (checkAdmission p project id connectionID bindingID)) c target);
  let status := match resolved with
                | Ok _ => "succeeded"
                | Err e => if errors_Is e "provider outcome uncertain" then "uncertain" else "failed"
                end in
  let commit := match resolved with Ok t => g_Commit t | Err _ => "" end in
  begin s p project ManageConnections "" [] (
    _ ← checkBindingTx project connectionID bindingID;
    t ← now;
    n ← exec_n (λ db, Some (on_tools (upd_t_tool_checks (update_where (own_check p t id)
                              (λ c, set_check status (ck_provider_operations c) (Some t) c))) db,
                            count_where (own_check p t id) (checks db)));
    if negb (n =? 1)%Z then fail ErrDenied else
    _ ← event s p project "tool.connection.check.completed"
          [("check_id", juuid id); ("status", JStr status); ("repository_id", JInt (g_RepositoryID target)); ("commit", JStr commit)];
    mret (mkConnectionCheck id connectionID bindingID "github_app" status (g_RepositoryID target) commit true true false, true)).
End Manage.
