(* ===== verification/RunSpec.v ===== *)
(** * The agent tool platform: specification

    The moves the platform may make on its tables, as a step relation over
    databases that differ elsewhere as they like; the order every move respects
    and the invariant it keeps.  [RunRefine] proves that each operation of the
    service is a path of such moves. *)
From S2P Require Import Prelude GoStrings GoEncoding GoNet GoStruct Policy Schema Database Crypto Jobs Authority AuditLog VaultStore Automation Runner Broker Runs RunGrants RunOps RunRecovery RunManage.

(** ** Definitions *)

(** *** Operations *)

Inductive listing := Artifacts | Profiles | Connections | Bindings | Workloads | GrantList | Packages | ToolCatalog.
Inductive tool_op :=
  | TCreateArtifact (p : Principal) (project : uuid) (name source : string)
  | TCreateProfile (p : Principal) (project artifact : uuid)
  | TApproveProfile (p : Principal) (project id : uuid) (digest : string)
  | TPackage (p : Principal) (project profile : uuid) (client version : string)
  | TApprovePackage (p : Principal) (project id : uuid) (digest : string)
  | TCreateConnection (p : Principal) (project : uuid) (app installation : Z) (key : string)
  | TCreateBinding (p : Principal) (project conn : uuid) (environment : string) (t : Target)
  | TEnrollWorkload (p : Principal) (project : uuid) (fingerprint image : string)
  | TRevoke (p : Principal) (project id : uuid) (kind : string)
  | TRevokePackage (p : Principal) (project id : uuid)
  | TCheckConnection (p : Principal) (project conn binding : uuid) (external mint : bool)
  | TIssueGrant (p : Principal) (g : Grant)
  | TCreateRun (p : Principal) (client : string) (i : CreateRunRequest)
  | TCreateProjectRun (p : Principal) (project : uuid) (client : string) (i : CreateRunRequest)
  | TRequest (p : Principal) (client : string) (run : uuid) (key kind : string) (args : Arguments_)
  | TStatus (p : Principal) (client : string) (id : uuid) (wait_ : Z)
  | TResult (p : Principal) (client : string) (id : uuid)
  | TCancelOperation (p : Principal) (client : string) (id : uuid)
  | TCancelRun (p : Principal) (client : string) (id : uuid)
  | TRetryOperation (p : Principal) (client : string) (id : uuid)
  | TClaim (certificate image : string)
  | TTicketStatus (certificate : string) (req : TicketStatusRequest)
  | TExecute (certificate : string) (req : ExecuteRequest)
  | TReconcileExpired
  (** the hooks, in the transactions of their callers *)
  | TArchiveProject (project : uuid)
  | TOffboard (org target : uuid)
  (** inspection *)
  | TList (p : Principal) (project : uuid) (what : listing)
  | TGetPackage (p : Principal) (project id : uuid)
  | TReceipts (p : Principal) (client : string) (id : uuid)
  | TListRuns (p : Principal) (project : uuid) (client : string)
  | TGetRun (p : Principal) (client : string) (id : uuid)
  | TAvailableRuns (p : Principal) (client : string).

Definition discard {A} (m : Tx A) : Tx unit := _ ← m; mret ().

Section Operations.
Context `{P : Primitives} `{Y : YAML} `{JS : JSONSchema} `{U : UUIDParse} `{R : Remote} `{E : Elsewhere} (s : Service).

Definition list_op (p : Principal) (project : uuid) (what : listing) : Tx unit :=
  match what with
  | Artifacts => discard (ListArtifacts s p project)
  | Profiles => discard (ListProfiles s p project)
  | Connections => discard (ListConnections s p project)
  | Bindings => discard (ListBindings s p project)
  | Workloads => discard (ListWorkloads s p project)
  | GrantList => discard (ListGrants s p project)
  | Packages => discard (ListPackages s p project)
  | ToolCatalog => discard (Catalog s p project)
  end.
Definition run_tool_op (o : tool_op) : Tx unit :=
  match o with
  | TCreateArtifact p project name source => discard (CreateArtifact s p project name source)
  | TCreateProfile p project artifact => discard (CreateProfile s p project artifact)
  | TApproveProfile p project id digest => ApproveProfile s p project id digest
  | TPackage p project profile client version => discard (Package_ s p project profile client version)
  | TApprovePackage p project id digest => ApprovePackage s p project id digest
  | TCreateConnection p project app installation key => discard (CreateConnection s p project app installation key)
  | TCreateBinding p project conn environment t => discard (CreateBindingInEnvironment s p project conn environment t)
  | TEnrollWorkload p project fingerprint image => discard (EnrollWorkload s p project fingerprint image)
  | TRevoke p project id kind => Revoke s p project id kind
  | TRevokePackage p project id => RevokePackage s p project id
  | TCheckConnection p project conn binding external mint => discard (CheckConnection s p project conn binding external mint)
  | TIssueGrant p g => discard (IssueGrant s p g)
  | TCreateRun p client i => discard (CreateRunWithRequest s p client i)
  | TCreateProjectRun p project client i => discard (CreateProjectRun s p project client i)
  | TRequest p client run key kind args => discard (Request s p client run key kind args)
  | TStatus p client id wait_ => discard (Status s p client id wait_)
  | TResult p client id => discard (Result s p client id)
  | TCancelOperation p client id => CancelOperation s p client id
  | TCancelRun p client id => CancelRun s p client id
  | TRetryOperation p client id => discard (RetryOperation s p client id)
  | TClaim certificate image => discard (Claim s certificate image)
  | TTicketStatus certificate req => discard (TicketStatus s certificate req)
  | TExecute certificate req => discard (Execute s certificate req)
  | TReconcileExpired => discard (ReconcileExpired s)
  | TArchiveProject project => with_tx (ArchiveProjectTx project)
  | TOffboard org target => discard (with_tx (OffboardTx org target))
  | TList p project what => list_op p project what
  | TGetPackage p project id => discard (GetPackage s p project id)
  | TReceipts p client id => discard (Receipts s p client id)
  | TListRuns p project client => discard (ListRuns s p project client)
  | TGetRun p client id => discard (GetRun s p client id)
  | TAvailableRuns p client => discard (AvailableRuns s p client)
  end.
End Operations.

(** *** Moves *)

(** The platform's tables, receipts aside. *)
Definition view (db : DB) : ToolDB := upd_t_tool_receipts (const ∅) (db_tools db).

Section Manifest.
Context `{P : Primitives} `{JS : JSONSchema}.

(** The limits a run is under: those of its grant's profile. *)
Definition grant_manifest (grant : uuid) (db : DB) : option Manifest :=
  g ← grants db !! grant;
  p ← profiles db !! tg_profile_id g;
  m ← decode dec_Manifest zero_Manifest (tp_manifest p);
  if manifest_ok m then Some m else None.

Section Step.
Context (db : DB).

Definition active_run (run : uuid) (r : run_row) : Prop := runs db !! run = Some r ∧ rn_state r = "active".
(** An operation nobody has asked to cancel, of an active run. *)
Definition current (id : uuid) (o : operation_row) (r : run_row) : Prop :=
  operations db !! id = Some o ∧ xo_cancel_requested o = false ∧ active_run (xo_run_id o) r.
Definition new_operation (o : operation_row) : Prop :=
  xo_status o = "queued" ∧ xo_outcome o = "" ∧ xo_cancel_requested o = false ∧ xo_fence o = 0%Z.
Definition new_ticket (id : uuid) (fence : Z) (k : ticket_row) : Prop :=
  tt_operation_id k = id ∧ tt_fence k = fence ∧ tt_consumed_at k = None.

Inductive tool_step : DB → Prop :=
  (** operations *)
  | step_request id o r :
      operations db !! id = None → active_run (xo_run_id o) r → new_operation o →
      (∀ i o', operations db !! i = Some o' → ¬ (xo_run_id o' = xo_run_id o ∧ xo_request_key o' = xo_request_key o)) →
      tool_step (on_tools (upd_t_tool_operations <[id := o]>) db)
  | step_lease id o r t t' workload until tk k a :
      current id o r → xo_status o ∈ ["queued"; "leased"] → new_ticket id (xo_fence o + 1) k → tickets db !! tk = None →
      (∀ i k', tickets db !! i = Some k' → tt_token_hash k' ≠ tt_token_hash k) →
      attempts db !! (id, (xo_fence o + 1)%Z) = None → at_state a = "leased" → at_ticket_id a = tk →
      tool_step
        (on_tools (upd_t_tool_attempts <[(id, (xo_fence o + 1)%Z) := a]>)
          (on_tools (upd_t_tool_tickets <[tk := k]>)
            (update_operation id (lease_operation (xo_fence o + 1) workload until t)
              (if bool_decide (xo_status o = "leased") then expire_attempt id (xo_fence o) t' db else db))))
  | step_dispatch id o r t t' tk k :
      current id o r → xo_status o = "leased" → tickets db !! tk = Some k → tt_operation_id k = id → tt_fence k = xo_fence o →
      tt_consumed_at k = None →
      tool_step (dispatch_attempt id (xo_fence o)
        (update_operation id (λ x, set_operation "dispatched" (xo_outcome x) (xo_cancel_requested x) t' x)
          (on_tools (upd_t_tool_tickets (alter (consume_ticket t) tk)) db)))
  | step_finish id o r t st outcome :
      current id o r → xo_status o = "dispatched" → st ∈ ["failed"; "uncertain"] → outcome ≠ "pre_dispatch_failure" →
      tool_step (finish_attempt id (xo_fence o) st outcome t
        (update_operation id (λ x, set_operation st outcome (xo_cancel_requested x) t x) db))
  | step_succeed id o r t z n m :
      current id o r → xo_status o = "dispatched" → spool db !! id = None → grant_manifest (rn_grant_id r) db = Some m →
      (0 <= n)%Z → (rn_result_bytes r + n <= mf_MaxTotalBytes m)%Z →
      tool_step (finish_attempt id (xo_fence o) "succeeded" "succeeded" t
        (update_operation id (λ x, set_operation "succeeded" "succeeded" (xo_cancel_requested x) t x)
          (on_tools (upd_t_tool_runs <[xo_run_id o := set_run_counts (rn_provider_operations r) (rn_result_bytes r + n) r]>)
            (on_tools (upd_t_tool_spool <[id := z]>) db))))
  | step_uncertain id o t :
      operations db !! id = Some o → xo_status o = "dispatched" →
      tool_step (finish_attempt id (xo_fence o) "uncertain" "deadline_elapsed" t
        (update_operation id (λ x, set_operation "uncertain" "deadline_elapsed" (xo_cancel_requested x) t x) db))
  | step_expire id o t :
      operations db !! id = Some o → xo_status o = "leased" →
      tool_step (update_operation id (λ x, set_operation "failed" "pre_dispatch_failure" (xo_cancel_requested x) t x)
        (expire_attempt id (xo_fence o) t db))
  | step_retry id o r t :
      current id o r → xo_status o = "failed" → xo_outcome o = "pre_dispatch_failure" → reached_provider id db = 0%Z →
      tool_step (update_operation id (requeue t) db)
  | step_cancel_operation id o t :
      operations db !! id = Some o →
      tool_step (cancel_attempts (λ k, bool_decide (k = id)) t
        (update_operation id (λ x, set_operation (cancelled_status (xo_status o)) (xo_outcome x) true t x) db))
  (** runs *)
  | step_cancel_run id st t :
      st ∈ ["cancelled"; "revoked"] →
      tool_step (cancel_attempts (run_operation id (cancel_operations id t (set_state id st db))) t
        (cancel_operations id t (set_state id st db)))
  | step_charge run r m :
      runs db !! run = Some r → rn_state r ∈ ["preparing"; "active"] → grant_manifest (rn_grant_id r) db = Some m →
      (rn_provider_operations r < mf_MaxProviderOperations m)%Z →
      tool_step (on_tools (upd_t_tool_runs <[run := set_run_counts (rn_provider_operations r + 1) (rn_result_bytes r) r]>) db)
  | step_prepare run r m :
      runs db !! run = None → rn_state r = "preparing" → rn_provider_operations r = 0%Z → rn_result_bytes r = 0%Z →
      grant_manifest (rn_grant_id r) db = Some m →
      (∀ i r', runs db !! i = Some r' → ¬ same_request r r') →
      tool_step (on_tools (upd_t_tool_runs <[run := r]>) db)
  | step_activate run r commit tree :
      runs db !! run = Some r → rn_state r = "preparing" →
      tool_step (on_tools (upd_t_tool_runs (alter (set_run_commit commit tree) run)) db)
  | step_fail run r :
      runs db !! run = Some r → rn_state r = "preparing" → tool_step (set_state run "failed" db)
  (** what no other table depends on *)
  | step_resolutions g : tool_step (on_tools (upd_t_tool_resolutions g) db)
  | step_checks g : tool_step (on_tools (upd_t_tool_checks g) db)
  | step_drop_results p : tool_step (on_tools (upd_t_tool_spool (delete_where p)) db)
  (** the catalog of a project *)
  | step_artifact id a : artifacts db !! id = None → tool_step (on_tools (upd_t_tool_artifacts <[id := a]>) db)
  | step_profile id p :
      profiles db !! id = None → tp_approval p = None → tool_step (on_tools (upd_t_tool_profiles <[id := p]>) db)
  | step_package id k :
      packages db !! id = None → tk_approval k = None → tool_step (on_tools (upd_t_tool_packages <[id := k]>) db)
  | step_connection id c : connections db !! id = None → tool_step (on_tools (upd_t_tool_connections <[id := c]>) db)
  | step_binding id b : bindings db !! id = None → tool_step (on_tools (upd_t_tool_bindings <[id := b]>) db)
  | step_workload id w : workloads db !! id = None → tool_step (on_tools (upd_t_tool_workloads <[id := w]>) db)
  | step_grant id g :
      grants db !! id = None → is_Some (profiles db !! tg_profile_id g) → is_Some (packages db !! tg_package_id g) →
      tool_step (on_tools (upd_t_tool_grants <[id := g]>) db)
  | step_approve_profile id p a :
      profiles db !! id = Some p → tp_approval p = None → ap_approved_by a ≠ tp_created_by p →
      tool_step (on_tools (upd_t_tool_profiles <[id := mkProfileRow (tp_project_id p) (tp_artifact_id p) (tp_digest p) (tp_manifest p)
                   (tp_created_by p) (Some a) (tp_revoked_at p) (tp_created_at p)]>) db)
  | step_approve_package id k a :
      packages db !! id = Some k → tk_approval k = None → ap_approved_by a ≠ tk_created_by k →
      tool_step (on_tools (upd_t_tool_packages <[id := mkPackageRow (tk_profile_id k) (tk_harness k) (tk_version k) (tk_format k)
                   (tk_digest k) (tk_content k) (tk_compatibility k) (tk_created_by k) (Some a) (tk_revoked_at k)]>) db)
  | step_revoke_artifacts p t : tool_step (revoke_artifacts p t db)
  | step_revoke_profiles p t : tool_step (revoke_profiles p t db)
  | step_revoke_packages p t : tool_step (revoke_packages p t db)
  | step_revoke_connections p t : tool_step (revoke_connections p t db)
  | step_revoke_bindings p t : tool_step (revoke_bindings p t db)
  | step_revoke_workloads p t : tool_step (revoke_workloads p t db)
  | step_revoke_grants p t : tool_step (revoke_grants p t db).
End Step.

(** A move: a step, or nothing, with the rest of the database arbitrary. *)
Definition tool_move (db db' : DB) : Prop := ∃ db1, (db1 = db ∨ tool_step db db1) ∧ view db' = view db1.
Definition tool_path : relation DB := rtc tool_move.
End Manifest.

(** *** The order *)

(** An operation that reached the provider, and one that is over. *)
Definition final (o : operation_row) : Prop :=
  xo_status o ∈ ["succeeded"; "uncertain"; "cancelled"] ∨ (xo_status o = "failed" ∧ xo_outcome o ≠ "pre_dispatch_failure").
Record op_le (o o' : operation_row) : Prop := {
  op_same : xo_run_id o' = xo_run_id o ∧ xo_kind o' = xo_kind o ∧ xo_arguments o' = xo_arguments o ∧
    xo_request_key o' = xo_request_key o ∧ xo_request_digest o' = xo_request_digest o;
  op_fence : (xo_fence o <= xo_fence o')%Z;
  op_cancel : xo_cancel_requested o = true → xo_cancel_requested o' = true;
  op_final : final o → xo_status o' = xo_status o ∧ xo_outcome o' = xo_outcome o ∧ xo_fence o' = xo_fence o;
  op_dispatched : xo_status o = "dispatched" →
    xo_fence o' = xo_fence o ∧ (xo_status o' = "dispatched" ∨ (final o' ∧ xo_status o' ≠ "cancelled"));
}.
Definition dead_state : list string := ["failed"; "cancelled"; "revoked"].
Record run_le (r r' : run_row) : Prop := {
  run_same : rn_grant_id r' = rn_grant_id r ∧ rn_actor_id r' = rn_actor_id r ∧ rn_client_id r' = rn_client_id r ∧
    rn_request_key r' = rn_request_key r ∧ rn_project_id r' = rn_project_id r ∧ rn_request_digest r' = rn_request_digest r;
  run_counts : (rn_provider_operations r <= rn_provider_operations r')%Z ∧ (rn_result_bytes r <= rn_result_bytes r')%Z;
  run_dead : rn_state r ∈ dead_state → rn_state r' ∈ dead_state;
}.
Record profile_le (p p' : profile_row) : Prop := {
  profile_same : tp_digest p' = tp_digest p ∧ tp_manifest p' = tp_manifest p ∧ tp_artifact_id p' = tp_artifact_id p ∧
    tp_created_by p' = tp_created_by p;
  profile_approved a : tp_approval p = Some a → tp_approval p' = Some a;
  profile_revoked x : tp_revoked_at p = Some x → tp_revoked_at p' = Some x;
}.
Record package_le (k k' : package_row) : Prop := {
  package_same : tk_digest k' = tk_digest k ∧ tk_content k' = tk_content k ∧ tk_created_by k' = tk_created_by k;
  package_approved a : tk_approval k = Some a → tk_approval k' = Some a;
  package_revoked x : tk_revoked_at k = Some x → tk_revoked_at k' = Some x;
}.
Record tool_grant_le (g g' : tool_grant_row) : Prop := {
  tool_grant_same : tg_profile_id g' = tg_profile_id g ∧ tg_package_id g' = tg_package_id g ∧ tg_actor_id g' = tg_actor_id g ∧
    tg_client_id g' = tg_client_id g ∧ tg_profile_digest g' = tg_profile_digest g ∧ tg_package_digest g' = tg_package_digest g;
  tool_grant_revoked x : tg_revoked_at g = Some x → tg_revoked_at g' = Some x;
}.
(** A table whose rows stay, and only move up. *)
Definition rises {K V} `{Countable K} (R : relation V) (t t' : gmap K V) : Prop :=
  ∀ k v, t !! k = Some v → ∃ v', t' !! k = Some v' ∧ R v v'.
Record tool_le (db db' : DB) : Prop := {
  le_operations : rises op_le (operations db) (operations db');
  le_runs : rises run_le (runs db) (runs db');
  le_grants : rises tool_grant_le (grants db) (grants db');
  le_profiles : rises profile_le (profiles db) (profiles db');
  le_packages : rises package_le (packages db) (packages db');
  (** the result of an operation that is over is not written again *)
  le_spool op o z : operations db !! op = Some o → final o → spool db' !! op = Some z → spool db !! op = Some z;
  (** nothing new comes to a run that is over, and nothing is leased,
      dispatched or finished there *)
  le_dead run r id o' :
    runs db !! run = Some r → rn_state r ∈ dead_state → operations db' !! id = Some o' → xo_run_id o' = run →
    ∃ o, operations db !! id = Some o ∧ xo_run_id o = run ∧
      (xo_status o' ∈ ["queued"; "leased"; "dispatched"; "succeeded"] → xo_status o' = xo_status o ∧ xo_fence o' = xo_fence o);
}.

(** *** The invariant *)

(** An operation that went to the provider. *)
Definition sent (o : operation_row) : Prop := xo_status o = "dispatched" ∨ (final o ∧ xo_status o ≠ "cancelled").
Definition consumed (db : DB) (op i : uuid) : Prop :=
  ∃ k, tickets db !! i = Some k ∧ tt_operation_id k = op ∧ is_Some (tt_consumed_at k).
Definition within_limits `{P : Primitives} `{JS : JSONSchema} (db : DB) (r : run_row) : Prop :=
  ∃ m, grant_manifest (rn_grant_id r) db = Some m ∧
    (0 <= rn_provider_operations r <= mf_MaxProviderOperations m)%Z ∧ (0 <= rn_result_bytes r <= mf_MaxTotalBytes m)%Z.
Record tool_wf `{P : Primitives} `{JS : JSONSchema} (db : DB) : Prop := {
  wf_ticket i k : tickets db !! i = Some k → is_Some (operations db !! tt_operation_id k);
  (** an operation whose ticket is used went to the provider, and no other
      ticket of it is used *)
  wf_sent op i o : consumed db op i → operations db !! op = Some o → sent o;
  wf_once op i j : consumed db op i → consumed db op j → i = j;
  (** a run stays within the limits of its profile *)
  wf_budget run r : runs db !! run = Some r → within_limits db r;
  wf_spool op z : spool db !! op = Some z → ∃ o, operations db !! op = Some o ∧ xo_status o = "succeeded";
  (** a request key names one operation of a run, and one run of a client *)
  wf_operation_key i j o o' : operations db !! i = Some o → operations db !! j = Some o' →
    xo_run_id o' = xo_run_id o → xo_request_key o' = xo_request_key o → i = j;
  wf_run_key i j r r' : runs db !! i = Some r → runs db !! j = Some r' → same_request r r' → i = j;
  (** four eyes *)
  wf_profile id p a : profiles db !! id = Some p → tp_approval p = Some a → ap_approved_by a ≠ tp_created_by p;
  wf_package id k a : packages db !! id = Some k → tk_approval k = Some a → ap_approved_by a ≠ tk_created_by k;
}.

(** ** Lemmas *)

(** *** The view *)

Lemma view_eq a b :
  view a = view b →
  artifacts a = artifacts b ∧ profiles a = profiles b ∧ packages a = packages b ∧ connections a = connections b ∧
  bindings a = bindings b ∧ workloads a = workloads b ∧ grants a = grants b ∧ runs a = runs b ∧ resolutions a = resolutions b ∧
  operations a = operations b ∧ tickets a = tickets b ∧ attempts a = attempts b ∧ spool a = spool b ∧ checks a = checks b.
Proof. unfold view. by intros [=]. Qed.

Lemma tool_le_view a b a' b' : view a = view a' → view b = view b' → tool_le a b → tool_le a' b'.
Proof.
  intros (_&Ep&Ek&_&_&_&Eg&Er&_&Eo&_&_&Es&_)%view_eq (_&Fp&Fk&_&_&_&Fg&Fr&_&Fo&_&_&Fs&_)%view_eq [].
  rewrite Ep, Ek, Eg, Er, Eo, Es, Fp, Fk, Fg, Fr, Fo, Fs in *. by split.
Qed.

(** *** The order is one *)

#[export] Instance final_dec o : base.Decision (final o).
Proof. unfold final. apply _. Defined.

Lemma op_le_final o o' : op_le o o' → final o → final o'.
Proof. intros [_ _ _ Hf _] F. destruct (Hf F) as (E1 & E2 & _). unfold final in *. by rewrite E1, E2. Qed.
#[export] Instance op_le_preorder : PreOrder op_le.
Proof.
  split.
  - intros o. split; [by split_and!|lia|done|done|]. intros D. split; [done|by left].
  - intros a b c H1 H2. pose proof (op_le_final _ _ H1) as F1. destruct H1 as [(?&?&?&?&?) ? ? Fa Da], H2 as [(?&?&?&?&?) ? ? Fb Db].
    split; [intuition congruence|lia|auto| |].
    + intros F. destruct (Fa F) as (?&?&?), (Fb (F1 F)) as (?&?&?). split_and!; congruence.
    + intros D. destruct (Da D) as [? [D'|[F N]]].
      * destruct (Db D') as [? ?]. split; [congruence|done].
      * destruct (Fb F) as (Es&Eo&?). split; [congruence|]. right. unfold final in *. by rewrite Es, Eo.
Qed.
#[export] Instance run_le_preorder : PreOrder run_le.
Proof.
  split; [intros r; split; [by split_and!|lia|done]|].
  intros a b c [(?&?&?&?&?&?) [? ?] ?] [(?&?&?&?&?&?) [? ?] ?]. split; [split_and!; congruence|lia|auto].
Qed.
#[export] Instance profile_le_preorder : PreOrder profile_le.
Proof. split; [intros p; by split|]. intros a b c [(?&?&?&?) ? ?] [(?&?&?&?) ? ?]. split; [split_and!; congruence|auto..]. Qed.
#[export] Instance package_le_preorder : PreOrder package_le.
Proof. split; [intros p; by split|]. intros a b c [(?&?&?) ? ?] [(?&?&?) ? ?]. split; [split_and!; congruence|auto..]. Qed.
#[export] Instance tool_grant_le_preorder : PreOrder tool_grant_le.
Proof. split; [intros p; by split|]. intros a b c [(?&?&?&?&?&?) ?] [(?&?&?&?&?&?) ?]. split; [split_and!; congruence|auto..]. Qed.

Section Rises.
Context {K V} `{Countable K} (R : relation V) `{!PreOrder R}.
Implicit Types t : gmap K V.
#[export] Instance rises_preorder : PreOrder (rises (K := K) R).
Proof.
  split; [intros t k v Hk; by exists v|]. intros a b c Hab Hbc k v Hk.
  destruct (Hab _ _ Hk) as (v1 & H1 & R1), (Hbc _ _ H1) as (v2 & H2 & R2). exists v2. split; [done|by etrans].
Qed.
Lemma rises_new t k v : t !! k = None → rises R t (<[k := v]> t).
Proof. intros Hk i x Hi. exists x. split; [|done]. rewrite lookup_insert_ne; [done|congruence]. Qed.
Lemma rises_put t k v v' : t !! k = Some v → R v v' → rises R t (<[k := v']> t).
Proof.
  intros Hk Hv i x Hi. destruct (decide (k = i)) as [->|].
  - exists v'. rewrite lookup_insert_eq. split; [done|congruence].
  - exists x. by rewrite lookup_insert_ne.
Qed.
Lemma rises_alter t k g : (∀ v, t !! k = Some v → R v (g v)) → rises R t (alter g k t).
Proof.
  intros Hg i x Hi. destruct (decide (k = i)) as [->|].
  - exists (g x). rewrite lookup_alter_eq, Hi. auto.
  - exists x. by rewrite lookup_alter_ne.
Qed.
Lemma rises_update p g t : (∀ k v, t !! k = Some v → p k v = true → R v (g v)) → rises R t (update_where p g t).
Proof.
  intros Hg i x Hi. rewrite lookup_update_where, Hi. cbn. eexists. split; [done|]. destruct (p i x) eqn:E; [eauto|reflexivity].
Qed.
End Rises.

Lemma tool_le_refl db : tool_le db db.
Proof. split; try reflexivity; [by intros op o z ? ?|]. intros run r id o' Hr Hd Ho Hrun. eauto. Qed.
#[export] Instance tool_le_preorder : PreOrder tool_le.
Proof.
  split; [exact tool_le_refl|]. intros a b c A B. split; [etrans; [apply A|apply B]..| |].
  - intros op o z Ho F Hz. destruct (le_operations _ _ A _ _ Ho) as (o1 & Ho1 & L). pose proof (op_le_final _ _ L F) as F1.
    by eapply (le_spool _ _ A), (le_spool _ _ B).
  - intros run r id o' Hr Hd Ho Hrun. destruct (le_runs _ _ A _ _ Hr) as (r1 & Hr1 & Lr).
    destruct (le_dead _ _ B run r1 id o' Hr1 (run_dead _ _ Lr Hd) Ho Hrun) as (o1 & Ho1 & Hrun1 & H1).
    destruct (le_dead _ _ A run r id o1 Hr Hd Ho1 Hrun1) as (o0 & Ho0 & Hrun0 & H0).
    exists o0. split_and!; [done..|]. intros Hs. destruct (H1 Hs) as [E1 E2]. rewrite E1 in Hs. destruct (H0 Hs). split; congruence.
Qed.

(** *** Every step respects it *)

Lemma op_le_live o o' :
  xo_run_id o' = xo_run_id o ∧ xo_kind o' = xo_kind o ∧ xo_arguments o' = xo_arguments o ∧
    xo_request_key o' = xo_request_key o ∧ xo_request_digest o' = xo_request_digest o →
  (xo_fence o <= xo_fence o')%Z → (xo_cancel_requested o = true → xo_cancel_requested o' = true) →
  ¬ final o → xo_status o ≠ "dispatched" → op_le o o'.
Proof. intros S F C N D. by split. Qed.
Lemma op_le_dispatched o o' :
  xo_run_id o' = xo_run_id o ∧ xo_kind o' = xo_kind o ∧ xo_arguments o' = xo_arguments o ∧
    xo_request_key o' = xo_request_key o ∧ xo_request_digest o' = xo_request_digest o →
  xo_fence o' = xo_fence o → (xo_cancel_requested o = true → xo_cancel_requested o' = true) →
  xo_status o = "dispatched" → final o' ∧ xo_status o' ≠ "cancelled" → op_le o o'.
Proof.
  intros S F C D X. split; [done|lia|done| |by auto].
  unfold final. rewrite D. intros [H|[[=] _]]. by rewrite !elem_of_cons, elem_of_nil in H; destruct H as [[=]|[[=]|[[=]|[]]]].
Qed.
Lemma op_le_cancelled t o : op_le o (set_operation (cancelled_status (xo_status o)) (xo_outcome o) true t o).
Proof.
  unfold cancelled_status. case_bool_decide as E; [|by split; cbn; auto; lia].
  rewrite !elem_of_cons, elem_of_nil in E. apply op_le_live; [done|cbn; lia|done|..]; [unfold final|]; destruct E as [->|[->|[]]];
    (done || set_solver).
Qed.

(** Decides what a status is. *)
Ltac cases_of H := rewrite ?elem_of_cons, ?elem_of_nil in H; destruct_or? H; try done.
Ltac status :=
  unfold final, dead_state in *; cbn in *;
  repeat match goal with H : _ ∈ _ :: _ |- _ => cases_of H end;
  repeat match goal with E : xo_status _ = _ |- _ => rewrite E in * | E : rn_state _ = _ |- _ => rewrite E in * end;
  set_solver.

(** The steps that touch a table. *)
Ltac step_cases :=
  destruct 1; try reflexivity; cbn;
  try (match goal with |- context [if ?b then _ else _] => destruct b end; cbn; try reflexivity).

Lemma cancelled_live st : cancelled_status st ∈ ["queued"; "leased"; "dispatched"; "succeeded"] → cancelled_status st = st.
Proof. unfold cancelled_status. case_bool_decide; [set_solver|done]. Qed.
(** A row of a run that is over, updated. *)
Lemma dead_alter (t : gmap uuid operation_row) run id0 id o g o' :
  t !! id0 = Some o → xo_run_id (g o) = xo_run_id o →
  (xo_run_id o = run → xo_status (g o) ∈ ["queued"; "leased"; "dispatched"; "succeeded"] →
    xo_status (g o) = xo_status o ∧ xo_fence (g o) = xo_fence o) →
  alter g id0 t !! id = Some o' → xo_run_id o' = run →
  ∃ o, t !! id = Some o ∧ xo_run_id o = run ∧
    (xo_status o' ∈ ["queued"; "leased"; "dispatched"; "succeeded"] → xo_status o' = xo_status o ∧ xo_fence o' = xo_fence o).
Proof.
  intros Ho Hg Hs Hl Hrun. destruct (decide (id0 = id)) as [->|]; [|rewrite lookup_alter_ne in Hl by done; by eauto].
  rewrite lookup_alter_eq, Ho in Hl. injection Hl as <-. exists o. rewrite Hg in Hrun. auto.
Qed.

Section Steps.
Context `{P : Primitives} `{JS : JSONSchema} (db db' : DB).

Lemma step_operations : tool_step db db' → rises op_le (operations db) (operations db').
Proof.
  step_cases;
    repeat match goal with C : current _ _ _ _ |- _ => destruct C as (? & ? & _) end;
    [apply rises_new; [apply _|done]
    |apply rises_alter; [apply _|]; intros x ?; change (t_tool_operations (db_tools db)) with (operations db) in *; simplify_eq..
    |apply rises_update; [apply _|]; intros; apply op_le_cancelled].
  all: try solve [apply op_le_live; [done|cbn; lia|done|status..]].
  all: try solve [apply op_le_dispatched; [done|done|done|done|split; status]].
  apply op_le_cancelled.
Qed.

Lemma step_runs : tool_step db db' → rises run_le (runs db) (runs db').
Proof.
  step_cases;
    repeat match goal with C : current _ _ _ _ |- _ => destruct C as (_ & _ & C & _) end;
    change (t_tool_runs (db_tools db)) with (runs db) in *.
  all: first
    [ apply rises_new; [apply _|done] | eapply rises_put; [apply _|done|]
    | apply rises_alter; [apply _|]; intros x Hx; simplify_eq ].
  all: split; [by split_and!|cbn; lia|status].
Qed.
Lemma step_profiles : tool_step db db' → rises profile_le (profiles db) (profiles db').
Proof.
  step_cases;
    change (t_tool_profiles (db_tools db)) with (profiles db) in *.
  all: first
    [ apply rises_new; [apply _|done] | eapply rises_put; [apply _|done|] | apply rises_update; [apply _|]; intros ].
  all: split; [by split_and!|cbn; congruence|cbn; by intros ? ->].
Qed.
Lemma step_packages : tool_step db db' → rises package_le (packages db) (packages db').
Proof.
  step_cases;
    change (t_tool_packages (db_tools db)) with (packages db) in *.
  all: first
    [ apply rises_new; [apply _|done] | eapply rises_put; [apply _|done|] | apply rises_update; [apply _|]; intros ].
  all: split; [by split_and!|cbn; congruence|cbn; by intros ? ->].
Qed.
Lemma step_grants : tool_step db db' → rises tool_grant_le (grants db) (grants db').
Proof.
  step_cases;
    change (t_tool_grants (db_tools db)) with (grants db) in *.
  all: first [ apply rises_new; [apply _|done] | apply rises_update; [apply _|]; intros ].
  all: split; [by split_and!|cbn; by intros ? ->].
Qed.

Lemma step_spool op o z :
  tool_step db db' → operations db !! op = Some o → final o → spool db' !! op = Some z → spool db !! op = Some z.
Proof.
  intros S Ho F. revert S. destruct 1; try done; cbn; try (by case_match).
  - destruct (decide (id = op)) as [->|]; [|by rewrite lookup_insert_ne].
    match goal with C : current _ _ _ _ |- _ => destruct C as (? & _) end. simplify_eq. status.
  - by intros [? _]%lookup_delete_where.
Qed.
Lemma step_dead run r id o' :
  tool_step db db' → runs db !! run = Some r → rn_state r ∈ dead_state → operations db' !! id = Some o' → xo_run_id o' = run →
  ∃ o, operations db !! id = Some o ∧ xo_run_id o = run ∧
    (xo_status o' ∈ ["queued"; "leased"; "dispatched"; "succeeded"] → xo_status o' = xo_status o ∧ xo_fence o' = xo_fence o).
Proof.
  intros S Hr D. revert S. destruct 1; try (intros ? ?; by eauto); cbn; rewrite ?if_same; change (t_tool_operations (db_tools db)) with (operations db) in *.
  { intros [[-> ->]|[_ Hl]]%lookup_insert_Some Hrun; [|by eauto].
    match goal with A : active_run _ _ _ |- _ => destruct A as [A1 A2] end. simplify_eq. status. }
  1: replace (t_tool_operations _) with (operations db) by by case_match.
  1-8: intros Hl Hrun; eapply dead_alter; [| | |exact Hl|exact Hrun]; clear Hl Hrun; try done;
    try (match goal with C : current _ _ _ _ |- _ => destruct C as (? & _ & A1 & A2) end; done); intros Hrun Hs.
  all: try (match goal with C : current _ _ _ _ |- _ => destruct C as (? & _ & A1 & A2) end; simplify_eq; by status).
  1-2: by status.
  - split; [|done]. by apply cancelled_live.
  - intros Hl Hrun. rewrite lookup_update_where in Hl. apply fmap_Some in Hl as (o & Ho & ->). exists o. case_match; [|done].
    split_and!; [done..|]. intros Hs. split; [|done]. by apply cancelled_live.
Qed.

(** Every step moves the tables up. *)
Lemma tool_step_le : tool_step db db' → tool_le db db'.
Proof.
  intros S. split; [by apply step_operations|by apply step_runs|by apply step_grants|by apply step_profiles|by apply step_packages| |].
  - intros op o z. by apply step_spool.
  - intros run r id o'. by apply step_dead.
Qed.
End Steps.

Section Paths.
Context `{P : Primitives} `{JS : JSONSchema}.

Lemma tool_move_le db db' : tool_move db db' → tool_le db db'.
Proof.
  intros (db1 & [->|S] & V); [by eapply (tool_le_view db db db db')|]. by eapply (tool_le_view db db1), tool_step_le.
Qed.
Lemma tool_path_le db db' : tool_path db db' → tool_le db db'.
Proof. induction 1 as [|a b c H _ IH]; [reflexivity|]. etrans; [by apply tool_move_le|done]. Qed.

(** *** Every step keeps the invariant *)

Lemma manifest_ok_bounds m :
  manifest_ok m = true → (1 <= mf_MaxProviderOperations m <= 100)%Z ∧ (1 <= mf_MaxTotalBytes m <= 33554432)%Z.
Proof. unfold manifest_ok, within. b2p. change (32 * 2 ^ 20)%Z with 33554432%Z. lia. Qed.
Lemma grant_manifest_ok g db m : grant_manifest g db = Some m → manifest_ok m = true.
Proof. unfold grant_manifest. intros (x & _ & (p & _ & (m' & _ & H)%bind_Some)%bind_Some)%bind_Some. by case_match; simplify_eq. Qed.
Lemma grant_manifest_le db db' g m : tool_le db db' → grant_manifest g db = Some m → grant_manifest g db' = Some m.
Proof.
  unfold grant_manifest. intros L (x & Hx & (p & Hp & H)%bind_Some)%bind_Some.
  destruct (le_grants _ _ L _ _ Hx) as (x' & -> & [(E&_) _]). destruct (le_profiles _ _ L _ _ Hp) as (p' & Hp' & [(_&E'&_) _ _]).
  cbn. rewrite E, Hp'. cbn. by rewrite E'.
Qed.
Lemma sent_le o o' : op_le o o' → sent o → sent o'.
Proof.
  intros L [D|[F N]].
  - destruct (op_dispatched _ _ L D) as [_ [?|?]]; [by left|by right].
  - right. split; [by eapply op_le_final|]. by destruct (op_final _ _ L F) as (-> & _).
Qed.

Lemma dom_update_where {K V} `{Countable K} (p : K → V → bool) g (t : gmap K V) : dom (update_where p g t) = dom t.
Proof.
  apply set_eq. intros k. rewrite !elem_of_dom, lookup_update_where. by rewrite fmap_is_Some.
Qed.

Section Wf.
Context (db db' : DB) (S : tool_step db db') (W : tool_wf db).

Lemma step_rows op : is_Some (operations db !! op) → is_Some (operations db' !! op).
Proof. intros [o Ho]. destruct (step_operations _ _ S _ _ Ho) as (o' & Ho' & _). eauto. Qed.

Lemma step_ticket i k : tickets db' !! i = Some k → is_Some (operations db' !! tt_operation_id k).
Proof.
  pose proof step_rows as Hop. revert Hop. destruct S; intros Hop Hk; try (by eapply Hop, (wf_ticket _ W)); cbn in Hk.
  - apply lookup_insert_Some in Hk as [[<- <-]|[_ Hk]].
    + apply Hop. destruct H1 as (-> & _), H as (? & _). eauto.
    + apply Hop, (wf_ticket _ W i k). by case_match.
  - destruct (decide (tk = i)) as [->|]; [rewrite lookup_alter_eq in Hk|rewrite lookup_alter_ne in Hk by done].
    + apply fmap_Some in Hk as (kx & Hk & ->). apply Hop. by apply (wf_ticket _ W) in Hk.
    + by eapply Hop, (wf_ticket _ W).
Qed.
(** At most one ticket is used by a step, and its operation goes to the
    provider with it. *)
Lemma step_consumed :
  (∀ op i, consumed db' op i → consumed db op i) ∨
  ∃ op0 tk o o', operations db !! op0 = Some o ∧ xo_status o = "leased" ∧ operations db' !! op0 = Some o' ∧ xo_status o' = "dispatched" ∧
    ∀ op i, consumed db' op i → consumed db op i ∨ (op = op0 ∧ i = tk).
Proof.
  destruct S; try (by left).
  - left. intros op i (k' & Hk & E & C). cbn in Hk. apply lookup_insert_Some in Hk as [[<- <-]|[_ Hk]].
    + destruct H1 as (_&_&E1). rewrite E1 in C. by destruct C.
    + exists k'. split; [by case_match|done].
  - right. destruct H as (Ho&_). exists id, tk, o, (set_operation "dispatched" (xo_outcome o) (xo_cancel_requested o) t' o). split_and!; [done..| |done|].
    { cbn. change (t_tool_operations (db_tools db)) with (operations db). by rewrite lookup_alter_eq, Ho. }
    intros op i (k' & Hk & E & C). cbn in Hk. change (t_tool_tickets (db_tools db)) with (tickets db) in *.
    destruct (decide (tk = i)) as [->|N].
    + right. split; [|done]. rewrite lookup_alter_eq in Hk. apply fmap_Some in Hk as (kx & Hk & ->). cbn in E. congruence.
    + left. rewrite lookup_alter_ne in Hk by done. by exists k'.
Qed.
Lemma step_once op i j : consumed db' op i → consumed db' op j → i = j.
Proof.
  destruct step_consumed as [H|(op0 & tk & o & o' & Ho & E & _ & _ & H)]; [intros ?%H ?%H; by eapply wf_once|].
  assert (∀ x, ¬ consumed db op0 x) as N.
  { intros x C. destruct (wf_sent _ W _ _ _ C Ho) as [?|[F _]]; [congruence|by status]. }
  intros [A|[-> ->]]%H [B|[? ->]]%H; subst; [by eapply wf_once|by apply N in A|by apply N in B|done].
Qed.
Lemma step_sent op i o : consumed db' op i → operations db' !! op = Some o → sent o.
Proof.
  assert (∀ x, consumed db op x → operations db' !! op = Some o → sent o) as Old.
  { intros x C Ho. destruct C as (k & Hk & <- & C). destruct (wf_ticket _ W _ _ Hk) as [o0 Ho0].
    destruct (step_operations _ _ S _ _ Ho0) as (o' & Ho' & L). simplify_eq. eapply sent_le; [done|]. eapply (wf_sent _ W); [by exists k|done]. }
  destruct step_consumed as [H|(op0 & tk & o0 & o' & _ & _ & Ho' & E & H)]; [by intros ?%H; eapply Old|].
  intros [A|[-> ->]]%H Ho; [by eapply Old|]. simplify_eq. by left.
Qed.
Lemma limits_alter g id run r :
  alter g id (runs db) !! run = Some r →
  (∀ x, rn_grant_id (g x) = rn_grant_id x ∧ rn_provider_operations (g x) = rn_provider_operations x ∧
        rn_result_bytes (g x) = rn_result_bytes x) →
  within_limits db r.
Proof.
  intros Hr Hg. destruct (decide (id = run)) as [->|]; [|rewrite lookup_alter_ne in Hr by done; by apply (wf_budget _ W run)].
  rewrite lookup_alter_eq in Hr. apply fmap_Some in Hr as (x & Hx & ->). unfold within_limits. destruct (Hg x) as (-> & -> & ->).
  by apply (wf_budget _ W run).
Qed.
Lemma step_budget run r : runs db' !! run = Some r → within_limits db' r.
Proof.
  intros Hr. cut (within_limits db r). { intros (m & Hm & B). exists m. split; [|done]. by eapply grant_manifest_le; [apply tool_step_le|]. }
  revert Hr. destruct S; intros Hr; cbn in Hr; try (by apply (wf_budget _ W run)).
  all: change (t_tool_runs (db_tools db)) with (runs db) in *.
  - apply (wf_budget _ W run). by case_match.
  - apply lookup_insert_Some in Hr as [[<- <-]|[_ Hr]]; [|by apply (wf_budget _ W run)].
    destruct H as (_&_&Hr&_), (wf_budget _ W _ _ Hr) as (m' & Hm & ? & ?). simplify_eq. exists m. cbn. split_and!; [done|lia..].
  - by eapply (limits_alter (set_run_state st) id).
  - apply lookup_insert_Some in Hr as [[<- <-]|[_ Hr]]; [|by apply (wf_budget _ W run)].
    destruct (wf_budget _ W _ _ H) as (m' & Hm & ? & ?). simplify_eq. exists m. cbn. split_and!; [done|lia..].
  - apply lookup_insert_Some in Hr as [[<- <-]|[_ Hr]]; [|by apply (wf_budget _ W run)].
    exists m. pose proof (manifest_ok_bounds _ (grant_manifest_ok _ _ _ H3)). split_and!; [done|lia..].
  - by eapply (limits_alter (set_run_commit commit tree) run0).
  - by eapply (limits_alter (set_run_state "failed") run0).
Qed.
Lemma step_spooled op z : spool db' !! op = Some z → ∃ o, operations db' !! op = Some o ∧ xo_status o = "succeeded".
Proof.
  assert (spool db !! op = Some z → ∃ o, operations db' !! op = Some o ∧ xo_status o = "succeeded") as Old.
  { intros (o & Ho & E)%(wf_spool _ W). destruct (step_operations _ _ S _ _ Ho) as (o' & Ho' & L). exists o'. split; [done|].
    destruct (op_final _ _ L) as [-> _]; [left; rewrite E; set_solver|done]. }
  revert Old. destruct S; intros Old Hz; cbn in Hz; try (by apply Old).
  - apply Old. by case_match.
  - change (t_tool_spool (db_tools db)) with (spool db) in *. apply lookup_insert_Some in Hz as [[<- <-]|[_ Hz]]; [|by apply Old].
    destruct H as (Ho & _). cbn. change (t_tool_operations (db_tools db)) with (operations db). rewrite lookup_alter_eq, Ho. by eexists.
  - apply lookup_delete_where in Hz as [Hz _]. by apply Old.
Qed.
Lemma step_profile_eyes id p a : profiles db' !! id = Some p → tp_approval p = Some a → ap_approved_by a ≠ tp_created_by p.
Proof.
  destruct S; try (by apply (wf_profile _ W)); cbn; change (t_tool_profiles (db_tools db)) with (profiles db) in *.
  - case_match; apply (wf_profile _ W).
  - intros [[-> ->]|[_ Hp]]%lookup_insert_Some Ha; [congruence|by eapply (wf_profile _ W)].
  - intros [[-> <-]|[_ Hp]]%lookup_insert_Some Ha; [cbn in *; congruence|by eapply (wf_profile _ W)].
  - intros Hp Ha. rewrite lookup_update_where in Hp. apply fmap_Some in Hp as (p1 & Hp & ->).
    apply (wf_profile _ W _ _ a) in Hp; by case_match.
Qed.
Lemma step_package_eyes id k a : packages db' !! id = Some k → tk_approval k = Some a → ap_approved_by a ≠ tk_created_by k.
Proof.
  destruct S; try (by apply (wf_package _ W)); cbn; change (t_tool_packages (db_tools db)) with (packages db) in *.
  - case_match; apply (wf_package _ W).
  - intros [[-> ->]|[_ Hp]]%lookup_insert_Some Ha; [congruence|by eapply (wf_package _ W)].
  - intros [[-> <-]|[_ Hp]]%lookup_insert_Some Ha; [cbn in *; congruence|by eapply (wf_package _ W)].
  - intros Hp Ha. rewrite lookup_update_where in Hp. apply fmap_Some in Hp as (p1 & Hp & ->).
    apply (wf_package _ W _ _ a) in Hp; by case_match.
Qed.
(** A row after a step was there before, or is the one the step added. *)
Lemma step_new_operation : 
  (∀ id o', operations db' !! id = Some o' → ∃ o, operations db !! id = Some o ∧ op_le o o') ∨
  ∃ i0 o0, (∀ i o, operations db !! i = Some o → ¬ (xo_run_id o = xo_run_id o0 ∧ xo_request_key o = xo_request_key o0)) ∧
    operations db' = <[i0 := o0]> (operations db).
Proof.
  pose proof (step_operations _ _ S) as L. assert (dom (operations db') = dom (operations db) → 
    ∀ id o', operations db' !! id = Some o' → ∃ o, operations db !! id = Some o ∧ op_le o o') as Old.
  { intros D id o' Ho'. assert (is_Some (operations db !! id)) as [o Ho] by (apply elem_of_dom; rewrite <-D; apply elem_of_dom; eauto).
    exists o. split; [done|]. destruct (L _ _ Ho) as (o1 & Ho1 & ?). by simplify_eq. }
  revert Old. clear L. destruct S; intros Old; try (by left; apply Old); try (left; apply Old; cbn; by rewrite ?dom_alter_L).
  - right. by exists id, o.
  - left. apply Old. cbn. rewrite dom_alter_L. by case_match.
  - left. apply Old. cbn. apply dom_update_where.
Qed.
Lemma step_operation_key i j o o' :
  operations db' !! i = Some o → operations db' !! j = Some o' → xo_run_id o' = xo_run_id o → xo_request_key o' = xo_request_key o → i = j.
Proof.
  destruct step_new_operation as [H|(i0 & o0 & N & ->)].
  - intros (a & Ha & [(Ea&_&_&Ka&_) _ _ _ _])%H (b & Hb & [(Eb&_&_&Kb&_) _ _ _ _])%H E K. eapply (wf_operation_key _ W i j a b); congruence.
  - intros [[-> ->]|[_ Ha]]%lookup_insert_Some [[<- <-]|[_ Hb]]%lookup_insert_Some E K; [done| | |by eapply (wf_operation_key _ W)].
    + by destruct (N _ _ Hb).
    + destruct (N _ _ Ha). by split.
Qed.
Lemma step_new_run : 
  (∀ id r', runs db' !! id = Some r' → ∃ r, runs db !! id = Some r ∧ run_le r r') ∨
  ∃ i0 r0, (∀ i r, runs db !! i = Some r → ¬ same_request r0 r) ∧ runs db' = <[i0 := r0]> (runs db).
Proof.
  pose proof (step_runs _ _ S) as L. assert (dom (runs db') = dom (runs db) → 
    ∀ id r', runs db' !! id = Some r' → ∃ r, runs db !! id = Some r ∧ run_le r r') as Old.
  { intros D id r' Hr'. assert (is_Some (runs db !! id)) as [r Hr] by (apply elem_of_dom; rewrite <-D; apply elem_of_dom; eauto).
    exists r. split; [done|]. destruct (L _ _ Hr) as (r1 & Hr1 & ?). by simplify_eq. }
  revert Old. clear L. destruct S; intros Old; try (by left; apply Old); try (left; apply Old; cbn; by rewrite ?dom_alter_L).
  - left. apply Old. cbn. by case_match.
  - left. apply Old. cbn. apply dom_insert_lookup_L. destruct H as (_ & _ & Hr & _). by exists r.
  - left. apply Old. cbn. apply dom_insert_lookup_L. by exists r.
  - right. by exists run, r.
Qed.
Lemma step_run_key i j r r' : runs db' !! i = Some r → runs db' !! j = Some r' → same_request r r' → i = j.
Proof.
  unfold same_request. destruct step_new_run as [H|(i0 & r0 & N & ->)].
  - intros (a & Ha & [(_&Aa&Ca&Ka&_) _ _])%H (b & Hb & [(_&Ab&Cb&Kb&_) _ _])%H (E1 & E2 & E3).
    eapply (wf_run_key _ W i j a b); [done..|]. split_and!; congruence.
  - intros [[-> ->]|[_ Ha]]%lookup_insert_Some [[<- <-]|[_ Hb]]%lookup_insert_Some E; [done| | |by eapply (wf_run_key _ W)].
    + by destruct (N _ _ Hb).
    + destruct (N _ _ Ha). destruct E as (? & ? & ?). by split_and!.
Qed.
Lemma tool_step_wf : tool_wf db'.
Proof.
  split; [apply step_ticket|apply step_sent|apply step_once|apply step_budget|apply step_spooled|apply step_operation_key
         |apply step_run_key|apply step_profile_eyes|apply step_package_eyes].
Qed.
End Wf.

Lemma tool_wf_view a b : view a = view b → tool_wf a → tool_wf b.
Proof.
  intros (_&Ep&Ek&_&_&_&Eg&Er&_&Eo&Et&_&Es&_)%view_eq W.
  assert (∀ g, grant_manifest g b = grant_manifest g a) as Em by (intros g; unfold grant_manifest; by rewrite Eg, Ep).
  assert (∀ op i, consumed b op i ↔ consumed a op i) as Ec by (intros op i; unfold consumed; by rewrite Et).
  split; unfold within_limits; intros *; rewrite ?Ec, <-?Et, <-?Eo, <-?Er, <-?Es, <-?Ep, <-?Ek, ?Em; apply W.
Qed.
Lemma tool_path_wf db db' : tool_path db db' → tool_wf db → tool_wf db'.
Proof.
  induction 1 as [|a b c (x & [->|S] & V) _ IH]; intros W; [done|by eapply IH, tool_wf_view|].
  eapply IH, tool_wf_view; [by symmetry|]. by eapply tool_step_wf.
Qed.
End Paths.
