(* ===== verification/RunRefine.v ===== *)
(** * The agent tool platform: the refinement

    The interface the platform relies on ([PlatformOk], [ElsewhereOk]), and the
    proof that every operation of the service, whatever its outcome and whatever
    runs while it waits, is a path of the moves of [RunSpec]. *)
From S2P Require Import Prelude GoStrings GoEncoding GoNet GoStruct Policy Schema Database Crypto Jobs Authority AuditLog VaultStore Vault ApiKeys Automation Runner Broker Runs RunGrants RunOps RunRecovery RunManage RunSpec.

(** ** Definitions *)

(** Nothing of the platform's tables changes, receipts aside. *)
Definition aside (db db' : DB) : Prop := view db' = view db.

(** *** The interface *)

(** The barriers, the evaluator and the OAuth checks only read; the auditor
    leaves the platform's tables alone, and none of them waits. *)
Class PlatformOk (s : Runs.Service) : Prop := {
  locker_reads f p project management extra : LockProjectSubjects s = Some f → reads (f p project management extra);
  authorizer_reads f p a r : sv_authorize s = Some f → reads (f p a r);
  checker_reads f p client : RequireGrantTx s = Some f → reads (f p client);
  family_reads f p client family : FamilyPrincipalTx s = Some f → reads (f p client family);
  maintenance_reads f project subjects : LockMaintenanceSubjects s = Some f → reads (f project subjects);
  auditor_aside f u pr a e d ip : sv_audit s = Some f → keeps aside (f u pr a e d ip);
  auditor_forward f u pr a e d ip : sv_audit s = Some f → forward (f u pr a e d ip);
}.

(** What other requests do while one waits respects the specification. *)
Class ElsewhereOk `{P : Primitives} `{JS : JSONSchema} `{E : Elsewhere} : Prop :=
  meanwhile_path n db : tool_path db (meanwhile n db).

(** *** What the reads find *)

Section Found.
Context `{P : Primitives} `{Y : YAML} `{JS : JSONSchema} `{U : UUIDParse} (s : Runs.Service).

Definition epoch_of (project user : uuid) (db : DB) : option (Z * string) :=
  row ← live_project project db;
  match row.2 with
  | None => if bool_decide (row.1 = user) then Some (0%Z, "admin") else None
  | Some org =>
      m ← membership org user db;
      if negb m.1.2 || (m.1.1 <? 1)%Z then None else Some (m.1.1, m.2)
  end.
(** The chain of approvals behind a grant holds for a user and a client. *)
Definition in_force (t : time) (grant user : uuid) (client : string) (db : DB) (j : grant_rows) (m : Manifest) : Prop :=
  grant_chain t grant user client db = Some j ∧
  Forall (λ '(subject, epoch, cap), ∃ role, epoch_of (tg_project_id (j_grant j)) subject db = Some (epoch, role) ∧
    CapabilityAllows role cap = true) (grant_authorities j) ∧
  stored_manifest (j_profile j) (j_artifact j) = Some m ∧
  package_current s (tg_profile_id (j_grant j)) (j_profile j) (j_artifact j) (j_package j) (cl_harness (j_client j)) = true.

Definition run_state (id : uuid) (r : run_row) (g : tool_grant_row) (c : option runScope) : runState :=
  mkRunState (scoped_run id r g c) (rn_grant_id r) (rn_session_id r) (rn_parent_kind r) (rn_parent_family r)
    (rn_parent_token r) (rn_authority_expires_at r) (default "" (rn_tree_sha r)) (bool_decide (is_Some c))
    (rn_provider_operations r) (rn_result_bytes r).
Definition operation_state (id : uuid) (o : operation_row) (r : run_row) (args : Arguments_) : operationState :=
  mkOperationState
    (mkOperation id (xo_run_id o) (xo_status o) (xo_outcome o) None (xo_expires_at o) uuid_Nil (xo_cancel_requested o))
    (xo_kind o) args (xo_request_digest o) (operation_parent o r) (xo_fence o) (xo_workload_id o) (xo_deadline o)
    (xo_lease_until o).

(** A run as a transaction found it; an [active] one with the grant behind it. *)
Definition found_run (t : time) (active : bool) (db : DB) (id : uuid) (r : run_row) (rs : runState) (g : grantState) : Prop :=
  runs db !! id = Some r ∧ (∃ tg c, grants db !! rn_grant_id r = Some tg ∧ rs = run_state id r tg c) ∧
  (active = true → rn_state r = "active" ∧ (t < rn_expires_at r)%Z ∧ (t < rn_authority_expires_at r)%Z ∧
    ∃ j m tg, in_force t (rn_grant_id r) (rn_actor_id r) (rn_client_id r) db j m ∧ g = with_target tg (grant_state (rn_grant_id r) j m)).
(** An operation as a transaction found it. *)
Definition found (t : time) (active : bool) (db : DB) (id : uuid) (o : operation_row) (r : run_row)
    (rs : runState) (g : grantState) (os : operationState) : Prop :=
  operations db !! id = Some o ∧ found_run t active db (xo_run_id o) r rs g ∧ (∃ args, os = operation_state id o r args) ∧
  (active = true → xo_cancel_requested o = false ∧ (t < xo_expires_at o)%Z ∧ (t < xo_authority_expires_at o)%Z).
End Found.

(** ** Lemmas *)

#[export] Instance aside_preorder : PreOrder aside.
Proof. split; [done|]. unfold aside. intros a b c. congruence. Qed.
Lemma unchanged_aside {A} (m : Tx A) : keeps unchanged m → keeps aside m.
Proof. intros Hm w r w' ->%Hm. done. Qed.

Section Paths.
Context `{P : Primitives} `{JS : JSONSchema}.
#[export] Instance tool_path_preorder : PreOrder tool_path := _.
Lemma path_aside db db' : aside db db' → tool_path db db'.
Proof. intros H. apply rtc_once. exists db. auto. Qed.
Lemma path_step db db1 db' : tool_step db db1 → aside db1 db' → tool_path db db'.
Proof. intros S H. apply rtc_once. exists db1. auto. Qed.
Lemma path_keeps {A} (m : Tx A) : keeps aside m → keeps tool_path m.
Proof. intros Hm w r w' H. by eapply path_aside, Hm. Qed.
Lemma path_reads {A} (m : Tx A) : reads m → keeps tool_path m.
Proof. intros [Hm _]. by apply path_keeps, unchanged_aside. Qed.
End Paths.

(** *** What only reads *)

Section Reads.
Context `{P : Primitives} `{Y : YAML} `{JS : JSONSchema} `{U : UUIDParse} (s : Runs.Service) `{!PlatformOk s}.

Lemma reads_nil_pointer {A} : reads (nil_pointer : Tx A).
Proof. apply reads_fail. Qed.
Lemma reads_port {F A} (o : option F) (call : F → Tx A) : (∀ f, o = Some f → reads (call f)) → reads (port o call).
Proof. intros H. destruct o as [f|]; [by apply H|apply reads_nil_pointer]. Qed.
Lemma reads_require_grant p client : reads (require_grant s p client).
Proof. unfold require_grant. destruct (RequireGrantTx s) eqn:E; [|apply reads_fail]. by eapply reads_on_err, checker_reads. Qed.
Lemma reads_memberEpoch project user : reads (memberEpoch project user).
Proof. unfold memberEpoch. reads_tac. Qed.
Lemma reads_rand_bytes n : reads (rand_bytes n).
Proof. split; [apply keeps_rand_bytes, _|apply forward_rand_bytes]. Qed.
#[local] Hint Resolve reads_require_grant reads_memberEpoch reads_rand_bytes : reads.
Lemma reads_grantTx id user client : reads (grantTx s id user client).
Proof. unfold grantTx. reads_tac. Qed.
Lemma reads_readRun id lock : reads (readRun id lock).
Proof. unfold readRun. reads_tac. Qed.
#[local] Hint Resolve reads_grantTx reads_readRun : reads.
Lemma reads_runTx p client id active : reads (runTx s p client id active).
Proof. unfold runTx. reads_tac. Qed.
Lemma reads_discoverRun id : reads (discoverRun id).
Proof. unfold discoverRun, subjectsForGrant. reads_tac. Qed.
Lemma reads_readOperation id lock : reads (readOperation id lock).
Proof. unfold readOperation. reads_tac. Qed.
Lemma reads_discoverOperation id : reads (discoverOperation id).
Proof. unfold discoverOperation. reads_tac. Qed.
Lemma reads_checkBindingTx project c b : reads (checkBindingTx project c b).
Proof. unfold checkBindingTx. reads_tac. Qed.
Lemma reads_randomToken : reads randomToken.
Proof. unfold randomToken. reads_tac. Qed.
Lemma reads_Seal b x : reads (Seal b x).
Proof. unfold Seal, EncryptServiceSecret. split; [keeps_tac|forward_tac]. Qed.
Lemma reads_run_principal p client i : reads (run_principal s p client i).
Proof.
  unfold run_principal. destruct (bool_decide _); [|destruct (_ && _); auto with reads].
  destruct (bool_decide _); [auto with reads|]. destruct (FamilyPrincipalTx s) eqn:E; [|auto with reads].
  apply reads_bind; [by eapply reads_on_err, family_reads|]. intros d. destruct (negb _); auto with reads.
Qed.
End Reads.
#[export] Hint Resolve reads_require_grant reads_memberEpoch reads_rand_bytes reads_grantTx reads_readRun reads_runTx reads_discoverRun
  reads_readOperation reads_discoverOperation reads_checkBindingTx reads_randomToken reads_Seal reads_run_principal : reads.

(** *** What takes no time *)

Section Forward.
Context `{P : Primitives} `{Y : YAML} `{JS : JSONSchema} `{U : UUIDParse} (s : Runs.Service) `{!PlatformOk s}.

Lemma forward_event p project action details : forward (event s p project action details).
Proof.
  unfold event. apply forward_bind; [|intros _].
  { unfold port. destruct (sv_audit s) eqn:E; [by apply auditor_forward|apply forward_fail]. }
  unfold EnqueueTx. forward_tac.
Qed.
Lemma forward_receipt p project run op action outcome details : forward (receipt s p project run op action outcome details).
Proof. unfold receipt. pose proof forward_event. forward_tac. Qed.
Lemma forward_beginMode {A} p project cap client control extra (body : Tx (A * bool)) :
  forward body → forward (beginMode s p project cap client control extra body).
Proof.
  intros Hb. unfold beginMode. destruct (_ || _); [apply forward_fail|]. apply forward_bind; [apply forward_get|intros t].
  destruct (_ || _); [apply forward_fail|]. apply forward_with_tx_or.
  apply forward_bind; [apply forward_on_err, forward_exec_|intros _].
  apply forward_bind; [apply reads_forward, reads_on_err, reads_port; intros; by apply locker_reads|intros _].
  apply forward_bind; [apply reads_forward, reads_on_err, reads_port; intros; by apply authorizer_reads|intros d].
  apply forward_bind; [apply forward_check|intros _]. apply forward_bind; [apply reads_forward; auto with reads|intros er].
  apply forward_bind; [apply forward_check|intros _]. apply forward_bind; [|done].
  apply reads_forward. destruct (bool_decide (p_Kind p = _)); [destruct (bool_decide _)|]; auto with reads nocore.
Qed.
Lemma forward_beginRun {A} p client id cap (body : Tx (A * bool)) : forward body → forward (beginRun s p client id cap body).
Proof.
  intros Hb. unfold beginRun. do 2 (apply forward_bind; [apply reads_forward; auto with reads|intros ?]).
  apply forward_beginMode, forward_bind; [|done]. apply reads_forward. destruct (_ && _); auto with reads nocore.
Qed.
Lemma forward_beginOperation {A} p client id active (body : runState → grantState → operationState → Tx (A * bool)) :
  (∀ r g o, forward (body r g o)) → forward (beginOperation s p client id active body).
Proof.
  intros Hb. unfold beginOperation. apply forward_bind; [apply reads_forward; auto with reads|intros [[run parent] client']].
  destruct (_ || _); [apply forward_fail|]. apply forward_beginRun.
  apply forward_bind; [apply reads_forward; destruct (_ && _); auto with reads nocore|intros _].
  do 2 (apply forward_bind; [apply reads_forward; auto with reads|intros ?]). apply forward_bind; [apply forward_get|intros t].
  destruct (_ && _); [apply forward_fail|apply Hb].
Qed.
End Forward.

(** *** Transactions *)

(** What a body that commits does to the database. *)
Definition commits {A} (R : DB → DB → Prop) (body : Tx (A * bool)) : Prop :=
  ∀ w a w', body w = (Ok (a, true), w') → R (w_db w) (w_db w').

(** A read before the rest fails without a trace, or hands its value on. *)
Lemma bind_reads {A B} (m : Tx A) (f : A → Tx B) w x w' :
  (m ≫= f) w = (x, w') → reads m → w_db w' = w_db w ∨ ∃ a w1, m w = (Ok a, w1) ∧ at_same w w1 ∧ f a w1 = (x, w').
Proof.
  intros [(a & w1 & H1 & H)|(e & H & ->)]%bind_run Hm; [right; exists a, w1; split_and!; [done|by eapply reads_run|done]|].
  left. destruct Hm as [Hm _]. by eapply Hm.
Qed.

Lemma for_each_reads {A} (l : list A) (body : A → Tx unit) w u w' :
  (∀ x, reads (body x)) → for_each l body w = (Ok u, w') → ∀ x, x ∈ l → ∃ w1 w2, at_same w w1 ∧ body x w1 = (Ok (), w2).
Proof.
  intros Hb. revert w. induction l as [|y l IH]; intros w H x Hx; [by apply elem_of_nil in Hx|].
  apply bind_reads_Ok in H as ([] & w1 & H1 & S1 & H); [|done]. apply elem_of_cons in Hx as [->|Hx]; [by exists w, w1|].
  destruct (IH w1 H x Hx) as (wa & wb & Sa & Ha). exists wa, wb. split; [by etrans|done].
Qed.

Section Commits.
Context (R : DB → DB → Prop) `{!PreOrder R}.
Lemma commits_keeps {A} (body : Tx (A * bool)) : keeps R body → commits R body.
Proof. intros H w a w' E. by eapply H. Qed.
Lemma commits_bind {A B} (m : Tx A) (f : A → Tx (B * bool)) : keeps R m → (∀ a, commits R (f a)) → commits R (m ≫= f).
Proof. intros Hm Hf w b w' (a & w1 & H1%Hm & H2%Hf)%bind_Ok. by etrans. Qed.
Lemma commits_reads {A B} (m : Tx A) (f : A → Tx (B * bool)) : reads m → (∀ a, commits R (f a)) → commits R (m ≫= f).
Proof. intros [Hm _] Hf. apply commits_bind; [|done]. by apply keeps_unchanged. Qed.
Lemma commits_fail {A} e : commits R (fail e : Tx (A * bool)).
Proof. by intros w a w' [=]. Qed.
Lemma commits_ret {A} (x : A * bool) : commits R (mret x).
Proof. by apply commits_keeps, keeps_ret. Qed.
End Commits.

Section Begin.
Context `{P : Primitives} `{Y : YAML} `{JS : JSONSchema} `{U : UUIDParse} (s : Runs.Service) `{!PlatformOk s}.

(** What a transaction of the platform does: it fails without a trace, or hands
    on what its body made of the database it began with. *)
Definition outcome {A} (body : Tx (A * bool)) (w : World) (x : result A) (w' : World) : Prop :=
  (∃ e, x = Err e ∧ w_db w' = w_db w) ∨
  ∃ w1 a c w2, at_same w w1 ∧ body w1 = (Ok (a, c), w2) ∧ x = Ok a ∧ w_db w' = if c : bool then w_db w2 else w_db w.
Lemma outcome_commits {A} (body : Tx (A * bool)) w x w' :
  outcome body w x w' → w_db w' = w_db w ∨ ∃ w1 a w2, at_same w w1 ∧ body w1 = (Ok (a, true), w2) ∧ x = Ok a ∧ w_db w' = w_db w2.
Proof. intros [(e & _ & E)|(w1 & a & [] & w2 & S & H & -> & E)]; [by left|right; by eauto 10|by left]. Qed.
Lemma beginMode_run {A} p project cap client control extra (body : Tx (A * bool)) w x w' :
  beginMode s p project cap client control extra body w = (x, w') → outcome body w x w'.
Proof.
  unfold beginMode, outcome. destruct (_ || _); [intros [= <- <-]; left; by eexists|].
  intros [(t & w0 & [-> ->]%now_Ok & H)|(e & [=] & _)]%bind_run. destruct (_ || _); [injection H as <- <-; left; by eexists|].
  apply with_tx_or_cases in H as [(e & -> & E)|(w1 & a & c & w2 & S & H & -> & E)]; [left; by eexists|]. right.
  apply bind_Ok in H as (u & w3 & H3 & H). apply on_err_Ok, exec__Ok in H3 as ->.
  assert (at_same w (upd_w_db (const (w_db w1)) (ticked w1))) as S3 by exact S. revert H S3. generalize (upd_w_db (const (w_db w1)) (ticked w1)).
  clear w1 S. intros w1 H S.
  apply bind_reads_Ok in H as (u1 & w3 & _ & S3 & H); [|apply reads_on_err, reads_port; intros; by apply locker_reads].
  apply bind_reads_Ok in H as (d & w4 & _ & S4 & H); [|apply reads_on_err, reads_port; intros; by apply authorizer_reads].
  read_step H as u2 H5 S5. read_step H as er H6 S6. read_step H as u3 H7 S7.
  apply bind_reads_Ok in H as (u4 & w8 & _ & S8 & H);
    [|destruct (bool_decide (p_Kind p = _)); [destruct (bool_decide _)|]; auto with reads nocore].
  exists w8, a, c, w2. split_and!; try done. by do 6 (etrans; [eassumption|]).
Qed.
Lemma tool_begin_run {A} p project cap client extra (body : Tx (A * bool)) w x w' :
  begin s p project cap client extra body w = (x, w') → outcome body w x w'.
Proof. apply beginMode_run. Qed.
Lemma beginRun_run {A} p client id cap (body : Tx (A * bool)) w x w' :
  beginRun s p client id cap body w = (x, w') → outcome body w x w'.
Proof.
  unfold beginRun, outcome. intros H. destruct x as [a|e].
  - right. apply bind_reads_Ok in H as (ps & w1 & _ & S1 & H); [|auto with reads].
    apply bind_reads_Ok in H as (q & w2 & _ & S2 & H); [|auto with reads].
    apply tool_begin_run in H as [(e & [=] & _)|(w3 & a' & c & w4 & S3 & H & [= <-] & E)].
    apply bind_reads_Ok in H as (u & w5 & _ & S5 & H); [|destruct (_ && _); auto with reads nocore].
    exists w5, a, c, w4. split_and!; [by do 3 (etrans; [eassumption|])|done..|].
    rewrite E. destruct c; [done|]. destruct S1, S2. congruence.
  - left. exists e. split; [done|]. apply bind_reads in H as [H|(ps & w1 & _ & S1 & H)]; [done| |auto with reads].
    apply bind_reads in H as [H|(q & w2 & _ & S2 & H)]; [destruct S1; congruence| |auto with reads].
    apply tool_begin_run in H as [(e' & _ & E)|(w3 & a & c & w4 & _ & _ & [=] & _)]. destruct S1, S2. congruence.
Qed.
End Begin.

Section Finds.
Context `{P : Primitives} `{Y : YAML} `{JS : JSONSchema} `{U : UUIDParse} (s : Runs.Service) `{!PlatformOk s}.

Lemma memberEpoch_Ok project user w x w' : memberEpoch project user w = (Ok x, w') → epoch_of project user (w_db w) = Some x.
Proof.
  unfold memberEpoch, epoch_of. intros H. apply bind_Ok in H as ([owner org] & w1 & [E ->]%on_err_Ok%query_row_Ok & H).
  rewrite E. cbn. destruct org as [org|]; [|case_match; [by apply ret_Ok in H as [<- _]|done]].
  apply bind_Ok in H as ([[e a] role] & w2 & [E2 ->]%on_err_Ok%query_row_Ok & H). cbn in E2. rewrite E2. cbn.
  case_match; [done|]. by apply ret_Ok in H as [<- _].
Qed.
Lemma grantTx_Ok id user client w g w' :
  grantTx s id user client w = (Ok g, w') →
  ∃ j m, in_force s (w_now w) id user client (w_db w) j m ∧ g = grant_state id j m.
Proof.
  unfold grantTx. intros H. read_step H as t Ht S0. apply now_Ok in Ht as [-> ->].
  apply bind_Ok in H as (j & w1 & [E ->]%on_err_Ok%query_row_Ok & H).
  apply bind_reads_Ok in H as (u & w2 & _ & S2 & H); [|apply reads_for_each; auto with reads].
  assert (∀ x, reads ((λ '(subject, epoch, cap),
      er ← on_err ErrDenied (memberEpoch (tg_project_id (j_grant j)) subject);
      check ((er.1 =? epoch)%Z && CapabilityAllows er.2 cap) ErrDenied) x)) as R by (intros [[? ?] ?]; reads_tac).
  apply bind_reads_Ok in H as (u3 & w3 & H3 & S3 & H); [|by apply reads_for_each].
  destruct (stored_manifest _ _) as [m|] eqn:Em; [|done]. apply bind_Ok in H as (u4 & w4 & [Ek ->]%check_Ok & H).
  apply ret_Ok in H as [<- <-]. exists j, m. split; [|done]. split_and!; [exact E| |done|done].
  apply Forall_forall. intros [[u0 e] c] Hin.
  destruct (for_each_reads _ _ _ _ _ R H3 _ Hin) as (wa & wb & Sa & H0). apply bind_Ok in H0 as (er & wc & H0 & [Hc _]%check_Ok).
  apply on_err_Ok, memberEpoch_Ok in H0. destruct Sa as [Ea _], S2 as [E2 _]. rewrite Ea, E2 in H0. b2p. destruct Hc as [<- Hc].
  exists er.2. by destruct er.
Qed.
Lemma readRun_Ok id lock w rs w' :
  readRun id lock w = (Ok rs, w') → ∃ r tg c, runs (w_db w) !! id = Some r ∧ grants (w_db w) !! rn_grant_id r = Some tg ∧ rs = run_state id r tg c.
Proof.
  unfold readRun. intros H. apply bind_Ok in H as ([r tg] & w1 & [E ->]%query_row_Ok & H).
  unfold run_grant in E. destruct (runs (w_db w) !! id) as [r'|]; [|done]. cbn in E.
  destruct (grants (w_db w) !! rn_grant_id r') as [tg'|] eqn:Eg; [|done]. injection E as -> ->.
  apply bind_Ok in H as (u & w2 & _ & H). apply bind_Ok in H as (c & w3 & _ & H). apply ret_Ok in H as [<- _]. eauto 10.
Qed.
Lemma runTx_Ok p client id active w rs g w' :
  runTx s p client id active w = (Ok (rs, g), w') → ∃ r, found_run s (w_now w) active (w_db w) id r rs g ∧ rn_actor_id r = actor p ∧ rn_client_id r = client.
Proof.
  unfold runTx. intros H. read_step H as r0 H0 S0. apply on_err_Ok, readRun_Ok in H0 as (r & tg & c & Hr & Hg & ->).
  branch H as B1. branch H as B0. exists r. b2p. destruct B1 as [[B1 B2] _]. cbn in B1, B2. clear B0.
  split; [|done]. split; [done|]. destruct active; cbn [negb] in H.
  - read_step H as t Ht S1. apply now_Ok in Ht as [-> ->]. destruct S0 as (E0 & T0 & _). branch H as B3.
    b2p. destruct B3 as [[B3 B4] B5]. cbn in *. unfold After in B4, B5. b2p. rewrite T0 in *.
    apply bind_Ok in H as (g0 & w2 & H2 & H). apply grantTx_Ok in H2 as (j & m & Hf & ->). rewrite T0, E0 in Hf.
    branch H as B6. apply ret_Ok in H as [[= <- <-] _].
    split; [eauto|]. intros _. split_and!; [done|lia|lia|]. eexists j, m, _. split; [|done]. by rewrite B2.
  - apply ret_Ok in H as [[= <- <-] _]. split; [eauto|done].
Qed.
Lemma readOperation_Ok id lock w o w' :
  readOperation id lock w = (Ok o, w') →
  ∃ xo r args, operations (w_db w) !! id = Some xo ∧ runs (w_db w) !! xo_run_id xo = Some r ∧ o = operation_state id xo r args.
Proof.
  unfold readOperation. intros H. apply bind_Ok in H as ([xo r] & w1 & [E ->]%query_row_Ok & H).
  apply bind_Ok in H as (u & w2 & _ & H). destruct (decode _ _ _) as [args|]; [|done]. apply ret_Ok in H as [<- _].
  exists xo, r, args. unfold operation_run in E. destruct (operations (w_db w) !! id) as [x|]; [|done]. cbn in E.
  destruct (runs (w_db w) !! xo_run_id x) as [r'|] eqn:Er; [|done]. by injection E as -> ->.
Qed.

Lemma discoverOperation_Ok id w run parent client w' :
  discoverOperation id w = (Ok (run, parent, client), w') →
  ∃ o r, operations (w_db w) !! id = Some o ∧ runs (w_db w) !! xo_run_id o = Some r ∧ run = xo_run_id o ∧
    parent = operation_parent o r ∧ client = rn_client_id r.
Proof.
  unfold discoverOperation. intros H. apply bind_Ok in H as ([o r] & w1 & [E ->]%on_err_Ok%query_row_Ok & H).
  apply ret_Ok in H as [[= <- <- <-] _]. exists o, r. unfold operation_run in E.
  destruct (operations (w_db w) !! id) as [x|]; [|done]. cbn in E.
  destruct (runs (w_db w) !! xo_run_id x) as [r'|] eqn:Er; [|done]. by injection E as -> ->.
Qed.

(** An operation of a client fails without a trace, or hands on what its body
    made of what it found. *)
Lemma beginOperation_run {A} p client id active (body : runState → grantState → operationState → Tx (A * bool)) w x w' :
  beginOperation s p client id active body w = (x, w') →
  (∃ e, x = Err e ∧ w_db w' = w_db w) ∨
  ∃ o r rs g os w1 a c w2, found s (w_now w) active (w_db w) id o r rs g os ∧ at_same w w1 ∧
    body rs g os w1 = (Ok (a, c), w2) ∧ x = Ok a ∧ w_db w' = if c : bool then w_db w2 else w_db w.
Proof.
  unfold beginOperation. intros H. destruct x as [a|e].
  2: { left. exists e. split; [done|]. apply bind_reads in H as [H|([[run parent] client'] & w1 & _ & [E1 _] & H)]; [done| |auto with reads].
       destruct (_ || _); [injection H as _ <-; done|].
       apply (beginRun_run s) in H as [(e' & _ & E)|(w2 & a & c & w3 & _ & _ & [=] & _)]. congruence. }
  right. apply bind_reads_Ok in H as ([[run parent] client'] & w1 & H1 & S1 & H); [|auto with reads].
  branch H as B0. apply discoverOperation_Ok in H1 as (xo & r0 & Hxo & _ & -> & _).
  apply (beginRun_run s) in H as [(e' & [=] & _)|(w2 & a' & c & w3 & S2 & H & [= <-] & E)].
  assert (S : at_same w w2) by (by etrans). assert (E' : w_db w' = if c then w_db w3 else w_db w) by (rewrite E; destruct c, S1; congruence).
  clear S1 S2 E. rename E' into E.
  apply bind_reads_Ok in H as (u & w4 & _ & S4 & H); [|destruct (_ && _); auto with reads nocore]. clear u.
  assert (S' : at_same w w4) by (by etrans). clear S S4. rename S' into S.
  apply bind_reads_Ok in H as ([rs g] & w5 & H5 & S5 & H); [|auto with reads]. apply runTx_Ok in H5 as (r & Hr & _).
  apply bind_reads_Ok in H as (os & w6 & H6 & S6 & H); [|auto with reads].
  apply on_err_Ok, readOperation_Ok in H6 as (o & r' & args & Ho & Hr' & ->).
  assert (w_db w5 = w_db w ∧ w_now w5 = w_now w ∧ w_db w4 = w_db w ∧ w_now w4 = w_now w) as (E5 & T5 & E4 & T4)
    by (destruct S5 as (-> & -> & _), S as (-> & -> & _); done).
  rewrite E5 in *. rewrite E4, T4 in *. simplify_eq. destruct Hr as (Hr & Hf & Ha). simplify_eq.
  apply bind_Ok in H as (t & w7 & [-> ->]%now_Ok & H). branch H as B.
  exists xo, r, rs, g, (operation_state id xo r args), w6, a, c, w3. split_and!; [|by do 3 (etrans; [eassumption|])|done..].
  destruct S6 as (_ & T6 & _). split; [done|]. split; [by split_and!|]. split; [eauto|]. intros ->. cbn in B. unfold After in B. b2p.
  rewrite T6, T5 in B. tauto.
Qed.
End Finds.

(** *** What transactions do to the tables *)

Section Bodies.
Context `{P : Primitives} `{Y : YAML} `{JS : JSONSchema} `{U : UUIDParse} (s : Runs.Service) `{!PlatformOk s}.

Lemma event_aside p project action details : keeps aside (event s p project action details).
Proof.
  unfold event. apply keeps_bind; [apply _| |intros _].
  { unfold port. destruct (sv_audit s) eqn:E; [by apply auditor_aside|apply keeps_fail, _]. }
  apply keeps_bind; [apply _|apply keeps_uuid_New, _|intros id]. by apply keeps_EnqueueTx; [apply _|].
Qed.
Lemma receipt_aside p project run op action outcome details : keeps aside (receipt s p project run op action outcome details).
Proof.
  unfold receipt. apply keeps_bind; [apply _|apply keeps_uuid_New, _|intros id].
  apply keeps_bind; [apply _|apply keeps_get, _|intros t]. apply keeps_bind; [apply _| |intros _].
  { apply keeps_exec; [apply _|]. unfold insert_receipt. intros db db' H. case_match; [done|]. by injection H as <-. }
  apply keeps_bind; [apply _|apply event_aside|intros _; apply keeps_ret, _].
Qed.

Lemma begin_path {A} p project cap client extra (body : Tx (A * bool)) :
  commits tool_path body → keeps tool_path (begin s p project cap client extra body).
Proof.
  intros Hb w x w' [->|(w1 & a & w2 & [E _] & H & _ & ->)]%(tool_begin_run s)%outcome_commits; [reflexivity|]. rewrite <-E. by eapply Hb.
Qed.
Lemma beginControl_path {A} p project cap extra (body : Tx (A * bool)) :
  commits tool_path body → keeps tool_path (beginControl s p project cap extra body).
Proof.
  intros Hb w x w' [->|(w1 & a & w2 & [E _] & H & _ & ->)]%(beginMode_run s)%outcome_commits; [reflexivity|]. rewrite <-E. by eapply Hb.
Qed.
Lemma beginRun_path {A} p client id cap (body : Tx (A * bool)) :
  commits tool_path body → keeps tool_path (beginRun s p client id cap body).
Proof.
  intros Hb w x w' [->|(w1 & a & w2 & [E _] & H & _ & ->)]%(beginRun_run s)%outcome_commits; [reflexivity|]. rewrite <-E. by eapply Hb.
Qed.
Lemma beginOperation_path {A} p client id active (body : runState → grantState → operationState → Tx (A * bool)) :
  (∀ w o r rs g os a w', found s (w_now w) active (w_db w) id o r rs g os → body rs g os w = (Ok (a, true), w') →
     tool_path (w_db w) (w_db w')) →
  keeps tool_path (beginOperation s p client id active body).
Proof.
  intros Hb w x w' [(e & _ & ->)|(o & r & rs & g & os & w1 & a & c & w2 & F & (E & T & _) & H & _ & ->)]%(beginOperation_run s); [reflexivity|].
  destruct c; [|reflexivity]. rewrite <-E, <-T in F. rewrite <-E. by eapply Hb.
Qed.

Lemma found_current t db id o r rs g os : found s t true db id o r rs g os → current db id o r.
Proof. intros (Ho & (Hr & _ & Ha) & _ & Hc). destruct (Ha eq_refl) as [? _], (Hc eq_refl) as [? _]. by split_and!. Qed.
End Bodies.

(** A successful step that leaves the platform's tables alone. *)
Ltac step_hook ::=
  match goal with
  | H : lift _ _ = (Ok _, _) |- _ => apply lift_Ok in H as [? ?]
  | H : receipt _ _ _ _ _ _ _ _ _ = (Ok _, _) |- _ => eapply receipt_aside in H; [|eassumption]
  | H : event _ _ _ _ _ _ = (Ok _, _) |- _ => eapply event_aside in H; [|eassumption]
  | H : _ = (Ok _, _) |- _ => progress cbv beta zeta in H
  end.

Section Cancel.
Context `{P : Primitives} `{JS : JSONSchema}.

Lemma cancelRunTx_path id st : st ∈ ["cancelled"; "revoked"] → ok_keeps tool_path (cancelRunTx id st).
Proof.
  intros Hst w u w' H. unfold cancelRunTx in H. steps. cbn. eapply path_step; [|reflexivity]. by apply step_cancel_run.
Qed.
Lemma cancelRuns_path ids st : st ∈ ["cancelled"; "revoked"] → ok_keeps tool_path (for_each ids (λ id, cancelRunTx id st)).
Proof. intros Hst. apply ok_keeps_for_each; [apply _|]. intros id. by apply cancelRunTx_path. Qed.
Lemma exec__path f : (∀ db, tool_step db (f db)) → keeps tool_path (exec_ f).
Proof. intros Hf. apply keeps_exec_; [apply _|]. intros db. by eapply path_step; [|reflexivity]. Qed.
Lemma reads_path {A} (m : Tx A) : reads m → ok_keeps tool_path m.
Proof. intros Hm. by apply ok_keeps_keeps, path_reads. Qed.
Lemma cancelProjectRunsTx_path project : ok_keeps tool_path (cancelProjectRunsTx project).
Proof.
  unfold cancelProjectRunsTx. apply ok_keeps_bind; [apply _|by auto using reads_path, reads_query|intros ids].
  apply ok_keeps_bind; [apply _| |intros _; apply cancelRuns_path; set_solver].
  apply reads_path, reads_for_each. auto with reads.
Qed.
Lemma ArchiveProjectTx_path project : ok_keeps tool_path (ArchiveProjectTx project).
Proof.
  unfold ArchiveProjectTx. apply ok_keeps_bind; [apply _|by apply reads_path, reads_get|intros t].
  do 7 (apply ok_keeps_bind; [apply _|apply ok_keeps_keeps, exec__path; intros db; by econstructor|intros _]).
  apply cancelProjectRunsTx_path.
Qed.
Lemma OffboardTx_path org target : ok_keeps tool_path (OffboardTx org target).
Proof.
  unfold OffboardTx. apply ok_keeps_bind; [apply _|by apply reads_path, reads_query|intros ids].
  apply ok_keeps_bind; [apply _|by apply reads_path, reads_get|intros t].
  do 3 (apply ok_keeps_bind; [apply _|apply ok_keeps_keeps, exec__path; intros db; by econstructor|intros _]).
  apply ok_keeps_bind; [apply _|apply cancelRuns_path; set_solver|intros _]. apply reads_path, reads_ret.
Qed.
Lemma revokeAffectedRunsTx_path project id kind : ok_keeps tool_path (revokeAffectedRunsTx project id kind).
Proof.
  unfold revokeAffectedRunsTx. destruct (negb _); [apply ok_keeps_fail|].
  apply ok_keeps_bind; [apply _|by apply reads_path, reads_get|intros t].
  apply ok_keeps_bind; [apply _|apply ok_keeps_keeps, exec__path; intros db; by econstructor|intros _].
  apply ok_keeps_bind; [apply _|by apply reads_path, reads_query|intros ids].
  apply ok_keeps_bind; [apply _|apply reads_path, reads_for_each; auto with reads|intros _].
  apply cancelRuns_path. set_solver.
Qed.
End Cancel.

(** *** The broker *)

(** What the broker does to the database is what the callback does, and what
    happens while a request waits. *)
Section Broker.
Context `{P : Primitives} `{R0 : Remote} `{E : Elsewhere} (R : DB → DB → Prop) `{!PreOrder R} (s : Broker.Service).
Context (wait_keeps : ∀ n db, R db (meanwhile n db)) (deadline : time) (f : string → Tx unit) (admits : ∀ stage, keeps R (f stage)).

Lemma keeps_admit stage : keeps R (admit_stage deadline (Some f) stage).
Proof. unfold admit_stage. apply keeps_bind; [done|apply keeps_get, _|intros t]. destruct (_ <=? _)%Z; [apply keeps_fail, _|done]. Qed.
Lemma keeps_read method path token body max : keeps R (read s deadline (Some f) method path token body max).
Proof.
  unfold read. apply keeps_bind; [done|apply keeps_admit|intros _]. destruct (negb _); [apply keeps_fail, _|].
  apply keeps_bind; [done| |intros [r|]; keeps_tac].
  intros w x w'. unfold client_Do. destruct (http_Do _ _) as [e a]. case_match; intros [= _ <-]; apply wait_keeps.
Qed.
Lemma keeps_provided {A} (o : option A) : keeps R (provided o).
Proof. destruct o; [apply keeps_ret, _|apply keeps_fail, _]. Qed.
#[local] Hint Resolve keeps_admit keeps_read keeps_provided : keeps.
Lemma keeps_token c repo : keeps R (token s deadline (Some f) c repo).
Proof. unfold token. keeps_tac. Qed.
#[local] Hint Resolve keeps_token : keeps.
Lemma keeps_ResolveAuthorized c t : keeps R (ResolveAuthorized s deadline (Some f) c t).
Proof. unfold ResolveAuthorized. keeps_tac. Qed.
Lemma keeps_ExecuteAuthorized c t kind path max : keeps R (ExecuteAuthorized s deadline (Some f) c t kind path max).
Proof. unfold ExecuteAuthorized, tree, read_file. keeps_tac. Qed.
End Broker.

Section Operations.
Context `{P : Primitives} `{Y : YAML} `{JS : JSONSchema} `{U : UUIDParse} `{R : Remote} `{E : Elsewhere} (s : Runs.Service) `{!PlatformOk s}.

Lemma path_then db db1 db' : tool_step db db1 → aside db1 db' → tool_path db db'.
Proof. apply path_step. Qed.

Lemma Request_path p client run key kind args : keeps tool_path (Request s p client run key kind args).
Proof.
  unfold Request. destruct (negb _); [apply keeps_fail, _|]. destruct (_ || _); [apply keeps_fail, _|].
  apply (beginRun_path s). intros w a w' H.
  apply bind_reads_Ok in H as ([r g] & w1 & H1 & [E1 _] & H); [|auto with reads]. apply (runTx_Ok s) in H1 as (rr & (Hr & _ & Ha) & _).
  destruct (Ha eq_refl) as [Hs _]. clear Ha. rewrite <-E1 in *. clear E1.
  apply bind_reads_Ok in H as (found & w2 & _ & [E2 _] & H); [|auto with reads]. rewrite <-E2 in *. clear E2.
  destruct found as [[id stored]|].
  { branch H as B. apply bind_Ok in H as (o & w3 & _ & H). by apply ret_Ok in H as [[= _ ?] _]. }
  branch H as B. clear B. apply bind_reads_Ok in H as (id & w3 & _ & [E3 _] & H); [|auto with reads]. rewrite <-E3 in *. clear E3.
  apply bind_Ok in H as (t & w4 & [-> ->]%now_Ok & H).
  apply bind_Ok in H as (u & w4 & H4 & H). apply on_err_Ok, exec_Ok in H4 as (db & Hi & ->). unfold insert_operation in Hi.
  destruct (_ || _) eqn:G; [done|]. injection Hi as <-. b2p. destruct G as [[[[[[G1 _] _] _] _] _] G2].
  steps. eapply path_step; [|done]. eapply step_request; [by apply eq_None_not_Some|by split|done|].
  intros i o' Hi Hk. apply G2. by exists i, o'.
Qed.
Lemma wait_path `{!ElsewhereOk} d w : tool_path (w_db w) (w_db (wait d w)).
Proof. apply meanwhile_path. Qed.
Lemma look_path p client id : keeps tool_path (look s p client id).
Proof. apply (beginOperation_path s). intros w o r rs g os a w' _ H. by steps. Qed.
Lemma poll_path `{!ElsewhereOk} fuel p client id d deadline : keeps tool_path (poll s fuel p client id d deadline).
Proof.
  induction fuel as [|fuel IH]; [apply keeps_ret, _|]. apply keeps_bind; [apply _|apply look_path|intros o].
  apply keeps_bind; [apply _|apply keeps_get, _|intros t]. destruct (_ || _); [apply keeps_ret, _|].
  apply keeps_bind; [apply _| |done]. intros w u w' [= _ <-]. apply wait_path.
Qed.
Lemma Status_path `{!ElsewhereOk} p client id d : keeps tool_path (Status s p client id d).
Proof.
  unfold Status. destruct (_ || _); [apply keeps_fail, _|]. apply keeps_bind; [apply _|apply keeps_get, _|intros t]. apply poll_path.
Qed.
Lemma Result_path p client id : keeps tool_path (Result s p client id).
Proof.
  apply (beginOperation_path s). intros w o r rs g os a w' _ H. branch H as B. steps. branch H as B2. steps. by apply path_aside.
Qed.
Lemma CancelOperation_path p client id : keeps tool_path (CancelOperation s p client id).
Proof.
  apply (beginOperation_path s). intros w o r rs g os a w' (Ho & _ & (args & ->) & _) H. steps.
  eapply path_step; [|done]. by apply step_cancel_operation.
Qed.
Lemma CancelRun_path p client id : keeps tool_path (CancelRun s p client id).
Proof.
  apply (beginRun_path s). apply commits_reads; [apply _|auto with reads|intros rg].
  intros w a w' H. apply bind_Ok in H as (u & w1 & H1 & H). apply cancelRunTx_path in H1; [|set_solver]. steps.
  etrans; [done|]. by apply path_aside.
Qed.
Lemma RetryOperation_path p client id : keeps tool_path (RetryOperation s p client id).
Proof.
  apply (beginOperation_path s). intros w o r rs g os a w' F H. pose proof (found_current _ _ _ _ _ _ _ _ _ F) as C.
  destruct F as (Ho & _ & (args & ->) & _). branch H as B. steps. branch H as B2. steps.
  cbn in B, B2. b2p. destruct B. eapply path_step; [|done]. by eapply step_retry.
Qed.

Lemma in_force_manifest t grant user client db j m : in_force s t grant user client db j m → grant_manifest grant db = Some m.
Proof.
  intros (Hc & _ & Hm & _). unfold grant_manifest. unfold grant_chain in Hc.
  destruct (grants db !! grant) as [g|]; [|done]. cbn in Hc |- *. destruct (profiles db !! tg_profile_id g) as [p|]; [|done]. cbn in Hc |- *.
  repeat (apply bind_Some in Hc as (? & _ & Hc)).
  match type of Hc with (if ?b then _ else _) = _ => destruct b end; [|done]. injection Hc as <-. cbn in Hm. unfold stored_manifest in Hm.
  destruct (decode _ _ _) as [m'|]; [|done]. cbn in Hm |- *. unfold Canonical in Hm. destruct (manifest_ok m'); [|done].
  by destruct (_ && _); [injection Hm as ->|].
Qed.
Lemma found_manifest t db id r rs g : found_run s t true db id r rs g → grant_manifest (rn_grant_id r) db = Some (gs_Manifest g).
Proof. intros (_ & _ & Ha). destruct (Ha eq_refl) as (_ & _ & _ & j & m & tg & Hf & ->). by apply in_force_manifest in Hf. Qed.

Lemma finishAttemptTx_Ok p r o status outcome w u w' :
  finishAttemptTx s p r o status outcome w = (Ok u, w') →
  ∃ t, aside (finish_attempt (o_ID (os_Op o)) (os_Fence o) status outcome t
    (update_operation (o_ID (os_Op o)) (λ x, set_operation status outcome (xo_cancel_requested x) t x) (w_db w))) (w_db w').
Proof. intros H. unfold finishAttemptTx in H. steps. exists (w_now w). exact H3. Qed.

Lemma insert_ticket_Some id k db db' :
  insert_ticket id k db = Some db' →
  tickets db !! id = None ∧ (∀ i k', tickets db !! i = Some k' → tt_token_hash k' ≠ tt_token_hash k) ∧
  db' = on_tools (upd_t_tool_tickets <[id := k]>) db.
Proof.
  unfold insert_ticket. intros H. destruct (_ || _) eqn:G; [done|]. injection H as <-. b2p. destruct G as [[[G _] _] Un].
  split_and!; [by apply eq_None_not_Some| |done]. intros i k' Hi Ek. apply Un. by exists i, k'.
Qed.
Lemma insert_attempt_Some op fence a db db' :
  insert_attempt op fence a db = Some db' →
  attempts db !! (op, fence) = None ∧ db' = on_tools (upd_t_tool_attempts <[(op, fence) := a]>) db.
Proof.
  unfold insert_attempt. intros H. destruct (_ || _) eqn:G; [done|]. injection H as <-. b2p. destruct G as [[[G _] _] _].
  split; [by apply eq_None_not_Some|done].
Qed.
(** A new lease, after the lease that ran out was closed. *)
Lemma lease_path p r rs g o os workload image w tk w' db id t :
  found s t true db id o r rs g os → xo_status o ∈ ["queued"; "leased"] →
  w_db w = (if bool_decide (xo_status o = "leased") then expire_attempt id (xo_fence o) t db else db) →
  (∃ st, lease s p rs g (set_status st os) workload image w = (Ok tk, w')) → tool_path db (w_db w').
Proof.
  intros F Hst Hw [st H]. pose proof (found_current _ _ _ _ _ _ _ _ _ F) as C. destruct F as (Ho & _ & (args & ->) & _). unfold lease in H.
  apply bind_reads_Ok in H as (token & w1 & _ & [E1 _] & H); [|auto with reads].
  apply bind_reads_Ok in H as (nonce & w2 & _ & [E2 _] & H); [|auto with reads].
  apply bind_Ok in H as (t' & w3 & [-> ->]%now_Ok & H).
  apply bind_reads_Ok in H as (ticket & w3 & _ & [E3 _] & H); [|auto with reads].
  assert (E4 : w_db w3 = w_db w) by congruence. clear E1 E2 E3. cbv zeta in H. set (until := earliest _) in H. clearbody until.
  apply bind_Ok in H as (u1 & w4 & ->%exec__Ok & H).
  apply bind_Ok in H as (u2 & w4 & (db4 & (N4 & U4 & ->)%insert_ticket_Some & ->)%exec_Ok & H).
  apply bind_Ok in H as (u3 & w4 & (db5 & (N5 & ->)%insert_attempt_Some & ->)%exec_Ok & H). steps.
  assert (ET : tickets (w_db w3) = tickets db) by (rewrite E4, Hw; by case_match).
  assert (EA : attempts (w_db w3) !! (id, (xo_fence o + 1)%Z) = attempts db !! (id, (xo_fence o + 1)%Z)).
  { rewrite E4, Hw. case_match; [|done]. apply lookup_alter_ne. intros [=]. lia. }
  change (tickets (w_db w3) !! ticket = None) in N4. change (attempts (w_db w3) !! (id, (xo_fence o + 1)%Z) = None) in N5.
  change (∀ i k', tickets (w_db w3) !! i = Some k' → tt_token_hash k' ≠ hash token) in U4. rewrite ET in *. rewrite EA in N5.
  rewrite E4, Hw in H0. eapply path_step; [|exact H0]. by eapply step_lease.
Qed.
Lemma claim_body_path certificate image workload id p w o r rs g os a w' :
  found s (w_now w) true (w_db w) id o r rs g os → claim_body s certificate image workload id p rs g os w = (Ok (a, true), w') →
  tool_path (w_db w) (w_db w').
Proof.
  intros F H. unfold claim_body in H. branch H as B1. apply bind_Ok in H as (stored & w1 & [_ ->]%on_err_Ok%query_row_Ok & H).
  branch H as B2. apply bind_Ok in H as (t & w1 & [-> ->]%now_Ok & H). clear B1 B2.
  pose proof F as (Ho & _ & (args & ->) & _). branch H as B3.
  { b2p. destruct B3 as [B3 _]. apply bind_Ok in H as (u & w1 & (t & H1)%finishAttemptTx_Ok & H). steps. eapply path_step; [|exact H1]. by eapply step_uncertain. }
  clear B3. apply bind_Ok in H as (os & w1 & H1 & H). branch H as B4.
  apply bind_Ok in H as (n & w2 & [_ ->]%query_Ok & H). branch H as B5. clear B5.
  apply bind_Ok in H as (tk & w2 & H2 & H). apply ret_Ok in H as [_ <-]. b2p. branch H1 as B6; b2p.
  - destruct B6 as [B6 _]. steps. eapply lease_path; [exact F|cbn in B6; rewrite B6; set_solver| |by eexists].
    cbn in B6 |- *. by rewrite B6.
  - apply ret_Ok in H1 as [<- <-]. eapply lease_path; [exact F|cbn in B4; rewrite B4; set_solver| |exists (xo_status o); exact H2].
    cbn in B4. by rewrite B4.
Qed.
Lemma claimOne_path certificate image workload id : keeps tool_path (claimOne s certificate image workload id).
Proof.
  unfold claimOne. apply keeps_bind; [apply _|by apply path_reads, reads_discoverOperation|intros [[run p] client]].
  apply keeps_bind; [apply _| |intros x; apply keeps_lift, _]. apply (beginOperation_path s). apply claim_body_path.
Qed.
Lemma claim_first_path certificate image workload ids : keeps tool_path (claim_first s certificate image workload ids).
Proof.
  induction ids as [|id ids IH]; [apply keeps_fail, _|]. cbn. apply keeps_bind; [apply _|apply keeps_attempt, claimOne_path|intros [t|e]].
  - apply keeps_ret, _.
  - destruct (errors_Is _ _); [apply keeps_fail, _|done].
Qed.
Lemma Claim_path certificate image : keeps tool_path (Claim s certificate image).
Proof.
  unfold Claim. destruct (_ || _); [apply keeps_fail, _|]. destruct (_ || _); [apply keeps_fail, _|].
  do 2 (apply keeps_bind; [apply _|by apply path_reads; auto with reads|intros ?]). apply claim_first_path.
Qed.

Lemma ticketTx_Ok certificate ticket token r g o req w u w' :
  ticketTx certificate ticket token r g o req w = (Ok u, w') →
  ∃ k wl, ticket_workload ticket (w_db w) = Some (k, wl) ∧ tt_operation_id k = o_ID (os_Op o) ∧ tt_token_hash k = hash token ∧
    tw_certificate_sha256 wl = certificate ∧ tt_workload_id k = g_WorkloadID (gs_Grant g) ∧ tt_image_digest k = gs_Image g ∧
    tt_fence k = os_Fence o ∧ (w_now w < tt_expires_at k)%Z ∧
    match req with
    | Some q => tt_consumed_at k = None ∧ q = expected_request k r g o ∧ o_Status (os_Op o) = "leased" ∧
        w_db w' = on_tools (upd_t_tool_tickets (alter (consume_ticket (w_now w)) ticket)) (w_db w)
    | None => w_db w' = w_db w
    end.
Proof.
  unfold ticketTx. intros H. apply bind_Ok in H as (t & w1 & [-> ->]%now_Ok & H).
  apply bind_Ok in H as ([k wl] & w1 & [Hk ->]%on_err_Ok%query_row_Ok & H). apply bind_Ok in H as (u1 & w1 & ->%note_lock_Ok & H).
  branch H as B. apply bind_Some in Hk as (kw & Ek & Hk). passed Hk as Eo. subst kw.
  unfold After in B. b2p. destruct B as [[[[[[B1 B2] B3] B4] B5] B6] B7]. exists k, wl. split_and!; try done.
  destruct req as [q|]; [|by apply check_Ok in H as [_ <-]]. branch H as B8. steps. b2p. destruct B8 as [[-> _] B8]. split_and!; try done.
  destruct B7 as [B7|B7]; [by destruct B7|by apply eq_None_not_Some].
Qed.
Lemma ticket_workload_row i db k wl : ticket_workload i db = Some (k, wl) → tickets db !! i = Some k.
Proof.
  unfold ticket_workload. intros (k' & -> & (wl' & _ & H)%bind_Some)%bind_Some. case_match; [|done]. by injection H as -> _.
Qed.
Lemma dispatch_body_path certificate req id p w o r rs g os a w' :
  found s (w_now w) true (w_db w) id o r rs g os → dispatch_body s certificate req id p rs g os w = (Ok (a, true), w') →
  tool_path (w_db w) (w_db w').
Proof.
  intros F H. unfold dispatch_body in H. pose proof F as (Ho & _ & (args & ->) & _).
  apply bind_Ok in H as (u & w1 & (k & wl & Hk%ticket_workload_row & Eo & _ & _ & _ & _ & Ef & _ & Ec & _ & Es & E1)%ticketTx_Ok & H).
  apply bind_Ok in H as (t & w2 & [-> ->]%now_Ok & H). apply bind_Ok in H as (u2 & w2 & ->%exec__Ok & H).
  apply bind_Ok in H as (u3 & w3 & ->%exec__Ok & H). steps. rewrite E1 in H0. eapply path_step; [|exact H0].
  eapply step_dispatch; try done. by eapply found_current.
Qed.
Lemma operationAdmission_path p client id fence stage : keeps tool_path (operationAdmission s p client id fence stage).
Proof.
  apply (beginOperation_path s). intros w o r rs g os a w' F H. pose proof F as (Ho & (Hr & (tg & c & _ & ->) & Ha) & _).
  apply bind_Ok in H as (t & w1 & [-> ->]%now_Ok & H). branch H as B. clear B.
  apply bind_Ok in H as (u & w1 & H1 & H). steps. etrans; [|by apply path_aside]. clear H0.
  branch H1 as B; [|by apply ret_Ok in H1 as [_ <-]]. branch H1 as B2. apply exec_Ok in H1 as (db & Hb & ->). cbn [w_db upd_w_db const].
  unfold bump_run in Hb. cbn in Hb, B2. b2p. change (runs (w_db w) !! xo_run_id o = Some r) in Hr. rewrite Hr in Hb.
  case_match; [|done]. injection Hb as <-. eapply path_step; [|done]. destruct F as (_ & F & _).
  eapply step_charge; [done| |by eapply found_manifest|done]. destruct F as (_ & _ & F). destruct (F eq_refl) as [-> _]. set_solver.
Qed.
Lemma add_bytes_Some id n db db' r :
  add_bytes id n db = Some db' → runs db !! id = Some r →
  db' = on_tools (upd_t_tool_runs <[id := set_run_counts (rn_provider_operations r) (rn_result_bytes r + n) r]>) db.
Proof. unfold add_bytes. intros H Hr. rewrite Hr in H. case_match; [|done]. by injection H as <-. Qed.
Lemma finishOperation_path p client id fence status outcome b :
  (status, outcome) ∈ [("succeeded", "succeeded"); ("uncertain", "provider_uncertain"); ("failed", "provider_failed")] →
  keeps tool_path (finishOperation s p client id fence status outcome b).
Proof.
  intros Hso. apply (beginOperation_path s). intros w o r rs g os a w' F H. pose proof F as (Ho & Fr & (args & ->) & _).
  pose proof (found_current _ _ _ _ _ _ _ _ _ F) as C. pose proof (found_manifest _ _ _ _ _ _ Fr) as Hm.
  destruct Fr as (Hr & (tg & c & _ & ->) & _).
  apply bind_Ok in H as (t & w1 & [-> ->]%now_Ok & H). branch H as B. unfold at_provider in B. b2p. destruct B as [[Bs Bf] _]. cbn in Bs, Bf.
  apply bind_Ok in H as (u & w1 & H1 & H). apply bind_Ok in H as (u2 & w2 & (t2 & H2)%finishAttemptTx_Ok & H).
  apply bind_Ok in H as (rc & w3 & [_ ->]%query_row_Ok & H). apply ret_Ok in H as [_ <-]. change (w_db (ticked w2)) with (w_db w2).
  branch H1 as B.
  - assert (outcome = "succeeded") as -> by set_solver. assert (status = "succeeded") as -> by by b2p. clear B Hso. unfold store_result in H1.
    branch H1 as B. b2p. destruct B as [[_ _] B]. cbn in B.
    apply bind_Ok in H1 as (cn & w3 & Hcn & H1). assert (w_db w3 = w_db w) as E3 by (by eapply (reads_run _ _ _ _ (reads_Seal _ _))). clear Hcn.
    apply bind_Ok in H1 as (u3 & w4 & (db4 & I4 & ->)%exec_Ok & H1). apply exec_Ok in H1 as (db5 & I5 & ->).
    unfold insert_spool in I4. destruct (_ || _) eqn:G; [done|]. injection I4 as <-. b2p. destruct G as [G _]. rewrite E3 in *.
    eapply (add_bytes_Some _ _ _ _ r) in I5; [|exact Hr]. subst db5. eapply path_step; [|exact H2].
    eapply step_succeed; [done|done|by apply eq_None_not_Some|exact Hm|lia|exact B].
  - apply ret_Ok in H1 as [_ <-]. b2p. eapply path_step; [|exact H2]. eapply step_finish; [done|done| |].
    + destruct_or? Hso; set_solver.
    + set_solver.
Qed.
Lemma Execute_path `{!ElsewhereOk} certificate req : keeps tool_path (Execute s certificate req).
Proof.
  unfold Execute. destruct (_ || _); [apply keeps_fail, _|]. destruct (negb _); [apply keeps_fail, _|].
  apply keeps_bind; [apply _| |intros id].
  { apply path_reads, reads_on_err. unfold ticketOperation. reads_tac. }
  destruct (negb _); [apply keeps_fail, _|].
  apply keeps_bind; [apply _|by apply path_reads, reads_discoverOperation|intros [[run p] client]].
  apply keeps_bind; [apply _|apply (beginOperation_path s); apply dispatch_body_path|intros [[r g] o]].
  apply keeps_bind; [apply _| |intros [b|e]].
  - apply keeps_attempt, (keeps_ExecuteAuthorized tool_path); [apply meanwhile_path|]. intros stage. apply operationAdmission_path.
  - apply keeps_bind; [apply _|apply finishOperation_path; set_solver|intros rc; apply keeps_ret, _].
  - destruct (errors_Is _ _); (apply keeps_bind; [apply _|apply keeps_attempt, finishOperation_path; set_solver|intros ?; apply keeps_fail, _]).
Qed.
End Operations.

(** Follows the structure of an operation, down to its writes. *)
Ltac path_tac s :=
  repeat first
    [ match goal with
      | |- keeps _ (if ?b then _ else _) => destruct b
      | |- keeps _ (match ?x with _ => _ end) => destruct x
      | |- keeps _ (let _ := _ in _) => cbv zeta
      | |- keeps _ (begin _ _ _ _ _ _ _) => apply (begin_path s), commits_keeps
      | |- keeps _ (beginRun _ _ _ _ _ _) => apply (beginRun_path s), commits_keeps
      | |- keeps _ (exec_ _) => apply exec__path
      | |- keeps _ (exec _) => apply keeps_exec; [apply _|]
      | |- keeps _ (exec_n _) => apply keeps_exec_n; [apply _|]
      | |- keeps _ (mbind _ _) => apply keeps_bind; [apply _| |intros ?]
      end
    | solve [apply path_reads; auto with reads nocore]
    | apply keeps_ret, _ | apply keeps_fail, _ | apply keeps_get, _
    | apply path_keeps, (event_aside s) | apply path_keeps, (receipt_aside s)
    | apply keeps_on_err | apply keeps_attempt | apply keeps_for_fold; [apply _|intros ? ?] ].

Section Manage.
Context `{P : Primitives} `{Y : YAML} `{JS : JSONSchema} `{U : UUIDParse} `{R : Remote} `{E : Elsewhere} (s : Runs.Service) `{!PlatformOk s}.

Lemma inserted `{Countable K} {V} (t : gmap K V) k : bool_decide (is_Some (t !! k)) = false → t !! k = None.
Proof. intros G. b2p. by apply eq_None_not_Some. Qed.

Lemma CreateArtifact_path p project name source : keeps tool_path (CreateArtifact s p project name source).
Proof.
  unfold CreateArtifact. path_tac s. intros db db'. unfold insert_artifact. destruct (_ || _) eqn:G; [done|]. intros [= <-].
  rewrite !orb_false_iff in G. destruct G as [[[G _] _] _]. eapply path_step; [|done]. by apply step_artifact, inserted.
Qed.
Lemma CreateProfile_path p project artifact : keeps tool_path (CreateProfile s p project artifact).
Proof.
  unfold CreateProfile. path_tac s. intros db db' (j & _ & H)%bind_Some. revert H. unfold insert_profile.
  destruct (_ || _) eqn:G; [done|]. intros [= <-].
  rewrite !orb_false_iff in G. destruct G as [[[G _] _] _]. eapply path_step; [|done]. by apply step_profile; [apply inserted|].
Qed.
Lemma ApproveProfile_path p project id digest : keeps tool_path (ApproveProfile s p project id digest).
Proof.
  unfold ApproveProfile. path_tac s. intros db db' n. unfold approve_profile. destruct (profiles db !! id) as [x|] eqn:Ex; [|intros [= <- _]; reflexivity].
  destruct (negb _) eqn:B; [intros [= <- _]; reflexivity|]. destruct (bool_decide (ap_approved_by _ = _)) eqn:C; [done|]. intros [= <- _]. b2p.
  eapply path_step; [|done]. by apply step_approve_profile.
Qed.
Lemma Package_path p project profile client version : keeps tool_path (Package_ s p project profile client version).
Proof.
  unfold Package_. path_tac s. intros db db' (j & _ & (c & _ & H)%bind_Some)%bind_Some. revert H. unfold insert_package.
  destruct (_ || _) eqn:G; [done|]. intros [= <-].
  rewrite !orb_false_iff in G. destruct G as [[[[[[G _] _] _] _] _] _]. eapply path_step; [|done]. by apply step_package; [apply inserted|].
Qed.
Lemma ApprovePackage_path p project id digest : keeps tool_path (ApprovePackage s p project id digest).
Proof.
  unfold ApprovePackage. path_tac s. intros db db' n. unfold approve_package. destruct (packages db !! id) as [x|] eqn:Ex; [|intros [= <- _]; reflexivity].
  destruct (negb _) eqn:B; [intros [= <- _]; reflexivity|]. destruct (bool_decide (ap_approved_by _ = _)) eqn:C; [done|]. intros [= <- _]. b2p.
  eapply path_step; [|done]. by apply step_approve_package.
Qed.
Lemma CreateConnection_path p project app inst key : keeps tool_path (CreateConnection s p project app inst key).
Proof.
  unfold CreateConnection. path_tac s. intros db db'. unfold insert_connection. destruct (_ || _) eqn:G; [done|]. intros [= <-].
  rewrite !orb_false_iff in G. destruct G as [[[[G _] _] _] _]. eapply path_step; [|done]. by apply step_connection, inserted.
Qed.
Lemma CreateBindingInEnvironment_path p project conn environment t :
  keeps tool_path (CreateBindingInEnvironment s p project conn environment t).
Proof.
  unfold CreateBindingInEnvironment, connection. path_tac s. intros db db'. unfold insert_binding. destruct (_ || _) eqn:G; [done|]. intros [= <-].
  rewrite !orb_false_iff in G. destruct G as [[[[G _] _] _] _]. eapply path_step; [|done]. by apply step_binding, inserted.
Qed.
Lemma EnrollWorkload_path p project fingerprint image : keeps tool_path (EnrollWorkload s p project fingerprint image).
Proof.
  unfold EnrollWorkload. path_tac s. intros db db'. unfold insert_workload. destruct (_ || _) eqn:G; [done|]. intros [= <-].
  rewrite !orb_false_iff in G. destruct G as [[[G _] _] _]. eapply path_step; [|done]. by apply step_workload, inserted.
Qed.
Lemma revoke_one_path kind id project t db db' n : revoke_one kind id project t db = Some (db', n) → tool_path db db'.
Proof.
  unfold revoke_one. cbv zeta. repeat (case_bool_decide; [intros [= <- _]; eapply path_step; [|done]; by econstructor|]). done.
Qed.
Lemma Revoke_path p project id kind : keeps tool_path (Revoke s p project id kind).
Proof.
  unfold Revoke. destruct (negb _); [apply keeps_fail, _|]. apply (beginControl_path s). intros w a w' H.
  apply bind_Ok in H as (t & w1 & [-> ->]%now_Ok & H). apply bind_Ok in H as (n & w1 & (db & Hr%revoke_one_path & ->)%exec_n_Ok & H).
  branch H as B. apply bind_Ok in H as (u & w2 & H2%revokeAffectedRunsTx_path & H). steps.
  etrans; [exact Hr|]. etrans; [exact H2|]. by apply path_aside.
Qed.
Lemma RevokePackage_path p project id : keeps tool_path (RevokePackage s p project id).
Proof.
  unfold RevokePackage. apply (beginControl_path s). intros w a w' H.
  apply bind_Ok in H as (t & w1 & [-> ->]%now_Ok & H). cbv zeta in H. apply bind_Ok in H as (n & w1 & (db & [= <- _] & ->)%exec_n_Ok & H).
  branch H as B. apply bind_Ok in H as (u & w2 & H2%revokeAffectedRunsTx_path & H). steps.
  etrans; [eapply path_step; [by eapply step_revoke_packages|reflexivity]|]. etrans; [exact H2|]. by apply path_aside.
Qed.

(** *** Diagnostics *)

Lemma checkAdmission_path p project id conn binding stage : keeps tool_path (checkAdmission s p project id conn binding stage).
Proof. unfold checkAdmission. path_tac s. intros db. by apply step_checks. Qed.
Lemma admit_check_path p project conn binding : keeps tool_path (admit_check s p project conn binding).
Proof.
  unfold admit_check. path_tac s. intros db db'. unfold insert_check. destruct (_ || _) eqn:G; [done|]. intros [= <-].
  eapply path_step; [|done]. by apply step_checks.
Qed.
Lemma CheckConnection_path `{!ElsewhereOk} p project conn binding external mint :
  keeps tool_path (CheckConnection s p project conn binding external mint).
Proof.
  unfold CheckConnection. destruct (_ || _); [apply keeps_fail, _|].
  apply keeps_bind; [apply _|apply admit_check_path|intros [[[id deadline] c] target]].
  apply keeps_bind; [apply _| |intros resolved].
  - apply keeps_attempt, (keeps_ResolveAuthorized tool_path); [apply meanwhile_path|]. intros stage. apply checkAdmission_path.
  - cbv zeta. path_tac s. intros db db' n [= <- _]. eapply path_step; [|done]. by apply step_checks.
Qed.

(** *** Inspection *)

Lemma inspect_path {A} p project (f : time → DB → A) : keeps tool_path (inspect s p project f).
Proof. unfold inspect. path_tac s. Qed.
Lemma ListProfiles_path p project : keeps tool_path (ListProfiles s p project).
Proof. unfold ListProfiles. path_tac s. Qed.
Lemma GetPackage_path p project id : keeps tool_path (GetPackage s p project id).
Proof. unfold GetPackage. path_tac s. Qed.
Lemma Receipts_path p client id : keeps tool_path (Receipts s p client id).
Proof. unfold Receipts. path_tac s. Qed.
Lemma Catalog_path p project : keeps tool_path (Catalog s p project).
Proof. unfold Catalog. path_tac s. Qed.
Lemma ListRuns_path p project client : keeps tool_path (ListRuns s p project client).
Proof. unfold ListRuns. path_tac s. Qed.
Lemma GetRun_path p client id : keeps tool_path (GetRun s p client id).
Proof. unfold GetRun. path_tac s. Qed.
Lemma AvailableRuns_path p client : keeps tool_path (AvailableRuns s p client).
Proof. unfold AvailableRuns. path_tac s. Qed.

(** *** Grants and runs *)

Lemma in_project_row {V} (t : gmap uuid V) f project id : negb (in_project t f project id) = false → is_Some (t !! id).
Proof. unfold in_project, row_is. intros H. destruct (t !! id); [eauto|done]. Qed.
Lemma IssueGrant_path p g : keeps tool_path (IssueGrant s p g).
Proof.
  unfold IssueGrant. path_tac s. intros db db'. unfold insert_grant. destruct (_ || _) eqn:G; [done|]. intros [= <-].
  rewrite !orb_false_iff in G. destruct G as [[[[[[[[G _] G1] G2] _] _] _] _] _]. eapply path_step; [|done].
  apply step_grant; [by apply inserted|by eapply in_project_row|]. by b2p.
Qed.

Lemma insert_run_path id r db db' m :
  insert_run id r db = Some db' → rn_state r = "preparing" → rn_provider_operations r = 0%Z → rn_result_bytes r = 0%Z →
  grant_manifest (rn_grant_id r) db = Some m → tool_path db db'.
Proof.
  unfold insert_run. intros H Hs Ho Hb Hm. destruct (_ || _) eqn:G; [done|]. injection H as <-.
  rewrite !orb_false_iff in G. destruct G as [[[[[[[[[G _] _] _] _] _] _] _] _] Gx].
  eapply path_step; [|done]. eapply step_prepare; try done; [by apply inserted|].
  intros i r' Hi Hq. b2p. apply Gx. by exists i, r'.
Qed.
Lemma insert_resolution_path id a db db' : insert_resolution id a db = Some db' → tool_path db db'.
Proof. unfold insert_resolution. destruct (_ || _); [done|]. intros [= <-]. eapply path_step; [|done]. by apply step_resolutions. Qed.
Lemma prepare_body_path p client project i : commits tool_path (prepare_body s p client project i).
Proof.
  intros w a w' H. unfold prepare_body in H.
  apply bind_reads_Ok in H as (p' & w1 & _ & [E1 _] & H); [|auto with reads].
  apply bind_reads_Ok in H as (g & w2 & H2 & [E2 _] & H); [|auto with reads].
  apply grantTx_Ok in H2 as (j & m & Hf%in_force_manifest & ->). cbv zeta in H. branch H as B1. clear B1.
  apply bind_reads_Ok in H as (found & w3 & _ & [E3 _] & H); [|auto with reads].
  destruct found as [[existing old]|]; [branch H as B2; by apply ret_Ok in H as [[= _ ?] _]|].
  apply bind_reads_Ok in H as (se & w4 & _ & [E4 _] & H); [|auto with reads].
  apply bind_Ok in H as (t & w5 & [-> ->]%now_Ok & H).
  apply bind_reads_Ok in H as (id & w6 & _ & [E6 _] & H); [|auto with reads].
  apply bind_Ok in H as (u & w7 & (db7 & I7 & ->)%on_err_Ok%exec_Ok & H).
  apply bind_reads_Ok in H as (at_ & w8 & _ & [E8 _] & H); [|auto with reads].
  apply bind_Ok in H as (u2 & w9 & (db9 & I9%insert_resolution_path & ->)%exec_Ok & H).
  apply bind_Ok in H as (rc & w10 & H10 & H). eapply receipt_aside in H10; [|eassumption]. apply ret_Ok in H as [_ <-].
  rewrite E8 in I9. cbn [w_db upd_w_db const ticked upd_w_faults] in I9, H10.
  etrans; [|etrans; [exact I9|by apply path_aside]]. rewrite <-E1. rewrite E6, E4, E3, E2 in I7.
  by eapply insert_run_path; [exact I7|..].
Qed.

(** A run that is being resolved, and the limits it is under. *)
Lemma resolving_Ok p client id live w r g w' :
  resolving s p client id live w = (Ok (r, g), w') →
  ∃ rr, runs (w_db w) !! id = Some rr ∧ rn_state rr = "preparing" ∧ rs_ProviderOps r = rn_provider_operations rr ∧
    grant_manifest (rn_grant_id rr) (w_db w) = Some (gs_Manifest g).
Proof.
  intros H. unfold resolving in H. apply bind_Ok in H as (t & w1 & [-> ->]%now_Ok & H).
  apply bind_reads_Ok in H as (r0 & w2 & H2 & [E2 _] & H); [|auto with reads].
  apply on_err_Ok, readRun_Ok in H2 as (rr & tg & c & Hr & _ & ->). branch H as B.
  apply bind_Ok in H as (g0 & w3 & H3 & H). apply grantTx_Ok in H3 as (j & m & Hf%in_force_manifest & ->).
  apply ret_Ok in H as [[= <- <-] _]. b2p. destruct B as [[[[B _] _] _] _]. exists rr. rewrite E2 in Hf. by split_and!.
Qed.
Lemma reads_resolving p client id live : reads (resolving s p client id live).
Proof. unfold resolving. reads_tac. Qed.
Lemma bump_run_path id r m db db' :
  bump_run id db = Some db' → runs db !! id = Some r → rn_state r ∈ ["preparing"; "active"] →
  grant_manifest (rn_grant_id r) db = Some m → (rn_provider_operations r < mf_MaxProviderOperations m)%Z → tool_path db db'.
Proof.
  unfold bump_run. intros H Hr Hs Hm Hb. rewrite Hr in H. case_match; [|done]. injection H as <-.
  eapply path_step; [|done]. by eapply step_charge.
Qed.
Lemma resolutionAdmission_path p client id attempt stage : keeps tool_path (resolutionAdmission s p client id attempt stage).
Proof.
  unfold resolutionAdmission. apply keeps_bind; [apply _|by apply path_reads, reads_discoverRun|intros ps].
  apply (begin_path s). intros w a w' H. apply bind_reads_Ok in H as ([r g] & w1 & H1 & [E1 _] & H); [|apply reads_resolving].
  apply resolving_Ok in H1 as (rr & Hr & Hs & Eo & Hm). rewrite <-E1 in *. clear E1. branch H as B0. clear B0.
  apply bind_Ok in H as (t & w2 & [-> ->]%now_Ok & H). apply bind_Ok in H as (x & w2 & [_ ->]%on_err_Ok%query_row_Ok & H).
  apply bind_Ok in H as (u & w2 & ->%note_lock_Ok & H). branch H as B1. clear B1.
  apply bind_Ok in H as (u1 & w2 & H2 & H). steps. etrans; [|by apply path_aside]. clear H0.
  branch H2 as B2; [|by apply ret_Ok in H2 as [_ <-]]. branch H2 as B3. b2p.
  apply bind_Ok in H2 as (u2 & w3 & (db3 & I3 & ->)%exec_Ok & H2). apply exec__Ok in H2 as ->. cbn [w_db upd_w_db const].
  etrans; [|eapply path_step; [apply step_resolutions|reflexivity]].
  eapply bump_run_path; [exact I3|exact Hr|rewrite Hs; set_solver|exact Hm|by rewrite <-Eo].
Qed.
Lemma finishResolution_path p client id attempt target outcome : keeps tool_path (finishResolution s p client id attempt target outcome).
Proof.
  unfold finishResolution. apply keeps_bind; [apply _|by apply path_reads, reads_discoverRun|intros ps].
  apply (begin_path s). intros w a w' H. apply bind_reads_Ok in H as ([r g] & w1 & H1 & [E1 _] & H); [|apply reads_resolving].
  apply resolving_Ok in H1 as (rr & Hr & Hs & _ & _). rewrite <-E1 in *. clear E1. cbv zeta in H. branch H as B0. clear B0.
  apply bind_Ok in H as (t & w2 & [-> ->]%now_Ok & H). apply bind_Ok in H as (x & w2 & [_ ->]%on_err_Ok%query_row_Ok & H).
  apply bind_Ok in H as (u & w2 & ->%note_lock_Ok & H). branch H as B1. clear B1. branch H as B2. clear B2.
  apply bind_Ok in H as (u1 & w2 & H2 & H). apply bind_Ok in H as (u2 & w3 & ->%exec__Ok & H). steps.
  etrans; [|by apply path_aside]. clear H0. cbn [w_db upd_w_db const].
  etrans; [|eapply path_step; [apply step_resolutions|reflexivity]].
  branch H2 as B3; [branch H2 as B4|]; apply exec__Ok in H2 as ->; (eapply path_step; [|reflexivity]).
  - by eapply step_activate.
  - by eapply step_fail.
Qed.
Lemma CreateRunWithRequest_path `{!ElsewhereOk} p client i : keeps tool_path (CreateRunWithRequest s p client i).
Proof.
  unfold CreateRunWithRequest. destruct (_ || _); [apply keeps_fail, _|]. destruct (_ || _); [apply keeps_fail, _|]. cbv zeta.
  apply keeps_bind; [apply _| |intros ps]. { apply path_reads. unfold subjectsForGrant. auto with reads. }
  apply keeps_bind; [apply _|apply (begin_path s), prepare_body_path|intros [p' [existing|q]]]; [apply GetRun_path|].
  apply keeps_bind; [apply _| |intros [target|e]].
  - apply keeps_attempt, (keeps_ResolveAuthorized tool_path); [apply meanwhile_path|]. intros stage. apply resolutionAdmission_path.
  - apply keeps_bind; [apply _|apply finishResolution_path|intros _; apply GetRun_path].
  - apply keeps_bind; [apply _|apply keeps_attempt, finishResolution_path|intros _; apply keeps_fail, _].
Qed.
Lemma CreateProjectRun_path `{!ElsewhereOk} p project client i : keeps tool_path (CreateProjectRun s p project client i).
Proof.
  unfold CreateProjectRun. destruct (negb _); [apply keeps_fail, _|]. apply keeps_bind; [apply _|by apply path_reads; auto with reads|intros x].
  destruct (negb _); [apply keeps_fail, _|apply CreateRunWithRequest_path].
Qed.
Lemma TicketStatus_path certificate req : keeps tool_path (TicketStatus s certificate req).
Proof.
  unfold TicketStatus. apply keeps_bind; [apply _| |intros id]. { apply path_reads. unfold ticketOperation. reads_tac. }
  apply keeps_bind; [apply _|by apply path_reads, reads_discoverOperation|intros [[run p'] client]].
  apply (beginOperation_path s). intros w o r rs g os a w' _ H. apply bind_Ok in H as (u & w1 & _ & H). by apply ret_Ok in H as [[= _ ?] _].
Qed.
End Manage.

(** *** Reconciliation *)

Section Recovery.
Context `{P : Primitives} `{Y : YAML} `{JS : JSONSchema} `{U : UUIDParse} (s : Runs.Service) `{!PlatformOk s}.

Lemma reads_lock_maintenance project subjects : reads (lock_maintenance s project subjects).
Proof. unfold lock_maintenance. destruct (LockMaintenanceSubjects s) eqn:E; [by eapply maintenance_reads|apply reads_fail]. Qed.

(** An operation that holds a lease or is at the provider. *)
Definition working (db : DB) (id : uuid) : Prop := ∃ o, operations db !! id = Some o ∧ xo_status o ∈ ["leased"; "dispatched"].
Lemma working_aside db db' id : aside db db' → working db id → working db' id.
Proof. intros V%view_eq (o & Ho & Hs). exists o. destruct V as (_&_&_&_&_&_&_&_&_&->&_). done. Qed.
Lemma working_update db id k g : k ≠ id → working db id → working (update_operation k g db) id.
Proof. intros N (o & Ho & Hs). exists o. split; [|done]. cbn. by rewrite lookup_alter_ne. Qed.

Lemma reconcile_operation_path p r id w u w' :
  working (w_db w) id → reconcile_operation s p r id w = (Ok u, w') →
  tool_path (w_db w) (w_db w') ∧ ∀ k, k ≠ id → working (w_db w) k → working (w_db w') k.
Proof.
  intros (o & Ho & Hs) H. unfold reconcile_operation in H. apply bind_reads_Ok in H as (os & w1 & H1 & [E1 _] & H); [|auto with reads].
  apply readOperation_Ok in H1 as (xo & rr & args & Hxo & _ & ->). rewrite <-E1 in *. clear E1. simplify_eq. branch H as B.
  - apply (finishAttemptTx_Ok s) in H as (t & H). b2p. split.
    + eapply path_step; [|exact H]. by eapply step_uncertain.
    + intros k N Hk. eapply working_aside; [exact H|]. by eapply (working_update (w_db w1)).
  - apply bind_Ok in H as (t & w2 & [-> ->]%now_Ok & H). apply bind_Ok in H as (u1 & w2 & ->%exec__Ok & H).
    apply bind_Ok in H as (u2 & w2 & ->%exec__Ok & H). steps. cbn in B. b2p. split.
    + eapply path_step; [|exact H0]. eapply step_expire; [done|]. set_solver.
    + intros k N Hk. eapply working_aside; [exact H0|]. by apply working_update.
Qed.
Lemma reconcile_loop p r ops w u w' :
  NoDup ops → Forall (working (w_db w)) ops → for_each ops (reconcile_operation s p r) w = (Ok u, w') → tool_path (w_db w) (w_db w').
Proof.
  revert w. induction ops as [|id ops IH]; intros w ND F H; [by apply ret_Ok in H as [_ <-]|].
  apply NoDup_cons in ND as [Nin ND]. apply Forall_cons in F as [Fi F]. cbn in H.
  apply bind_Ok in H as (u1 & w1 & [P1 K]%reconcile_operation_path & H); [|done]. etrans; [exact P1|]. eapply IH; [done| |exact H].
  rewrite Forall_forall in F |- *. intros k Hk. apply K; [|by apply F]. by intros ->.
Qed.
Lemma runs_aside f g db : f (runs db) = g (runs db) → aside (on_tools (upd_t_tool_runs f) db) (on_tools (upd_t_tool_runs g) db).
Proof. intros H. unfold aside, view, on_tools, upd_t_tool_runs, upd_t_tool_receipts. cbn. unfold runs in H. by rewrite H. Qed.
Lemma runs_id db : on_tools (upd_t_tool_runs (λ t, t)) db = db.
Proof. destruct db. unfold on_tools. cbn. f_equal. by destruct db_tools. Qed.
Lemma fail_preparing_path id : keeps tool_path (exec_ (fail_preparing id)).
Proof.
  apply keeps_exec_; [apply _|]. intros db. destruct (runs db !! id) as [r|] eqn:Hr.
  - destruct (decide (rn_state r = "preparing")) as [Hs|Hs].
    + eapply path_step; [by eapply (step_fail db id)|]. apply runs_aside. rewrite !(alter_Some _ _ _ r) by done.
      f_equal. by rewrite bool_decide_eq_true_2.
    + apply path_aside. rewrite <-(runs_id db) at 1. apply runs_aside. rewrite (alter_Some _ _ _ r) by done.
      rewrite bool_decide_eq_false_2 by done. by rewrite insert_id.
  - apply path_aside. rewrite <-(runs_id db) at 1. apply runs_aside. rewrite alter_id; [done|]. intros x Hx. congruence.
Qed.
Lemma reconcile_body_path id project subjects : commits tool_path (reconcile_body s id project subjects).
Proof.
  intros w a w' H. unfold reconcile_body in H. apply bind_Ok in H as (u & w1 & ->%exec__Ok & H).
  apply bind_reads_Ok in H as (u1 & w2 & _ & [E2 _] & H); [|apply reads_lock_maintenance].
  apply bind_reads_Ok in H as (r & w3 & _ & [E3 _] & H); [|auto with reads].
  apply bind_Ok in H as (t & w4 & [-> ->]%now_Ok & H). cbv zeta in H.
  apply bind_Ok in H as (u4 & w4 & H4 & H). apply bind_Ok in H as (ops & w5 & [-> ->]%query_Ok & H).
  apply bind_Ok in H as (u6 & w6 & H6 & H).
  assert (P4 : tool_path (w_db w) (w_db w4)).
  { change (w_db w) with (w_db (upd_w_db (const (w_db w)) (ticked w))). rewrite <-E2, <-E3. branch H4 as B.
    - eapply cancelRunTx_path; [|exact H4]. set_solver.
    - by apply ret_Ok in H4 as [_ <-]. }
  apply reconcile_loop in H6; [| |apply Forall_forall].
  2: { apply NoDup_fst_select. }
  2: { intros k ([k' o] & -> & Hk)%list_elem_of_fmap. apply elem_of_select in Hk as [Hk Hp]. unfold overdue_operation in Hp. b2p.
       exists o. split; [done|]. tauto. }
  etrans; [exact P4|]. etrans; [exact H6|]. clear -H PlatformOk0.
  match type of H with (?m ≫= ?f) w6 = _ => assert (keeps tool_path (m ≫= f)) as K end.
  2: by eapply K.
  apply keeps_bind; [apply _| |intros n].
  { apply keeps_exec_n; [apply _|]. intros db db' n [= <- _]. eapply path_step; [|done]. by apply step_resolutions. }
  apply keeps_bind; [apply _| |intros _].
  { destruct (0 <? n)%Z; [|apply keeps_ret, _]. apply keeps_bind; [apply _|apply fail_preparing_path|intros _]. path_tac s. }
  path_tac s. intros db db' n' [= <- _]. eapply path_step; [|done]. by apply step_drop_results.
Qed.
Lemma with_tx_opt_path {A} (body : Tx (A * bool)) : commits tool_path body → keeps tool_path (with_tx_opt body).
Proof. intros Hb w r w' [->|(a & w1 & H%Hb & _ & ->)]%with_tx_opt_run; [reflexivity|exact H]. Qed.
Lemma reconcileRun_path id : keeps tool_path (reconcileRun s id).
Proof.
  unfold reconcileRun. apply keeps_bind; [apply _|by apply path_reads, reads_discoverRun|intros ps].
  destruct (LockMaintenanceSubjects s); [|apply keeps_fail, _]. apply with_tx_opt_path, reconcile_body_path.
Qed.
Lemma reconcile_check_path id c : keeps tool_path (reconcile_check s id c).
Proof.
  unfold reconcile_check. destruct (LockMaintenanceSubjects s); [|apply keeps_fail, _]. apply keeps_with_tx; [apply _|].
  apply keeps_bind; [apply _|apply path_reads, reads_lock_maintenance|intros _]. path_tac s.
  intros db db' n [= <- _]. eapply path_step; [|done]. by apply step_checks.
Qed.
Lemma ReconcileExpired_path : keeps tool_path (ReconcileExpired s).
Proof.
  unfold ReconcileExpired. destruct (sv_audit s); [|apply keeps_fail, _]. apply keeps_bind; [apply _|apply keeps_get, _|intros t].
  apply keeps_bind; [apply _|by apply path_reads; auto with reads|intros ids]. apply keeps_bind; [apply _| |intros n].
  - unfold reconcileChecks. apply keeps_bind; [apply _|apply keeps_get, _|intros t']. apply keeps_bind; [apply _|by apply path_reads; auto with reads|intros l].
    apply keeps_for_fold; [apply _|intros k c]. apply keeps_bind; [apply _|apply reconcile_check_path|intros ?; apply keeps_ret, _].
  - apply keeps_for_fold; [apply _|intros k id]. apply keeps_bind; [apply _|apply reconcileRun_path|intros ?; apply keeps_ret, _].
Qed.
End Recovery.
