(* ===== verification/RunExample.v ===== *)
(** * The agent tool platform: an example

    A project with two administrators and a client, a provider that answers, and
    a run of the platform on them, for the evaluation of the theorems' examples:
    an artifact becomes an approved profile and package, a grant, a run, and an
    operation whose result is read. *)
From S2P Require Import Prelude GoStrings GoEncoding GoNet GoStruct Policy Schema Database Crypto Jobs Authority AuditLog VaultStore Vault Automation Runner Broker Runs RunGrants RunOps RunRecovery RunManage RunSpec.
Import Toy Provider.

(** ** Definitions *)

(** *** Parameters *)

Fixpoint hex_value (acc : N) (s : string) : option N :=
  match s with
  | EmptyString => Some acc
  | String c s' =>
      if decide (c = "-"%char) then hex_value acc s'
      else if is_digit c then hex_value (acc * 16 + Z.to_N (byte_val c - 48)) s'
      else if is_lower c && (byte_val c <=? 102)%Z then hex_value (acc * 16 + Z.to_N (byte_val c - 87)) s'
      else None
  end.
#[export] Instance text_uuid : UUIDParse := λ s,
  v ← hex_value 0 s; if bool_decide (uuid_String v = s) then Some v else None.
#[export] Instance any_schema : JSONSchema := λ j, j.
#[export] Instance one_yaml : YAML := λ front, if bool_decide (front = "name: review") then Some ("review", "Reviews", true) else None.

(** *** The project *)

(** The first second of 2026. *)
Definition demo_now : time := 63902822400 * Second.
Definition demo_later : time := demo_now + 1000 * Hour.
Definition demo_db : DB :=
  mkDB
    (mkIdentityDB {[1; 2]}%N (<[30%N := mkSession 1 false 0 demo_later]> {[31%N := mkSession 2 false 0 demo_later]}) {[10%N]}
       (<[(10, 1)%N := "admin"]> {[(10, 2)%N := "admin"]}) (<[(10, 1)%N := (true, 1%Z)]> {[(10, 2)%N := (true, 1%Z)]})
       (mkOAuthDB {["cli" := mkClient "codex" "http://127.0.0.1/cb" true]} ∅ ∅ ∅
          {[70%N := mkFamily 80 demo_later None 0]} {[71%N := mkToken 70 "a" "r" demo_later None 0]}))
    (mkProjectDB {[20%N := mkProject "shop" 1 (Some 10%N) "" "" None]} {[60%N := mkEnvironment 20 "alpha"]} ∅ ∅ ∅ ∅)
    (mkSecretDB ∅ ∅ ∅) (mkVaultDB ∅ ∅ ∅ ∅ ∅ ∅ ∅ ∅ ∅) ∅ ∅ ("", 0%Z) empty_tools empty_accounts.
Definition demo_author : Principal := Policy.mkPrincipal Human 1 1 0 0 demo_later 30 0 "".
Definition demo_approver : Principal := Policy.mkPrincipal Human 2 2 0 0 demo_later 31 0 "".
(** The author's delegation to the client. *)
Definition demo_agent : Principal := Policy.mkPrincipal OAuthDelegation 1 1 0 70 demo_later 30 0 (uuid_String 71).

Definition demo_exporter : NativeExporter := λ q,
  Ok (mkPackage (rq_Client q) (rq_Version q) "native" None (rq_ProfileDigest q) None
    (mkPackageManifest "1" (rq_Version q) (rq_Client q) (rq_Version q) "" "mcp" "any" (rq_Endpoint q) "" "" (rq_ProfileID q) (rq_Revision q)
       (rq_ProfileDigest q) (rq_SkillName q) (rq_ArtifactDigest q) (Some (rq_RequiredControls q)) None None "" "" "" None)).
Definition demo_broker : Broker.Service := mkBroker (Some (Crypto.mkService (be_bytes 32 5))) "https://api.github.com".
(** A platform whose barriers admit everyone; its locks, sessions and grants
    are those of the tables. *)
Definition demo_platform : Service :=
  mkService (Some demo_broker) (Some (λ _ _ _, mret (mkDecision true false "" 0 0)))
    (Some (CreateTx (mkAuditRepository "chain-key"))) (mkFlags true true true "https://ks.example/mcp")
    (Some (λ p project _ extra, Authority.LockProjectSubjects DBTypePostgres p project extra)) (Some (λ _ _, mret ()))
    (Some (λ p _ _, mret p)) (Some (Authority.LockProjectMaintenance DBTypePostgres)) (Some demo_exporter).

(** *** The run *)

Definition demo_source : string :=
  "---" +:+ newline +:+ "name: review" +:+ newline +:+ "---" +:+ newline +:+ "Read the tree." +:+ newline.
Definition demo_image : string := "keepsave/connector@sha256:" +:+ repeat_byte 64 "d".
Definition demo_certificate : string := repeat_byte 64 "e".

(** From the artifact to the grant. *)
Definition demo_setup : Tx Grant :=
  a ← CreateArtifact demo_platform demo_author 20 "review" demo_source;
  f ← CreateProfile demo_platform demo_author 20 (ar_ID a);
  _ ← ApproveProfile demo_platform demo_approver 20 (pf_ID f) (pf_Digest f);
  k ← Package_ demo_platform demo_author 20 (pf_ID f) "codex" "1.0";
  _ ← ApprovePackage demo_platform demo_approver 20 k.1 (Digest (Marshal (Package_json k.2)));
  c ← CreateConnection demo_platform demo_author 20 1 2 "PEM key";
  b ← CreateBindingInEnvironment demo_platform demo_author 20 c "alpha" (mkTarget 5 "acme" "shop" "main" "" "");
  w ← EnrollWorkload demo_platform demo_author 20 demo_certificate demo_image;
  IssueGrant demo_platform demo_author
    (mkGrant 0 20 (pf_ID f) k.1 (bd_ID b) (wl_ID w) 1 "cli" (demo_now + 10 * Hour)).

Definition demo_granted : World := (demo_setup (world_of demo_db demo_now)).2.
(** From the grant to the ticket of an operation. *)
Definition demo_claim : Tx (uuid * Operation * Ticket) :=
  r ← CreateRunWithRequest demo_platform demo_agent "cli" (mkCreateRunRequest 70 25 "run-1" "" 0);
  o ← Request demo_platform demo_agent "cli" (r_ID r) "op-1" "repository_tree" (mkArguments "");
  t ← Claim demo_platform demo_certificate demo_image;
  mret (r_ID r, o, t).
Definition demo_claimed : World := (demo_claim demo_granted).2.
(** The workload's request under the ticket a claim gave it. *)
Definition request_under (x : result (uuid * Operation * Ticket)) : ExecuteRequest :=
  match x with
  | Ok (_, _, t) => mkExecuteRequest (t_TicketID t) (t_Token t) (Request_of t)
  | Err _ => mkExecuteRequest 0 "" (mkOperationRequest 0 0 0 0 0 "" "" "" "" (mkArguments ""))
  end.
Definition demo_request : ExecuteRequest := request_under (demo_claim demo_granted).1.
(** What comes after it: its execution and the reading of the result, the same
    request again, a wait of a tenth of a second, or the end of the run. *)
Definition demo_executed : result ExecuteResponse * World := Execute demo_platform demo_certificate demo_request demo_claimed.
Definition demo_later_ops : World := (run_tool_op demo_platform TReconcileExpired (upd_w_now (const (demo_now + 50 * Second)%Z) demo_executed.2)).2.
Definition demo_result : result Operation * World := Result demo_platform demo_agent "cli" 51 demo_later_ops.
Definition demo_again : result Operation * World :=
  Request demo_platform demo_agent "cli" 28 "op-1" "repository_tree" (mkArguments "") demo_claimed.
Definition demo_other : result Operation * World :=
  Request demo_platform demo_agent "cli" 28 "op-1" "read_file" (mkArguments "README.md") demo_again.2.
Definition demo_status : result (option Operation) * World := Status demo_platform demo_agent "cli" 51 (100 * Millisecond) demo_claimed.
Definition demo_cancelled : result unit * World := CancelRun demo_platform demo_agent "cli" 28 demo_claimed.
Definition demo_archived : result unit * World := with_tx (ArchiveProjectTx 20) demo_claimed.

(** ** Lemmas *)

(** What each of them is a run of. *)
Lemma demo_executed_run : Execute demo_platform demo_certificate demo_request demo_claimed = (demo_executed.1, demo_executed.2).
Proof. unfold demo_executed. apply surjective_pairing. Qed.
Lemma demo_result_run : Result demo_platform demo_agent "cli" 51 demo_later_ops = (demo_result.1, demo_result.2).
Proof. unfold demo_result. apply surjective_pairing. Qed.
Lemma demo_again_run :
  Request demo_platform demo_agent "cli" 28 "op-1" "repository_tree" (mkArguments "") demo_claimed = (demo_again.1, demo_again.2).
Proof. unfold demo_again. apply surjective_pairing. Qed.
Lemma demo_other_run :
  Request demo_platform demo_agent "cli" 28 "op-1" "read_file" (mkArguments "README.md") demo_again.2 = (demo_other.1, demo_other.2).
Proof. unfold demo_other. apply surjective_pairing. Qed.
Lemma demo_status_run : Status demo_platform demo_agent "cli" 51 (100 * Millisecond) demo_claimed = (demo_status.1, demo_status.2).
Proof. unfold demo_status. apply surjective_pairing. Qed.
Lemma demo_archived_run : with_tx (ArchiveProjectTx 20) demo_claimed = (demo_archived.1, demo_archived.2).
Proof. unfold demo_archived. apply surjective_pairing. Qed.
(** How they end: one computation, as every part rests on the run before it. *)
Lemma demo_computation :
  ∃ resp o v a x1 x2 r1 r2 p k,
    (demo_executed.1, demo_result.1, demo_status.1, demo_again.1, demo_other.1, demo_cancelled.1, demo_archived.1,
     operations (w_db demo_claimed) !! 51%N, operations (w_db demo_executed.2) !! 51%N, q_OperationID (x_Request demo_request),
     runs (w_db demo_claimed) !! 28%N, runs (w_db demo_cancelled.2) !! 28%N,
     profiles (w_db demo_claimed) !! 5%N, packages (w_db demo_claimed) !! 10%N) =
    (Ok resp, Ok o, Ok v, Ok a, Err ErrConflict, Ok (), Ok (), Some x1, Some x2, 51%N, Some r1, Some r2, Some p, Some k) ∧
    y_Outcome resp = "succeeded" ∧ o_ID a = 51%N ∧ xo_run_id x1 = 28%N ∧ rn_project_id r1 = 20%N ∧ xo_status x2 = "succeeded" ∧
    rn_state r2 = "cancelled" ∧ rn_provider_operations r1 = 3%Z.
Proof. do 10 eexists. split; [vm_compute; reflexivity|]. vm_compute. by repeat split. Qed.
Lemma demo_outcomes :
  ∃ resp o v a x1 x2 r1 r2 p k,
    (demo_executed.1 = Ok resp ∧ demo_result.1 = Ok o ∧ demo_status.1 = Ok v ∧ demo_again.1 = Ok a ∧
     demo_other.1 = Err ErrConflict ∧ demo_cancelled.1 = Ok () ∧ demo_archived.1 = Ok () ∧
     operations (w_db demo_claimed) !! 51%N = Some x1 ∧ operations (w_db demo_executed.2) !! 51%N = Some x2 ∧ q_OperationID (x_Request demo_request) = 51%N ∧
     runs (w_db demo_claimed) !! 28%N = Some r1 ∧ runs (w_db demo_cancelled.2) !! 28%N = Some r2 ∧
     profiles (w_db demo_claimed) !! 5%N = Some p ∧ packages (w_db demo_claimed) !! 10%N = Some k) ∧
    y_Outcome resp = "succeeded" ∧ o_ID a = 51%N ∧ xo_run_id x1 = 28%N ∧ rn_project_id r1 = 20%N ∧ xo_status x2 = "succeeded" ∧
    rn_state r2 = "cancelled" ∧ rn_provider_operations r1 = 3%Z.
Proof.
  destruct demo_computation as (resp & o & v & a & x1 & x2 & r1 & r2 & p & k & Eq & F). exists resp, o, v, a, x1, x2, r1, r2, p, k.
  split; [|exact F]. clear F.
  apply pair_equal_spec in Eq as [Eq H14]. apply pair_equal_spec in Eq as [Eq H13]. apply pair_equal_spec in Eq as [Eq H12]. apply
  pair_equal_spec in Eq as [Eq H11]. apply pair_equal_spec in Eq as [Eq H10]. apply pair_equal_spec in Eq as [Eq H9]. apply
  pair_equal_spec in Eq as [Eq H8]. apply pair_equal_spec in Eq as [Eq H7]. apply pair_equal_spec in Eq as [Eq H6]. apply
  pair_equal_spec in Eq as [Eq H5]. apply pair_equal_spec in Eq as [Eq H4]. apply pair_equal_spec in Eq as [Eq H3]. apply
  pair_equal_spec in Eq as [Eq H2].
  exact (conj Eq (conj H2 (conj H3 (conj H4 (conj H5 (conj H6 (conj H7 (conj H8 (conj H9 (conj H10 (conj H11 (conj H12 (conj H13 H14))))))))))))).
Qed.
