(* ===== verification/RunTheorems.v ===== *)
(** * The agent tool platform: theorems

    Every operation of the platform as one type, runs of them, the wiring of the
    server, and what holds of every run. *)
From S2P Require Import McpAuth McpAuthSpec Prelude GoStrings GoEncoding GoNet GoStruct Policy Schema Database Crypto Jobs Authority AuditLog VaultStore Vault ApiKeys Grants Automation Runner Broker Runs RunGrants RunOps RunRecovery RunManage RunSpec RunRefine RunExample.
Import Toy Provider.

(** ** Definitions *)

(** *** Runs of operations *)

(** Operations one after the other, each at a time of its own; a failed one does
    not stop the others. *)
Fixpoint tool_run `{P : Primitives} `{Y : YAML} `{JS : JSONSchema} `{U : UUIDParse} `{R : Remote} `{E : Elsewhere} (s : Runs.Service)
    (l : list (time * tool_op)) (w : World) : World :=
  match l with
  | [] => w
  | (t, o) :: l' => tool_run s l' (run_tool_op s o (upd_w_now (const t) w)).2
  end.

(** *** Executing *)

(** A request of a workload under a ticket, as the database that it begins with
    permits it: an operation under current authority that is leased to the
    workload, under the ticket's fence, and a ticket that is not used. *)
Definition may_execute `{P : Primitives} `{Y : YAML} `{JS : JSONSchema} `{U : UUIDParse} (s : Runs.Service) (t : time) (certificate : string)
    (req : ExecuteRequest) (db : DB) : Prop :=
  let id := q_OperationID (x_Request req) in
  ∃ o r rs g os k wl,
    found s t true db id o r rs g os ∧ xo_status o = "leased" ∧
    ticket_workload (x_TicketID req) db = Some (k, wl) ∧ tt_operation_id k = id ∧ tt_fence k = xo_fence o ∧ tt_consumed_at k = None ∧
    (t < tt_expires_at k)%Z ∧ tt_token_hash k = hash (x_Token req) ∧ tw_certificate_sha256 wl = certificate ∧
    tt_workload_id k = g_WorkloadID (gs_Grant g) ∧ tt_image_digest k = gs_Image g ∧ x_Request req = expected_request k rs g os.

(** A run that is over. *)
Definition over (db : DB) (run : uuid) : Prop := ∃ r, runs db !! run = Some r ∧ rn_state r ∈ dead_state.
(** Nothing was written, and nobody waited. *)
Definition untouched (w w' : World) : Prop := w_db w' = w_db w ∧ w_now w' = w_now w.

(** The operation a key of a run names, with the digest of its request. *)
Definition named (run : uuid) (key digest : string) (o : operation_row) : Prop :=
  xo_run_id o = run ∧ xo_request_key o = key ∧ xo_request_digest o = digest.
(** What [Status] answers, at a time. *)
Definition answered (wait_ : Z) (deadline t : time) (r : result (option Operation)) : Prop :=
  r ≠ Ok None ∧
  ∀ o, r = Ok (Some o) → o_Result o = None ∧ (wait_ = 0%Z ∨ (deadline < t)%Z ∨ o_Status o ∉ ["queued"; "leased"; "dispatched"]).

(** *** The wiring of the server *)

(** [configurePlatform] for PostgreSQL; without an origin there is no OAuth. *)
Definition configurePlatform `{N : NetURL} `{U : UUIDParse} `{P : Primitives} (b : Broker.Service) (auditRepo : AuditRepository) (flags : Flags)
    (oauth : option McpAuth.Service) (export : NativeExporter) : Runs.Service :=
  mkService (Some b) (Some (stored_authorizer DBTypePostgres true)) (Some (AuditLog.CreateTx auditRepo)) flags
    (Some (λ p project _ extra, Authority.LockProjectSubjects DBTypePostgres p project extra))
    ((λ o p client, McpAuth.RequireGrantTx o p client) <$> oauth)
    ((λ o p client family, McpAuth.FamilyPrincipalTx o p client family) <$> oauth)
    (Some (Authority.LockProjectMaintenance DBTypePostgres)) (Some export).

(** ** Lemmas *)

Section Refines.
Context `{P : Primitives} `{Y : YAML} `{JS : JSONSchema} `{U : UUIDParse} `{R : Remote} `{E : Elsewhere} (s : Runs.Service) `{!PlatformOk s} `{!ElsewhereOk}.

Lemma discard_path {A} (m : Tx A) : keeps tool_path m → keeps tool_path (discard m).
Proof. intros Hm. apply keeps_bind; [apply _|done|intros _; apply keeps_ret, _]. Qed.
Lemma list_op_path p project what : keeps tool_path (list_op s p project what).
Proof.
  destruct what; apply discard_path.
  2: by apply ListProfiles_path.
  7: by apply Catalog_path.
  all: apply (inspect_path s p project).
Qed.
Lemma run_tool_op_path o : keeps tool_path (run_tool_op s o).
Proof.
  destruct o; cbn; try apply discard_path.
  - by apply CreateArtifact_path.
  - by apply CreateProfile_path.
  - by apply ApproveProfile_path.
  - by apply Package_path.
  - by apply ApprovePackage_path.
  - by apply CreateConnection_path.
  - by apply CreateBindingInEnvironment_path.
  - by apply EnrollWorkload_path.
  - by apply Revoke_path.
  - by apply RevokePackage_path.
  - by apply CheckConnection_path.
  - by apply IssueGrant_path.
  - by apply CreateRunWithRequest_path.
  - by apply CreateProjectRun_path.
  - by apply Request_path.
  - by apply Status_path.
  - by apply Result_path.
  - by apply CancelOperation_path.
  - by apply CancelRun_path.
  - by apply RetryOperation_path.
  - by apply Claim_path.
  - by apply TicketStatus_path.
  - by apply Execute_path.
  - by apply ReconcileExpired_path.
  - apply keeps_with_tx_ok; [apply _|apply ArchiveProjectTx_path].
  - apply keeps_with_tx_ok; [apply _|apply OffboardTx_path].
  - by apply list_op_path.
  - by apply GetPackage_path.
  - by apply Receipts_path.
  - by apply ListRuns_path.
  - by apply GetRun_path.
  - by apply AvailableRuns_path.
Qed.
Lemma tool_run_path l w : tool_path (w_db w) (w_db (tool_run s l w)).
Proof.
  revert w. induction l as [|[t o] l IH]; intros w; cbn; [reflexivity|].
  destruct (run_tool_op s o (upd_w_now (const t) w)) as [x w1] eqn:Ho. apply run_tool_op_path in Ho. etrans; [exact Ho|apply IH].
Qed.
End Refines.

(** *** Results *)

Section Results.
Context `{P : Primitives, !PrimitivesOk P} `{Y : YAML} `{JS : JSONSchema} `{U : UUIDParse} `{R : Remote} `{E : Elsewhere} (s : Runs.Service) `{!PlatformOk s}.

Lemma Seal_opens b x w cn w' :
  Seal b x w = (Ok cn, w') → ∃ cs, custody b = Some cs ∧ DecryptServiceSecret cs cn.1 cn.2 = Ok x.
Proof.
  unfold Seal. destruct (custody b) as [cs|]; [|done]. destruct cn as [c n]. intros H. exists cs. split; [done|].
  destruct (service_secret_compat cs x c n w w') as [Hc _]. by apply Hc.
Qed.
Lemma finishOperation_stores p client id fence b w rc w' :
  finishOperation s p client id fence "succeeded" "succeeded" b w = (Ok rc, w') →
  ∃ w0 cn w1 e o, Seal (the_broker s) b w0 = (Ok cn, w1) ∧ spool (w_db w') !! id = Some (mkSpool cn.1 cn.2 e) ∧
    operations (w_db w') !! id = Some o ∧ xo_status o = "succeeded".
Proof.
  intros H. apply (beginOperation_run s) in H as [(e & [=] & _)|(o & r & rs & g & os & w0 & a & c & w2 & F & [E0 _] & H & [= <-] & ->)].
  rewrite <-E0 in F. pose proof F as (Ho & Fr & (args & ->) & _). cbv zeta in H.
  apply bind_Ok in H as (t & w1 & [-> ->]%now_Ok & H). branch H as B.
  apply bind_Ok in H as (u & w1 & H1 & H). apply bind_Ok in H as (u2 & w3 & (t2 & H2)%(finishAttemptTx_Ok s) & H).
  apply bind_Ok in H as (rc' & w4 & [_ ->]%query_row_Ok & H). apply ret_Ok in H as [[= -> <-] <-]. change (w_db (ticked w3)) with (w_db w3).
  rewrite bool_decide_true in H1 by done. clear B. unfold store_result in H1. branch H1 as B. clear B.
  apply bind_Ok in H1 as (cn & w4 & Hcn & H1). assert (w_db w4 = w_db w0) as E4 by (by eapply (reads_run _ _ _ _ (reads_Seal _ _))).
  apply bind_Ok in H1 as (u3 & w5 & (db4 & I4 & ->)%exec_Ok & H1). apply exec_Ok in H1 as (db5 & I5 & ->).
  unfold insert_spool in I4. destruct (_ || _); [done|]. injection I4 as <-. destruct Fr as (Hr & (tg & cc & _ & ->) & _). rewrite E4 in *.
  eapply (add_bytes_Some _ _ _ _ r) in I5; [|exact Hr]. subst db5.
  apply view_eq in H2 as (_&_&_&_&_&_&_&_&_&Eo&_&_&Es&_).
  eexists w0, cn, w4, _, _. split_and!; [exact Hcn|rewrite Es; cbn; by rewrite lookup_insert_eq| |].
  - rewrite Eo. cbn. change (t_tool_operations (db_tools (w_db w0))) with (operations (w_db w0)). by rewrite lookup_alter_eq, Ho.
  - done.

Qed.
Lemma Result_reads p client id w op w' :
  Result s p client id w = (Ok op, w') →
  ∃ z cs b, spool (w_db w) !! id = Some z ∧ custody (the_broker s) = Some cs ∧
    DecryptServiceSecret cs (sp_ciphertext z) (sp_nonce z) = Ok b ∧ o_Result op = Some b.
Proof.
  intros H. apply (beginOperation_run s) in H as [(e & [=] & _)|(o & r & rs & g & os & w0 & a & c & w2 & F & [E0 _] & H & [= <-] & _)].
  branch H as B. apply bind_Ok in H as (z & w1 & [Hz ->]%on_err_Ok%query_row_Ok & H).
  apply bind_Ok in H as (u & w1 & ->%note_lock_Ok & H). apply bind_Ok in H as (t & w1 & [-> ->]%now_Ok & H). branch H as B2.
  apply bind_Ok in H as (rc & w3 & _ & H). apply bind_Ok in H as (op' & w4 & H4 & H). apply ret_Ok in H as [[= -> <-] _].
  apply on_err_Ok, lift_Ok in H4 as [H4 _]. rewrite E0 in Hz. exists z. unfold WithOpened in H4.
  destruct (custody _) as [cs|]; [|done]. destruct (DecryptServiceSecret _ _ _) as [x|] eqn:D; [|done].
  destruct (negb (json_Valid x)); [done|]. destruct (_ <? _)%N; [done|]. injection H4 as <-. by exists cs, x.
Qed.
End Results.

(** *** What an operation needs *)

Section Needs.
Context `{P : Primitives} `{Y : YAML} `{JS : JSONSchema} `{U : UUIDParse} `{R : Remote} `{E : Elsewhere} (s : Runs.Service) `{!PlatformOk s}.

Lemma forward_dispatch_body certificate req id p r g o : forward (dispatch_body s certificate req id p r g o).
Proof. unfold dispatch_body, ticketTx. pose proof (forward_receipt s). forward_tac. Qed.
Lemma reads_ticketOperation certificate id token : reads (ticketOperation certificate id token).
Proof. unfold ticketOperation. reads_tac. Qed.
(** Whatever it comes to, an execution that touched anything, or took time, was
    one the database permitted. *)
Lemma Execute_starts certificate req w x w' :
  RunOps.Execute s certificate req w = (x, w') →
  (∃ e, x = Err e ∧ untouched w w') ∨ may_execute s (w_now w) certificate req (w_db w).
Proof.
  intros H. unfold RunOps.Execute in H. destruct (_ || _); [injection H as <- <-; left; by eexists|].
  destruct (negb _); [injection H as <- <-; left; by eexists|].
  apply bind_run in H as [(id & w1 & H1 & H)|(e & H & ->)].
  2: { left. exists e. split; [done|]. apply reads_run in H as (E1 & E2 & _); [done|apply reads_on_err, reads_ticketOperation]. }
  apply reads_run in H1 as S1; [|apply reads_on_err, reads_ticketOperation]. clear H1.
  destruct (negb (bool_decide (id = _))) eqn:B1; [injection H as <- <-; left; eexists; split; [done|]; by destruct S1 as (?&?&_)|].
  b2p. subst id. apply bind_run in H as [([[run p] client] & w2 & H2 & H)|(e & H & ->)].
  2: { left. exists e. split; [done|]. apply reads_run in H; [|apply reads_discoverOperation]. assert (at_same w w') as (?&?&_) by (by etrans). done. }
  apply reads_run in H2 as S2; [|apply reads_discoverOperation]. assert (at_same w w2) as (E2 & T2 & _) by (by etrans). clear S1 S2 H2.
  apply bind_run in H as [([[r g] os] & w3 & H & _)|(e & H & ->)].
  2: { left. exists e. split; [done|]. apply forward_beginOperation in H as F; [|done|intros; apply forward_dispatch_body].
       apply (beginOperation_run s) in H as [(e' & _ & Ed)|(o&r&rs&g&os&w4&a&c&w5&_&_&_&[=]&_)].
       destruct F as [_ F]. split; congruence. }
  right. apply (beginOperation_run s) in H as [(e' & [=] & _)|(o & rr & rs & gg & os' & w4 & a & c & w5 & F & S4 & H & [= <-] & _)].
  unfold dispatch_body in H. apply bind_Ok in H as (u & w6 & H & H').
  apply bind_Ok in H' as (t & w7 & _ & H'). do 2 (apply bind_Ok in H' as (? & ? & _ & H')).
  apply bind_Ok in H' as (rc & w8 & _ & H'). apply ret_Ok in H' as [[= -> -> -> _] _].
  apply ticketTx_Ok in H as (k & wl & Hk & Eo & Et & Ew & Eg & Ei & Ef & Hx & Ec & Eq & Es & _).
  destruct S4 as (E4 & T4 & _). rewrite E4, E2 in Hk. rewrite T4, T2 in Hx. rewrite E2, T2 in F.
  pose proof F as (_ & _ & (args & Eos) & _). subst os. cbn in Eo, Ef, Es.
  exists o, rr, r, g, (operation_state (q_OperationID (x_Request req)) o rr args), k, wl. by split_and!.
Qed.
Lemma Execute_finishes certificate req w resp w' :
  RunOps.Execute s certificate req w = (Ok resp, w') →
  ∃ p client fence rc w1,
    finishOperation s p client (q_OperationID (x_Request req)) fence "succeeded" "succeeded" (y_Result resp) w1 = (Ok rc, w').
Proof.
  intros H. unfold RunOps.Execute in H. branch H as B1. branch H as B2. apply bind_Ok in H as (id & w1 & _ & H).
  branch H as B3. b2p. subst id. apply bind_Ok in H as ([[run p] client] & w2 & _ & H).
  apply bind_Ok in H as ([[r g] os] & w3 & _ & H). apply bind_Ok in H as (x & w4 & _ & H). destruct x as [b|e].
  - apply bind_Ok in H as (rc & w5 & H & H'). apply ret_Ok in H' as [<- <-]. by exists p, client, (os_Fence os), rc, w4.
  - destruct (errors_Is _ _); by apply bind_Ok in H as (? & ? & _ & H).
Qed.
(** A request of a run that is over is refused. *)
Lemma Request_needs_active p client run key kind args w o w' :
  Request s p client run key kind args w = (Ok o, w') → ∃ r, runs (w_db w) !! run = Some r ∧ rn_state r = "active".
Proof.
  intros H. unfold Request in H. branch H as B1. branch H as B2.
  apply (beginRun_run s) in H as [(e & [=] & _)|(w1 & a & c & w2 & [E1 _] & H & _)].
  apply bind_Ok in H as ([r g] & w3 & H & _). apply (runTx_Ok s) in H as (rr & (Hr & _ & Ha) & _).
  destruct (Ha eq_refl) as [Hs _]. exists rr. by rewrite <-E1.
Qed.
End Needs.

(** *** Request keys *)

Section Keys.
Context `{P : Primitives} `{Y : YAML} `{JS : JSONSchema} `{U : UUIDParse} `{R : Remote} `{E : Elsewhere} (s : Runs.Service) `{!PlatformOk s}.

Lemma operation_by_key_Some run key db id digest :
  operation_by_key run key db = Some (id, digest) → ∃ o, operations db !! id = Some o ∧ named run key digest o.
Proof.
  unfold operation_by_key. intros ([i o] & Hh & [= -> <-])%bind_Some. apply head_Some_elem_of in Hh.
  apply elem_of_select in Hh as [Ho Hp]. b2p. exists o. by destruct Hp.
Qed.
(** What a request leaves: the operation its key names. *)
Lemma Request_stores p client run key kind args w o w' :
  Request s p client run key kind args w = (Ok o, w') →
  ∃ x, operations (w_db w') !! o_ID o = Some x ∧ named run key (RequestDigest kind args) x.
Proof.
  intros H. unfold Request in H. branch H as B1. branch H as B2.
  apply (beginRun_run s) in H as [(e & [=] & _)|(w1 & a & c & w2 & [E1 _] & H & [= <-] & Ed)].
  apply bind_reads_Ok in H as ([r g] & w3 & _ & [E3 _] & H); [|auto with reads].
  apply bind_Ok in H as (f & w4 & [Hf ->]%query_Ok & H). destruct f as [[id stored]|].
  - branch H as B. b2p. subst stored. apply bind_Ok in H as (os & w5 & H5 & H). apply ret_Ok in H as [[= <- <-] _].
    rewrite E3, E1 in Hf. symmetry in Hf. apply operation_by_key_Some in Hf as (x & Hx & N). exists x. split; [|done].
    apply readOperation_Ok in H5 as (xo & rr & args' & _ & _ & ->). cbn. by rewrite Ed.
  - branch H as B. clear B. apply bind_Ok in H as (id & w5 & _ & H). apply bind_Ok in H as (t & w6 & [-> ->]%now_Ok & H).
    apply bind_Ok in H as (u & w6 & H6 & H). apply on_err_Ok, exec_Ok in H6 as (db & Hi & ->). unfold insert_operation in Hi.
    passed Hi as G. subst db.
    apply bind_Ok in H as (rc & w7 & H7%(receipt_aside s) & H). apply ret_Ok in H as [[= <- <-] <-].
    apply view_eq in H7 as (_&_&_&_&_&_&_&_&_&Eo&_). rewrite Ed, Eo. cbn. eexists. by rewrite lookup_insert_eq.
Qed.
(** What a request does about a key that is in use. *)
Lemma Request_again p client run key kind args w x w' i o digest :
  operations (w_db w) !! i = Some o → named run key digest o →
  (∀ j o', operations (w_db w) !! j = Some o' → xo_run_id o' = run → xo_request_key o' = key → j = i) →
  Request s p client run key kind args w = (x, w') →
  w_db w' = w_db w ∧ ∀ a, x = Ok a → o_ID a = i ∧ RequestDigest kind args = digest.
Proof.
  intros Ho (N1 & N2 & N3) Un H. unfold Request in H. destruct (negb _); [by injection H as <- <-|].
  destruct (_ || _); [by injection H as <- <-|].
  apply (beginRun_run s) in H as [(e & -> & ->)|(w1 & a & c & w2 & [E1 _] & H & -> & Ed)]; [done|].
  apply bind_reads_Ok in H as ([r g] & w3 & _ & [E3 _] & H); [|auto with reads].
  apply bind_Ok in H as (f & w4 & [Hf ->]%query_Ok & H). rewrite E3, E1 in Hf. symmetry in Hf. destruct f as [[id stored]|].
  - branch H as B. b2p. subst stored. apply bind_Ok in H as (os & w5 & H5 & H). apply ret_Ok in H as [[= <- <-] _].
    split; [done|]. intros a [= <-]. apply operation_by_key_Some in Hf as (x & Hx & M1 & M2 & M3). pose proof (Un _ _ Hx M1 M2) as ->.
    apply readOperation_Ok in H5 as (xo & rr & args' & _ & _ & ->). split; [done|]. simplify_eq. congruence.
  - exfalso. unfold operation_by_key in Hf.
    assert (((i, o) : uuid * operation_row) ∈ select (λ _ o, bool_decide (xo_run_id o = run) && bool_decide (xo_request_key o = key)) (operations (w_db w)))
      as Hin by (apply elem_of_select; split; [done|]; rewrite !bool_decide_true by done; done).
    destruct (select _ _) as [|y l]; [by apply elem_of_nil in Hin|]. by destruct y.
Qed.
End Keys.

(** *** Waiting *)

Section Waiting.
Context `{P : Primitives} `{Y : YAML} `{JS : JSONSchema} `{U : UUIDParse} `{R : Remote} `{E : Elsewhere} (s : Runs.Service) `{!PlatformOk s}.

Lemma forward_look p client id : forward (look s p client id).
Proof. apply forward_beginOperation; [done|]. intros. forward_tac. Qed.
Lemma poll_S fuel p client id wait_ deadline w :
  poll s (S fuel) p client id wait_ deadline w =
  match look s p client id w with
  | (Err e, w1) => (Err e, w1)
  | (Ok o, w1) =>
      if (wait_ =? 0)%Z || After (w_now w1) deadline || negb (bool_decide (o_Status o ∈ ["queued"; "leased"; "dispatched"]))
      then (Ok (Some (with_result None o)), w1)
      else poll s fuel p client id wait_ deadline (wait (100 * Millisecond + Z.of_N (late (w_rng w1))) w1)
  end.
Proof. cbn [poll]. unfold mbind, M_bind. destruct (look s p client id w) as [[o|e] w1]; [|done]. by destruct (_ || _) eqn:B; cbn; rewrite B. Qed.
(** With a look for every tenth of a second that is left, and one after it, an
    answer comes; when, and that more looks change nothing. *)
Lemma poll_answers fuel p client id wait_ deadline w r w' :
  (deadline < w_now w + Z.of_nat fuel * (100 * Millisecond))%Z →
  poll s (S fuel) p client id wait_ deadline w = (r, w') →
  answered wait_ deadline (w_now w') r ∧ (w_now w <= w_now w')%Z ∧
  (∀ bound, (∀ n, late n <= bound)%N → (w_now w' <= Z.max (w_now w) (deadline + 100 * Millisecond + Z.of_N bound))%Z) ∧
  ∀ n, poll s (S fuel + n) p client id wait_ deadline w = (r, w').
Proof.
  revert w. induction fuel as [|fuel IH]; intros w Hf H.
  all: cbn [Nat.add]; setoid_rewrite poll_S; rewrite poll_S in H; destruct (look s p client id w) as [[o|e] w1] eqn:L;
    apply forward_look in L as [_ T].
  2, 4: injection H as <- <-; split_and!; [by split|lia|intros; lia|done].
  all: rewrite T in H |- *; destruct (_ || _) eqn:B in H |- *.
  1, 3: injection H as <- <-; split_and!; [split; [done|]; intros ? [= <-]; split; [done|]|lia|intros; lia|done].
  1, 2: rewrite !orb_true_iff in B; unfold After in B; b2p; rewrite T; tauto.
  all: rewrite !orb_false_iff in B; unfold After in B; destruct B as [[_ B] _]; b2p.
  - lia.
  - set (w2 := wait _ w1) in *.
    assert (w_now w2 = w_now w + (100 * Millisecond + Z.of_N (late (w_rng w1))))%Z as T2 by (cbn; by rewrite T).
    apply IH in H as (A & Hle & Hb & Hn); [|change Millisecond with 1000000%Z in *; lia].
    split_and!; [done|change Millisecond with 1000000%Z in *; lia| |exact Hn].
    intros bound Hl. specialize (Hb bound Hl). specialize (Hl (w_rng w1)). change Millisecond with 1000000%Z in *. lia.
Qed.
End Waiting.

(** *** Ending the runs of a project *)

Section Ending.
Context `{P : Primitives} `{JS : JSONSchema}.

Lemma over_le db db' run : tool_le db db' → over db run → over db' run.
Proof. intros L (r & Hr & D). destruct (le_runs _ _ L _ _ Hr) as (r' & Hr' & Lr). exists r'. split; [done|]. by eapply run_dead. Qed.
Lemma cancelRunTx_over run r w u w' :
  runs (w_db w) !! run = Some r → cancelRunTx run "revoked" w = (Ok u, w') → over (w_db w') run.
Proof.
  intros Hr H. unfold cancelRunTx in H. steps. cbn. exists (set_run_state "revoked" r).
  change (alter (set_run_state "revoked") run (runs (w_db w)) !! run = Some (set_run_state "revoked" r) ∧ "revoked" ∈ dead_state).
  rewrite lookup_alter_eq, Hr. split; [done|set_solver].
Qed.
Lemma cancelRuns_over ids w u w' :
  for_each ids (λ id, cancelRunTx id "revoked") w = (Ok u, w') →
  ∀ run, run ∈ ids → is_Some (runs (w_db w) !! run) → over (w_db w') run.
Proof.
  revert w. induction ids as [|id ids IH]; intros w H run Hin [r Hr]; [by apply elem_of_nil in Hin|].
  apply bind_Ok in H as (u1 & w1 & H1 & H).
  assert (tool_path (w_db w) (w_db w1)) as P1 by (by eapply cancelRunTx_path in H1; [|set_solver]).
  assert (tool_path (w_db w1) (w_db w')) as P2 by (by eapply (cancelRuns_path ids "revoked") in H; [|set_solver]).
  apply elem_of_cons in Hin as [->|Hin].
  - eapply over_le; [by apply tool_path_le|]. by eapply cancelRunTx_over.
  - destruct (le_runs _ _ (tool_path_le _ _ P1) _ _ Hr) as (r1 & Hr1 & _). by eapply IH.
Qed.
Lemma cancelProjectRunsTx_over project w u w' :
  cancelProjectRunsTx project w = (Ok u, w') →
  ∀ run r, runs (w_db w) !! run = Some r → rn_project_id r = project → over (w_db w') run.
Proof.
  intros H run r Hr Hp. unfold cancelProjectRunsTx in H. apply bind_Ok in H as (ids & w1 & [-> ->]%query_Ok & H).
  apply bind_reads_Ok in H as (u1 & w2 & _ & [E2 _] & H); [|apply reads_for_each; auto with reads].
  eapply cancelRuns_over; [exact H| |rewrite E2; by eexists].
  unfold selected_runs. apply list_elem_of_fmap. exists (run, r). split; [done|]. apply elem_of_select. split; [done|]. by apply bool_decide_true.
Qed.
Lemma ArchiveProjectTx_over project w u w' :
  ArchiveProjectTx project w = (Ok u, w') →
  (∀ run r, runs (w_db w) !! run = Some r → rn_project_id r = project → over (w_db w') run) ∧
  ∀ id g, grants (w_db w) !! id = Some g → tg_project_id g = project → ∃ g', grants (w_db w') !! id = Some g' ∧ is_Some (tg_revoked_at g').
Proof.
  intros H. unfold ArchiveProjectTx in H. apply bind_Ok in H as (t & w1 & [-> ->]%now_Ok & H).
  do 7 (apply bind_Ok in H as (? & ? & ->%exec__Ok & H)). pose proof (cancelProjectRunsTx_over _ _ _ _ H) as Hr.
  apply cancelProjectRunsTx_path, tool_path_le in H. split; [exact Hr|].
  intros id g Hg Hp. destruct (le_grants _ _ H id (mkToolGrant (tg_project_id g) (tg_profile_id g) (tg_package_id g) (tg_profile_digest g)
     (tg_package_digest g) (tg_binding_id g) (tg_workload_id g) (tg_actor_id g) (tg_client_id g) (tg_issued_by g) (tg_membership_epoch g)
     (tg_issuer_epoch g) (tg_expires_at g) (coalesce (tg_revoked_at g) (w_now w)) (tg_created_at g))) as (g' & Hg' & Lg).
  - cbn. rewrite lookup_update_where. change (t_tool_grants (db_tools (w_db w))) with (grants (w_db w)). rewrite Hg. cbn.
    by rewrite bool_decide_true.
  - exists g'. split; [done|]. destruct (tg_revoked_at g) eqn:Eg; eexists; by apply Lg.
Qed.
End Ending.

(** *** Requests of what is over *)

Section Over.
Context `{P : Primitives} `{Y : YAML} `{JS : JSONSchema} `{U : UUIDParse} `{R : Remote} `{E : Elsewhere} (s : Runs.Service) `{!PlatformOk s}.

Lemma not_final_leased o : xo_status o = "leased" → ¬ sent o.
Proof.
  intros L [D|[[F|[F _]] _]]; rewrite L in *; [done| |done].
  by repeat (apply elem_of_cons in F as [F|F]; [done|]); apply elem_of_nil in F.
Qed.
Lemma over_not_active db run r : over db run → runs db !! run = Some r → rn_state r ≠ "active".
Proof.
  intros (r' & Hr' & D) Hr A. simplify_eq. rewrite A in D.
  by repeat (apply elem_of_cons in D as [D|D]; [done|]); apply elem_of_nil in D.
Qed.
Lemma Execute_over certificate req o w :
  operations (w_db w) !! q_OperationID (x_Request req) = Some o → over (w_db w) (xo_run_id o) →
  ∃ e w2, RunOps.Execute s certificate req w = (Err e, w2) ∧ untouched w w2.
Proof.
  intros Ho O. destruct (RunOps.Execute s certificate req w) as [x w2] eqn:X.
  apply (Execute_starts s) in X as [(e & -> & ?)|(xo & r & rs & g & os & k & wl & (Hx & (Hr & _ & Ha) & _) & _)]; [by exists e, w2|].
  simplify_eq. destruct (Ha eq_refl) as [A _]. by destruct (over_not_active _ _ _ O Hr).
Qed.
Lemma Request_over p client run key kind args w :
  over (w_db w) run → ∃ e w2, Request s p client run key kind args w = (Err e, w2) ∧ w_db w2 = w_db w.
Proof.
  intros O. destruct (Request s p client run key kind args w) as [[o|e] w2] eqn:X.
  - apply (Request_needs_active s) in X as (r & Hr & A). by destruct (over_not_active _ _ _ O Hr).
  - exists e, w2. split; [done|]. unfold Request in X. destruct (negb (fl_Admission _)); [by injection X as _ <-|].
    destruct (_ || _); [by injection X as _ <-|]. by apply (beginRun_run s) in X as [(e' & _ & ?)|(w1 & a & c & w3 & _ & _ & [=] & _)].
Qed.
End Over.

(** *** The server's ports *)

Lemma CreateTx_aside `{P : Primitives} r u pr a e d ip : keeps aside (CreateTx r u pr a e d ip).
Proof. by apply keeps_CreateTx; [apply _|..]. Qed.
Lemma reads_LockProjectSubjects d p project extra : reads (Authority.LockProjectSubjects d p project extra).
Proof. split; [apply keeps_lockProjectOrganizations, _|apply forward_lockProjectOrganizations]. Qed.
Lemma reads_LockProjectMaintenance d project extra : reads (Authority.LockProjectMaintenance d project extra).
Proof.
  unfold Authority.LockProjectMaintenance. split; [|unfold select_locked, lock_organization, LockSubjects, g_lock; forward_tac].
  keeps_tac.
Qed.
Lemma reads_FamilyPrincipalTx `{N : NetURL} `{U : UUIDParse} `{P : Primitives} o p client family :
  reads (McpAuth.FamilyPrincipalTx o p client family).
Proof.
  unfold McpAuth.FamilyPrincipalTx. pose proof (λ p, reads_RequireGrantTx o p client). pose proof reads_parent. reads_tac.
Qed.

(** The server's wiring provides what the platform relies on. *)
#[export] Instance configurePlatform_ok `{N : NetURL} `{U : UUIDParse} `{P : Primitives} b r flags oauth export :
  PlatformOk (configurePlatform b r flags oauth export).
Proof.
  split.
  - intros f p project m extra [= <-]. apply reads_LockProjectSubjects.
  - intros f p a q [= <-]. apply reads_stored_authorizer.
  - intros f p client H. apply fmap_Some in H as (o & _ & ->). apply reads_RequireGrantTx.
  - intros f p client family H. apply fmap_Some in H as (o & _ & ->). apply reads_FamilyPrincipalTx.
  - intros f project subjects [= <-]. apply reads_LockProjectMaintenance.
  - intros f u pr a e d ip [= <-]. apply CreateTx_aside.
  - intros f u pr a e d ip [= <-]. apply forward_CreateTx.
Qed.
#[export] Instance demo_platform_ok : PlatformOk demo_platform.
Proof.
  split.
  - intros f p project m extra [= <-]. apply reads_LockProjectSubjects.
  - intros f p a q [= <-]. apply reads_ret.
  - intros f p client [= <-]. apply reads_ret.
  - intros f p client family [= <-]. apply reads_ret.
  - intros f project subjects [= <-]. apply reads_LockProjectMaintenance.
  - intros f u pr a e d ip [= <-]. apply CreateTx_aside.
  - intros f u pr a e d ip [= <-]. apply forward_CreateTx.
Qed.
#[export] Instance quiet_ok `{P : Primitives} `{JS : JSONSchema} : ElsewhereOk (E := quiet).
Proof. intros n db. reflexivity. Qed.

(** *** The example *)


(** The example's platform and its runs are those of the operations. *)
Lemma demo_setup_path : keeps tool_path demo_setup.
Proof.
  unfold demo_setup.
  apply keeps_bind; [apply _|apply (CreateArtifact_path demo_platform)|intros ?].
  apply keeps_bind; [apply _|apply (CreateProfile_path demo_platform)|intros ?].
  apply keeps_bind; [apply _|apply (ApproveProfile_path demo_platform)|intros ?].
  apply keeps_bind; [apply _|apply (Package_path demo_platform)|intros ?].
  apply keeps_bind; [apply _|apply (ApprovePackage_path demo_platform)|intros ?].
  apply keeps_bind; [apply _|apply (CreateConnection_path demo_platform)|intros ?].
  apply keeps_bind; [apply _|apply (CreateBindingInEnvironment_path demo_platform)|intros ?].
  apply keeps_bind; [apply _|apply (EnrollWorkload_path demo_platform)|intros ?].
  apply (IssueGrant_path demo_platform).
Qed.
Lemma demo_claim_path : keeps tool_path demo_claim.
Proof.
  unfold demo_claim.
  apply keeps_bind; [apply _|apply (CreateRunWithRequest_path demo_platform)|intros ?].
  apply keeps_bind; [apply _|apply (Request_path demo_platform)|intros ?].
  apply keeps_bind; [apply _|apply (Claim_path demo_platform)|intros ?].
  apply keeps_ret, _.
Qed.
Lemma path_run {A} (m : Tx A) w : keeps tool_path m → tool_path (w_db w) (w_db (m w).2).
Proof. intros Hm. destruct (m w) as [x w'] eqn:E. by eapply Hm. Qed.
Lemma demo_db_wf : tool_wf demo_db.
Proof. by split; intros; repeat match goal with H : consumed _ _ _ |- _ => destruct H as (? & ? & _) end. Qed.
Lemma demo_claimed_path : tool_path demo_db (w_db demo_claimed).
Proof. etrans; [apply (path_run demo_setup (world_of demo_db demo_now)), demo_setup_path|apply (path_run demo_claim), demo_claim_path]. Qed.
Lemma demo_claimed_wf : tool_wf (w_db demo_claimed).
Proof. eapply tool_path_wf, demo_db_wf. apply demo_claimed_path. Qed.
Lemma tool_run_one `{P : Primitives} `{Y : YAML} `{JS : JSONSchema} `{U : UUIDParse} `{R : Remote} `{E : Elsewhere} s t o w :
  tool_run s [(t, o)] w = (run_tool_op s o (upd_w_now (const t) w)).2.
Proof. done. Qed.
Lemma tool_run_nil `{P : Primitives} `{Y : YAML} `{JS : JSONSchema} `{U : UUIDParse} `{R : Remote} `{E : Elsewhere} s w : tool_run s [] w = w.
Proof. done. Qed.
Lemma succeeded_sent o : xo_status o = "succeeded" → sent o.
Proof. intros S. right. unfold final. rewrite S. split; [left; set_solver|done]. Qed.
Lemma cancelled_dead r : rn_state r = "cancelled" → rn_state r ∈ dead_state.
Proof. intros ->. set_solver. Qed.
Lemma demo_executed_path : tool_path demo_db (w_db demo_executed.2).
Proof. etrans; [exact demo_claimed_path|]. exact (Execute_path demo_platform _ _ _ _ _ demo_executed_run). Qed.
Lemma demo_executed_wf : tool_wf (w_db demo_executed.2).
Proof. eapply tool_path_wf, demo_db_wf. exact demo_executed_path. Qed.

(** ** Properties *)

Section Properties.
Context `{P : Primitives} `{PO : !PrimitivesOk P} `{Y : YAML} `{JS : JSONSchema} `{U : UUIDParse} `{R : Remote} `{E : Elsewhere}.
Context (s : Runs.Service) `{!PlatformOk s} `{EO : !ElsewhereOk}.

(** C7: the tool platform refines its specification: whatever operations its
    clients, administrators, approvers, workloads and maintenance jobs run, in
    whatever order, at whatever times, with whatever failures of the database,
    the network and the provider, and whatever other requests do while one of
    them waits, the tables move only by steps of the specification; so no row of
    an operation, run, grant, profile or package is lost or moves back, and the
    invariant of the tables is kept.  The server's wiring meets the interface
    this rests on. *)
Theorem tool_platform_refines l w :
  let w' := tool_run s l w in
  tool_path (w_db w) (w_db w') ∧ tool_le (w_db w) (w_db w') ∧ (tool_wf (w_db w) → tool_wf (w_db w')).
Proof.
  pose proof (tool_run_path s l w) as H. split_and!; [done|by apply tool_path_le|by apply tool_path_wf].
Qed.

(** C8: an operation is sent to the provider at most once: once it is
    dispatched, or ended otherwise than by cancellation or a failure before
    dispatch, it stays so under the same fence, at most one of its tickets is
    ever used, and every further attempt to execute it fails on the spot:
    nothing is written and no time passes, so no request is sent. *)
Theorem operation_dispatched_once l w id o :
  tool_wf (w_db w) → operations (w_db w) !! id = Some o → sent o →
  let w' := tool_run s l w in
  (∃ o', operations (w_db w') !! id = Some o' ∧ sent o' ∧ xo_fence o' = xo_fence o) ∧
  (∀ i j, consumed (w_db w') id i → consumed (w_db w') id j → i = j) ∧
  ∀ certificate req, q_OperationID (x_Request req) = id →
    ∃ e w2, RunOps.Execute s certificate req w' = (Err e, w2) ∧ untouched w' w2.
Proof.
  intros W Ho S w'. pose proof (tool_run_path s l w) as H. fold w' in H.
  destruct (le_operations _ _ (tool_path_le _ _ H) _ _ Ho) as (o' & Ho' & L). pose proof (sent_le _ _ L S) as S'.
  split_and!; [exists o'; split_and!; [done..|]|intros i j; apply wf_once; by eapply tool_path_wf|].
  { destruct S as [D|[F _]]; [by eapply op_dispatched|by eapply op_final]. }
  intros certificate req <-. destruct (RunOps.Execute s certificate req w') as [x w2] eqn:X.
  apply (Execute_starts s) in X as [(e & -> & ?)|(xo & r & rs & g & os & k & wl & (Hx & _) & Hs & _)]; [by exists e, w2|].
  simplify_eq. by apply not_final_leased in Hs.
Qed.

(** C25: a run stays within the limits its profile was approved with: whatever
    happens, the requests charged to it and the bytes it stored are at most the
    profile's, so at most 100 requests and 32 MiB, and never negative. *)
Theorem run_within_limits l w run r :
  tool_wf (w_db w) → runs (w_db (tool_run s l w)) !! run = Some r →
  within_limits (w_db (tool_run s l w)) r ∧
  (0 <= rn_provider_operations r <= 100)%Z ∧ (0 <= rn_result_bytes r <= 33554432)%Z.
Proof.
  intros W Hr. pose proof (tool_path_wf _ _ (tool_run_path s l w) W) as W'. pose proof (wf_budget _ W' _ _ Hr) as B.
  split; [done|]. destruct B as (m & Hm & B1 & B2). pose proof (manifest_ok_bounds _ (grant_manifest_ok _ _ _ Hm)). lia.
Qed.

(** What two people approved stays what runs: a profile and a package keep
    their content and digest for ever, a recorded approval stays, and so does a
    revocation; every approval there ever is comes from somebody else than the
    author. *)
Theorem approved_content_is_fixed l w id p i k :
  tool_wf (w_db w) → profiles (w_db w) !! id = Some p → packages (w_db w) !! i = Some k →
  let db' := w_db (tool_run s l w) in
  ∃ p' k', profiles db' !! id = Some p' ∧ packages db' !! i = Some k' ∧ profile_le p p' ∧ package_le k k' ∧
    (∀ a, tp_approval p' = Some a → ap_approved_by a ≠ tp_created_by p) ∧
    (∀ a, tk_approval k' = Some a → ap_approved_by a ≠ tk_created_by k).
Proof.
  intros W Hp Hk db'. pose proof (tool_run_path s l w) as L. pose proof (tool_path_wf _ _ L W) as W'. apply tool_path_le in L.
  destruct (le_profiles _ _ L _ _ Hp) as (p' & Hp' & Lp), (le_packages _ _ L _ _ Hk) as (k' & Hk' & Lk).
  exists p', k'. split_and!; try done.
  - intros a Ha. destruct (profile_same _ _ Lp) as (_&_&_&<-). by eapply (wf_profile _ W').
  - intros a Ha. destruct (package_same _ _ Lk) as (_&_&<-). by eapply (wf_package _ W').
Qed.

(** A run that failed, was cancelled or revoked is over: it stays so, no
    operation is added to it, none of its operations is leased, dispatched or
    finished with success any more, requests are refused without a trace, and
    executions on the spot. *)
Theorem ended_run_stays_ended l w run r :
  runs (w_db w) !! run = Some r → rn_state r ∈ dead_state →
  let w' := tool_run s l w in
  over (w_db w') run ∧
  (∀ id o', operations (w_db w') !! id = Some o' → xo_run_id o' = run →
     (∃ o, operations (w_db w) !! id = Some o ∧ xo_run_id o = run ∧
        (xo_status o' ∈ ["queued"; "leased"; "dispatched"; "succeeded"] → xo_status o' = xo_status o ∧ xo_fence o' = xo_fence o)) ∧
     ∀ certificate req, q_OperationID (x_Request req) = id →
       ∃ e w2, RunOps.Execute s certificate req w' = (Err e, w2) ∧ untouched w' w2) ∧
  ∀ p client key kind args, ∃ e w2, Request s p client run key kind args w' = (Err e, w2) ∧ w_db w2 = w_db w'.
Proof.
  intros Hr D w'. pose proof (tool_path_le _ _ (tool_run_path s l w)) as H. fold w' in H.
  assert (over (w_db w') run) as O by (eapply over_le; [exact H|by exists r]). split_and!; [done| |].
  - intros id o' Ho' Hrun. split; [by eapply (le_dead _ _ H)|]. intros certificate req <-. by eapply Execute_over; [..|rewrite Hrun].
  - intros p client key kind args. by apply Request_over.
Qed.

(** C26: the result of an execution is what a client reads: whatever happens
    after a workload got the provider's answer, and whoever reads the operation's
    result, if it is still given out it is that answer, byte for byte, through
    its sealing, the spool and its opening. *)
Theorem executed_result_reads certificate req w resp w1 l p client w2 o :
  RunOps.Execute s certificate req w = (Ok resp, w1) →
  Result s p client (q_OperationID (x_Request req)) (tool_run s l w1) = (Ok o, w2) →
  o_Result o = Some (y_Result resp).
Proof.
  intros (q & c & fence & rc & w0 & H)%(Execute_finishes s) H2.
  apply (finishOperation_stores s) in H as (w3 & cn & w4 & e & x & Hs & Hz & Ho & Hx).
  apply Seal_opens in Hs as (cs & Hc & Hd). apply (Result_reads s) in H2 as (z & cs' & b & Hz' & Hc' & Hd' & Hb).
  apply (le_spool _ _ (tool_path_le _ _ (tool_run_path s l w1)) _ _ _ Ho) in Hz'; [|left; rewrite Hx; set_solver].
  rewrite Hz in Hz'. injection Hz' as <-. cbn in Hd'. congruence.
Qed.

(** C9: nothing is executed but under current authority: an execution that
    succeeds, writes anything or takes any time began in a database where the
    operation is leased under the ticket's fence, nobody asked to cancel it, its
    run is active and in its time, the ticket is unused, unexpired and presented
    by the enrolled workload of the grant, the request is the one it stands for,
    and the grant is in force: unrevoked, with unrevoked approvals, binding,
    connection and workload, with every approver, the issuer and the owner still
    holding the membership, in the epoch and with the right that it rests on. *)
Theorem execution_under_current_authority certificate req w x w' :
  RunOps.Execute s certificate req w = (x, w') →
  (∃ e, x = Err e ∧ untouched w w') ∨
  may_execute s (w_now w) certificate req (w_db w) ∧
  ∃ o r j m, operations (w_db w) !! q_OperationID (x_Request req) = Some o ∧ xo_cancel_requested o = false ∧
    (w_now w < xo_expires_at o)%Z ∧ runs (w_db w) !! xo_run_id o = Some r ∧ rn_state r = "active" ∧ (w_now w < rn_expires_at r)%Z ∧
    in_force s (w_now w) (rn_grant_id r) (rn_actor_id r) (rn_client_id r) (w_db w) j m.
Proof.
  intros [?|M]%(Execute_starts s); [by left|]. right. split; [done|].
  destruct M as (o & r & rs & g & os & k & wl & (Ho & (Hr & _ & Ha) & _ & Hc) & _).
  destruct (Ha eq_refl) as (? & ? & _ & j & m & tg & Hf & _), (Hc eq_refl) as (? & ? & _). exists o, r, j, m. by split_and!.
Qed.

(** C28: waiting for an operation ends: the loop of [Status] always answers or
    fails within the looks it is given here, and more looks change nothing; its
    answer has no result, and comes only when the operation is not in progress
    any more, no wait was asked for, or the time is over; it waits at most the
    time asked for, one pause of a tenth of a second and the lateness of one
    timer. *)
Theorem Status_terminates p client id wait_ w r w' :
  Status s p client id wait_ w = (r, w') →
  answered wait_ (w_now w + wait_) (w_now w') r ∧ (w_now w <= w_now w')%Z ∧
  (∀ bound, (∀ n, late n <= bound)%N → (w_now w' <= w_now w + Z.max 0 wait_ + 100 * Millisecond + Z.of_N bound)%Z) ∧
  ((0 <= wait_ <= 2 * Second)%Z → ∀ n, poll s (poll_fuel + n) p client id wait_ (w_now w + wait_) w = (r, w')).
Proof.
  unfold Status. intros H. destruct (_ || _) eqn:B.
  - injection H as <- <-. b2p. change Second with 1000000000%Z in *. change Millisecond with 1000000%Z in *.
    split_and!; [by split|lia|intros; lia|intros; lia].
  - change (poll s (S 21) p client id wait_ (w_now w + wait_)%Z w = (r, w')) in H. b2p.
    change Second with 1000000000%Z in *. apply poll_answers in H as (A & T & Hb & Hn); [|done|change Millisecond with 1000000%Z; lia].
    split_and!; [done|done| |intros _; exact Hn]. intros bound Hl. specialize (Hb bound Hl). change Millisecond with 1000000%Z in *. lia.
Qed.

(** A request key names one operation of a run for ever: after a request
    succeeded, every further request of the run under the same key, by whomever
    and whenever, writes nothing, and either fails or answers with the same
    operation; it fails if the digest of what it asks for differs. *)
Theorem request_key_names_one_operation p client run key kind args w o w1 l q client' kind' args' x w3 :
  tool_wf (w_db w) →
  Request s p client run key kind args w = (Ok o, w1) →
  Request s q client' run key kind' args' (tool_run s l w1) = (x, w3) →
  w_db w3 = w_db (tool_run s l w1) ∧
  ∀ o', x = Ok o' → o_ID o' = o_ID o ∧ RequestDigest kind' args' = RequestDigest kind args.
Proof.
  intros W H H3. pose proof (tool_run_path s l w1) as L.
  assert (tool_wf (w_db (tool_run s l w1))) as W3 by (eapply tool_path_wf; [exact L|]; eapply tool_path_wf; [by eapply (Request_path s)|done]).
  apply (Request_stores s) in H as (y & Hy & N1 & N2 & N3). destruct (le_operations _ _ (tool_path_le _ _ L) _ _ Hy) as (y' & Hy' & Ly).
  destruct (op_same _ _ Ly) as (E1 & _ & _ & E2 & E3).
  eapply (Request_again s); [exact Hy'|split_and!; [by rewrite E1|by rewrite E2|by rewrite E3]| |exact H3].
  intros j z Hz Z1 Z2. eapply (wf_operation_key _ W3); [exact Hz|exact Hy'|congruence..].
Qed.

(** Archiving a project ends its runs: once the hook of the archive ran, no
    run the project had is active again, its grants stay revoked, and no
    operation of it is ever executed: an attempt fails on the spot. *)
Theorem archive_ends_runs project w u w1 l :
  with_tx (ArchiveProjectTx project) w = (Ok u, w1) →
  let w2 := tool_run s l w1 in
  (∀ run r, runs (w_db w) !! run = Some r → rn_project_id r = project → over (w_db w2) run) ∧
  (∀ id g, grants (w_db w) !! id = Some g → tg_project_id g = project →
     ∃ g', grants (w_db w2) !! id = Some g' ∧ is_Some (tg_revoked_at g')) ∧
  ∀ certificate req o r, operations (w_db w) !! q_OperationID (x_Request req) = Some o → runs (w_db w) !! xo_run_id o = Some r →
    rn_project_id r = project → ∃ e w3, RunOps.Execute s certificate req w2 = (Err e, w3) ∧ untouched w2 w3.
Proof.
  intros H w2. pose proof (tool_path_le _ _ (tool_run_path s l w1)) as L2. fold w2 in L2.
  assert (tool_le (w_db w) (w_db w1)) as L1 by (by eapply tool_path_le, keeps_with_tx_ok, H; [apply _|apply ArchiveProjectTx_path]).
  apply with_tx_Ok in H as (v & H & ->). apply ArchiveProjectTx_over in H as [Hr Hg].
  assert (∀ run r, runs (w_db w) !! run = Some r → rn_project_id r = project → over (w_db w2) run) as O.
  { intros run r Hx Hp. eapply over_le; [exact L2|]. by eapply Hr. }
  split_and!; [exact O| |].
  - intros id g Hx Hp. destruct (Hg _ _ Hx Hp) as (g1 & Hg1 & [x Hx1]). destruct (le_grants _ _ L2 _ _ Hg1) as (g2 & Hg2 & L).
    exists g2. split; [done|]. exists x. by apply L.
  - intros certificate req o r Ho Hx Hp. destruct (le_operations _ _ L1 _ _ Ho) as (o1 & Ho1 & La).
    destruct (le_operations _ _ L2 _ _ Ho1) as (o2 & Ho2 & Lb). eapply (Execute_over s); [exact Ho2|].
    destruct (op_same _ _ La) as (Ea & _), (op_same _ _ Lb) as (Eb & _). rewrite Eb, Ea. by eapply O.
Qed.
End Properties.

(** ** The example, as the theorems see it *)

Section Witnesses.

Lemma tool_platform_refines_witness :
  tool_wf (w_db (tool_run demo_platform [(demo_later, TClaim demo_certificate demo_image); (demo_later, TReconcileExpired)] demo_claimed)) ∧
  tool_path demo_db (w_db (tool_run (configurePlatform demo_broker (mkAuditRepository "chain-key") (mkFlags true true true "") None demo_exporter)
    [(demo_later, TReconcileExpired)] (world_of demo_db demo_now))).
Proof.
  split.
  - apply (tool_platform_refines demo_platform). exact demo_claimed_wf.
  - apply (tool_platform_refines (configurePlatform _ _ _ _ _) _ (world_of demo_db demo_now)).
Defined.

Lemma operation_dispatched_once_witness :
  ∃ e w2, RunOps.Execute demo_platform demo_certificate demo_request demo_later_ops = (Err e, w2) ∧ untouched demo_later_ops w2.
Proof.
  destruct demo_outcomes as (resp & o & v & a & x1 & x2 & r1 & r2 & p & k & (He & Hr & Hv & Ha & Hb & Hc & Hz & Ho1 & Ho2 & Hq & Hr1 & Hr2 & Hp & Hk) & Fy & Fa & Fx & Fp & Fs & Fr & Fn).
  pose proof (operation_dispatched_once demo_platform [((demo_now + 50 * Second)%Z, TReconcileExpired)] demo_executed.2 51 x2
    demo_executed_wf Ho2 (succeeded_sent _ Fs)) as X. rewrite tool_run_one in X. exact (proj2 (proj2 X) demo_certificate demo_request Hq).
Defined.

Lemma run_within_limits_witness :
  ∃ r, runs (w_db demo_claimed) !! 28%N = Some r ∧ rn_provider_operations r = 3%Z ∧ within_limits (w_db demo_claimed) r.
Proof.
  destruct demo_outcomes as (resp & o & v & a & x1 & x2 & r1 & r2 & p & k & (He & Hr & Hv & Ha & Hb & Hc & Hz & Ho1 & Ho2 & Hq & Hr1 & Hr2 & Hp & Hk) & Fy & Fa & Fx & Fp & Fs & Fr & Fn).
  exists r1. refine (conj Hr1 (conj Fn _)). 
  pose proof (run_within_limits demo_platform [] demo_claimed 28 r1 demo_claimed_wf) as X. rewrite tool_run_nil in X. exact (proj1 (X Hr1)).
Defined.

Lemma approved_content_is_fixed_witness :
  ∃ p k p' k', profiles (w_db demo_claimed) !! 5%N = Some p ∧ packages (w_db demo_claimed) !! 10%N = Some k ∧ profile_le p p' ∧ package_le k k'.
Proof.
  destruct demo_outcomes as (resp & o & v & a & x1 & x2 & r1 & r2 & p & k & (He & Hr & Hv & Ha & Hb & Hc & Hz & Ho1 & Ho2 & Hq & Hr1 & Hr2 & Hp & Hk) & Fy & Fa & Fx & Fp & Fs & Fr & Fn).
  destruct (approved_content_is_fixed demo_platform [(demo_later, TReconcileExpired)] demo_claimed 5 p 10 k demo_claimed_wf Hp Hk)
    as (p' & k' & _ & _ & Lp & Lk & _). exists p, k, p', k'. exact (conj Hp (conj Hk (conj Lp Lk))).
Defined.

Lemma ended_run_stays_ended_witness :
  over (w_db (tool_run demo_platform [(demo_later, TReconcileExpired)] demo_cancelled.2)) 28.
Proof.
  destruct demo_outcomes as (resp & o & v & a & x1 & x2 & r1 & r2 & p & k & (He & Hr & Hv & Ha & Hb & Hc & Hz & Ho1 & Ho2 & Hq & Hr1 & Hr2 & Hp & Hk) & Fy & Fa & Fx & Fp & Fs & Fr & Fn).
  exact (proj1 (ended_run_stays_ended demo_platform [(demo_later, TReconcileExpired)] demo_cancelled.2 28 r2 Hr2 (cancelled_dead _ Fr))).
Defined.

Lemma executed_result_reads_witness :
  ∃ resp o, demo_executed.1 = Ok resp ∧ demo_result.1 = Ok o ∧ o_Result o = Some (y_Result resp).
Proof.
  destruct demo_outcomes as (resp & o & v & a & x1 & x2 & r1 & r2 & p & k & (He & Hr & Hv & Ha & Hb & Hc & Hz & Ho1 & Ho2 & Hq & Hr1 & Hr2 & Hp & Hk) & Fy & Fa & Fx & Fp & Fs & Fr & Fn).
  exists resp, o. refine (conj He (conj Hr _)).
  pose proof demo_executed_run as X. pose proof demo_result_run as Y. rewrite He in X. rewrite Hr, <-Hq in Y.
  pose proof (executed_result_reads demo_platform _ _ _ _ _ [((demo_now + 50 * Second)%Z, TReconcileExpired)] demo_agent "cli" demo_result.2 o X)
    as Z. rewrite tool_run_one in Z. exact (Z Y).
Defined.

Lemma execution_under_current_authority_witness : may_execute demo_platform (w_now demo_claimed) demo_certificate demo_request (w_db demo_claimed).
Proof.
  destruct demo_outcomes as (resp & o & v & a & x1 & x2 & r1 & r2 & p & k & (He & Hr & Hv & Ha & Hb & Hc & Hz & Ho1 & Ho2 & Hq & Hr1 & Hr2 & Hp & Hk) & Fy & Fa & Fx & Fp & Fs & Fr & Fn).
  pose proof demo_executed_run as X. rewrite He in X.
  destruct (execution_under_current_authority demo_platform _ _ _ _ _ X) as [(e & [=] & _)|[M _]]. exact M.
Defined.

Lemma Status_terminates_witness :
  ∃ v, demo_status.1 = Ok v ∧ answered (100 * Millisecond) (w_now demo_claimed + 100 * Millisecond) (w_now demo_status.2) (Ok v).
Proof.
  destruct demo_outcomes as (resp & o & v & a & x1 & x2 & r1 & r2 & p & k & (He & Hr & Hv & Ha & Hb & Hc & Hz & Ho1 & Ho2 & Hq & Hr1 & Hr2 & Hp & Hk) & Fy & Fa & Fx & Fp & Fs & Fr & Fn).
  exists v. refine (conj Hv _).
  pose proof demo_status_run as X. rewrite Hv in X. exact (proj1 (Status_terminates demo_platform _ _ _ _ _ _ _ X)).
Defined.

Lemma request_key_names_one_operation_witness :
  demo_other.1 = Err ErrConflict ∧ w_db demo_other.2 = w_db demo_again.2.
Proof.
  destruct demo_outcomes as (resp & o & v & a & x1 & x2 & r1 & r2 & p & k & (He & Hr & Hv & Ha & Hb & Hc & Hz & Ho1 & Ho2 & Hq & Hr1 & Hr2 & Hp & Hk) & Fy & Fa & Fx & Fp & Fs & Fr & Fn).
  refine (conj Hb _).
  pose proof demo_again_run as X. pose proof demo_other_run as Y. rewrite Ha in X.
  pose proof (request_key_names_one_operation demo_platform _ _ _ _ _ _ _ _ _ [] demo_agent "cli" "read_file" (mkArguments "README.md")
    demo_other.1 demo_other.2 demo_claimed_wf X) as Z. rewrite tool_run_nil in Z. exact (proj1 (Z Y)).
Defined.

Lemma archive_ends_runs_witness : over (w_db (tool_run demo_platform [(demo_later, TClaim demo_certificate demo_image)] demo_archived.2)) 28.
Proof.
  destruct demo_outcomes as (resp & o & v & a & x1 & x2 & r1 & r2 & p & k & (He & Hr & Hv & Ha & Hb & Hc & Hz & Ho1 & Ho2 & Hq & Hr1 & Hr2 & Hp & Hk) & Fy & Fa & Fx & Fp & Fs & Fr & Fn).
  pose proof demo_archived_run as X. rewrite Hz in X.
  exact (proj1 (archive_ends_runs demo_platform _ _ _ _ [(demo_later, TClaim demo_certificate demo_image)] X) _ _ Hr1 Fp).
Defined.
End Witnesses.
