(* ===== verification/Passwords.v ===== *)
(** * Passwords

    [internal/auth/password_policy.go] and [password.go].  The bcrypt library is a
    parameter. *)
From S2P Require Import Prelude GoStrings GoEncoding GoNet GoStruct GoUnicode Schema Database Crypto.

(** ** Definitions *)

(** [bcrypt.GenerateFromPassword], with its salt from a position of the random
    stream, and [bcrypt.CompareHashAndPassword]. *)
Class Bcrypt := {
  bcrypt_Generate : N → string → option string;
  bcrypt_Compare : string → string → bool;
}.

Record PasswordPolicy := mkPasswordPolicy {
  MinLength : Z;
  RequireUppercase : bool;
  RequireLowercase : bool;
  RequireDigit : bool;
  RequireSpecial : bool;
}.
Definition DefaultPasswordPolicy : PasswordPolicy := mkPasswordPolicy 8 true true true true.

Section Policy.
Context `{UC : Unicode}.

(** The classes a password has shown so far. *)
Record classes := mkClasses { hasUpper : bool; hasLower : bool; hasDigit : bool; hasSpecial : bool }.
Definition classify (c : classes) (r : Z) : classes :=
  if IsUpper r then mkClasses true (hasLower c) (hasDigit c) (hasSpecial c)
  else if IsLower r then mkClasses (hasUpper c) true (hasDigit c) (hasSpecial c)
  else if IsDigit r then mkClasses (hasUpper c) (hasLower c) true (hasSpecial c)
  else if IsPunct r || IsSymbol r then mkClasses (hasUpper c) (hasLower c) (hasDigit c) true
  else c.
Definition classes_of (password : string) : classes :=
  foldl (λ c rb, classify c rb.1) (mkClasses false false false false) (runes password).

Definition missing (p : PasswordPolicy) (c : classes) : list string :=
  (if RequireUppercase p && negb (hasUpper c) then ["uppercase letter"] else [])
  ++ (if RequireLowercase p && negb (hasLower c) then ["lowercase letter"] else [])
  ++ (if RequireDigit p && negb (hasDigit c) then ["digit"] else [])
  ++ (if RequireSpecial p && negb (hasSpecial c) then ["special character"] else []).
Definition Validate (p : PasswordPolicy) (password : string) : result unit :=
  if (Z.of_nat (String.length password) <? MinLength p)%Z
  then Err (Errorf ("password must be at least " +:+ pretty (MinLength p) +:+ " characters"))
  else match missing p (classes_of password) with
       | [] => Ok ()
       | l => Err (Errorf ("password must contain at least one: " +:+ Join l ", "))
       end.

Definition PasswordStrength (password : string) : Z :=
  let c := classes_of password in
  (if 8 <=? String.length password then 1 else 0) + (if 12 <=? String.length password then 1 else 0)
  + (if hasUpper c && hasLower c then 1 else 0) + (if hasDigit c && hasSpecial c then 1 else 0).
End Policy.

Section Bcrypt.
Context `{BC : Bcrypt}.

Definition HashPassword (password : string) : Tx string := λ w,
  (match bcrypt_Generate (w_rng w) password with
   | Some h => Ok h
   | None => Err (Wrapf "hashing password" (Sentinel "bcrypt"))
   end, upd_w_rng N.succ w).
Definition CheckPassword (password hash : string) : bool := bcrypt_Compare hash password.
End Bcrypt.
