(* ===== verification/Identity.v ===== *)
(** * The identity platform: contacts, proofs and sign-in methods

    [internal/identity/service.go], and the revocation of a recovered account's
    delegations in [internal/repository/session_delegations.go].  A proof is a
    secret sent to a contact; holding it confirms the contact, resets the password
    or accepts an invitation, once.  The guard, the auditor, the custody of mail
    and the two hooks are functions the service is given ([Service]).  Sorting by
    text is in byte order; the deadline of a transaction is not modelled. *)
From S2P Require Import Prelude GoStrings GoEncoding GoNet GoStruct GoUnicode Policy Schema Database Crypto Jobs Authority AuditLog VaultStore Vault Passwords.

(** ** Definitions *)

Definition ErrUnavailable : error := Sentinel "identity platform unavailable".
Definition ErrDenied : error := Sentinel "identity authority denied".
Definition ErrInvalid : error := Sentinel "invalid identity request".
Definition ErrProof : error := Sentinel "invalid or expired proof".
Definition ErrConflict : error := Sentinel "identity revision conflict".
Definition ErrLastMethod : error := Sentinel "last usable sign-in method".

Record Config := mkConfig {
  cf_Enabled : bool;
  cf_PostgreSQL : bool;
  SMTPConfigured : bool;
  ApplicationOrigin : string;
  EnabledSocialProviders : gmap string bool;
}.
Record DeliveryOutcome := mkOutcome {
  do_State : string;
  do_Reason : string;
}.
Record Guard := mkGuard {
  gd_LockSubjects : list uuid → bool → Tx unit;
  gd_RequireSession : Principal → bool → Tx unit;
  gd_RequireOrg : Principal → uuid → string → Tx unit;
}.
Record ProofCustody := mkCustody {
  pc_Seal : string → Tx (string * string);
  pc_WithOpened : string → string → (string → Tx DeliveryOutcome) → Tx DeliveryOutcome;
}.
Abbreviation Cascade := (uuid → uuid → Tx Z).
Abbreviation RecoveryDelegations := (uuid → Tx unit).

(** [identity.Service]; a nil port is [None], the database is never nil. *)
Record Service := mkService {
  sv_config : Config;
  sv_audit : option Auditor;
  sv_custody : option ProofCustody;
  sv_guard : option Guard;
  sv_cascade : option Cascade;
  sv_recoveryDelegations : option RecoveryDelegations;
}.

(** *** The tables *)

Definition password_hashes (db : DB) := t_password_hashes (db_accounts db).
Definition organization_owners (db : DB) := t_organization_owners (db_accounts db).
Definition session_details (db : DB) := t_session_details (db_accounts db).
Definition social_identities (db : DB) := t_social_identities (db_accounts db).
Definition social_auth_flows (db : DB) := t_social_auth_flows (db_accounts db).
Definition contacts (db : DB) := t_identity_verified_contacts (db_accounts db).
Definition proofs (db : DB) := t_identity_proofs (db_accounts db).
Definition deliveries (db : DB) := t_identity_proof_deliveries (db_accounts db).
Definition invitations (db : DB) := t_identity_invitations (db_accounts db).
Definition offboardings (db : DB) := t_identity_offboarding_receipts (db_accounts db).
Definition previews (db : DB) := t_identity_offboarding_previews (db_accounts db).

Definition on_accounts (g : AccountDB → AccountDB) : DB → DB := upd_db_accounts g.
Definition on_sessions (g : gmap uuid session_row → gmap uuid session_row) : DB → DB :=
  upd_db_identity (upd_t_session_tokens g).

Definition set_consumed (t : time) (p : proof_row) : proof_row :=
  mkProofRow (ip_user_id p) (ip_session_id p) (ip_purpose p) (ip_contact p) (ip_proof_hash p) (ip_expires_at p)
    true (Some t) (ip_revoked p) (ip_attempts p) (ip_created_at p).
Definition set_revoked (p : proof_row) : proof_row :=
  mkProofRow (ip_user_id p) (ip_session_id p) (ip_purpose p) (ip_contact p) (ip_proof_hash p) (ip_expires_at p)
    (ip_consumed p) (ip_consumed_at p) true (ip_attempts p) (ip_created_at p).
(** [attempts=attempts+1,revoked=(attempts+1>=5)]; both read the old row. *)
Definition set_rejected (p : proof_row) : proof_row :=
  mkProofRow (ip_user_id p) (ip_session_id p) (ip_purpose p) (ip_contact p) (ip_proof_hash p) (ip_expires_at p)
    (ip_consumed p) (ip_consumed_at p) (5 <=? ip_attempts p + 1)%Z (ip_attempts p + 1) (ip_created_at p).
Definition revoke_session (r : session_row) : session_row :=
  mkSession (se_user_id r) true (se_created_at r) (se_expires_at r).

Definition consume_proof (id : uuid) (t : time) : DB → DB := on_accounts (upd_t_identity_proofs (alter (set_consumed t) id)).
(** The [CHECK] on attempts refuses a sixth. *)
Definition reject_proof (id : uuid) (db : DB) : option DB :=
  if match proofs db !! id with Some p => (5 <? ip_attempts p + 1)%Z | None => false end then None
  else Some (on_accounts (upd_t_identity_proofs (alter set_rejected id)) db).
Definition revoke_proofs (sel : uuid → proof_row → bool) : DB → DB :=
  on_accounts (upd_t_identity_proofs (update_where sel set_revoked)).
Definition revoke_sessions (sel : uuid → session_row → bool) : DB → DB := on_sessions (update_where sel revoke_session).

Definition purposes : list string := ["contact_verify"; "password_reset"; "invitation"].
Definition insert_proof (id : uuid) (p : proof_row) (db : DB) : option DB :=
  if bool_decide (is_Some (proofs db !! id)) || bool_decide (ip_user_id p ∉ users db)
     || match ip_session_id p with Some s => bool_decide (sessions db !! s = None) | None => false end
     || negb (bool_decide (ip_purpose p ∈ purposes)) || negb (varchar 254 (ip_contact p))
     || bool_decide (map_Exists (λ _ q, ip_proof_hash q = ip_proof_hash p) (proofs db))
  then None else Some (on_accounts (upd_t_identity_proofs <[id := p]>) db).
Definition insert_delivery (id : uuid) (d : delivery_row) (db : DB) : option DB :=
  if bool_decide (is_Some (deliveries db !! id)) || bool_decide (proofs db !! pd_proof_id d = None)
     || bool_decide (map_Exists (λ _ e, pd_proof_id e = pd_proof_id d) (deliveries db))
  then None else Some (on_accounts (upd_t_identity_proof_deliveries <[id := d]>) db).

(** The live holder of a contact, whom the partial unique index makes the only one. *)
Definition active_contact (user : uuid) (contact : string) (db : DB) : bool :=
  match contacts db !! (user, contact) with Some c => bool_decide (vc_revoked_at c = None) | None => false end.
Definition contact_holders (contact : string) (db : DB) : list uuid :=
  merge_sort N.le (map (λ kv, kv.1.1) (filter (λ kv, kv.1.2 = contact ∧ vc_revoked_at kv.2 = None) (map_to_list (contacts db)))).
Definition contact_holder (contact : string) (db : DB) : option uuid := head (contact_holders contact db).
(** [INSERT ... ON CONFLICT(user_id,contact) DO UPDATE SET verified_at=NOW(),revoked_at=NULL]. *)
Definition verify_contact (user : uuid) (contact : string) (t : time) (db : DB) : option DB :=
  if bool_decide (user ∉ users db) || negb (varchar 254 contact)
     || existsb (λ u, negb (bool_decide (u = user))) (contact_holders contact db)
  then None
  else Some (on_accounts (upd_t_identity_verified_contacts <[(user, contact) := mkContactRow t None]>) db).

(** [ORDER BY] a text. *)
Definition text_le (a b : string) : Prop := String.leb a b = true.
#[export] Instance text_le_dec : RelDecision text_le.
Proof. intros a b. unfold text_le. apply _. Defined.

Definition earlier_contact (a b : uuid * string * contact_row) : Prop := text_le a.1.2 b.1.2.
#[export] Instance earlier_contact_dec : RelDecision earlier_contact.
Proof. intros a b. unfold earlier_contact. apply _. Defined.

(** *** Proofs *)

Section Hash.
Context `{P : Primitives}.

Definition hashProof (raw : string) : string := hex_EncodeToString (sha256 raw).
Definition randomProof : Tx string := b ← rand_bytes 32; mret (b64_Encode b).
End Hash.

Section Contact.
Context `{UC : Unicode} `{ML : MailAddress}.

Definition validContact (value : string) : result string :=
  let value := ToLower (TrimSpace value) in
  if (254 <? Z.of_nat (String.length value))%Z || ContainsAny value ["013"; "010"]%char then Err ErrInvalid
  else match mail_ParseAddress value with
       | Some address => if bool_decide (address = value) then Ok value else Err ErrInvalid
       | None => Err ErrInvalid
       end.
End Contact.

Record ProofRequest := mkProofRequest {
  rq_ID : uuid;
  rq_Status : string;
}.
Definition proofMessage_json (contact url purpose : string) : json :=
  JObj [("contact", JStr contact); ("url", JStr url); ("purpose", JStr purpose)].

Record Method := mkMethod {
  m_Name : string;
  m_Usable : bool;
}.
Record Contact := mkContact {
  ct_Contact : string;
  ct_VerifiedAt : time;
}.

Definition strings_obj (refs : list (string * string)) : json := mk_obj (map (λ kv, (kv.1, JStr kv.2)) refs).

(** A call of a port; where it is nil the code would panic. *)
Definition port {F A} (o : option F) (call : F → Tx A) : Tx A :=
  match o with Some f => call f | None => fail (Errorf "runtime error: nil pointer dereference") end.

(** [loadProof]. *)
Definition loadProof (id : uuid) (lock : bool) : Tx proof_row :=
  p ← query_row (λ db, proofs db !! id);
  _ ← (if lock then note_lock (LockToolRow "identity_proofs" id) else mret ());
  mret p.

(** What makes a proof usable, its secret aside. *)
Definition proof_open (t : time) (p : proof_row) : bool :=
  negb (ip_consumed p) && negb (ip_revoked p) && After (ip_expires_at p) t && (ip_attempts p <? 5)%Z.

(** *** The methods of an account *)

Definition usable_password (hash : string) : bool := HasPrefix hash "$2".
Definition user_password (user : uuid) (db : DB) : option string :=
  if decide (user ∈ users db) then Some (default "" (password_hashes db !! user)) else None.
Definition linked_providers (user : uuid) (db : DB) : list string :=
  merge_sort text_le (map (λ kv, kv.1.1) (filter (λ kv, si_user_id kv.2 = user) (map_to_list (social_identities db)))).
Definition method_list (cfg : Config) (user : uuid) (db : DB) : option (list Method) :=
  hash ← user_password user db;
  Some (mkMethod "password" (usable_password hash)
        :: map (λ name, mkMethod name (default false (EnabledSocialProviders cfg !! name))) (linked_providers user db)).

(** What [RemoveMethod] looks for in the list: is a usable method left, is the
    named one there, and is one that is left the one the session signed in with. *)
Record method_check := mkMethodCheck { mc_remains : bool; mc_found : bool; mc_proved : bool }.
Definition check_method (name authenticated : string) (c : method_check) (m : Method) : method_check :=
  if bool_decide (m_Name m = name) then mkMethodCheck (mc_remains c) true (mc_proved c)
  else if m_Usable m then
    mkMethodCheck true (mc_found c) (mc_proved c || bool_decide (m_Name m = authenticated))
  else c.

(** [DELETE FROM social_identities WHERE user_id=$1 AND provider=$2]. *)
Definition unlink (user : uuid) (provider : string) : DB → DB :=
  on_accounts (upd_t_social_identities (delete_where (λ k r, bool_decide (si_user_id r = user) && bool_decide (k.1 = provider)))).
Definition set_password (user : uuid) (hash : string) (db : DB) : DB :=
  if decide (user ∈ users db) then on_accounts (upd_t_password_hashes <[user := hash]>) db else db.

(** *** The operations *)

Section Identity.
Context `{P : Primitives} `{NU : NetURL} `{UC : Unicode} `{ML : MailAddress} `{BC : Bcrypt} (s : Service).

Definition Enabled : bool :=
  cf_Enabled (sv_config s) && cf_PostgreSQL (sv_config s) && bool_decide (is_Some (sv_audit s)) && bool_decide (is_Some (sv_guard s)).

(** [transaction]: the two [SET LOCAL] are one statement. *)
Definition transaction {A} (fn : Tx A) : Tx A :=
  if negb Enabled then fail ErrUnavailable else with_tx (_ ← exec_ (λ db, db); fn).

Definition LockSubjects (ids : list uuid) (exclusive : bool) : Tx unit :=
  port (sv_guard s) (λ g, gd_LockSubjects g ids exclusive).
Definition RequireSession (p : Principal) (recent : bool) : Tx unit := port (sv_guard s) (λ g, gd_RequireSession g p recent).
Definition RequireOrg (p : Principal) (org : uuid) (role : string) : Tx unit := port (sv_guard s) (λ g, gd_RequireOrg g p org role).
Definition record (user : uuid) (action : string) (details : list (string * string)) : Tx unit :=
  port (sv_audit s) (λ CreateTx, CreateTx (Some user) None action "" (strings_obj details) "").

(** A human principal that acts for itself. *)
Definition is_human (p : Principal) : bool :=
  bool_decide (p_Kind p = Human) && negb (bool_decide (p_SubjectID p = uuid_Nil)) && bool_decide (p_ActorID p = p_SubjectID p).

Definition actor (p : Principal) (targets : list uuid) (exclusive recent : bool) : Tx unit :=
  if negb (is_human p) then fail ErrDenied else
  _ ← on_err ErrDenied (LockSubjects (p_SubjectID p :: targets) exclusive);
  on_err ErrDenied (RequireSession p recent).

Definition event (user : uuid) (action : string) (refs : list (string * string)) : Tx unit :=
  _ ← record user action refs;
  id ← uuid_New;
  EnqueueTx id "identity.authority_changed" (Marshal (strings_obj refs)) "local" 5.

(** The origin links are built on: [https], a host and nothing else. *)
Definition origin_ok : bool :=
  match url_Parse (ApplicationOrigin (sv_config s)) with
  | None => false
  | Some o =>
      bool_decide (u_Scheme o = "https") && negb (bool_decide (u_Host o = "")) && bool_decide (u_User o = None)
      && bool_decide (u_Path o ∈ [""; "/"]) && bool_decide (u_RawQuery o = "") && bool_decide (u_Fragment o = "")
  end.
Definition proof_link (id : uuid) (purpose raw : string) : string :=
  TrimRight (ApplicationOrigin (sv_config s)) "/" +:+ "/identity/confirm#id=" +:+ uuid_String id +:+ "&purpose=" +:+ purpose
  +:+ "&proof=" +:+ raw.
Definition lifetime (purpose : string) : Z := if bool_decide (purpose = "invitation") then 24 * Hour else 15 * Minute.
Definition same_budget (user : uuid) (purpose : string) (p : proof_row) : bool :=
  bool_decide (ip_user_id p = user) && bool_decide (ip_purpose p = purpose).

Definition createProof (user session : uuid) (purpose contact : string) : Tx ProofRequest :=
  match sv_custody s with
  | None => fail ErrUnavailable
  | Some custody =>
      if negb (SMTPConfigured (sv_config s)) || negb origin_ok then fail ErrUnavailable else
      t ← now;
      count ← query (λ db, count_where (λ _ p, same_budget user purpose p && (t - Hour <? ip_created_at p)%Z) (proofs db));
      if (5 <=? count)%Z then fail ErrUnavailable else
      raw ← randomProof;
      id ← uuid_New;
      delivery ← uuid_New;
      sealed ← pc_Seal custody (Marshal (proofMessage_json contact (proof_link id purpose raw) purpose));
      _ ← (if bool_decide (purpose = "invitation") then mret () else
             exec_ (revoke_proofs (λ _ p, same_budget user purpose p && negb (ip_consumed p) && negb (ip_revoked p))));
      _ ← exec (insert_proof id (mkProofRow user (if bool_decide (session = uuid_Nil) then None else Some session) purpose contact
             (hashProof raw) (t + lifetime purpose)%Z false None false 0 t));
      _ ← exec (insert_delivery delivery (mkDeliveryRow id sealed.1 sealed.2 "pending" "" None None t));
      _ ← record user "identity.proof_requested" [("proof_id", uuid_String id); ("purpose", purpose)];
      job ← uuid_New;
      _ ← EnqueueTx job "identity.proof_delivery" (Marshal (strings_obj [("delivery_id", uuid_String delivery)])) "external" 1;
      mret (mkProofRequest id "pending")
  end.

Definition RequestContact (p : Principal) (contact : string) : Tx ProofRequest :=
  contact ← lift (validContact contact);
  transaction (
    _ ← actor p [] true true;
    createProof (p_SubjectID p) (p_SessionID p) "contact_verify" contact).

(** [RequestRecovery]: the answer is the same whether or not the contact is
    known. *)
Definition recover (contact : string) : Tx (option uuid) :=
  found ← query (contact_holder contact);
  match found with
  | None => mret None
  | Some user =>
      _ ← LockSubjects [user] true;
      current ← attempt (query_row (λ db, if active_contact user contact db then Some user else None));
      match current with
      | Err _ => mret None
      | Ok _ =>
          created ← attempt (createProof user uuid_Nil "password_reset" contact);
          match created with
          | Ok rq => mret (Some (rq_ID rq))
          | Err e => if errors_Is e "identity platform unavailable" then mret None else fail e
          end
      end
  end.
Definition RequestRecovery (contact : string) : Tx ProofRequest :=
  contact ← on_err ErrInvalid (lift (validContact contact));
  id ← uuid_New;
  found ← transaction (recover contact);
  mret (mkProofRequest (default id found) "accepted").

(** [consume]: true where the secret was wrong, which the transaction records. *)
Definition admit_proof (p : Principal) (purpose : string) (row : proof_row) : Tx unit :=
  if bool_decide (purpose = "contact_verify") then
    _ ← actor p [ip_user_id row] true false;
    if negb (bool_decide (p_SubjectID p = ip_user_id row)) || negb (bool_decide (ip_session_id row = Some (p_SessionID p)))
    then fail ErrProof else mret ()
  else LockSubjects [ip_user_id row] true.
Definition reject (user id : uuid) (purpose : string) : Tx unit :=
  _ ← exec (reject_proof id);
  event user "identity.proof_rejected" [("proof_id", uuid_String id); ("purpose", purpose)].
Definition consume_body (p : Principal) (id : uuid) (raw purpose : string) (apply : proof_row → Tx unit) : Tx bool :=
  row ← on_err ErrProof (loadProof id false);
  _ ← admit_proof p purpose row;
  row ← on_err ErrProof (loadProof id true);
  t ← now;
  if negb (bool_decide (ip_purpose row = purpose)) || negb (proof_open t row) then fail ErrProof else
  if negb (bool_decide (hashProof raw = ip_proof_hash row)) then
    _ ← reject (ip_user_id row) id purpose;
    mret true
  else
    _ ← apply row;
    _ ← exec_ (consume_proof id t);
    _ ← event (ip_user_id row) "identity.proof_consumed"
          [("proof_id", uuid_String id); ("purpose", purpose); ("user_id", uuid_String (ip_user_id row))];
    mret false.
Definition consume (p : Principal) (id : uuid) (raw purpose : string) (apply : proof_row → Tx unit) : Tx unit :=
  if bool_decide (id = uuid_Nil) || negb (String.length raw =? 43) then fail ErrProof else
  rejected ← transaction (consume_body p id raw purpose apply);
  if (rejected : bool) then fail ErrProof else mret ().

Definition confirm_contact (row : proof_row) : Tx unit :=
  t ← now;
  other ← query (contact_holder (ip_contact row));
  if match other with Some u => negb (bool_decide (u = ip_user_id row)) | None => false end then fail ErrConflict else
  exec (verify_contact (ip_user_id row) (ip_contact row) t).
Definition ConfirmContact (p : Principal) (id : uuid) (raw : string) : Tx unit :=
  consume p id raw "contact_verify" confirm_contact.

(** The principal of a request that carries none. *)
Definition nobody : Principal := mkPrincipal "" uuid_Nil uuid_Nil uuid_Nil uuid_Nil 0 uuid_Nil uuid_Nil "".

Definition reset_password (hashed : string) (row : proof_row) (id : uuid) : Tx unit :=
  verified ← query (active_contact (ip_user_id row) (ip_contact row));
  if negb (verified : bool) then fail ErrProof else
  _ ← port (sv_recoveryDelegations s) (λ f, f (ip_user_id row));
  _ ← exec_ (set_password (ip_user_id row) hashed);
  _ ← exec_ (revoke_sessions (λ _ r, bool_decide (se_user_id r = ip_user_id row)));
  _ ← exec_ (on_accounts (upd_t_social_auth_flows (delete_where (λ _ f, bool_decide (sf_link_user_id f = Some (ip_user_id row))))));
  exec_ (revoke_proofs (λ k p, bool_decide (ip_user_id p = ip_user_id row) && negb (bool_decide (k = id)) && negb (ip_consumed p))).
Definition ResetPassword (id : uuid) (raw password : string) : Tx unit :=
  if bool_decide (sv_recoveryDelegations s = None) then fail ErrUnavailable else
  if (72 <? String.length password) then fail ErrInvalid else
  _ ← on_err ErrInvalid (lift (Validate DefaultPasswordPolicy password));
  hashed ← HashPassword password;
  consume nobody id raw "password_reset" (λ row, reset_password hashed row id).

Definition Contacts (p : Principal) : Tx (list Contact) :=
  transaction (
    _ ← actor p [] false false;
    query (λ db, map (λ kv, mkContact kv.1.2 (vc_verified_at kv.2))
      (take 20 (merge_sort earlier_contact
        (filter (λ kv, kv.1.1 = p_SubjectID p ∧ vc_revoked_at kv.2 = None) (map_to_list (contacts db))))))).

Definition methodsTx (user : uuid) : Tx (list Method) :=
  hash ← query_row (user_password user);
  names ← query (linked_providers user);
  mret (mkMethod "password" (usable_password hash)
        :: map (λ name, mkMethod name (default false (EnabledSocialProviders (sv_config s) !! name))) names).
Definition Methods (p : Principal) : Tx (list Method) :=
  transaction (_ ← actor p [] false false; methodsTx (p_SubjectID p)).

Definition session_method (user session : uuid) (db : DB) : option string :=
  r ← sessions db !! session;
  if bool_decide (se_user_id r = user)
  then Some (match session_details db !! session with Some d => sd_auth_method d | None => "unknown" end) else None.
Definition RemoveMethod (p : Principal) (name : string) : Tx unit :=
  if negb (bool_decide (name ∈ ["password"; "google"; "github"])) then fail ErrInvalid else
  transaction (
    _ ← actor p [] true true;
    methods ← methodsTx (p_SubjectID p);
    authenticated ← query_row (session_method (p_SubjectID p) (p_SessionID p));
    let c := foldl (check_method name authenticated) (mkMethodCheck false false false) methods in
    if negb (mc_found c) then fail ErrInvalid else
    if negb (mc_remains c) then fail ErrLastMethod else
    if negb (mc_proved c) then fail ErrDenied else
    _ ← (if bool_decide (name = "password") then exec_ (set_password (p_SubjectID p) "!")
         else exec_ (unlink (p_SubjectID p) name));
    _ ← exec_ (revoke_sessions (λ k r, bool_decide (se_user_id r = p_SubjectID p) && negb (bool_decide (k = p_SessionID p))));
    event (p_SubjectID p) "identity.method_removed" [("method", name); ("user_id", uuid_String (p_SubjectID p))]).
End Identity.
