(* ===== verification/Sessions.v ===== *)
(** * Human sessions and token validation

    [internal/service/session_service.go] over [repository/session_repo.go] and
    [session_delegations.go], and [ValidateToken] of [internal/auth/auth.go]: a
    sign-in issues a token bound to a session row, a token is accepted only while
    its row is live, and a revocation is one transaction behind the user's
    barrier.  The JWT library and [unicode.IsPrint] are parameters. *)
From S2P Require Import Prelude GoStrings GoEncoding GoStrconv GoNet Policy Schema Database Crypto Jobs Authority AuditLog VaultStore Vault ApiKeys Grants Passwords Identity.

(** ** Definitions *)

Definition ErrSessionInvalid : error := Sentinel "invalid or expired human session".
Definition ErrSessionUnavailable : error := Sentinel "human session authority unavailable".
Definition ErrRecentAuthentication : error := Sentinel "recent authentication required".
Definition RecentAuthenticationWindow : Z := 10 * Minute.

(** [service.SessionService]; its repository and database are never nil. *)
Record SessionService := mkSessionService {
  ss_jwt : JWTService;
  ss_audit : option AuditRepository;
  ss_dialect : DBType;
}.
Record SessionView := mkSessionView {
  sw_ID : uuid;
  sw_Current : bool;
  sw_CreatedAt : time;
  sw_ExpiresAt : time;
  sw_Status : string;
  sw_IPAddress : string;
  sw_UserAgent : string;
}.

(** *** The rows *)

Definition take_bytes (n : nat) (s : string) : string := String.substring 0 n s.
Definition session_detail (db : DB) (id : uuid) : session_detail_row :=
  default (mkSessionDetail "" "unknown" "" "") (session_details db !! id).
Definition insert_session (id : uuid) (r : session_row) (d : session_detail_row) (db : DB) : option DB :=
  if bool_decide (is_Some (sessions db !! id)) || bool_decide (se_user_id r ∉ users db)
     || bool_decide (map_Exists (λ _ e, sd_token_hash e = sd_token_hash d) (session_details db))
     || negb (varchar 64 (sd_token_hash d)) || negb (varchar 45 (sd_ip_address d)) || negb (varchar 500 (sd_user_agent d))
  then None
  else Some (on_accounts (upd_t_session_details <[id := d]>) (on_sessions <[id := r]> db)).
Definition with_method (m : string) (d : session_detail_row) : session_detail_row :=
  mkSessionDetail (sd_token_hash d) m (sd_ip_address d) (sd_user_agent d).
Definition own_session (user id : uuid) (db : DB) : option session_row :=
  r ← sessions db !! id; if bool_decide (se_user_id r = user) then Some r else None.

Definition newest_session (a b : uuid * session_row) : Prop := (se_created_at b.2 <= se_created_at a.2)%Z.
#[export] Instance newest_session_dec : RelDecision newest_session.
Proof. intros a b. unfold newest_session. apply _. Defined.

(** [errors.Is(err, sql.ErrNoRows)] is one error and the rest another. *)
Definition row_or {A} (none other : error) (m : Tx A) : Tx A := λ w,
  match m w with
  | (Err e, w') => (Err (if errors_Is e ErrNoRows then none else other), w')
  | r => r
  end.

Section Repository.
Context (Dialect : DBType).

Definition CreateTx (id user : uuid) (hash : string) (expires : time) (ip ua : string) : Tx unit :=
  t ← now;
  exec (insert_session id (mkSession user false t expires)
    (mkSessionDetail hash "unknown" (if 45 <? String.length ip then "" else ip)
       (if (500 <? N.of_nat (String.length ua))%N then take_bytes 500 ua else ua))).
Definition Check (id user : uuid) (hash : string) (tokenExpiry : time) : Tx unit :=
  row ← row_or ErrSessionInvalid ErrSessionUnavailable
          (query_row (λ db, r ← own_session user id db; if decide (user ∈ users db) then Some (sd_token_hash (session_detail db id), r) else None));
  t ← now;
  let '(storedHash, r) := (row : string * session_row) in
  if se_revoked r || negb (bool_decide (storedHash = hash)) || negb (After (se_expires_at r) t)
     || negb (se_expires_at r =? tokenExpiry)%Z
  then fail ErrSessionInvalid else mret ().
Definition LockActiveTx (user id : uuid) (recent : bool) : Tx unit :=
  r ← row_or ErrSessionInvalid ErrSessionUnavailable (query_row (own_session user id));
  _ ← g_lock Dialect (LockSession id);
  t ← now;
  if se_revoked r || negb (After (se_expires_at r) t) then fail ErrSessionInvalid
  else if recent && (RecentAuthenticationWindow <? t - se_created_at r)%Z then fail ErrRecentAuthentication
  else mret ().
Definition LockRevocationTargetsTx (user : uuid) (ids : list uuid) : Tx unit :=
  if bool_decide (uuid_Nil ∈ ids) then fail ErrSessionInvalid else
  for_each (sorted_set ids) (λ id,
    _ ← row_or (Sentinel ErrNoRows) ErrSessionUnavailable (query_row (own_session user id));
    g_lock Dialect (LockSession id)).
(** [ORDER BY created_at DESC LIMIT 100]. *)
Definition ListSessions (user : uuid) : Tx (list (uuid * session_row * session_detail_row)) :=
  query (λ db, map (λ kr, (kr, session_detail db kr.1))
    (take 100 (merge_sort newest_session (select (λ _ r, bool_decide (se_user_id r = user)) (sessions db))))).
Definition RevokeTx (user id : uuid) : Tx bool :=
  r ← query_row (own_session user id);
  _ ← g_lock Dialect (LockSession id);
  if se_revoked r then mret false else
  _ ← exec_ (revoke_sessions (λ k r, bool_decide (k = id) && bool_decide (se_user_id r = user)));
  mret true.

(** *** [RevokeRecoveryDelegationsTx] *)

Definition key_of (user : uuid) (k : api_key_row) : bool := bool_decide (ak_user_id k = user).
Definition lease_of (user : uuid) (db : DB) (l : lease_row) : bool :=
  match api_keys db !! le_api_key_id l with Some k => key_of user k | None => false end.
Definition token_of (user : uuid) (db : DB) (i : issuance_row) : bool :=
  bool_decide (is_user_id i = user)
  || match leases db !! is_lease_id i with Some l => lease_of user db l | None => false end.
(** [LEAST(COALESCE(expires_at,NOW()),NOW())]. *)
Definition expire_key (t : time) (k : api_key_row) : api_key_row :=
  mkAPIKey (ak_user_id k) (ak_project_id k) (ak_scopes k) (ak_environment k) (Some (Z.min (default t (ak_expires_at k)) t))
    (ak_name k) (ak_hashed_key k) (ak_created_at k).
Definition end_lease (t : time) (l : lease_row) : lease_row :=
  mkLease (le_api_key_id l) (le_project_id l) (le_environment l) (le_secret_keys l) (le_granted_at l) (le_expires_at l) true
    (Some (default t (le_revoked_at l))).
Definition expire_keys (user : uuid) (t : time) : DB → DB :=
  upd_db_projects (upd_t_api_keys (update_where (λ _ k, key_of user k) (expire_key t))).
Definition end_leases (user : uuid) (t : time) (db : DB) : DB :=
  upd_db_projects (upd_t_secret_leases (update_where (λ _ l, lease_of user db l) (end_lease t))) db.
(** [ON CONFLICT(jti) DO UPDATE SET expires_at=GREATEST(...)]. *)
Definition recovery_denial (old : option denied_row) (i : issuance_row) : denied_row :=
  match old with
  | Some d => mkDenied (de_lease_id d) (Z.max (de_expires_at d) (is_expires_at i)) (de_reason d)
  | None => mkDenied (Some (is_lease_id i)) (is_expires_at i) "password_recovery"
  end.
Definition deny_tokens (user : uuid) (db : DB) : DB :=
  upd_db_projects (upd_t_token_denylist (λ den,
    map_imap (λ jti i, if token_of user db i then Some (recovery_denial (den !! jti) i) else None) (issuance db) ∪ den)) db.

Definition jti_le (a b : string * issuance_row) : Prop := text_le a.1 b.1.
#[export] Instance jti_le_dec : RelDecision jti_le.
Proof. intros a b. unfold jti_le. apply _. Defined.
Definition RevokeRecoveryDelegationsTx (user : uuid) : Tx unit :=
  if negb (bool_decide (Dialect = DBTypePostgres)) || bool_decide (user = uuid_Nil) then fail ErrSessionUnavailable else
  t ← now;
  ks ← query (λ db, map fst (select (λ _ k, key_of user k) (api_keys db)));
  _ ← for_each ks (λ k, note_lock (LockAPIKey k));
  ls ← query (λ db, map fst (select (λ _ l, lease_of user db l) (leases db)));
  _ ← for_each ls (λ l, note_lock (LockLease l));
  ts ← query (λ db, map fst (merge_sort jti_le (filter (λ kv, token_of user db kv.2 = true) (map_to_list (issuance db)))));
  _ ← for_each ts (λ j, note_lock (LockToken j));
  _ ← exec_ (expire_keys user t);
  _ ← exec_ (end_leases user t);
  exec_ (deny_tokens user).
End Repository.

(** *** The service *)

Section Service.
Context `{J : JWT} `{P : Primitives} `{U : UUIDParse} (s : SessionService).

Definition RevokeDelegationsForRecoveryTx (user : uuid) : Tx unit := RevokeRecoveryDelegationsTx (ss_dialect s) user.

Definition CheckHumanSession (c : Claims) (raw : string) : Tx unit :=
  match uuid_Parse (c_SessionID c), c_ExpiresAt c with
  | Some id, Some expires =>
      if bool_decide (id = uuid_Nil) || negb (bool_decide (c_ID c = c_SessionID c)) then fail ErrSessionInvalid
      else Check id (c_UserID c) (HashAPIKey raw) expires
  | _, _ => fail ErrSessionInvalid
  end.
Definition RequireActiveTx (user id : uuid) : Tx unit := LockActiveTx (ss_dialect s) user id false.
Definition RequireRecentTx (user id : uuid) : Tx unit := LockActiveTx (ss_dialect s) user id true.
Definition RequireRecent (user id : uuid) : Tx unit :=
  with_tx_or ErrSessionUnavailable (_ ← RequireRecentTx user id; mret ((), false)).

(** [GenerateSessionToken]. *)
Definition GenerateSessionToken (userID : uuid) (email : string) (sid : uuid) (expires : time) : Tx string :=
  t ← now;
  if bool_decide (userID = uuid_Nil) || bool_decide (sid = uuid_Nil) || negb (After expires t) || After expires (t + 24 * Hour)%Z
  then fail (Errorf "invalid human session")
  else lift (signClaims (ss_jwt s) (mkClaims userID email (uuid_String sid) "human" None None "" [] (uuid_String sid) (Some expires) (Some t))).
(** [time.Now().UTC().Add(24 * time.Hour).Truncate(time.Second)]. *)
Definition session_expiry (t : time) : time := (t + 24 * Hour - (t + 24 * Hour) mod Second)%Z.
Definition audit_session (user : uuid) (action : string) (details : list (string * string)) (ip : string) : Tx unit :=
  match ss_audit s with
  | None => fail ErrSessionUnavailable
  | Some repo => AuditLog.CreateTx repo (Some user) None action "" (strings_obj details) ip
  end.
Definition IssueTx (user : uuid) (email method ip ua : string) : Tx string :=
  _ ← (if bool_decide (ss_dialect s = DBTypePostgres) then Authority.LockSubjects (ss_dialect s) [user] else mret ());
  id ← uuid_New;
  t ← now;
  let expires := session_expiry t in
  token ← GenerateSessionToken user email id expires;
  _ ← CreateTx id user (HashAPIKey token) expires ip ua;
  _ ← (if bool_decide (ss_dialect s = DBTypePostgres) then
         exec_ (on_accounts (upd_t_session_details
           (alter (with_method (if bool_decide (method ∈ ["password"; "google"; "github"]) then method else "unknown")) id)))
       else mret ());
  _ ← audit_session user "auth.session_created" [("session_id", uuid_String id); ("method", method)] ip;
  mret token.
Definition List (user current : uuid) : Tx (list SessionView) :=
  rows ← ListSessions user;
  t ← now;
  mret (map (λ '(id, r, d),
    mkSessionView id (bool_decide (id = current)) (se_created_at r) (se_expires_at r)
      (if se_revoked r then "revoked" else if negb (After (se_expires_at r) t) then "expired" else "active")
      (sd_ip_address d) (sd_user_agent d)) rows).
Definition Revoke (user current target : uuid) (ip : string) : Tx unit :=
  with_tx_or ErrSessionUnavailable (
    _ ← Authority.LockSubjects (ss_dialect s) [user];
    _ ← LockRevocationTargetsTx (ss_dialect s) user [current; target];
    _ ← RequireActiveTx user current;
    changed ← RevokeTx (ss_dialect s) user target;
    _ ← (if (changed : bool) then
           _ ← audit_session user "auth.session_revoked" [("session_id", uuid_String target)] ip;
           identityEventTx (ss_dialect s) user "auth.session_revoked" [("session_id", uuid_String target)]
         else mret ());
    mret ((), true)).
End Service.

(** *** [JWTService.ValidateTokenContext] *)

Inductive signing_method := MethodRSA | MethodHMAC | OtherMethod.
Inductive jwt_key := RSAPublicKey (der : string) | HMACSecret (secret : string).
(** [jwt.ParseWithClaims] at a time, with the key function it asks for the key of
    an algorithm, a key identifier and a method; the token and its [Valid]. *)
Class JWTParser :=
  jwt_ParseWithClaims : time → string → (string → string → signing_method → result jwt_key) → result (Claims * bool).

(** The parts of [JWTService] validation reads: the keystore's public keys by
    identifier, the allowlist, the denylist's cache and the session check. *)
Record TokenValidator := mkTokenValidator {
  tv_secret : string;
  tv_keystore : option (gmap string string);
  tv_algVerify : option (gset string);
  tv_denylist : option (gset string);
  tv_humanSessions : option (Claims → string → Tx unit);
}.

(** [EnableRS256]'s allowlist. *)
Definition verify_algs (l : list string) : gset string := list_to_set (if bool_decide (l = []) then ["RS256"; "HS256"] else l).

Section Validate.
Context `{JP : JWTParser} (IsPrint : Z → bool) (v : TokenValidator).

Definition alg_allowed (alg : string) : bool :=
  match tv_algVerify v with Some l => bool_decide (alg ∈ l) | None => true end.
Definition keyfunc (alg kid : string) (m : signing_method) : result jwt_key :=
  if negb (alg_allowed alg) then Err (Errorf ("algorithm " +:+ Quote IsPrint alg +:+ " not allowed")) else
  match m with
  | MethodRSA =>
      match tv_keystore v with
      | None => Err (Errorf "RS256 token but no keystore configured")
      | Some keys =>
          if bool_decide (kid = "") then Err (Errorf "RS256 token missing kid")
          else match keys !! kid with Some der => Ok (RSAPublicKey der) | None => Err (Errorf ("unknown kid " +:+ Quote IsPrint kid)) end
      end
  | MethodHMAC => if negb (alg_allowed "HS256") then Err (Errorf "HS256 not allowed") else Ok (HMACSecret (tv_secret v))
  | OtherMethod => Err (Errorf ("unexpected signing method: " +:+ alg))
  end.

Definition check_human (c : Claims) (raw : string) : Tx unit :=
  match tv_humanSessions v with
  | Some f =>
      if bool_decide (c_TokenType c = "agent") then mret ()
      else if negb (bool_decide (c_TokenType c = "human")) || bool_decide (c_SessionID c = "") || negb (bool_decide (c_ID c = c_SessionID c))
              || bool_decide (c_ExpiresAt c = None) || bool_decide (c_UserID c = uuid_Nil)
      then fail (Errorf "human session requires reauthentication")
      else f c raw
  | None => mret ()
  end.
Definition check_denied (c : Claims) : Tx unit :=
  match tv_denylist v with
  | Some cache =>
      if bool_decide (c_TokenType c = "agent") && negb (bool_decide (c_ID c = "")) then
        revoked ← wrap_err "checking token revocation" (IsTokenRevoked cache (c_ID c) (c_LeaseID c));
        if (revoked : bool) then fail (Errorf "token revoked") else mret ()
      else mret ()
  | None => mret ()
  end.
Definition ValidateToken (raw : string) : Tx Claims :=
  t ← now;
  match jwt_ParseWithClaims t raw keyfunc with
  | Err e => fail (Wrapf "parsing token" e)
  | Ok (c, valid) =>
      if negb valid then fail (Errorf "invalid token") else
      if negb (bool_decide (c_TokenType c ∈ [""; "human"; "agent"])) then fail (Errorf "unknown token type") else
      _ ← check_human c raw;
      _ ← check_denied c;
      mret c
  end.
End Validate.
