(* ===== verification/IdentityTeam.v ===== *)
(** * The identity platform: invitations and offboarding

    [internal/identity/team.go] and [offboarding_preview.go]: an administrator
    invites somebody into an organization, or previews and carries out the
    departure of a member, which takes the member's membership, keys, runs,
    approvals and invitations in one transaction.  The trigger that moves the
    epoch of a membership is part of the writes.  How PostgreSQL prints [jsonb] is a
    parameter; times read back are in UTC. *)
From S2P Require Import Prelude GoStrings GoEncoding GoNet GoStruct GoUnicode Policy Schema Database Crypto Jobs Authority AuditLog VaultStore Vault Runs RunGrants Passwords Identity.

(** ** Definitions *)

(** [jsonb::text], and a [timestamptz] inside a [jsonb]. *)
Class JsonbText := {
  jsonb_text : json → string;
  timestamptz_text : time → string;
}.

Record Invitation := mkInvitation {
  in_ID : uuid;
  in_OrganizationID : uuid;
  in_Role : string;
  in_Status : string;
}.
Definition validRole (role : string) : bool := bool_decide (role ∈ ["viewer"; "editor"; "promoter"; "admin"]).

(** *** Memberships and their epochs *)

Definition on_members (g : gmap (uuid * uuid) string → gmap (uuid * uuid) string) : DB → DB :=
  upd_db_identity (upd_t_organization_members g).
Definition on_states (g : gmap (uuid * uuid) (bool * Z) → gmap (uuid * uuid) (bool * Z)) : DB → DB :=
  upd_db_identity (upd_t_member_authority_state g).

(** [INSERT INTO member_authority_state ... ON CONFLICT DO NOTHING]. *)
Definition insert_state (org user : uuid) (db : DB) : option DB :=
  if bool_decide (org ∉ organizations db) || bool_decide (user ∉ users db) then None
  else match member_states db !! (org, user) with
       | Some _ => Some db
       | None => Some (on_states <[(org, user) := (false, 1%Z)]> db)
       end.
(** [keepsave_member_epoch] after an insert and after a delete. *)
Definition joined (st : option (bool * Z)) : bool * Z := match st with Some (_, e) => (true, e + 1)%Z | None => (true, 1%Z) end.
Definition left_state (st : bool * Z) : bool * Z := (false, st.2 + 1)%Z.
Definition insert_member (org user : uuid) (role : string) (db : DB) : option DB :=
  if bool_decide (is_Some (members db !! (org, user))) || bool_decide (org ∉ organizations db)
     || bool_decide (user ∉ users db) || negb (varchar 50 role)
  then None
  else Some (on_states <[(org, user) := joined (member_states db !! (org, user))]> (on_members <[(org, user) := role]> db)).
Definition delete_member (org user : uuid) (db : DB) : DB :=
  match members db !! (org, user) with
  | None => db
  | Some _ => on_states (alter left_state (org, user)) (on_members (delete (org, user)) db)
  end.

Definition lockMemberStates (org : uuid) (ids : list uuid) : Tx unit :=
  for_each (sorted_set ids) (λ id,
    _ ← exec (insert_state org id);
    _ ← query_row (λ db, member_states db !! (org, id));
    note_lock (LockMemberState org id)).

(** *** Invitations *)

Definition insert_invitation (id : uuid) (i : invitation_row) (db : DB) : option DB :=
  if bool_decide (is_Some (invitations db !! id)) || bool_decide (proofs db !! id = None)
     || bool_decide (iv_organization_id i ∉ organizations db) || bool_decide (iv_inviter_id i ∉ users db)
     || match iv_target_user_id i with Some u => bool_decide (u ∉ users db) | None => false end
     || negb (validRole (iv_intended_role i))
  then None else Some (on_accounts (upd_t_identity_invitations <[id := i]>) db).
Definition set_accepted (user : uuid) (t : time) (i : invitation_row) : invitation_row :=
  mkInvitationRow (iv_organization_id i) (iv_inviter_id i) (iv_target_user_id i) (iv_intended_role i) (Some user) (Some t) (iv_revoked i).
Definition set_withdrawn (i : invitation_row) : invitation_row :=
  mkInvitationRow (iv_organization_id i) (iv_inviter_id i) (iv_target_user_id i) (iv_intended_role i) (iv_accepted_by i)
    (iv_accepted_at i) true.
Definition accept_invitation (id user : uuid) (t : time) : DB → DB :=
  on_accounts (upd_t_identity_invitations (alter (set_accepted user t) id)).
Definition revoke_invitations (sel : uuid → invitation_row → bool) : DB → DB :=
  on_accounts (upd_t_identity_invitations (update_where sel set_withdrawn)).

(** [SELECT ... FROM organizations WHERE id=$1 FOR ...]. *)
Definition organization_row (org : uuid) : Tx unit :=
  _ ← query_row (λ db, if decide (org ∈ organizations db) then Some org else None);
  note_lock (LockOrganization org).
Definition organization_owner (org : uuid) (db : DB) : option uuid :=
  if decide (org ∈ organizations db) then organization_owners db !! org else None.

Section Invitations.
Context `{P : Primitives} `{NU : NetURL} `{UC : Unicode} `{ML : MailAddress} (s : Identity.Service).

Definition orgActor (p : Principal) (org : uuid) (targets : list uuid) (recent : bool) : Tx unit :=
  if negb (is_human p) then fail ErrDenied else
  _ ← on_err ErrDenied (LockSubjects s (p_SubjectID p :: targets) true);
  _ ← on_err ErrDenied (organization_row org);
  _ ← lockMemberStates org (p_SubjectID p :: targets);
  _ ← on_err ErrDenied (RequireOrg s p org "admin");
  if recent then on_err ErrDenied (RequireSession s p true) else mret ().

Definition CreateInvitation (p : Principal) (org : uuid) (target : option uuid) (contact role : string) : Tx Invitation :=
  if negb (validRole role) then fail ErrInvalid else
  contact ← lift (validContact contact);
  transaction s (
    _ ← orgActor p org (option_list target) true;
    _ ← (match target with
         | None => mret ()
         | Some u => known ← query (λ db, bool_decide (u ∈ users db)); check known ErrInvalid
         end);
    proof ← createProof s (p_SubjectID p) (p_SessionID p) "invitation" contact;
    _ ← exec (insert_invitation (rq_ID proof) (mkInvitationRow org (p_SubjectID p) target role None None false));
    _ ← event s (p_SubjectID p) "identity.invitation_created"
          [("invitation_id", uuid_String (rq_ID proof)); ("organization_id", uuid_String org)];
    mret (mkInvitation (rq_ID proof) org role "pending")).

Definition RevokeInvitation (p : Principal) (org id : uuid) : Tx unit :=
  transaction s (
    _ ← orgActor p org [] false;
    _ ← on_err ErrDenied (query_row (λ db, i ← invitations db !! id; if bool_decide (iv_organization_id i = org) then Some id else None));
    _ ← note_lock (LockToolRow "identity_invitations" id);
    _ ← exec_ (revoke_invitations (λ k _, bool_decide (k = id)));
    _ ← exec_ (revoke_proofs (λ k _, bool_decide (k = id)));
    event s (p_SubjectID p) "identity.invitation_revoked" [("invitation_id", uuid_String id); ("organization_id", uuid_String org)]).

(** The inviter as the session of the invitation names it. *)
Definition inviter_principal (inviter session : uuid) : Principal := human inviter session.

(** Who may redeem: the invited user, or where none was named whoever holds the
    contact. *)
Definition invited (p : Principal) (target : option uuid) (contact : string) : Tx unit :=
  match target with
  | Some u => if bool_decide (u = p_SubjectID p) then mret () else fail ErrProof
  | None => held ← query (active_contact (p_SubjectID p) contact); check (held : bool) ErrProof
  end.
(** The rest, once the secret was right. *)
Definition join_invited (p : Principal) (id : uuid) (i : invitation_row) (row : proof_row) (t : time) : Tx unit :=
  let org := iv_organization_id i in let role := iv_intended_role i in
  _ ← invited p (iv_target_user_id i) (ip_contact row);
  owner ← query_row (organization_owner org);
  if bool_decide (owner = p_SubjectID p) && negb (bool_decide (role = "admin")) then fail ErrDenied else
  existing ← query (λ db, members db !! (org, p_SubjectID p));
  if bool_decide (is_Some existing) then fail ErrConflict else
  _ ← uuid_New;
  _ ← exec (insert_member org (p_SubjectID p) role);
  _ ← exec_ (accept_invitation id (p_SubjectID p) t);
  _ ← exec_ (consume_proof id t);
  event s (p_SubjectID p) "identity.invitation_accepted"
    [("invitation_id", uuid_String id); ("organization_id", uuid_String org); ("user_id", uuid_String (p_SubjectID p))].
Definition accept_body (p : Principal) (id : uuid) (raw : string) : Tx bool :=
  i ← on_err ErrProof (query_row (λ db, invitations db !! id));
  let org := iv_organization_id i in let inviter := iv_inviter_id i in
  if negb (is_human p) then fail ErrDenied else
  _ ← on_err ErrDenied (LockSubjects s [p_SubjectID p; inviter] true);
  _ ← on_err ErrProof (organization_row org);
  _ ← lockMemberStates org [p_SubjectID p; inviter];
  row ← on_err ErrProof (loadProof id false);
  _ ← on_err ErrProof (RequireOrg s (inviter_principal inviter (default uuid_Nil (ip_session_id row))) org "admin");
  _ ← RequireSession s p false;
  current ← on_err ErrProof (query_row (λ db, i' ← invitations db !! id;
              if bool_decide (iv_organization_id i' = org) && bool_decide (iv_inviter_id i' = inviter)
              then Some (iv_accepted_by i', iv_revoked i') else None));
  _ ← note_lock (LockToolRow "identity_invitations" id);
  if bool_decide (is_Some current.1) || current.2 then fail ErrProof else
  row ← on_err ErrProof (loadProof id true);
  t ← now;
  if negb (bool_decide (ip_purpose row = "invitation")) || negb (bool_decide (ip_user_id row = inviter)) || negb (proof_open t row)
  then fail ErrProof else
  if negb (bool_decide (hashProof raw = ip_proof_hash row)) then
    _ ← reject s inviter id "invitation";
    mret true
  else
    _ ← join_invited p id i row t;
    mret false.
Definition AcceptInvitation (p : Principal) (id : uuid) (raw : string) : Tx unit :=
  if bool_decide (id = uuid_Nil) || negb (String.length raw =? 43) then fail ErrProof else
  rejected ← transaction s (accept_body p id raw);
  if (rejected : bool) then fail ErrProof else mret ().
End Invitations.

(** *** What a departure affects *)

Definition offboardingGrantPredicate (target : uuid) (db : DB) (g : tool_grant_row) : bool :=
  bool_decide (tg_actor_id g = target) || bool_decide (tg_issued_by g = target) || revoked (tg_revoked_at g)
  || row_is (bindings db) (tg_binding_id g) (λ b, row_is (connections db) (tb_connection_id b)
       (λ c, bool_decide (tc_created_by c = target) || revoked (tc_revoked_at c)))
  || row_is (workloads db) (tg_workload_id g) (λ w, bool_decide (tw_created_by w = target) || revoked (tw_revoked_at w))
  || row_is (profiles db) (tg_profile_id g) (λ f, bool_decide (ap_approved_by <$> tp_approval f = Some target))
  || row_is (packages db) (tg_package_id g) (λ k, bool_decide (ap_approved_by <$> tk_approval k = Some target)).
Definition offboardingGrantSelection (org target : uuid) (db : DB) (g : tool_grant_row) : bool :=
  org_project org (tg_project_id g) db && offboardingGrantPredicate target db g.
Definition offboardingRunSelection (org target : uuid) (db : DB) (r : run_row) : bool :=
  org_project org (rn_project_id r) db && bool_decide (rn_state r ∈ ["preparing"; "active"])
  && (bool_decide (rn_actor_id r = target) || row_is (grants db) (rn_grant_id r) (offboardingGrantSelection org target db)).

(** The rows of the other tables the departure of a member touches. *)
Definition departing_key (org target : uuid) (db : DB) (k : api_key_row) : bool :=
  org_project org (ak_project_id k) db && bool_decide (ak_user_id k = target).
Definition departing_lease (org target : uuid) (db : DB) (l : lease_row) : bool :=
  org_project org (le_project_id l) db && row_is (api_keys db) (le_api_key_id l) (λ k, bool_decide (ak_user_id k = target)).
Definition departing_connection (org target : uuid) (db : DB) (c : connection_row) : bool :=
  org_project org (tc_project_id c) db && bool_decide (tc_created_by c = target) && bool_decide (tc_revoked_at c = None).
Definition departing_workload (org target : uuid) (db : DB) (w : workload_row) : bool :=
  org_project org (tw_project_id w) db && bool_decide (tw_created_by w = target) && bool_decide (tw_revoked_at w = None).
Definition departing_approval (org target : uuid) (db : DB) (a : promotion_row) : bool :=
  org_project org (pq_project_id a) db
  && (bool_decide (pq_requested_by a = target) || bool_decide (pq_approved_by a = Some target))
  && bool_decide (pq_status a ∈ ["pending"; "approved"]).
(** An invitation from, to or for a contact of the member. *)
Definition departing_invitation (org target : uuid) (db : DB) (id : uuid) (i : invitation_row) : bool :=
  bool_decide (iv_organization_id i = org) && bool_decide (iv_accepted_by i = None)
  && row_is (proofs db) id (λ p, bool_decide (iv_inviter_id i = target) || bool_decide (iv_target_user_id i = Some target)
                               || active_contact target (ip_contact p) db).

(** *** The digest of what a preview showed *)

Section Impact.
Context `{P : Primitives} `{JT : JsonbText}.

Abbreviation impact_row := (string * string * string)%type.
Definition jtime (t : time) : json := JStr (timestamptz_text t).
Definition jopt {A} (f : A → json) (o : option A) : json := match o with Some x => f x | None => JNull end.
(** [id::text] and [jsonb_build_object(...)::text] of the rows of one kind. *)
Definition impact_rows {V} (kind : string) (t : gmap uuid V) (sel : uuid → V → bool) (signature : uuid → V → list (string * json))
  : list impact_row :=
  map (λ kv, (kind, uuid_String kv.1, jsonb_text (mk_obj (signature kv.1 kv.2)))) (select sel t).

Definition approval_columns (a : option approval_row) : list (string * json) :=
  [("approver", jopt (λ a, juuid (ap_approved_by a)) a); ("epoch", jopt (λ a, JInt (ap_approver_epoch a)) a);
   ("approved_at", jopt (λ a, jtime (ap_approved_at a)) a); ("approved_until", jopt (λ a, jtime (ap_approved_until a)) a)].
Definition profile_project (org : uuid) (db : DB) (profile : uuid) : bool :=
  row_is (profiles db) profile (λ f, org_project org (tp_project_id f) db).

(** [ORDER BY kind,id]. *)
Definition impact_selection (org target : uuid) (db : DB) : list impact_row :=
  impact_rows "approval" (t_promotion_requests (db_secrets db)) (λ _ a, departing_approval org target db a) (λ _ a,
    [("project", juuid (pq_project_id a)); ("requester", juuid (pq_requested_by a));
     ("approver", jopt juuid (pq_approved_by a)); ("state", JStr (pq_status a))])
  ++ impact_rows "connection" (connections db) (λ _ c, departing_connection org target db c) (λ _ c,
    [("project", juuid (tc_project_id c)); ("revoked", jopt jtime (tc_revoked_at c))])
  ++ impact_rows "invitation" (invitations db) (λ id i, departing_invitation org target db id i && negb (iv_revoked i)) (λ id i,
    [("target", jopt juuid (iv_target_user_id i)); ("inviter", juuid (iv_inviter_id i)); ("role", JStr (iv_intended_role i));
     ("expires", jopt (λ p, jtime (ip_expires_at p)) (proofs db !! id));
     ("proof_revoked", jopt (λ p, JBool (ip_revoked p)) (proofs db !! id))])
  ++ impact_rows "key" (api_keys db) (λ _ k, departing_key org target db k) (λ _ k,
    [("project", juuid (ak_project_id k)); ("scopes", JList (map JStr (ak_scopes k)));
     ("environment", jopt JStr (ak_environment k)); ("expires", jopt jtime (ak_expires_at k))])
  ++ impact_rows "lease" (leases db) (λ _ l, departing_lease org target db l) (λ _ l,
    [("parent", juuid (le_api_key_id l)); ("environment", JStr (le_environment l)); ("keys", JList (map JStr (le_secret_keys l)));
     ("expires", jtime (le_expires_at l)); ("revoked", JBool (le_revoked l))])
  ++ impact_rows "lifecycle" (t_vault_lifecycle (db_vault db)) (λ id l,
      org_project org (vl_project_id l) db && bool_decide (vl_responsible_user_id l = Some target)
      && row_is (t_vault_entries (db_vault db)) id (λ e, bool_decide (ve_project_id e = vl_project_id l))) (λ id l,
    let e := t_vault_entries (db_vault db) !! id in
    [("project", juuid (vl_project_id l)); ("responsible", jopt juuid (vl_responsible_user_id l));
     ("lifecycle_revision", JInt (vl_revision l)); ("secret_revision", jopt (λ e, JInt (ve_revision e)) e);
     ("environment", jopt (λ e, juuid (ve_environment_id e)) e); ("key", jopt (λ e, JStr (ve_secret_key e)) e);
     ("deleted", jopt (λ e, JBool (ve_deleted e)) e)])
  ++ impact_rows "package_approval" (packages db) (λ _ k,
      profile_project org db (tk_profile_id k) && bool_decide (ap_approved_by <$> tk_approval k = Some target)) (λ _ k,
    [("profile", juuid (tk_profile_id k)); ("digest", JStr (tk_digest k)); ("revoked", jopt jtime (tk_revoked_at k))]
    ++ approval_columns (tk_approval k))
  ++ impact_rows "profile_approval" (profiles db) (λ _ f,
      org_project org (tp_project_id f) db && bool_decide (ap_approved_by <$> tp_approval f = Some target)) (λ _ f,
    [("project", juuid (tp_project_id f)); ("digest", JStr (tp_digest f)); ("revoked", jopt jtime (tp_revoked_at f))]
    ++ approval_columns (tp_approval f))
  ++ impact_rows "project" (projects db) (λ _ p, bool_decide (pr_organization_id p = Some org)) (λ _ p,
    [("owner", juuid (pr_owner_id p)); ("name", JStr (pr_name p)); ("deleted", jopt jtime (pr_deleted_at p))])
  ++ impact_rows "run" (runs db) (λ _ r, offboardingRunSelection org target db r) (λ _ r,
    [("grant", juuid (rn_grant_id r)); ("project", juuid (rn_project_id r)); ("actor", juuid (rn_actor_id r));
     ("state", JStr (rn_state r)); ("expires", jtime (rn_expires_at r))])
  ++ impact_rows "tool_grant" (grants db) (λ _ g, offboardingGrantSelection org target db g) (λ _ g,
    [("actor", juuid (tg_actor_id g)); ("issuer", juuid (tg_issued_by g)); ("project", juuid (tg_project_id g));
     ("profile", juuid (tg_profile_id g)); ("package", juuid (tg_package_id g)); ("binding", juuid (tg_binding_id g));
     ("workload", juuid (tg_workload_id g)); ("expires", jtime (tg_expires_at g)); ("revoked", jopt jtime (tg_revoked_at g));
     ("member_epoch", JInt (tg_membership_epoch g)); ("issuer_epoch", JInt (tg_issuer_epoch g))])
  ++ impact_rows "workload" (workloads db) (λ _ w, departing_workload org target db w) (λ _ w,
    [("project", juuid (tw_project_id w)); ("revoked", jopt jtime (tw_revoked_at w))]).
Definition impact_json (l : list impact_row) : json := JList (map (λ r, JList [JStr r.1.1; JStr r.1.2; JStr r.2]) l).
Definition impact_digest (l : list impact_row) : string := hashProof (Marshal (impact_json l)).
Definition offboardingImpact (org target : uuid) : Tx string := l ← query (impact_selection org target); mret (impact_digest l).
End Impact.

(** *** Offboarding *)

Record ProjectOwnership := mkProjectOwnership {
  po_ProjectID : uuid;
  po_Name : string;
  po_Consequence : string;
}.
Record CredentialOwnership := mkCredentialOwnership {
  co_ProjectID : uuid;
  co_SecretID : uuid;
  co_Environment : string;
  co_Key : string;
  co_LifecycleRevision : Z;
  co_SecretRevision : Z;
  co_Consequence : string;
}.
(** A nil slice is [None]. *)
Record Offboarding := mkOffboarding {
  ob_ID : uuid;
  ob_PreviewID : uuid;
  ob_PreviewExpires : time;
  ob_OrganizationID : uuid;
  ob_UserID : uuid;
  ob_Epoch : Z;
  ob_Keys : Z;
  ob_Leases : Z;
  ob_Runs : Z;
  ob_Status : string;
  ob_OwnedProjects : option (list ProjectOwnership);
  ob_OwnedCredentials : option (list CredentialOwnership);
}.
Definition zero_Offboarding : Offboarding :=
  mkOffboarding uuid_Nil uuid_Nil 0 uuid_Nil uuid_Nil 0 0 0 0 "" None None.

Definition ProjectOwnership_json (o : ProjectOwnership) : json := JObj [
  ("project_id", juuid (po_ProjectID o)); ("name", JStr (po_Name o)); ("consequence", JStr (po_Consequence o))].
Definition CredentialOwnership_json (o : CredentialOwnership) : json := JObj [
  ("project_id", juuid (co_ProjectID o)); ("secret_id", juuid (co_SecretID o)); ("environment", JStr (co_Environment o));
  ("key", JStr (co_Key o)); ("lifecycle_revision", JInt (co_LifecycleRevision o)); ("secret_revision", JInt (co_SecretRevision o));
  ("consequence", JStr (co_Consequence o))].
Definition enc_list {A} (f : A → json) (l : option (list A)) : json := match l with Some l => JList (map f l) | None => JNull end.
Definition Offboarding_json (o : Offboarding) : json := JObj [
  ("id", juuid (ob_ID o)); ("preview_id", juuid (ob_PreviewID o)); ("preview_expires_at", JStr (time_RFC3339Nano (ob_PreviewExpires o)));
  ("organization_id", juuid (ob_OrganizationID o)); ("user_id", juuid (ob_UserID o)); ("authority_epoch", JInt (ob_Epoch o));
  ("keys", JInt (ob_Keys o)); ("leases", JInt (ob_Leases o)); ("runs", JInt (ob_Runs o)); ("status", JStr (ob_Status o));
  ("projects_requiring_reassignment", enc_list ProjectOwnership_json (ob_OwnedProjects o));
  ("credentials_requiring_reassignment", enc_list CredentialOwnership_json (ob_OwnedCredentials o))].

Definition project_consequence : string :=
  "Organization access is revoked. Stored project ownership remains and requires explicit reassignment by an administrator.".
Definition credential_consequence : string :=
  "Responsibility remains assigned to the departing member and reminders stop for that member. An administrator must explicitly reassign responsibility.".
Definition ownedProjects (org target : uuid) (db : DB) : list ProjectOwnership :=
  map (λ kv, mkProjectOwnership kv.1 (pr_name kv.2) project_consequence)
    (select (λ _ r, bool_decide (pr_organization_id r = Some org) && bool_decide (pr_owner_id r = target)
                    && bool_decide (pr_deleted_at r = None)) (projects db)).
(** The row of a join, if every table has its part. *)
Definition owned_credential (org target : uuid) (db : DB) (secret : uuid) (l : lifecycle_row) : option CredentialOwnership :=
  v ← t_vault_entries (db_vault db) !! secret;
  e ← environments db !! ve_environment_id v;
  p ← projects db !! vl_project_id l;
  if bool_decide (ve_project_id v = vl_project_id l) && bool_decide (pr_organization_id p = Some org)
     && bool_decide (vl_responsible_user_id l = Some target) && negb (ve_deleted v) && bool_decide (pr_deleted_at p = None)
  then Some (mkCredentialOwnership (vl_project_id l) secret (en_name e) (ve_secret_key v) (vl_revision l) (ve_revision v)
               credential_consequence)
  else None.
Definition earlier_credential (a b : CredentialOwnership) : Prop :=
  (co_ProjectID a < co_ProjectID b)%N ∨ (co_ProjectID a = co_ProjectID b ∧ (co_SecretID a <= co_SecretID b)%N).
#[export] Instance earlier_credential_dec : RelDecision earlier_credential.
Proof. intros a b. unfold earlier_credential. apply _. Defined.
Definition ownedCredentials (org target : uuid) (db : DB) : list CredentialOwnership :=
  merge_sort earlier_credential (omap (λ kv, owned_credential org target db kv.1 kv.2) (map_to_list (t_vault_lifecycle (db_vault db)))).

Definition offboardingInventory (org target : uuid) : Tx Offboarding :=
  st ← on_err ErrDenied (query_row (λ db, member_states db !! (org, target)));
  if negb (st : bool * Z).1 then fail ErrDenied else
  keys ← query (λ db, count_where (λ _ k, departing_key org target db k) (api_keys db));
  live ← query (λ db, count_where (λ _ l, departing_lease org target db l && negb (le_revoked l)) (leases db));
  active ← query (λ db, count_where (λ _ r, offboardingRunSelection org target db r) (runs db));
  owned ← query (ownedProjects org target);
  credentials ← query (ownedCredentials org target);
  mret (mkOffboarding uuid_Nil uuid_Nil 0 org target st.2 keys live active "preview" (Some owned) (Some credentials)).

Definition lock_project_rows (org : uuid) : Tx unit :=
  ids ← query (λ db, map fst (select (λ _ r, bool_decide (pr_organization_id r = Some org)) (projects db)));
  for_each ids (λ id, note_lock (LockProjectRow id)).

Definition insert_preview (id : uuid) (v : preview_row) (db : DB) : option DB :=
  if bool_decide (is_Some (previews db !! id)) || bool_decide (pv_organization_id v ∉ organizations db)
     || bool_decide (pv_actor_id v ∉ users db) || bool_decide (pv_target_user_id v ∉ users db) || (pv_authority_epoch v <? 1)%Z
  then None else Some (on_accounts (upd_t_identity_offboarding_previews <[id := v]>) db).
Definition set_used (t : time) (v : preview_row) : preview_row :=
  mkPreviewRow (pv_organization_id v) (pv_actor_id v) (pv_target_user_id v) (pv_authority_epoch v) (pv_impact_digest v)
    (pv_expires_at v) (Some t).
Definition use_preview (id : uuid) (t : time) : DB → DB :=
  on_accounts (upd_t_identity_offboarding_previews (alter (set_used t) id)).
Definition same_offboarding (a b : offboarding_row) : Prop :=
  or_organization_id a = or_organization_id b ∧ or_actor_id a = or_actor_id b ∧ or_request_key a = or_request_key b.
#[export] Instance same_offboarding_dec : RelDecision same_offboarding.
Proof. intros a b. unfold same_offboarding. apply _. Defined.
Definition insert_offboarding (id : uuid) (o : offboarding_row) (db : DB) : option DB :=
  if bool_decide (is_Some (offboardings db !! id)) || bool_decide (or_organization_id o ∉ organizations db)
     || bool_decide (or_actor_id o ∉ users db) || bool_decide (or_target_user_id o ∉ users db)
     || negb (varchar 128 (or_request_key o)) || bool_decide (map_Exists (λ _ o', same_offboarding o' o) (offboardings db))
  then None else Some (on_accounts (upd_t_identity_offboarding_receipts <[id := o]>) db).
Definition offboarding_by_key (org actor : uuid) (key : string) (db : DB) : option (string * json) :=
  '(_, o) ← head (select (λ _ o, bool_decide (or_organization_id o = org) && bool_decide (or_actor_id o = actor)
                                 && bool_decide (or_request_key o = key)) (offboardings db));
  Some (or_request_digest o, or_summary o).
(** The preview's digest and when it expires. *)
Definition open_preview (preview org actor target : uuid) (epoch : Z) (db : DB) : option (string * time) :=
  v ← previews db !! preview;
  if bool_decide (pv_organization_id v = org) && bool_decide (pv_actor_id v = actor) && bool_decide (pv_target_user_id v = target)
     && (pv_authority_epoch v =? epoch)%Z && bool_decide (pv_consumed_at v = None)
  then Some (pv_impact_digest v, pv_expires_at v) else None.

Definition cancel_approval (a : promotion_row) : promotion_row :=
  mkPromotion (pq_project_id a) (pq_source_environment a) (pq_target_environment a) "cancelled" (pq_requested_by a) None
    (pq_keys_filter a) (pq_override_policy a) (pq_notes a) (pq_created_at a) (pq_completed_at a).
Definition cancel_approvals (org target : uuid) (db : DB) : DB :=
  upd_db_secrets (upd_t_promotion_requests (update_where (λ _ a, departing_approval org target db a) cancel_approval)) db.
Definition requires_cascade (org target : uuid) (db : DB) : bool :=
  bool_decide (map_Exists (λ _ g, bool_decide (tg_revoked_at g = None) && offboardingGrantSelection org target db g = true) (grants db))
  || bool_decide (map_Exists (λ _ r, offboardingRunSelection org target db r = true) (runs db))
  || bool_decide (map_Exists (λ _ c, departing_connection org target db c = true) (connections db))
  || bool_decide (map_Exists (λ _ w, departing_workload org target db w = true) (workloads db)).

Section Offboarding.
Context `{P : Primitives} `{JT : JsonbText} `{U : UUIDParse} (s : Identity.Service).

Definition dec_ProjectOwnership : decoder ProjectOwnership := dec_struct [
  field "project_id" dec_uuid po_ProjectID (λ x c, mkProjectOwnership x (po_Name c) (po_Consequence c));
  field "name" dec_string po_Name (λ x c, mkProjectOwnership (po_ProjectID c) x (po_Consequence c));
  field "consequence" dec_string po_Consequence (λ x c, mkProjectOwnership (po_ProjectID c) (po_Name c) x)].
Definition dec_CredentialOwnership : decoder CredentialOwnership := dec_struct [
  field "project_id" dec_uuid co_ProjectID (λ x c, mkCredentialOwnership x (co_SecretID c) (co_Environment c) (co_Key c) (co_LifecycleRevision c) (co_SecretRevision c) (co_Consequence c));
  field "secret_id" dec_uuid co_SecretID (λ x c, mkCredentialOwnership (co_ProjectID c) x (co_Environment c) (co_Key c) (co_LifecycleRevision c) (co_SecretRevision c) (co_Consequence c));
  field "environment" dec_string co_Environment (λ x c, mkCredentialOwnership (co_ProjectID c) (co_SecretID c) x (co_Key c) (co_LifecycleRevision c) (co_SecretRevision c) (co_Consequence c));
  field "key" dec_string co_Key (λ x c, mkCredentialOwnership (co_ProjectID c) (co_SecretID c) (co_Environment c) x (co_LifecycleRevision c) (co_SecretRevision c) (co_Consequence c));
  field "lifecycle_revision" dec_int co_LifecycleRevision (λ x c, mkCredentialOwnership (co_ProjectID c) (co_SecretID c) (co_Environment c) (co_Key c) x (co_SecretRevision c) (co_Consequence c));
  field "secret_revision" dec_int co_SecretRevision (λ x c, mkCredentialOwnership (co_ProjectID c) (co_SecretID c) (co_Environment c) (co_Key c) (co_LifecycleRevision c) x (co_Consequence c));
  field "consequence" dec_string co_Consequence (λ x c, mkCredentialOwnership (co_ProjectID c) (co_SecretID c) (co_Environment c) (co_Key c) (co_LifecycleRevision c) (co_SecretRevision c) x)].
Definition dec_Offboarding : decoder Offboarding := dec_struct [
  field "id" dec_uuid ob_ID (λ x c, mkOffboarding x (ob_PreviewID c) (ob_PreviewExpires c) (ob_OrganizationID c) (ob_UserID c) (ob_Epoch c) (ob_Keys c) (ob_Leases c) (ob_Runs c) (ob_Status c) (ob_OwnedProjects c) (ob_OwnedCredentials c));
  field "preview_id" dec_uuid ob_PreviewID (λ x c, mkOffboarding (ob_ID c) x (ob_PreviewExpires c) (ob_OrganizationID c) (ob_UserID c) (ob_Epoch c) (ob_Keys c) (ob_Leases c) (ob_Runs c) (ob_Status c) (ob_OwnedProjects c) (ob_OwnedCredentials c));
  field "preview_expires_at" dec_time ob_PreviewExpires (λ x c, mkOffboarding (ob_ID c) (ob_PreviewID c) x (ob_OrganizationID c) (ob_UserID c) (ob_Epoch c) (ob_Keys c) (ob_Leases c) (ob_Runs c) (ob_Status c) (ob_OwnedProjects c) (ob_OwnedCredentials c));
  field "organization_id" dec_uuid ob_OrganizationID (λ x c, mkOffboarding (ob_ID c) (ob_PreviewID c) (ob_PreviewExpires c) x (ob_UserID c) (ob_Epoch c) (ob_Keys c) (ob_Leases c) (ob_Runs c) (ob_Status c) (ob_OwnedProjects c) (ob_OwnedCredentials c));
  field "user_id" dec_uuid ob_UserID (λ x c, mkOffboarding (ob_ID c) (ob_PreviewID c) (ob_PreviewExpires c) (ob_OrganizationID c) x (ob_Epoch c) (ob_Keys c) (ob_Leases c) (ob_Runs c) (ob_Status c) (ob_OwnedProjects c) (ob_OwnedCredentials c));
  field "authority_epoch" dec_int ob_Epoch (λ x c, mkOffboarding (ob_ID c) (ob_PreviewID c) (ob_PreviewExpires c) (ob_OrganizationID c) (ob_UserID c) x (ob_Keys c) (ob_Leases c) (ob_Runs c) (ob_Status c) (ob_OwnedProjects c) (ob_OwnedCredentials c));
  field "keys" dec_int ob_Keys (λ x c, mkOffboarding (ob_ID c) (ob_PreviewID c) (ob_PreviewExpires c) (ob_OrganizationID c) (ob_UserID c) (ob_Epoch c) x (ob_Leases c) (ob_Runs c) (ob_Status c) (ob_OwnedProjects c) (ob_OwnedCredentials c));
  field "leases" dec_int ob_Leases (λ x c, mkOffboarding (ob_ID c) (ob_PreviewID c) (ob_PreviewExpires c) (ob_OrganizationID c) (ob_UserID c) (ob_Epoch c) (ob_Keys c) x (ob_Runs c) (ob_Status c) (ob_OwnedProjects c) (ob_OwnedCredentials c));
  field "runs" dec_int ob_Runs (λ x c, mkOffboarding (ob_ID c) (ob_PreviewID c) (ob_PreviewExpires c) (ob_OrganizationID c) (ob_UserID c) (ob_Epoch c) (ob_Keys c) (ob_Leases c) x (ob_Status c) (ob_OwnedProjects c) (ob_OwnedCredentials c));
  field "status" dec_string ob_Status (λ x c, mkOffboarding (ob_ID c) (ob_PreviewID c) (ob_PreviewExpires c) (ob_OrganizationID c) (ob_UserID c) (ob_Epoch c) (ob_Keys c) (ob_Leases c) (ob_Runs c) x (ob_OwnedProjects c) (ob_OwnedCredentials c));
  field "projects_requiring_reassignment" (dec_slice (mkProjectOwnership uuid_Nil "" "") dec_ProjectOwnership) ob_OwnedProjects (λ x c, mkOffboarding (ob_ID c) (ob_PreviewID c) (ob_PreviewExpires c) (ob_OrganizationID c) (ob_UserID c) (ob_Epoch c) (ob_Keys c) (ob_Leases c) (ob_Runs c) (ob_Status c) x (ob_OwnedCredentials c));
  field "credentials_requiring_reassignment" (dec_slice (mkCredentialOwnership uuid_Nil uuid_Nil "" "" 0 0 "") dec_CredentialOwnership) ob_OwnedCredentials (λ x c, mkOffboarding (ob_ID c) (ob_PreviewID c) (ob_PreviewExpires c) (ob_OrganizationID c) (ob_UserID c) (ob_Epoch c) (ob_Keys c) (ob_Leases c) (ob_Runs c) (ob_Status c) (ob_OwnedProjects c) x)].

Definition offboardLocks (p : Principal) (org target : uuid) (exclusive : bool) : Tx unit :=
  if negb (is_human p) then fail ErrDenied else
  _ ← LockSubjects s [p_SubjectID p; target] exclusive;
  owner ← on_err ErrDenied (query_row (organization_owner org));
  _ ← note_lock (LockOrganization org);
  if bool_decide (owner = target) then fail ErrDenied else
  _ ← lock_project_rows org;
  _ ← (if exclusive then lockMemberStates org [p_SubjectID p; target]
       else for_each (sort_uuids [p_SubjectID p; target]) (λ id,
              st ← on_err ErrDenied (query_row (λ db, member_states db !! (org, id)));
              _ ← note_lock (LockMemberState org id);
              check (st : bool * Z).1 ErrDenied));
  on_err ErrDenied (RequireOrg s p org "admin").

Definition with_preview (preview : uuid) (expires : time) (o : Offboarding) : Offboarding :=
  mkOffboarding (ob_ID o) preview expires (ob_OrganizationID o) (ob_UserID o) (ob_Epoch o) (ob_Keys o) (ob_Leases o) (ob_Runs o)
    (ob_Status o) (ob_OwnedProjects o) (ob_OwnedCredentials o).
(** [time.Now().UTC().Add(5 * time.Minute)]. *)
Definition PreviewOffboarding (p : Principal) (org target : uuid) : Tx Offboarding :=
  transaction s (
    _ ← offboardLocks p org target false;
    result ← offboardingInventory org target;
    impact ← offboardingImpact org target;
    id ← uuid_New;
    t ← now;
    let expires := (t + 5 * Minute)%Z in
    _ ← exec (insert_preview id (mkPreviewRow org (p_SubjectID p) target (ob_Epoch result) impact expires None));
    _ ← event s (p_SubjectID p) "identity.offboarding_preview_created"
          [("preview_id", uuid_String id); ("organization_id", uuid_String org); ("user_id", uuid_String target)];
    mret (with_preview id expires result)).

Definition offboard_digest (org target : uuid) (expected : Z) (preview : uuid) : string :=
  hashProof (uuid_String org +:+ "/" +:+ uuid_String target +:+ "/" +:+ pretty expected +:+ "/" +:+ uuid_String preview).
(** The preview, if one is named, is open and shows what is there now. *)
Definition check_preview (p : Principal) (org target : uuid) (expected : Z) (preview : uuid) (result : Offboarding) : Tx Offboarding :=
  if bool_decide (preview = uuid_Nil) then mret result else
  v ← on_err ErrConflict (query_row (open_preview preview org (p_SubjectID p) target expected));
  _ ← note_lock (LockToolRow "identity_offboarding_previews" preview);
  t ← now;
  if negb (After v.2 t) then fail ErrConflict else
  impact ← offboardingImpact org target;
  if negb (bool_decide (v.1 = impact)) then fail ErrConflict else
  _ ← exec_ (use_preview preview t);
  mret (with_preview preview v.2 result).
(** Without the cascade nothing it would have to end may be there. *)
Definition check_cascade (org target : uuid) : Tx unit :=
  match sv_cascade s with
  | Some _ => mret ()
  | None => required ← query (requires_cascade org target); if (required : bool) then fail ErrUnavailable else mret ()
  end.
Definition run_cascade (org target : uuid) (runs : Z) : Tx Z :=
  match sv_cascade s with Some f => f org target | None => mret runs end.
Definition revoked_inventory (id : uuid) (runs : Z) (o : Offboarding) : Offboarding :=
  mkOffboarding id (ob_PreviewID o) (ob_PreviewExpires o) (ob_OrganizationID o) (ob_UserID o) (incr64 (ob_Epoch o)) (ob_Keys o)
    (ob_Leases o) runs "locally_revoked" (ob_OwnedProjects o) (ob_OwnedCredentials o).
Definition leave (p : Principal) (org target : uuid) (key digest : string) (result : Offboarding) : Tx Offboarding :=
  _ ← exec_ (delete_member org target);
  _ ← exec_ (λ db, delete_api_keys (λ _ k, departing_key org target db k) db);
  runs ← run_cascade org target (ob_Runs result);
  _ ← exec_ (cancel_approvals org target);
  _ ← exec_ (λ db, revoke_invitations (departing_invitation org target db) db);
  id ← uuid_New;
  let result := revoked_inventory id runs result in
  _ ← exec (insert_offboarding id (mkOffboardingRow org (p_SubjectID p) target key digest (ob_Epoch result)
         (normalize (Offboarding_json result))));
  _ ← event s (p_SubjectID p) "identity.member_offboarded"
        [("receipt_id", uuid_String id); ("organization_id", uuid_String org); ("user_id", uuid_String target)];
  mret result.
Definition offboard (p : Principal) (org target : uuid) (expected : Z) (key : string) (preview : uuid) : Tx Offboarding :=
  if (String.length key <? 1) || (128 <? String.length key) || (expected <? 1)%Z then fail ErrInvalid else
  let digest := offboard_digest org target expected preview in
  transaction s (
    _ ← offboardLocks p org target true;
    previous ← query (offboarding_by_key org (p_SubjectID p) key);
    match previous with
    | Some (stored, summary) =>
        if negb (bool_decide (stored = digest)) then fail ErrConflict else
        match decode dec_Offboarding zero_Offboarding summary with
        | Some result => mret result
        | None => fail (Errorf "json: cannot unmarshal")
        end
    | None =>
        result ← offboardingInventory org target;
        if negb (ob_Epoch result =? expected)%Z then fail ErrConflict else
        result ← check_preview p org target expected preview result;
        _ ← check_cascade org target;
        leave p org target key digest result
    end).
Definition Offboard (p : Principal) (org target : uuid) (expected : Z) (key : string) : Tx Offboarding :=
  offboard p org target expected key uuid_Nil.
Definition OffboardWithPreview (p : Principal) (org target : uuid) (expected : Z) (key : string) (preview : uuid) : Tx Offboarding :=
  if bool_decide (preview = uuid_Nil) then fail ErrInvalid else offboard p org target expected key preview.
End Offboarding.
