(* ===== verification/IdentityDelivery.v ===== *)
(** * The identity platform: delivering proofs

    [internal/identity/delivery.go] and [worker.go]: a worker takes the message of
    a proof from custody and hands it to a sender, once; what it cannot know
    about becomes uncertain and is never sent again.  The sender (SMTP) is an
    argument: it answers with an outcome, and the world may change meanwhile. *)
From S2P Require Import Prelude GoStrings GoEncoding GoNet GoStruct GoUnicode Policy Schema Database Crypto Jobs Authority AuditLog VaultStore Vault Runs Passwords Identity IdentityTeam.

(** ** Definitions *)

(** [Sender.Send(ctx, to, subject, body)]. *)
Abbreviation Sender := (string → string → string → World → DeliveryOutcome * World).
Definition send (f : Sender) (to subject body : string) : Tx DeliveryOutcome := λ w,
  let '(o, w') := f to subject body w in (Ok o, w').

(** [ciphertext=''::bytea,nonce=''::bytea,completed_at=NOW()]. *)
Definition settle (state reason : string) (t : time) (d : delivery_row) : delivery_row :=
  mkDeliveryRow (pd_proof_id d) "" "" state reason (pd_dispatched_at d) (Some t) (pd_created_at d).
Definition set_dispatched (t : time) (d : delivery_row) : delivery_row :=
  mkDeliveryRow (pd_proof_id d) (pd_ciphertext d) (pd_nonce d) "dispatched" (pd_reason_code d) (Some t) (pd_completed_at d)
    (pd_created_at d).
Definition update_delivery (id : uuid) (f : delivery_row → delivery_row) : DB → DB :=
  on_accounts (upd_t_identity_proof_deliveries (alter f id)).
Definition update_deliveries (sel : uuid → delivery_row → bool) (f : delivery_row → delivery_row) (db : DB) : option (DB * Z) :=
  Some (on_accounts (upd_t_identity_proof_deliveries (update_where sel f)) db, count_where sel (deliveries db)).
Definition stale (t : time) (d : delivery_row) : bool :=
  match pd_dispatched_at d with Some u => (u <? t - Minute)%Z | None => false end.

(** The delivery joined with its proof. *)
Definition delivery_of (id : uuid) (db : DB) : option (delivery_row * proof_row) :=
  d ← deliveries db !! id; p ← proofs db !! pd_proof_id d; Some (d, p).
Definition delivery_owner (id : uuid) (db : DB) : option (uuid * uuid) :=
  dp ← delivery_of id db; Some (ip_user_id dp.2, pd_proof_id dp.1).
Definition settled_states : list string := ["sent"; "failed"; "cancelled"].

(** What leaves the first transaction of [Deliver]. *)
Record dispatched := mkDispatched {
  dp_user : uuid;
  dp_proof : uuid;
  dp_cipher : string;
  dp_nonce : string;
  dp_contact : string;
  dp_purpose : string;
  dp_hash : string;
}.
Record proofMessage := mkProofMessage {
  pm_Contact : string;
  pm_URL : string;
  pm_Purpose : string;
}.
Definition dec_proofMessage : decoder proofMessage := dec_struct [
  field "contact" dec_string pm_Contact (λ x m, mkProofMessage x (pm_URL m) (pm_Purpose m));
  field "url" dec_string pm_URL (λ x m, mkProofMessage (pm_Contact m) x (pm_Purpose m));
  field "purpose" dec_string pm_Purpose (λ x m, mkProofMessage (pm_Contact m) (pm_URL m) x)].

Definition mail_subject : string := "KeepSave account confirmation".
Definition newline : string := String "010" "".
Definition mail_body (m : proofMessage) : string :=
  "Use this single-use link for " +:+ pm_Purpose m +:+ ". It expires and grants no workspace role by itself." +:+ newline +:+ newline
  +:+ pm_URL m +:+ newline.

(** A [delivery_id] and nothing else; the second [Decode] finds the end. *)
Definition known_fields (names : list string) (j : json) : bool :=
  match j with
  | JObj l => forallb (λ kv, existsb (λ n, bool_decide (fold_name kv.1 = fold_name n)) names) l
  | _ => true
  end.

Section Delivery.
Context `{P : Primitives} `{NU : NetURL} `{U : UUIDParse} (s : Identity.Service).

(** Whether the session that asked, and for an invitation the inviter's role, are
    still there. *)
Definition still_authorized (user proof : uuid) (row : proof_row) : Tx bool :=
  match ip_session_id row with
  | None => mret true
  | Some sid =>
      if bool_decide (ip_purpose row = "invitation") then
        org ← attempt (query_row (λ db, i ← invitations db !! proof; if iv_revoked i then None else Some (iv_organization_id i)));
        match org with
        | Err _ => mret false
        | Ok org => r ← attempt (RequireOrg s (human user sid) org "admin"); mret (match r with Ok _ => true | Err _ => false end)
        end
      else r ← attempt (RequireSession s (human user sid) false); mret (match r with Ok _ => true | Err _ => false end)
  end.

Definition dispatch_body (id : uuid) : Tx (DeliveryOutcome + dispatched) :=
  up ← on_err ErrProof (query_row (delivery_owner id));
  let '(user, proof) := (up : uuid * uuid) in
  _ ← LockSubjects s [user] false;
  row ← loadProof proof false;
  active ← still_authorized user proof row;
  d ← query_row (λ db, deliveries db !! id);
  _ ← note_lock (LockToolRow "identity_proof_deliveries" id);
  if negb (bool_decide (pd_state d = "pending")) then fail ErrConflict else
  t ← now;
  if negb (active : bool) || ip_consumed row || ip_revoked row || negb (After (ip_expires_at row) t) then
    _ ← exec_ (update_delivery id (settle "cancelled" "proof_inactive" t));
    _ ← record s user "identity.delivery_cancelled" [("delivery_id", uuid_String id); ("proof_id", uuid_String proof)];
    mret (inl (mkOutcome "cancelled" "proof_inactive"))
  else
    _ ← exec_ (update_delivery id (set_dispatched t));
    _ ← record s user "identity.delivery_dispatched" [("delivery_id", uuid_String id); ("proof_id", uuid_String proof)];
    mret (inr (mkDispatched user proof (pd_ciphertext d) (pd_nonce d) (ip_contact row) (ip_purpose row) (ip_proof_hash row))).

(** The link of the message leads to the application and carries this proof. *)
Definition link_ok (d : dispatched) (url : string) : bool :=
  match url_Parse url, url_Parse (ApplicationOrigin (sv_config s)) with
  | Some u, Some o =>
      bool_decide (u_Scheme u = u_Scheme o) && bool_decide (u_Host u = u_Host o) && bool_decide (u_Path u = "/identity/confirm")
      && bool_decide (u_RawQuery u = "")
      && match url_ParseQuery (u_Fragment u) with
         | Some q =>
             bool_decide (values_Get q "id" = uuid_String (dp_proof d)) && bool_decide (values_Get q "purpose" = dp_purpose d)
             && (String.length (values_Get q "proof") =? 43) && bool_decide (hashProof (values_Get q "proof") = dp_hash d)
         | None => false
         end
  | _, _ => false
  end.
Definition decoded_message (raw : string) : option proofMessage :=
  j ← Unmarshal raw; decode dec_proofMessage (mkProofMessage "" "" "") j.
Definition send_message (sender : Sender) (d : dispatched) (raw : string) : Tx DeliveryOutcome :=
  match decoded_message raw with
  | None => fail ErrInvalid
  | Some m =>
      if negb (bool_decide (pm_Contact m = dp_contact d)) || negb (bool_decide (pm_Purpose m = dp_purpose d)) || negb (link_ok d (pm_URL m))
      then fail ErrInvalid
      else send sender (pm_Contact m) mail_subject (mail_body m)
  end.
(** The outcome that is recorded. *)
Definition final_outcome (r : result DeliveryOutcome) : DeliveryOutcome :=
  match r with
  | Err _ => mkOutcome "failed" "message_unavailable"
  | Ok o => if bool_decide (do_State o ∈ ["sent"; "failed"; "uncertain"]) then o else mkOutcome "uncertain" "smtp_acceptance_unknown"
  end.
Definition finish_body (id user : uuid) (o : DeliveryOutcome) : Tx unit :=
  _ ← LockSubjects s [user] false;
  t ← now;
  n ← exec_n (update_deliveries (λ k d, bool_decide (k = id) && bool_decide (pd_state d = "dispatched"))
        (settle (do_State o) (do_Reason o) t));
  if negb (n =? 1)%Z then fail ErrConflict else
  record s user "identity.delivery_completed" [("delivery_id", uuid_String id); ("state", do_State o); ("reason_code", do_Reason o)].

Definition Deliver (id : uuid) (sender : option Sender) : Tx DeliveryOutcome :=
  match sender, sv_custody s with
  | Some sender, Some custody =>
      first ← transaction s (dispatch_body id);
      match first with
      | inl cancelled => mret cancelled
      | inr d =>
          r ← attempt (pc_WithOpened custody (dp_cipher d) (dp_nonce d) (send_message sender d));
          let o := final_outcome r in
          _ ← transaction s (finish_body id (dp_user d) o);
          mret o
      end
  | _, _ => fail ErrUnavailable
  end.

Definition ProofStatus (p : Principal) (id : uuid) : Tx DeliveryOutcome :=
  transaction s (
    _ ← actor s p [] false false;
    query_row (λ db,
      pr ← proofs db !! id;
      '(_, d) ← head (select (λ _ d, bool_decide (pd_proof_id d = id)) (deliveries db));
      if bool_decide (ip_user_id pr = p_SubjectID p) then Some (mkOutcome (pd_state d) (pd_reason_code d)) else None)).

Definition ResendProof (p : Principal) (id : uuid) : Tx ProofRequest :=
  transaction s (
    _ ← actor s p [] true true;
    row ← on_err ErrProof (loadProof id true);
    if negb (bool_decide (ip_user_id row = p_SubjectID p)) || bool_decide (ip_purpose row = "invitation") || ip_consumed row
    then fail ErrProof else
    d ← query_row (λ db, head (select (λ _ d, bool_decide (pd_proof_id d = id)) (deliveries db)));
    _ ← note_lock (LockToolRow "identity_proof_deliveries" (d : uuid * delivery_row).1);
    if negb (bool_decide (pd_state d.2 ∈ ["failed"; "uncertain"; "cancelled"])) then fail ErrConflict else
    createProof s (p_SubjectID p) (if bool_decide (ip_purpose row = "password_reset") then uuid_Nil else p_SessionID p)
      (ip_purpose row) (ip_contact row)).

Definition MarkDeliveryUncertain (id : uuid) : Tx unit :=
  transaction s (
    up ← query_row (delivery_owner id);
    _ ← LockSubjects s [(up : uuid * uuid).1] false;
    t ← now;
    n ← exec_n (update_deliveries (λ k d, bool_decide (k = id) && bool_decide (pd_state d = "dispatched") && stale t d)
          (settle "uncertain" "worker_outcome_unknown" t));
    if (n =? 0)%Z then fail ErrConflict else
    record s up.1 "identity.delivery_uncertain" [("delivery_id", uuid_String id)]).

(** *** The worker *)

Definition delivery_jobs (id : uuid) (p : job_row → bool) (db : DB) : bool :=
  bool_decide (map_Exists (λ _ j, jb_kind j = "identity.proof_delivery" ∧
    json_field "delivery_id" (jb_payload j) = Some (uuid_String id) ∧ p j = true) (jobs_of db)).
Definition queue_unknown (t : time) (j : job_row) : bool :=
  status_in j ["uncertain"] || (status_in j ["dispatched"] && lease_expired t j).
Definition queue_failed (j : job_row) : bool := status_in j ["failed"].
Definition inactive (t : time) (p : proof_row) : bool := (ip_expires_at p <=? t)%Z || ip_revoked p || ip_consumed p.

Definition abandoned (t : time) (db : DB) (id : uuid) (d : delivery_row) : bool :=
  match proofs db !! pd_proof_id d with
  | None => false
  | Some p =>
      (bool_decide (pd_state d = "pending")
       && (inactive t p || delivery_jobs id (λ j, queue_failed j || queue_unknown t j) db))
      || (bool_decide (pd_state d = "dispatched") && stale t d)
  end.
Definition older_delivery (a b : uuid * delivery_row) : Prop := (pd_created_at a.2 <= pd_created_at b.2)%Z.
#[export] Instance older_delivery_dec : RelDecision older_delivery.
Proof. intros a b. unfold older_delivery. apply _. Defined.

(** The outcome the sweep settles a delivery with. *)
Definition sweep_outcome (t : time) (unknown failed : bool) (d : delivery_row) (p : proof_row) : option DeliveryOutcome :=
  if (bool_decide (pd_state d = "dispatched") && stale t d) || (bool_decide (pd_state d = "pending") && unknown)
  then Some (mkOutcome "uncertain" "worker_outcome_unknown")
  else if bool_decide (pd_state d = "pending") && inactive t p then Some (mkOutcome "cancelled" "proof_inactive")
  else if bool_decide (pd_state d = "pending") && failed then Some (mkOutcome "failed" "worker_abandoned")
  else None.
Definition sweep_one (id : uuid) : Tx bool :=
  transaction s (
    up ← query_row (delivery_owner id);
    _ ← LockSubjects s [(up : uuid * uuid).1] false;
    t ← now;
    o ← query_row (λ db, dp ← delivery_of id db;
          Some (sweep_outcome t (delivery_jobs id (queue_unknown t) db) (delivery_jobs id queue_failed db) dp.1 dp.2));
    _ ← note_lock (LockToolRow "identity_proof_deliveries" id);
    match o with
    | None => mret false
    | Some o =>
        _ ← exec_ (update_delivery id (settle (do_State o) (do_Reason o) t));
        _ ← record s up.1 "identity.delivery_recovered"
              [("delivery_id", uuid_String id); ("state", do_State o); ("reason_code", do_Reason o)];
        mret true
    end).
(** [ORDER BY d.created_at,d.id LIMIT 100]. *)
Definition SweepDeliveries : Tx Z :=
  if negb (Enabled s) then fail ErrUnavailable else
  t ← now;
  ids ← query (λ db, map fst (take 100 (merge_sort older_delivery (select (abandoned t db) (deliveries db)))));
  for_fold ids 0%Z (λ count id, changed ← sweep_one id; mret (if (changed : bool) then count + 1 else count)%Z).

Definition delivery_state (id : uuid) : Tx string := query_row (λ db, pd_state <$> deliveries db !! id).
(** The [delivery_id] of a job, if the job is one of ours. *)
Definition job_delivery (j : Job) : option uuid :=
  id ← decode (dec_struct [field "delivery_id" dec_uuid id (λ x _, x)]) uuid_Nil (Payload j);
  if known_fields ["delivery_id"] (Payload j) && negb (bool_decide (id = uuid_Nil)) && bool_decide (Effect j = "external")
  then Some id else None.

Definition deliver_job (j : Job) (id : uuid) (sender : Sender) : Tx unit :=
  _ ← Dispatch j;
  outcome ← attempt (Deliver id (Some sender));
  done ← (match outcome with
          | Ok _ => mret false
          | Err _ => r ← attempt (delivery_state id); mret (match r with Ok st => bool_decide (st ∈ settled_states) | Err _ => false end)
          end);
  if (done : bool) then Ack j else
  match outcome with
  | Err e => _ ← Fail j true; fail e
  | Ok o =>
      if bool_decide (do_State o = "uncertain") then Fail j true
      else if bool_decide (do_State o ∈ settled_states) then Ack j
      else _ ← Fail j true; fail ErrConflict
  end.
Definition process_job (j : Job) (sender : Sender) : Tx unit :=
  match job_delivery j with
  | None => _ ← Fail j false; fail ErrInvalid
  | Some id =>
      settled ← attempt (delivery_state id);
      match settled with
      | Err e => _ ← attempt (Fail j false); fail e
      | Ok st =>
          if bool_decide (st ∈ settled_states) then Ack j
          else if bool_decide (st = "uncertain") then Fail j true
          else deliver_job j id sender
      end
  end.
(** Whether there was work, and how it went; an error stands for
    [false, err]. *)
Definition StepDelivery (worker : uuid) (sender : option Sender) : Tx (bool * result unit) :=
  match sender with
  | None => fail ErrUnavailable
  | Some sender =>
      if negb (Enabled s) || bool_decide (worker = uuid_Nil) then fail ErrUnavailable else
      _ ← SweepDeliveries;
      claimed ← attempt (ClaimKinds worker Minute ["identity.proof_delivery"]);
      match claimed with
      | Err e => if errors_Is e "no job ready" then mret (false, Ok ()) else fail e
      | Ok j => r ← attempt (process_job j sender); mret (true, r)
      end
  end.
End Delivery.
