(* ===== verification/IdentitySpec.v ===== *)
(** * The identity platform: interface and effects

    What the platform relies on ([IdentityOk]: the guard, the auditor and the
    custody), the server's wiring, and what each of its operations does to the
    database when it succeeds; an operation that fails changes nothing.  Effects
    are stated up to the audit log and the outbox ([logged]). *)
From S2P Require Import Prelude GoStrings GoEncoding GoNet GoStruct GoUnicode Policy Schema Database Crypto Jobs Authority AuditLog VaultStore Vault Runs RunGrants Passwords Identity Sessions IdentityTeam IdentityDelivery.

(** ** Definitions *)

(** The database without its audit log and outbox. *)
Definition core (db : DB) : DB :=
  mkDB (db_identity db) (db_projects db) (db_secrets db) (db_vault db) ∅ ∅ ("", 0%Z) (db_tools db) (db_accounts db).
Definition logged (db db' : DB) : Prop := core db' = core db.
#[export] Instance logged_equivalence : Equivalence logged.
Proof. split; unfold logged; [by intros ?|by intros ??|by intros ??? -> ->]. Qed.
#[export] Instance logged_preorder : PreOrder logged.
Proof. split; apply _. Qed.
(** The clock stands still, and only the log and the outbox change. *)
Definition logs (w w' : World) : Prop := logged (w_db w) (w_db w') ∧ w_now w' = w_now w.
#[export] Instance logs_preorder : PreOrder logs.
Proof. split; [by intros w|]. intros a b c [? E1] [? E2]. split; [by etrans|congruence]. Qed.

(** A session the guard admits now, and a member of an organization with a role. *)
Definition live_session (t : time) (p : Principal) (recent : bool) (db : DB) : Prop :=
  ∃ r, sessions db !! p_SessionID p = Some r ∧ session_live t p recent r = true.
Definition holds_role (org user : uuid) (role : string) (db : DB) : Prop :=
  ∃ actual e, members db !! (org, user) = Some actual ∧ RoleAllows actual role = true ∧
    member_states db !! (org, user) = Some (true, e) ∧ (1 <= e)%Z.

Definition same_accounts (db db' : DB) : Prop := db_accounts db' = db_accounts db ∧ db_identity db' = db_identity db.
#[export] Instance same_accounts_preorder : PreOrder same_accounts.
Proof. split; [by intros ?|]. intros ??? [E1 E2] [E3 E4]. split; congruence. Qed.

(** The guard only reads, and what it lets pass is there; the auditor writes its
    log; custody only draws randomness, and opens without a trace; the hooks leave
    the accounts alone. *)
Class IdentityOk (s : Identity.Service) : Prop := {
  subjects_read g ids ex : sv_guard s = Some g → reads (gd_LockSubjects g ids ex);
  session_read g p recent : sv_guard s = Some g → reads (gd_RequireSession g p recent);
  org_read g p org role : sv_guard s = Some g → reads (gd_RequireOrg g p org role);
  subjects_known g ids ex w u w' : sv_guard s = Some g → gd_LockSubjects g ids ex w = (Ok u, w') →
    ∀ id, id ∈ ids → id ≠ uuid_Nil ∧ id ∈ users (w_db w);
  session_known g p recent w u w' : sv_guard s = Some g → gd_RequireSession g p recent w = (Ok u, w') →
    live_session (w_now w) p recent (w_db w);
  org_known g p org role w u w' : sv_guard s = Some g → gd_RequireOrg g p org role w = (Ok u, w') →
    (role = "" ∨ holds_role org (p_SubjectID p) role (w_db w)) ∧ live_session (w_now w) p false (w_db w);
  auditor_logs f u pr a e d ip : sv_audit s = Some f → keeps logged (f u pr a e d ip) ∧ forward (f u pr a e d ip);
  custody_seals c m : sv_custody s = Some c → reads (pc_Seal c m);
  custody_opens c ci n fn w r w' : sv_custody s = Some c → pc_WithOpened c ci n fn w = (r, w') →
    (∃ e, r = Err e ∧ at_same w w') ∨ ∃ plain w1, at_same w w1 ∧ fn plain w1 = (r, w');
  cascade_aside f org target : sv_cascade s = Some f → keeps same_accounts (f org target);
  recovery_aside f user : sv_recoveryDelegations s = Some f → keeps same_accounts (f user);
}.

(** ** Lemmas *)

Lemma logged_congr f db db' : (∀ d, core (f d) = core (f (core d))) → logged db db' → logged (f db) (f db').
Proof. unfold logged. intros Hf H. rewrite (Hf db), (Hf db'), H. done. Qed.
Lemma at_same_logs w w' : at_same w w' → logs w w'.
Proof. intros (E & T & _). split; [by rewrite E|done]. Qed.
Lemma reads_logs {A} (m : Tx A) w r w' : reads m → m w = (r, w') → logs w w'.
Proof. intros Hm H. by eapply at_same_logs, reads_run. Qed.
Lemma logs_of {A} (m : Tx A) w r w' : keeps logged m → forward m → m w = (r, w') → logs w w'.
Proof. intros Hk Hf H. split; [by eapply Hk|by eapply Hf]. Qed.
(** The fields a log leaves alone. *)
Lemma logged_accounts db db' : logged db db' → db_accounts db' = db_accounts db.
Proof. intros H. exact (f_equal db_accounts H). Qed.
Lemma logged_identity db db' : logged db db' → db_identity db' = db_identity db.
Proof. intros H. exact (f_equal db_identity H). Qed.
Lemma logged_projects db db' : logged db db' → db_projects db' = db_projects db.
Proof. intros H. exact (f_equal db_projects H). Qed.
Lemma logged_tools db db' : logged db db' → db_tools db' = db_tools db.
Proof. intros H. exact (f_equal db_tools H). Qed.
Lemma logged_secrets db db' : logged db db' → db_secrets db' = db_secrets db.
Proof. intros H. exact (f_equal db_secrets H). Qed.

Lemma keeps_logged_EnqueueTx id kind payload effect max : keeps logged (EnqueueTx id kind payload effect max).
Proof. apply keeps_EnqueueTx; [apply _|done]. Qed.
Lemma CreateTx_logs `{P : Primitives} r u pr a e d ip : keeps logged (AuditLog.CreateTx r u pr a e d ip).
Proof. by apply keeps_CreateTx; [apply _|..]. Qed.

Lemma uuid_New_at `{P : Primitives} id w w' : uuid_New w = (Ok id, w') → at_same w w'.
Proof. intros [-> ->]%uuid_New_Ok. split_and!; [done..|cbn; lia]. Qed.
Lemma reads_randomProof `{P : Primitives} : reads randomProof.
Proof. apply reads_bind; [|intros; apply reads_ret]. split; [apply keeps_rand_bytes, _|apply forward_rand_bytes]. Qed.

Section Effects.
Context `{P : Primitives} (s : Identity.Service) `{!IdentityOk s}.

Lemma reads_port' {F A} (o : option F) (call : F → Tx A) : (∀ f, o = Some f → reads (call f)) → reads (Identity.port o call).
Proof. intros H. destruct o as [f|]; [by apply H|apply reads_fail]. Qed.
Lemma reads_subjects ids ex : reads (Identity.LockSubjects s ids ex).
Proof. apply reads_port'. intros g Hg. by eapply subjects_read. Qed.
Lemma reads_session p recent : reads (Identity.RequireSession s p recent).
Proof. apply reads_port'. intros g Hg. by eapply session_read. Qed.
Lemma reads_org p org role : reads (Identity.RequireOrg s p org role).
Proof. apply reads_port'. intros g Hg. by eapply org_read. Qed.
Hint Resolve reads_subjects reads_session reads_org : reads.
Lemma reads_human p targets ex recent : reads (Identity.actor s p targets ex recent).
Proof. unfold actor. reads_tac. Qed.
Lemma reads_loadProof id lock : reads (loadProof id lock).
Proof. unfold loadProof. reads_tac. Qed.
Lemma reads_admit_proof p purpose row : reads (admit_proof s p purpose row).
Proof. unfold admit_proof. pose proof (reads_human p [ip_user_id row] true false). reads_tac. Qed.

Lemma record_logs user action details w r w' : record s user action details w = (r, w') → logs w w'.
Proof.
  unfold record, port. destruct (sv_audit s) as [f|] eqn:E; [|by intros [= _ <-]].
  intros H. eapply logs_of; [..|exact H]; by eapply (auditor_logs f).
Qed.
Lemma event_logs user action refs w r w' : event s user action refs w = (r, w') → logs w w'.
Proof.
  unfold event. intros [(u & w1 & L%record_logs & H)|(e & L%record_logs & _)]%bind_run; [|done..]. etrans; [exact L|].
  eapply logs_of; [..|exact H].
  - apply keeps_bind; [apply _|apply keeps_uuid_New, _|intros id; apply keeps_logged_EnqueueTx].
  - apply forward_bind; [apply forward_uuid_New|intros id; apply forward_EnqueueTx].
Qed.

Lemma transaction_Ok {A} (fn : Tx A) w a w' :
  transaction s fn w = (Ok a, w') → ∃ w0 w1, at_same w w0 ∧ fn w0 = (Ok a, w1) ∧ w_db w' = w_db w1 ∧ w_now w' = w_now w1.
Proof.
  unfold transaction. destruct (negb _); [done|]. intros (w1 & H & ->)%with_tx_Ok. apply bind_Ok in H as (u & w0 & H0%exec__Ok & H).
  exists w0, w1. split_and!; [|done..]. subst w0. by split_and!.
Qed.
Lemma transaction_Err {A} (fn : Tx A) w e w' : transaction s fn w = (Err e, w') → w_db w' = w_db w.
Proof. unfold transaction. destruct (negb _); [by intros [= _ <-]|]. apply with_tx_Err. Qed.
Lemma reads_transaction {A} (fn : Tx A) : reads fn → reads (transaction s fn).
Proof.
  intros [Hk Hf]. unfold transaction. destruct (negb _); [apply reads_fail|]. split.
  - apply keeps_with_tx, keeps_bind; [apply _|apply _|apply keeps_exec_; [apply _|done]|done].
  - apply forward_with_tx, forward_bind; [apply forward_exec_|done].
Qed.
End Effects.
#[export] Hint Resolve reads_subjects reads_session reads_org reads_human reads_loadProof reads_admit_proof : reads.

(** *** Issuing a proof *)

(** The proof issued before for the same purpose is withdrawn. *)
Definition superseded (user : uuid) (purpose : string) (m : gmap uuid proof_row) : gmap uuid proof_row :=
  if bool_decide (purpose = "invitation") then m
  else update_where (λ _ p, same_budget user purpose p && negb (ip_consumed p) && negb (ip_revoked p)) set_revoked m.
Definition issue (id delivery : uuid) (p : proof_row) (d : delivery_row) : DB → DB :=
  on_accounts (λ a, upd_t_identity_proof_deliveries <[delivery := d]>
    (upd_t_identity_proofs (λ m, <[id := p]> (superseded (ip_user_id p) (ip_purpose p) m)) a)).
(** A new proof and its delivery, which the constraints accept. *)
Definition issuable (id delivery : uuid) (p : proof_row) (d : delivery_row) (db : DB) : Prop :=
  proofs db !! id = None ∧ deliveries db !! delivery = None ∧ map_Forall (λ _ q, ip_proof_hash q ≠ ip_proof_hash p) (proofs db) ∧
  map_Forall (λ _ e, pd_proof_id e ≠ id) (deliveries db) ∧ ip_user_id p ∈ users db ∧ ip_purpose p ∈ purposes ∧
  ip_consumed p = false ∧ ip_revoked p = false ∧ ip_attempts p = 0%Z ∧ pd_proof_id d = id ∧ pd_state d = "pending".

Lemma superseded_lookup user purpose m k :
  superseded user purpose m !! k = (λ p, if negb (bool_decide (purpose = "invitation")) && same_budget user purpose p
    && negb (ip_consumed p) && negb (ip_revoked p) then set_revoked p else p) <$> m !! k.
Proof. unfold superseded. case_bool_decide; [by destruct (m !! k)|]. by rewrite lookup_update_where. Qed.
Lemma superseded_None user purpose m k : superseded user purpose m !! k = None ↔ m !! k = None.
Proof. by rewrite superseded_lookup, fmap_None. Qed.
Lemma superseded_hash user purpose m h :
  map_Forall (λ _ q, ip_proof_hash q ≠ h) (superseded user purpose m) → map_Forall (λ _ q, ip_proof_hash q ≠ h) m.
Proof.
  intros Hm k q Hq. assert (superseded user purpose m !! k = Some _) as Hs by (rewrite superseded_lookup, Hq; reflexivity).
  apply Hm in Hs. by destruct (_ && _) in Hs.
Qed.
Lemma supersede_Ok user purpose u w w' :
  (if bool_decide (purpose = "invitation") then mret () else
     exec_ (revoke_proofs (λ _ p, same_budget user purpose p && negb (ip_consumed p) && negb (ip_revoked p)))) w = (Ok u, w') →
  w_db w' = on_accounts (upd_t_identity_proofs (superseded user purpose)) (w_db w) ∧ w_now w' = w_now w.
Proof.
  unfold superseded. intros Hx. destruct (bool_decide _); steps; (split; [|done]); [|done..]. by destruct (w_db w') as [????????[]].
Qed.
Lemma insert_proof_Some id p db db' :
  insert_proof id p db = Some db' →
  (proofs db !! id = None ∧ ip_user_id p ∈ users db ∧ ip_purpose p ∈ purposes ∧ map_Forall (λ _ q, ip_proof_hash q ≠ ip_proof_hash p) (proofs db)) ∧
  db' = on_accounts (upd_t_identity_proofs <[id := p]>) db.
Proof.
  unfold insert_proof. destruct (_ || _) eqn:E; [done|]. intros [= <-]. split; [|done..]. b2p.
  destruct E as [[[[[E1 E2] _] E3] _] E4]. split_and!; [by apply eq_None_not_Some|by apply dec_stable|done|].
  intros k q Hq Hh. apply E4. by exists k, q.
Qed.
Lemma insert_delivery_Some id d db db' :
  insert_delivery id d db = Some db' →
  (deliveries db !! id = None ∧ map_Forall (λ _ e, pd_proof_id e ≠ pd_proof_id d) (deliveries db)) ∧
  db' = on_accounts (upd_t_identity_proof_deliveries <[id := d]>) db.
Proof.
  unfold insert_delivery. destruct (_ || _) eqn:E; [done|]. intros [= <-]. split; [|done..]. b2p. destruct E as [[E1 _] E2].
  split; [by apply eq_None_not_Some|]. intros k e He Hp. apply E2. by exists k, e.
Qed.
Lemma logs_EnqueueTx id kind payload effect max w r w' : EnqueueTx id kind payload effect max w = (r, w') → logs w w'.
Proof. apply logs_of; [apply keeps_logged_EnqueueTx|apply forward_EnqueueTx]. Qed.

Section Operations.
Context `{P : Primitives} `{NU : NetURL} `{UC : Unicode} `{ML : MailAddress} `{BC : Bcrypt} (s : Identity.Service) `{!IdentityOk s}.

Lemma createProof_Ok user session purpose contact w rq w' :
  createProof s user session purpose contact w = (Ok rq, w') →
  ∃ delivery p d, ip_user_id p = user ∧ ip_purpose p = purpose ∧ ip_contact p = contact ∧
    ip_session_id p = (if bool_decide (session = uuid_Nil) then None else Some session) ∧
    ip_expires_at p = (w_now w + lifetime purpose)%Z ∧ ip_created_at p = w_now w ∧
    (count_where (λ _ q, same_budget user purpose q && (w_now w - Hour <? ip_created_at q)%Z) (proofs (w_db w)) < 5)%Z ∧
    issuable (rq_ID rq) delivery p d (w_db w) ∧ rq_Status rq = "pending" ∧
    logged (issue (rq_ID rq) delivery p d (w_db w)) (w_db w') ∧ w_now w' = w_now w.
Proof.
  intros H. unfold createProof in H. destruct (sv_custody s) as [c|] eqn:Ec; [|done..]. branch H as B. steps. branch H as Bc.
  apply bind_Ok in H as (raw & w1 & H1 & H). apply bind_Ok in H as (id & w2 & H2 & H).
  apply bind_Ok in H as (delivery & w3 & H3 & H). apply bind_Ok in H as (sealed & w4 & H4 & H).
  apply bind_Ok in H as (u & w5 & H5 & H). apply bind_Ok in H as (u1 & w6 & H6 & H).
  apply bind_Ok in H as (u2 & w7 & H7 & H). apply bind_Ok in H as (u3 & w8 & H8 & H).
  apply bind_Ok in H as (job & w9 & H9 & H). apply bind_Ok in H as (u4 & w10 & H10 & H). apply ret_Ok in H as [<- <-].
  assert (at_same w w4) as S4.
  { etrans; [|by eapply reads_run; [eapply custody_seals|]]. apply uuid_New_at in H2, H3. etrans; [|exact H3]. etrans; [|exact H2].
    eapply (reads_run randomProof) in H1; [exact H1|]. apply reads_randomProof. }
  apply supersede_Ok in H5 as [E5 T5].
  lazymatch type of H6 with exec (insert_proof _ ?x) _ = _ => set (p := x) in H6 end.
  lazymatch type of H7 with exec (insert_delivery _ ?x) _ = _ => set (d := x) in H7 end.
  apply exec_Ok in H6 as (db6 & H6 & ->). apply insert_proof_Some in H6 as (G6 & ->).
  apply exec_Ok in H7 as (db7 & H7 & ->). apply insert_delivery_Some in H7 as (G7 & ->).
  apply record_logs in H8; [|done..]. apply uuid_New_at, at_same_logs in H9. apply logs_EnqueueTx in H10.
  destruct S4 as (E4 & T4 & _). rewrite E4 in E5.
  exists delivery, p, d. split_and!; try reflexivity.
  - b2p. exact Bc.
  - destruct G6 as (A1 & A2 & A3 & A4), G7 as (A5 & A6). rewrite E5 in A1, A2, A4. cbn in A5, A6. rewrite E5 in A5, A6.
    split_and!; try done; [by apply superseded_None in A1|by apply superseded_hash in A4].
  - change (logged (issue id delivery p d (w_db w)) (w_db w10)). etrans; [|exact (proj1 (transitivity H8 (transitivity H9 H10)))].
    cbn. rewrite E5. reflexivity.
  - rewrite (proj2 H10), (proj2 H9), (proj2 H8). cbn. congruence.
Qed.

(** *** Who is admitted *)

Lemma port_Ok {F A} (o : option F) (call : F → Tx A) w a w' :
  Identity.port o call w = (Ok a, w') → ∃ f, o = Some f ∧ call f w = (Ok a, w').
Proof. destruct o as [f|]; [by exists f|done]. Qed.
Lemma LockSubjects_known ids ex w u w' :
  Identity.LockSubjects s ids ex w = (Ok u, w') → ∀ id, id ∈ ids → id ≠ uuid_Nil ∧ id ∈ users (w_db w).
Proof. intros (g & Hg & H)%port_Ok. by eapply subjects_known. Qed.
Lemma RequireSession_known p recent w u w' :
  Identity.RequireSession s p recent w = (Ok u, w') → live_session (w_now w) p recent (w_db w).
Proof. intros (g & Hg & H)%port_Ok. by eapply session_known. Qed.
Lemma RequireOrg_known p org role w u w' :
  Identity.RequireOrg s p org role w = (Ok u, w') →
  (role = "" ∨ holds_role org (p_SubjectID p) role (w_db w)) ∧ live_session (w_now w) p false (w_db w).
Proof. intros (g & Hg & H)%port_Ok. by eapply org_known. Qed.

(** A human principal with a live session, whose subjects exist. *)
Definition acts (t : time) (p : Principal) (targets : list uuid) (recent : bool) (db : DB) : Prop :=
  is_human p = true ∧ (∀ id, id ∈ p_SubjectID p :: targets → id ∈ users db) ∧ live_session t p recent db.
Lemma actor_Ok p targets ex recent w u w' :
  Identity.actor s p targets ex recent w = (Ok u, w') → acts (w_now w) p targets recent (w_db w) ∧ at_same w w'.
Proof.
  intros H. split; [|by eapply reads_run; [apply reads_human|]]. unfold actor in H. branch H as B.
  apply bind_Ok in H as (u1 & w1 & H1%on_err_Ok & H%on_err_Ok). apply negb_false_iff in B.
  pose proof (reads_run _ _ _ _ (reads_subjects s _ _) H1) as (E & T & _).
  apply RequireSession_known in H. rewrite E, T in H. split_and!; [done| |done].
  intros id Hid. by eapply LockSubjects_known in H1 as [_ ?].
Qed.

(** *** Using a proof *)

(** A wrong guess. *)
Definition guess (id : uuid) : DB → DB := on_accounts (upd_t_identity_proofs (alter set_rejected id)).

Lemma reject_Ok user id purpose w u w' :
  reject s user id purpose w = (Ok u, w') → logged (guess id (w_db w)) (w_db w') ∧ w_now w' = w_now w.
Proof.
  unfold reject. intros (u1 & w1 & (db1 & H1 & ->)%exec_Ok & H2)%bind_Ok. apply event_logs in H2 as [L T].
  unfold reject_proof in H1. passed H1 as B. subst db1. all: done.
Qed.
Lemma loadProof_Ok id lock w p w' : loadProof id lock w = (Ok p, w') → proofs (w_db w) !! id = Some p ∧ at_same w w'.
Proof.
  intros H. split; [|by eapply reads_run; [apply reads_loadProof|]]. unfold loadProof in H.
  apply bind_Ok in H as (p' & w1 & [H1 _]%query_row_Ok & H). by apply bind_Ok in H as (u & w2 & _ & [-> _]%ret_Ok).
Qed.

(** An open proof of a purpose, and who may use it. *)
Definition admits (t : time) (p : Principal) (purpose : string) (row : proof_row) (db : DB) : Prop :=
  ip_purpose row = purpose ∧ proof_open t row = true ∧ ip_user_id row ∈ users db ∧
  (purpose = "contact_verify" → p_SubjectID p = ip_user_id row ∧ ip_session_id row = Some (p_SessionID p) ∧ acts t p [] false db).

Lemma consume_body_Ok p id raw purpose apply w b w' :
  consume_body s p id raw purpose apply w = (Ok b, w') →
  ∃ row, proofs (w_db w) !! id = Some row ∧ admits (w_now w) p purpose row (w_db w) ∧
    if b then hashProof raw ≠ ip_proof_hash row ∧ logged (guess id (w_db w)) (w_db w') ∧ w_now w' = w_now w
    else hashProof raw = ip_proof_hash row ∧
      ∃ w0 u w1, at_same w w0 ∧ apply row w0 = (Ok u, w1) ∧ logged (consume_proof id (w_now w) (w_db w1)) (w_db w') ∧ w_now w' = w_now w1.
Proof.
  unfold consume_body. intros H. apply bind_Ok in H as (row & w1 & [Hr S1]%on_err_Ok%loadProof_Ok & H).
  apply bind_Ok in H as (u & w2 & H2 & H). pose proof (reads_run _ _ _ _ (reads_admit_proof s _ _ _) H2) as S2.
  apply bind_Ok in H as (row' & w3 & [Hr' S3]%on_err_Ok%loadProof_Ok & H).
  apply bind_Ok in H as (t & w4 & [-> ->]%now_Ok & H). branch H as B.
  assert (at_same w w3) as S by (etrans; [exact S1|by etrans]). assert (row' = row) as ->.
  { destruct S1 as (E1 & _), S2 as (E2 & _). congruence. }
  exists row. split; [done|]. apply orb_false_iff in B as [B1 B2]. b2p.
  assert (admits (w_now w) p purpose row (w_db w)) as Ha.
  { destruct S as (_ & T & _), S1 as (E1 & T1 & _). unfold admits. rewrite T in B2. split; [done|]. split; [done|].
    unfold admit_proof in H2. destruct (bool_decide (purpose = _)) eqn:Bp; b2p.
    - apply bind_Ok in H2 as (u3 & w5 & [Hact _]%actor_Ok & H2). branch H2 as B3. b2p. destruct B3 as [B3 B4].
      rewrite E1, T1 in Hact. destruct Hact as (A1 & A2 & A3).
      split; [apply A2; set_solver|]. intros _. split_and!; [done|done|]. split_and!; [done| |done]. intros x Hx. apply A2. set_solver.
    - eapply LockSubjects_known in H2 as [_ H2]; [|by left]. split; [by rewrite <-E1|done]. }
  split; [done|]. destruct S as (E & T & R). destruct (bool_decide (hashProof raw = _)) eqn:Bh; cbn [negb] in H; b2p.
  - apply bind_Ok in H as (u3 & w5 & H5 & H). apply bind_Ok in H as (u4 & w6 & H6%exec__Ok & H).
    apply bind_Ok in H as (u5 & w7 & H7 & H). apply ret_Ok in H as [<- <-]. apply event_logs in H7 as [L7 T7]; [|done..].
    split; [done|]. exists w3, u3, w5. subst w6. rewrite T in L7. by split_and!.
  - apply bind_Ok in H as (u3 & w5 & [L5 T5]%reject_Ok & H). apply ret_Ok in H as [<- <-]. rewrite E in L5. split_and!; [done..|congruence].
Qed.
(** A use that is accepted. *)
Lemma consume_Ok p id raw purpose apply w u w' :
  consume s p id raw purpose apply w = (Ok u, w') →
  ∃ row w0 u1 w1, proofs (w_db w) !! id = Some row ∧ admits (w_now w) p purpose row (w_db w) ∧ hashProof raw = ip_proof_hash row ∧
    at_same w w0 ∧ apply row w0 = (Ok u1, w1) ∧ logged (consume_proof id (w_now w) (w_db w1)) (w_db w') ∧ w_now w' = w_now w1.
Proof.
  unfold consume. destruct (_ || _); [done|]. intros H. apply bind_Ok in H as (b & w1 & H1 & H). branch H as B. apply ret_Ok in H as [_ <-]. subst b.
  apply transaction_Ok in H1 as (w0 & w2 & S0 & H1 & E2 & T2); [|done..]. destruct S0 as (E0 & T0 & R0).
  apply consume_body_Ok in H1 as (row & Hr & Ha & Hh & w3 & u1 & w4 & S3 & Hap & L & T4). rewrite E0 in Hr. rewrite E0, T0 in Ha. rewrite T0 in L.
  exists row, w3, u1, w4. rewrite E2, T2. split_and!; try done. etrans; [|exact S3]. done.
Qed.
(** A use that is refused changes nothing, or counts a wrong guess. *)
Lemma consume_Err p id raw purpose apply w e w' :
  consume s p id raw purpose apply w = (Err e, w') →
  w_db w' = w_db w ∨ e = ErrProof ∧ ∃ row, proofs (w_db w) !! id = Some row ∧ admits (w_now w) p purpose row (w_db w) ∧
    hashProof raw ≠ ip_proof_hash row ∧ logged (guess id (w_db w)) (w_db w').
Proof.
  unfold consume. destruct (_ || _); [intros [= _ <-]; by left|]. intros [H|(b & w1 & H1 & H)]%bind_Err; [left; by eapply transaction_Err|].
  destruct b; [|done..]. injection H as <- <-. right. split; [done|].
  apply transaction_Ok in H1 as (w0 & w2 & (E0 & T0 & R0) & H1 & E2 & T2); [|done..].
  apply consume_body_Ok in H1 as (row & Hr & Ha & Hh & L & _). rewrite E0 in Hr, L. rewrite E0, T0 in Ha. rewrite E2. by exists row.
Qed.
End Operations.
