(* ===== verification/IdentityTeamSpec.v ===== *)
(** * The identity platform: invitations and offboarding, effects

    What [IdentityTeam]'s operations do to the database when they succeed. *)
From S2P Require Import Prelude GoStrings GoEncoding GoNet GoStruct GoUnicode Policy Schema Database Crypto Jobs Authority AuditLog VaultStore Vault Runs RunGrants Passwords Identity IdentityTeam IdentitySpec.

(** *** Members of an organization *)

(** Rows that [lockMemberStates] adds where there were none: not active. *)
Definition fills (org : uuid) (ids : list uuid) (db db' : DB) : Prop :=
  ∃ m, db' = on_states (const m) db ∧
    ∀ k, m !! k = member_states db !! k ∨ member_states db !! k = None ∧ m !! k = Some (false, 1%Z) ∧ k.1 = org ∧ k.2 ∈ ids.
Lemma fills_refl org ids db : fills org ids db db.
Proof. exists (member_states db). split; [by destruct db as [[]]|]. intros k. by left. Qed.
#[export] Instance fills_preorder org ids : PreOrder (fills org ids).
Proof.
  split; [intros db; apply fills_refl|]. intros a b c (m1 & -> & H1) (m2 & -> & H2). exists m2. split; [done|].
  intros k. destruct (H2 k) as [E2|(E2 & E3 & E4)]; unfold member_states in E2 |- *; cbn in E2.
  - rewrite E2. apply H1.
  - destruct (H1 k) as [E1|(E1 & E5 & _)]; [|congruence]. right. split; [|done]. unfold member_states in E1. congruence.
Qed.
Lemma fills_lookup org ids db db' k e :
  fills org ids db db' → member_states db' !! k = Some (true, e) → member_states db !! k = Some (true, e).
Proof. intros (m & -> & H) Hk. unfold member_states in Hk. cbn in Hk. destruct (H k) as [<-|(_ & E & _)]; congruence. Qed.
Lemma fills_same org ids db db' :
  fills org ids db db' → db_accounts db' = db_accounts db ∧ users db' = users db ∧ sessions db' = sessions db ∧
    organizations db' = organizations db ∧ members db' = members db ∧ db_projects db' = db_projects db ∧ db_tools db' = db_tools db.
Proof. by intros (m & -> & _). Qed.

Lemma fills_some org ids db db' k : fills org ids db db' → is_Some (member_states db !! k) → is_Some (member_states db' !! k).
Proof. intros (m & -> & H) Hk. unfold member_states at 1. cbn. destruct (H k) as [->|(E & _)]; [done|]. rewrite E in Hk. by destruct Hk. Qed.
Lemma fills_mono org ids ids' db db' : ids ⊆ ids' → fills org ids db db' → fills org ids' db db'.
Proof. intros Hs (m & E & H). exists m. split; [done|]. intros k. destruct (H k) as [?|(A & B & C & D)]; [by left|right]. split_and!; auto. Qed.
Lemma lockMemberStates_Ok org ids w u w' :
  lockMemberStates org ids w = (Ok u, w') →
  fills org ids (w_db w) (w_db w') ∧ w_now w' = w_now w ∧ ∀ id, id ∈ ids → is_Some (member_states (w_db w') !! (org, id)).
Proof.
  unfold lockMemberStates. intros H.
  enough (∀ l w, l ⊆ ids → for_each l (λ id, _ ← exec (insert_state org id); _ ← query_row (λ db, member_states db !! (org, id));
      note_lock (LockMemberState org id)) w = (Ok u, w') →
    fills org ids (w_db w) (w_db w') ∧ w_now w' = w_now w ∧ ∀ id, id ∈ l → is_Some (member_states (w_db w') !! (org, id))) as G.
  { destruct (G (sorted_set ids) w) as (F & T & S); [intros x; by rewrite elem_of_sorted_set|done|].
    split_and!; [done..|]. intros id Hid. by apply S, elem_of_sorted_set. }
  clear w H. induction l as [|id l IH]; intros w Hs H; cbn in H.
  - steps. split_and!; [apply fills_refl|done|]. intros id Hid. by apply elem_of_nil in Hid.
  - apply bind_Ok in H as (u1 & w1 & H1 & H). apply bind_Ok in H1 as (u2 & w2 & (db2 & H2 & ->)%exec_Ok & H1).
    apply bind_Ok in H1 as (st & w3 & [H3 E3]%query_row_Ok & H1). subst w3. apply note_lock_Ok in H1. subst w1.
    apply IH in H as (F & T & S); [|set_solver]. cbn in H3, F, T.
    assert (fills org ids (w_db w) db2) as F0.
    { unfold insert_state in H2. passed H2 as B. destruct (member_states (w_db w) !! (org, id)) eqn:E; injection H2 as <-; [apply fills_refl|].
      exists (<[(org, id) := (false, 1%Z)]> (member_states (w_db w))). split; [done|]. intros k.
      destruct (decide (k = (org, id))) as [->|Hk]; [right|left; by rewrite lookup_insert_ne].
      rewrite lookup_insert_eq. split_and!; [done..|]. apply Hs. by left. }
    split_and!; [by etrans|done|]. intros x [->|Hx]%elem_of_cons; [|by apply S].
    eapply fills_some; [exact F|by rewrite H3].
Qed.

(** *** Accepting an invitation *)

(** An invitation that may be used now: it is open, its proof is open and was
    issued to the inviter, who is still an administrator in the session that
    asked. *)
Definition invites (t : time) (p : Principal) (id : uuid) (i : invitation_row) (row : proof_row) (db : DB) : Prop :=
  invitations db !! id = Some i ∧ proofs db !! id = Some row ∧ is_human p = true ∧ iv_accepted_by i = None ∧ iv_revoked i = false ∧
  ip_purpose row = "invitation" ∧ ip_user_id row = iv_inviter_id i ∧ proof_open t row = true ∧ iv_organization_id i ∈ organizations db ∧
  holds_role (iv_organization_id i) (iv_inviter_id i) "admin" db ∧
  live_session t (human (iv_inviter_id i) (default uuid_Nil (ip_session_id row))) false db ∧ live_session t p false db.
(** Who is admitted, and into what. *)
Definition may_join (p : Principal) (i : invitation_row) (row : proof_row) (db : DB) : Prop :=
  (iv_target_user_id i = Some (p_SubjectID p) ∨ iv_target_user_id i = None ∧ active_contact (p_SubjectID p) (ip_contact row) db = true) ∧
  members db !! (iv_organization_id i, p_SubjectID p) = None ∧
  (organization_owners db !! iv_organization_id i = Some (p_SubjectID p) → iv_intended_role i = "admin").
(** What joining writes. *)
Definition join (t : time) (org user : uuid) (role : string) (id : uuid) (db : DB) : DB :=
  consume_proof id t (accept_invitation id user t
    (on_states <[(org, user) := joined (member_states db !! (org, user))]> (on_members <[(org, user) := role]> db))).

Section Team.
Context `{P : Primitives} `{NU : NetURL} `{UC : Unicode} `{ML : MailAddress} `{BC : Bcrypt} (s : Identity.Service) `{!IdentityOk s}.

Lemma reads_organization_row org : reads (organization_row org).
Proof. unfold organization_row. reads_tac. Qed.
Lemma organization_row_Ok org w u w' : organization_row org w = (Ok u, w') → org ∈ organizations (w_db w) ∧ at_same w w'.
Proof.
  intros H. split; [|by eapply reads_run; [apply reads_organization_row|]]. unfold organization_row in H.
  apply bind_Ok in H as (o & w1 & [H _]%query_row_Ok & _). by destruct (decide _).
Qed.

Lemma live_session_fills org ids db db' t p recent :
  fills org ids db db' → live_session t p recent db' → live_session t p recent db.
Proof. intros (m & -> & _) H. exact H. Qed.
Lemma holds_role_fills org ids db db' o user role :
  fills org ids db db' → holds_role o user role db' → holds_role o user role db.
Proof.
  intros F (a & e & H1 & H2 & H3 & H4). exists a, e. destruct (fills_same _ _ _ _ F) as (_ & _ & _ & _ & E & _).
  rewrite E in H1. split_and!; [done..| |done]. by eapply fills_lookup.
Qed.

Lemma may_join_fills org ids p i row db db' : fills org ids db db' → may_join p i row db' → may_join p i row db.
Proof.
  intros (Ea & _ & _ & _ & Em & _)%fills_same (H1 & H2 & H3). unfold may_join, active_contact, contacts, organization_owners in *.
  rewrite Ea in H1, H3. rewrite Em in H2. by split_and!.
Qed.
Lemma invited_Ok p target contact w u w' :
  invited p target contact w = (Ok u, w') →
  (target = Some (p_SubjectID p) ∨ target = None ∧ active_contact (p_SubjectID p) contact (w_db w) = true) ∧ at_same w w'.
Proof.
  unfold invited. destruct target as [x|]; intros H.
  - branch H as B. b2p. subst. apply ret_Ok in H as [_ <-]. split; [by left|done].
  - apply bind_Ok in H as (held & w1 & [-> ->]%query_Ok & [H <-]%check_Ok). split; [by right|]. by split_and!.
Qed.

Lemma insert_member_Some org user role db db' :
  insert_member org user role db = Some db' →
  (members db !! (org, user) = None ∧ varchar 50 role = true) ∧
  db' = on_states <[(org, user) := joined (member_states db !! (org, user))]> (on_members <[(org, user) := role]> db).
Proof.
  unfold insert_member. intros H. passed H as B. subst. rewrite !orb_false_iff, negb_false_iff in B. destruct B as [[[B _] _] B']. b2p.
  split; [|done]. split; [by apply eq_None_not_Some|done].
Qed.
Lemma join_invited_Ok p id i row t w u w' :
  join_invited s p id i row t w = (Ok u, w') →
  may_join p i row (w_db w) ∧ varchar 50 (iv_intended_role i) = true ∧ w_now w' = w_now w ∧
  logged (join t (iv_organization_id i) (p_SubjectID p) (iv_intended_role i) id (w_db w)) (w_db w').
Proof.
  unfold join_invited. intros H. apply bind_Ok in H as (u1 & w1 & [Ht S1]%invited_Ok & H).
  apply bind_Ok in H as (owner & w2 & [Ho ->]%query_row_Ok & H). branch H as Bo.
  apply bind_Ok in H as (ex & w3 & [-> ->]%query_Ok & H). branch H as Be. apply bind_Ok in H as (x & w4 & S4%uuid_New_at & H).
  apply bind_Ok in H as (u5 & w5 & (db5 & ((Hm & Hv) & E5)%insert_member_Some & ->)%exec_Ok & H).
  apply bind_Ok in H as (u6 & w6 & ->%exec__Ok & H). apply bind_Ok in H as (u7 & w7 & ->%exec__Ok & H). apply event_logs in H as [L T]; [|done].
  destruct S1 as (E1 & T1 & _), S4 as (E4 & T4 & _). cbn in E4, T4, L, T, Ho. rewrite E4, E1 in Hm, E5. rewrite E1 in Ho.
  split_and!; [|done|congruence|by subst db5]. split_and!; [done..|]. intros Hw. unfold organization_owner in Ho.
  destruct (decide _) in Ho; [|done]. assert (owner = p_SubjectID p) as -> by congruence. apply andb_false_iff in Bo as [Bo|Bo]; b2p; [done|].
  exact Bo.
Qed.

Lemma accept_body_Ok p id raw w b w' :
  accept_body s p id raw w = (Ok b, w') →
  ∃ i row db1, invites (w_now w) p id i row (w_db w) ∧ fills (iv_organization_id i) [p_SubjectID p; iv_inviter_id i] (w_db w) db1 ∧
    w_now w' = w_now w ∧ is_Some (member_states db1 !! (iv_organization_id i, p_SubjectID p)) ∧
    if b then hashProof raw ≠ ip_proof_hash row ∧ logged (guess id db1) (w_db w')
    else hashProof raw = ip_proof_hash row ∧ may_join p i row (w_db w) ∧ varchar 50 (iv_intended_role i) = true ∧
      logged (join (w_now w) (iv_organization_id i) (p_SubjectID p) (iv_intended_role i) id db1) (w_db w').
Proof.
  unfold accept_body. intros H. apply bind_Ok in H as (i & w1 & [Hi ->]%on_err_Ok%query_row_Ok & H). branch H as B. apply negb_false_iff in B.
  apply bind_Ok in H as (u2 & w2 & H2%on_err_Ok & H). pose proof (reads_run _ _ _ _ (reads_subjects s _ _) H2) as S2.
  apply bind_Ok in H as (u3 & w3 & [Ho S3]%on_err_Ok%organization_row_Ok & H).
  apply bind_Ok in H as (u4 & w4 & (F & T4 & Hs)%lockMemberStates_Ok & H).
  assert (at_same w w3) as S by (etrans; [|exact S3]; etrans; [|exact S2]; by split_and!). destruct S as (E3 & T3 & _). assert (w_db w2 = w_db w) as E2 by apply S2.
  rewrite E3 in F. assert (w_now w4 = w_now w) as T by congruence. clear S2 S3 T4 H2.
  apply bind_Ok in H as (row & w5 & [Hr S5]%on_err_Ok%loadProof_Ok & H).
  apply bind_Ok in H as (u6 & w6 & H6%on_err_Ok & H). pose proof (reads_run _ _ _ _ (reads_org s _ _ _) H6) as S6.
  apply RequireOrg_known in H6 as [Hrole Hlive]; [|done].
  apply bind_Ok in H as (u7 & w7 & H7 & H). pose proof (reads_run _ _ _ _ (reads_session s _ _) H7) as S7.
  apply RequireSession_known in H7; [|done].
  apply bind_Ok in H as (cur & w8 & [Hc ->]%on_err_Ok%query_row_Ok & H). apply bind_Ok in H as (u8 & w8 & ->%note_lock_Ok & H).
  branch H as Bc. apply orb_false_iff in Bc as [Bc1 Bc2].
  apply bind_Ok in H as (row' & w9 & [Hr' S9]%on_err_Ok%loadProof_Ok & H). apply bind_Ok in H as (t & w10 & [-> ->]%now_Ok & H).
  branch H as Bp. rewrite !orb_false_iff, !negb_false_iff in Bp. destruct Bp as [[Bp1 Bp2] Bp3]. b2p.
  assert (at_same w4 w6) as S46 by (etrans; [exact S5|exact S6]).
  assert (at_same w4 w7) as S47 by (etrans; [exact S46|exact S7]).
  assert (at_same w4 w9) as S49 by (etrans; [exact S47|]; etrans; [|exact S9]; by split_and!).
  destruct S5 as (E5 & T5 & _), S46 as (E6 & T6 & _), S47 as (E7 & T7 & _), S49 as (E9 & T9 & _).
  cbn in Hr'. rewrite E7 in Hr'. assert (row' = row) as -> by congruence. rewrite E5 in Hrole, Hlive. rewrite E6 in H7. rewrite E7 in Hc.
  destruct (fills_same _ _ _ _ F) as (Ea & _ & _ & Eo & _).
  assert (proofs (w_db w4) = proofs (w_db w) ∧ invitations (w_db w4) = invitations (w_db w)) as [Ep Ei] by (unfold proofs, invitations; by rewrite Ea).
  exists i, row, (w_db w4). rewrite T5, T in Hlive. rewrite T6, T in H7. rewrite T9, T in Bp3.
  assert (w_now w' = w_now w9 ∧ if b then hashProof raw ≠ ip_proof_hash row ∧ logged (guess id (w_db w4)) (w_db w')
    else hashProof raw = ip_proof_hash row ∧ may_join p i row (w_db w4) ∧ varchar 50 (iv_intended_role i) = true ∧
      logged (join (w_now w) (iv_organization_id i) (p_SubjectID p) (iv_intended_role i) id (w_db w4)) (w_db w')) as [T' Hb].
  { destruct (bool_decide (hashProof raw = _)) eqn:Bh; cbn [negb] in H; b2p; apply bind_Ok in H as (u9 & w10 & H & [<- <-]%ret_Ok).
    - apply join_invited_Ok in H as (J & V & T' & L). rewrite E9 in J, L. rewrite T9, T in L. by split_and!.
    - apply reject_Ok in H as [L T']; [|done]. rewrite E9 in L. by split_and!. }
  split; [|split; [done|split; [congruence|split; [by apply Hs; left|]]]].
  - rewrite Ei in Hc. rewrite Hi in Hc. cbn in Hc. rewrite !bool_decide_true in Hc by done. injection Hc as <-. cbn in Bc1, Bc2.
    unfold invites. split_and!; try done.
    + by rewrite <-Ep.
    + by apply eq_None_not_Some.
    + by rewrite <-E2.
    + destruct Hrole as [|Hrole]; [done|]. by eapply holds_role_fills.
    + by eapply live_session_fills.
    + by eapply live_session_fills.
  - destruct b; [done|]. destruct Hb as (Hh & J & V & L). split_and!; try done. by eapply may_join_fills.
Qed.
End Team.

(** *** Offboarding *)

(** Who may take a member out of an organization. *)
Definition may_offboard (t : time) (p : Principal) (org target : uuid) (db : DB) : Prop :=
  is_human p = true ∧ target ∈ users db ∧ holds_role org (p_SubjectID p) "admin" db ∧ live_session t p false db ∧
  ∃ owner, organization_owners db !! org = Some owner ∧ owner ≠ target.
(** What the rest of a departure writes, the cascade aside. *)
Definition depart (org target : uuid) (db : DB) : DB :=
  delete_api_keys (λ _ k, departing_key org target (delete_member org target db) k) (delete_member org target db).
Definition withdraw (org target : uuid) (db : DB) : DB :=
  revoke_invitations (departing_invitation org target (cancel_approvals org target db)) (cancel_approvals org target db).

Section Offboarding.
Context `{P : Primitives} `{JT : JsonbText} `{U : UUIDParse} (s : Identity.Service) `{!IdentityOk s}.

Lemma lock_project_rows_reads org : reads (lock_project_rows org).
Proof. unfold lock_project_rows. reads_tac. Qed.
Lemma offboardLocks_Ok p org target ex w u w' :
  offboardLocks s p org target ex w = (Ok u, w') →
  may_offboard (w_now w) p org target (w_db w) ∧ fills org [p_SubjectID p; target] (w_db w) (w_db w') ∧ w_now w' = w_now w ∧
  (ex = false → w_db w' = w_db w ∧ ∃ e, member_states (w_db w) !! (org, target) = Some (true, e)).
Proof.
  unfold offboardLocks. intros H. branch H as B. apply negb_false_iff in B.
  apply bind_Ok in H as (u1 & w1 & H1 & H). pose proof (reads_run _ _ _ _ (reads_subjects s _ _) H1) as (E1 & T1 & _).
  apply LockSubjects_known with (id := target) in H1 as [_ Hu]; [|done|set_solver].
  apply bind_Ok in H as (owner & w2 & [Ho ->]%on_err_Ok%query_row_Ok & H). apply bind_Ok in H as (u2 & w2 & ->%note_lock_Ok & H).
  branch H as Bo. b2p. apply bind_Ok in H as (u3 & w3 & H3 & H). apply (reads_run _ _ _ _ (lock_project_rows_reads _)) in H3 as (E3 & T3 & _).
  apply bind_Ok in H as (u4 & w4 & H4 & H%on_err_Ok). cbn in E3, T3, Ho. rewrite E1 in Ho, E3. rewrite T1 in T3.
  assert (fills org [p_SubjectID p; target] (w_db w) (w_db w4) ∧ w_now w4 = w_now w ∧
    (ex = false → w_db w4 = w_db w ∧ ∃ e, member_states (w_db w) !! (org, target) = Some (true, e))) as (F & T4 & Hx).
  { destruct ex.
    - apply lockMemberStates_Ok in H4 as (F & T & _). rewrite E3 in F. split_and!; [done|congruence|done].
    - apply (for_each_Ok_facts (λ id, ∃ e, member_states (w_db w) !! (org, id) = Some (true, e)) same_state) in H4 as [Hm (E & T & _)].
      + rewrite E, E3. split_and!; [apply fills_refl|congruence|]. intros _. split; [done|]. apply Hm, elem_of_sort_uuids. set_solver.
      + intros k v v' x (Ev & _) Hb. apply bind_Ok in Hb as ([a e] & v1 & [Hs ->]%on_err_Ok%query_row_Ok & Hb).
        apply bind_Ok in Hb as (y & v2 & ->%note_lock_Ok & [Ha <-]%check_Ok). cbn in Ha. subst a. rewrite Ev, E3 in Hs. split; [by exists e|done]. }
  pose proof (reads_run _ _ _ _ (reads_org s _ _ _) H) as (E5 & T5 & _). apply RequireOrg_known in H as [[|Hr] Hl]; [done| |done].
  rewrite T4 in Hl. rewrite E5, T5, T4. split_and!; [|done..]. unfold organization_owner in Ho. destruct (decide _) in Ho; [|done].
  unfold may_offboard. split_and!; [done|done|by eapply holds_role_fills|by eapply live_session_fills|by exists owner].
Qed.

Lemma reads_inventory org target : reads (offboardingInventory org target).
Proof. unfold offboardingInventory. reads_tac. Qed.
Lemma reads_impact org target : reads (offboardingImpact org target).
Proof. unfold offboardingImpact. reads_tac. Qed.
Lemma offboardingInventory_Ok org target w o w' :
  offboardingInventory org target w = (Ok o, w') →
  at_same w w' ∧ member_states (w_db w) !! (org, target) = Some (true, ob_Epoch o) ∧
  o = mkOffboarding uuid_Nil uuid_Nil 0 org target (ob_Epoch o)
        (count_where (λ _ k, departing_key org target (w_db w) k) (api_keys (w_db w)))
        (count_where (λ _ l, departing_lease org target (w_db w) l && negb (le_revoked l)) (leases (w_db w)))
        (count_where (λ _ r, offboardingRunSelection org target (w_db w) r) (runs (w_db w)))
        "preview" (Some (ownedProjects org target (w_db w))) (Some (ownedCredentials org target (w_db w))).
Proof.
  intros H. split; [by eapply reads_run; [apply reads_inventory|]|]. unfold offboardingInventory in H.
  apply bind_Ok in H as ([a e] & w1 & [Hs ->]%on_err_Ok%query_row_Ok & H). branch H as B. cbn in B. apply negb_false_iff in B as ->.
  apply bind_Ok in H as (ks & w2 & [-> ->]%query_Ok & H). apply bind_Ok in H as (ls & w3 & [-> ->]%query_Ok & H).
  apply bind_Ok in H as (rs & w4 & [-> ->]%query_Ok & H). apply bind_Ok in H as (os & w5 & [-> ->]%query_Ok & H).
  apply bind_Ok in H as (cs & w6 & [-> ->]%query_Ok & H). apply ret_Ok in H as [<- _]. done.
Qed.
Lemma offboardingImpact_Ok org target w d w' :
  offboardingImpact org target w = (Ok d, w') → d = impact_digest (impact_selection org target (w_db w)) ∧ at_same w w'.
Proof.
  intros H. split; [|by eapply reads_run; [apply reads_impact|]]. unfold offboardingImpact in H.
  by apply bind_Ok in H as (l & w1 & [-> _]%query_Ok & [<- _]%ret_Ok).
Qed.

(** An open preview of exactly this departure, by the same actor. *)
Definition previewed (t : time) (p : Principal) (org target : uuid) (expected : Z) (v : preview_row) (db : DB) : Prop :=
  pv_organization_id v = org ∧ pv_actor_id v = p_SubjectID p ∧ pv_target_user_id v = target ∧ pv_authority_epoch v = expected ∧
  pv_consumed_at v = None ∧ (t < pv_expires_at v)%Z ∧ pv_impact_digest v = impact_digest (impact_selection org target db).
Lemma check_preview_Ok p org target expected preview o w o' w' :
  check_preview p org target expected preview o w = (Ok o', w') →
  w_now w' = w_now w ∧
  (preview = uuid_Nil ∧ o' = o ∧ w_db w' = w_db w ∨
   ∃ v, previews (w_db w) !! preview = Some v ∧ previewed (w_now w) p org target expected v (w_db w) ∧
     o' = with_preview preview (pv_expires_at v) o ∧ w_db w' = use_preview preview (w_now w) (w_db w)).
Proof.
  unfold check_preview. destruct (bool_decide (preview = uuid_Nil)) eqn:B; b2p.
  { intros [<- <-]%ret_Ok. split; [done|by left]. }
  intros H. apply bind_Ok in H as (dv & w1 & [Hv ->]%on_err_Ok%query_row_Ok & H). apply bind_Ok in H as (u & w1 & ->%note_lock_Ok & H).
  apply bind_Ok in H as (t & w1 & [-> ->]%now_Ok & H). branch H as Bt. apply bind_Ok in H as (im & w2 & [-> (E2 & T2 & _)]%offboardingImpact_Ok & H).
  branch H as Bi. apply bind_Ok in H as (u2 & w3 & ->%exec__Ok & [<- <-]%ret_Ok). cbn in E2, T2, Bt |- *. split; [done|right].
  unfold open_preview in Hv. destruct (previews (w_db w) !! preview) as [v|] eqn:Ev; [|done]. cbn in Hv.
  destruct (_ && _) eqn:Bv in Hv; [|done]. injection Hv as <-. cbn in *. b2p. unfold After in Bt. rewrite E2.
  exists v. split_and!; try done. unfold previewed. destruct Bv as [[[[B1 B2] B3] B4] B5]. split_and!; try done. lia.
Qed.

Lemma leave_Ok p org target key digest o w o' w' :
  leave s p org target key digest o w = (Ok o', w') →
  ∃ w1 runs w2 id db3, w_db w1 = depart org target (w_db w) ∧ w_now w1 = w_now w ∧ run_cascade s org target (ob_Runs o) w1 = (Ok runs, w2) ∧
    o' = revoked_inventory id runs o ∧
    insert_offboarding id (mkOffboardingRow org (p_SubjectID p) target key digest (ob_Epoch o') (normalize (Offboarding_json o')))
      (withdraw org target (w_db w2)) = Some db3 ∧
    logged db3 (w_db w') ∧ w_now w' = w_now w2.
Proof.
  unfold leave. intros H. apply bind_Ok in H as (u1 & w1 & ->%exec__Ok & H). apply bind_Ok in H as (u2 & w2 & ->%exec__Ok & H).
  apply bind_Ok in H as (runs & w3 & Hc & H). apply bind_Ok in H as (u4 & w4 & ->%exec__Ok & H). apply bind_Ok in H as (u5 & w5 & ->%exec__Ok & H).
  apply bind_Ok in H as (id & w6 & S6%uuid_New_at & H). apply bind_Ok in H as (u7 & w7 & (db3 & H7 & ->)%exec_Ok & H).
  apply bind_Ok in H as (u8 & w8 & [L T]%event_logs & [<- <-]%ret_Ok); [|done]. destruct S6 as (E6 & T6 & _). cbn in E6, T6, L, T.
  eexists _, runs, w3, id, db3. split; [|split; [|split; [exact Hc|]]]; [done..|]. rewrite E6 in H7. split_and!; [done..|congruence].
Qed.

(** A first departure under a key; [db1] is the database under the locks. *)
Lemma offboard_Ok p org target expected key preview w o w' :
  offboard s p org target expected key preview w = (Ok o, w') → offboarding_by_key org (p_SubjectID p) key (w_db w) = None →
  ∃ db1 db2 w1 w2 id db3, may_offboard (w_now w) p org target (w_db w) ∧ fills org [p_SubjectID p; target] (w_db w) db1 ∧
    member_states (w_db w) !! (org, target) = Some (true, expected) ∧ (1 <= expected)%Z ∧
    (preview = uuid_Nil ∧ db2 = db1 ∨
     ∃ v, previews db1 !! preview = Some v ∧ previewed (w_now w) p org target expected v db1 ∧ db2 = use_preview preview (w_now w) db1) ∧
    w_db w1 = depart org target db2 ∧ w_now w1 = w_now w ∧
    run_cascade s org target (count_where (λ _ r, offboardingRunSelection org target db1 r) (runs db1)) w1 = (Ok (ob_Runs o), w2) ∧
    ob_ID o = id ∧ ob_Epoch o = incr64 expected ∧ ob_Status o = "locally_revoked" ∧
    insert_offboarding id (mkOffboardingRow org (p_SubjectID p) target key (offboard_digest org target expected preview) (ob_Epoch o)
      (normalize (Offboarding_json o))) (withdraw org target (w_db w2)) = Some db3 ∧
    logged db3 (w_db w').
Proof.
  unfold offboard. intros H Hn. branch H as B. rewrite !orb_false_iff in B. destruct B as [_ B]. b2p.
  apply transaction_Ok in H as (w0 & w8 & (E0 & T0 & _) & H & E8 & _); [|done..].
  apply bind_Ok in H as (u & w3 & (Hm & F & T3 & _)%offboardLocks_Ok & H); [|done..]. rewrite E0 in F, Hm. rewrite T0 in Hm, T3.
  apply bind_Ok in H as (prev & w4 & [-> ->]%query_Ok & H).
  assert (offboarding_by_key org (p_SubjectID p) key (w_db w3) = None) as Hn3.
  { destruct (fills_same _ _ _ _ F) as (Ea & _). unfold offboarding_by_key, offboardings in *. by rewrite Ea. }
  rewrite Hn3 in H. apply bind_Ok in H as (o1 & w4 & ((E4 & T4 & _) & Hs & Ho)%offboardingInventory_Ok & H). cbn in E4, T4, Hs, Ho.
  branch H as Be. b2p. apply bind_Ok in H as (o2 & w5 & [T5 Hp]%check_preview_Ok & H).
  apply bind_Ok in H as (u2 & w6 & H6 & H).
  assert (at_same w5 w6) as (E6 & T6 & _).
  { eapply reads_run, H6. unfold check_cascade. destruct (sv_cascade s); reads_tac. }
  apply leave_Ok in H as (w1 & runs & w2 & id & db3 & E1 & T1 & Hc & -> & Hi & L & _). rewrite E6 in E1.
  rewrite E4 in Hp. rewrite T4, T3 in Hp. rewrite Be in Hs.
  exists (w_db w3), (w_db w5), w1, w2, id, db3. split; [exact Hm|]. split; [exact F|]. split; [by eapply fills_lookup|]. split; [lia|].
  rewrite E8. destruct Hp as [(-> & -> & E5)|(v & Hv & Hpv & -> & E5)]; rewrite E5; (split; [|split; [by rewrite E1, E5|split; [congruence|]]]).
  - by left.
  - rewrite Ho in Hc. split_and!; try done. cbn. congruence.
  - right. by exists v.
  - rewrite Ho in Hc. split_and!; try done. cbn. congruence.
Qed.

Lemma insert_preview_Some id v db db' :
  insert_preview id v db = Some db' →
  previews db !! id = None ∧ db' = on_accounts (upd_t_identity_offboarding_previews <[id := v]>) db.
Proof.
  unfold insert_preview. intros H. passed H as B. subst. rewrite !orb_false_iff in B. destruct B as [[[[B _] _] _] _]. b2p.
  split; [by apply eq_None_not_Some|done].
Qed.
Lemma PreviewOffboarding_Ok p org target w o w' :
  PreviewOffboarding s p org target w = (Ok o, w') →
  may_offboard (w_now w) p org target (w_db w) ∧ member_states (w_db w) !! (org, target) = Some (true, ob_Epoch o) ∧
  previews (w_db w) !! ob_PreviewID o = None ∧
  previews (w_db w') = <[ob_PreviewID o := mkPreviewRow org (p_SubjectID p) target (ob_Epoch o)
    (impact_digest (impact_selection org target (w_db w))) (w_now w + 5 * Minute)%Z None]> (previews (w_db w)).
Proof.
  unfold PreviewOffboarding. intros (w0 & w9 & (E0 & T0 & _) & H & E9 & _)%transaction_Ok; [|done..].
  apply bind_Ok in H as (u & w1 & (Hm & _ & T1 & Hx)%offboardLocks_Ok & H); [|done..]. destruct (Hx eq_refl) as [E1 _].
  apply bind_Ok in H as (o1 & w2 & ((E2 & T2 & _) & Hs & Ho)%offboardingInventory_Ok & H).
  apply bind_Ok in H as (im & w3 & [-> (E3 & T3 & _)]%offboardingImpact_Ok & H). apply bind_Ok in H as (id & w4 & (E4 & T4 & _)%uuid_New_at & H).
  apply bind_Ok in H as (t & w5 & [-> ->]%now_Ok & H). apply bind_Ok in H as (u5 & w5 & (db5 & [Hn H5]%insert_preview_Some & ->)%exec_Ok & H).
  apply bind_Ok in H as (u6 & w6 & [L _]%event_logs & [<- <-]%ret_Ok); [|done..]. cbn in L. rewrite E9.
  assert (w_db w4 = w_db w) as E by congruence. assert (w_now w4 = w_now w) as T by congruence.
  rewrite E, E1, E0 in *. rewrite T0 in Hm. rewrite T in H5. split; [done|]. split; [exact Hs|]. split; [exact Hn|].
  unfold previews. rewrite (logged_accounts _ _ L), H5, E2. reflexivity.
Qed.
End Offboarding.
