(* ===== verification/IdentityTrace.v ===== *)
(** * The identity platform: runs of operations

    Every operation of the platform as one type, steps between worlds (with
    whatever else leaves the proofs alone), and what every step preserves: a proof
    keeps its identity, never comes back to life and never counts more than five
    guesses. *)
From S2P Require Import Prelude GoStrings GoEncoding GoNet GoStruct GoUnicode Policy Schema Database Crypto Jobs Authority AuditLog VaultStore Vault Runs RunGrants Passwords Identity Sessions IdentityTeam IdentityDelivery IdentitySpec IdentityTeamSpec.

(** ** Definitions *)

(** *** What happens to proofs *)

(** What a proof is, and how it ages. *)
Definition proof_age (p q : proof_row) : Prop :=
  (ip_user_id q = ip_user_id p ∧ ip_session_id q = ip_session_id p ∧ ip_purpose q = ip_purpose p ∧ ip_contact q = ip_contact p ∧
   ip_proof_hash q = ip_proof_hash p ∧ ip_expires_at q = ip_expires_at p ∧ ip_created_at q = ip_created_at p) ∧
  (ip_consumed p = true → ip_consumed q = true) ∧ (ip_revoked p = true → ip_revoked q = true) ∧ (ip_attempts p <= ip_attempts q)%Z.
(** At most five guesses, and the fifth ends it. *)
Definition proof_wf (p : proof_row) : Prop :=
  (0 <= ip_attempts p <= 5)%Z ∧ (ip_attempts p = 5%Z → ip_revoked p = true).
Definition proofs_wf (db : DB) : Prop := map_Forall (λ _ p, proof_wf p) (proofs db).
(** A delivery carries one proof, and what is not pending never is again. *)
Definition delivery_age (d e : delivery_row) : Prop :=
  pd_proof_id e = pd_proof_id d ∧ (pd_state d ≠ "pending" → pd_state e ≠ "pending").
Definition deliveries_move (db db' : DB) : Prop :=
  ∀ id d, deliveries db !! id = Some d → ∃ e, deliveries db' !! id = Some e ∧ delivery_age d e.
Definition proofs_move (db db' : DB) : Prop :=
  (proofs_wf db → proofs_wf db') ∧
  (∀ id p, proofs db !! id = Some p → ∃ q, proofs db' !! id = Some q ∧ proof_age p q) ∧ deliveries_move db db'.
Definition same_proofs (db db' : DB) : Prop := proofs db' = proofs db ∧ deliveries db' = deliveries db.

(** *** Operations *)

(** The three ways to use a proof. *)
Inductive redemption :=
  | RedeemContact (p : Principal) (id : uuid) (raw : string)
  | RedeemPassword (id : uuid) (raw password : string)
  | RedeemInvitation (p : Principal) (id : uuid) (raw : string).
Definition redeemed (o : redemption) : uuid * string :=
  match o with RedeemContact _ id raw | RedeemPassword id raw _ | RedeemInvitation _ id raw => (id, raw) end.
Definition redeem_purpose (o : redemption) : string :=
  match o with RedeemContact _ _ _ => "contact_verify" | RedeemPassword _ _ _ => "password_reset" | RedeemInvitation _ _ _ => "invitation" end.

Inductive identity_op :=
  | IRedeem (o : redemption)
  | IRequestContact (p : Principal) (contact : string)
  | IRequestRecovery (contact : string)
  | IContacts (p : Principal)
  | IMethods (p : Principal)
  | IRemoveMethod (p : Principal) (name : string)
  | ICreateInvitation (p : Principal) (org : uuid) (target : option uuid) (contact role : string)
  | IRevokeInvitation (p : Principal) (org id : uuid)
  | IPreviewOffboarding (p : Principal) (org target : uuid)
  | IOffboard (p : Principal) (org target : uuid) (expected : Z) (key : string)
  | IOffboardWithPreview (p : Principal) (org target : uuid) (expected : Z) (key : string) (preview : uuid)
  | IProofStatus (p : Principal) (id : uuid)
  | IResendProof (p : Principal) (id : uuid)
  | IMarkDeliveryUncertain (id : uuid)
  | ISweepDeliveries
  | IDeliver (id : uuid) (sender : option Sender)
  | IStepDelivery (worker : uuid) (sender : option Sender).

Definition dropped {A} (m : Tx A) : Tx unit := _ ← m; mret ().

Section Operations.
Context `{P : Primitives} `{NU : NetURL} `{UC : Unicode} `{ML : MailAddress} `{BC : Bcrypt} `{JT : JsonbText} `{U : UUIDParse} (s : Identity.Service).

Definition redeem (o : redemption) : Tx unit :=
  match o with
  | RedeemContact p id raw => ConfirmContact s p id raw
  | RedeemPassword id raw password => ResetPassword s id raw password
  | RedeemInvitation p id raw => AcceptInvitation s p id raw
  end.
Definition run_identity_op (o : identity_op) : Tx unit :=
  match o with
  | IRedeem o => redeem o
  | IRequestContact p contact => dropped (RequestContact s p contact)
  | IRequestRecovery contact => dropped (RequestRecovery s contact)
  | IContacts p => dropped (Contacts s p)
  | IMethods p => dropped (Methods s p)
  | IRemoveMethod p name => RemoveMethod s p name
  | ICreateInvitation p org target contact role => dropped (CreateInvitation s p org target contact role)
  | IRevokeInvitation p org id => RevokeInvitation s p org id
  | IPreviewOffboarding p org target => dropped (PreviewOffboarding s p org target)
  | IOffboard p org target expected key => dropped (Offboard s p org target expected key)
  | IOffboardWithPreview p org target expected key preview => dropped (OffboardWithPreview s p org target expected key preview)
  | IProofStatus p id => dropped (ProofStatus s p id)
  | IResendProof p id => dropped (ResendProof s p id)
  | IMarkDeliveryUncertain id => MarkDeliveryUncertain s id
  | ISweepDeliveries => dropped (SweepDeliveries s)
  | IDeliver id sender => dropped (Deliver s id sender)
  | IStepDelivery worker sender => dropped (StepDelivery s worker sender)
  end.
(** While a message is sent the proofs may only move on. *)
Definition sender_of (o : identity_op) : option Sender :=
  match o with IDeliver _ sender | IStepDelivery _ sender => sender | _ => None end.
Definition sender_ok (f : Sender) : Prop := ∀ to subject body w, proofs_move (w_db w) (w_db (f to subject body w).2).

(** A step is an operation, at whatever time, or something else that leaves the
    proofs alone. *)
Inductive identity_step (w : World) : World → Prop :=
  | step_op o : (∀ f, sender_of o = Some f → sender_ok f) → identity_step w (run_identity_op o w).2
  | step_else w' : same_proofs (w_db w) (w_db w') → identity_step w w'.
End Operations.

(** ** Lemmas *)

#[export] Instance proof_age_preorder : PreOrder proof_age.
Proof.
  split; [intros p; split_and!; (done || lia)|].
  intros a b c ((A1 & A2 & A3 & A4 & A5 & A6 & A7) & A8 & A9 & A10) ((B1 & B2 & B3 & B4 & B5 & B6 & B7) & B8 & B9 & B10).
  split_and!; try congruence; eauto; lia.
Qed.
#[export] Instance delivery_age_preorder : PreOrder delivery_age.
Proof. split; [by intros d|]. intros a b c [A1 A2] [B1 B2]. split; [congruence|auto]. Qed.
#[export] Instance deliveries_move_preorder : PreOrder deliveries_move.
Proof.
  split; [intros db id d Hd; by exists d|]. intros a b c H1 H2 id d Hd. destruct (H1 _ _ Hd) as (e & He & A).
  destruct (H2 _ _ He) as (f & Hf & B). exists f. split; [done|by etrans].
Qed.
#[export] Instance same_proofs_preorder : PreOrder same_proofs.
Proof. split; [by intros ?|]. unfold same_proofs. intros ??? [??] [??]. split; congruence. Qed.
Lemma deliveries_same db db' : deliveries db' = deliveries db → deliveries_move db db'.
Proof. intros E id d Hd. exists d. by rewrite E. Qed.
Lemma same_move db db' : same_proofs db db' → proofs_move db db'.
Proof.
  intros [E F]. unfold proofs_move, proofs_wf. rewrite E. split; [done|]. split; [intros id p Hp; by exists p|by apply deliveries_same].
Qed.
#[export] Instance proofs_move_preorder : PreOrder proofs_move.
Proof.
  split; [intros db; by apply same_move|]. intros a b c (W1 & H1 & D1) (W2 & H2 & D2). split; [by intros ?%W1%W2|]. split; [|by etrans].
  intros id p Hp. destruct (H1 _ _ Hp) as (q & Hq & Ap). destruct (H2 _ _ Hq) as (r & Hr & Aq). exists r. split; [done|by etrans].
Qed.
Lemma logged_same db db' : logged db db' → same_proofs db db'.
Proof. intros H%logged_accounts. unfold same_proofs, proofs, deliveries. by rewrite H. Qed.
Lemma accounts_same db db' : same_accounts db db' → same_proofs db db'.
Proof. intros [H _]. unfold same_proofs, proofs, deliveries. by rewrite H. Qed.
Lemma move_logged db db' db'' : proofs_move db db' → logged db' db'' → proofs_move db db''.
Proof. intros H ?%logged_same%same_move. by etrans. Qed.

(** Rows change one by one. *)
Lemma move_rows f db db' :
  (∀ id p, proofs db !! id = Some p → proof_age p (f id p) ∧ (proof_wf p → proof_wf (f id p))) →
  (∀ id, proofs db' !! id = f id <$> proofs db !! id) → deliveries db' = deliveries db → proofs_move db db'.
Proof.
  intros Hf E F. split; [|split; [|by apply deliveries_same]].
  - intros W id q Hq. rewrite E in Hq. apply fmap_Some in Hq as (p & Hp & ->). apply Hf; [done|]. by eapply W.
  - intros id p Hp. exists (f id p). rewrite E, Hp. split; [done|by apply Hf].
Qed.
Lemma revoked_age p : proof_age p (set_revoked p) ∧ (proof_wf p → proof_wf (set_revoked p)).
Proof. split; [split_and!; (done || lia)|]. intros [H _]. by split. Qed.
Lemma consumed_age t p : proof_age p (set_consumed t p) ∧ (proof_wf p → proof_wf (set_consumed t p)).
Proof. split; [split_and!; (done || lia)|]. intros [H ?]. by split. Qed.
Lemma rejected_age p :
  ip_revoked p = false → (ip_attempts p < 5)%Z → proof_age p (set_rejected p) ∧ (proof_wf p → proof_wf (set_rejected p)).
Proof.
  intros Hr Ha. split; [by split_and!; cbn; try congruence; lia|]. intros [H _]. split; cbn; [lia|]. intros E. apply Z.leb_le. lia.
Qed.

Lemma revoke_proofs_move sel db : proofs_move db (revoke_proofs sel db).
Proof.
  apply (move_rows (λ id p, if sel id p then set_revoked p else p)).
  - intros id p _. destruct (sel id p); [apply revoked_age|done].
  - intros id. apply lookup_update_where.
  - done.
Qed.
Lemma alter_fmap {A} (f : A → A) (k i : uuid) (m : gmap uuid A) :
  alter f k m !! i = (λ x, if bool_decide (i = k) then f x else x) <$> m !! i.
Proof.
  case_bool_decide; subst; [by rewrite lookup_alter_eq|]. rewrite lookup_alter_ne by done. by destruct (m !! i).
Qed.
Lemma consume_proof_move id t db : proofs_move db (consume_proof id t db).
Proof.
  apply (move_rows (λ k p, if bool_decide (k = id) then set_consumed t p else p)).
  - intros k p _. case_bool_decide; [apply consumed_age|done].
  - intros k. apply alter_fmap.
  - done.
Qed.
Lemma guess_move id p db :
  proofs db !! id = Some p → ip_revoked p = false → (ip_attempts p < 5)%Z → proofs_move db (guess id db).
Proof.
  intros Hp Hr Ha. apply (move_rows (λ k p, if bool_decide (k = id) then set_rejected p else p)).
  - intros k q Hq. case_bool_decide; subst; [|done]. simplify_eq. by apply rejected_age.
  - intros k. apply alter_fmap.
  - done.
Qed.
Lemma issue_move id delivery p d db :
  issuable id delivery p d db → proofs_move db (issue id delivery p d db).
Proof.
  intros (Hn & Hd & _ & _ & _ & _ & _ & Hr & Ha & _). unfold issue.
  assert (proofs_move db (on_accounts (upd_t_identity_proofs (superseded (ip_user_id p) (ip_purpose p))) db)) as (W & M & _).
  { eapply move_rows; [|intros k; apply superseded_lookup|done]. intros k q _. cbn. destruct (_ && _); [apply revoked_age|done]. }
  split.
  - intros Hw%W. intros k q Hq. unfold proofs in Hq. cbn in Hq. apply lookup_insert_Some in Hq as [[<- <-]|[_ Hq]].
    + split; [rewrite Ha; lia|]. rewrite Ha. lia.
    + by eapply Hw.
  - split.
    + intros k q Hq. destruct (M _ _ Hq) as (q' & Hq' & A). exists q'. split; [|done].
      unfold proofs. cbn. rewrite lookup_insert_ne; [done|]. intros ->. congruence.
    + intros k e He. exists e. split; [|done]. unfold deliveries. cbn. rewrite lookup_insert_ne; [done|]. intros ->. congruence.
Qed.

(** *** Every operation moves the proofs on *)

Lemma reads_moves {A} (m : Tx A) : reads m → keeps proofs_move m.
Proof. intros [H _]. eapply keeps_weaken; [|exact H]. intros db db' ->. reflexivity. Qed.
Lemma keeps_same {A} (m : Tx A) : keeps same_proofs m → keeps proofs_move m.
Proof. apply keeps_weaken, same_move. Qed.
Lemma moves_exec f : (∀ db db', f db = Some db' → same_proofs db db') → keeps proofs_move (exec f).
Proof. intros H. apply keeps_same, keeps_exec; [apply _|done]. Qed.
Lemma moves_exec_ f : (∀ db, same_proofs db (f db)) → keeps proofs_move (exec_ f).
Proof. intros H. apply keeps_same, keeps_exec_; [apply _|done]. Qed.
Lemma moves_logs {A} (m : Tx A) : (∀ w r w', m w = (r, w') → logs w w') → keeps proofs_move m.
Proof. intros H w r w' [L _]%H. by apply same_move, logged_same. Qed.
Lemma keeps_dropped {A} R `{!PreOrder R} (m : Tx A) : keeps R m → keeps R (dropped m).
Proof. intros H. apply keeps_bind; [done|done|intros; by apply keeps_ret]. Qed.
Lemma revoke_proofs_moves sel : keeps proofs_move (exec_ (revoke_proofs sel)).
Proof. apply keeps_exec_; [apply _|]. intros db. apply revoke_proofs_move. Qed.
#[export] Hint Resolve reads_moves revoke_proofs_moves : keeps.

Lemma moves_EnqueueTx id kind payload effect max : keeps proofs_move (EnqueueTx id kind payload effect max).
Proof. apply moves_logs. intros w r w'. apply logs_EnqueueTx. Qed.
Lemma moves_transition j set l : keeps proofs_move (transition j set l).
Proof. apply keeps_same, keeps_transition; [apply _|done]. Qed.
Lemma moves_ClaimKinds worker lease kinds : keeps proofs_move (ClaimKinds worker lease kinds).
Proof.
  apply keeps_same. unfold ClaimKinds. destruct (_ || _); [apply keeps_fail, _|]. apply keeps_bind; [apply _| |].
  - apply keeps_with_tx; [apply _|]. apply keeps_bind; [apply _|apply keeps_get, _|intros t].
    apply keeps_bind; [apply _|by apply keeps_exec_; [apply _|]|intros _].
    apply keeps_bind; [apply _|by apply keeps_exec_; [apply _|]|intros _].
    apply keeps_bind; [apply _|apply keeps_query, _|intros [[id r]|]]; [|apply keeps_ret, _].
    apply keeps_bind; [apply _|by intros w r' w' [= _ <-]|intros _; apply keeps_ret, _].
  - intros [[id r]|]; [apply keeps_ret, _|apply keeps_fail, _].
Qed.
#[export] Hint Resolve moves_EnqueueTx moves_transition moves_ClaimKinds : keeps.

Section Moves.
Context `{P : Primitives} `{NU : NetURL} `{UC : Unicode} `{ML : MailAddress} `{BC : Bcrypt} `{JT : JsonbText} `{U : UUIDParse}
  (s : Identity.Service) `{!IdentityOk s}.

Lemma keeps_transaction {A} R `{!PreOrder R} (m : Tx A) : keeps R m → keeps R (transaction s m).
Proof.
  intros H. unfold transaction. destruct (negb _); [by apply keeps_fail|].
  apply keeps_with_tx, keeps_bind; [done..|by apply keeps_exec_|done].
Qed.
Lemma moves_record user action details : keeps proofs_move (record s user action details).
Proof. apply moves_logs. intros w r w'. by apply record_logs. Qed.
Lemma moves_event user action refs : keeps proofs_move (event s user action refs).
Proof. apply moves_logs. intros w r w'. by apply event_logs. Qed.
Hint Resolve moves_record moves_event keeps_transaction : keeps.
Lemma moves_insert_proof id p : ip_attempts p = 0%Z → keeps proofs_move (exec (insert_proof id p)).
Proof.
  intros Ha. apply keeps_exec; [apply _|]. intros db db' ((Hn & _) & ->)%insert_proof_Some. split.
  - intros W k q Hq. unfold proofs in Hq. cbn in Hq. apply lookup_insert_Some in Hq as [[<- <-]|[_ Hq]]; [|by eapply W].
    split; rewrite Ha; lia.
  - split; [|by apply deliveries_same].
    intros k q Hq. exists q. split; [|done]. unfold proofs. cbn. rewrite lookup_insert_ne; [done|]. intros ->. congruence.
Qed.
Lemma moves_insert_delivery id d : keeps proofs_move (exec (insert_delivery id d)).
Proof.
  apply keeps_exec; [apply _|]. intros db db' ((Hn & _) & ->)%insert_delivery_Some. split; [done|]. split; [intros k q Hq; by exists q|].
  intros k e He. exists e. split; [|done]. unfold deliveries. cbn. rewrite lookup_insert_ne; [done|]. intros ->. congruence.
Qed.
Lemma moves_createProof user session purpose contact : keeps proofs_move (createProof s user session purpose contact).
Proof.
  unfold createProof. destruct (sv_custody s) as [c|] eqn:Ec; [|apply keeps_fail, _].
  pose proof (λ m, reads_moves _ (custody_seals c m Ec)) as Hs. pose proof (reads_moves _ reads_randomProof) as Hr.
  pose proof (reads_moves _ reads_uuid_New) as Hu. pose proof moves_insert_delivery as Hd.
  assert (∀ id u o pu co h e t, keeps proofs_move (exec (insert_proof id (mkProofRow u o pu co h e false None false 0 t)))) as Hi
    by (intros; by apply moves_insert_proof).
  keeps_tac.
Qed.
Hint Resolve moves_createProof : keeps.
Lemma moves_uuid_New : keeps proofs_move uuid_New.
Proof. apply reads_moves, reads_uuid_New. Qed.
Hint Resolve moves_uuid_New : keeps.

(** *** Using a proof *)

Lemma moves_consume p id raw purpose apply :
  (∀ row, keeps proofs_move (apply row)) → keeps proofs_move (consume s p id raw purpose apply).
Proof.
  intros Hap w [[]|e] w' H.
  - apply consume_Ok in H as (row & w0 & u & w1 & Hr & Ha & Hh & (E & _) & H1 & L & _); [|done].
    eapply move_logged; [|exact L]. etrans; [|apply consume_proof_move]. rewrite <-E. by eapply Hap.
  - apply consume_Err in H as [E|(_ & row & Hr & (_ & Ho & _) & _ & L)]; [by rewrite E| |done].
    eapply move_logged; [|exact L]. unfold proof_open in Ho. b2p. apply guess_move with row; [done|tauto|].
    destruct Ho as [_ Ho]. lia.
Qed.

(** *** The other operations *)

Hint Extern 2 (keeps proofs_move (exec_ _)) => apply moves_exec_; intros ?; split; reflexivity : keeps.
Lemma moves_set_password user h : keeps proofs_move (exec_ (set_password user h)).
Proof. apply moves_exec_. intros db. unfold set_password. by destruct (decide _). Qed.
Lemma moves_port {F A} (o : option F) (call : F → Tx A) :
  (∀ f, o = Some f → keeps proofs_move (call f)) → keeps proofs_move (Identity.port o call).
Proof. intros H. destruct o as [f|]; [by apply H|apply keeps_fail, _]. Qed.
Hint Resolve moves_set_password : keeps.

Lemma moves_confirm_contact row : keeps proofs_move (confirm_contact row).
Proof.
  assert (∀ u c t, keeps proofs_move (exec (verify_contact u c t))).
  { intros u c t. apply moves_exec. intros db db' H. unfold verify_contact in H. passed H as B. by subst. }
  unfold confirm_contact. keeps_tac.
Qed.
Lemma moves_reset_password h row id : keeps proofs_move (reset_password s h row id).
Proof.
  assert (∀ u, keeps proofs_move (Identity.port (sv_recoveryDelegations s) (λ f, f u))).
  { intros u. apply moves_port. intros f Hf. apply keeps_same. eapply keeps_weaken; [apply accounts_same|by eapply recovery_aside]. }
  unfold reset_password. keeps_tac.
Qed.
Lemma reads_HashPassword pw : reads (HashPassword pw).
Proof. split; intros w r w' [= _ <-]; cbn; [done|split; lia]. Qed.
Lemma moves_HashPassword pw : keeps proofs_move (HashPassword pw).
Proof. apply reads_moves, reads_HashPassword. Qed.
Lemma moves_lift {A} (r : result A) : keeps proofs_move (lift r).
Proof. intros w x w' [= _ <-]. reflexivity. Qed.
Hint Resolve moves_HashPassword moves_lift moves_consume moves_confirm_contact moves_reset_password : keeps.
Lemma moves_RequireSession p recent : keeps proofs_move (Identity.RequireSession s p recent).
Proof. apply reads_moves, reads_session. done. Qed.
Lemma moves_LockSubjects ids ex : keeps proofs_move (Identity.LockSubjects s ids ex).
Proof. apply reads_moves, reads_subjects. done. Qed.
Lemma moves_RequireOrg p org role : keeps proofs_move (Identity.RequireOrg s p org role).
Proof. apply reads_moves, reads_org. done. Qed.
Lemma moves_actor p targets ex recent : keeps proofs_move (actor s p targets ex recent).
Proof. apply reads_moves, reads_human. done. Qed.
Lemma moves_loadProof id lock : keeps proofs_move (loadProof id lock).
Proof. apply reads_moves, reads_loadProof. Qed.
Hint Resolve moves_RequireSession moves_LockSubjects moves_RequireOrg moves_actor moves_loadProof : keeps.

Ltac moves_tac := keeps_tac; try (apply keeps_transaction; [apply _|]; keeps_tac).
Lemma ConfirmContact_moves p id raw : keeps proofs_move (ConfirmContact s p id raw).
Proof. unfold ConfirmContact. keeps_tac. Qed.
Lemma ResetPassword_moves id raw pw : keeps proofs_move (ResetPassword s id raw pw).
Proof. unfold ResetPassword. keeps_tac. Qed.
Lemma RequestContact_moves p c : keeps proofs_move (RequestContact s p c).
Proof. unfold RequestContact. moves_tac. Qed.
Lemma moves_recover c : keeps proofs_move (recover s c).
Proof. unfold recover. keeps_tac. Qed.
Hint Resolve moves_recover : keeps.
Lemma RequestRecovery_moves c : keeps proofs_move (RequestRecovery s c).
Proof. unfold RequestRecovery. keeps_tac. Qed.
Lemma Contacts_moves p : keeps proofs_move (Contacts s p).
Proof. unfold Contacts. moves_tac. Qed.
Lemma moves_methodsTx user : keeps proofs_move (methodsTx s user).
Proof. unfold methodsTx. keeps_tac. Qed.
Hint Resolve moves_methodsTx : keeps.
Lemma Methods_moves p : keeps proofs_move (Methods s p).
Proof. unfold Methods. moves_tac. Qed.
Lemma RemoveMethod_moves p name : keeps proofs_move (RemoveMethod s p name).
Proof. unfold RemoveMethod. keeps_tac. apply keeps_transaction; [apply _|]. keeps_tac. Qed.

(** *** Invitations and offboarding *)

Lemma fills_moves org ids db db' : fills org ids db db' → proofs_move db db'.
Proof. intros (E & _)%fills_same. apply same_move. unfold same_proofs, proofs, deliveries. by rewrite E. Qed.
Lemma join_move t org user role id db : proofs_move db (join t org user role id db).
Proof. unfold join. etrans; [|apply consume_proof_move]. by apply same_move. Qed.
Lemma AcceptInvitation_moves p id raw : keeps proofs_move (AcceptInvitation s p id raw).
Proof.
  unfold AcceptInvitation. destruct (_ || _); [apply keeps_fail, _|].
  apply keeps_bind; [apply _| |intros [|]; [apply keeps_fail, _|apply keeps_ret, _]].
  intros w [b|e] w' H; [|apply transaction_Err in H as ->; reflexivity].
  apply transaction_Ok in H as (w0 & w1 & (E0 & _) & (i & row & db1 & Hi & F & _ & _ & H)%accept_body_Ok & E1 & _); [|done..].
  rewrite E1, <-E0. etrans; [by eapply fills_moves|].
  destruct b.
  - destruct H as [_ L]. destruct Hi as (_ & Hp & _ & _ & _ & _ & _ & Ho & _). destruct (fills_same _ _ _ _ F) as (Ea & _).
    eapply move_logged; [|exact L]. unfold proof_open in Ho. b2p. destruct Ho as [[[_ Hr] _] Ha].
    apply guess_move with row; [unfold proofs; by rewrite Ea|done|lia].
  - destruct H as (_ & _ & _ & L). eapply move_logged; [|exact L]. apply join_move.
Qed.
Lemma moves_lockMemberStates org ids : keeps proofs_move (lockMemberStates org ids).
Proof.
  assert (∀ id, keeps proofs_move (exec (insert_state org id))).
  { intros id. apply moves_exec. intros db db' H. unfold insert_state in H. passed H as B. destruct (member_states _ !! _); by simplify_eq. }
  unfold lockMemberStates. keeps_tac.
Qed.
Lemma moves_organization_row org : keeps proofs_move (organization_row org).
Proof. apply reads_moves, reads_organization_row. Qed.
Hint Resolve moves_lockMemberStates moves_organization_row : keeps.
Lemma moves_orgActor p org targets recent : keeps proofs_move (orgActor s p org targets recent).
Proof. unfold orgActor. keeps_tac. Qed.
Hint Resolve moves_orgActor : keeps.
Lemma CreateInvitation_moves p org target c role : keeps proofs_move (CreateInvitation s p org target c role).
Proof.
  assert (∀ id i, keeps proofs_move (exec (insert_invitation id i))).
  { intros id i. apply moves_exec. intros db db' H. unfold insert_invitation in H. passed H as B. by subst. }
  unfold CreateInvitation. keeps_tac. apply keeps_transaction; [apply _|]. keeps_tac.
Qed.
Lemma RevokeInvitation_moves p org id : keeps proofs_move (RevokeInvitation s p org id).
Proof. unfold RevokeInvitation. moves_tac. Qed.

Lemma moves_offboardLocks p org target ex : keeps proofs_move (offboardLocks s p org target ex).
Proof. unfold offboardLocks, lock_project_rows. keeps_tac. Qed.
Lemma moves_inventory org target : keeps proofs_move (offboardingInventory org target).
Proof. unfold offboardingInventory. keeps_tac. Qed.
Lemma moves_impact org target : keeps proofs_move (offboardingImpact org target).
Proof. unfold offboardingImpact. keeps_tac. Qed.
Hint Resolve moves_offboardLocks moves_inventory moves_impact : keeps.
Lemma PreviewOffboarding_moves p org target : keeps proofs_move (PreviewOffboarding s p org target).
Proof.
  assert (∀ id v, keeps proofs_move (exec (insert_preview id v))).
  { intros id v. apply moves_exec. intros db db' H. unfold insert_preview in H. passed H as B. by subst. }
  unfold PreviewOffboarding. moves_tac.
Qed.
Lemma moves_check_preview p org target expected preview result : keeps proofs_move (check_preview p org target expected preview result).
Proof. unfold check_preview. keeps_tac. Qed.
Lemma moves_leave p org target key digest result : keeps proofs_move (leave s p org target key digest result).
Proof.
  assert (∀ o t, keeps proofs_move (exec_ (delete_member o t))) by (intros; apply moves_exec_; intros db; unfold delete_member; by destruct (members db !! _)).
  assert (∀ id o, keeps proofs_move (exec (insert_offboarding id o))).
  { intros id o. apply moves_exec. intros db db2 Hd. unfold insert_offboarding in Hd. passed Hd as B. by subst. }
  assert (∀ n, keeps proofs_move (run_cascade s org target n)).
  { intros n. unfold run_cascade. destruct (sv_cascade s) as [f|] eqn:Ef; [|apply keeps_ret, _].
    apply keeps_same. eapply keeps_weaken; [apply accounts_same|by eapply cascade_aside]. }
  unfold leave. keeps_tac.
Qed.
Hint Resolve moves_check_preview moves_leave : keeps.
Lemma offboard_moves p org target expected key preview : keeps proofs_move (offboard s p org target expected key preview).
Proof. unfold offboard, check_cascade. keeps_tac. apply keeps_transaction; [apply _|]. keeps_tac. Qed.

(** *** Delivery *)

Lemma moves_exec_n f : (∀ db db' n, f db = Some (db', n) → same_proofs db db') → keeps proofs_move (exec_n f).
Proof. intros H. apply keeps_same, keeps_exec_n; [apply _|done]. Qed.
(** A row that is settled or dispatched. *)
Lemma deliveries_update (sel : uuid → delivery_row → bool) f db db' :
  proofs db' = proofs db → (∀ d, pd_proof_id (f d) = pd_proof_id d ∧ pd_state (f d) ≠ "pending") →
  (∀ k, deliveries db' !! k = (λ d, if sel k d then f d else d) <$> deliveries db !! k) → proofs_move db db'.
Proof.
  intros E Hf H. unfold proofs_move, proofs_wf. rewrite E. split; [done|]. split; [intros id p Hp; by exists p|].
  intros k d Hd. exists (if sel k d then f d else d). split; [by rewrite H, Hd|]. destruct (sel k d); [|done]. destruct (Hf d) as [? ?]. by split.
Qed.
Lemma settle_moves st rc t d : st ≠ "pending" → pd_proof_id (settle st rc t d) = pd_proof_id d ∧ pd_state (settle st rc t d) ≠ "pending".
Proof. done. Qed.
Lemma moves_update_deliveries sel st rc t : st ≠ "pending" → keeps proofs_move (exec_n (update_deliveries sel (settle st rc t))).
Proof.
  intros Hst. apply keeps_exec_n; [apply _|]. intros db db' n [= <- _].
  apply (deliveries_update sel (settle st rc t)); [done|intros d; by apply settle_moves|intros k; apply lookup_update_where].
Qed.
Lemma moves_update_delivery id f :
  (∀ d, pd_proof_id (f d) = pd_proof_id d ∧ pd_state (f d) ≠ "pending") → keeps proofs_move (exec_ (update_delivery id f)).
Proof.
  intros Hf. apply keeps_exec_; [apply _|]. intros db.
  apply (deliveries_update (λ k _, bool_decide (k = id)) f); [done|done|intros k; apply alter_fmap].
Qed.
Lemma moves_dispatched id t : keeps proofs_move (exec_ (update_delivery id (set_dispatched t))).
Proof. apply moves_update_delivery. done. Qed.
Lemma moves_cancelled id t : keeps proofs_move (exec_ (update_delivery id (settle "cancelled" "proof_inactive" t))).
Proof. apply moves_update_delivery. done. Qed.
Hint Resolve moves_dispatched moves_cancelled : keeps.
Lemma moves_still_authorized user proof row : keeps proofs_move (still_authorized s user proof row).
Proof. unfold still_authorized. keeps_tac. Qed.
Lemma moves_deliver_first id : keeps proofs_move (transaction s (IdentityDelivery.dispatch_body s id)).
Proof. pose proof moves_still_authorized. apply keeps_transaction; [apply _|]. unfold IdentityDelivery.dispatch_body. keeps_tac. Qed.
Lemma final_outcome_state r : do_State (final_outcome r) ≠ "pending".
Proof. unfold final_outcome. destruct r as [o|]; [|done]. case_bool_decide as B; [|done]. intros E. rewrite E in B. set_solver. Qed.
Lemma moves_deliver_last id user o : do_State o ≠ "pending" → keeps proofs_move (transaction s (finish_body s id user o)).
Proof.
  intros Ho. assert (∀ sel t, keeps proofs_move (exec_n (update_deliveries sel (settle (do_State o) (do_Reason o) t)))) by (intros; by apply moves_update_deliveries).
  apply keeps_transaction; [apply _|]. unfold finish_body. keeps_tac.
Qed.
Lemma moves_send_message f d raw : sender_ok f → keeps proofs_move (send_message s f d raw).
Proof.
  intros Hf. unfold send_message. destruct (decoded_message raw); [|apply keeps_fail, _]. destruct (_ || _); [apply keeps_fail, _|].
  intros w r w' H. unfold send in H. destruct (f _ _ _ w) as [o w1] eqn:E. injection H as <- <-.
  change w1 with (o, w1).2. rewrite <-E. apply Hf.
Qed.
Lemma moves_opened c ci n fn : sv_custody s = Some c → (∀ plain, keeps proofs_move (fn plain)) → keeps proofs_move (pc_WithOpened c ci n fn).
Proof.
  intros Hc Hf w r w' H. apply (custody_opens c ci n fn w r w' Hc) in H as [(e & _ & E & _)|(plain & w1 & (E & _) & H)].
  - by rewrite E.
  - rewrite <-E. by eapply Hf.
Qed.
(** What follows the first transaction of [Deliver]. *)
Definition deliver_rest (c : ProofCustody) (f : Sender) (id : uuid) (d : dispatched) : Tx DeliveryOutcome :=
  r ← attempt (pc_WithOpened c (dp_cipher d) (dp_nonce d) (send_message s f d));
  let o := final_outcome r in
  _ ← transaction s (finish_body s id (dp_user d) o);
  mret o.
Lemma moves_deliver_rest c f id d : sv_custody s = Some c → sender_ok f → keeps proofs_move (deliver_rest c f id d).
Proof.
  intros Hc Hf. pose proof (λ id user r, moves_deliver_last id user (final_outcome r) (final_outcome_state r)).
  assert (keeps proofs_move (pc_WithOpened c (dp_cipher d) (dp_nonce d) (send_message s f d))).
  { apply moves_opened; [done|]. intros plain. by apply moves_send_message. }
  unfold deliver_rest. keeps_tac.
Qed.
Lemma Deliver_rest c f id :
  sv_custody s = Some c →
  Deliver s id (Some f) = (first ← transaction s (IdentityDelivery.dispatch_body s id);
    match first with inl cancelled => mret cancelled | inr d => deliver_rest c f id d end).
Proof. intros Hc. unfold Deliver. by rewrite Hc. Qed.
Lemma Deliver_moves id sender : (∀ f, sender = Some f → sender_ok f) → keeps proofs_move (Deliver s id sender).
Proof.
  intros Hs. destruct sender as [f|]; [|apply keeps_fail, _]. destruct (sv_custody s) as [c|] eqn:Ec.
  - rewrite (Deliver_rest c f id Ec). apply keeps_bind; [apply _|apply moves_deliver_first|intros [o|d]; [apply keeps_ret, _|]].
    apply moves_deliver_rest; [done|by apply Hs].
  - unfold Deliver. rewrite Ec. apply keeps_fail, _.
Qed.

(** A delivery leaves the first transaction only from pending. *)
Lemma reads_still_authorized user proof row : reads (still_authorized s user proof row).
Proof.
  unfold still_authorized. destruct (ip_session_id row) as [sid|]; [|apply reads_ret]. destruct (bool_decide _).
  - apply reads_bind; [apply reads_attempt, reads_query_row|intros [org|e]; [|apply reads_ret]].
    apply reads_bind; [by apply reads_attempt, reads_org|intros; apply reads_ret].
  - apply reads_bind; [by apply reads_attempt, reads_session|intros; apply reads_ret].
Qed.
Lemma dispatch_body_Ok id w x w' :
  IdentityDelivery.dispatch_body s id w = (Ok x, w') →
  ∃ d, deliveries (w_db w) !! id = Some d ∧ pd_state d = "pending" ∧
    ∀ y, x = inr y → ∃ e, deliveries (w_db w') !! id = Some e ∧ pd_state e = "dispatched".
Proof.
  unfold IdentityDelivery.dispatch_body. intros H. apply bind_Ok in H as ([user proof] & w1 & [H1 ->]%on_err_Ok%query_row_Ok & H).
  apply bind_Ok in H as (u2 & w2 & H2 & H). apply bind_Ok in H as (row & w3 & H3 & H). apply bind_Ok in H as (ac & w4 & H4 & H).
  pose proof (reads_run _ _ _ _ (reads_subjects s _ _) H2) as (E2 & _). pose proof (reads_run _ _ _ _ (reads_loadProof _ _) H3) as (E3 & _).
  pose proof (reads_run _ _ _ _ (reads_still_authorized _ _ _) H4) as (E4 & _).
  apply bind_Ok in H as (d & w5 & [Hd ->]%query_row_Ok & H). apply bind_Ok in H as (u5 & w5 & ->%note_lock_Ok & H). branch H as B. b2p.
  apply bind_Ok in H as (t & w5 & [-> ->]%now_Ok & H). exists d. rewrite E4, E3, E2 in Hd. split_and!; [done..|]. intros y ->.
  destruct (_ || _) in H; apply bind_Ok in H as (u6 & w6 & ->%exec__Ok & H); apply bind_Ok in H as (u7 & w7 & [L _]%record_logs & H); [|done| |done].
  - by apply ret_Ok in H as [H _].
  - apply ret_Ok in H as [_ <-]. exists (set_dispatched (w_now w4) d). split; [|done]. unfold deliveries in *. rewrite (logged_accounts _ _ L). cbn.
    rewrite lookup_alter_eq, E4, E3, E2. cbn in Hd |- *. by rewrite Hd.
Qed.
Lemma ProofStatus_moves p id : keeps proofs_move (ProofStatus s p id).
Proof. unfold ProofStatus. moves_tac. Qed.
Lemma ResendProof_moves p id : keeps proofs_move (ResendProof s p id).
Proof. unfold ResendProof. moves_tac. Qed.
Lemma MarkDeliveryUncertain_moves id : keeps proofs_move (MarkDeliveryUncertain s id).
Proof.
  assert (∀ sel t, keeps proofs_move (exec_n (update_deliveries sel (settle "uncertain" "worker_outcome_unknown" t)))) by (intros; by apply moves_update_deliveries).
  unfold MarkDeliveryUncertain. moves_tac.
Qed.
Lemma keeps_query_row_bind {A B} R `{!PreOrder R} (f : DB → option A) (k : A → Tx B) :
  (∀ db a, f db = Some a → keeps R (k a)) → keeps R (query_row f ≫= k).
Proof.
  intros Hk w r w' [(a & w1 & [Ha ->]%query_row_Ok & H)|(e & H & _)]%bind_run; [by eapply (Hk _ _ Ha) in H|].
  by eapply keeps_query_row.
Qed.
Lemma sweep_outcome_state t u f d p o : sweep_outcome t u f d p = Some o → do_State o ≠ "pending".
Proof. unfold sweep_outcome. repeat case_match; by intros [= <-]. Qed.
Lemma sweep_one_moves id : keeps proofs_move (sweep_one s id).
Proof.
  unfold sweep_one. apply keeps_transaction; [apply _|]. apply keeps_bind; [apply _|keeps_tac|intros up].
  apply keeps_bind; [apply _|keeps_tac|intros _]. apply keeps_bind; [apply _|apply keeps_get, _|intros t].
  apply keeps_query_row_bind; [apply _|]. intros db o Ho. destruct (delivery_of id db) as [dp|]; [|done]. injection Ho as Ho.
  apply keeps_bind; [apply _|keeps_tac|intros _]. destruct o as [o|]; [|apply keeps_ret, _]. apply sweep_outcome_state in Ho.
  assert (keeps proofs_move (exec_ (update_delivery id (settle (do_State o) (do_Reason o) t)))) by (by apply moves_update_delivery).
  keeps_tac.
Qed.
Hint Resolve sweep_one_moves : keeps.
Lemma SweepDeliveries_moves : keeps proofs_move (SweepDeliveries s).
Proof.
  unfold SweepDeliveries. destruct (negb _); [apply keeps_fail, _|]. keeps_tac.
Qed.
Hint Resolve SweepDeliveries_moves : keeps.
Lemma StepDelivery_moves worker sender : (∀ f, sender = Some f → sender_ok f) → keeps proofs_move (StepDelivery s worker sender).
Proof.
  intros Hs. unfold StepDelivery. destruct sender as [f|]; [|apply keeps_fail, _].
  assert (∀ id, keeps proofs_move (Deliver s id (Some f))) by (intros; by apply Deliver_moves).
  assert (∀ j, keeps proofs_move (Dispatch j) ∧ keeps proofs_move (Ack j)) as Hq by (split; apply moves_transition).
  assert (∀ j, keeps proofs_move (Dispatch j)) by apply Hq. assert (∀ j, keeps proofs_move (Ack j)) by apply Hq.
  assert (∀ j b, keeps proofs_move (Fail j b)) by (intros; apply moves_transition).
  assert (∀ j, keeps proofs_move (process_job s j f)).
  { intros j. unfold process_job, deliver_job, delivery_state. keeps_tac. }
  keeps_tac.
Qed.

(** *** Every operation, every step *)

Lemma redeem_moves o : keeps proofs_move (redeem s o).
Proof. destruct o; [apply ConfirmContact_moves|apply ResetPassword_moves|apply AcceptInvitation_moves]. Qed.
Lemma identity_op_moves o : (∀ f, sender_of o = Some f → sender_ok f) → keeps proofs_move (run_identity_op s o).
Proof.
  intros Hs. destruct o; cbn; try (apply keeps_dropped; [apply _|]).
  - apply redeem_moves.
  - apply RequestContact_moves.
  - apply RequestRecovery_moves.
  - apply Contacts_moves.
  - apply Methods_moves.
  - apply RemoveMethod_moves.
  - apply CreateInvitation_moves.
  - apply RevokeInvitation_moves.
  - apply PreviewOffboarding_moves.
  - apply offboard_moves.
  - unfold OffboardWithPreview. destruct (bool_decide _); [apply keeps_fail, _|apply offboard_moves].
  - apply ProofStatus_moves.
  - apply ResendProof_moves.
  - apply MarkDeliveryUncertain_moves.
  - apply SweepDeliveries_moves.
  - by apply Deliver_moves.
  - by apply StepDelivery_moves.
Qed.
Lemma identity_step_moves w w' : identity_step s w w' → proofs_move (w_db w) (w_db w').
Proof. intros [o Hs|w1 E]; [|by apply same_move]. by eapply identity_op_moves; [|apply surjective_pairing]. Qed.
Lemma identity_steps_move w w' : rtc (identity_step s) w w' → proofs_move (w_db w) (w_db w').
Proof. induction 1 as [w|w w1 w' H _ IH]; [reflexivity|]. etrans; [by apply identity_step_moves|done]. Qed.
End Moves.

(** *** How a use of a proof ends *)

Section Redeem.
Context `{P : Primitives} `{NU : NetURL} `{UC : Unicode} `{ML : MailAddress} `{BC : Bcrypt} `{JT : JsonbText} `{U : UUIDParse}
  (s : Identity.Service) `{!IdentityOk s}.

(** The use is of a proof that is open, and for its purpose. *)
Definition usable (t : time) (o : redemption) (row : proof_row) (db : DB) : Prop :=
  proofs db !! (redeemed o).1 = Some row ∧ ip_purpose row = redeem_purpose o ∧ proof_open t row = true.

Lemma ResetPassword_consume id raw pw w r w' :
  ResetPassword s id raw pw w = (r, w') →
  (∃ e, r = Err e ∧ w_db w' = w_db w) ∨
  ∃ h w1, HashPassword pw w = (Ok h, w1) ∧ at_same w w1 ∧ Validate DefaultPasswordPolicy pw = Ok () ∧
    consume s nobody id raw "password_reset" (λ row, reset_password s h row id) w1 = (r, w').
Proof.
  unfold ResetPassword. destruct (bool_decide _); [intros [= <- <-]; left; by eexists|]. destruct (_ <? _); [intros [= <- <-]; left; by eexists|].
  intros [(u & w1 & H1%on_err_Ok & H)|(e & H1 & ->)]%bind_run.
  - apply lift_Ok in H1 as [Hv ->]. destruct u. apply bind_run in H as [(h & w2 & H2 & H)|(e & H2 & ->)].
    + right. exists h, w2. split_and!; [done| |done|done]. eapply reads_run; [apply reads_HashPassword|exact H2].
    + left. exists e. split; [done|]. by apply (reads_run _ _ _ _ (reads_HashPassword pw)) in H2 as (? & _).
  - left. exists e. split; [done|]. unfold on_err, lift in H1. by destruct (Validate _ _); injection H1 as _ <-.
Qed.

Lemma consume_used p id raw purpose apply w u w' :
  (∀ row, keeps proofs_move (apply row)) → consume s p id raw purpose apply w = (Ok u, w') →
  ∃ row q, proofs (w_db w) !! id = Some row ∧ ip_purpose row = purpose ∧ proof_open (w_now w) row = true ∧ hashProof raw = ip_proof_hash row ∧
    proofs (w_db w') !! id = Some q ∧ ip_consumed q = true.
Proof.
  intros Hap (row & w0 & u1 & w1 & Hr & (Hp & Ho & _) & Hh & (E & _) & H1 & L & _)%consume_Ok; [|done].
  rewrite <-E in Hr. apply Hap in H1 as (_ & H1 & _). destruct (H1 _ _ Hr) as (q & Hq & _).
  exists row, (set_consumed (w_now w) q). split_and!; [by rewrite <-E|done..| |done].
  rewrite (proj1 (logged_same _ _ L)). unfold consume_proof, proofs in *. cbn. by rewrite lookup_alter_eq, Hq.
Qed.
Lemma redeem_Ok o w u w' :
  redeem s o w = (Ok u, w') →
  ∃ row q, usable (w_now w) o row (w_db w) ∧ hashProof (redeemed o).2 = ip_proof_hash row ∧
    proofs (w_db w') !! (redeemed o).1 = Some q ∧ ip_consumed q = true.
Proof.
  destruct o as [p id raw|id raw pw|p id raw]; cbn; intros H.
  - apply consume_used in H as (row & q & H); [|intros; by apply moves_confirm_contact]. exists row, q. unfold usable. tauto.
  - apply ResetPassword_consume in H as [(e & H & _)|(h & w1 & _ & (E & T & _) & _ & H)]; [done|].
    apply consume_used in H as (row & q & H); [|intros; by apply moves_reset_password]. exists row, q. unfold usable. rewrite E, T in H. tauto.
  - unfold AcceptInvitation in H. destruct (_ || _); [done|]. apply bind_Ok in H as ([|] & w1 & H & H'); [done|]. apply ret_Ok in H' as [_ <-].
    apply transaction_Ok in H as (w0 & w2 & (E0 & T0 & _) & (i & row & db1 & Hi & F & _ & _ & H)%accept_body_Ok & E1 & _); [|done..].
    destruct H as (Hh & _ & _ & L). destruct Hi as (_ & Hp & _ & _ & _ & Hpp & _ & Ho & _). rewrite E0 in Hp. rewrite T0 in Ho.
    assert (proofs db1 !! id = Some row) as Hq.
    { destruct (fills_same _ _ _ _ F) as (Ea & _). unfold proofs in *. by rewrite Ea, E0. }
    exists row, (set_consumed (w_now w0) row). split_and!; [done..| |done]. rewrite E1, (proj1 (logged_same _ _ L)). unfold join, consume_proof, proofs in *. cbn.
    rewrite lookup_alter_eq. cbn in Hq. by rewrite Hq.
Qed.
Lemma redeem_Err o w e w' :
  redeem s o w = (Err e, w') →
  w_db w' = w_db w ∨ e = ErrProof ∧ ∃ row, usable (w_now w) o row (w_db w) ∧ hashProof (redeemed o).2 ≠ ip_proof_hash row ∧
    proofs (w_db w') = alter set_rejected (redeemed o).1 (proofs (w_db w)).
Proof.
  destruct o as [p id raw|id raw pw|p id raw]; cbn; intros H.
  - apply consume_Err in H as [H|(He & row & Hr & (Hp & Ho & _) & Hh & L)]; [by left|right|done].
    split; [done|]. exists row. by split_and!; [..|apply logged_same in L as [L _]].
  - apply ResetPassword_consume in H as [(e' & H & E)|(h & w1 & _ & (E & T & _) & _ & H)]; [by left|].
    apply consume_Err in H as [H|(He & row & Hr & (Hp & Ho & _) & Hh & L)]; [left; congruence|right|done].
    rewrite E in Hr, L. rewrite T in Ho. split; [done|]. exists row. by split_and!; [..|apply logged_same in L as [L _]].
  - unfold AcceptInvitation in H. destruct (_ || _); [injection H as _ <-; by left|].
    apply bind_Err in H as [H|(b & w1 & H & H')]; [left; by eapply transaction_Err|]. destruct b; [|done]. injection H' as <- <-. right. split; [done|].
    apply transaction_Ok in H as (w0 & w2 & (E0 & T0 & _) & (i & row & db1 & Hi & F & _ & _ & Hh & L)%accept_body_Ok & E1 & _); [|done..].
    destruct Hi as (_ & Hp & _ & _ & _ & Hpp & _ & Ho & _). rewrite E0 in Hp. rewrite T0 in Ho.
    exists row. split_and!; [done..|]. destruct (fills_same _ _ _ _ F) as (Ea & _).
    rewrite E1, (proj1 (logged_same _ _ L)). unfold guess, proofs. cbn. by rewrite Ea, E0.
Qed.
End Redeem.
