(* ===== verification/IdentityTheorems.v ===== *)
(** * The identity platform: theorems

    The wiring of the server, and what holds of proofs, passwords, invitations and
    offboarding. *)
From S2P Require Import McpAuth McpAuthSpec Prelude GoStrings GoEncoding GoNet GoStruct GoUnicode Policy Schema Database Crypto Jobs Authority AuditLog VaultStore Vault ApiKeys Grants Runs RunGrants RunTheorems Passwords Identity Sessions IdentityTeam IdentityDelivery IdentitySpec IdentityTeamSpec IdentityTrace.

(** ** Definitions *)

(** *** The wiring of the server *)

(** [configurePlatform] for PostgreSQL: the guard, the custody of the vault, the
    sessions' hook and the tool platform's. *)
Definition server_guard : Guard :=
  mkGuard (λ ids _, Authority.LockSubjects DBTypePostgres ids) (Authority.RequireSession DBTypePostgres) (Authority.RequireOrg DBTypePostgres).
Definition configureIdentity `{P : Primitives} (cfg : Identity.Config) (keys : Crypto.Service) (auditRepo : AuditRepository)
    (sessions : SessionService) : Identity.Service :=
  mkService cfg (Some (AuditLog.CreateTx auditRepo)) (Some (mkCustody (Vault.Seal keys) (Vault.WithOpened keys)))
    (Some server_guard) (Some OffboardTx) (Some (RevokeDelegationsForRecoveryTx sessions)).

(** ** Lemmas *)

Lemma holds_role_member o u role w w' x :
  Authority.member DBTypePostgres o u role w = (Ok x, w') → (role = "" ∨ holds_role o u role (w_db w)) ∧ at_same w w'.
Proof.
  unfold Authority.member. rewrite (bool_decide_true (DBTypePostgres = DBTypePostgres)) by done. intros H. apply bind_Ok in H as (y & w1 & H1 & H).
  apply bind_Ok in H1 as ([a e] & w2 & [Hs (E2 & T2 & R2)]%select_locked_Ok & [He <-]%check_Ok). apply bind_Ok in H as (act & w3 & [Hm (E3 & T3 & R3)]%select_locked_Ok & H).
  cbn in He. apply andb_true_iff in He as [-> He]. destruct (_ && _) eqn:B in H; [done|]. apply ret_Ok in H as [_ <-].
  split; [|split_and!; [congruence..|lia]]. apply andb_false_iff in B as [B|B]; apply negb_false_iff in B; [b2p; by left|right].
  rewrite E2 in Hm. exists act, e. split_and!; [done..|]. lia.
Qed.

Lemma reads_RequireOrg p org role : reads (Authority.RequireOrg DBTypePostgres p org role).
Proof.
  assert (∀ A l (f : DB → option A), reads (select_locked DBTypePostgres l f)) as H.
  { intros A l f. split; [apply keeps_select_locked, _|apply forward_select_locked]. }
  unfold Authority.RequireOrg, lock_organization, Authority.member. pose proof (ApiKeys.reads_RequireSession DBTypePostgres p false).
  reads_tac.
Qed.
Lemma live_session_known p recent w u w' :
  Authority.RequireSession DBTypePostgres p recent w = (Ok u, w') → live_session (w_now w) p recent (w_db w) ∧ at_same w w'.
Proof. intros [(r & Hr & Hl) (E & T & R)]%RequireSession_Ok. split; [by exists r|split_and!; [done..|lia]]. Qed.
#[local] Hint Extern 2 (keeps same_accounts (exec_ _)) => apply keeps_exec_; [apply _|intros ?; split; reflexivity] : keeps.
Lemma OffboardTx_aside org target : keeps same_accounts (OffboardTx org target).
Proof. unfold OffboardTx, cancelRunTx. keeps_tac. Qed.
Lemma RevokeRecoveryDelegationsTx_aside d user : keeps same_accounts (RevokeRecoveryDelegationsTx d user).
Proof. unfold RevokeRecoveryDelegationsTx. keeps_tac. Qed.

#[export] Instance configureIdentity_ok `{P : Primitives} cfg keys repo sess : IdentityOk (configureIdentity cfg keys repo sess).
Proof.
  split.
  - intros g ids ex [= <-]. apply ApiKeys.reads_LockSubjects.
  - intros g p recent [= <-]. apply ApiKeys.reads_RequireSession.
  - intros g p org role [= <-]. apply reads_RequireOrg.
  - intros g ids ex w u w' [= <-] H. by apply LockSubjects_Ok in H as [H _].
  - intros g p recent w u w' [= <-] H. by apply live_session_known in H as [H _].
  - intros g p org role w u w' [= <-] H. cbn in H. unfold Authority.RequireOrg in H.
    apply bind_Ok in H as (x & w1 & H1 & H). apply bind_Ok in H as (y & w2 & [Hm (E2 & T2 & _)]%holds_role_member & [Hs _]%live_session_known).
    assert (reads (lock_organization DBTypePostgres org)) as Hr.
    { apply reads_bind; [|intros; apply reads_ret]. split; [apply keeps_select_locked, _|apply forward_select_locked]. }
    apply (reads_run _ _ _ _ Hr) in H1 as (E1 & T1 & _). rewrite E1 in Hm. rewrite E2, T2, E1, T1 in Hs. done.
  - intros f u pr a e d ip [= <-]. split; [apply CreateTx_logs|apply forward_CreateTx].
  - intros c m [= <-]. cbn. unfold Vault.Seal. destruct (_ <? _)%Z; [apply reads_fail|].
    apply reads_encrypt.
  - intros c ci n fn w r w' [= <-] H. cbn in H. unfold Vault.WithOpened in H. destruct (_ <? _)%Z; [injection H as <- <-; left; by eexists|].
    apply bind_run in H as [(plain & w1 & H1%on_err_Ok%lift_Ok & H)|(e & H & ->)].
    + destruct H1 as [_ ->]. right. by exists plain, w.
    + left. exists e. split; [done|]. unfold on_err, lift in H. by destruct (DecryptServiceSecret _ _ _); injection H as _ <-.
  - intros f org target [= <-]. apply OffboardTx_aside.
  - intros f user [= <-]. apply RevokeRecoveryDelegationsTx_aside.
Qed.

(** *** Recovery *)

Lemma RevokeRecoveryDelegationsTx_Ok d user w u w' :
  RevokeRecoveryDelegationsTx d user w = (Ok u, w') →
  w_db w' = deny_tokens user (end_leases user (w_now w) (expire_keys user (w_now w) (w_db w))) ∧ w_now w' = w_now w.
Proof.
  unfold RevokeRecoveryDelegationsTx. intros H. branch H as B. apply bind_Ok in H as (t & w1 & [-> ->]%now_Ok & H).
  apply bind_Ok in H as (ks & w2 & [_ ->]%query_Ok & H). apply bind_Ok in H as (u1 & w3 & H1 & H).
  apply bind_Ok in H as (ls & w4 & [_ ->]%query_Ok & H). apply bind_Ok in H as (u2 & w5 & H2 & H).
  apply bind_Ok in H as (ts & w6 & [_ ->]%query_Ok & H). apply bind_Ok in H as (u3 & w7 & H3 & H).
  apply (reads_run _ _ _ _ (reads_for_each _ _ (λ k, reads_note_lock (LockAPIKey k)))) in H1 as (E1 & T1 & _).
  apply (reads_run _ _ _ _ (reads_for_each _ _ (λ l, reads_note_lock (LockLease l)))) in H2 as (E2 & T2 & _).
  apply (reads_run _ _ _ _ (reads_for_each _ _ (λ j, reads_note_lock (LockToken j)))) in H3 as (E3 & T3 & _).
  apply bind_Ok in H as (u4 & w8 & ->%exec__Ok & H). apply bind_Ok in H as (u5 & w9 & ->%exec__Ok & ->%exec__Ok).
  cbn in *. split; [|congruence]. by rewrite E3, E2, E1.
Qed.

(** What a recovery leaves of the keys, leases and tokens a user had. *)
Definition no_delegations (user : uuid) (t : time) (db : DB) : Prop :=
  (∀ k r, api_keys db !! k = Some r → ak_user_id r = user → ∃ e, ak_expires_at r = Some e ∧ (e <= t)%Z) ∧
  (∀ k l r, leases db !! k = Some l → api_keys db !! le_api_key_id l = Some r → ak_user_id r = user → le_revoked l = true) ∧
  (∀ jti i, issuance db !! jti = Some i → is_user_id i = user → ∃ d, denylist db !! jti = Some d ∧ (is_expires_at i <= de_expires_at d)%Z).
Lemma recovered_no_delegations user t db :
  no_delegations user t (deny_tokens user (end_leases user t (expire_keys user t db))).
Proof.
  split_and!.
  - intros k r Hk Hu. unfold api_keys in Hk. cbn in Hk. rewrite lookup_update_where in Hk. apply fmap_Some in Hk as (r0 & _ & ->).
    unfold key_of in *. destruct (bool_decide (ak_user_id r0 = user)) eqn:B; b2p; [|done].
    exists (Z.min (default t (ak_expires_at r0)) t). split; [done|lia].
  - intros k l r Hl Hr Hu. unfold leases in Hl. cbn in Hl. rewrite lookup_update_where in Hl. apply fmap_Some in Hl as (l0 & Hl0 & ->).
    unfold api_keys in Hr. cbn in Hr.
    assert (lease_of user (expire_keys user t db) l0 = true) as B.
    { unfold lease_of, api_keys. cbn. assert (le_api_key_id l0 = le_api_key_id (if lease_of user (expire_keys user t db) l0 then end_lease t l0 else l0)) as ->
        by (by destruct (lease_of _ _ _)). rewrite Hr. unfold key_of. by apply bool_decide_eq_true. }
    by rewrite B.
  - intros jti i Hi Hu. unfold issuance in Hi. cbn in Hi. unfold denylist. cbn. set (db1 := end_leases user t (expire_keys user t db)).
    assert (token_of user db1 i = true) as B by (unfold token_of; apply orb_true_iff; left; by apply bool_decide_eq_true).
    eexists. split.
    + apply lookup_union_Some_l. rewrite map_lookup_imap. unfold issuance. cbn. rewrite Hi. cbn. rewrite B. reflexivity.
    + unfold recovery_denial. case_match; cbn; lia.
Qed.

(** What a new password ends: sessions, sign-ins under way and the other proofs. *)
Definition signed_out (user : uuid) (db : DB) : Prop :=
  (∀ k r, sessions db !! k = Some r → se_user_id r = user → se_revoked r = true) ∧
  (∀ k f, social_auth_flows db !! k = Some f → sf_link_user_id f ≠ Some user) ∧
  (∀ k p, proofs db !! k = Some p → ip_user_id p = user → ip_consumed p = true ∨ ip_revoked p = true).
Lemma signed_out_session user db t p recent : signed_out user db → p_SubjectID p = user → ¬ live_session t p recent db.
Proof.
  intros (Hs & _) Hu (r & Hr & Hl). unfold session_live in Hl. rewrite !andb_true_iff, negb_true_iff in Hl. b2p. destruct Hl as [[[E R] _] _].
  rewrite (Hs _ _ Hr) in R by congruence. done.
Qed.

Section Reset.
Context `{P : Primitives} (cfg : Identity.Config) (keys : Crypto.Service) (repo : AuditRepository) (sess : SessionService).

Lemma reset_password_Ok h row id w u w' :
  reset_password (configureIdentity cfg keys repo sess) h row id w = (Ok u, w') → ip_user_id row ∈ users (w_db w) →
  let user := ip_user_id row in
  active_contact user (ip_contact row) (w_db w) = true ∧ w_now w' = w_now w ∧ no_delegations user (w_now w) (w_db w') ∧
  password_hashes (w_db w') = <[user := h]> (password_hashes (w_db w)) ∧
  (∀ k r, sessions (w_db w') !! k = Some r → se_user_id r = user → se_revoked r = true) ∧
  (∀ k r, sessions (w_db w) !! k = Some r → se_user_id r ≠ user → sessions (w_db w') !! k = Some r) ∧
  (∀ k f, social_auth_flows (w_db w') !! k = Some f → sf_link_user_id f ≠ Some user) ∧
  (∀ k p, proofs (w_db w') !! k = Some p → ip_user_id p = user → k ≠ id → ip_consumed p = true ∨ ip_revoked p = true).
Proof.
  intros H Hu user. unfold reset_password in H. apply bind_Ok in H as (v & w1 & [-> ->]%query_Ok & H). branch H as B.
  apply bind_Ok in H as (u2 & w2 & (f & [= <-] & [E2 T2]%RevokeRecoveryDelegationsTx_Ok)%port_Ok & H).
  apply bind_Ok in H as (u3 & w3 & ->%exec__Ok & H). apply bind_Ok in H as (u4 & w4 & ->%exec__Ok & H).
  apply bind_Ok in H as (u5 & w5 & ->%exec__Ok & ->%exec__Ok). cbn in E2, T2 |- *. rewrite E2. fold user.
  assert (∀ db, users db = users (w_db w) → set_password user h db = on_accounts (upd_t_password_hashes <[user := h]>) db) as Hp.
  { intros db E. unfold set_password. rewrite E. by rewrite decide_True. }
  rewrite Hp by reflexivity. split_and!; [by destruct (active_contact _ _ _)|done| |done|..].
  - exact (recovered_no_delegations user (w_now w) (w_db w)).
  - intros k r Hk Hr. rewrite lookup_update_where in Hk. apply fmap_Some in Hk as (r0 & _ & ->).
    destruct (bool_decide (se_user_id r0 = user)) eqn:Br; [done|]. b2p. done.
  - intros k r Hk Hr. unfold sessions in Hk. rewrite lookup_update_where. cbn. rewrite Hk. cbn. by rewrite bool_decide_false.
  - intros k f Hk Ef. rewrite lookup_delete_where in Hk. destruct Hk as [_ Hk]. b2p. done.
  - intros k p Hk Hr Hid. rewrite lookup_update_where in Hk. apply fmap_Some in Hk as (p0 & _ & ->).
    destruct (_ && negb (ip_consumed p0)) eqn:Bp; [by right|left]. rewrite (bool_decide_false (k = id)) in Bp by done.
    rewrite bool_decide_true in Bp by done. cbn in Bp. by destruct (ip_consumed p0).
Qed.
End Reset.

(** *** Sign-in methods *)

(** What the loop of [RemoveMethod] finds. *)
Lemma check_methods name auth l c :
  let c' := foldl (check_method name auth) c l in
  (mc_proved c' = true → mc_proved c = true ∨ ∃ m, m ∈ l ∧ m_Name m ≠ name ∧ m_Usable m = true ∧ m_Name m = auth) ∧
  (mc_found c' = true → mc_found c = true ∨ ∃ m, m ∈ l ∧ m_Name m = name).
Proof.
  revert c. induction l as [|m l IH]; intros c c'; [by split; left|]. subst c'. cbn.
  destruct (IH (check_method name auth c m)) as [Hp Hf]. split.
  - intros [H|(m' & Hm & H)]%Hp; [|right; exists m'; split; [by right|done]]. unfold check_method in H.
    destruct (bool_decide (m_Name m = name)) eqn:B1; b2p; [by left|]. destruct (m_Usable m) eqn:B2; [|by left]. cbn in H.
    apply orb_true_iff in H as [H|H]; [by left|right]. b2p. exists m. split; [by left|done].
  - intros [H|(m' & Hm & H)]%Hf; [|right; exists m'; split; [by right|done]]. unfold check_method in H.
    destruct (bool_decide (m_Name m = name)) eqn:B1; b2p; [right; exists m; split; [by left|done]|]. left. by destruct (m_Usable m).
Qed.
Lemma elem_of_providers user q db : q ∈ linked_providers user db ↔ ∃ sub r, social_identities db !! (q, sub) = Some r ∧ si_user_id r = user.
Proof.
  unfold linked_providers. rewrite (merge_sort_Permutation text_le), list_elem_of_fmap. split.
  - intros ([[q' sub] r] & -> & [E H%elem_of_map_to_list]%list_elem_of_filter). cbn in *. by exists sub, r.
  - intros (sub & r & H & E). exists (q, sub, r). split; [done|]. apply list_elem_of_filter. by rewrite elem_of_map_to_list.
Qed.
(** The methods of an account. *)
Lemma elem_of_methods cfg user h db m :
  m ∈ mkMethod "password" (usable_password h) :: map (λ n, mkMethod n (default false (EnabledSocialProviders cfg !! n))) (linked_providers user db) ↔
  m = mkMethod "password" (usable_password h) ∨
  ∃ q sub r, social_identities db !! (q, sub) = Some r ∧ si_user_id r = user ∧ m = mkMethod q (default false (EnabledSocialProviders cfg !! q)).
Proof.
  rewrite elem_of_cons, list_elem_of_fmap. split; (intros [H|H]; [by left|right]).
  - destruct H as (q & -> & (sub & r & H & E)%elem_of_providers). by exists q, sub, r.
  - destruct H as (q & sub & r & H & E & ->). exists q. split; [done|]. apply elem_of_providers. by exists sub, r.
Qed.
Lemma methodsTx_Ok s user w l w' :
  methodsTx s user w = (Ok l, w') → method_list (sv_config s) user (w_db w) = Some l ∧ at_same w w'.
Proof.
  unfold methodsTx. intros H. apply bind_Ok in H as (h & w1 & [Hh ->]%query_row_Ok & H). apply bind_Ok in H as (ns & w2 & [-> ->]%query_Ok & [<- <-]%ret_Ok).
  split; [|by split_and!]. unfold method_list. by rewrite Hh.
Qed.
(** Removing a method from the tables. *)
Definition remove_method (user : uuid) (name : string) (db : DB) : DB :=
  if bool_decide (name = "password") then set_password user "!" db else unlink user name db.
Lemma removed_methods cfg user name db l :
  method_list cfg user db = Some l →
  ∃ l', method_list cfg user (remove_method user name db) = Some l' ∧
    (∀ m, m ∈ l → m_Name m ≠ name → m ∈ l') ∧ ∀ m, m ∈ l' → m_Name m = name → m_Usable m = true → name = "password" ∧ ∃ sub r, social_identities db !! ("password", sub) = Some r ∧ si_user_id r = user.
Proof.
  unfold method_list, user_password, remove_method, set_password. destruct (decide (user ∈ users db)) as [Hu|]; [|done]. intros [= <-].
  case_bool_decide as Bn.
  - cbn. rewrite decide_True by done. cbn. eexists. split; [reflexivity|]. subst name. split.
    + intros m [->|(q & sub & r & H & E & ->)]%elem_of_methods Hn; [done|]. apply elem_of_methods. right. by exists q, sub, r.
    + intros m [->|(q & sub & r & H & E & ->)]%elem_of_methods Hn Hus.
      * unfold password_hashes in Hus. cbn in Hus. by rewrite lookup_insert_eq in Hus.
      * cbn in Hn. subst q. split; [done|]. by exists sub, r.
  - cbn. rewrite decide_True by done. cbn. eexists. split; [reflexivity|]. split.
    + intros m [->|(q & sub & r & H & E & ->)]%elem_of_methods Hn; [by left|]. apply elem_of_methods. right. exists q, sub, r. split; [|done].
      unfold social_identities, unlink. cbn. apply lookup_delete_where. split; [done|]. cbn in *. by rewrite (bool_decide_false (q = name)), andb_false_r by done.
    + intros m [->|(q & sub & r & H & E & ->)]%elem_of_methods Hn Hus; [done|]. cbn in Hn. subst q.
      unfold social_identities, unlink in H. cbn in H. apply lookup_delete_where in H as [_ H]. cbn in H. by rewrite !bool_decide_true in H by done.
Qed.

(** ** Properties *)

Section Properties.
Context `{P : Primitives} `{NU : NetURL} `{UC : Unicode} `{ML : MailAddress} `{BC : Bcrypt} `{JT : JsonbText} `{U : UUIDParse}.

(** C14: a proof sent to a contact works once: a use that succeeds was of a proof of
    the right purpose that was open, by its secret, and whatever the platform
    does afterwards no use of the same proof succeeds again or changes anything. *)
Theorem proof_used_once s `{!IdentityOk s} o o' w u w1 w2 :
  redeem s o w = (Ok u, w1) → rtc (identity_step s) w1 w2 → (redeemed o').1 = (redeemed o).1 →
  (∃ row, usable (w_now w) o row (w_db w) ∧ hashProof (redeemed o).2 = ip_proof_hash row) ∧
  ∃ e w3, redeem s o' w2 = (Err e, w3) ∧ w_db w3 = w_db w2.
Proof.
  intros (row & q & Hu & Hh & Hq & Hc)%redeem_Ok (_ & M & _)%identity_steps_move E; [|done..]. split; [by exists row|].
  destruct (M _ _ Hq) as (q2 & Hq2 & _ & Hc2 & _). specialize (Hc2 Hc).
  assert (∀ r, usable (w_now w2) o' r (w_db w2) → False) as No.
  { intros r (Hr & _ & Ho). rewrite E in Hr. simplify_eq. unfold proof_open in Ho. by rewrite Hc2 in Ho. }
  destruct (redeem s o' w2) as [[x|e] w3] eqn:H.
  - apply redeem_Ok in H as (r & _ & Hr & _); [|done]. by apply No in Hr.
  - exists e, w3. split; [done|]. apply redeem_Err in H as [H|(_ & r & Hr & _)]; [done| |done]. by apply No in Hr.
Qed.



(** C17: an accepted invitation brings in exactly whom it was for: it was open, its
    inviter was still an administrator of the organization in a live session, the
    one who accepts has a live session and is the invited user or holds the
    invited contact, and was no member; the one membership that is added has the
    intended role, the invitation is marked as accepted by this user, its proof is
    used up, and the member's epoch is a new one. *)
Theorem AcceptInvitation_admits s `{!IdentityOk s} p id raw w u w' :
  AcceptInvitation s p id raw w = (Ok u, w') →
  ∃ i row e, let org := iv_organization_id i in let user := p_SubjectID p in
    invites (w_now w) p id i row (w_db w) ∧ hashProof raw = ip_proof_hash row ∧ may_join p i row (w_db w) ∧
    members (w_db w') = <[(org, user) := iv_intended_role i]> (members (w_db w)) ∧
    member_states (w_db w') !! (org, user) = Some (true, e) ∧
    match member_states (w_db w) !! (org, user) with Some (_, e0) => e = e0 + 1 | None => e = 2 end%Z ∧
    invitations (w_db w') = alter (set_accepted user (w_now w)) id (invitations (w_db w)) ∧
    proofs (w_db w') = alter (set_consumed (w_now w)) id (proofs (w_db w)) ∧
    sessions (w_db w') = sessions (w_db w) ∧ db_projects (w_db w') = db_projects (w_db w) ∧ db_tools (w_db w') = db_tools (w_db w).
Proof.
  unfold AcceptInvitation. destruct (_ || _); [done|]. intros ([|] & w1 & H & H')%bind_Ok; [done|]. apply ret_Ok in H' as [_ <-].
  apply transaction_Ok in H as (w0 & w2 & (E0 & T0 & _) & (i & row & db1 & Hi & F & _ & Hs & Hh & J & _ & L)%accept_body_Ok & E1 & _); [|done..].
  rewrite E0 in Hi, F, J. rewrite T0 in Hi, L. rewrite <-E1 in L. destruct Hs as [[a e] Hs].
  pose proof (fills_same _ _ _ _ F) as (Fa & _ & Fs & _ & Fm & Fp & Ft).
  pose proof (logged_accounts _ _ L) as La. pose proof (logged_identity _ _ L) as Li. pose proof (logged_projects _ _ L) as Lp. pose proof (logged_tools _ _ L) as Lt.
  cbn in La, Li, Lp, Lt. exists i, row, (e + 1)%Z. unfold members, member_states, sessions, invitations, proofs, contacts in *. rewrite La, Li, Lp, Lt. cbn.
  rewrite Fa, Fm, Fs. split_and!; try done.
  - rewrite lookup_insert_eq. unfold joined. rewrite Hs. reflexivity.
  - destruct F as (m & -> & Hm). cbn in Hs. destruct (Hm (iv_organization_id i, p_SubjectID p)) as [Em|(Em & Em' & _)]; unfold member_states in Em.
    + rewrite <-Em, Hs. reflexivity.
    + rewrite Em. rewrite Em' in Hs. injection Hs as _ <-. reflexivity.
Qed.

(** C18: a message is handed to the sender at most once: once what a delivery does has
    depended on its sender, then in whatever state the platform gets to afterwards
    (also when the answer was lost, or the second transaction failed) delivering it
    again fails on the spot, whatever the sender, and changes nothing. *)
Theorem message_sent_once s `{!IdentityOk s} id f f' w w2 :
  Deliver s id (Some f) w ≠ Deliver s id (Some f') w → sender_ok f → rtc (identity_step s) (Deliver s id (Some f) w).2 w2 →
  ∃ e w3, w_db w3 = w_db w2 ∧ ∀ g, Deliver s id (Some g) w2 = (Err e, w3).
Proof.
  intros Hne Hf M%identity_steps_move; [|done]. destruct (sv_custody s) as [c|] eqn:Ec.
  2: { exfalso. apply Hne. unfold Deliver. by rewrite Ec. }
  assert (∃ d, deliveries (w_db w2) !! id = Some d ∧ pd_state d ≠ "pending") as (d & Hd & Hn).
  { rewrite !(Deliver_rest s c _ id Ec) in Hne. rewrite (Deliver_rest s c _ id Ec) in M. unfold mbind, M_bind in Hne, M.
    destruct (transaction s _ w) as [[[o|d]|e] w1] eqn:H1; [done| |done].
    apply transaction_Ok in H1 as (w0 & w1' & _ & (_ & _ & _ & H1)%dispatch_body_Ok & E1 & _); [|done]. destruct (H1 d eq_refl) as (e & He & Hs).
    rewrite <-E1 in He. assert (deliveries_move (w_db w1) (w_db w2)) as Hm.
    { etrans; [|exact (proj2 (proj2 M))]. destruct (deliver_rest s c f id d w1) as [r w9] eqn:H9. by eapply (moves_deliver_rest s c f id d Ec Hf). }
    destruct (Hm _ _ He) as (d' & Hd' & _ & Hp). exists d'. split; [done|]. apply Hp. by rewrite Hs. }
  assert (∀ g, Deliver s id (Some g) w2 = (first ← transaction s (IdentityDelivery.dispatch_body s id);
    match first with inl cancelled => mret cancelled | inr d => deliver_rest s c g id d end) w2) as Hg by (intros g; by rewrite (Deliver_rest s c g id Ec)).
  destruct (transaction s (IdentityDelivery.dispatch_body s id) w2) as [[x|e] w3] eqn:H.
  - apply transaction_Ok in H as (w0 & w1 & (E0 & _) & (d' & Hd' & Hp & _)%dispatch_body_Ok & _); [|done]. rewrite E0 in Hd'. congruence.
  - exists e, w3. split; [by eapply transaction_Err|]. intros g. rewrite Hg. unfold mbind, M_bind. by rewrite H.
Qed.

(** Removing a sign-in method cannot lock its user out: it takes a recent session
    of the user, and afterwards the account still has the usable method this
    session was signed in with, which is another one; the removed method is no
    longer usable; every other session of the user is revoked and this one, like
    the sessions of others, is as it was. *)
Theorem RemoveMethod_leaves_method s `{!IdentityOk s} p name w u w' :
  RemoveMethod s p name w = (Ok u, w') →
  let user := p_SubjectID p in
  acts (w_now w) p [] true (w_db w) ∧
  ∃ l' m, method_list (sv_config s) user (w_db w') = Some l' ∧ m ∈ l' ∧ m_Usable m = true ∧ m_Name m ≠ name ∧
    session_method user (p_SessionID p) (w_db w) = Some (m_Name m) ∧
    ((∀ sub r, social_identities (w_db w) !! ("password", sub) = Some r → si_user_id r ≠ user) → ∀ m', m' ∈ l' → m_Name m' = name → m_Usable m' = false) ∧
    (∀ k r, sessions (w_db w') !! k = Some r → se_user_id r = user → k ≠ p_SessionID p → se_revoked r = true) ∧
    (∀ k r, sessions (w_db w) !! k = Some r → se_user_id r ≠ user ∨ k = p_SessionID p → sessions (w_db w') !! k = Some r).
Proof.
  intros H user. unfold RemoveMethod in H. branch H as B. apply transaction_Ok in H as (w0 & w9 & (E0 & T0 & _) & H & E9 & _); [|done..].
  apply bind_Ok in H as (u1 & w1 & [Ha (E1 & T1 & _)]%actor_Ok & H); [|done..]. apply bind_Ok in H as (l & w2 & [Hl (E2 & _)]%methodsTx_Ok & H).
  apply bind_Ok in H as (auth & w3 & [Hau ->]%query_row_Ok & H). branch H as Bf. branch H as Br. branch H as Bp. apply negb_false_iff in Bp.
  destruct (check_methods name auth l (mkMethodCheck false false false)) as [Hp _]. destruct (Hp Bp) as [|(m & Hm & Hn & Hus & Hauth)]; [done|].
  apply bind_Ok in H as (u4 & w4 & H4 & H). apply bind_Ok in H as (u5 & w5 & ->%exec__Ok & [L _]%event_logs); [|done..].
  assert (w_db w4 = remove_method user name (w_db w)) as E4.
  { unfold remove_method. destruct (bool_decide (name = "password")); apply exec__Ok in H4 as ->; cbn; by rewrite E2, E1, E0. }
  rewrite E2, E1, E0 in Hau. rewrite E1, E0 in Hl. rewrite E0, T0 in Ha. split; [done|].
  destruct (removed_methods _ _ name _ _ Hl) as (l' & Hl' & Hk & Hr). rewrite E9.
  pose proof (logged_accounts _ _ L) as La. pose proof (logged_identity _ _ L) as Li. cbn in La, Li. rewrite E4 in La, Li. cbn in La, Li.
  exists l', m. split_and!; [|by apply Hk|done|done|by rewrite Hauth|..].
  - rewrite <-Hl'. unfold method_list, user_password, password_hashes, linked_providers, social_identities, users. rewrite La, Li. reflexivity.
  - intros No m' Hm' Hn'. destruct (m_Usable m') eqn:Eu; [|done]. destruct (Hr m' Hm' Hn' Eu) as (_ & sub & r & Hs & Es). by eapply No in Hs.
  - intros k r Hkr Hu Hne. unfold sessions in Hkr. rewrite Li in Hkr. cbn in Hkr. rewrite lookup_update_where in Hkr.
    apply fmap_Some in Hkr as (r0 & _ & ->). case_match eqn:Bk; [done|]. apply andb_false_iff in Bk as [Bk|Bk]; [|apply negb_false_iff in Bk]; b2p; done.
  - intros k r Hkr Hor. unfold sessions. rewrite Li. cbn. rewrite lookup_update_where.
    assert (t_session_tokens (db_identity (remove_method user name (w_db w))) !! k = Some r) as ->.
    { unfold remove_method, set_password. destruct (bool_decide (name = _)); try destruct (decide (user ∈ users (w_db w))); exact Hkr. }
    cbn. destruct (_ && _) eqn:Bk; [exfalso|done]. apply andb_true_iff in Bk as [B1 B2]. apply negb_true_iff in B2. b2p. tauto.
Qed.
End Properties.

(** ** Examples: a small organization *)

Import Toy.

#[export] Instance toy_unicode : Unicode := {|
  rune_ToLower r := r; rune_IsUpper _ := false; rune_IsLower _ := false; rune_IsDigit _ := false;
  rune_IsPunct _ := false; rune_IsSymbol _ := false |}.
#[export] Instance toy_mail : MailAddress := Some.
#[export] Instance toy_bcrypt : Bcrypt := {|
  bcrypt_Generate pos pw := Some ("$2" +:+ pw); bcrypt_Compare h pw := bool_decide (h = "$2" +:+ pw) |}.
#[export] Instance toy_jsonb : JsonbText := {| jsonb_text := Marshal; timestamptz_text t := pretty t |}.

(** Organization 10 of user 1, its administrator; user 2 belongs to it, user 3 is
    invited by 102; 101 is a recovery proof of user 2. *)
Definition demo_raw : string := "0123456789abcdefghijklmnopqrstuvwxyzABCDEFG".
Definition demo_reset_raw : string := "abcdefghijklmnopqrstuvwxyzABCDEFG0123456789".
Definition demo_wrong : string := "0123456789abcdefghijklmnopqrstuvwxyzABCDEFH".
Definition demo_proof (raw : string) (user : uuid) (session : option uuid) (purpose contact : string) : proof_row :=
  mkProofRow user session purpose contact (hashProof raw) (15 * Minute) false None false 0 0.
Definition demo_identity_db : DB :=
  (upd_db_identity (upd_t_users (const {[1; 2; 3]}%N) ∘ upd_t_organizations (const {[10%N]})
     ∘ upd_t_session_tokens (const {[5%N := mkSession 1 false 0 (24 * Hour); 6%N := mkSession 2 false 0 (24 * Hour); 7%N := mkSession 3 false 0 (24 * Hour)]})
     ∘ upd_t_organization_members (const {[(10, 1)%N := "admin"; (10, 2)%N := "viewer"]})
     ∘ upd_t_member_authority_state (const {[(10, 1)%N := (true, 1%Z); (10, 2)%N := (true, 3%Z)]}))
   ∘ upd_db_accounts (upd_t_organization_owners (const {[10%N := 1%N]})
     ∘ upd_t_identity_verified_contacts (const {[(2%N, "b@x") := mkContactRow 0 None]})
     ∘ upd_t_identity_proofs (const {[101%N := demo_proof demo_reset_raw 2 None "password_reset" "b@x"; 102%N := demo_proof demo_raw 1 (Some 5%N) "invitation" "c@x"]})
     ∘ upd_t_identity_invitations (const {[102%N := mkInvitationRow 10 1 (Some 3%N) "viewer" None None false]}))) empty_db.
Definition demo_identity_cfg : Identity.Config := mkConfig true true true "https://ks.example" {["google" := true]}.
Definition demo_keys : Crypto.Service := Crypto.mkService (be_bytes 32 5).
Definition demo_chain : AuditRepository := mkAuditRepository "chain-key".
Definition demo_sessions : SessionService := mkSessionService (mkJWTService "hmac-secret" None) None DBTypePostgres.
Definition demo_identity : Identity.Service := configureIdentity demo_identity_cfg demo_keys demo_chain demo_sessions.
Definition demo_office : World := world_of demo_identity_db Minute.
Definition demo_accept : redemption := RedeemInvitation (human 3 7) 102 demo_raw.
Definition demo_joined : World := (redeem demo_identity demo_accept demo_office).2.
Definition demo_reset : World :=
  (ResetPassword (configureIdentity demo_identity_cfg demo_keys demo_chain demo_sessions) 101 demo_reset_raw "New-passw0rd" demo_office).2.

Lemma demo_joined_run : redeem demo_identity demo_accept demo_office = (Ok (), demo_joined).
Proof. unfold demo_joined. apply run_pair. vm_compute. reflexivity. Qed.
Lemma demo_reset_run :
  ResetPassword (configureIdentity demo_identity_cfg demo_keys demo_chain demo_sessions) 101 demo_reset_raw "New-passw0rd" demo_office
  = (Ok (), demo_reset).
Proof. unfold demo_reset. apply run_pair. vm_compute. reflexivity. Qed.
Lemma demo_identity_wf : proofs_wf (w_db demo_office).
Proof.
  intros k p Hp. unfold proofs in Hp. cbn in Hp. apply lookup_insert_Some in Hp as [[_ <-]|[_ Hp]]; [by split|].
  apply lookup_singleton_Some in Hp as [_ <-]. by split.
Qed.

Lemma proof_used_once_witness :
  ∃ e w3, redeem demo_identity (RedeemContact (human 3 7) 102 demo_raw) (run_identity_op demo_identity (IRequestRecovery "b@x") demo_joined).2 = (Err e, w3) ∧
    w_db w3 = w_db (run_identity_op demo_identity (IRequestRecovery "b@x") demo_joined).2.
Proof.
  refine (proj2 (proof_used_once demo_identity demo_accept (RedeemContact (human 3 7) 102 demo_raw) _ _ _ _ demo_joined_run _ eq_refl)).
  apply rtc_once. apply (step_op demo_identity demo_joined (IRequestRecovery "b@x")). discriminate.
Defined.



Definition demo_accepted : World := (AcceptInvitation demo_identity (human 3 7) 102 demo_raw demo_office).2.
Lemma demo_accepted_run : AcceptInvitation demo_identity (human 3 7) 102 demo_raw demo_office = (Ok (), demo_accepted).
Proof. unfold demo_accepted. apply run_pair. vm_compute. reflexivity. Qed.
Lemma AcceptInvitation_admits_witness :
  ∃ i e, invitations (w_db demo_office) !! 102%N = Some i ∧
    member_states (w_db demo_accepted) !! (iv_organization_id i, p_SubjectID (human 3 7)) = Some (true, e).
Proof.
  destruct (AcceptInvitation_admits demo_identity (human 3 7) 102 demo_raw demo_office () demo_accepted demo_accepted_run)
    as (i & row & e & (Hi & _) & _ & _ & _ & Hs & _).
  exact (ex_intro _ i (ex_intro _ e (conj Hi Hs))).
Defined.

(** A library that splits a link. *)
#[local] Instance demo_url : NetURL := {|
  url_Parse raw := rest ← strip_prefix "https://" raw;
    let '(front, fragment, _) := Cut rest "#" in
    let '(host, path, found) := Cut front "/" in
    Some (mkURL "https" host None (if (found : bool) then "/" +:+ path else "") "" fragment);
  url_with_query raw ps := raw;
|}.
Definition demo_asked : World := (RequestContact demo_identity (human 1 5) "a@x" demo_office).2.
Definition demo_sender (state : string) : Sender := λ to subject body w, (mkOutcome state "", w).
Definition demo_delivery : uuid := match map_to_list (deliveries (w_db demo_asked)) with (id, _) :: _ => id | [] => uuid_Nil end.
Definition demo_outcome (state : string) : string :=
  match (Deliver demo_identity demo_delivery (Some (demo_sender state)) demo_asked).1 with Ok o => do_State o | Err _ => "error" end.
Lemma demo_outcomes_differ : demo_outcome "sent" = "sent" ∧ demo_outcome "failed" = "failed".
Proof. split; vm_compute; reflexivity. Qed.
Lemma message_sent_once_witness :
  ∃ e w3, ∀ g, Deliver demo_identity demo_delivery (Some g) (Deliver demo_identity demo_delivery (Some (demo_sender "sent")) demo_asked).2 = (Err e, w3).
Proof.
  assert (Deliver demo_identity demo_delivery (Some (demo_sender "sent")) demo_asked ≠ Deliver demo_identity demo_delivery (Some (demo_sender "failed")) demo_asked) as Hne.
  { intros E. destruct demo_outcomes_differ as [A B]. unfold demo_outcome in A, B. rewrite E, B in A. discriminate A. }
  assert (sender_ok (demo_sender "sent")) as Hs by (intros to subject body w; reflexivity).
  destruct (message_sent_once demo_identity demo_delivery _ _ demo_asked _ Hne Hs (rtc_refl _ _)) as (e & w3 & _ & H).
  exact (ex_intro _ e (ex_intro _ w3 H)).
Defined.
