(* ===== verification/OffboardTheorems.v ===== *)
(** * The identity platform: offboarding theorems

    What a departure leaves behind, and that a preview binds it. *)
From S2P Require Import McpAuth McpAuthSpec Prelude GoStrings GoEncoding GoNet GoStruct GoUnicode Policy Schema Database Crypto Jobs Authority AuditLog VaultStore Vault ApiKeys Grants Runs RunGrants RunTheorems Passwords Identity Sessions IdentityTeam IdentityDelivery IdentitySpec IdentityTeamSpec IdentityTrace IdentityTheorems.

(** ** Definitions *)

(** Whether a departure ends a run: the member's own, or under a grant that
    involves the member. *)
Definition ends_run (org target : uuid) (db : DB) (r : run_row) : bool :=
  org_project org (rn_project_id r) db && bool_decide (rn_state r ∈ ["preparing"; "active"])
  && (bool_decide (rn_actor_id r = target) || row_is (grants db) (rn_grant_id r) (affected_grant org target db)).

(** What is left of a member in the organization's tools. *)
Definition no_tools (org target : uuid) (db : DB) : Prop :=
  (∀ id c, connections db !! id = Some c → org_project org (tc_project_id c) db = true → tc_created_by c = target → is_Some (tc_revoked_at c)) ∧
  (∀ id k, workloads db !! id = Some k → org_project org (tw_project_id k) db = true → tw_created_by k = target → is_Some (tw_revoked_at k)) ∧
  (∀ id g, grants db !! id = Some g → org_project org (tg_project_id g) db = true → tg_actor_id g = target ∨ tg_issued_by g = target →
     is_Some (tg_revoked_at g)) ∧
  ∀ id r, runs db !! id = Some r → org_project org (rn_project_id r) db = true → rn_actor_id r = target → rn_state r ∉ ["preparing"; "active"].

(** What is left of the member elsewhere in the organization. *)
Definition no_place (org target : uuid) (db : DB) : Prop :=
  members db !! (org, target) = None ∧
  (∀ id k, api_keys db !! id = Some k → departing_key org target db k = false) ∧
  (∀ id a, t_promotion_requests (db_secrets db) !! id = Some a → departing_approval org target db a = false) ∧
  ∀ id i, invitations db !! id = Some i → departing_invitation org target db id i = true → iv_revoked i = true.

(** ** Lemmas *)

Definition sans_tools (db : DB) : DB := upd_db_tools (const empty_tools) db.
Definition tools_only (db db' : DB) : Prop := sans_tools db' = sans_tools db.
#[export] Instance tools_only_preorder : PreOrder tools_only.
Proof. split; [by intros ?|]. unfold tools_only. intros ???. congruence. Qed.

(** Ending runs one after the other. *)
Definition same_resources (db db' : DB) : Prop :=
  tools_only db db' ∧ connections db' = connections db ∧ workloads db' = workloads db ∧ grants db' = grants db.
#[export] Instance same_resources_preorder : PreOrder same_resources.
Proof. split; [by intros ?|]. intros a b c (? & ? & ? & ?) (? & ? & ? & ?). split; [by etrans|]. split_and!; congruence. Qed.
Lemma cancelRunTx_Ok id st w u w' :
  cancelRunTx id st w = (Ok u, w') →
  runs (w_db w') = alter (set_run_state st) id (runs (w_db w)) ∧ same_resources (w_db w) (w_db w').
Proof.
  unfold cancelRunTx. intros H. apply bind_Ok in H as (u1 & w1 & ->%exec__Ok & H). apply bind_Ok in H as (t & w2 & [-> ->]%now_Ok & H).
  apply bind_Ok in H as (u2 & w3 & ->%exec__Ok & ->%exec__Ok). split; [done|]. by split.
Qed.
Lemma cancelRuns_Ok ids st w u w' :
  for_each ids (λ id, cancelRunTx id st) w = (Ok u, w') →
  same_resources (w_db w) (w_db w') ∧
  ∀ k, runs (w_db w') !! k = (λ r, if bool_decide (k ∈ ids) then set_run_state st r else r) <$> runs (w_db w) !! k.
Proof.
  revert w. induction ids as [|id ids IH]; intros w H; cbn in H.
  - apply ret_Ok in H as [_ <-]. split; [done|]. intros k. rewrite bool_decide_false by set_solver. by destruct (runs (w_db w) !! k).
  - apply bind_Ok in H as (u1 & w1 & [E1 S1]%cancelRunTx_Ok & [S2 E2]%IH). split; [by etrans|]. intros k. rewrite E2, E1, alter_fmap.
    destruct (runs (w_db w) !! k) as [r|]; [|done]. cbn. f_equal. repeat case_bool_decide; try done; set_solver.
Qed.

Lemma revoked_coalesce (o : option time) t : is_Some (coalesce o t).
Proof. destruct o; by eexists. Qed.
Lemma tools_only_project org project db db' : tools_only db db' → org_project org project db' = org_project org project db.
Proof. intros H. unfold org_project, projects. by rewrite (f_equal db_projects H : db_projects db' = db_projects db). Qed.

Lemma selected_run p db k r :
  runs db !! k = Some r → bool_decide (k ∈ selected_runs (λ _ r, p r) db) = p r.
Proof.
  intros Hr. apply eq_iff_eq_true. rewrite bool_decide_eq_true. unfold selected_runs. rewrite list_elem_of_fmap. split.
  - intros ([k' r'] & -> & [Hr' Hp]%elem_of_select). cbn in Hr. by simplify_eq.
  - intros Hp. exists (k, r). split; [done|]. by apply elem_of_select.
Qed.
Lemma cancelRuns_now ids st w u w' : for_each ids (λ id, cancelRunTx id st) w = (Ok u, w') → w_now w' = w_now w.
Proof.
  assert (forward (for_each ids (λ id, cancelRunTx id st))) as F by (apply forward_for_each; intros; unfold cancelRunTx; forward_tac).
  by intros [_ H]%F.
Qed.
Lemma OffboardTx_Ok org target w n w' :
  OffboardTx org target w = (Ok n, w') →
  tools_only (w_db w) (w_db w') ∧ w_now w' = w_now w ∧ no_tools org target (w_db w') ∧
  n = Z.of_nat (length (select (λ _ r, ends_run org target (w_db w) r) (runs (w_db w)))) ∧
  ∀ k, runs (w_db w') !! k = (λ r, if ends_run org target (w_db w) r then set_run_state "revoked" r else r) <$> runs (w_db w) !! k.
Proof.
  unfold OffboardTx. intros H. apply bind_Ok in H as (ids & w1 & [-> ->]%query_Ok & H). apply bind_Ok in H as (t & w2 & [-> ->]%now_Ok & H).
  apply bind_Ok in H as (u1 & w2 & ->%exec__Ok & H). apply bind_Ok in H as (u2 & w3 & ->%exec__Ok & H). apply bind_Ok in H as (u3 & w4 & ->%exec__Ok & H).
  apply bind_Ok in H as (u4 & w5 & H & [<- <-]%ret_Ok).
  pose proof H as [(St & Sc & Sw & Sg) Hr]%cancelRuns_Ok. cbn in St, Sc, Sw, Sg, Hr.
  assert (∀ k, runs (w_db w5) !! k = (λ r, if ends_run org target (w_db w) r then set_run_state "revoked" r else r) <$> runs (w_db w) !! k) as Hk.
  { intros k. rewrite Hr. change (t_tool_runs (db_tools (w_db w))) with (runs (w_db w)). destruct (runs (w_db w) !! k) as [r|] eqn:Er; [|done].
    cbn. f_equal. exact (f_equal (λ b : bool, if b then set_run_state "revoked" r else r) (selected_run (ends_run org target (w_db w)) _ _ _ Er)). }
  assert (tools_only (w_db w) (w_db w5)) as Ht by (etrans; [|exact St]; reflexivity).
  split_and!; [done|by apply cancelRuns_now in H| |unfold selected_runs; by rewrite length_map|exact Hk].
  unfold no_tools. setoid_rewrite (tools_only_project org _ _ _ Ht). rewrite Sc, Sw, Sg. split_and!.
  - intros id c Hc Ho Hu. rewrite lookup_update_where in Hc. apply fmap_Some in Hc as (c0 & _ & ->).
    case_match eqn:B; [apply revoked_coalesce|]. apply andb_false_iff in B as [B|B]; b2p; [done|]. change (org_project org (tc_project_id c0) (w_db w) = false) in B. congruence.
  - intros id c Hc Ho Hu. rewrite lookup_update_where in Hc. apply fmap_Some in Hc as (c0 & _ & ->).
    case_match eqn:B; [apply revoked_coalesce|]. apply andb_false_iff in B as [B|B]; b2p; [done|]. change (org_project org (tw_project_id c0) (w_db w) = false) in B. congruence.
  - intros id g Hc Ho Hu. rewrite lookup_update_where in Hc. apply fmap_Some in Hc as (g0 & _ & ->).
    case_match eqn:B; [apply revoked_coalesce|]. apply andb_false_iff in B as [B|B]; [change (org_project org (tg_project_id g0) (w_db w) = false) in B; congruence|].
    unfold offboard_grant in B. rewrite !orb_false_iff in B. destruct B as [[[[[[B1 B2] _] _] _] _] _]. b2p. tauto.
  - intros id r Hc Ho Hu Hst. rewrite Hk in Hc. apply fmap_Some in Hc as (r0 & _ & ->). destruct (ends_run org target (w_db w) r0) eqn:B.
    + cbn in Hst. set_solver.
    + unfold ends_run in B. rewrite Ho in B. rewrite !bool_decide_true in B by done. done.
Qed.

(** What is decided from the projects and the tools. *)
Lemma ends_run_congr org target db db' r :
  projects db' = projects db → db_tools db' = db_tools db → ends_run org target db' r = ends_run org target db r.
Proof. unfold ends_run, affected_grant, offboard_grant, org_project, grants, bindings, connections, workloads, profiles, packages. by intros -> ->. Qed.
Lemma depart_facts org target db :
  let db' := depart org target db in
  projects db' = projects db ∧ db_tools db' = db_tools db ∧ db_accounts db' = db_accounts db ∧ db_secrets db' = db_secrets db ∧
  sessions db' = sessions db ∧ members db' = delete (org, target) (members db) ∧
  (is_Some (members db !! (org, target)) → member_states db' = alter left_state (org, target) (member_states db)) ∧
  ∀ id k, api_keys db' !! id = Some k → departing_key org target db k = false.
Proof.
  cbv zeta. unfold depart. set (dm := delete_member org target db).
  assert (projects dm = projects db ∧ db_tools dm = db_tools db ∧ db_accounts dm = db_accounts db ∧ db_secrets dm = db_secrets db ∧
    sessions dm = sessions db ∧ members dm = delete (org, target) (members db) ∧
    (is_Some (members db !! (org, target)) → member_states dm = alter left_state (org, target) (member_states db))) as (Hp & Ht & Ha & Hs & He & Hm & Hst).
  { unfold dm, delete_member. destruct (members db !! (org, target)) eqn:E; [done|]. split_and!; try done. by rewrite delete_id. }
  split_and!; try done. intros id k Hk. unfold delete_api_keys, api_keys in Hk. cbn in Hk. apply lookup_delete_where in Hk as [_ Hk].
  unfold departing_key, org_project in Hk |- *. by rewrite Hp in Hk.
Qed.
Lemma withdraw_facts org target db :
  let db' := withdraw org target db in
  db_projects db' = db_projects db ∧ db_tools db' = db_tools db ∧ db_identity db' = db_identity db ∧ password_hashes db' = password_hashes db ∧
  (∀ id a, t_promotion_requests (db_secrets db') !! id = Some a → departing_approval org target db' a = false) ∧
  ∀ id i, invitations db' !! id = Some i → departing_invitation org target db' id i = true → iv_revoked i = true.
Proof.
  cbv zeta. split_and!; try done.
  - intros id a H. cbn in H. rewrite lookup_update_where in H. apply fmap_Some in H as (a0 & _ & ->).
    destruct (departing_approval org target db a0) eqn:B; [|exact B]. unfold departing_approval. cbn. by rewrite andb_false_r.
  - intros id i H D. unfold invitations in H. cbn in H. rewrite lookup_update_where in H. apply fmap_Some in H as (i0 & _ & ->).
    case_match eqn:B; [done|]. change (departing_invitation org target db id i0 = true) in D.
    change (departing_invitation org target db id i0 = false) in B. congruence.
Qed.
Lemma insert_offboarding_Some id o db db' :
  insert_offboarding id o db = Some db' → db' = on_accounts (upd_t_identity_offboarding_receipts <[id := o]>) db.
Proof. unfold insert_offboarding. intros H. passed H as B. by subst. Qed.
Lemma no_tools_congr org target db db' : projects db' = projects db → db_tools db' = db_tools db → no_tools org target db → no_tools org target db'.
Proof. unfold no_tools, org_project, grants, connections, workloads, runs. by intros -> ->. Qed.

(** From before a departure ([d0], [d1] after the member's own rows went) to after
    it ([d2] the cascade, [d3] the rest). *)
Lemma departure_leaves org target d0 d2 d' f :
  let d1 := depart org target d0 in let d3 := withdraw org target d2 in
  tools_only d1 d2 → no_tools org target d2 → logged (on_accounts (upd_t_identity_offboarding_receipts f) d3) d' →
  no_place org target d' ∧ no_tools org target d' ∧ members d' = delete (org, target) (members d0) ∧
  (is_Some (members d0 !! (org, target)) → member_states d' = alter left_state (org, target) (member_states d0)) ∧
  runs d' = runs d2 ∧ sessions d' = sessions d0 ∧ password_hashes d' = password_hashes d0.
Proof.
  intros d1 d3 Tt Nt L. destruct (depart_facts org target d0) as (D1 & D2 & D3 & D4 & D5 & D6 & D7 & D8).
  destruct (withdraw_facts org target d2) as (W1 & W2 & W3 & W4 & W5 & W6). cbv zeta in *. fold d1 in D1, D2, D3, D4, D5, D6, D7, D8.
  fold d3 in W1, W2, W3, W4, W5, W6. clearbody d1 d3.
  pose proof (logged_accounts _ _ L) as La. pose proof (logged_identity _ _ L) as Li. pose proof (logged_projects _ _ L) as Lp.
  pose proof (logged_tools _ _ L) as Lt. pose proof (logged_secrets _ _ L) as Ls. cbn in La, Li, Lp, Lt, Ls. clear L.
  pose proof (f_equal db_identity Tt : db_identity d2 = db_identity d1) as Ti. pose proof (f_equal db_projects Tt : db_projects d2 = db_projects d1) as Tp.
  pose proof (f_equal db_accounts Tt : db_accounts d2 = db_accounts d1) as Ta.
  assert (db_identity d' = db_identity d1) as Ei by congruence. assert (db_projects d' = db_projects d1) as Epr by congruence.
  assert (db_tools d' = db_tools d2) as Etl by congruence.
  assert (members d' = delete (org, target) (members d0)) as Eme by (rewrite <-D6; unfold members; by rewrite Ei).
  split_and!; try done.
  - unfold no_place. rewrite Eme, lookup_delete_eq. split_and!; [done|..].
    + intros k r Hkr. unfold api_keys in Hkr. rewrite Epr in Hkr. apply D8 in Hkr. unfold departing_key, org_project, projects in *. by rewrite Epr, D1.
    + intros k a Ha. rewrite Ls in Ha. apply W5 in Ha. unfold departing_approval, org_project, projects in *. by rewrite Lp.
    + intros k i Hki D. unfold invitations in Hki. rewrite La in Hki. cbn in Hki. apply (W6 k i Hki).
      unfold departing_invitation, active_contact, proofs, contacts in *. by rewrite La in D.
  - eapply no_tools_congr, Nt; [unfold projects; congruence|done].
  - intros Hmem. rewrite <-D7 by done. unfold member_states. by rewrite Ei.
  - unfold runs. by rewrite Etl.
  - rewrite <-D5. unfold sessions. by rewrite Ei.
  - unfold password_hashes in W4 |- *. rewrite La. cbn. by rewrite W4, Ta, D3.
Qed.

Lemma run_cascade_server `{P : Primitives} cfg keys repo sess org target n :
  run_cascade (configureIdentity cfg keys repo sess) org target n = OffboardTx org target.
Proof. reflexivity. Qed.

Lemma impact_fills `{JT : JsonbText} o t org ids db db' : fills org ids db db' → impact_selection o t db' = impact_selection o t db.
Proof. intros (m & -> & _). reflexivity. Qed.
Lemma impact_json_ok l : json_ok (impact_json l).
Proof.
  split.
  - cbn. apply forallb_forall. intros j Hj. apply in_map_iff in Hj as (r & <- & _). reflexivity.
  - transitivity 2%N; [|by vm_compute]. cbn. change 2%N with (1 + 1)%N. apply N.add_le_mono_l. induction l as [|r l IH]; cbn; lia.
Qed.
(** Two digests agree on what they were taken of, or two texts collide. *)
Lemma impact_digest_inj `{P : Primitives} l l' :
  impact_digest l = impact_digest l' → normalize (impact_json l) = normalize (impact_json l') ∨ ∃ a b, a ≠ b ∧ sha256 a = sha256 b.
Proof.
  intros H%hex_EncodeToString_inj. destruct (decide (Marshal (impact_json l) = Marshal (impact_json l'))) as [E|N].
  - left. apply Marshal_inj; [apply impact_json_ok..|done].
  - right. by eexists _, _.
Qed.
Lemma use_preview_lookup id t db v :
  previews db !! id = Some v → previews (use_preview id t db) !! id = Some (set_used t v).
Proof. intros H. unfold previews in *. cbn. by rewrite lookup_alter_eq, H. Qed.

(** ** Properties *)

Section Properties.
Context `{P : Primitives} `{JT : JsonbText} `{U : UUIDParse}.

(** C16: offboarding shuts a member out, as the server is wired: it takes an
    administrator with a live session, a member of the expected epoch and not the
    owner; afterwards the member has no membership and so no role, an inactive
    state of the next epoch, no API key, no tool connection, workload or grant in
    force, no run under way, no approval that counts and no invitation that is
    open in the organization; every run that was under way for the member, or
    under a grant that involves the member, is revoked, and the receipt counts
    them; nobody's sessions or passwords change. *)
Theorem Offboard_shuts_out cfg keys repo sess p org target expected key preview w o w' :
  offboard (configureIdentity cfg keys repo sess) p org target expected key preview w = (Ok o, w') →
  offboarding_by_key org (p_SubjectID p) key (w_db w) = None →
  may_offboard (w_now w) p org target (w_db w) ∧ member_states (w_db w) !! (org, target) = Some (true, expected) ∧
  no_place org target (w_db w') ∧ no_tools org target (w_db w') ∧ (∀ role, ¬ holds_role org target role (w_db w')) ∧
  members (w_db w') = delete (org, target) (members (w_db w)) ∧
  (is_Some (members (w_db w) !! (org, target)) → member_states (w_db w') !! (org, target) = Some (false, expected + 1)%Z) ∧
  (∀ id r, runs (w_db w) !! id = Some r → ends_run org target (w_db w) r = true → ∃ r', runs (w_db w') !! id = Some r' ∧ rn_state r' = "revoked") ∧
  ob_Runs o = Z.of_nat (length (select (λ _ r, ends_run org target (w_db w) r) (runs (w_db w)))) ∧ ob_Epoch o = incr64 expected ∧
  sessions (w_db w') = sessions (w_db w) ∧ password_hashes (w_db w') = password_hashes (w_db w).
Proof.
  intros H Hn. apply offboard_Ok in H as (db1 & db2 & w1 & w2 & id & db3 & Hm & F & Hs & _ & Hp & E1 & T1 & Hc & _ & He & _ & Hi & L); [|apply _|done].
  assert (db_tools db2 = db_tools (w_db w) ∧ db_projects db2 = db_projects (w_db w) ∧ sessions db2 = sessions (w_db w) ∧ members db2 = members (w_db w) ∧
    password_hashes db2 = password_hashes (w_db w) ∧ member_states db2 !! (org, target) = Some (true, expected)) as (Et & Ep & Es & Em & Eh & Est).
  { destruct F as (m & -> & F). specialize (F (org, target)). unfold member_states in F.
    assert (m !! (org, target) = Some (true, expected)) by (destruct F as [F|(F & _)]; unfold member_states in Hs; congruence).
    by destruct Hp as [[_ ->]|(v & _ & _ & ->)]. }
  rewrite run_cascade_server in Hc. apply OffboardTx_Ok in Hc as (Tt & _ & Nt & Hr & Hk). apply insert_offboarding_Some in Hi as ->.
  rewrite E1 in Tt, Hr, Hk. destruct (departure_leaves _ _ _ _ _ _ Tt Nt L) as (Np & Nt' & Eme & Ems & Eru & Ese & Epw).
  destruct (depart_facts org target db2) as (D1 & D2 & _).
  assert (∀ r, ends_run org target (depart org target db2) r = ends_run org target (w_db w) r) as Er.
  { intros r. apply ends_run_congr; [rewrite D1; unfold projects; by rewrite Ep|by rewrite D2]. }
  assert (runs (depart org target db2) = runs (w_db w)) as Er1 by (unfold runs; by rewrite D2, Et).
  rewrite Em in Eme, Ems. split_and!; try done; [..|congruence|congruence].
  - intros role (a & e & Ha & _). by rewrite Eme, lookup_delete_eq in Ha.
  - intros Hmem. rewrite (Ems Hmem), lookup_alter_eq, Est. done.
  - intros k r Hkr Hd. exists (set_run_state "revoked" r). split; [|done]. rewrite Eru, Hk, Er1, Hkr. cbn. by rewrite Er, Hd.
  - rewrite Hr, Er1. do 2 f_equal. unfold select. f_equal. apply list_filter_iff. intros [k r]. cbn. by rewrite Er.
Qed.

(** C19: what an administrator was shown is what is carried out: a departure under a
    preview is of the same organization and member, by the same actor, within five
    minutes and at the member's epoch of the preview, and its impact (every row it
    affects, with the columns the preview signs) is the one the preview showed,
    unless two texts collide under SHA-256. *)
Theorem preview_pins_impact s `{!IdentityOk s} p p' org org' target target' expected key w0 o w1 w o' w' :
  PreviewOffboarding s p org target w0 = (Ok o, w1) →
  previews (w_db w) !! ob_PreviewID o = previews (w_db w1) !! ob_PreviewID o →
  OffboardWithPreview s p' org' target' expected key (ob_PreviewID o) w = (Ok o', w') →
  offboarding_by_key org' (p_SubjectID p') key (w_db w) = None →
  org' = org ∧ target' = target ∧ p_SubjectID p' = p_SubjectID p ∧ expected = ob_Epoch o ∧ (w_now w < w_now w0 + 5 * Minute)%Z ∧
  member_states (w_db w) !! (org, target) = Some (true, ob_Epoch o) ∧
  (normalize (impact_json (impact_selection org target (w_db w))) = normalize (impact_json (impact_selection org target (w_db w0))) ∨
   ∃ a b, a ≠ b ∧ sha256 a = sha256 b).
Proof.
  intros (_ & _ & _ & Hv)%PreviewOffboarding_Ok Es H Hn; [|done]. rewrite Hv, lookup_insert_eq in Es.
  unfold OffboardWithPreview in H. branch H as B. b2p.
  apply offboard_Ok in H as (db1 & db2 & _ & _ & _ & _ & _ & F & Hs & _ & Hp & _); [|done..].
  destruct Hp as [[E _]|(v & Hv1 & (<- & Ha & <- & Ee & _ & Ht & Hd) & _)]; [done|].
  destruct (fills_same _ _ _ _ F) as (Fa & _). unfold previews in Hv1, Es. rewrite Fa, Es in Hv1. injection Hv1 as <-.
  cbn in Ha, Ee, Ht, Hd, F, Hs |- *. rewrite (impact_fills _ _ _ _ _ _ F) in Hd. subst expected.
  split_and!; try done. symmetry in Hd. by apply impact_digest_inj in Hd.
Qed.
End Properties.

(** ** Examples: a member leaves *)

Import Toy.

(** The organization with a project, an API key and a run of user 2. *)
Definition demo_run : run_row :=
  mkRunRow 20 60 2 6 "cli" "oauth" None None (24 * Hour) "active" None None "main" (24 * Hour) 0 0 0 "k" "d" None.
Definition demo_leaving : World :=
  world_of (upd_db_projects (upd_t_projects (const {[20%N := mkProject "shop" 1 (Some 10%N) "" "" None]})
      ∘ upd_t_api_keys (const {[40%N := mkAPIKey 2 20 ["read"] None None "ci" "hash" 0]}))
    (upd_db_tools (upd_t_tool_runs (const {[28%N := demo_run]})) demo_identity_db)) Minute.
Definition demo_previewed : result Offboarding * World := PreviewOffboarding demo_identity (human 1 5) 10 2 demo_leaving.

Definition demo_left : result Offboarding * World :=
  offboard (configureIdentity demo_identity_cfg demo_keys demo_chain demo_sessions) (human 1 5) 10 2 3 "leave-1" uuid_Nil demo_leaving.
Definition demo_left_again : result Offboarding * World :=
  OffboardWithPreview demo_identity (human 1 5) 10 2 3 "leave-2" (uuid_new 1) demo_previewed.2.

Definition status_is (st : string) (r : result Offboarding) : bool := match r with Ok o => bool_decide (ob_Status o = st) | Err _ => false end.
Lemma demo_left_status : status_is "locally_revoked" demo_left.1 = true ∧ status_is "preview" demo_previewed.1 = true ∧
  status_is "locally_revoked" demo_left_again.1 = true ∧ match demo_previewed.1 with Ok o => ob_PreviewID o | Err _ => 7%N end = uuid_new 1.
Proof. split_and!; vm_compute; reflexivity. Qed.
Lemma result_run {A} (x : result A * World) f : (∀ e, f (Err e) = false) → f x.1 = true → ∃ a, x = (Ok a, x.2) ∧ f (Ok a) = true.
Proof. intros Hf Hx. destruct x as [[a|e] w]; [by exists a|]. cbn in Hx. by rewrite Hf in Hx. Qed.

Lemma Offboard_shuts_out_witness : members (w_db demo_left.2) = delete (10, 2)%N (members (w_db demo_leaving)) ∧ no_tools 10 2 (w_db demo_left.2).
Proof.
  destruct demo_left_status as (F & _). destruct (result_run demo_left _ (λ e, eq_refl) F) as (o & H & _).
  assert (offboarding_by_key 10 (p_SubjectID (human 1 5)) "leave-1" (w_db demo_leaving) = None) as Hn by reflexivity.
  destruct (Offboard_shuts_out demo_identity_cfg demo_keys demo_chain demo_sessions (human 1 5) 10 2 3 "leave-1" uuid_Nil demo_leaving o demo_left.2 H Hn)
    as (_ & _ & _ & N & _ & M & _).
  exact (conj M N).
Defined.

Lemma preview_pins_impact_witness :
  ∃ o, demo_previewed.1 = Ok o ∧ member_states (w_db demo_previewed.2) !! (10, 2)%N = Some (true, ob_Epoch o).
Proof.
  destruct demo_left_status as (_ & F & G & E). destruct (result_run demo_previewed _ (λ e, eq_refl) F) as (o & H & _).
  destruct (result_run demo_left_again _ (λ e, eq_refl) G) as (o' & H' & _).
  assert (demo_previewed.1 = Ok o) as H1 by exact (f_equal fst H). rewrite H1 in E.
  assert (offboarding_by_key 10 (p_SubjectID (human 1 5)) "leave-2" (w_db demo_previewed.2) = None) as Hn by (vm_compute; reflexivity).
  pose proof (preview_pins_impact demo_identity (human 1 5) (human 1 5) 10 10 2 2 3 "leave-2" demo_leaving o demo_previewed.2 demo_previewed.2 o' demo_left_again.2 H eq_refl) as X.
  rewrite E in X. destruct (X H' Hn) as (_ & _ & _ & _ & _ & S & _). exact (ex_intro _ o (conj H1 S)).
Defined.
