(* ===== verification/SessionTheorems.v ===== *)
(** * Human sessions: theorems

    A token is accepted while its session row is live, and never after it was
    revoked. *)
From S2P Require Import McpAuth McpAuthSpec Prelude GoStrings GoEncoding GoStrconv GoNet GoStruct Policy Schema Database Crypto Jobs Authority AuditLog VaultStore Vault ApiKeys Grants Runs RunGrants Passwords Identity Sessions IdentitySpec.

(** ** Definitions *)

(** The row behind a token, while the token is good. *)
Definition backs `{P : Primitives} (t : time) (c : Claims) (raw : string) (id : uuid) (r : session_row) (db : DB) : Prop :=
  sessions db !! id = Some r ∧ se_user_id r = c_UserID c ∧ c_UserID c ∈ users db ∧ se_revoked r = false ∧ (t < se_expires_at r)%Z ∧
  c_ExpiresAt c = Some (se_expires_at r) ∧ sd_token_hash (session_detail db id) = HashAPIKey raw.

(** ** Lemmas *)

Lemma row_or_Ok {A} a b (m : Tx A) w x w' : row_or a b m w = (Ok x, w') ↔ m w = (Ok x, w').
Proof. unfold row_or. destruct (m w) as [[y|e] w1]; naive_solver. Qed.
Lemma own_session_Some user id db r : own_session user id db = Some r ↔ sessions db !! id = Some r ∧ se_user_id r = user.
Proof. unfold own_session. destruct (sessions db !! id) as [y|]; [|naive_solver]. cbn. case_bool_decide; naive_solver. Qed.

Section Checks.
Context `{J : JWT} `{P : Primitives} `{U : UUIDParse} `{JP : JWTParser} (IsPrint : Z → bool) (s : SessionService) (v : TokenValidator).

Lemma CheckHumanSession_Ok c raw w u w' :
  CheckHumanSession c raw w = (Ok u, w') →
  ∃ id r, uuid_Parse (c_SessionID c) = Some id ∧ c_ID c = c_SessionID c ∧ backs (w_now w) c raw id r (w_db w) ∧ w_db w' = w_db w.
Proof.
  unfold CheckHumanSession. destruct (uuid_Parse (c_SessionID c)) as [id|]; [|done]. destruct (c_ExpiresAt c) as [exp|] eqn:Ee; [|done].
  intros H. branch H as B. unfold Check in H. apply bind_Ok in H as ([h r] & w1 & [Hr ->]%row_or_Ok%query_row_Ok & H).
  apply bind_Ok in H as (t & w2 & [-> ->]%now_Ok & H). branch H as Bc. apply ret_Ok in H as [_ <-].
  destruct (own_session (c_UserID c) id (w_db w)) as [r'|] eqn:Eo; [|done]. cbn in Hr. apply own_session_Some in Eo as [Es Eu].
  destruct (decide (c_UserID c ∈ users (w_db w))) as [Hu|]; [|done]. injection Hr as Eh ->.
  rewrite !orb_false_iff, !negb_false_iff in Bc. destruct Bc as [[[B1 B2] B3] B4]. apply orb_false_iff in B as [_ B]. apply negb_false_iff in B.
  unfold After in B3. cbn in B3. b2p. exists id, r. split_and!; [done|done| |done]. unfold backs. split_and!; try done; congruence.
Qed.
Lemma ValidateToken_Ok raw w c w' :
  ValidateToken IsPrint v raw w = (Ok c, w') →
  jwt_ParseWithClaims (w_now w) raw (keyfunc IsPrint v) = Ok (c, true) ∧
  (tv_humanSessions v = Some CheckHumanSession → c_TokenType c ≠ "agent" →
   c_TokenType c = "human" ∧ ∃ id r, uuid_Parse (c_SessionID c) = Some id ∧ backs (w_now w) c raw id r (w_db w)).
Proof.
  unfold ValidateToken. intros H. apply bind_Ok in H as (t & w1 & [-> ->]%now_Ok & H).
  destruct (jwt_ParseWithClaims _ _ _) as [[c' valid]|e]; [|done]. branch H as B. apply negb_false_iff in B as ->. branch H as Bt.
  apply bind_Ok in H as (u & w2 & Hh & H). apply bind_Ok in H as (u2 & w3 & _ & [-> _]%ret_Ok). split; [done|]. intros Hv Hn.
  unfold check_human in Hh. rewrite Hv in Hh. rewrite bool_decide_false in Hh by done. branch Hh as Bh.
  rewrite !orb_false_iff, !negb_false_iff in Bh. destruct Bh as [[[[B1 _] _] _] _]. b2p. split; [done|].
  apply CheckHumanSession_Ok in Hh as (id & r & Hid & _ & Hb & _). by exists id, r.
Qed.
End Checks.

(** *** Issuing *)

Section Issue.
Context `{J : JWT} `{P : Primitives} `{U : UUIDParse} `{JP : JWTParser} (IsPrint : Z → bool) (s : SessionService) (v : TokenValidator).

Lemma audit_session_logs user action details ip w u w' :
  audit_session s user action details ip w = (Ok u, w') → logs w w'.
Proof.
  unfold audit_session. destruct (ss_audit s) as [r|]; [|done]. intros H. eapply logs_of, H; [apply CreateTx_logs|apply forward_CreateTx].
Qed.
Lemma insert_session_Some id r d db db' :
  insert_session id r d db = Some db' →
  (sessions db !! id = None ∧ se_user_id r ∈ users db) ∧ db' = on_accounts (upd_t_session_details <[id := d]>) (on_sessions <[id := r]> db).
Proof.
  unfold insert_session. intros H. passed H as B. subst. rewrite !orb_false_iff in B. destruct B as [[[[[B1 B2] _] _] _] _]. b2p.
  split; [|done]. split; [by apply eq_None_not_Some|by apply dec_stable].
Qed.
(** The claims of a session token. *)
Definition session_claims (user : uuid) (email : string) (id : uuid) (issued : time) : Claims :=
  mkClaims user email (uuid_String id) "human" None None "" [] (uuid_String id) (Some (session_expiry issued)) (Some issued).
Lemma GenerateSessionToken_Ok user email id t w token w' :
  GenerateSessionToken s user email id (session_expiry t) w = (Ok token, w') → t = w_now w →
  user ≠ uuid_Nil ∧ id ≠ uuid_Nil ∧ signClaims (ss_jwt s) (session_claims user email id t) = Ok token ∧ w' = w.
Proof.
  unfold GenerateSessionToken. intros H ->. apply bind_Ok in H as (t' & w1 & [-> ->]%now_Ok & H). branch H as B.
  apply lift_Ok in H as [H ->]. rewrite !orb_false_iff in B. destruct B as [[[B1 B2] _] _]. b2p. by split_and!.
Qed.
Lemma IssueTx_Ok user email method ip ua w token w' :
  IssueTx s user email method ip ua w = (Ok token, w') →
  ∃ id d, user ≠ uuid_Nil ∧ user ∈ users (w_db w) ∧ id ≠ uuid_Nil ∧ signClaims (ss_jwt s) (session_claims user email id (w_now w)) = Ok token ∧
    sessions (w_db w) !! id = None ∧ sd_token_hash d = HashAPIKey token ∧
    logged (on_accounts (upd_t_session_details <[id := d]>) (on_sessions <[id := mkSession user false (w_now w) (session_expiry (w_now w))]> (w_db w))) (w_db w').
Proof.
  unfold IssueTx. intros H. apply bind_Ok in H as (u1 & w1 & H1 & H).
  assert (at_same w w1) as (E1 & T1 & _).
  { destruct (bool_decide _) in H1; [|by apply ret_Ok in H1 as [_ <-]]. apply LockSubjects_Ok in H1 as [_ (A1 & A2 & A3)]. split_and!; [done..|lia]. }
  apply bind_Ok in H as (id & w2 & (E2 & T2 & _)%uuid_New_at & H). apply bind_Ok in H as (t & w3 & [-> ->]%now_Ok & H).
  apply bind_Ok in H as (tok & w3 & (Hu & Hid & Hs & ->)%GenerateSessionToken_Ok & H); [|done].
  apply bind_Ok in H as (u4 & w4 & H4 & H). unfold CreateTx in H4. apply bind_Ok in H4 as (t & w5 & [-> ->]%now_Ok & (db4 & [[Hn Hus] H4]%insert_session_Some & ->)%exec_Ok).
  apply bind_Ok in H as (u5 & w5 & H5 & H). apply bind_Ok in H as (u6 & w6 & [L _]%audit_session_logs & [<- <-]%ret_Ok).
  rewrite E2, E1 in Hn, Hus, H4. rewrite T2, T1 in Hs, H4.
  match type of H4 with _ = on_accounts (upd_t_session_details <[_ := ?x]>) _ => set (d0 := x) in H4 end.
  exists id, (if bool_decide (ss_dialect s = DBTypePostgres) then with_method (if bool_decide (method ∈ ["password"; "google"; "github"]) then method else "unknown") d0 else d0).
  split_and!; try done; [by destruct (bool_decide (ss_dialect s = _))|]. etrans; [|exact L].
  destruct (bool_decide (ss_dialect s = DBTypePostgres)).
  - apply exec__Ok in H5 as ->. subst db4. cbn. unfold logged, core. cbn. unfold upd_db_accounts. cbn. f_equal.
    destruct (db_accounts (w_db w)). unfold upd_t_session_details. cbn. f_equal. apply alter_insert_eq.
  - apply ret_Ok in H5 as [_ <-]. by subst db4.
Qed.
End Issue.

(** *** Revoking *)

Lemma RevokeTx_Ok d user id w b w' :
  RevokeTx d user id w = (Ok b, w') →
  ∃ r, sessions (w_db w) !! id = Some r ∧ se_user_id r = user ∧ b = negb (se_revoked r) ∧
    w_db w' = if b then revoke_sessions (λ k r, bool_decide (k = id) && bool_decide (se_user_id r = user)) (w_db w) else w_db w.
Proof.
  unfold RevokeTx. intros H. apply bind_Ok in H as (r & w1 & [Hr ->]%query_row_Ok & H). apply own_session_Some in Hr as [Hr Hu].
  apply bind_Ok in H as (u & w2 & H2 & H). apply (reads_run _ _ _ _ (reads_g_lock d _)) in H2 as (E2 & _). exists r.
  destruct (se_revoked r) eqn:R.
  - apply ret_Ok in H as [<- <-]. by split_and!.
  - apply bind_Ok in H as (u2 & w3 & ->%exec__Ok & [<- <-]%ret_Ok). split_and!; [done..|]. cbn. by rewrite E2.
Qed.
Lemma identityEventTx_logs `{P : Primitives} d actor action details w u w' : identityEventTx d actor action details w = (Ok u, w') → logs w w'.
Proof.
  unfold identityEventTx. destruct (negb _); [by intros [_ <-]%ret_Ok|]. intros H. eapply logs_of, H.
  - apply keeps_bind; [apply _|apply keeps_uuid_New, _|intros j; apply keeps_logged_EnqueueTx].
  - forward_tac.
Qed.
Lemma LockActiveTx_Ok d user id recent w u w' :
  LockActiveTx d user id recent w = (Ok u, w') →
  ∃ r, sessions (w_db w) !! id = Some r ∧ se_user_id r = user ∧ se_revoked r = false ∧ (w_now w < se_expires_at r)%Z ∧
    (recent = true → w_now w - se_created_at r <= RecentAuthenticationWindow)%Z ∧ at_same w w'.
Proof.
  unfold LockActiveTx. intros H. apply bind_Ok in H as (r & w1 & [Hr ->]%row_or_Ok%query_row_Ok & H). apply own_session_Some in Hr as [Hr Hu].
  apply bind_Ok in H as (u1 & w2 & H2 & H). apply (reads_run _ _ _ _ (reads_g_lock d _)) in H2 as (E2 & T2 & R2). cbn in E2, T2, R2.
  apply bind_Ok in H as (t & w3 & [-> ->]%now_Ok & H). branch H as B. branch H as Bt. apply ret_Ok in H as [_ <-].
  rewrite orb_false_iff, negb_false_iff in B. destruct B as [B1 B2]. unfold After in B2. b2p. rewrite T2 in *.
  exists r. split_and!; try done. intros ->. cbn in Bt. b2p. lia.
Qed.
Lemma Revoke_Ok `{P : Primitives} s user current target ip w u w' :
  Revoke s user current target ip w = (Ok u, w') →
  (∃ rc, sessions (w_db w) !! current = Some rc ∧ se_user_id rc = user ∧ se_revoked rc = false ∧ (w_now w < se_expires_at rc)%Z) ∧
  ∃ r, sessions (w_db w) !! target = Some r ∧ se_user_id r = user ∧
    sessions (w_db w') !! target = Some (revoke_session r) ∧ ∀ k, k ≠ target → sessions (w_db w') !! k = sessions (w_db w) !! k.
Proof.
  unfold Revoke. intros (c & w9 & H & ->)%with_tx_or_Ok%with_tx_opt_Ok. set (w0 := upd_w_locks _ _) in H.
  apply bind_Ok in H as (u1 & w1 & H1 & H). apply LockSubjects_Ok in H1 as [_ (E1 & T1 & _)].
  apply bind_Ok in H as (u2 & w2 & H2 & H). assert (at_same w1 w2) as (E2 & T2 & _).
  { eapply reads_run, H2. unfold LockRevocationTargetsTx. destruct (bool_decide _); [apply reads_fail|]. apply reads_for_each. intros id.
    assert (∀ A a b (m : Tx A), reads m → reads (row_or a b m)) as Hro.
    { intros A a b m Hm. split; intros v x v' Hx; unfold row_or in Hx; destruct (m v) as [[y|e] v1] eqn:E; injection Hx as <- <-; by eapply Hm. }
    apply reads_bind; [apply Hro, reads_query_row|intros; apply reads_g_lock]. }
  apply bind_Ok in H as (u3 & w3 & (rc & Hrc & Huc & Hlive & Hexp & _ & E3 & _)%LockActiveTx_Ok & H).
  apply bind_Ok in H as (b & w4 & (r & Hr & Hu & Hb & E4)%RevokeTx_Ok & H). apply bind_Ok in H as (u5 & w5 & H5 & H). apply ret_Ok in H as [E <-].
  injection E as _ <-. assert (w_db w2 = w_db w) as E20 by (rewrite E2, E1; done). assert (w_now w2 = w_now w) as T20 by (rewrite T2, T1; done).
  rewrite E20 in Hrc. rewrite T20 in Hexp. rewrite E3, E20 in Hr, E4. split; [by exists rc|]. exists r. split; [done|]. split; [done|].
  assert (sessions (w_db w5) = sessions (w_db w4)) as E5.
  { destruct b; [|by apply ret_Ok in H5 as [_ <-]]. apply bind_Ok in H5 as (u6 & w6 & [L6 _]%audit_session_logs & [L7 _]%identityEventTx_logs).
    unfold sessions. by rewrite (logged_identity _ _ L7), (logged_identity _ _ L6). }
  cbn. rewrite E5, E4. destruct (se_revoked r) eqn:R; cbn in Hb; subst b; cbn.
  - split; [|done]. rewrite Hr. destruct r; cbn in R. by subst.
  - unfold sessions. cbn. setoid_rewrite lookup_update_where. split.
    + unfold sessions in Hr. rewrite Hr. cbn. by rewrite !bool_decide_true.
    + intros k Hk. rewrite bool_decide_false by done. cbn. by destruct (t_session_tokens (db_identity (w_db w)) !! k).
Qed.

(** *** A token that is good *)

Section Good.
Context `{J : JWT} `{P : Primitives} `{U : UUIDParse} `{JP : JWTParser} (IsPrint : Z → bool) (v : TokenValidator).

Lemma CheckHumanSession_run c raw id r w :
  w_faults w = [] → uuid_Parse (c_SessionID c) = Some id → id ≠ uuid_Nil → c_ID c = c_SessionID c → backs (w_now w) c raw id r (w_db w) →
  CheckHumanSession c raw w = (Ok (), ticked w).
Proof.
  intros Hf Hp Hn Hc (Hr & Hu & Hus & Hl & Ht & He & Hh). unfold CheckHumanSession. rewrite Hp, He, Hc.
  rewrite (bool_decide_false (id = _)), bool_decide_true by done. cbn. unfold Check.
  assert (own_session (c_UserID c) id (w_db w) = Some r) as Ho by (by apply own_session_Some).
  unfold mbind, M_bind. erewrite (proj2 (row_or_Ok _ _ _ _ _ _)); [|apply query_row_run; [done|]; cbn; rewrite Ho; cbn; by rewrite decide_True].
  cbn. rewrite Hl, bool_decide_true by done. unfold After. cbn. rewrite (proj2 (Z.ltb_lt _ _) Ht), Z.eqb_refl. done.
Qed.
Lemma ValidateToken_run c raw id r w :
  w_faults w = [] → jwt_ParseWithClaims (w_now w) raw (keyfunc IsPrint v) = Ok (c, true) → tv_humanSessions v = Some CheckHumanSession →
  c_TokenType c = "human" → c_SessionID c ≠ "" → c_UserID c ≠ uuid_Nil →
  uuid_Parse (c_SessionID c) = Some id → id ≠ uuid_Nil → c_ID c = c_SessionID c → backs (w_now w) c raw id r (w_db w) →
  ValidateToken IsPrint v raw w = (Ok c, ticked w).
Proof.
  intros Hf Hj Hv Ht Hs Hu Hp Hn Hc Hb. pose proof Hb as (_ & _ & _ & _ & _ & He & _).
  unfold ValidateToken, check_human, check_denied. unfold mbind, M_bind, now, get. rewrite Hj, Hv, Ht. cbn.
  rewrite (bool_decide_true ("human" ∈ _)) by (rewrite !elem_of_cons; tauto). cbn.
  rewrite (bool_decide_false (c_SessionID c = "")), (bool_decide_true (c_ID c = _)), He, (bool_decide_false (c_UserID c = _)) by done. cbn.
  change (bool_decide ("human" = "agent")) with false. change (bool_decide ("human" = "human")) with true. cbn.
  rewrite (CheckHumanSession_run c raw id r w) by done. by destruct (tv_denylist v).
Qed.
End Good.

(** ** Properties *)


(** ** Examples: one sign-in *)

Import Toy.

(** A library that accepts what it was signed with, and one identifier. *)
Definition demo_claims : Claims := session_claims 1 "a@x" 2 Minute.
#[local] Instance toy_parser : JWTParser := λ t raw kf,
  match kf "HS256" "" MethodHMAC with
  | Ok _ => if bool_decide (raw = "HS256." +:+ uuid_String 2) then Ok (demo_claims, true) else Err (Errorf "signature is invalid")
  | Err e => Err e
  end.
#[local] Instance toy_ids : UUIDParse := λ raw, if bool_decide (raw = uuid_String 2) then Some 2%N else None.
Definition demo_sign_in : SessionService := mkSessionService (mkJWTService "hmac-secret" None) (Some (mkAuditRepository "chain-key")) DBTypePostgres.
Definition demo_validator : TokenValidator := mkTokenValidator "hmac-secret" None None None (Some CheckHumanSession).
Definition demo_signing : World := world_of (upd_db_identity (upd_t_users (const {[1%N]})) empty_db) Minute.
Definition demo_issued : result string * World := IssueTx demo_sign_in 1 "a@x" "password" "" "curl" demo_signing.
Lemma demo_issued_Ok : demo_issued.1 = Ok ("HS256." +:+ uuid_String 2) ∧ (map_to_list (sessions (w_db demo_issued.2))).*1 = [2%N] ∧
  w_faults demo_issued.2 = [].
Proof. split_and!; vm_compute; reflexivity. Qed.
Lemma demo_parsed : jwt_ParseWithClaims Minute ("HS256." +:+ uuid_String 2) (keyfunc (λ _, true) demo_validator) = Ok (demo_claims, true).
Proof. vm_compute. reflexivity. Qed.
Lemma demo_read : uuid_Parse (uuid_String 2) = Some 2%N.
Proof. vm_compute. reflexivity. Qed.

