(* ===== verification/SignIn.v ===== *)
(** * Accounts and sign-in with a password

    [internal/service/auth_service.go] over [repository/user_repo.go] and
    [auth_attempts_repo.go]: registration, the lookup of an account by its
    canonical email, the lockout after too many failures, and the transaction
    that turns an accepted password into a session.  [LOWER] of the database is a
    parameter.  Not modelled: [UserRepository.Create], which no handler calls, and
    the time stamps of [users]. *)
From S2P Require Import Prelude GoStrings GoEncoding GoNet GoStruct GoUnicode Policy Schema Database Crypto Jobs Authority AuditLog VaultStore Vault ApiKeys Grants PromotionService Passwords Identity Sessions.

(** ** Definitions *)

Definition ErrUserExists : error := Sentinel "email already registered".
Definition ErrAccountLocked : error := Sentinel "account locked due to too many failed login attempts".
Definition invalid_credentials : error := Errorf "invalid credentials".
Definition lockoutThreshold : Z := 10.
Definition lockoutWindow : Z := 15 * Minute.

(** [fmt.Errorf("%w: ...", auth.ErrSessionUnavailable)]. *)
Definition unavailable (msg : string) : error := Wrapf msg ErrSessionUnavailable.

(** [models.User], without its time stamps. *)
Record User := mkUser {
  us_ID : uuid;
  us_Email : string;
  us_PasswordHash : string;
}.
Record AuthResponse := mkAuthResponse {
  ar_User : User;
  ar_Token : string;
}.
Record AuthService := mkAuthService {
  as_attemptsRepo : bool;
  as_auditRepo : option AuditRepository;
  as_jwtService : JWTService;
  as_sessions : option SessionService;
  as_Dialect : DBType;
}.

Definition user_emails (db : DB) := t_user_emails (db_accounts db).
Definition login_attempts (db : DB) := t_auth_login_attempts (db_accounts db).

(** [LOWER] of the database, as its locale has it. *)
Class SQLText := sql_Lower : string → string.
(** [TRIM] takes blanks off both ends, and nothing else. *)
Fixpoint trim_blanks (s : string) : string :=
  match s with String " " s' => trim_blanks s' | _ => s end.
Definition sql_Trim (s : string) : string := TrimRight (trim_blanks s) " ".

(** An [INSERT] whose violations of a unique index are an error of their own. *)
Definition exec_unique (conflict : DB → bool) (e : error) (f : DB → option DB) : Tx unit := λ w,
  match exec f w with
  | (Err e', w') => (Err (if errors_Is e' "constraint violation" && conflict (w_db w) then e else e'), w')
  | r => r
  end.
(** A transaction whose failures to begin and to commit are reported as such; no
    body reports the bare error of the driver. *)
Definition identity_tx {A} (body : Tx A) : Tx A := λ w,
  match with_tx_or (unavailable "opening identity transaction") (a ← body; mret (a, true)) w with
  | (Err e, w') => (Err (if errors_Is e "driver error" then unavailable "committing identity transaction" else e), w')
  | r => r
  end.

(** *** [UserRepository] *)

Section Users.
Context `{UC : Unicode} `{SQ : SQLText}.

Definition CanonicalEmail (email : string) : string := ToLower (TrimSpace email).
(** [LOWER(TRIM(email))], which a unique index covers. *)
Definition email_key (email : string) : string := sql_Lower (sql_Trim email).
Definition user_row (id : uuid) (db : DB) : option User :=
  hash ← user_password id db; Some (mkUser id (default "" (user_emails db !! id)) hash).
Definition users_by_email (key : string) (db : DB) : list uuid :=
  merge_sort N.le (filter (λ id, email_key (default "" (user_emails db !! id)) = key) (elements (users db))).
Definition add_user (id : uuid) (email hash : string) (db : DB) : DB :=
  on_accounts (upd_t_password_hashes <[id := hash]> ∘ upd_t_user_emails <[id := email]>) (upd_db_identity (upd_t_users (λ us, us ∪ {[id]})) db).
Definition insert_user (id : uuid) (email hash : string) (db : DB) : option DB :=
  if bool_decide (id ∈ users db) || negb (bool_decide (users_by_email (email_key email) db = []))
     || negb (varchar 255 email) || negb (varchar 255 hash)
  then None else Some (add_user id email hash db).
(** Widths are checked before the indexes. *)
Definition user_conflict (id : uuid) (email hash : string) (db : DB) : bool :=
  varchar 255 email && varchar 255 hash
  && (bool_decide (id ∈ users db) || negb (bool_decide (users_by_email (email_key email) db = []))).

Definition GetByEmail (email : string) : Tx User :=
  wrap_err "getting user by email" (query_row (λ db, id ← head (users_by_email (CanonicalEmail email) db); user_row id db)).
Definition GetByID (id : uuid) : Tx User := wrap_err "getting user by id" (query_row (user_row id)).
Definition CreateTx `{P : Primitives} (email passwordHash : string) : Tx User :=
  id ← uuid_New;
  let email := TrimSpace email in
  _ ← exec_unique (user_conflict id email passwordHash) ErrUserExists (insert_user id email passwordHash);
  query_row (user_row id).
End Users.

(** *** [AuthAttemptsRepository] *)

(** [failed_count] is an [INTEGER]. *)
Definition insert_attempt (email : string) (row : login_row) (db : DB) : option DB :=
  if bool_decide (is_Some (login_attempts db !! email)) || (2 ^ 31 <=? la_failed_count row)%Z then None
  else Some (on_accounts (upd_t_auth_login_attempts <[email := row]>) db).
Definition delete_attempt (email : string) : DB → DB := on_accounts (upd_t_auth_login_attempts (delete email)).

Definition Get (email : string) : Tx login_row :=
  r ← attempt (query_row (λ db, login_attempts db !! email));
  match r with
  | Ok la => mret la
  | Err e => if errors_Is e ErrNoRows then mret (mkLoginRow 0 None None) else fail (Wrapf "get login attempt" e)
  end.
Definition upsert (email : string) (row : login_row) : Tx unit :=
  with_tx_or (Wrapf "begin tx" driver_error) (
    _ ← wrap_err "upsert delete" (exec_ (delete_attempt email));
    _ ← wrap_err "upsert insert" (exec (insert_attempt email row));
    mret ((), true)).
(** The row after one more failure. *)
Definition failed_again (threshold lockFor : Z) (t : time) (la : login_row) : login_row :=
  let newCount := (la_failed_count la + 1)%Z in
  mkLoginRow newCount (Some t)
    (if (threshold <=? newCount)%Z then Some (t + lockFor)%Z
     else match la_locked_until la with Some u => if After u t then Some u else None | None => None end).
Definition RegisterFailure (email : string) (threshold lockFor : Z) : Tx unit :=
  t ← now;
  la ← Get email;
  upsert email (failed_again threshold lockFor t la).
Definition Reset (email : string) : Tx unit := wrap_err "reset login attempts" (exec_ (delete_attempt email)).
Definition is_locked (t : time) (la : login_row) : bool :=
  match la_locked_until la with Some u => After u t | None => false end.

(** *** The service *)

Section Token.
Context `{J : JWT} `{P : Primitives}.

(** [JWTService.GenerateToken]. *)
Definition GenerateToken (jwt : JWTService) (userID : uuid) (email : string) : Tx string :=
  t ← now;
  lift (signClaims jwt (mkClaims userID email "" "" None None "" [] "" (Some (t + 24 * Hour)%Z) (Some t))).
(** A session where they are enabled, else a token of the old kind. *)
Definition issue_token (sessions : option SessionService) (jwt : JWTService) (user : User) (method ip ua : string) : Tx string :=
  match sessions with
  | Some sessions => IssueTx sessions (us_ID user) (us_Email user) method ip ua
  | None => GenerateToken jwt (us_ID user) (us_Email user)
  end.
End Token.

Section Service.
Context `{UC : Unicode} `{SQ : SQLText} `{J : JWT} `{P : Primitives} `{BC : Bcrypt} (s : AuthService).

(** The audit entry and the outbox event of a sign-in. *)
Definition record_sign_in (user : uuid) (action : string) (details : json) (ip : string) : Tx unit :=
  match as_auditRepo s with
  | None => fail ErrSessionUnavailable
  | Some r =>
      _ ← on_err (unavailable "identity audit unavailable") (AuditLog.CreateTx r (Some user) None action "" details ip);
      on_err (unavailable "identity outbox unavailable") (identityEventTx (as_Dialect s) user action [("method", "password")])
  end.

Definition RegisterContext (email password ip ua : string) : Tx AuthResponse :=
  _ ← lift (Validate DefaultPasswordPolicy password);
  hash ← on_err (unavailable "hashing password") (HashPassword password);
  identity_tx (
    created ← attempt (CreateTx email hash);
    user ← match created with
           | Ok user => mret user
           | Err e => fail (if errors_Is e "email already registered" then e else unavailable "creating user")
           end;
    token ← on_err (unavailable "issuing session") (issue_token (as_sessions s) (as_jwtService s) user "password" ip ua);
    _ ← record_sign_in (us_ID user) "auth.register" (mk_obj [("method", JStr "password")]) ip;
    mret (mkAuthResponse user token)).
Definition Register (email password : string) : Tx AuthResponse := RegisterContext email password "" "".
Definition LookupByEmail (email : string) : Tx User := GetByEmail email.

Definition recordFailure (email ipAddr : string) : Tx unit :=
  _ ← (if as_attemptsRepo s then _ ← attempt (RegisterFailure email lockoutThreshold lockoutWindow); mret () else mret ());
  emitAudit (as_auditRepo s) None None "auth.login_failed" "" (mk_obj [("email_attempted", JStr email)]) ipAddr.
Definition account_locked (email : string) : Tx bool :=
  if as_attemptsRepo s then
    la ← on_err (unavailable "loading authentication attempts") (Get email);
    t ← now;
    mret (is_locked t la)
  else mret false.
(** The transaction after the password was accepted; where sessions are enabled
    it compares the hash again behind the user's barrier. *)
Definition sign_in (user : User) (ipAddr ua : string) : Tx AuthResponse :=
  identity_tx (
    _ ← (if bool_decide (as_sessions s = None) then mret () else
           _ ← on_err ErrSessionUnavailable (Authority.LockSubjects (as_Dialect s) [us_ID user]);
           currentHash ← on_err ErrSessionUnavailable (query_row (user_password (us_ID user)));
           check (bool_decide (currentHash = us_PasswordHash user)) invalid_credentials);
    token ← on_err (unavailable "issuing session") (issue_token (as_sessions s) (as_jwtService s) user "password" ipAddr ua);
    _ ← record_sign_in (us_ID user) "auth.login" (mk_obj [("success", JBool true); ("method", JStr "password")]) ipAddr;
    mret (mkAuthResponse user token)).
(** Whether the password is that of an account. *)
Definition verify_password (email password ipAddr : string) : Tx User :=
  found ← attempt (GetByEmail email);
  match found with
  | Err e => if errors_Is e ErrNoRows then _ ← recordFailure email ipAddr; fail invalid_credentials else fail (unavailable "finding user")
  | Ok user =>
      if negb (CheckPassword password (us_PasswordHash user)) then _ ← recordFailure email ipAddr; fail invalid_credentials
      else mret user
  end.
Definition LoginContext (email password ipAddr ua : string) : Tx AuthResponse :=
  let email := CanonicalEmail email in
  locked ← account_locked email;
  if (locked : bool) then
    _ ← emitAudit (as_auditRepo s) None None "auth.login_failed" ""
          (mk_obj [("email_attempted", JStr email); ("reason", JStr "locked")]) ipAddr;
    fail ErrAccountLocked
  else
    user ← verify_password email password ipAddr;
    response ← sign_in user ipAddr ua;
    _ ← (if as_attemptsRepo s then _ ← attempt (Reset email); mret () else mret ());
    mret response.
Definition Login (email password ipAddr : string) : Tx AuthResponse := LoginContext email password ipAddr "".
End Service.
