(* ===== verification/SocialAuth.v ===== *)
(** * Sign-in with an external identity

    [internal/service/social_auth_service.go], [social_auth_providers.go] and
    [repository/social_auth_repo.go]: an authorization request with state and
    PKCE, its one-time consumption, the exchange with the provider, and the
    resolution of the identity to an account, which never goes by email.  The
    transport ([Remote]), what else happens while a request waits ([Elsewhere])
    and the verification of Google's identity tokens ([OIDC]) are parameters; the
    constant headers of the requests are not represented, and a database call the
    context's deadline ends is one of the driver's failures. *)
From S2P Require Import Prelude GoStrings GoEncoding GoNet GoStruct GoStrconv GoUnicode Policy Schema Database Crypto Jobs Authority AuditLog VaultStore Vault ApiKeys Grants Runner Broker PromotionService Passwords Identity Sessions SignIn.

(** ** Definitions *)

Definition ErrSocialUnavailable : error := Sentinel "provider unavailable".
Definition ErrSocialIdentity : error := Sentinel "provider identity could not be verified".
Definition ErrSocialConflict : error := Sentinel "identity requires existing account sign-in".
Definition ErrSocialFlow : error := Sentinel "invalid or expired sign-in".

Definition pkceChallengePattern (s : string) : bool :=
  (String.length s =? 43) && all_bytes (λ c, is_alnum c || one_of "_-" c) s.
Definition pkceVerifierPattern (s : string) : bool :=
  (43 <=? String.length s) && (String.length s <=? 128) && all_bytes (λ c, is_alnum c || one_of "._~-" c) s.
Definition socialStatePattern : string → bool := hex_string 64.

Record SocialProvider := mkSocialProvider {
  ClientID : string;
  ClientSecret : string;
}.
(** [config.SocialAuth]. *)
Record SocialConfig := mkSocialConfig {
  Origin : string;
  Google : SocialProvider;
  GitHub : SocialProvider;
}.
Record SocialAuthService := mkSocialAuthService {
  so_config : SocialConfig;
  so_audit : option AuditRepository;
  so_jwt : JWTService;
  so_sessions : option SessionService;
  so_Dialect : DBType;
}.
Record SocialStart := mkSocialStart {
  st_URL : string;
  st_State : string;
}.
Record SocialIdentity := mkSocialIdentity {
  id_Subject : string;
  id_Email : string;
}.

(** A verified identity token, with the claims it carries. *)
Record IDToken := mkIDToken {
  it_Subject : string;
  it_Nonce : string;
  it_Audience : list string;
  it_Claims : json;
}.
(** [oidc.IDTokenVerifier] of a client, which may fetch the keys of the provider:
    the nanoseconds it takes, and the token it accepts. *)
Class OIDC := oidc_Verify : N → string → string → N * option IDToken.

(** *** [url.QueryEscape] and [url.Values.Encode], for one value per key *)

Fixpoint QueryEscape (s : string) : string :=
  match s with
  | EmptyString => ""
  | String c s' =>
      if is_alnum c || one_of "-_.~" c then String c (QueryEscape s')
      else if bool_decide (c = " "%char) then String "+" (QueryEscape s')
      else String "%" (String (upper_hex (byte_val c / 16)) (String (upper_hex (byte_val c mod 16)) (QueryEscape s')))
  end.
Definition earlier_key (a b : string * string) : Prop := text_le a.1 b.1.
#[export] Instance earlier_key_dec : RelDecision earlier_key.
Proof. intros a b. unfold earlier_key. apply _. Defined.
Definition values_Encode (l : list (string * string)) : string :=
  Join (map (λ kv, QueryEscape kv.1 +:+ "=" +:+ QueryEscape kv.2) (merge_sort earlier_key l)) "&".

(** *** [SocialAuthRepository] *)

Definition flow_matches (provider challenge : string) (t : time) (user session : option uuid) (f : flow_row) : bool :=
  bool_decide (sf_provider f = provider) && bool_decide (sf_challenge f = challenge) && (unix t <? sf_expires_at f)%Z
  && bool_decide (sf_link_user_id f = user) && bool_decide (sf_link_session_id f = session).
Definition insert_flow (hash : string) (f : flow_row) (db : DB) : option (DB * Z) :=
  if (10000 <=? N.of_nat (size (social_auth_flows db)))%N then Some (db, 0%Z)
  else if bool_decide (is_Some (social_auth_flows db !! hash)) || negb (varchar 64 hash) || negb (varchar 16 (sf_provider f))
       || negb (varchar 43 (sf_challenge f))
       || match sf_link_user_id f with Some u => bool_decide (u ∉ users db) | None => false end
       || match sf_link_session_id f with Some k => bool_decide (sessions db !! k = None) | None => false end
  then None else Some (on_accounts (upd_t_social_auth_flows <[hash := f]>) db, 1%Z).
Definition delete_flow (hash : string) (p : flow_row → bool) (db : DB) : option (DB * Z) :=
  match social_auth_flows db !! hash with
  | Some f => if p f then Some (on_accounts (upd_t_social_auth_flows (delete hash)) db, 1%Z) else Some (db, 0%Z)
  | None => Some (db, 0%Z)
  end.

Definition CreateFlowForSession (hash provider challenge : string) (user session : option uuid) : Tx unit :=
  if bool_decide (is_Some session) && bool_decide (user = None) then fail ErrSocialFlow else
  t ← now;
  _ ← exec_ (on_accounts (upd_t_social_auth_flows (delete_where (λ _ f, (sf_expires_at f <=? unix t)%Z))));
  n ← exec_n (insert_flow hash (mkFlowRow provider challenge user session (unix t + 600)));
  check (n =? 1)%Z ErrSocialFlow.
Definition CreateFlow (hash provider challenge : string) (user : option uuid) : Tx unit :=
  CreateFlowForSession hash provider challenge user None.
Definition ConsumeFlowForSession (hash provider challenge : string) (user session : option uuid) : Tx unit :=
  if bool_decide (is_Some session) && bool_decide (user = None) then fail ErrSocialFlow else
  t ← now;
  n ← exec_n (delete_flow hash (flow_matches provider challenge t user session));
  check (n =? 1)%Z ErrSocialFlow.
Definition ConsumeFlow (hash provider challenge : string) (user : option uuid) : Tx unit :=
  ConsumeFlowForSession hash provider challenge user None.

Definition bound_user (provider subject : string) (db : DB) : option uuid :=
  si_user_id <$> social_identities db !! (provider, subject).
Definition identity_conflict (provider subject : string) (user : uuid) (db : DB) : bool :=
  bool_decide (is_Some (social_identities db !! (provider, subject)))
  || bool_decide (map_Exists (λ k r, k.1 = provider ∧ si_user_id r = user) (social_identities db)).
Definition identity_widths (provider subject email : string) : bool :=
  varchar 16 provider && varchar 255 subject && varchar 255 email.
Definition insert_identity (provider subject : string) (user : uuid) (email : string) (db : DB) : option DB :=
  if identity_conflict provider subject user db || negb (identity_widths provider subject email) || bool_decide (user ∉ users db)
  then None else Some (on_accounts (upd_t_social_identities <[(provider, subject) := mkSocialRow user email]>) db).

Section Resolve.
Context `{UC : Unicode} `{SQ : SQLText} `{P : Primitives}.

(** An account of its own for an identity whose email no account has; its
    password is no hash. *)
Definition new_account (email : string) : Tx uuid :=
  count ← query (λ db, length (users_by_email (CanonicalEmail email) db));
  if negb (count =? 0) then fail ErrSocialConflict else
  id ← uuid_New;
  _ ← exec_unique (user_conflict id (ToLower email) "!") ErrSocialConflict (insert_user id (ToLower email) "!");
  mret id.
Definition ResolveTx (provider subject email : string) (linkUser : option uuid) : Tx User :=
  bound ← query (bound_user provider subject);
  id ← match bound with
       | Some id =>
           _ ← check (match linkUser with Some u => bool_decide (id = u) | None => true end) ErrSocialConflict;
           mret id
       | None =>
           id ← match linkUser with Some u => mret u | None => new_account email end;
           _ ← exec_unique (λ db, identity_widths provider subject email && identity_conflict provider subject id db) ErrSocialConflict
                 (insert_identity provider subject id email);
           mret id
       end;
  query_row (user_row id).
Definition Resolve (provider subject email : string) (linkUser : option uuid) : Tx User :=
  with_tx (ResolveTx provider subject email linkUser).
End Resolve.
Definition Connections (user : uuid) : Tx (list string) := query (linked_providers user).

(** *** What the providers answer *)

Record token_reply := mkTokenReply {
  tr_AccessToken : string;
  tr_IDToken : string;
  tr_Error : string;
  tr_TokenType : string;
}.
Definition dec_token_reply : decoder token_reply := dec_struct [
  field "access_token" dec_string tr_AccessToken (λ x r, mkTokenReply x (tr_IDToken r) (tr_Error r) (tr_TokenType r));
  field "id_token" dec_string tr_IDToken (λ x r, mkTokenReply (tr_AccessToken r) x (tr_Error r) (tr_TokenType r));
  field "error" dec_string tr_Error (λ x r, mkTokenReply (tr_AccessToken r) (tr_IDToken r) x (tr_TokenType r));
  field "token_type" dec_string tr_TokenType (λ x r, mkTokenReply (tr_AccessToken r) (tr_IDToken r) (tr_Error r) x)].
Record google_claims := mkGoogleClaims {
  gc_Email : string;
  gc_Verified : bool;
  gc_AuthorizedParty : string;
}.
Definition dec_google_claims : decoder google_claims := dec_struct [
  field "email" dec_string gc_Email (λ x c, mkGoogleClaims x (gc_Verified c) (gc_AuthorizedParty c));
  field "email_verified" dec_bool gc_Verified (λ x c, mkGoogleClaims (gc_Email c) x (gc_AuthorizedParty c));
  field "azp" dec_string gc_AuthorizedParty (λ x c, mkGoogleClaims (gc_Email c) (gc_Verified c) x)].
Record github_email := mkGithubEmail {
  ge_Email : string;
  ge_Primary : bool;
  ge_Verified : bool;
}.
Definition dec_github_email : decoder github_email := dec_struct [
  field "email" dec_string ge_Email (λ x e, mkGithubEmail x (ge_Primary e) (ge_Verified e));
  field "primary" dec_bool ge_Primary (λ x e, mkGithubEmail (ge_Email e) x (ge_Verified e));
  field "verified" dec_bool ge_Verified (λ x e, mkGithubEmail (ge_Email e) (ge_Primary e) x)].

(** *** The service *)

Section Service.
Context `{UC : Unicode} `{ML : MailAddress} `{SQ : SQLText} `{J : JWT} `{P : Primitives} `{R : Remote} `{E : Elsewhere} `{OI : OIDC}
  (s : SocialAuthService).

Definition provider_config (name : string) : result SocialProvider :=
  let p := if bool_decide (name = "github") then Some (GitHub (so_config s))
           else if bool_decide (name = "google") then Some (Google (so_config s)) else None in
  match p with
  | None => Err ErrSocialUnavailable
  | Some p =>
      if bool_decide (ClientID p = "") || bool_decide (ClientSecret p = "") || bool_decide (Origin (so_config s) = "")
      then Err ErrSocialUnavailable else Ok p
  end.
Definition Providers : list (string * bool) :=
  map (λ name, (name, match provider_config name with Ok _ => true | Err _ => false end)) ["github"; "google"].
Definition socialHash (value : string) : string := hex_EncodeToString (sha256 value).
Definition callback (provider : string) : string := Origin (so_config s) +:+ "/auth/callback/" +:+ provider.
Definition auditEvent (user : option uuid) (action provider ip : string) : Tx unit :=
  match so_audit s with
  | None => fail (Errorf "social auth audit unavailable")
  | Some r => AuditLog.Create r user None action "" (mk_obj [("provider", JStr provider)]) ip
  end.
(** Linking takes a recent session of the user. *)
Definition link_session_recent (linkUser linkSession : option uuid) : Tx unit :=
  match linkUser, so_sessions s with
  | Some user, Some sessions =>
      match linkSession with
      | None => fail ErrRecentAuthentication
      | Some session => RequireRecent sessions user session
      end
  | _, _ => mret ()
  end.

Definition authorization_url (provider challenge state : string) (p : SocialProvider) : string :=
  let values := [("client_id", ClientID p); ("redirect_uri", callback provider); ("state", state); ("code_challenge", challenge);
                 ("code_challenge_method", "S256"); ("response_type", "code")] in
  if bool_decide (provider = "google") then
    "https://accounts.google.com/o/oauth2/v2/auth?"
    +:+ values_Encode (values ++ [("scope", "openid email"); ("nonce", state); ("prompt", "select_account")])
  else "https://github.com/login/oauth/authorize?" +:+ values_Encode (values ++ [("scope", "read:user user:email")]).
Definition StartWithSession (provider challenge ip : string) (linkUser linkSession : option uuid) : Tx SocialStart :=
  p ← lift (provider_config provider);
  if negb (pkceChallengePattern challenge) then fail ErrSocialFlow else
  _ ← link_session_recent linkUser linkSession;
  bytes ← rand_bytes 32;
  let state := hex_EncodeToString bytes in
  _ ← auditEvent linkUser "auth.social_started" provider ip;
  _ ← CreateFlowForSession (socialHash state) provider challenge linkUser linkSession;
  mret (mkSocialStart (authorization_url provider challenge state p) state).
Definition Start (provider challenge ip : string) (linkUser : option uuid) : Tx SocialStart :=
  StartWithSession provider challenge ip linkUser None.

(** A call that ends with the deadline of the context or the client's timeout of
    ten seconds; the rest of the server goes on meanwhile. *)
Definition bounded {A} (deadline : time) (call : N → N * option A) : Tx (option A) := λ w,
  let '(elapsed, answer) := call (w_rng w) in
  let limit := Z.max 0 (Z.min (10 * Second) (deadline - w_now w)) in
  if (limit <? Z.of_N elapsed)%Z then (Ok None, wait limit w) else (Ok answer, wait (Z.of_N elapsed) w).
Definition or_identity {A} (o : option A) : Tx A := match o with Some a => mret a | None => fail ErrSocialIdentity end.
Definition providerJSON {S} (deadline : time) (d : decoder S) (zero : S) (method endpoint token : string)
    (form : option (list (string * string))) : Tx S :=
  answer ← bounded deadline (λ n, http_Do n (mkHTTPRequest method endpoint token (values_Encode <$> form)));
  r ← or_identity answer;
  if negb (ha_Status r =? 200)%Z then fail ErrSocialIdentity else
  b ← or_identity (ha_Read r (2 ^ 20 + 1));
  if (2 ^ 20 <? N.of_nat (String.length b))%N then fail ErrSocialIdentity else
  or_identity (read_json d zero b).

Definition google_identity (deadline : time) (p : SocialProvider) (state : string) (tokens : token_reply) : Tx SocialIdentity :=
  if bool_decide (tr_IDToken tokens = "") then fail ErrSocialIdentity else
  verified ← bounded deadline (λ n, oidc_Verify n (ClientID p) (tr_IDToken tokens));
  v ← or_identity verified;
  if negb (bool_decide (it_Nonce v = state)) then fail ErrSocialIdentity else
  c ← or_identity (decode dec_google_claims (mkGoogleClaims "" false "") (it_Claims v));
  if negb (gc_Verified c)
     || (negb (bool_decide (gc_AuthorizedParty c = "")) && negb (bool_decide (gc_AuthorizedParty c = ClientID p)))
     || ((1 <? length (it_Audience v)) && negb (bool_decide (gc_AuthorizedParty c = ClientID p)))
  then fail ErrSocialIdentity
  else mret (mkSocialIdentity (it_Subject v) (gc_Email c)).
Definition dec_user_id : decoder Z := dec_struct [field "id" dec_int (λ x, x) (λ x _, x)].
Definition github_identity (deadline : time) (tokens : token_reply) : Tx SocialIdentity :=
  if bool_decide (tr_AccessToken tokens = "") || negb (bool_decide (fold_name (tr_TokenType tokens) = fold_name "bearer"))
  then fail ErrSocialIdentity else
  user ← providerJSON deadline dec_user_id 0%Z "GET" "https://api.github.com/user" (tr_AccessToken tokens) None;
  if (user <=? 0)%Z then fail ErrSocialIdentity else
  emails ← providerJSON deadline (dec_slice (mkGithubEmail "" false false) dec_github_email) None "GET"
             "https://api.github.com/user/emails" (tr_AccessToken tokens) None;
  mret (mkSocialIdentity (pretty user)
    (match list_find (λ e, ge_Primary e && ge_Verified e = true) (default [] emails) with Some (_, e) => ge_Email e | None => "" end)).
(** The checks on what either provider said. *)
Definition identity_ok (i : SocialIdentity) : bool :=
  match mail_ParseAddress (id_Email i) with Some a => bool_decide (a = id_Email i) | None => false end
  && (N.of_nat (String.length (id_Email i)) <=? 255)%N && negb (bool_decide (id_Subject i = ""))
  && (N.of_nat (String.length (id_Subject i)) <=? 255)%N.
Definition exchange (deadline : time) (provider : string) (p : SocialProvider) (code state verifier : string) : Tx SocialIdentity :=
  tokens ← providerJSON deadline dec_token_reply (mkTokenReply "" "" "" "") "POST"
    (if bool_decide (provider = "google") then "https://oauth2.googleapis.com/token" else "https://github.com/login/oauth/access_token")
    "" (Some [("client_id", ClientID p); ("client_secret", ClientSecret p); ("code", code); ("redirect_uri", callback provider);
              ("code_verifier", verifier); ("grant_type", "authorization_code")]);
  if negb (bool_decide (tr_Error tokens = "")) then fail ErrSocialIdentity else
  i ← (if bool_decide (provider = "google") then google_identity deadline p state tokens else github_identity deadline tokens);
  if identity_ok i then mret i else fail ErrSocialIdentity.

Definition challenge_of (verifier : string) : string := b64_Encode (sha256 verifier).
(** The transaction once the provider vouched for the identity. *)
Definition admit_identity (provider ip ua : string) (i : SocialIdentity) (linkUser linkSession : option uuid) : Tx AuthResponse :=
  with_tx (
    bound ← query (bound_user provider (id_Subject i));
    known ← match linkUser with
            | Some u =>
                _ ← check (match bound with Some k => bool_decide (k = uuid_Nil) || bool_decide (k = u) | None => true end) ErrSocialConflict;
                mret u
            | None => mret (default uuid_Nil bound)
            end;
    _ ← (if bool_decide (known = uuid_Nil) then mret () else Authority.LockSubjects (so_Dialect s) [known]);
    _ ← match linkUser, so_sessions s, linkSession with
        | Some u, Some sessions, Some k => RequireRecentTx sessions u k
        | Some _, Some _, None => fail (Errorf "runtime error: nil pointer dereference")
        | _, _, _ => mret ()
        end;
    user ← ResolveTx provider (id_Subject i) (id_Email i) linkUser;
    token ← match linkUser with
            | Some _ => mret ""
            | None => issue_token (so_sessions s) (so_jwt s) user provider ip ua
            end;
    let action := if bool_decide (linkUser = None) then "auth.login" else "auth.social_linked" in
    _ ← match so_audit s with
        | Some r => AuditLog.CreateTx r (Some (us_ID user)) None action "" (mk_obj [("provider", JStr provider)]) ip
        | None => fail (Errorf "runtime error: nil pointer dereference")
        end;
    _ ← identityEventTx (so_Dialect s) (us_ID user) action [("provider", provider)];
    mret (mkAuthResponse user token)).
Definition CompleteWithSession (provider code state verifier ip : string) (linkUser linkSession : option uuid) (ua : string)
    : Tx AuthResponse :=
  p ← lift (provider_config provider);
  if bool_decide (code = "") || (4096 <? N.of_nat (String.length code))%N || negb (socialStatePattern state)
     || negb (pkceVerifierPattern verifier)
  then fail ErrSocialFlow else
  _ ← link_session_recent linkUser linkSession;
  _ ← ConsumeFlowForSession (socialHash state) provider (challenge_of verifier) linkUser linkSession;
  t ← now;
  found ← attempt (exchange (t + 15 * Second)%Z provider p code state verifier);
  match found with
  | Err _ =>
      _ ← auditEvent linkUser "auth.login_failed" provider ip;
      fail ErrSocialIdentity
  | Ok i =>
      _ ← auditEvent linkUser "auth.social_verified" provider ip;
      admit_identity provider ip ua i linkUser linkSession
  end.
Definition Complete (provider code state verifier ip : string) (linkUser : option uuid) : Tx AuthResponse :=
  CompleteWithSession provider code state verifier ip linkUser None "".
End Service.
