(* ===== verification/SignInTheorems.v ===== *)
(** * What signing in guarantees *)
From S2P Require Import Prelude GoStrings GoEncoding GoNet GoStruct GoStrconv GoUnicode Policy Schema Database Crypto Jobs Authority AuditLog VaultStore Vault ApiKeys Grants Runner Broker PromotionService Passwords Identity Sessions IdentitySpec IdentityTheorems SessionTheorems SignIn SocialAuth.

(** ** Lemmas *)

(** *** Transactions and the trail *)

Section Trail.
Context `{P : Primitives}.

Lemma Create_logs r u pr a e d ip : keeps logged (AuditLog.Create r u pr a e d ip) ∧ forward (AuditLog.Create r u pr a e d ip).
Proof.
  split; [apply keeps_with_tx; [apply _|apply CreateTx_logs]|apply forward_with_tx, forward_CreateTx].
Qed.
Lemma emitAudit_logs repo u pr a e d ip w r w' : emitAudit repo u pr a e d ip w = (r, w') → logs w w'.
Proof.
  unfold emitAudit. destruct repo as [rp|]; [|by intros [= _ <-]]. intros H. destruct (Create_logs rp u pr a e d ip) as [Hk Hf].
  eapply logs_of; [..|exact H].
  - apply keeps_bind; [apply _|by apply keeps_attempt|intros; apply keeps_ret, _].
  - apply forward_bind; [by apply forward_attempt|intros; apply forward_ret].
Qed.
End Trail.

Lemma tick_Err e w w' : tick w = (Err e, w') → e = driver_error.
Proof. unfold tick. by destruct (head (w_faults w)) as [[]|]; intros [= <- _]. Qed.
Lemma identity_tx_Ok {A} (body : Tx A) w a w' :
  identity_tx body w = (Ok a, w') → ∃ w0 w1, at_same w w0 ∧ body w0 = (Ok a, w1) ∧ w_db w' = w_db w1.
Proof.
  unfold identity_tx. destruct (with_tx_or _ _ w) as [[b|e] w1] eqn:H; [|done]. intros [= -> ->].
  apply with_tx_or_cases in H as [(e & [=] & _)|(w0 & b & c & w1 & S & H & [= <-] & ->)].
  apply bind_Ok in H as (b & w2 & H & [[= -> <-] <-]%ret_Ok). by exists w0, w2.
Qed.
(** It fails on its own account, or as its body does. *)
Lemma identity_tx_Err {A} (body : Tx A) w e w' :
  identity_tx body w = (Err e, w') →
  w_db w' = w_db w ∧ ((∃ msg, e = unavailable msg) ∨ ∃ w0 w1, at_same w w0 ∧ body w0 = (Err e, w1)).
Proof.
  unfold identity_tx. destruct (with_tx_or _ _ w) as [[b|e0] w1] eqn:H; [done|]. intros [= He ->].
  split; [by eapply with_tx_or_Err|]. destruct (errors_Is e0 _) eqn:D; [left; by eexists|]. subst e0.
  apply with_tx_or_run in H as [[[= ->] _]|H]; [left; by eexists|]. unfold with_tx_opt in H.
  destruct (tick w) as [[u|e1] w2] eqn:E1; [|apply tick_Err in E1 as ->; by injection H as <- _].
  apply tick_Ok in E1 as ->. destruct ((a ← body; mret (a, true)) _) as [[[a []]|e2] w3] eqn:E2.
  - destruct (tick w3) as [[u3|e3] w4] eqn:E3; [done|]. apply tick_Err in E3 as ->. by injection H as <- _.
  - done.
  - injection H as -> _. right. apply bind_Err in E2 as [E2|(a & w4 & _ & E2)]; [|done].
    eexists _, _. split; [|exact E2]. by split_and!.
Qed.

(** *** Accounts and failures *)

Section Accounts.
Context `{UC : Unicode} `{SQ : SQLText}.

Lemma user_row_Some id db u :
  user_row id db = Some u ↔ us_ID u = id ∧ id ∈ users db ∧ us_Email u = default "" (user_emails db !! id) ∧ user_password id db = Some (us_PasswordHash u).
Proof.
  unfold user_row, user_password. destruct (decide (id ∈ users db)); cbn; [|by split; [|intros (_ & ? & _)]].
  split; [by intros [= <-]|]. destruct u. cbn. by intros (-> & _ & -> & [= ->]).
Qed.
Lemma elem_of_users_by_email key id db :
  id ∈ users_by_email key db ↔ id ∈ users db ∧ email_key (default "" (user_emails db !! id)) = key.
Proof.
  unfold users_by_email. rewrite (merge_sort_Permutation N.le), list_elem_of_filter, elem_of_elements. naive_solver.
Qed.
Lemma GetByEmail_Ok email w u w' :
  GetByEmail email w = (Ok u, w') →
  user_row (us_ID u) (w_db w) = Some u ∧ email_key (us_Email u) = CanonicalEmail email ∧ w' = ticked w.
Proof.
  unfold GetByEmail. intros [H ->]%wrap_err_Ok%query_row_Ok. destruct (head _) as [id|] eqn:Hh; [|done]. cbn in H.
  pose proof H as (E & _ & Em & _)%user_row_Some. rewrite E. split_and!; [done| |done]. rewrite Em.
  eapply elem_of_users_by_email. by apply head_Some_elem_of.
Qed.
End Accounts.

Lemma query_row_none {A} (f : DB → option A) w :
  w_faults w = [] → f (w_db w) = None → query_row f w = (Err (Sentinel ErrNoRows), ticked w).
Proof. intros Hw Hf. unfold query_row, query, tick, mbind, M_bind, get. rewrite Hw. cbn. by rewrite Hf. Qed.

(** The counter of an email, which may have no row. *)
Definition failures (email : string) (db : DB) : login_row := default (mkLoginRow 0 None None) (login_attempts db !! email).
Lemma Get_run email w : w_faults w = [] → Get email w = (Ok (failures email (w_db w)), ticked w).
Proof.
  intros Hw. unfold Get, attempt, failures. unfold mbind, M_bind. destruct (login_attempts (w_db w) !! email) as [la|] eqn:E.
  - by rewrite (query_row_run _ la).
  - by rewrite query_row_none.
Qed.
Lemma ticked_faults w : w_faults w = [] → w_faults (ticked w) = [].
Proof. intros H. unfold ticked, upd_w_faults. cbn. by rewrite H. Qed.

(** Without driver failures a failure counts. *)
Lemma RegisterFailure_run email threshold lockFor w :
  w_faults w = [] → (la_failed_count (failures email (w_db w)) + 1 < 2 ^ 31)%Z →
  ∃ w', RegisterFailure email threshold lockFor w = (Ok (), w') ∧ w_faults w' = [] ∧ w_now w' = w_now w ∧
    login_attempts (w_db w') = <[email := failed_again threshold lockFor (w_now w) (failures email (w_db w))]> (login_attempts (w_db w)).
Proof.
  intros Hw Hc. unfold RegisterFailure. rewrite (bind_then _ _ w (w_now w) w) by done. rewrite (bind_then _ _ _ _ _ (Get_run email w Hw)).
  set (row := failed_again _ _ _ _). pose proof (ticked_faults _ Hw) as Hw1.
  set (w0 := upd_w_locks (const []) (ticked (ticked w))). assert (w_faults w0 = []) as H0 by (cbn; by rewrite Hw).
  set (w1 := upd_w_db (const (delete_attempt email (w_db w0))) (ticked w0)). assert (w_faults w1 = []) as H1 by (cbn; by rewrite Hw).
  assert (insert_attempt email row (w_db w1) = Some (on_accounts (upd_t_auth_login_attempts <[email := row]>) (w_db w1))) as Hi.
  { unfold insert_attempt, w1, login_attempts. cbn. rewrite lookup_delete_eq, bool_decide_false by (by intros [? [=]]). cbn.
    by rewrite (proj2 (Z.leb_gt _ _)). }
  unfold upsert, with_tx_or. unfold tick at 1. rewrite Hw1. cbn [head]. unfold with_tx_opt, tick at 1. rewrite Hw1. cbn [head]. fold w0.
  rewrite (bind_then _ _ w0 () w1) by (apply wrap_err_Ok; by rewrite exec__run).
  rewrite (bind_then _ _ w1 () _ (proj2 (wrap_err_Ok _ _ _ _ _) (exec_run _ _ _ H1 Hi))). cbn [mret M_ret].
  unfold tick. cbn [w_faults upd_w_db ticked upd_w_faults upd_w_locks w1 w0]. rewrite Hw. cbn [head tail].
  eexists. split; [reflexivity|]. cbn. rewrite Hw. split_and!; [done..|]. unfold login_attempts. cbn. by rewrite insert_delete_eq.
Qed.

(** *** The transaction of a sign-in *)

Section SignIn.
Context `{UC : Unicode} `{SQ : SQLText} `{J : JWT} `{P : Primitives} `{BC : Bcrypt} (s : AuthService).

Lemma record_sign_in_logs user action details ip w u w' : record_sign_in s user action details ip w = (Ok u, w') → logs w w'.
Proof.
  unfold record_sign_in. destruct (as_auditRepo s) as [r|]; [|done]. intros (u1 & w1 & H1%on_err_Ok & H2%on_err_Ok)%bind_Ok.
  etrans; [eapply logs_of; [apply CreateTx_logs|apply forward_CreateTx|exact H1]|by eapply identityEventTx_logs].
Qed.
(** The session a sign-in adds. *)
Definition new_session (user id : uuid) (d : session_detail_row) (t : time) : DB → DB :=
  on_accounts (upd_t_session_details <[id := d]>) ∘ on_sessions <[id := mkSession user false t (session_expiry t)]>.
Lemma sign_in_Ok ss user ip ua w r w' :
  as_sessions s = Some ss → sign_in s user ip ua w = (Ok r, w') →
  user_password (us_ID user) (w_db w) = Some (us_PasswordHash user) ∧ ar_User r = user ∧
  ∃ id d, sessions (w_db w) !! id = None ∧ sd_token_hash d = HashAPIKey (ar_Token r) ∧
    signClaims (ss_jwt ss) (session_claims (us_ID user) (us_Email user) id (w_now w)) = Ok (ar_Token r) ∧
    logged (new_session (us_ID user) id d (w_now w) (w_db w)) (w_db w').
Proof.
  intros Hs H. unfold sign_in in H. apply identity_tx_Ok in H as (w0 & w9 & (E0 & T0 & _) & H & ->). rewrite Hs, bool_decide_false in H by done.
  apply bind_Ok in H as (u1 & w1 & H1 & H). apply bind_Ok in H1 as (u2 & w2 & [_ (E2 & T2 & _)]%on_err_Ok%LockSubjects_Ok & H1).
  apply bind_Ok in H1 as (h & w3 & [Hh ->]%on_err_Ok%query_row_Ok & [Hc <-]%check_Ok). b2p. subst h.
  apply bind_Ok in H as (token & w4 & H4%on_err_Ok & H). apply bind_Ok in H as (u5 & w5 & [L _]%record_sign_in_logs & [<- <-]%ret_Ok).
  apply IssueTx_Ok in H4 as (id & d & _ & _ & _ & Hsig & Hn & Hd & L4). cbn in Hsig, Hn, L4.
  rewrite E2, E0 in Hh, Hn, L4. rewrite T2, T0 in Hsig, L4. split_and!; [done..|]. exists id, d. split_and!; [done..|]. by etrans.
Qed.
(** A sign-in that fails leaves nothing behind, and is not the password's fault
    while the password stands. *)
Lemma sign_in_Err user ip ua w e w' :
  user_password (us_ID user) (w_db w) = Some (us_PasswordHash user) → sign_in s user ip ua w = (Err e, w') →
  w_db w' = w_db w ∧ e ≠ invalid_credentials.
Proof.
  intros Hp [E H]%identity_tx_Err. split; [done|]. destruct H as [[msg ->]|(w0 & w9 & (E0 & _) & H)]; [done|].
  apply bind_Err in H as [H|(u1 & w1 & _ & H)].
  - destruct (bool_decide _) in H; [done|]. apply bind_Err in H as [[-> _]%on_err_Err|(u2 & w2 & [_ (E2 & _)]%on_err_Ok%LockSubjects_Ok & H)]; [done|].
    apply bind_Err in H as [[-> _]%on_err_Err|(h & w3 & [Hh ->]%on_err_Ok%query_row_Ok & H)]; [done|].
    rewrite E2, E0, Hp in Hh. injection Hh as <-. by rewrite bool_decide_true in H.
  - apply bind_Err in H as [[-> _]%on_err_Err|(token & w4 & _ & H)]; [done|]. apply bind_Err in H as [H|(u5 & w5 & _ & H)]; [|done].
    unfold record_sign_in in H. destruct (as_auditRepo s) as [r|]; [|by injection H as <- _].
    by apply bind_Err in H as [[-> _]%on_err_Err|(u6 & w6 & _ & [-> _]%on_err_Err)].
Qed.

(** *** Sign-in *)

Lemma account_locked_Ok key w b w' :
  account_locked s key w = (Ok b, w') → at_same w w' ∧ (as_attemptsRepo s = true → b = is_locked (w_now w) (failures key (w_db w))).
Proof.
  unfold account_locked. destruct (as_attemptsRepo s); [|by intros [<- <-]%ret_Ok].
  intros (la & w1 & H1%on_err_Ok & H)%bind_Ok. apply bind_Ok in H as (t & w2 & [-> ->]%now_Ok & [<- <-]%ret_Ok).
  unfold Get in H1. apply bind_attempt in H1 as (r & w2 & H2 & H1).
  assert (at_same w w2) as S by (eapply reads_run, H2; apply reads_query_row).
  destruct r as [x|e].
  - apply query_row_Ok in H2 as [H2 _]. apply ret_Ok in H1 as [<- <-]. split; [done|]. intros _. destruct S as (_ & -> & _). unfold failures. by rewrite H2.
  - destruct (errors_Is e ErrNoRows) eqn:D; [|done]. apply ret_Ok in H1 as [<- <-]. split; [done|]. intros _. destruct S as (_ & -> & _).
    unfold failures. destruct (login_attempts (w_db w) !! key) as [x|] eqn:E; [|done]. exfalso.
    unfold query_row in H2. apply bind_Err in H2 as [H2|(o & w3 & [-> _]%query_Ok & H2)]; [|by rewrite E in H2].
    unfold query in H2. apply bind_Err in H2 as [->%tick_Err|(u & w3 & _ & H2)]; [done|]. by unfold get in H2.
Qed.
Lemma verify_password_Ok key pw ip w u w' :
  verify_password s key pw ip w = (Ok u, w') →
  user_row (us_ID u) (w_db w) = Some u ∧ email_key (us_Email u) = CanonicalEmail key ∧ CheckPassword pw (us_PasswordHash u) = true ∧ w' = ticked w.
Proof.
  unfold verify_password. intros (r & w1 & H1 & H)%bind_attempt. destruct r as [x|e].
  - apply GetByEmail_Ok in H1 as (Hx & Hk & ->). destruct (CheckPassword _ _) eqn:C; [|by apply bind_Ok in H as (? & ? & _ & [=])].
    by apply ret_Ok in H as [<- <-].
  - destruct (errors_Is _ _) in H; [|done]. by apply bind_Ok in H as (? & ? & _ & [=]).
Qed.
Lemma account_locked_run key w :
  as_attemptsRepo s = true → w_faults w = [] → account_locked s key w = (Ok (is_locked (w_now w) (failures key (w_db w))), ticked w).
Proof.
  intros Ha Hw. unfold account_locked. rewrite Ha. by rewrite (bind_then _ _ _ _ _ (proj2 (on_err_Ok _ _ _ _ _) (Get_run key w Hw))).
Qed.
Lemma recordFailure_run key ip w r w' :
  as_attemptsRepo s = true → w_faults w = [] → (la_failed_count (failures key (w_db w)) + 1 < 2 ^ 31)%Z → recordFailure s key ip w = (r, w') →
  r = Ok () ∧ login_attempts (w_db w') =
    <[key := failed_again lockoutThreshold lockoutWindow (w_now w) (failures key (w_db w))]> (login_attempts (w_db w)).
Proof.
  intros Ha Hw Hc H. unfold recordFailure in H. rewrite Ha in H.
  destruct (RegisterFailure_run key lockoutThreshold lockoutWindow w Hw Hc) as (w1 & H1 & _ & _ & E1).
  rewrite (bind_then _ _ w () w1) in H by (unfold attempt, mbind, M_bind; by rewrite H1).
  destruct (emitAudit_total (as_auditRepo s) None None "auth.login_failed" "" (mk_obj [("email_attempted", JStr key)]) ip w1) as [w2 H2].
  rewrite H2 in H. injection H as <- <-. split; [done|]. apply emitAudit_logs in H2 as [L _].
  unfold login_attempts in *. by rewrite (logged_accounts _ _ L).
Qed.
(** Without driver failures the password is found right, or the failure counts. *)
Lemma verify_password_run key pw ip w r w' :
  as_attemptsRepo s = true → w_faults w = [] → (la_failed_count (failures key (w_db w)) + 1 < 2 ^ 31)%Z → verify_password s key pw ip w = (r, w') →
  (∃ u, r = Ok u) ∨ r = Err invalid_credentials ∧ login_attempts (w_db w') =
    <[key := failed_again lockoutThreshold lockoutWindow (w_now w) (failures key (w_db w))]> (login_attempts (w_db w)).
Proof.
  intros Ha Hw Hc H. unfold verify_password in H. apply bind_attempt in H as (x & w1 & H1 & H).
  assert (w1 = ticked w ∧ (∃ u, x = Ok u) ∨ w1 = ticked w ∧ ∃ e, x = Err e ∧ errors_Is e ErrNoRows = true) as Hx.
  { unfold GetByEmail, wrap_err in H1. match type of H1 with context [query_row ?f w] => destruct (f (w_db w)) as [u|] eqn:E end.
    - rewrite (query_row_run _ u) in H1 by done. injection H1 as <- <-. left. by split; [|exists u].
    - rewrite query_row_none in H1 by done. injection H1 as <- <-. right. split; [done|]. by eexists. }
  pose proof (ticked_faults _ Hw) as Hw1.
  assert (∀ r w', (_ ← recordFailure s key ip; fail invalid_credentials) w1 = (r, w') → w1 = ticked w →
    r = (Err invalid_credentials : result User) ∧ login_attempts (w_db w') =
    <[key := failed_again lockoutThreshold lockoutWindow (w_now w) (failures key (w_db w))]> (login_attempts (w_db w))) as Hf.
  { intros r' v Hv ->. destruct (recordFailure s key ip (ticked w)) as [y v1] eqn:E. apply recordFailure_run in E as [-> E]; [|done..].
    unfold mbind, M_bind in Hv. destruct (recordFailure s key ip (ticked w)) as [y' v2] eqn:E'. pose proof E' as E2.
    apply recordFailure_run in E2 as [-> E2]; [|done..]. injection Hv as <- <-. by split. }
  destruct Hx as [(-> & u & ->)|(-> & e & -> & De)].
  - destruct (CheckPassword _ _) in H; cbn [negb] in H; [injection H as <- <-; left; by eexists|]. right. by apply Hf in H.
  - rewrite De in H. right. by apply Hf in H.
Qed.
Lemma LoginContext_locked email pw ip ua w r w' :
  let key := CanonicalEmail email in
  as_attemptsRepo s = true → w_faults w = [] → is_locked (w_now w) (failures key (w_db w)) = true → LoginContext s email pw ip ua w = (r, w') →
  r = Err ErrAccountLocked ∧ login_attempts (w_db w') = login_attempts (w_db w).
Proof.
  intros key Ha Hw Hl H. unfold LoginContext in H. fold key in H. rewrite (bind_then _ _ _ _ _ (account_locked_run key w Ha Hw)), Hl in H.
  apply bind_run in H as [(u & w1 & H1%emitAudit_logs & [= <- <-])|(e & H1 & _)].
  - split; [done|]. unfold login_attempts. by rewrite (logged_accounts _ _ (proj1 H1)).
  - destruct (emitAudit_total (as_auditRepo s) None None "auth.login_failed" "" (mk_obj [("email_attempted", JStr key); ("reason", JStr "locked")]) ip (ticked w)) as [v E].
    congruence.
Qed.
Lemma LoginContext_open email pw ip ua w r w' :
  let key := CanonicalEmail email in let la := failures key (w_db w) in
  as_attemptsRepo s = true → w_faults w = [] → is_locked (w_now w) la = false → (la_failed_count la + 1 < 2 ^ 31)%Z →
  LoginContext s email pw ip ua w = (r, w') →
  (∃ x, r = Ok x)
  ∨ (∃ e, r = Err e ∧ e ≠ invalid_credentials) ∧ login_attempts (w_db w') = login_attempts (w_db w)
  ∨ r = Err invalid_credentials ∧ login_attempts (w_db w') = <[key := failed_again lockoutThreshold lockoutWindow (w_now w) la]> (login_attempts (w_db w)).
Proof.
  intros key la Ha Hw Hl Hc H. unfold LoginContext in H. fold key in H. rewrite (bind_then _ _ _ _ _ (account_locked_run key w Ha Hw)) in H. fold la in H.
  rewrite Hl in H. apply bind_run in H as [(u & w1 & H1 & H)|(e & H1 & ->)].
  - apply verify_password_Ok in H1 as (Hu & _ & _ & ->). apply bind_run in H as [(x & w2 & _ & H)|(e & H2 & ->)].
    + left. exists x. apply bind_run in H as [(u2 & w3 & _ & [= <- _])|(e & H & _)]; [done|]. rewrite Ha in H. by apply bind_attempt in H as (? & ? & _ & [=]).
    + right. left. apply user_row_Some in Hu as (_ & _ & _ & Hp). apply sign_in_Err in H2 as [E Hn]; [|done]. split; [by eexists|]. by rewrite E.
  - right. right. apply (verify_password_run key) in H1 as [[u [=]]|[[= ->] E]]; [by split|done|by apply ticked_faults|done].
Qed.
(** The clock does not move during a sign-in. *)
Lemma forward_identity_tx {A} (body : Tx A) : forward body → forward (identity_tx body).
Proof.
  intros Hb w r w' H. unfold identity_tx in H. destruct (with_tx_or _ _ w) as [x w1] eqn:E.
  assert (w' = w1) as -> by (destruct x; by injection H as _ <-). revert E. apply forward_with_tx_or.
  apply forward_bind; [done|intros; apply forward_ret].
Qed.
Lemma forward_exec_unique c e f : forward (exec_unique c e f).
Proof.
  intros w r w' H. unfold exec_unique in H. destruct (exec f w) as [x w1] eqn:E.
  assert (w' = w1) as -> by (destruct x; by injection H as _ <-). by apply forward_exec in E.
Qed.
Lemma forward_Get key : forward (Get key).
Proof. unfold Get. forward_tac. Qed.
Lemma forward_upsert key row : forward (upsert key row).
Proof. apply forward_with_tx_or. forward_tac. Qed.
Lemma forward_emitAudit repo u pr a e d ip : forward (emitAudit repo u pr a e d ip).
Proof. unfold emitAudit. destruct repo; [|apply forward_ret]. apply forward_bind; [apply forward_attempt, Create_logs|intros; apply forward_ret]. Qed.
Lemma forward_issue_token sessions jwt user m ip ua : forward (issue_token sessions jwt user m ip ua).
Proof.
  unfold issue_token, IssueTx, GenerateToken, GenerateSessionToken, Sessions.CreateTx, audit_session.
  pose proof (λ r u pr a e d i, forward_CreateTx r u pr a e d i). forward_tac.
Qed.
Lemma forward_record_sign_in user a d ip : forward (record_sign_in s user a d ip).
Proof. unfold record_sign_in, identityEventTx. pose proof (λ r u pr a e d i, forward_CreateTx r u pr a e d i). forward_tac. Qed.
Lemma forward_LoginContext email pw ip ua : forward (LoginContext s email pw ip ua).
Proof.
  pose proof forward_Get. pose proof forward_upsert. pose proof forward_emitAudit. pose proof forward_issue_token. pose proof forward_record_sign_in.
  assert (∀ key ip, forward (recordFailure s key ip)) by (intros; unfold recordFailure, RegisterFailure; forward_tac).
  unfold LoginContext, account_locked, verify_password, GetByEmail, sign_in, Reset. forward_tac; apply forward_identity_tx; forward_tac.
Qed.
End SignIn.

(** *** Guessing at an account *)

Section Guessing.
Context `{UC : Unicode} `{SQ : SQLText} `{J : JWT} `{P : Primitives} `{BC : Bcrypt}.

(** Attempts to sign in under one canonical email, with what they answer; between
    them time passes and anything may happen that leaves the email's counter
    alone. *)
Inductive login_run (s : AuthService) (key : string) : World → list (result AuthResponse) → World → Prop :=
  | run_end w : login_run s key w [] w
  | run_quiet w w1 rs w2 :
      login_attempts (w_db w1) !! key = login_attempts (w_db w) !! key → (w_now w <= w_now w1)%Z →
      login_run s key w1 rs w2 → login_run s key w rs w2
  | run_try email pw ip ua w r w1 rs w2 :
      CanonicalEmail email = key → w_faults w = [] → LoginContext s email pw ip ua w = (r, w1) →
      login_run s key w1 rs w2 → login_run s key w (r :: rs) w2.

Definition is_guess (r : result AuthResponse) : bool :=
  match r with Err (Errorf msg) => bool_decide (msg = "invalid credentials") | _ => false end.
Definition guesses (rs : list (result AuthResponse)) : nat := length (filter (λ r, is_guess r = true) rs).
Definition no_success (rs : list (result AuthResponse)) : Prop := ∀ r, r ∈ rs → ∃ e, r = Err e.

Lemma not_guess e : e ≠ invalid_credentials → is_guess (Err e) = false.
Proof. intros H. destruct e as [|m|]; [done| |done]. cbn. case_bool_decide as E; [|done]. by subst. Qed.
Lemma guesses_cons r rs : guesses (r :: rs) = (if is_guess r then 1 else 0) + guesses rs.
Proof. unfold guesses. rewrite filter_cons. case_decide as H; [by rewrite H|]. by destruct (is_guess r). Qed.
Lemma login_run_time s key w rs w' : login_run s key w rs w' → (w_now w <= w_now w')%Z.
Proof.
  induction 1 as [|w w1 rs w2 _ Ht _ IH|email pw ip ua w r w1 rs w2 _ _ H _ IH]; [lia..|].
  apply forward_LoginContext in H as [_ T]. lia.
Qed.
Lemma failures_congr key db db' : login_attempts db' !! key = login_attempts db !! key → failures key db' = failures key db.
Proof. unfold failures. by intros ->. Qed.

(** What is left to guess until an end, from a counter at a time: a lock of a
    counter that has reached the threshold has to pass first, and every guess from
    then on locks for a window. *)
Definition guess_bound (la : login_row) (t t_end : Z) : Z :=
  if (lockoutThreshold <=? la_failed_count la)%Z then
    let first := Z.max t (default t (la_locked_until la)) in
    if (t_end <? first)%Z then 0 else (1 + (t_end - first) / lockoutWindow)
  else (lockoutThreshold - la_failed_count la + (t_end - t) / lockoutWindow).
Lemma window_value : lockoutWindow = 900000000000%Z.
Proof. reflexivity. Qed.
Ltac bound_lia := unfold guess_bound, lockoutThreshold in *; rewrite ?window_value in *;
  cbn [la_failed_count la_locked_until from_option id failed_again] in *; repeat case_match; b2p; cbn [from_option id] in *; Z.to_euclidean_division_equations; lia.
Lemma guess_bound_later la t t1 t_end : (t <= t1)%Z → (t1 <= t_end)%Z → (guess_bound la t1 t_end <= guess_bound la t t_end)%Z.
Proof. intros. unfold guess_bound. destruct (la_locked_until la); bound_lia. Qed.
Lemma guess_bound_open la t t_end :
  is_locked t la = false → (t <= t_end)%Z → (1 + guess_bound (failed_again lockoutThreshold lockoutWindow t la) t t_end <= guess_bound la t t_end)%Z.
Proof. intros Hl Ht. unfold is_locked, After in Hl. unfold guess_bound, failed_again. destruct (la_locked_until la); bound_lia. Qed.
Lemma guess_bound_nonneg la t t_end : (t <= t_end)%Z → (0 <= guess_bound la t t_end)%Z.
Proof. intros. unfold guess_bound. destruct (la_locked_until la); bound_lia. Qed.

Lemma guess_bound_max la t t_end :
  (t <= t_end)%Z → (guess_bound la t t_end <= Z.max 1 (lockoutThreshold - la_failed_count la) + (t_end - t) / lockoutWindow)%Z.
Proof. intros. unfold guess_bound. destruct (la_locked_until la); bound_lia. Qed.

Lemma run_guesses s key w rs w' :
  as_attemptsRepo s = true → login_run s key w rs w' → no_success rs →
  let la := failures key (w_db w) in
  (la_failed_count la + guess_bound la (w_now w) (w_now w') < 2 ^ 31)%Z → (Z.of_nat (guesses rs) <= guess_bound la (w_now w) (w_now w'))%Z.
Proof.
  intros Ha. induction 1 as [|w w1 rs w2 Hk Ht Hr IH|email pw ip ua w r w1 rs w2 Hk Hw H Hr IH]; intros Hs la Hc.
  - apply guess_bound_nonneg. lia.
  - pose proof (login_run_time _ _ _ _ _ Hr) as T2. cbv zeta in IH. rewrite (failures_congr key (w_db w) (w_db w1) Hk) in IH. fold la in IH.
    pose proof (guess_bound_later la _ _ _ Ht T2). specialize (IH Hs). lia.
  - assert (no_success rs) as Hs' by (intros x Hx; apply Hs; by right). destruct (Hs r) as [e ->]; [by left|].
    pose proof (login_run_time _ _ _ _ _ Hr) as T2. pose proof H as [_ T1]%forward_LoginContext. rewrite guesses_cons. cbv zeta in IH. rewrite T1 in IH, T2.
    specialize (IH Hs'). subst key. destruct (is_locked (w_now w) la) eqn:Hl.
    + apply LoginContext_locked in H as [[= ->] E]; [|done..]. rewrite (failures_congr _ (w_db w) (w_db w1)) in IH by (by rewrite E). cbn. apply IH. exact Hc.
    + pose proof (guess_bound_open la _ _ Hl T2) as Hb. pose proof (guess_bound_nonneg (failed_again lockoutThreshold lockoutWindow (w_now w) la) _ _ T2).
      apply LoginContext_open in H as [[x [=]]|[[(e' & [= <-] & Hn) E]|[[= ->] E]]]; [| |done|done|done|fold la; lia].
      * rewrite (failures_congr _ (w_db w) (w_db w1)) in IH by (by rewrite E). rewrite not_guess by done. apply IH. exact Hc.
      * change (is_guess (Err invalid_credentials)) with true. cbv iota. fold la in E.
        assert (failures (CanonicalEmail email) (w_db w1) = failed_again lockoutThreshold lockoutWindow (w_now w) la) as E1.
        { unfold failures at 1. by rewrite E, lookup_insert_eq. }
        rewrite E1 in IH. change (la_failed_count (failed_again _ _ _ _)) with (la_failed_count la + 1)%Z in IH. lia.
Qed.
End Guessing.

(** Failures of any age count. *)
Lemma stale_failures_lock t0 t : la_locked_until (failed_again lockoutThreshold lockoutWindow t (mkLoginRow 9 (Some t0) None)) = Some (t + lockoutWindow)%Z.
Proof. reflexivity. Qed.
(** Two failures that both read the counter before either writes it count once. *)
Lemma concurrent_failures_count_once :
  let run := (la ← Get "a@x"; lb ← Get "a@x";
              _ ← upsert "a@x" (failed_again lockoutThreshold lockoutWindow 1 la);
              upsert "a@x" (failed_again lockoutThreshold lockoutWindow 1 lb)) (world_of empty_db 1) in
  la_failed_count (failures "a@x" (w_db run.2)) = 1%Z.
Proof. vm_compute. reflexivity. Qed.

(** *** A sign-in with a password *)

Lemma LoginContext_Ok `{UC : Unicode} `{SQ : SQLText} `{J : JWT} `{P : Primitives} `{BC : Bcrypt} s email pw ip ua w r w' :
  let key := CanonicalEmail email in
  LoginContext s email pw ip ua w = (Ok r, w') →
  (as_attemptsRepo s = true → is_locked (w_now w) (failures key (w_db w)) = false) ∧
  ∃ u w1 w2, at_same w w1 ∧ user_row (us_ID u) (w_db w) = Some u ∧ email_key (us_Email u) = CanonicalEmail key ∧
    CheckPassword pw (us_PasswordHash u) = true ∧ sign_in s u ip ua w1 = (Ok r, w2) ∧
    (w_db w' = w_db w2 ∨ w_db w' = delete_attempt key (w_db w2)).
Proof.
  intros key H. unfold LoginContext in H. fold key in H. apply bind_Ok in H as (b & w1 & [S1 Hl]%account_locked_Ok & H).
  destruct b; [by apply bind_Ok in H as (? & ? & _ & [=])|]. split; [intros Ha; by rewrite Hl|].
  apply bind_Ok in H as (u & w2 & (Hu & Hk & Hc & ->)%verify_password_Ok & H). apply bind_Ok in H as (x & w3 & H3 & H).
  apply bind_Ok in H as (u4 & w4 & H4 & [<- <-]%ret_Ok). destruct S1 as (E1 & T1 & R1).
  exists u, (ticked w1), w3. cbn in Hu. rewrite E1 in Hu. split_and!; [by split_and!|done..|].
  destruct (as_attemptsRepo s); [|apply ret_Ok in H4 as [_ <-]; by left]. apply bind_attempt in H4 as (y & w5 & H5 & [_ <-]%ret_Ok).
  unfold Reset, wrap_err in H5. destruct (exec_ _ w3) as [[z|e] w6] eqn:E6; injection H5 as _ <-.
  - right. by apply exec__Ok in E6 as ->.
  - left. by apply exec_Err in E6.
Qed.

(** *** A sign-in with an external identity *)

Section Social.
Context `{UC : Unicode} `{ML : MailAddress} `{SQ : SQLText} `{J : JWT} `{P : Primitives} `{R : Remote} `{E : Elsewhere} `{OI : OIDC}.

Lemma exec_unique_Ok c e f u w w' : exec_unique c e f w = (Ok u, w') → exec f w = (Ok u, w').
Proof. unfold exec_unique. by destruct (exec f w) as [[]]. Qed.
Lemma ConsumeFlow_Ok hash provider challenge user session w u w' :
  ConsumeFlowForSession hash provider challenge user session w = (Ok u, w') →
  ∃ f, social_auth_flows (w_db w) !! hash = Some f ∧ flow_matches provider challenge (w_now w) user session f = true ∧
    w_db w' = on_accounts (upd_t_social_auth_flows (delete hash)) (w_db w) ∧ w_now w' = w_now w.
Proof.
  unfold ConsumeFlowForSession. intros H. branch H as B. apply bind_Ok in H as (t & w1 & [-> ->]%now_Ok & H).
  apply bind_Ok in H as (n & w1 & (db' & Hd & ->)%exec_n_Ok & [Hn <-]%check_Ok). unfold delete_flow in Hd.
  destruct (social_auth_flows (w_db w) !! hash) as [f|] eqn:Ef; [|by injection Hd as _ <-]. exists f.
  destruct (flow_matches _ _ _ _ _ f) eqn:M; [|by injection Hd as _ <-]. injection Hd as <- _. by split_and!.
Qed.
(** What an accepted identity does to the accounts. *)
Definition resolved (provider subject email : string) (linkUser : option uuid) (u : User) (db db' : DB) : Prop :=
  user_row (us_ID u) db' = Some u ∧
  match bound_user provider subject db with
  | Some id => us_ID u = id ∧ (linkUser = None ∨ linkUser = Some id) ∧ db' = db
  | None =>
      ∃ db1, db' = on_accounts (upd_t_social_identities <[(provider, subject) := mkSocialRow (us_ID u) email]>) db1 ∧
        match linkUser with
        | Some l => us_ID u = l ∧ db1 = db
        | None => users_by_email (CanonicalEmail email) db = [] ∧ (us_ID u ∉ users db) ∧ db1 = add_user (us_ID u) (ToLower email) "!" db
        end
  end.
Lemma new_account_Ok email w id w' :
  new_account email w = (Ok id, w') →
  users_by_email (CanonicalEmail email) (w_db w) = [] ∧ (id ∉ users (w_db w)) ∧ w_db w' = add_user id (ToLower email) "!" (w_db w) ∧ w_now w' = w_now w.
Proof.
  unfold new_account. intros (n & w1 & [-> ->]%query_Ok & H)%bind_Ok. branch H as B. apply negb_false_iff, Nat.eqb_eq, length_zero_iff_nil in B.
  apply bind_Ok in H as (k & w2 & (E2 & T2 & _)%uuid_New_at & H). apply bind_Ok in H as (u & w3 & (db' & Hi & ->)%exec_unique_Ok%exec_Ok & [<- <-]%ret_Ok).
  cbn in E2, T2. unfold insert_user in Hi. passed Hi as Bi. subst db'. rewrite !orb_false_iff in Bi. destruct Bi as [[[B1 _] _] _]. b2p.
  rewrite E2 in B1. cbn. by rewrite E2, T2.
Qed.
Lemma ResolveTx_Ok provider subject email linkUser w u w' :
  ResolveTx provider subject email linkUser w = (Ok u, w') → resolved provider subject email linkUser u (w_db w) (w_db w') ∧ w_now w' = w_now w.
Proof.
  unfold ResolveTx, resolved. intros (b & w1 & [-> ->]%query_Ok & H)%bind_Ok. apply bind_Ok in H as (id & w2 & H2 & [Hu ->]%query_row_Ok).
  pose proof Hu as (<- & _)%user_row_Some. cbn [w_db ticked upd_w_faults w_now] in *. destruct (bound_user provider subject (w_db w)) as [k|] eqn:Eb.
  - apply bind_Ok in H2 as (u3 & w3 & [Hc <-]%check_Ok & [E2 <-]%ret_Ok). subst k. cbn. split; [|done]. split; [done|]. split_and!; [done| |done].
    destruct linkUser; [right|by left]. b2p. by f_equal.
  - apply bind_Ok in H2 as (k & w3 & H3 & H2). apply bind_Ok in H2 as (u4 & w4 & (db4 & H4 & ->)%exec_unique_Ok%exec_Ok & [-> <-]%ret_Ok).
    unfold insert_identity in H4. passed H4 as B4. subst db4. cbn. destruct linkUser as [l|].
    + apply ret_Ok in H3 as [-> <-]. cbn. split; [|done]. split; [done|]. by eexists.
    + apply new_account_Ok in H3 as (H5 & H6 & H7 & H8). cbn in H5, H6, H7, H8. split; [|done]. split; [done|]. eexists. by split_and!.
Qed.
(** The facts a client can use. *)
Lemma resolved_user provider subject email linkUser u db db' :
  resolved provider subject email linkUser u db db' →
  bound_user provider subject db' = Some (us_ID u) ∧ sessions db' = sessions db ∧
  match linkUser with
  | Some l => us_ID u = l ∧ users db' = users db ∧ (bound_user provider subject db = None ∨ bound_user provider subject db = Some l)
  | None => bound_user provider subject db = Some (us_ID u) ∨
      bound_user provider subject db = None ∧ users_by_email (CanonicalEmail email) db = [] ∧ (us_ID u ∉ users db) ∧ us_PasswordHash u = "!"
  end ∧
  (∀ k, k ∈ users db → user_row k db' = user_row k db) ∧
  (∀ q, q ≠ (provider, subject) → social_identities db' !! q = social_identities db !! q).
Proof.
  intros [Hu H]. destruct (bound_user provider subject db) as [id|] eqn:Eb.
  - destruct H as (<- & Hl & ->). split_and!; try done. destruct linkUser as [l|]; [|by left].
    destruct Hl as [[=]|[= ->]]. split_and!; [done..|]. by right.
  - destruct H as (db1 & -> & H). split; [unfold bound_user, social_identities; cbn; by rewrite lookup_insert_eq|]. destruct linkUser as [l|].
    + destruct H as [<- ->]. split_and!; [done|done|done|by left|done|].
      intros q Hq. unfold social_identities. cbn. by rewrite lookup_insert_ne.
    + destruct H as (H1 & H2 & ->). split_and!; [done| | |].
      * right. split_and!; [done..|]. apply user_row_Some in Hu as (_ & Hin & _ & Hp). unfold user_password, add_user, password_hashes in Hp.
        cbn in Hp. rewrite decide_True in Hp by exact Hin. rewrite lookup_insert_eq in Hp. by injection Hp.
      * intros k Hk. assert (k ≠ us_ID u) by (by intros ->). unfold user_row, user_password, add_user, users, password_hashes, user_emails in *. cbn.
        rewrite !lookup_insert_ne by done. rewrite !decide_True by set_solver. done.
      * intros q Hq. unfold social_identities. cbn. by rewrite lookup_insert_ne.
Qed.

(** What is known of accounts lives in two groups of tables. *)
Lemma accounts_congr db db' :
  db_accounts db' = db_accounts db → db_identity db' = db_identity db →
  (∀ p q, bound_user p q db' = bound_user p q db) ∧ (∀ key, users_by_email key db' = users_by_email key db) ∧
  (∀ u, user_row u db' = user_row u db) ∧ users db' = users db ∧ sessions db' = sessions db ∧ social_identities db' = social_identities db.
Proof.
  intros Ea Ei. unfold bound_user, users_by_email, user_row, user_password, social_identities, users, sessions, user_emails, password_hashes.
  by rewrite Ea, Ei.
Qed.
Lemma logged_users db db' :
  logged db db' →
  (∀ p q, bound_user p q db' = bound_user p q db) ∧ (∀ key, users_by_email key db' = users_by_email key db) ∧
  (∀ u, user_row u db' = user_row u db) ∧ users db' = users db ∧ sessions db' = sessions db ∧ social_identities db' = social_identities db.
Proof. intros L. apply accounts_congr; [by apply logged_accounts|by apply logged_identity]. Qed.
(** A session is all that a new session changes of that. *)
Lemma new_session_users user id d t db :
  (∀ p q, bound_user p q (new_session user id d t db) = bound_user p q db) ∧
  (∀ u, user_row u (new_session user id d t db) = user_row u db) ∧ users (new_session user id d t db) = users db ∧
  sessions (new_session user id d t db) = <[id := mkSession user false t (session_expiry t)]> (sessions db) ∧
  social_identities (new_session user id d t db) = social_identities db.
Proof. by split_and!. Qed.

Section Complete.
Context (s : SocialAuthService).

Lemma auditEvent_logs user action provider ip w u w' : auditEvent s user action provider ip w = (Ok u, w') → logs w w'.
Proof.
  unfold auditEvent. destruct (so_audit s) as [r|]; [|done].
  destruct (Create_logs r user None action "" (mk_obj [("provider", JStr provider)]) ip) as [Hk Hf]. by eapply logs_of.
Qed.
Lemma link_session_recent_Ok linkUser linkSession w u w' : link_session_recent s linkUser linkSession w = (Ok u, w') → at_same w w'.
Proof.
  unfold link_session_recent. destruct linkUser as [user|]; [|by intros [_ <-]%ret_Ok]. destruct (so_sessions s) as [ss|]; [|by intros [_ <-]%ret_Ok].
  destruct linkSession as [k|]; [|done]. intros (c & w1 & H & ->)%with_tx_or_Ok%with_tx_opt_Ok.
  apply bind_Ok in H as (u1 & w2 & (_ & _ & _ & _ & _ & _ & _ & T2 & R2)%LockActiveTx_Ok & [[= _ <-] <-]%ret_Ok). split_and!; [done|exact T2|exact R2].
Qed.
Lemma exchange_Ok deadline provider p code state verifier w i w' :
  exchange s deadline provider p code state verifier w = (Ok i, w') → identity_ok i = true.
Proof.
  unfold exchange. intros (t & w1 & _ & H)%bind_Ok. branch H as B. apply bind_Ok in H as (x & w2 & _ & H). destruct (identity_ok x) eqn:Hx; [|done].
  by apply ret_Ok in H as [<- _].
Qed.

Lemma admit_identity_Ok ss provider ip ua i linkUser linkSession w r w' :
  so_sessions s = Some ss → admit_identity s provider ip ua i linkUser linkSession w = (Ok r, w') →
  ∃ db1, resolved provider (id_Subject i) (id_Email i) linkUser (ar_User r) (w_db w) db1 ∧
    match linkUser with
    | Some u => ar_Token r = "" ∧ logged db1 (w_db w') ∧
        ∃ k row, linkSession = Some k ∧ sessions (w_db w) !! k = Some row ∧ se_user_id row = u ∧ se_revoked row = false ∧
          (w_now w < se_expires_at row)%Z ∧ (w_now w - se_created_at row <= RecentAuthenticationWindow)%Z
    | None => ∃ id d, sessions db1 !! id = None ∧ sd_token_hash d = HashAPIKey (ar_Token r) ∧
        signClaims (ss_jwt ss) (session_claims (us_ID (ar_User r)) (us_Email (ar_User r)) id (w_now w)) = Ok (ar_Token r) ∧
        logged (new_session (us_ID (ar_User r)) id d (w_now w) db1) (w_db w')
    end.
Proof.
  intros Hs H. unfold admit_identity in H. rewrite Hs in H. apply with_tx_Ok in H as (w9 & H & ->). cbn [w_db ticked upd_w_faults].
  set (w0 := upd_w_locks _ _) in H. assert (at_same w w0) as (E0 & T0 & _) by by split_and!. clearbody w0.
  apply bind_Ok in H as (b & w1 & [-> ->]%query_Ok & H). apply bind_Ok in H as (known & w2 & H2 & H).
  assert (w2 = ticked w0) as -> by (destruct linkUser as [l|]; [by apply bind_Ok in H2 as (? & ? & [_ <-]%check_Ok & [_ <-]%ret_Ok)|by apply ret_Ok in H2 as [_ <-]]).
  clear H2. apply bind_Ok in H as (u3 & w3 & H3 & H).
  assert (w_db w3 = w_db w ∧ w_now w3 = w_now w) as [E3 T3].
  { destruct (bool_decide (known = uuid_Nil)); [by apply ret_Ok in H3 as [_ <-]|]. apply LockSubjects_Ok in H3 as [_ (A & B & _)].
    split; [by rewrite A|by rewrite B]. }
  apply bind_Ok in H as (u4 & w4 & H4 & H).
  assert (w_db w4 = w_db w ∧ w_now w4 = w_now w ∧ ∀ u, linkUser = Some u → ∃ k row, linkSession = Some k ∧ sessions (w_db w) !! k = Some row ∧ se_user_id row = u ∧
    se_revoked row = false ∧ (w_now w < se_expires_at row)%Z ∧ (w_now w - se_created_at row <= RecentAuthenticationWindow)%Z) as (E4 & T4 & Hlive).
  { destruct linkUser as [u|]; [|by apply ret_Ok in H4 as [_ <-]]. destruct linkSession as [k|]; [|done].
    apply LockActiveTx_Ok in H4 as (row & H5 & H6 & H7 & H8 & H9 & A & B & _). rewrite E3 in H5. rewrite T3 in H8, H9.
    split_and!; [congruence..|]. intros u' [= <-]. exists k, row. split_and!; auto. }
  apply bind_Ok in H as (user & w5 & [Hr T5]%ResolveTx_Ok & H). rewrite E4 in Hr. apply bind_Ok in H as (token & w6 & H6 & H).
  apply bind_Ok in H as (u7 & w7 & H7 & H). apply bind_Ok in H as (u8 & w8 & L8%identityEventTx_logs & [<- <-]%ret_Ok).
  assert (logged (w_db w6) (w_db w8)) as L.
  { etrans; [|exact (proj1 L8)]. destruct (so_audit s) as [rp|]; [|done]. by eapply CreateTx_logs. }
  exists (w_db w5). split; [done|]. destruct linkUser as [u|].
  - apply ret_Ok in H6 as [<- <-]. split_and!; [done..|by apply Hlive].
  - apply IssueTx_Ok in H6 as (id & d & _ & _ & _ & Hsig & Hn & Hd & L6). rewrite T5, T4 in Hsig, L6. exists id, d. split_and!; [done..|]. by etrans.
Qed.

Lemma CompleteWithSession_Ok provider code state verifier ip linkUser linkSession ua w r w' :
  CompleteWithSession s provider code state verifier ip linkUser linkSession ua w = (Ok r, w') →
  (∃ f, social_auth_flows (w_db w) !! socialHash state = Some f ∧ flow_matches provider (challenge_of verifier) (w_now w) linkUser linkSession f = true) ∧
  ∃ p i w1 w2 w3, provider_config s provider = Ok p ∧ social_auth_flows (w_db w1) = delete (socialHash state) (social_auth_flows (w_db w)) ∧
    exchange s (w_now w + 15 * Second)%Z provider p code state verifier w1 = (Ok i, w2) ∧ logs w2 w3 ∧
    admit_identity s provider ip ua i linkUser linkSession w3 = (Ok r, w').
Proof.
  unfold CompleteWithSession. intros (p & w1 & [Hp ->]%lift_Ok & H)%bind_Ok. branch H as B.
  apply bind_Ok in H as (u1 & w1' & (E1 & T1 & _)%link_session_recent_Ok & H). apply bind_Ok in H as (u2 & w2 & (f & Hf & Hm & E2 & T2)%ConsumeFlow_Ok & H).
  rewrite E1 in Hf, E2. rewrite T1 in Hm. split; [by exists f|].
  apply bind_Ok in H as (t & w3 & [-> ->]%now_Ok & H). rewrite T2, T1 in H. apply bind_attempt in H as (x & w3 & H3 & H).
  destruct x as [i|e]; [|by apply bind_Ok in H as (? & ? & _ & [=])]. apply bind_Ok in H as (u4 & w4 & L%auditEvent_logs & H).
  exists p, i, w2, w3, w4. split_and!; try done. by rewrite E2.
Qed.
(** A state without a flow is refused. *)
Lemma CompleteWithSession_no_flow provider code state verifier ip linkUser linkSession ua w r w' :
  social_auth_flows (w_db w) !! socialHash state = None →
  CompleteWithSession s provider code state verifier ip linkUser linkSession ua w = (r, w') → ∃ e, r = Err e.
Proof.
  intros Hn H. destruct r as [r|e]; [|by eexists]. apply CompleteWithSession_Ok in H as [(f & Hf & _) _]. congruence.
Qed.
End Complete.
End Social.

(** ** Properties *)

Section Properties.
Context `{UC : Unicode} `{ML : MailAddress} `{SQ : SQLText} `{J : JWT} `{P : Primitives} `{BC : Bcrypt} `{R : Remote} `{E : Elsewhere} `{OI : OIDC}.

(** C11: a password signs in to its own account only: a sign-in that succeeds was of
    the account whose canonical email was given, whose stored hash accepts the
    password, and which was not locked; all it leaves is one new session of that
    account, for which the token is signed, the audit trail, and a cleared
    counter; and if the hash was changed between the check and the transaction
    (a recovery, say) the transaction issues nothing. *)
Theorem Login_admits s ss email pw ip ua w r w' :
  as_sessions s = Some ss → LoginContext s email pw ip ua w = (Ok r, w') →
  let user := ar_User r in let key := CanonicalEmail email in
  user_row (us_ID user) (w_db w) = Some user ∧ email_key (us_Email user) = CanonicalEmail key ∧
  CheckPassword pw (us_PasswordHash user) = true ∧
  (as_attemptsRepo s = true → is_locked (w_now w) (failures key (w_db w)) = false) ∧
  (∃ id d, let db := new_session (us_ID user) id d (w_now w) (w_db w) in
     sessions (w_db w) !! id = None ∧ sd_token_hash d = HashAPIKey (ar_Token r) ∧
     signClaims (ss_jwt ss) (session_claims (us_ID user) (us_Email user) id (w_now w)) = Ok (ar_Token r) ∧
     (logged db (w_db w') ∨ logged (delete_attempt key db) (w_db w'))) ∧
  ∀ w2 r2 w3, sign_in s user ip ua w2 = (Ok r2, w3) → user_password (us_ID user) (w_db w2) = Some (us_PasswordHash user).
Proof.
  intros Hs (Hl & u & w1 & w2 & (E1 & T1 & _) & Hu & Hk & Hc & H & D)%LoginContext_Ok. apply (sign_in_Ok s ss) in H as (_ & E2 & id & d & Hn & Hd & Hg & L); [|done].
  rewrite E1 in Hn, L. rewrite T1 in Hg, L. rewrite E2. split_and!; [done..| |].
  - exists id, d. split_and!; [done..|]. destruct D as [-> | ->]; [by left|right]. by apply logged_congr.
  - by intros w3 r3 w4 [Hp _]%(sign_in_Ok s ss).
Qed.


(** C13: an external identity signs in to the account it is bound to, and to no
    other: a completed sign-in consumed the flow of its state, which was open, of
    the same provider and PKCE challenge and for the same link, before the
    provider was asked, so that no second use of the state is let in; the account
    is the one bound to the identity when the provider had answered, or a new one
    without a password whose email no account had, or, when a user links an
    identity, that user, by a recent session; whatever happened meanwhile, no
    other account and no other binding changes. *)
Theorem social_sign_in_binds s ss provider code state verifier ip link linkSession ua w r w' :
  so_sessions s = Some ss → CompleteWithSession s provider code state verifier ip link linkSession ua w = (Ok r, w') →
  let user := us_ID (ar_User r) in
  (∃ f, social_auth_flows (w_db w) !! socialHash state = Some f ∧ flow_matches provider (challenge_of verifier) (w_now w) link linkSession f = true) ∧
  (∃ p i w1 w2, provider_config s provider = Ok p ∧ social_auth_flows (w_db w1) !! socialHash state = None ∧
     exchange s (w_now w + 15 * Second)%Z provider p code state verifier w1 = (Ok i, w2) ∧ identity_ok i = true ∧
     bound_user provider (id_Subject i) (w_db w') = Some user ∧
     match link with
     | Some u => user = u ∧ ar_Token r = "" ∧ sessions (w_db w') = sessions (w_db w2) ∧ users (w_db w') = users (w_db w2) ∧
         (bound_user provider (id_Subject i) (w_db w2) = None ∨ bound_user provider (id_Subject i) (w_db w2) = Some u) ∧
         ∃ k row, linkSession = Some k ∧ sessions (w_db w2) !! k = Some row ∧ se_user_id row = u ∧ se_revoked row = false ∧
           (w_now w2 < se_expires_at row)%Z ∧ (w_now w2 - se_created_at row <= RecentAuthenticationWindow)%Z
     | None =>
         (bound_user provider (id_Subject i) (w_db w2) = Some user ∨
          bound_user provider (id_Subject i) (w_db w2) = None ∧ users_by_email (CanonicalEmail (id_Email i)) (w_db w2) = [] ∧
          (user ∉ users (w_db w2)) ∧ us_PasswordHash (ar_User r) = "!") ∧
         ∃ id, sessions (w_db w2) !! id = None ∧
           sessions (w_db w') = <[id := mkSession user false (w_now w2) (session_expiry (w_now w2))]> (sessions (w_db w2)) ∧
           signClaims (ss_jwt ss) (session_claims user (us_Email (ar_User r)) id (w_now w2)) = Ok (ar_Token r)
     end ∧
     (∀ u, u ∈ users (w_db w2) → user_row u (w_db w') = user_row u (w_db w2)) ∧
     ∀ q, q ≠ (provider, id_Subject i) → social_identities (w_db w') !! q = social_identities (w_db w2) !! q) ∧
  ∀ provider' code' verifier' ip' link' session' ua' w3 r' w4, social_auth_flows (w_db w3) !! socialHash state = None →
    CompleteWithSession s provider' code' state verifier' ip' link' session' ua' w3 = (r', w4) → ∃ e, r' = Err e.
Proof.
  intros Hs (Hf & p & i & w1 & w2 & w3 & Hp & H1 & Hx & [L2 T2] & H)%CompleteWithSession_Ok user. split; [done|]. split; [|by intros; eapply CompleteWithSession_no_flow].
  apply (admit_identity_Ok s ss) in H as (db1 & Hr & H); [|done]. exists p, i, w1, w2.
  pose proof (exchange_Ok _ _ _ _ _ _ _ _ _ _ Hx) as Hi. split; [done|]. split; [by rewrite H1, lookup_delete_eq|]. split; [done|]. split; [done|].
  apply resolved_user in Hr as (R1 & R2 & R3 & R4 & R5). fold user in R1, R3.
  apply logged_users in L2 as (B3 & M3 & U3 & N3 & S3 & I3).
  setoid_rewrite U3 in R4. setoid_rewrite I3 in R5. rewrite N3 in R3, R4. rewrite S3 in R2.
  destruct link as [l|]; rewrite ?B3, ?M3 in R3.
  - destruct R3 as (Eu & Ru & Rb). destruct H as (Ht & L & Hl). apply logged_users in L as (B4 & _ & U4 & N4 & S4 & I4).
    setoid_rewrite U4. setoid_rewrite I4. rewrite B4, S4, R2, N4, S3, T2 in *. by split_and!.
  - destruct H as (id & d & Hn & _ & Hg & L). apply logged_users in L as (B4 & _ & U4 & N4 & S4 & I4).
    destruct (new_session_users (us_ID (ar_User r)) id d (w_now w3) db1) as (B5 & U5 & N5 & S5 & I5). fold user in Hg.
    setoid_rewrite U4. setoid_rewrite U5. setoid_rewrite I4. rewrite B4, B5, S4, S5, I5, R2, T2 in *. split_and!; try done. by exists id.
Qed.
End Properties.

(** ** Examples: one account, and an identity nobody has *)

Import Toy.

#[local] Existing Instance Provider.quiet.
#[local] Instance demo_sql : SQLText := ToLower.
(** Google answers, and its token names a new subject. *)
Definition demo_state : string := "0123456789abcdef0123456789abcdef0123456789abcdef0123456789abcdef".
Definition demo_verifier : string := "0123456789-abcdefghijklmnopqrstuvwxyz_ABCDEFG".
#[local] Instance demo_google : Remote := {|
  http_Do _ _ := (0%N, Some (mkHTTPAnswer 200 (λ _, Some (Marshal (mk_obj [("id_token", JStr "token")]))))); http_URL_ok _ := true;
  rsa_key _ := None; jwt_RS256 _ _ _ _ := None; sha1 s := s |}.
#[local] Instance demo_oidc : OIDC := λ _ client _,
  (0%N, Some (mkIDToken "subject-1" demo_state [client] (mk_obj [("email", JStr "new@x"); ("email_verified", JBool true)]))).

Definition demo_flow : flow_row := mkFlowRow "google" (challenge_of demo_verifier) None None 600.
Definition demo_accounts_db : DB :=
  (upd_db_identity (upd_t_users (const {[1%N]}))
   ∘ upd_db_accounts (upd_t_password_hashes (const {[1%N := "$2Old-passw0rd"]}) ∘ upd_t_user_emails (const {[1%N := "a@x"]})
     ∘ upd_t_auth_login_attempts (const {["a@x" := mkLoginRow 9 (Some 0%Z) None]})
     ∘ upd_t_social_auth_flows (const {[socialHash demo_state := demo_flow]}))) empty_db.
Definition demo_door : World := world_of demo_accounts_db Minute.
Definition demo_auth : AuthService := mkAuthService true (Some demo_chain) (ss_jwt demo_sign_in) (Some demo_sign_in) DBTypePostgres.
Definition demo_social : SocialAuthService :=
  mkSocialAuthService (mkSocialConfig "https://ks.example" (mkSocialProvider "client" "secret") (mkSocialProvider "" ""))
    (Some demo_chain) (ss_jwt demo_sign_in) (Some demo_sign_in) DBTypePostgres.

Definition demo_try (pw : string) : Tx AuthResponse := LoginContext demo_auth " A@x" pw "::1" "curl".
Definition response_of (m : Tx AuthResponse) (w : World) : AuthResponse :=
  match (m w).1 with Ok r => r | Err _ => mkAuthResponse (mkUser 0 "" "") "" end.

Lemma demo_login_run : demo_try "Old-passw0rd" demo_door = (Ok (response_of (demo_try "Old-passw0rd") demo_door), (demo_try "Old-passw0rd" demo_door).2).
Proof. apply run_pair. vm_compute. reflexivity. Qed.
(** The tenth failure, and then the password itself. *)
Lemma demo_guess_run :
  demo_try "guess" demo_door = (Err invalid_credentials, (demo_try "guess" demo_door).2) ∧
  demo_try "Old-passw0rd" (demo_try "guess" demo_door).2 = (Err ErrAccountLocked, (demo_try "Old-passw0rd" (demo_try "guess" demo_door).2).2) ∧
  w_faults (demo_try "guess" demo_door).2 = [] ∧ w_now (demo_try "Old-passw0rd" (demo_try "guess" demo_door).2).2 = Minute.
Proof. split_and!; [apply run_pair; vm_compute; reflexivity..|vm_compute; reflexivity|vm_compute; reflexivity]. Qed.

Lemma Login_admits_witness :
  let r := response_of (demo_try "Old-passw0rd") demo_door in
  CheckPassword "Old-passw0rd" (us_PasswordHash (ar_User r)) = true ∧
  is_locked (w_now demo_door) (failures (CanonicalEmail " A@x") (w_db demo_door)) = false.
Proof.
  destruct (Login_admits demo_auth demo_sign_in " A@x" "Old-passw0rd" "::1" "curl" demo_door _ _ eq_refl demo_login_run) as (_ & _ & C & L & _).
  exact (conj C (L eq_refl)).
Defined.


Definition demo_complete : Tx AuthResponse := CompleteWithSession demo_social "google" "code" demo_state demo_verifier "::1" None None "curl".
Lemma demo_complete_run : demo_complete demo_door = (Ok (response_of demo_complete demo_door), (demo_complete demo_door).2).
Proof. apply run_pair. vm_compute. reflexivity. Qed.
Lemma social_sign_in_binds_witness :
  let r := response_of demo_complete demo_door in
  ∃ i, bound_user "google" (id_Subject i) (w_db (demo_complete demo_door).2) = Some (us_ID (ar_User r)).
Proof.
  destruct (social_sign_in_binds demo_social demo_sign_in "google" "code" demo_state demo_verifier "::1" None None "curl" demo_door _ _ eq_refl
    demo_complete_run) as (_ & (p & i & w1 & w2 & _ & _ & _ & _ & B & _) & _).
  exact (ex_intro _ i B).
Defined.
